(* ===== verification/_CoqProject ===== *)
-Q . S2P
Prelude.v
Hoare.v
PyFloat.v
PyVal.v
PyJson.v
PyTime.v
TrialContracts.v
PyIso.v
PyIsoOrder.v
PyStamp.v
Safety.v
ConditionPolicy.v
ConditionMonitor.v
ConditionMonitorProps.v
PyRegex.v
EvidenceAssessment.v
TrialFacts.v
NodeEvaluation.v
CapabilityLoss.v
NodeEvaluationProps.v
TrialVerdict.v
TrialVerdictProps.v
PlanSchema.v
SimulatedUser.v
SimulatedUserProps.v
Sha256.v
ChaosGates.v
ChaosPlan.v
ChaosLedger.v
ChaosService.v
ChaosEntries.v
ChaosInv.v
ChaosDelete.v
ChaosSweep.v
ChaosDestroy.v
ChaosLease.v
ChaosCreate.v
ChaosProps.v
RunStore.v
RunStoreInv.v
RunStoreProps.v
RunService.v
RunServiceProps.v
RunServiceOverlap.v
PlatformLedger.v
PlatformLedgerInv.v
PlatformLedgerProps.v
CapabilityPolicy.v
CapabilityPolicyProps.v
HarnessChannel.v
HarnessChannelProps.v
LossOrchestrator.v
LossRuntime.v
LossProps.v
ResetPolicy.v
Resetter.v
ResetterProps.v
DisturbanceTypes.v
DisturbanceGate.v
Injector.v
TelemetryRules.v
EpisodeBuilder.v
Progression.v
ProgressionSpec.v
ProgressionRefinement.v
ProgressionProps.v
Orchestrator.v
Evaluator.v
Scoring.v
FleetGuard.v
FleetContracts.v
FleetStore.v
FleetScheduler.v
FleetDispatch.v
FleetPlan.v
FleetProps.v
FleetOverlap.v
