(* ===== verification/Prelude.v ===== *)
(** * A verification of the Resilience Benchmark

    The program measures how an AI agent diagnoses and repairs faults that are
    injected into a running system. A controller process runs trials against
    replicas of that system; a fleet service spreads batches of trials over many
    controllers; an evaluator judges the evidence and a scorer turns the verdicts
    into numbers. This library models the parts of it that decide something and
    proves what they promise. Paths below are relative to [src/].

    ** The parts and the files that model them

    A trial. [Safety.v] is [controller/safety.py]: the lifecycle of a trial and the
    validators of policies and fault actions. [DisturbanceTypes.v]
    ([disturbances/types.py]) has the documents that describe a disturbance, with
    their readers and printers and the replay seeds, which need [Sha256.v].
    [DisturbanceGate.v] ([controller/disturbance.py]) authorizes one; its class
    [SafetyGate] is what [Injector.v] ([disturbances/injector.py]) needs of a gate.
    The injector listens to lifecycle events, runs the disturbances that match
    through its adapters and cleans up. [TelemetryRules.v]
    ([disturbances/telemetry_interceptor.py]) is the engine behind the telemetry
    adapter: calls that fail on schedule, and gaps in metric responses.

    The chaos gateway, through which an Agent's plan becomes a fault.
    [ConditionPolicy.v] and [PlanSchema.v] ([stage2_service/condition_policy.py],
    [stage2_service/plan_schema.py]) fix the timing and judge the plan. [ChaosGates.v],
    [ChaosLedger.v] and [ChaosService.v] ([mcp_servers/chaos_core/]) are the executors'
    workflow over the shared cleanup ledger: one definition per method, over any
    backend. [ChaosEntries.v] is the ledger's invariant, [ChaosInv.v] shows that every
    method keeps it, [ChaosDelete.v] what a deletion checks, [ChaosSweep.v] and [ChaosDestroy.v]
    what ends a fault, [ChaosCreate.v] the gates of a creation, [ChaosLease.v] the deadline,
    [ChaosPlan.v] the Oracle's copy of the plan gate, and [ChaosProps.v]
    the theorems on all reachable ledgers. [PyIso.v] is [datetime]'s ISO format.

    An episode. [EpisodeBuilder.v] ([progression/builder.py]) builds the levels of an
    episode. [Progression.v] ([progression/controller.py]) hands out trials and keeps
    a checkpoint; [ProgressionSpec.v] is the abstract machine it implements,
    [ProgressionRefinement.v] the simulation and [ProgressionProps.v] the theorems on
    all of its runs. [Orchestrator.v] ([progression/orchestrator.py]) is the loop that
    runs the trials: it calls the progression controller and the injector.

    Verdicts. [Evaluator.v] ([evaluator/evaluator.py]) judges gates and behaviours on
    evidence; what it returns for a level is what the orchestrator accepts.
    [Scoring.v] ([scoring/]) computes scores from the level results. A Trial of
    [stage2_service/] is judged by an evaluator of its own: [TrialContracts.v]
    ([contracts.py]) are the records it reads, [EvidenceAssessment.v]
    ([evidence_assessment.py], on the regular expressions of [PyRegex.v]) finds where the
    Agent contradicts itself, [TrialFacts.v] ([trial_facts.py]) says what is known and from
    whom, [NodeEvaluation.v] ([node_evaluation.py]) has the gate of the experiment and the
    scored nodes ([NodeEvaluationProps.v]), [CapabilityLoss.v] ([capability_loss/]: budget,
    prechecks, scoring) the score of an Agent that lost a tool, and [TrialVerdict.v] ([evaluator.py]) composes them into the
    decision on the Trial ([TrialVerdictProps.v]).

    The fleet. [FleetGuard.v] ([fleet_service/guard.py]) says which namespaces may be
    touched, [FleetContracts.v] ([fleet_service/contracts.py]) which batches are
    accepted, [FleetStore.v] ([fleet_service/store.py]) is the database, and
    [FleetScheduler.v] ([fleet_service/scheduler.py], the batch handlers of
    [fleet_service/api.py]) plans batches, polls controllers and dispatches items.
    [FleetDispatch.v] proves the invariant of the item table for every pass and every
    handler, [FleetPlan.v] what a plan is, [FleetProps.v] the theorems on the states that
    passes and handlers reach one after the other, and [FleetOverlap.v] lets the threads of
    the service overtake each other at every call of the store.

    The control plane's memory. [RunStore.v] ([controller/run_contracts.py],
    [controller/run_store.py]) is the database of runs, phases, events, artifacts,
    the lease of the worker and the lease of the mutating run, one definition per
    method; [RunStoreInv.v] its invariant, its histories and the commit relation of
    its transactions, and [RunStoreProps.v] the theorems on all histories.
    [RunService.v] ([controller/run_service.py]) is the facade over it and the journal
    in files that mirrors it, [RunServiceProps.v] what the two guarantee together when calls
    follow each other, [RunServiceOverlap.v] when they overlap, as the heartbeat of a run's
    lease does with its workflow.
    [PyJson.v] is the text of [json.dumps] with sorted keys, on which a run's digest
    is taken, and [PyIsoOrder.v] the fact the leases rest on: ISO texts of UTC times
    compare as the times do.

    Around a trial, in [stage2_service/]. [PlatformLedger.v] ([platform_ledger.py]) is the
    ledger of a Trial's events and of the notices its Agent is to read, on the stamps of
    [PyStamp.v]; [PlatformLedgerInv.v] has its invariant and the effect of an append,
    [PlatformLedgerProps.v] the theorems. [ResetPolicy.v] and [Resetter.v]
    ([reset_policy.py], [environment_resetter.py]) bring the environment back between
    trials ([ResetterProps.v]). [ConditionMonitor.v] ([condition_monitor.py]) is the thread that
    watches a fault's effect and its deadline, one step of the thread at a time, with the
    other threads in between ([ConditionMonitorProps.v]). [CapabilityPolicy.v]
    ([capability_policy.py]) is the policy file that says which tools work at present, each
    change recorded in the ledger ([CapabilityPolicyProps.v]). [SimulatedUser.v]
    ([simulated_user.py]) reviews what the Agent asks and plans, over any model
    ([SimulatedUserProps.v]). [HarnessChannel.v] ([mcp_servers/harness_channel/]) is what an
    Agent can call of all this: it reads the ledger and the policy document and asks a
    responder, the class [UserResponder], which [simulated_user] implements; the class
    [LawfulResponder] is what [HarnessChannelProps.v] needs of one, and
    [simulated_user_lawful] shows the simulated user keeps it. [LossOrchestrator.v]
    ([capability_loss/orchestrator.py]) takes a tool away in the course of a Trial: one state per
    Trial, kept in step with the policy file and the ledger. [LossRuntime.v]
    ([capability_loss/runtime.py]) calls it before every call of the Agent and after every
    result, and builds at the end the facts that [CapabilityLoss.v] scores. [LossProps.v] has
    the theorems on both, on the preorders ([moves] of [Hoare.v]) that no step leaves.

    ** How code is modelled

    A function that may raise returns a [result] (this file); a method that changes
    state is a [prog S A], a function from a state to a state and a result, so that
    what a raising method had already written stays written. [Hoare.v] has the
    triples used on such programs. A JSON document is a [val] ([PyVal.v]), read with
    the operations and the exceptions of Python; a [dict] is an association list in
    insertion order, a database table a [gmap]. A [float] is a binary64 number
    ([PyFloat.v]: exact rationals rounded to nearest, even), an [int] is a [Z], a
    [datetime] is [PyTime.v]'s. A loop over a list is a [foldM] or a [Fixpoint] on it.
    The loops without a bound in their text take fuel: the orchestrator's, for which
    [run_terminates] shows that one more than the sum of the attempt budgets is always
    enough; the ledger's paging, for which [all_events_read] gives one page more than
    there are events; the monitor's polling, which ends only when clocks move on:
    [overdue_fault_settled] says how much is enough once the deadline has passed. The
    removal of Markdown fences takes the length of the text.
    Methods that hold a lock are one step, and where the code holds none the calls of the
    store, or the steps of the thread, are the steps ([FleetOverlap.v], [RunServiceOverlap.v],
    [ConditionMonitor.v]); a call of the Harness channel is one sequence of steps, each of
    which may fail, and other processes act between calls.

    What the code only calls is a parameter: the Kubernetes and telemetry clients, the
    harness, the environment preparer and the finalizer, the HTTP clients of the
    controllers, the chaos backends, disks, clocks and [random]. Where a theorem needs something of them it is a
    class or a named hypothesis: [SafetyGate], [RandomSample], [PyRandom],
    [store_reliable], [UserResponder] and [LawfulResponder], [pydantic_reports]. What pydantic
    makes of the fields of a document of facts is [facts_fields], an argument of [decision].

    ** What is proved

    Safety of trials: accepted actions and disturbances meet every condition of the
    policy ([validate_action_ok_iff], [authorize_allowed_iff]); the lifecycle cannot
    skip qualification ([lifecycle_sound]); a disturbance is decided at most once, the
    mutating ones stay within the gate's budget, and the clean-up reaches each
    ([disturbance_decided_once], [mutating_disturbances_bounded],
    [cleanup_all_exact]).

    Faults in the cluster: whatever executors, disks and clusters do, a handle and a
    baseline token pay for one creation, recorded before it is asked for
    ([creation_paid_once]); nothing in the cluster changes before every gate has passed, the
    identity of the Controller among them ([creation_gated]); executors of one Trial exclude each other as far as the ledger
    knows ([executors_exclusive]; the example [two_executors_one_trial] shows what it
    does not know); deletions, destructions and sweeps do what they report
    ([deletion_checked], [destruction_complete], [sweep_exact]), and a lease ends when
    its request said ([lease_expires]). The Oracle's copy of the plan gate decides as the
    gate does ([oracle_is_the_gate]); an integer no double holds makes it raise
    ([huge_threshold_raises]). The monitor's thread ends a fault at most once, only after it was
    seen to run and only when it is overdue, and its [finish] asks for one more end at most
    ([overdue_fault_ended_once], [destroyed_twice]); while nothing in the callback raises, the
    watch over an overdue fault always comes to an end ([overdue_fault_settled]), and an effect
    counts only when it held ([effect_met_only_if_held]).

    What an Agent is told and allowed: the channel writes a decision only from an answer that
    allows the plan ([confirm_gated]), with the simulated user only within the Trial's
    envelope, whatever the model says ([decisions_within_envelope],
    [approvals_within_envelope]; the Controller's process writes decisions of its own into the
    same file), and with no field decided against the policy, except for the defaults of the
    timing fields that the Controller fills in ([approvals_within_authority]); a hint is given at most once
    ([hint_delivered_once]) and only after a denial a disturbance caused ([consult_gated]).
    The policy file changes atomically ([policy_changes_atomic]) and as asked
    ([set_tool_exact]). A notice has one receipt ([one_receipt_per_delivery]), two readers
    never hold it together ([claim_kept]) and every waiting one is offered
    ([waiting_notices_offered]). A reset uninstalls only after a dry run ([reset_gated]) and
    never touches a run whose recovery is unverified ([unverified_recovery_untouched]). Where a
    tool was taken away the states only go forward whatever fails ([loss_histories]; the policy
    is changed first, so [disabled_before_recorded] has a tool that no state says is lost),
    calls of that tool are refused and the others bounded by calls and seconds
    ([loss_decisions]), the alternative creates only a plan the platform granted, and granted
    after the disturbance when its event is on record ([create_confirmed];
    [earlier_grant_confirms] is the case in which the append of that event failed), and a Trial that counts has got its
    tools back ([valid_facts_restored]).

    Progress of episodes: the progression controller refines its specification
    ([progression_simulates]), in a fresh process or one that resumed, so a PASS has a passing
    trial of every level, budgets hold, a repeated result changes nothing and a checkpoint
    resumes; the orchestrator terminates and its PASS is the evaluator's on every level, in
    this run or in the history it resumed.

    Verdicts and scores: PASS exactly on proved gates ([evaluate_pass_iff]),
    [evaluate_level_sound], [level_result_accepted]; scores within [0, 1] and ordered
    as intended, in floating point. A Trial is judged exactly when the platform held
    ([judged_iff_valid]); a PASS means that no fault was left and what the case asks for was
    found ([pass_backed]); verdict and reasons agree in the cases of [explained]
    ([verdict_explained]), and [control_passes_uncleaned], [failure_without_reason] and
    [pass_with_failed_check] show cases in which they do not; the score of a lost tool is a
    PASS exactly when the facts resolve it ([substitution_verdict_iff]). A node of a Trial
    counts as verified only on the Controller's evidence ([verified_nodes_evidenced]), its
    points stay within its weight ([node_scores_bounded]), and nodes outside a case are left
    out once ([applicability_idempotent]).

    Runs: phases and their states only move forward and every event is kept
    ([run_histories]), a run that ended is frozen ([ended_runs_frozen]), at most one
    run may mutate and at most one worker holds the lease
    ([mutation_lease_exclusive], [worker_lease_exclusive]), the oldest waiting run is
    handed out first, a call that raises changes nothing, and the files are never ahead of
    the database and say what it says after a call nothing overlaps ([journal_mirrors_store];
    [stale_journal] shows the files behind).

    Fleet: no two active trials on one slot, however the threads overtake each other, unless
    a stop dequeues an item that is being submitted ([one_trial_per_slot],
    [stop_overtakes_submission]); when passes and handlers follow each other, bounded retries
    and submissions and frozen stopped batches ([FleetProps.v]); sound plans, exact validators,
    and namespaces that can be destroyed only when they are replicas.

    ** Not modelled

    Processes, HTTP, files and clusters: the backend and frontend, the scripts and
    deployment, the harness drivers, the provisioner and its manifests, and the model
    gateway only move data. The wire formats of libraries (pydantic's parsing, YAML,
    SQLite, the JSON text) are replaced by the documents they carry. Threads are
    modelled as steps in an order of their own where the code holds a lock around each step,
    in the monitor, and at the calls of the Fleet's and the runs' stores; the other theorems
    on the Fleet's histories take a pass or a handler at a time. Waiting for the ledger's lock and the temporary
    files of its writes are not modelled, and neither are the native backends. The runtime oracle
    ([evaluator/runtime_oracle.py]) queries a live cluster, and the task service, the harness
    runtime, the runtime factory and the campaigns of [stage2_service/] start processes and
    HTTP sessions and keep run directories: what they decide is in the parts above that they
    call. Of the simulated user the policy's description for the model and the HTTP client
    are left out, of the Harness channel the reading of its configuration, of the chaos
    gateway the configuration from the environment, of the capability loss the
    factory, which searches a cluster's archive, and the probe, which drives the gateway; what
    they answer is a parameter of [LossRuntime.v]. The telemetry server mostly queries other
    services. *)
(** ** The prelude

    Notations, results and exceptions, the state-and-exception monad used by
    the stateful components, Python's insertion-ordered dictionaries, string
    helpers, and the generic lemmas and tactics the component files share. *)

From Stdlib Require Export ZArith Lia Ascii String Sorted.
From stdpp Require Export base tactics option list numbers strings pretty gmap sets.

#[global] Set Default Goal Selector "!".

Declare Scope py_scope.
Delimit Scope py_scope with py.

(** ** Exceptions and results *)

(** The exception classes the sources raise or let escape. *)
Inductive exn_kind :=
  | ValueError | TypeError | KeyError | IndexError | AttributeError
  | RuntimeError | AssertionError | OverflowError | ZeroDivisionError
  | OtherError (name : string).

Record exn := Exn { exn_class : exn_kind; exn_msg : string }.

(** A Python call either returns a value or raises. *)
Inductive result (A : Type) :=
  | Ok (a : A)
  | Err (e : exn).
Arguments Ok {A} a.
Arguments Err {A} e.

Definition raise {A} (k : exn_kind) (m : string) : result A := Err (Exn k m).

(** [type(exc).__name__] *)
Definition exn_type_name (e : exn) : string :=
  match exn_class e with
  | ValueError => "ValueError" | TypeError => "TypeError" | KeyError => "KeyError"
  | IndexError => "IndexError" | AttributeError => "AttributeError" | RuntimeError => "RuntimeError"
  | AssertionError => "AssertionError" | OverflowError => "OverflowError"
  | ZeroDivisionError => "ZeroDivisionError" | OtherError name => name
  end.

#[export] Instance exn_kind_eq_dec : EqDecision exn_kind.
Proof. solve_decision. Defined.
#[export] Instance exn_eq_dec : EqDecision exn.
Proof. solve_decision. Defined.
#[export] Instance result_eq_dec {A} `{EqDecision A} : EqDecision (result A).
Proof. solve_decision. Defined.

#[export] Instance result_ret : MRet result := @Ok.
#[export] Instance result_bind : MBind result := λ A B f r,
  match r with Ok a => f a | Err e => Err e end.
#[export] Instance result_fmap : FMap result := λ A B f r,
  match r with Ok a => Ok (f a) | Err e => Err e end.

Definition is_ok {A} (r : result A) : bool :=
  match r with Ok _ => true | Err _ => false end.

(** [assert_py b k m] is [if not b: raise k(m)]. *)
Definition require (b : bool) (k : exn_kind) (m : string) : result unit :=
  if b then Ok tt else raise k m.

Definition opt_or_raise {A} (o : option A) (k : exn_kind) (m : string) : result A :=
  match o with Some a => Ok a | None => raise k m end.

(** The value of a call that returns. *)
Definition ok_or {A} (d : A) (r : result A) : A := match r with Ok a => a | Err _ => d end.

Lemma ok_or_eq {A} (d : A) r : is_ok r = true → r = Ok (ok_or d r).
Proof. by destruct r. Qed.

(** A [for] loop whose body may raise, over an accumulator. *)
Fixpoint foldM {A B} (f : B → A → result B) (b : B) (l : list A) : result B :=
  match l with
  | [] => Ok b
  | x :: l' => b' ← f b x; foldM f b' l'
  end.

Section result_lemmas.
Context {A B : Type}.
Implicit Types (r : result A) (f : A → result B).

Lemma bind_Ok_inv f r b :
  (x ← r; f x) = Ok b → ∃ a, r = Ok a ∧ f a = Ok b.
Proof. destruct r; simpl; [eauto | discriminate]. Qed.

Lemma bind_Ok_iff f r b :
  (x ← r; f x) = Ok b ↔ ∃ a, r = Ok a ∧ f a = Ok b.
Proof. split; [apply bind_Ok_inv | intros (a & -> & Hf); exact Hf]. Qed.

Lemma bind_ok a f : (x ← Ok a; f x) = f a.
Proof. done. Qed.

Lemma bind_err e f : (x ← Err e; f x) = Err e.
Proof. done. Qed.

Lemma require_true k m : require true k m = Ok tt.
Proof. done. Qed.

Lemma require_Ok b k m u : require b k m = Ok u ↔ b = true.
Proof. unfold require, raise. destruct b, u; split; congruence. Qed.

Lemma opt_or_raise_Ok (o : option A) k m a :
  opt_or_raise o k m = Ok a ↔ o = Some a.
Proof. unfold opt_or_raise, raise. destruct o; split; congruence. Qed.
End result_lemmas.

Lemma foldM_app {A B} (f : B → A → result B) b l1 l2 :
  foldM f b (l1 ++ l2) = (b' ← foldM f b l1; foldM f b' l2).
Proof. revert b; induction l1 as [|x l1 IH]; intros b; cbn; [done|]. destruct (f b x); cbn; auto. Qed.

(** A loop whose body keeps an invariant keeps it to the end. *)
Lemma foldM_inv {A B} (P : B → Prop) (f : B → A → result B) l :
  (∀ b x b', x ∈ l → P b → f b x = Ok b' → P b') →
  ∀ b b', P b → foldM f b l = Ok b' → P b'.
Proof.
  induction l as [|x l IH]; cbn; intros Hf b b' Hb Hr; [congruence|].
  apply bind_Ok_inv in Hr as (b1 & H1 & H2).
  eapply (IH (λ b x b' Hx, Hf b x b' (list_elem_of_further _ _ _ Hx))); [|exact H2].
  eapply Hf; [apply list_elem_of_here| |]; eauto.
Qed.

(** A comprehension whose element expression may raise. *)
Lemma mapM_Ok {A B} (f : A → result B) l k :
  mapM f l = Ok k ↔ Forall2 (λ x y, f x = Ok y) l k.
Proof.
  revert k; induction l as [|x l IH]; intros k; cbn.
  - split; [intros [= <-]; constructor|]. by inversion 1.
  - rewrite bind_Ok_iff. split.
    + intros (y & Hy & (k' & Hk & [= <-])%bind_Ok_inv). constructor; [done|by apply IH].
    + inversion 1 as [|? y ? k' Hy Hk]; subst. exists y. split; [done|].
      apply IH in Hk. by rewrite Hk.
Qed.

(** [inv_ok] opens every hypothesis that says a monadic computation returned. *)
Ltac inv_ok :=
  repeat match goal with
  | H : (_ ≫= _) = Ok _ |- _ =>
      let x := fresh "x" in let Hx := fresh "Hx" in
      apply bind_Ok_inv in H as (x & Hx & H); try (is_var x; destruct x as []; [idtac])
  | H : require _ _ _ = Ok _ |- _ => apply require_Ok in H
  | H : opt_or_raise _ _ _ = Ok _ |- _ => apply opt_or_raise_Ok in H
  | H : Ok _ = Ok _ |- _ => injection H as H; subst
  | H : Err _ = Ok _ |- _ => discriminate H
  | H : raise _ _ = Ok _ |- _ => discriminate H
  end.

(** [step_ok H] runs the first statement of the goal, which [H] says returns. *)
Ltac step_ok H := rewrite H; rewrite ?require_true, ?bind_ok; cbv beta.

(** ** State with exceptions

    A method of a stateful object: the state survives an exception, as Python's
    mutations do. *)
Definition prog (S A : Type) : Type := S → S * result A.

#[export] Instance prog_ret {S} : MRet (prog S) := λ A a s, (s, Ok a).
#[export] Instance prog_bind {S} : MBind (prog S) := λ A B f m s,
  match m s with
  | (s', Ok a) => f a s'
  | (s', Err e) => (s', Err e)
  end.

Definition gets {S A} (f : S → A) : prog S A := λ s, (s, Ok (f s)).
Definition modify {S} (f : S → S) : prog S unit := λ s, (f s, Ok tt).
Definition throw {S A} (k : exn_kind) (m : string) : prog S A := λ s, (s, raise k m).
Definition lift {S A} (r : result A) : prog S A := λ s, (s, r).
Definition when {S} (b : bool) (m : prog S unit) : prog S unit := if b then m else mret tt.

(** [try: m except Exception as exc: h exc]. *)
Definition catch {S A} (m : prog S A) (h : exn → prog S A) : prog S A := λ s,
  match m s with
  | (s', Ok a) => (s', Ok a)
  | (s', Err e) => h e s'
  end.

(** [try: body finally: fin]: what [fin] raises wins. *)
Definition finally {S A} (body : prog S A) (fin : prog S unit) : prog S A := λ s,
  let (s', r) := body s in
  match fin s' with (s'', Ok _) => (s'', r) | (s'', Err e) => (s'', Err e) end.

Lemma prog_bind_eq {S A B} (m : prog S A) (f : A → prog S B) s :
  (m ≫= f) s = match m s with (s', Ok a) => f a s' | (s', Err e) => (s', Err e) end.
Proof. reflexivity. Qed.

Lemma run_ok {S A B} (m : prog S A) (f : A → prog S B) s s' a :
  m s = (s', Ok a) → (m ≫= f) s = f a s'.
Proof. intros H. by rewrite prog_bind_eq, H. Qed.

Lemma run_err {S A B} (m : prog S A) (f : A → prog S B) s s' e :
  m s = (s', Err e) → (m ≫= f) s = (s', Err e).
Proof. intros H. by rewrite prog_bind_eq, H. Qed.

Lemma run_lift {S A B} (r : result A) a (f : A → prog S B) s :
  r = Ok a → (lift r ≫= f) s = f a s.
Proof. by intros ->. Qed.

Lemma run_ret {S A B} (a : A) (f : A → prog S B) s : (mret a ≫= f) s = f a s.
Proof. done. Qed.

Lemma run_when {S B} b (m : prog S unit) (f : unit → prog S B) s :
  b = false → (when b m ≫= f) s = f tt s.
Proof. by intros ->. Qed.

(** [run_step H] executes the first statement of the goal's program, which [H] says
    (an equation about it, or about the [result] it lifts) returns. *)
Ltac run_step H :=
  first [ erewrite run_ok by (exact H || apply H || (rewrite H; reflexivity))
        | erewrite run_lift by (exact H || apply H) ]; cbv beta iota.

(** ** Insertion-ordered dictionaries *)

Definition dict (K V : Type) : Type := list (K * V).

Section dict.
Context {K V : Type} `{EqDecision K}.
Implicit Types (d : dict K V) (k : K) (v : V).

(** [d.get(k)] *)
Fixpoint dget k d : option V :=
  match d with
  | [] => None
  | (k', v) :: d' => if decide (k = k') then Some v else dget k d'
  end.

(** [d[k] = v]: in place when the key is present, appended otherwise. *)
Fixpoint dset k v d : dict K V :=
  match d with
  | [] => [(k, v)]
  | (k', v') :: d' => if decide (k = k') then (k', v) :: d' else (k', v') :: dset k v d'
  end.

(** [d.pop(k, None)] or [del d[k]] of a present key. *)
Fixpoint ddel k d : dict K V :=
  match d with
  | [] => []
  | (k', v') :: d' => if decide (k = k') then d' else (k', v') :: ddel k d'
  end.

Definition dkeys d : list K := d.*1.
Definition dvalues d : list V := d.*2.
Definition dmem k d : bool := bool_decide (is_Some (dget k d)).

Lemma dget_dset k k' v d :
  dget k (dset k' v d) = if decide (k = k') then Some v else dget k d.
Proof.
  induction d as [|[k1 v1] d IH]; simpl.
  - repeat case_decide; congruence.
  - destruct (decide (k' = k1)) as [->|]; simpl.
    + repeat case_decide; congruence.
    + rewrite IH. repeat case_decide; congruence.
Qed.

Lemma dget_dset_eq k v d : dget k (dset k v d) = Some v.
Proof. rewrite dget_dset. by rewrite decide_True. Qed.

Lemma dget_dset_ne k k' v d : k ≠ k' → dget k (dset k' v d) = dget k d.
Proof. intros. rewrite dget_dset. by rewrite decide_False. Qed.

Lemma dget_None k d : dget k d = None ↔ k ∉ dkeys d.
Proof.
  unfold dkeys. induction d as [|[k1 v1] d IH]; simpl.
  - split; [intros _; apply not_elem_of_nil | done].
  - case_decide; subst; rewrite not_elem_of_cons; naive_solver.
Qed.

Lemma dget_is_Some k d : is_Some (dget k d) ↔ k ∈ dkeys d.
Proof.
  rewrite <- not_eq_None_Some, dget_None. split; [apply dec_stable|tauto].
Qed.

Lemma dget_Some_elem k v d : dget k d = Some v → (k, v) ∈ d.
Proof.
  induction d as [|[k1 v1] d IH]; simpl; [done|].
  case_decide; intros; simplify_eq; [apply list_elem_of_here|].
  apply list_elem_of_further; auto.
Qed.

Lemma dget_elem k v d : NoDup (dkeys d) → (k, v) ∈ d → dget k d = Some v.
Proof.
  unfold dkeys. induction d as [|[k1 v1] d IH]; simpl; intros Hnd Hin.
  - by apply not_elem_of_nil in Hin.
  - apply NoDup_cons in Hnd as [Hk Hnd].
    apply elem_of_cons in Hin as [[= -> ->]|Hin]; [by rewrite decide_True|].
    rewrite decide_False; [auto|]. intros ->. apply Hk.
    apply list_elem_of_fmap. by exists (k1, v).
Qed.

Lemma dmem_true k d : dmem k d = true ↔ k ∈ dkeys d.
Proof. unfold dmem. by rewrite bool_decide_eq_true, dget_is_Some. Qed.

Lemma dmem_false k d : dmem k d = false ↔ k ∉ dkeys d.
Proof. unfold dmem. by rewrite bool_decide_eq_false, dget_is_Some. Qed.

Lemma dkeys_dset k v d :
  dkeys (dset k v d) = if decide (k ∈ dkeys d) then dkeys d else dkeys d ++ [k].
Proof.
  induction d as [|[k1 v1] d IH].
  - rewrite decide_False; [done|]. apply not_elem_of_nil.
  - change (dkeys ((k1, v1) :: d)) with (k1 :: dkeys d). cbn [dset].
    destruct (decide (k = k1)) as [->|Hne].
    + rewrite decide_True by apply list_elem_of_here. done.
    + change (k1 :: dkeys (dset k v d) = if decide (k ∈ k1 :: dkeys d) then k1 :: dkeys d
        else k1 :: (dkeys d ++ [k])).
      rewrite IH. destruct (decide (k ∈ dkeys d)).
      * rewrite decide_True by (by apply list_elem_of_further). done.
      * rewrite decide_False; [done|]. by rewrite not_elem_of_cons.
Qed.

Lemma elem_of_dkeys_dset k k' v d : k ∈ dkeys (dset k' v d) ↔ k = k' ∨ k ∈ dkeys d.
Proof.
  rewrite dkeys_dset. case_decide; [naive_solver|].
  rewrite elem_of_app, list_elem_of_singleton. naive_solver.
Qed.

Lemma NoDup_dkeys_dset k v d : NoDup (dkeys d) → NoDup (dkeys (dset k v d)).
Proof.
  intros. rewrite dkeys_dset. case_decide; [done|].
  apply NoDup_app; repeat split; [done| |apply NoDup_singleton].
  intros x Hx ->%list_elem_of_singleton. done.
Qed.

Lemma elem_of_ddel x k d : x ∈ ddel k d → x ∈ d.
Proof.
  induction d as [|[k1 v1] d IH]; simpl; [done|].
  case_decide; rewrite ?elem_of_cons; naive_solver.
Qed.

Lemma dkeys_ddel_sub k k' d : k ∈ dkeys (ddel k' d) → k ∈ dkeys d.
Proof.
  unfold dkeys. rewrite !list_elem_of_fmap. intros (x & -> & Hx). eauto using elem_of_ddel.
Qed.

Lemma NoDup_dkeys_ddel k d : NoDup (dkeys d) → NoDup (dkeys (ddel k d)).
Proof.
  unfold dkeys. induction d as [|[k1 v1] d IH]; simpl; [done|].
  rewrite NoDup_cons. intros [Hk Hd]. case_decide; [done|].
  simpl. rewrite NoDup_cons. split; [|auto].
  intros Hin. apply Hk. by apply (dkeys_ddel_sub k1 k d).
Qed.

Lemma dget_ddel_eq k d : NoDup (dkeys d) → dget k (ddel k d) = None.
Proof.
  unfold dkeys. induction d as [|[k1 v1] d IH]; simpl; [done|].
  rewrite NoDup_cons. intros [Hk Hd]. case_decide; subst.
  - by apply dget_None.
  - simpl. rewrite decide_False by done. auto.
Qed.

Lemma dget_ddel_ne k k' d : k ≠ k' → dget k (ddel k' d) = dget k d.
Proof.
  intros Hne. induction d as [|[k1 v1] d IH]; simpl; [done|].
  destruct (decide (k' = k1)) as [->|]; simpl.
  - by rewrite decide_False.
  - by rewrite IH.
Qed.
End dict.

(** [d.update(e)], and [{**d, **e}]. *)
Definition dict_update {K V} `{EqDecision K} (d e : dict K V) : dict K V :=
  foldl (λ acc kv, dset kv.1 kv.2 acc) d e.

Lemma dget_dict_update {K V} `{EqDecision K} (k : K) (d e : dict K V) : NoDup (dkeys e) →
  dget k (dict_update d e) = match dget k e with Some v => Some v | None => dget k d end.
Proof.
  unfold dict_update. revert d. induction e as [|[k' v] e IH]; intros d Hnd; [done|].
  apply NoDup_cons in Hnd as [Hk Hnd]. cbn [foldl]. rewrite (IH _ Hnd).
  rewrite dget_dset. cbn [dget fst snd]. destruct (decide (k = k')) as [->|]; [|by destruct (dget k e)].
  by rewrite (proj2 (dget_None k' e) Hk).
Qed.

Create HintDb pydict.
Create Rewrite HintDb pydict_rw.
#[export] Hint Resolve NoDup_dkeys_dset NoDup_dkeys_ddel : pydict.
#[export] Hint Rewrite @dget_dset_eq : pydict_rw.
#[export] Hint Rewrite @dget_dset_ne using congruence : pydict_rw.

(** [list(dict.fromkeys(l))]: the first occurrence of every element, in order. *)
Definition dedup {A} `{EqDecision A} (l : list A) : list A :=
  foldl (λ acc x, if decide (x ∈ acc) then acc else acc ++ [x]) [] l.

Section dedup.
Context {A : Type} `{EqDecision A}.
Implicit Types (l acc : list A).

Lemma dedup_acc l acc :
  NoDup acc →
  let r := foldl (λ acc x, if decide (x ∈ acc) then acc else acc ++ [x]) acc l in
  NoDup r ∧ ∀ x, x ∈ r ↔ x ∈ acc ∨ x ∈ l.
Proof.
  revert acc; induction l as [|y l IH]; intros acc Hacc; simpl.
  - split; [done|]. intros x. rewrite elem_of_nil. tauto.
  - destruct (decide (y ∈ acc)) as [Hy|Hy].
    + destruct (IH acc Hacc) as [Hr Hx]. split; [done|]. intros x.
      rewrite (Hx x), elem_of_cons. naive_solver.
    + destruct (IH (acc ++ [y])) as [Hr Hx].
      { apply NoDup_app; repeat split; [done| |apply NoDup_singleton].
        intros x Hin ->%list_elem_of_singleton. done. }
      split; [done|]. intros x.
      rewrite (Hx x), elem_of_app, list_elem_of_singleton, elem_of_cons. tauto.
Qed.

Lemma NoDup_dedup l : NoDup (dedup l).
Proof. apply (dedup_acc l []), NoDup_nil_2. Qed.

Lemma elem_of_dedup x l : x ∈ dedup l ↔ x ∈ l.
Proof.
  destruct (dedup_acc l [] (NoDup_nil_2)) as [_ H]. fold (dedup l) in H.
  rewrite H, elem_of_nil. tauto.
Qed.

Lemma dedup_nil_iff l : dedup l = [] ↔ l = [].
Proof.
  split; [|by intros ->]. intros H. destruct l as [|x l]; [done|].
  assert (x ∈ dedup (x :: l)) as Hx by (apply elem_of_dedup, list_elem_of_here).
  rewrite H in Hx. by apply not_elem_of_nil in Hx.
Qed.
End dedup.

(** ** Strings *)

Definition chars (s : string) : list ascii := list_ascii_of_string s.
Definition unchars (l : list ascii) : string := string_of_list_ascii l.

Lemma unchars_chars s : unchars (chars s) = s.
Proof. apply string_of_list_ascii_of_string. Qed.
Lemma chars_unchars l : chars (unchars l) = l.
Proof. apply list_ascii_of_string_of_list_ascii. Qed.
#[export] Instance chars_inj : Inj (=) (=) chars.
Proof. intros s1 s2 H. rewrite <- (unchars_chars s1), <- (unchars_chars s2). by f_equal. Qed.

Lemma chars_app s1 s2 : chars (s1 +:+ s2) = chars s1 ++ chars s2.
Proof. unfold chars. induction s1; simpl; [done | by f_equal]. Qed.

Definition in_range (lo hi c : ascii) : bool :=
  (N.leb (N_of_ascii lo) (N_of_ascii c)) && (N.leb (N_of_ascii c) (N_of_ascii hi)).

Definition is_digit : ascii → bool := in_range "0" "9".
Definition is_lower : ascii → bool := in_range "a" "z".
Definition is_upper : ascii → bool := in_range "A" "Z".
Definition is_lower_alnum (c : ascii) : bool := is_lower c || is_digit c.
Definition is_alnum (c : ascii) : bool := is_lower c || is_upper c || is_digit c.

(** [c in cs] for a literal character class. *)
Definition one_of (cs : string) (c : ascii) : bool := bool_decide (c ∈ chars cs).

(** ASCII white space, as [str.strip()] removes it. *)
Definition is_space (c : ascii) : bool :=
  let n := N_of_ascii c in
  (n =? 32)%N || ((9 <=? n)%N && (n <=? 13)%N) || ((28 <=? n)%N && (n <=? 31)%N).

Fixpoint drop_while {A} (p : A → bool) (l : list A) : list A :=
  match l with
  | [] => []
  | x :: l' => if p x then drop_while p l' else l
  end.

Definition str_strip (s : string) : string :=
  unchars (rev (drop_while is_space (rev (drop_while is_space (chars s))))).

Definition lower_char (c : ascii) : ascii :=
  if is_upper c then ascii_of_N (N_of_ascii c + 32) else c.
Definition upper_char (c : ascii) : ascii :=
  if is_lower c then ascii_of_N (N_of_ascii c - 32) else c.
Definition str_lower (s : string) : string := unchars (map lower_char (chars s)).
Definition str_upper (s : string) : string := unchars (map upper_char (chars s)).

(** [s.replace(c, "")] for a one-character pattern. *)
Definition str_remove (c : ascii) (s : string) : string :=
  unchars (List.filter (λ x, negb (bool_decide (x = c))) (chars s)).

Fixpoint is_prefix {A} `{EqDecision A} (p l : list A) : bool :=
  match p, l with
  | [], _ => true
  | x :: p', y :: l' => bool_decide (x = y) && is_prefix p' l'
  | _ :: _, [] => false
  end.

Fixpoint is_infix {A} `{EqDecision A} (p l : list A) : bool :=
  is_prefix p l || match l with [] => false | _ :: l' => is_infix p l' end.

(** [sub in s] *)
Definition str_contains (sub s : string) : bool := is_infix (chars sub) (chars s).
Definition str_startswith (p s : string) : bool := is_prefix (chars p) (chars s).
Definition str_endswith (p s : string) : bool := is_prefix (rev (chars p)) (rev (chars s)).

(** [s[:-n]] *)
Definition str_drop_last (n : nat) (s : string) : string :=
  unchars (rev (drop n (rev (chars s)))).

Fixpoint str_join (sep : string) (l : list string) : string :=
  match l with
  | [] => ""
  | [s] => s
  | s :: l' => s +:+ sep +:+ str_join sep l'
  end.

(** [f"{n:02d}"] *)
Definition str_02d (n : Z) : string :=
  if (0 <=? n)%Z && (n <? 10)%Z then "0" +:+ pretty n else pretty n.

Definition nonempty (s : string) : bool := negb (bool_decide (s = "")).

Lemma nonempty_true s : nonempty s = true ↔ s ≠ "".
Proof. unfold nonempty. by rewrite negb_true_iff, bool_decide_eq_false. Qed.

(** A non-negative integer prints as digits. *)
Lemma pretty_go_digits n s : (∀ c, c ∈ chars s → is_digit c = true) →
  ∀ c, c ∈ chars (pretty_N_go n s) → is_digit c = true.
Proof.
  revert s. induction (N.lt_wf_0 n) as [n _ IH]; intros s Hs.
  destruct (decide (0 < n)%N) as [Hn|Hn].
  - rewrite pretty_N_go_step by done. apply IH; [by apply N.div_lt|].
    intros c. cbn [chars list_ascii_of_string]. rewrite elem_of_cons. intros [->|Hc]; [|by apply Hs].
    unfold pretty_N_char. by repeat case_match.
  - assert (n = 0%N) as -> by lia. by rewrite pretty_N_go_0.
Qed.

Lemma pretty_N_digits (n : N) c : c ∈ chars (pretty n) → is_digit c = true.
Proof.
  unfold pretty, pretty_N. case_decide.
  - cbn. rewrite elem_of_cons, elem_of_nil. by intros [->|[]].
  - apply pretty_go_digits. cbn. intros ? ?%elem_of_nil. done.
Qed.

Lemma pretty_Z_digits (z : Z) c : (0 <= z)%Z → c ∈ chars (pretty z) → is_digit c = true.
Proof.
  intros Hz. destruct z as [|z|z]; [| |lia].
  - cbn. rewrite elem_of_cons, elem_of_nil. by intros [->|[]].
  - apply (pretty_N_digits (Npos z)).
Qed.

(** Two texts that agree have the same text after their last [d]. *)
Lemma after_last_dash (d : ascii) (l1 l2 t1 t2 : list ascii) :
  d ∉ t1 → d ∉ t2 → l1 ++ d :: t1 = l2 ++ d :: t2 → t1 = t2.
Proof.
  intros H1 H2 H. apply (f_equal reverse) in H.
  rewrite !reverse_app, !reverse_cons, <- !app_assoc in H.
  apply (inj reverse). rewrite <- elem_of_reverse in H1, H2.
  revert H H1 H2. generalize (reverse t1) (reverse t2) (reverse l1) (reverse l2). clear.
  induction l as [|x l IH]; intros [|y k] a b; cbn; rewrite ?not_elem_of_cons.
  - done.
  - intros [= E _] _ [Hd _]. by destruct Hd.
  - intros [= E _] [Hd _]. by destruct Hd.
  - intros [= -> H] [_ H1] [_ H2]. f_equal. exact (IH _ _ _ H H1 H2).
Qed.

(** Decide the equality tests between string literals in the goal. *)
Ltac eval_string_tests :=
  repeat match goal with
  | |- context [bool_decide (?a = ?b)] =>
      first [ rewrite (bool_decide_true (a = b)) by reflexivity
            | rewrite (bool_decide_false (a = b)) by discriminate ]
  end.

(** [a or b] on optional strings, where the empty string is false. *)
Definition str_or (a : option string) (b : string) : string :=
  match a with Some s => if nonempty s then s else b | None => b end.

(** Byte-wise order of strings, for [sorted]. *)
Fixpoint list_ascii_leb (l1 l2 : list ascii) : bool :=
  match l1, l2 with
  | [], _ => true
  | _ :: _, [] => false
  | a :: l1', b :: l2' =>
      if N.ltb (N_of_ascii a) (N_of_ascii b) then true
      else if N.ltb (N_of_ascii b) (N_of_ascii a) then false
      else list_ascii_leb l1' l2'
  end.
Definition str_leb (s1 s2 : string) : bool := list_ascii_leb (chars s1) (chars s2).

Lemma str_leb_total s1 s2 : str_leb s1 s2 = false → str_leb s2 s1 = true.
Proof.
  unfold str_leb. generalize (chars s1) (chars s2). induction l as [|a l IH]; intros [|b k]; cbn; try done.
  destruct (N.ltb_spec (N_of_ascii a) (N_of_ascii b)), (N.ltb_spec (N_of_ascii b) (N_of_ascii a));
    try done; try lia. apply IH.
Qed.

(** ** Sorting: a stable insertion sort, as [sorted(key=...)]. *)
Fixpoint insert_by {A} (leb : A → A → bool) (x : A) (l : list A) : list A :=
  match l with
  | [] => [x]
  | y :: l' => if leb x y then x :: l else y :: insert_by leb x l'
  end.
Definition sort_by {A} (leb : A → A → bool) (l : list A) : list A :=
  foldr (insert_by leb) [] l.

Section sorting.
Context {A : Type} (leb : A → A → bool).

Lemma insert_by_Permutation x l : insert_by leb x l ≡ₚ x :: l.
Proof.
  induction l as [|y l IH]; simpl; [done|].
  destruct (leb x y); [done|]. rewrite IH. apply perm_swap.
Qed.

Lemma sort_by_Permutation l : sort_by leb l ≡ₚ l.
Proof. induction l as [|x l IH]; simpl; [done|]. by rewrite insert_by_Permutation, IH. Qed.

Lemma elem_of_sort_by x l : x ∈ sort_by leb l ↔ x ∈ l.
Proof. by rewrite sort_by_Permutation. Qed.

Lemma length_sort_by l : length (sort_by leb l) = length l.
Proof. by rewrite sort_by_Permutation. Qed.

(** The result is in order when the key is total on the list. *)
Lemma sort_by_Sorted l :
  (∀ x y, x ∈ l → y ∈ l → leb x y = false → leb y x = true) →
  Sorted (λ x y, leb x y = true) (sort_by leb l).
Proof.
  intros Htot. induction l as [|x l IH]; [constructor|]. cbn [sort_by foldr]. fold (sort_by leb l).
  assert (∀ y, y ∈ sort_by leb l → y ∈ x :: l) as Hsub.
  { intros y Hy. right. by apply elem_of_sort_by. }
  assert (Sorted (λ x y, leb x y = true) (sort_by leb l)) as Hs.
  { apply IH. intros a b Ha Hb. apply Htot; by right. }
  clear IH. induction Hs as [|y k Hs IHs Hhd]; cbn [insert_by].
  - repeat constructor.
  - destruct (leb x y) eqn:E.
    + repeat constructor; done.
    + constructor; [apply IHs; intros z Hz; apply Hsub; by right|].
      apply Htot in E; [|by left|apply Hsub; by left].
      destruct k as [|z k]; cbn; [by constructor|].
      apply HdRel_inv in Hhd. destruct (leb x z); by constructor.
Qed.
End sorting.

Lemma head_sort_by {A} (leb : A → A → bool) (key : A → Z) l h :
  (∀ x y, x ∈ l → y ∈ l → leb x y = (key x <=? key y)%Z) → head (sort_by leb l) = Some h →
  h ∈ l ∧ ∀ x, x ∈ l → (key h <= key x)%Z.
Proof.
  revert h. induction l as [|x l IH]; intros h Hleb; [done|]. cbn [sort_by foldr]. fold (sort_by leb l).
  destruct (sort_by leb l) as [|y k] eqn:E.
  - intros [= <-]. pose proof (length_sort_by leb l) as Hl. rewrite E in Hl. destruct l; [|done].
    split; [by left|]. by intros z ->%list_elem_of_singleton.
  - destruct (IH y) as [Hy Hmin]; [|done|]. { intros. apply Hleb; by right. }
    cbn. rewrite Hleb by (by left || by right). destruct (Z.leb_spec (key x) (key y)); intros [= <-].
    + split; [by left|]. intros z [->|Hz]%elem_of_cons; [done|]. specialize (Hmin z Hz). lia.
    + split; [by right|]. intros z [->|Hz]%elem_of_cons; [lia|auto].
Qed.

(** A list in order is its own sort. *)
Lemma sort_by_sorted {A} (leb : A → A → bool) l : Sorted (λ x y, leb x y = true) l → sort_by leb l = l.
Proof.
  induction 1 as [|x l _ IH Hx]; [done|]. cbn [sort_by foldr]. fold (sort_by leb l). rewrite IH.
  destruct Hx as [|y l Hxy]; [done|]. cbn. by rewrite Hxy.
Qed.

(** [min(l, key=...)] with the first minimum kept. *)
Fixpoint min_by {A} (ltb : A → A → bool) (x : A) (l : list A) : A :=
  match l with
  | [] => x
  | y :: l' => min_by ltb (if ltb y x then y else x) l'
  end.

Lemma min_by_elem {A} (ltb : A → A → bool) x l : min_by ltb x l ∈ x :: l.
Proof.
  revert x; induction l as [|y l IH]; intros x; simpl; [apply list_elem_of_here|].
  specialize (IH (if ltb y x then y else x)). rewrite !elem_of_cons in *.
  destruct (ltb y x); naive_solver.
Qed.

(** With an integer key, [min_by] finds a smallest element. *)
Lemma min_by_le {A} (key : A → Z) x l y :
  y ∈ x :: l → (key (min_by (λ a b, Z.ltb (key a) (key b)) x l) <= key y)%Z.
Proof.
  revert x y. induction l as [|z l IH]; intros x y; simpl.
  - by intros ->%list_elem_of_singleton.
  - destruct (Z.ltb_spec (key z) (key x)) as [Hlt|Hge]; rewrite !elem_of_cons.
    + intros [->|Hy]; [specialize (IH z z (list_elem_of_here _ _)); lia|].
      apply IH. by apply elem_of_cons.
    + intros [->|[->|Hy]]; [apply IH, list_elem_of_here| |apply IH; by apply list_elem_of_further].
      specialize (IH x x (list_elem_of_here _ _)). lia.
Qed.

(** ** Counting *)

Definition count {A} (p : A → bool) (l : list A) : nat := length (List.filter p l).

Section count.
Context {A : Type} (p : A → bool).

Lemma count_nil : count p [] = 0.
Proof. done. Qed.
Lemma count_cons x l : count p (x :: l) = (if p x then 1 else 0) + count p l.
Proof. unfold count; simpl; by destruct (p x). Qed.
Lemma count_app l1 l2 : count p (l1 ++ l2) = count p l1 + count p l2.
Proof. unfold count. by rewrite List.filter_app, length_app. Qed.
Lemma count_le_length l : count p l ≤ length l.
Proof. induction l as [|x l IH]; [done|]. rewrite count_cons. simpl. destruct (p x); lia. Qed.
Lemma count_zero l : count p l = 0 ↔ ∀ x, x ∈ l → p x = false.
Proof.
  induction l as [|x l IH].
  - split; [intros _ x Hx; by apply not_elem_of_nil in Hx | done].
  - rewrite count_cons. split.
    + intros H y Hy. destruct (p x) eqn:E; [lia|].
      apply elem_of_cons in Hy as [->|Hy]; [done|]. apply IH; [lia|done].
    + intros H. rewrite (H x) by apply list_elem_of_here.
      apply IH. intros y Hy. apply H. by apply list_elem_of_further.
Qed.
End count.
Create Rewrite HintDb pycount.
#[export] Hint Rewrite @count_nil @count_cons @count_app : pycount.

Lemma forallb_True {A} (p : A → bool) l : forallb p l = true ↔ ∀ x, x ∈ l → p x = true.
Proof. rewrite forallb_forall. by setoid_rewrite list_elem_of_In. Qed.

Lemma existsb_True {A} (p : A → bool) l : existsb p l = true ↔ ∃ x, x ∈ l ∧ p x = true.
Proof. rewrite existsb_exists. by setoid_rewrite list_elem_of_In. Qed.

Lemma list_elem_of_concat_map {A B} (f : A → list B) l y :
  y ∈ concat (map f l) ↔ ∃ x, x ∈ l ∧ y ∈ f x.
Proof.
  induction l as [|x l IH]; simpl.
  - rewrite elem_of_nil. split; [done|]. by intros (x & ?%not_elem_of_nil & _).
  - rewrite elem_of_app, IH. setoid_rewrite elem_of_cons. naive_solver.
Qed.

Lemma app_eq_nil_iff {A} (l1 l2 : list A) : l1 ++ l2 = [] ↔ l1 = [] ∧ l2 = [].
Proof. split; [apply app_nil|by intros [-> ->]]. Qed.

(** [not l] of a sequence. *)
Definition empty {A} (l : list A) : bool := match l with [] => true | _ => false end.

Lemma empty_true {A} (l : list A) : empty l = true ↔ l = [].
Proof. by destruct l. Qed.

(** [if b: findings.append(x)]: the list contributed by one guard. *)
Definition guard_list {A} (b : bool) (x : A) : list A := if b then [x] else [].

Lemma guard_list_nil {A} b (x : A) : guard_list b x = [] ↔ b = false.
Proof. destruct b; simpl; split; congruence. Qed.

Lemma elem_of_guard_list {A} b (x y : A) : y ∈ guard_list b x ↔ b = true ∧ y = x.
Proof.
  destruct b; simpl; [rewrite list_elem_of_singleton|rewrite elem_of_nil]; naive_solver.
Qed.

Ltac no_elem := match goal with H : _ ∈ [] |- _ => by apply not_elem_of_nil in H end.

(** Boolean connectives and comparisons to propositions. *)
Ltac bool_to_prop :=
  repeat match goal with
  | H : _ && _ = true |- _ => apply andb_true_iff in H as [? ?]
  | H : _ || _ = false |- _ => apply orb_false_iff in H as [? ?]
  | H : negb _ = true |- _ => apply negb_true_iff in H
  | H : negb _ = false |- _ => apply negb_false_iff in H
  | H : bool_decide _ = true |- _ => apply bool_decide_eq_true in H
  | H : bool_decide _ = false |- _ => apply bool_decide_eq_false in H
  | H : (_ =? _)%Z = true |- _ => apply Z.eqb_eq in H
  | H : (_ =? _)%Z = false |- _ => apply Z.eqb_neq in H
  | H : (_ <? _)%Z = true |- _ => apply Z.ltb_lt in H
  | H : (_ <? _)%Z = false |- _ => apply Z.ltb_ge in H
  | H : (_ <=? _)%Z = true |- _ => apply Z.leb_le in H
  | H : (_ <=? _)%Z = false |- _ => apply Z.leb_gt in H
  end.
