(* ===== verification/Hoare.v ===== *)
(** * Triples for stateful programs

    [triple P m Q E]: from a state that satisfies [P], the program [m] returns a value
    and a state that satisfy [Q], or raises in a state that satisfies [E]. *)

From S2P Require Import Prelude.

Definition triple {S A} (P : S → Prop) (m : prog S A) (Q : A → S → Prop) (E : S → Prop) : Prop :=
  ∀ s, P s → match m s with (s', Ok a) => Q a s' | (s', Err _) => E s' end.

(** A [for] loop over an accumulator whose body may raise. *)
Fixpoint for_each {S A B} (f : B → A → prog S B) (b : B) (l : list A) : prog S B :=
  match l with
  | [] => mret b
  | x :: l' => b' ← f b x; for_each f b' l'
  end.

Section triples.
Context {S : Type}.
Implicit Types (P E : S → Prop).

Lemma triple_ret {A} (a : A) P (Q : A → S → Prop) E : (∀ s, P s → Q a s) → triple P (mret a) Q E.
Proof. intros H s Hs. by apply H. Qed.

Lemma triple_bind {A B} (m : prog S A) (f : A → prog S B) P Q R E :
  triple P m Q E → (∀ a, triple (Q a) (f a) R E) → triple P (m ≫= f) R E.
Proof.
  intros Hm Hf s Hs. rewrite prog_bind_eq. specialize (Hm s Hs).
  destruct (m s) as [s' [a|e]]; [by apply Hf|done].
Qed.

Lemma triple_pre {A} (m : prog S A) P P' Q E : (∀ s, P s → P' s) → triple P' m Q E → triple P m Q E.
Proof. intros H Hm s Hs. by apply Hm, H. Qed.

Lemma triple_post {A} (m : prog S A) P (Q Q' : A → S → Prop) E E' :
  triple P m Q' E' → (∀ a s, Q' a s → Q a s) → (∀ s, E' s → E s) → triple P m Q E.
Proof.
  intros Hm HQ HE s Hs. specialize (Hm s Hs). destruct (m s) as [s' [a|e]]; auto.
Qed.

Lemma triple_lift {A} (r : result A) P (Q : A → S → Prop) E :
  (∀ s a, P s → r = Ok a → Q a s) → (∀ s, P s → E s) → triple P (lift r) Q E.
Proof. intros HQ HE s Hs. unfold lift. destruct r; eauto. Qed.

Lemma triple_gets {A} (f : S → A) P (Q : A → S → Prop) E :
  (∀ s, P s → Q (f s) s) → triple P (gets f) Q E.
Proof. intros H s Hs. by apply H. Qed.

Lemma triple_modify (f : S → S) P (Q : unit → S → Prop) E :
  (∀ s, P s → Q tt (f s)) → triple P (modify f) Q E.
Proof. intros H s Hs. by apply H. Qed.

Lemma triple_throw {A} k msg P (Q : A → S → Prop) E : (∀ s, P s → E s) → triple P (throw k msg) Q E.
Proof. intros H s Hs. by apply H. Qed.

(** A fact about no state, and a witness, come out of a precondition. *)
Lemma triple_pure {A} (m : prog S A) (R : Prop) P (Q : A → S → Prop) E :
  (R → triple P m Q E) → triple (λ s, R ∧ P s) m Q E.
Proof. intros H s [HR Hs]. by apply H. Qed.

Lemma triple_exists {A B} (m : prog S A) (P : B → S → Prop) (Q : A → S → Prop) E :
  (∀ x, triple (P x) m Q E) → triple (λ s, ∃ x, P x s) m Q E.
Proof. intros H s [x Hs]. by apply (H x). Qed.

Lemma triple_and {A} (m : prog S A) P P' (Q Q' : A → S → Prop) E E' :
  triple P m Q E → triple P' m Q' E' →
  triple (λ s, P s ∧ P' s) m (λ a s, Q a s ∧ Q' a s) (λ s, E s ∧ E' s).
Proof.
  intros H H' s [Hs Hs']. specialize (H s Hs). specialize (H' s Hs'). by destruct (m s) as [s1 [a|e]].
Qed.

(** What [fin] does not disturb is kept by [try]-[finally]. *)
Lemma triple_finally {A} (body : prog S A) (fin : prog S unit) P (Q : A → S → Prop) E :
  triple P body Q E → (∀ a, triple (Q a) fin (λ _, Q a) E) → triple E fin (λ _, E) E → triple P (finally body fin) Q E.
Proof.
  intros Hb Hq He s Hs. specialize (Hb s Hs). unfold finally. destruct (body s) as [s' [a|e]].
  - specialize (Hq a s' Hb). by destruct (fin s') as [s'' [u|e']].
  - specialize (He s' Hb). by destruct (fin s') as [s'' [u|e']].
Qed.

(** A loop whose body turns the fact about the list into the fact about its tail. *)
Lemma triple_for_each {A B} (f : B → A → prog S B) (I : list A → S → Prop) E :
  (∀ b x l, triple (I (x :: l)) (f b x) (λ _, I l) E) →
  ∀ l b, triple (I l) (for_each f b l) (λ _, I []) E.
Proof.
  intros Hf l. induction l as [|x l IH]; intros b; cbn [for_each].
  - by apply triple_ret.
  - eapply triple_bind; [apply Hf|]. intros b'. apply IH.
Qed.
End triples.

(** ** Runs that returned *)

Lemma run_Ok_inv {S A B} (m : prog S A) (f : A → prog S B) s s' b :
  (m ≫= f) s = (s', Ok b) → ∃ s1 a, m s = (s1, Ok a) ∧ f a s1 = (s', Ok b).
Proof. rewrite prog_bind_eq. destruct (m s) as [s1 [a|e]]; [eauto|done]. Qed.

Lemma lift_Ok_inv {S A} (r : result A) (s s' : S) a : lift r s = (s', Ok a) → r = Ok a ∧ s' = s.
Proof. unfold lift. by intros [= <- ->]. Qed.

Lemma ret_Ok_inv {S A} (a b : A) (s s' : S) : mret (M := prog S) a s = (s', Ok b) → b = a ∧ s' = s.
Proof. by intros [= <- <-]. Qed.

Lemma when_Ok_inv {S} b (m : prog S unit) (s s' : S) u :
  when b m s = (s', Ok u) → b = true ∧ m s = (s', Ok u) ∨ b = false ∧ s' = s.
Proof. unfold when. destruct b; [auto|]. intros [-> ->]%ret_Ok_inv. auto. Qed.

Lemma modify_Ok {S} (f : S → S) s s' u : modify f s = (s', Ok u) → s' = f s.
Proof. by intros [= <- _]. Qed.
Lemma gets_Ok {S A} (f : S → A) s s' a : gets f s = (s', Ok a) → a = f s ∧ s' = s.
Proof. by intros [= <- <-]. Qed.
Lemma catch_Ok {S A} (m : prog S A) h s s' a : catch m h s = (s', Ok a) →
  m s = (s', Ok a) ∨ ∃ s1 e, m s = (s1, Err e) ∧ h e s1 = (s', Ok a).
Proof. unfold catch. destruct (m s) as [s1 [b|e]]; [by left|]. right. eauto. Qed.
Lemma finally_Ok {S A} (m : prog S A) fin s s' a : finally m fin s = (s', Ok a) → ∃ s1, m s = (s1, Ok a) ∧ fin s1 = (s', Ok tt).
Proof. unfold finally. destruct (m s) as [s1 r] eqn:E. destruct (fin s1) as [s2 [[]|e]] eqn:E2; [|done]. intros [= <- ->]. eauto. Qed.

(** [run_inv] opens every hypothesis that says a program returned, statement by statement. *)
Ltac run_inv :=
  repeat match goal with
  | H : (_ ≫= _) _ = (_, Ok _) |- _ =>
      let s := fresh "s" in let a := fresh "a" in let Ha := fresh "Ha" in
      apply run_Ok_inv in H as (s & a & Ha & H); cbv beta in H
  | H : lift _ _ = (_, Ok _) |- _ => apply lift_Ok_inv in H as [H ->]
  | H : mret _ _ = (_, Ok _) |- _ =>
      apply ret_Ok_inv in H as [H ->]; match type of H with ?b = _ => first [is_var b; subst b | idtac] end
  | a : unit |- _ => destruct a
  end; inv_ok.

(** ** What is raised

    Whatever a program raises satisfies [P]. *)
Definition raises {S A} (P : exn → Prop) (I : S → Prop) (m : prog S A) : Prop :=
  ∀ s, I s → match m s with (s', Ok _) => I s' | (s', Err e) => I s' ∧ P e end.
Lemma raises_bind {S A B} P I (m : prog S A) (f : A → prog S B) :
  raises P I m → (∀ a, raises P I (f a)) → raises P I (m ≫= f).
Proof.
  intros Hm Hf s Hs. rewrite prog_bind_eq. specialize (Hm s Hs). destruct (m s) as [s' [a|e]]; [by apply Hf|done].
Qed.
Lemma raises_lift {S A} P (I : S → Prop) (r : result A) : (∀ e, r = Err e → P e) → raises P I (lift r).
Proof. intros H s Hs. unfold lift. destruct r; [done|]. split; [done|by apply H]. Qed.
Lemma raises_finally {S A} P I (m : prog S A) fin : raises P I m → raises P I fin → raises P I (finally m fin).
Proof.
  intros Hm Hf s Hs. specialize (Hm s Hs). unfold finally. destruct (m s) as [s' [a|e]].
  - specialize (Hf s' Hm). by destruct (fin s') as [s'' []].
  - destruct Hm as [Hm He]. specialize (Hf s' Hm). by destruct (fin s') as [s'' []].
Qed.

(** ** Every run, returned or raised, goes along a preorder *)

Definition moves {S A} (R : S → S → Prop) (m : prog S A) : Prop := ∀ s, R s (m s).1.

Section moves.
Context {S : Type} (R : S → S → Prop) `{!PreOrder R}.

Lemma moves_pure {A} (f : S → result A) : moves R (λ s, (s, f s)).
Proof. intros s. done. Qed.
Lemma moves_bind {A B} (m : prog S A) (f : A → prog S B) : moves R m → (∀ a, moves R (f a)) → moves R (m ≫= f).
Proof.
  intros Hm Hf s. rewrite prog_bind_eq. specialize (Hm s). destruct (m s) as [s' [a|e]]; [|done].
  etrans; [exact Hm|]. apply Hf.
Qed.
Lemma moves_finally {A} (m : prog S A) fin : moves R m → moves R fin → moves R (finally m fin).
Proof.
  intros Hm Hf s. unfold finally. specialize (Hm s). destruct (m s) as [s' r]. specialize (Hf s').
  destruct (fin s') as [s'' [u|e]]; by etrans.
Qed.
Lemma moves_catch {A} (m : prog S A) h : moves R m → (∀ e, moves R (h e)) → moves R (catch m h).
Proof.
  intros Hm Hh s. unfold catch. specialize (Hm s). destruct (m s) as [s' [a|e]]; [done|].
  etrans; [exact Hm|]. apply Hh.
Qed.
Lemma moves_when b (m : prog S unit) : moves R m → moves R (when b m).
Proof. intros Hm. unfold when. destruct b; [done|]. apply moves_pure. Qed.
Lemma moves_triple {A} (m : prog S A) s0 : moves R m → triple (R s0) m (λ _, R s0) (R s0).
Proof. intros Hm s Hs. specialize (Hm s). destruct (m s) as [s' [a|e]]; by etrans. Qed.
End moves.

Create HintDb moves.
(** [moves_tac] goes through a program statement by statement. *)
Ltac moves_tac :=
  repeat match goal with
  | |- moves ?R (_ ≫= _) => apply (moves_bind R); [|intros ?]
  | |- moves ?R (finally _ _) => apply (moves_finally R)
  | |- moves ?R (catch _ _) => apply (moves_catch R); [|intros ?]
  | |- moves ?R (when _ _) => apply (moves_when R)
  | |- moves ?R (lift _) => apply (moves_pure R (λ _, _))
  | |- moves ?R (mret _) => apply (moves_pure R (λ _, Ok _))
  | |- moves ?R (gets _) => apply (moves_pure R (λ s, Ok _))
  | |- moves _ (let _ := _ in _) => cbv zeta
  | |- moves _ (if ?b then _ else _) => destruct b eqn:?
  | |- moves _ (match ?b with _ => _ end) => destruct b eqn:?
  | |- moves _ _ => solve [eauto with moves]
  end.
