(* ===== verification/PyFloat.v ===== *)
(** * Python's [float]: IEEE-754 binary64, as exact rationals rounded once

    A finite float is the rational it denotes, in lowest terms; every
    operation is the exact rational operation followed by [round64], the
    round-half-even of CPython and the hardware.  The sign of zero is not
    represented.  Also here: [float(int)], [float(str)], [round(x, n)] and
    [repr(float)], which the sources use. *)

From Stdlib Require Import QArith Qround Qabs Qpower Lqa.
From Stdlib Require Qcanon.
From S2P Require Import Prelude.

Inductive pyfloat :=
  | FFin (q : Q)
  | FInf (neg : bool)
  | FNan.

Definition pow2 (e : Z) : Q := Qpower 2 e.
Definition pow10 (e : Z) : Q := Qpower 10 e.

(** Round to the nearest integer, ties to even. *)
Definition rhe (q : Q) : Z :=
  let f := Qfloor q in
  match Qcompare (q - inject_Z f) (1 # 2) with
  | Lt => f
  | Gt => (f + 1)%Z
  | Eq => if Z.even f then f else (f + 1)%Z
  end.

(** [⌊log2 q⌋] of a positive rational. *)
Definition flog2 (q : Q) : Z :=
  let e := (Z.log2 (Qnum q) - Z.log2 (Zpos (Qden q)))%Z in
  if Qle_bool (pow2 e) q then e else (e - 1)%Z.

Definition min_exp : Z := (-1022)%Z.
Definition max_float_bound : Q := pow2 1024.

(** The magnitude of the float nearest to a positive rational. *)
Definition round_mag (a : Q) : Q :=
  let e := Z.max (flog2 a) min_exp in
  Qred (inject_Z (rhe (a * pow2 (52 - e))) * pow2 (e - 52)).

Definition round64 (q : Q) : pyfloat :=
  match Qcompare q 0 with
  | Eq => FFin 0
  | Gt => let v := round_mag q in if Qle_bool max_float_bound v then FInf false else FFin v
  | Lt => let v := round_mag (- q) in
          if Qle_bool max_float_bound v then FInf true else FFin (Qred (- v))
  end.

(** ** Comparisons: every comparison with a NaN is false *)

Definition Qlt_bool (a b : Q) : bool := negb (Qle_bool b a).

Definition flt (a b : pyfloat) : bool :=
  match a, b with
  | FNan, _ | _, FNan => false
  | FFin x, FFin y => Qlt_bool x y
  | FInf true, FInf true => false
  | FInf true, _ => true
  | _, FInf true => false
  | FInf false, _ => false
  | FFin _, FInf false => true
  end.

Definition feq (a b : pyfloat) : bool :=
  match a, b with
  | FFin x, FFin y => Qeq_bool x y
  | FInf s, FInf t => Bool.eqb s t
  | _, _ => false
  end.

Definition fle (a b : pyfloat) : bool := flt a b || feq a b.

Definition isfinite (a : pyfloat) : bool := match a with FFin _ => true | _ => false end.

(** [max(a, b)] and [min(a, b)] keep the first argument unless the second is
    strictly better. *)
Definition fmax (a b : pyfloat) : pyfloat := if flt a b then b else a.
Definition fmin (a b : pyfloat) : pyfloat := if flt b a then b else a.

(** ** Arithmetic *)

Definition fneg (a : pyfloat) : pyfloat :=
  match a with FFin q => FFin (Qred (- q)) | FInf s => FInf (negb s) | FNan => FNan end.
Definition fabs (a : pyfloat) : pyfloat :=
  match a with FFin q => FFin (Qred (Qabs q)) | FInf _ => FInf false | FNan => FNan end.

Definition fadd (a b : pyfloat) : pyfloat :=
  match a, b with
  | FNan, _ | _, FNan => FNan
  | FFin x, FFin y => round64 (x + y)
  | FInf s, FInf t => if Bool.eqb s t then FInf s else FNan
  | FInf s, FFin _ | FFin _, FInf s => FInf s
  end.
Definition fsub (a b : pyfloat) : pyfloat := fadd a (fneg b).

Definition qsign (q : Q) : bool := Qlt_bool q 0.
Definition qzero (q : Q) : bool := Qeq_bool q 0.

Definition fmul (a b : pyfloat) : pyfloat :=
  match a, b with
  | FNan, _ | _, FNan => FNan
  | FFin x, FFin y => round64 (x * y)
  | FInf s, FInf t => FInf (xorb s t)
  | FInf s, FFin x | FFin x, FInf s => if qzero x then FNan else FInf (xorb s (qsign x))
  end.

(** [a / b] of floats; a zero divisor raises. *)
Definition fdiv (a b : pyfloat) : result pyfloat :=
  match b with
  | FNan => Ok FNan
  | FInf _ => Ok (match a with FFin _ => FFin 0 | _ => FNan end)
  | FFin y =>
      if qzero y then raise ZeroDivisionError "float division by zero"
      else Ok (match a with
               | FFin x => round64 (x / y)
               | FInf s => FInf (xorb s (qsign y))
               | FNan => FNan
               end)
  end.

(** [float(n)] of an integer. *)
Definition float_of_Z (n : Z) : result pyfloat :=
  match round64 (inject_Z n) with
  | FFin q => Ok (FFin q)
  | _ => raise OverflowError "int too large to convert to float"
  end.

(** [a / b] of integers: correctly rounded, [OverflowError] past the range. *)
Definition div_Z (a b : Z) : result pyfloat :=
  if (b =? 0)%Z then raise ZeroDivisionError "division by zero"
  else match round64 (inject_Z a / inject_Z b) with
       | FFin q => Ok (FFin q)
       | _ => raise OverflowError "integer division result too large for a float"
       end.

(** [int(x)]: truncation toward zero. *)
Definition Z_of_float (a : pyfloat) : result Z :=
  match a with
  | FFin q => Ok (Z.quot (Qnum q) (Zpos (Qden q)))
  | FInf _ => raise OverflowError "cannot convert float infinity to integer"
  | FNan => raise ValueError "cannot convert float NaN to integer"
  end.

(** [round(x, n)] with [n >= 0]: the exact value rounded to [n] decimals, ties
    to even, then the nearest float. *)
Definition round_ndigits (n : Z) (a : pyfloat) : pyfloat :=
  match a with
  | FFin q => round64 (inject_Z (rhe (q * pow10 n)) * pow10 (- n))
  | _ => a
  end.

(** [statistics.fmean]: [math.fsum] (the exact sum, rounded once) over the
    length.  Finite inputs; the callers never pass an empty list. *)
Definition fsum_exact (l : list pyfloat) : option Q :=
  foldr (λ x acc, match x, acc with FFin q, Some s => Some (q + s)%Q | _, _ => None end)
        (Some 0%Q) l.

Definition fsum (l : list pyfloat) : result pyfloat :=
  match fsum_exact l with
  | Some s => match round64 s with
              | FFin q => Ok (FFin q)
              | _ => raise OverflowError "intermediate overflow in fsum"
              end
  | None => if existsb (λ x, match x with FNan => true | _ => false end) l then Ok FNan
            else if existsb (λ x, match x with FInf true => true | _ => false end) l
                 then if existsb (λ x, match x with FInf false => true | _ => false end) l
                      then raise ValueError "-inf + inf in fsum" else Ok (FInf true)
                 else Ok (FInf false)
  end.

Definition fmean (l : list pyfloat) : result pyfloat :=
  match l with
  | [] => raise ValueError "fmean requires at least one data point"
  | _ => s ← fsum l; n ← float_of_Z (Z.of_nat (length l)); fdiv s n
  end.

Definition f0 : pyfloat := FFin 0.
Definition f1 : pyfloat := FFin 1.

(** [sum] of floats, started at [0]: CPython 3.12's compensated sum. *)
Definition sum_step (acc : pyfloat * pyfloat) (x : pyfloat) : pyfloat * pyfloat :=
  let '(total, c) := acc in
  let t := fadd total x in
  let e := if fle (fabs x) (fabs total) then fadd (fsub total t) x else fadd (fsub x t) total in
  (t, fadd c e).

Definition py_sum (l : list pyfloat) : pyfloat :=
  let '(total, c) := foldl sum_step (f0, f0) l in
  if isfinite c && negb (feq c f0) then fadd total c else total.

(** Comparing a [float] with an [int] is exact. *)
Definition float_ge_int (x : pyfloat) (n : Z) : bool := fle (FFin (inject_Z n)) x.
Definition float_le_int (x : pyfloat) (n : Z) : bool := fle x (FFin (inject_Z n)).

(** ** [float(str)] *)

(** White space as the C parsers see it. *)
Definition is_cspace (c : ascii) : bool :=
  let n := N_of_ascii c in (n =? 32)%N || ((9 <=? n)%N && (n <=? 13)%N).
Definition cstrip (l : list ascii) : list ascii :=
  rev (drop_while is_cspace (rev (drop_while is_cspace l))).

(** Underscores are removed when each stands between two digits. *)
Fixpoint strip_underscores (prev_digit : bool) (l : list ascii) : option (list ascii) :=
  match l with
  | [] => Some []
  | c :: l' =>
      if bool_decide (c = "_"%char)
      then match l' with
           | d :: _ => if prev_digit && is_digit d then strip_underscores false l' else None
           | [] => None
           end
      else l1 ← strip_underscores (is_digit c) l'; Some (c :: l1)
  end.

Fixpoint digits_prefix (l : list ascii) : list ascii * list ascii :=
  match l with
  | c :: l' => if is_digit c then let '(d, r) := digits_prefix l' in (c :: d, r) else ([], l)
  | [] => ([], [])
  end.

Definition digits_value (l : list ascii) : Z :=
  foldl (λ acc c, (10 * acc + Z.of_N (N_of_ascii c - 48))%Z) 0%Z l.

Definition take_sign (l : list ascii) : bool * list ascii :=
  match l with
  | c :: l' => if bool_decide (c = "-"%char) then (true, l')
               else if bool_decide (c = "+"%char) then (false, l') else (false, l)
  | [] => (false, [])
  end.

Definition parse_exponent (l : list ascii) : option Z :=
  match l with
  | [] => Some 0%Z
  | c :: l' =>
      if bool_decide (c = "e"%char) || bool_decide (c = "E"%char) then
        let '(neg, r) := take_sign l' in
        match digits_prefix r with
        | ((_ :: _) as d, []) => Some (if neg then (- digits_value d)%Z else digits_value d)
        | _ => None
        end
      else None
  end.

(** An unsigned decimal literal: its exact rational value. *)
Definition parse_decimal (l : list ascii) : option Q :=
  let '(ip, r) := digits_prefix l in
  let '(fp, r) := match r with
                  | c :: r' => if bool_decide (c = "."%char) then digits_prefix r' else ([], r)
                  | [] => ([], [])
                  end in
  if bool_decide (ip ++ fp = []) then None
  else e ← parse_exponent r;
       Some (inject_Z (digits_value (ip ++ fp)) * pow10 (e - Z.of_nat (length fp)))%Q.

Definition float_of_string (s : string) : option pyfloat :=
  l ← strip_underscores false (cstrip (chars s));
  let '(neg, r) := take_sign l in
  let word := unchars (map lower_char r) in
  if bool_decide (word = "inf") || bool_decide (word = "infinity") then Some (FInf neg)
  else if bool_decide (word = "nan") then Some FNan
  else q ← parse_decimal r;
       Some (let v := round64 q in if neg then fneg v else v).

(** ** [int(str)] *)
Definition int_of_string (s : string) : option Z :=
  l ← strip_underscores false (cstrip (chars s));
  let '(neg, r) := take_sign l in
  match digits_prefix r with
  | ((_ :: _) as d, []) => Some (if neg then (- digits_value d)%Z else digits_value d)
  | _ => None
  end.

(** ** [repr(float)]: the shortest decimal that reads back as the same float *)

(** [⌊log10 q⌋] of a positive rational, from a digit-count estimate. *)
Definition digit_count (n : Z) : Z := Z.of_nat (String.length (pretty n)).
Definition flog10 (q : Q) : Z :=
  let k := (digit_count (Qnum q) - digit_count (Zpos (Qden q)))%Z in
  if Qle_bool (pow10 k) q then k else (k - 1)%Z.

(** The first precision [p ≤ 17] whose [p]-digit rounding of [q] reads back. *)
Definition reads_back (q : Q) (m k : Z) : bool := feq (round64 (inject_Z m * pow10 k)) (FFin q).

Fixpoint shortest (fuel : nat) (p : Z) (q : Q) (e : Z) : Z * Z :=
  let scale := (e - p + 1)%Z in
  let x := (q * pow10 (- scale))%Q in
  let near := rhe x in
  let other := if (near =? Qfloor x)%Z then (near + 1)%Z else Qfloor x in
  match fuel with
  | O => (near, scale)
  | S fuel' =>
      if reads_back q near scale then (near, scale)
      else if reads_back q other scale then (other, scale)
      else shortest fuel' (p + 1) q e
  end.

Definition zeros (n : Z) : string := unchars (replicate (Z.to_nat n) "0"%char).

Definition repr_mag (q : Q) : string :=
  let '(m, scale) := shortest 17 1 q (flog10 q) in
  let ds := pretty m in
  let n := Z.of_nat (String.length ds) in
  let k := (n - 1 + scale)%Z in
  let trim := λ s, unchars (rev (drop_while (λ c, bool_decide (c = "0"%char)) (rev (chars s)))) in
  if ((-4 <=? k) && (k <? 16))%Z then
    if (k <? 0)%Z then "0." +:+ zeros (- k - 1) +:+ trim ds
    else let all := ds +:+ zeros (k + 1 - n) in
         let ip := unchars (take (Z.to_nat (k + 1)) (chars all)) in
         let fp := trim (unchars (drop (Z.to_nat (k + 1)) (chars all))) in
         ip +:+ "." +:+ (if bool_decide (fp = "") then "0" else fp)
  else
    let d0 := unchars (take 1 (chars ds)) in
    let fp := trim (unchars (drop 1 (chars ds))) in
    d0 +:+ (if bool_decide (fp = "") then "" else "." +:+ fp)
       +:+ (if (k <? 0)%Z then "e-" else "e+") +:+ str_02d (Z.abs k).

Definition repr_float (a : pyfloat) : string :=
  match a with
  | FNan => "nan"
  | FInf false => "inf"
  | FInf true => "-inf"
  | FFin q => if qzero q then "0.0"
              else if qsign q then "-" +:+ repr_mag (- q) else repr_mag q
  end.

(** [f"{x:g}"]: six significant digits, trailing zeros dropped. *)
Definition trim_zeros (s : string) : string :=
  unchars (rev (drop_while (λ c, bool_decide (c = "0"%char)) (rev (chars s)))).

Definition with_fraction (ip fp : string) : string :=
  if bool_decide (fp = "") then ip else ip +:+ "." +:+ fp.

Definition format_g_mag (q : Q) : string :=
  let e0 := flog10 q in
  let m0 := rhe (q * pow10 (5 - e0)) in
  let '(m, e) := if (m0 =? 1000000)%Z then (100000, e0 + 1)%Z else (m0, e0) in
  let ds := pretty m in
  if ((-4 <=? e) && (e <? 6))%Z then
    if (e <? 0)%Z then "0." +:+ zeros (- e - 1) +:+ trim_zeros ds
    else with_fraction (unchars (take (Z.to_nat (e + 1)) (chars ds)))
           (trim_zeros (unchars (drop (Z.to_nat (e + 1)) (chars ds))))
  else
    with_fraction (unchars (take 1 (chars ds))) (trim_zeros (unchars (drop 1 (chars ds))))
      +:+ (if (e <? 0)%Z then "e-" else "e+") +:+ str_02d (Z.abs e).

Definition format_g (a : pyfloat) : string :=
  match a with
  | FNan => "nan"
  | FInf false => "inf"
  | FInf true => "-inf"
  | FFin q => if qzero q then "0" else if qsign q then "-" +:+ format_g_mag (- q)
              else format_g_mag q
  end.

(** A float literal of the source, [n / d]. *)
Definition flit (q : Q) : pyfloat := round64 q.

(** ** Values on the unit interval *)

Definition in_unit (a : pyfloat) : Prop := ∃ q, a = FFin q ∧ (0 <= q)%Q ∧ (q <= 1)%Q.

Definition clip (a : pyfloat) : pyfloat := fmax (FFin 0) (fmin (FFin 1) a).

Lemma Qlt_bool_iff a b : Qlt_bool a b = true ↔ (a < b)%Q.
Proof.
  unfold Qlt_bool. rewrite negb_true_iff. split; intros H.
  - apply Qnot_le_lt. rewrite <- Qle_bool_iff. by rewrite H.
  - destruct (Qle_bool b a) eqn:E; [|done]. apply Qle_bool_iff in E. lra.
Qed.

Lemma Qlt_bool_false a b : Qlt_bool a b = false ↔ (b <= a)%Q.
Proof. unfold Qlt_bool. by rewrite negb_false_iff, Qle_bool_iff. Qed.

(** [max(0.0, min(1.0, x))] lands in the unit interval whatever [x] is: a NaN,
    which loses every comparison, is clipped to [1.0]. *)
Lemma clip_in_unit a : in_unit (clip a).
Proof.
  unfold clip, fmin, fmax, in_unit. destruct a as [q|[]|]; simpl.
  - destruct (Qlt_bool q 1) eqn:E1; simpl.
    + destruct (Qlt_bool 0 q) eqn:E2; apply Qlt_bool_iff in E1.
      * apply Qlt_bool_iff in E2. exists q. split; [done|split; lra].
      * exists 0%Q. split; [done|split; lra].
    + exists 1%Q. split; [done|split; lra].
  - exists 0%Q. split; [done|split; lra].
  - exists 1%Q. split; [done|split; lra].
  - exists 1%Q. split; [done|split; lra].
Qed.

Lemma clip_id q : (0 < q)%Q → (q < 1)%Q → clip (FFin q) = FFin q.
Proof.
  intros H0 H1. unfold clip, fmin. simpl.
  rewrite (proj2 (Qlt_bool_iff q 1) H1). unfold fmax; simpl.
  by rewrite (proj2 (Qlt_bool_iff 0 q) H0).
Qed.

Lemma rhe_nonneg q : (0 <= q)%Q → (0 <= rhe q)%Z.
Proof.
  intros H. unfold rhe.
  assert (0 <= Qfloor q)%Z.
  { rewrite <- (Qfloor_Z 0). by apply Qfloor_resp_le. }
  destruct (_ ?= _)%Q; [destruct (Z.even _)| |]; lia.
Qed.

Lemma rhe_le_Z q n : (q <= inject_Z n)%Q → (rhe q <= n)%Z.
Proof.
  intros H. unfold rhe.
  assert (Qfloor q <= n)%Z as Hf.
  { rewrite <- (Qfloor_Z n). by apply Qfloor_resp_le. }
  destruct (Z.eq_dec (Qfloor q) n) as [E|E].
  - assert (q == inject_Z n)%Q as Hq.
    { apply Qle_antisym; [done|]. rewrite <- E. apply Qfloor_le. }
    assert (q - inject_Z (Qfloor q) < (1 # 2))%Q as Hlt.
    { rewrite E. lra. }
    rewrite (proj1 (Qlt_alt _ _) Hlt). lia.
  - destruct (_ ?= _)%Q; [destruct (Z.even _)| |]; lia.
Qed.

Lemma pow2_pos e : (0 < pow2 e)%Q.
Proof. apply Qpower_0_lt. reflexivity. Qed.

Lemma pow2_plus a b : (pow2 (a + b) == pow2 a * pow2 b)%Q.
Proof. apply Qpower_plus. discriminate. Qed.

Lemma pow2_nonneg_Z e : (0 <= e)%Z → (pow2 e == inject_Z (2 ^ e))%Q.
Proof. intros. unfold pow2. by rewrite Zpower_Qpower. Qed.

(** Multiplying by a power of two is order-preserving. *)
Lemma flog2_upper q e : (0 < q)%Q → (0 <= e)%Z → (q <= pow2 e)%Q → (flog2 q <= e)%Z.
Proof.
  intros Hq He Hle. unfold flog2. set (f := (_ - _)%Z).
  destruct (Qle_bool (pow2 f) q) eqn:E.
  - apply Qle_bool_iff in E. apply Z.le_ngt. intros Hlt.
    assert (pow2 e < pow2 f)%Q as H; [|lra].
    unfold pow2. apply Qpower_lt_compat_l; [lia|reflexivity].
  - assert (f <= e + 1)%Z; [|lia]. subst f.
    destruct q as [n d]. rewrite (pow2_nonneg_Z e He) in Hle.
    unfold Qle, Qlt in *. cbn [Qnum Qden inject_Z] in *.
    rewrite Z.mul_1_r in Hle. assert (0 < n)%Z as Hn by lia.
    apply Z.log2_le_mono in Hle.
    rewrite Z.mul_comm, Z.log2_mul_pow2 in Hle by lia. lia.
Qed.

Lemma round_mag_unit q : (0 < q)%Q → (q <= 1)%Q → (0 <= round_mag q)%Q ∧ (round_mag q <= 1)%Q.
Proof.
  intros H0 H1. unfold round_mag. rewrite Qred_correct.
  set (e := Z.max (flog2 q) min_exp).
  assert (e <= 0)%Z as He.
  { assert (flog2 q <= 0)%Z by (apply flog2_upper; [done|lia|done]). unfold e, min_exp. lia. }
  pose proof (pow2_pos (52 - e)) as Hp1. pose proof (pow2_pos (e - 52)) as Hp2.
  assert (0 <= rhe (q * pow2 (52 - e)))%Z as Hr0.
  { apply rhe_nonneg. apply Qmult_le_0_compat; lra. }
  assert (rhe (q * pow2 (52 - e)) <= 2 ^ (52 - e))%Z as Hr1.
  { apply rhe_le_Z. rewrite <- pow2_nonneg_Z by lia.
    apply Qle_trans with (1 * pow2 (52 - e))%Q; [apply Qmult_le_compat_r; lra | lra]. }
  split.
  - apply Qmult_le_0_compat; [|lra]. by rewrite <- (Zle_Qle 0).
  - apply Qle_trans with (pow2 (52 - e) * pow2 (e - 52))%Q.
    + apply Qmult_le_compat_r; [|lra].
      pose proof (pow2_nonneg_Z (52 - e) ltac:(lia)) as Hz. rewrite Zle_Qle in Hr1. lra.
    + rewrite <- pow2_plus. replace (52 - e + (e - 52))%Z with 0%Z by lia. apply Qle_refl.
Qed.

Lemma max_float_bound_big : (1 < max_float_bound)%Q.
Proof. vm_compute. reflexivity. Qed.

(** Rounding keeps the unit interval. *)
Lemma round64_unit q : (0 <= q)%Q → (q <= 1)%Q → in_unit (round64 q).
Proof.
  intros H0 H1. unfold round64. destruct (q ?= 0)%Q eqn:E.
  - exists 0%Q. split; [done|split; lra].
  - apply Qlt_alt in E. lra.
  - apply Qgt_alt in E. destruct (round_mag_unit q) as [Ha Hb]; [lra|lra|].
    destruct (Qle_bool max_float_bound (round_mag q)) eqn:E2.
    + apply Qle_bool_iff in E2. pose proof max_float_bound_big. lra.
    + exists (round_mag q). auto.
Qed.

Lemma pow10_inv n : (pow10 n * pow10 (- n) == 1)%Q.
Proof.
  unfold pow10. rewrite <- Qpower_plus by discriminate.
  replace (n + - n)%Z with 0%Z by lia. reflexivity.
Qed.

Lemma round_ndigits_unit n a : (0 <= n)%Z → in_unit a → in_unit (round_ndigits n a).
Proof.
  intros Hn (q & -> & H0 & H1). simpl.
  assert (0 < pow10 n)%Q as Hp by (apply Qpower_0_lt; reflexivity).
  assert (0 < pow10 (- n))%Q as Hp' by (apply Qpower_0_lt; reflexivity).
  assert (pow10 n == inject_Z (10 ^ n))%Q as Hz.
  { unfold pow10. by rewrite Zpower_Qpower. }
  apply round64_unit.
  - apply Qmult_le_0_compat; [|lra]. rewrite <- (Zle_Qle 0).
    apply rhe_nonneg. apply Qmult_le_0_compat; lra.
  - apply Qle_trans with (pow10 n * pow10 (- n))%Q; [|rewrite pow10_inv; lra].
    apply Qmult_le_compat_r; [|lra].
    assert (rhe (q * pow10 n) <= 10 ^ n)%Z as Hr; [|rewrite Zle_Qle in Hr; lra].
    apply rhe_le_Z. rewrite <- Hz.
    apply Qle_trans with (1 * pow10 n)%Q; [apply Qmult_le_compat_r; lra | lra].
Qed.

(** ** Rounding is monotone, and exact on small integers *)

Lemma flog2_spec q : (0 < q)%Q → (pow2 (flog2 q) <= q)%Q ∧ (q < pow2 (flog2 q + 1))%Q.
Proof.
  intros Hq. unfold flog2. set (ln := Z.log2 (Qnum q)). set (ld := Z.log2 (Zpos (Qden q))).
  assert (0 < Qnum q)%Z as Hn by (unfold Qlt in Hq; simpl in Hq; lia).
  destruct (Z.log2_spec (Qnum q) Hn) as [Hn1 Hn2].
  destruct (Z.log2_spec (Zpos (Qden q)) ltac:(lia)) as [Hd1 Hd2].
  fold ln in Hn1, Hn2. fold ld in Hd1, Hd2.
  assert (0 <= ln)%Z by apply Z.log2_nonneg. assert (0 <= ld)%Z by apply Z.log2_nonneg.
  assert (q * inject_Z (Zpos (Qden q)) == inject_Z (Qnum q))%Q as Hqd.
  { destruct q as [n d]. unfold Qeq; simpl. lia. }
  rewrite Zle_Qle, <- pow2_nonneg_Z in Hn1 by lia. rewrite Zlt_Qlt, <- pow2_nonneg_Z in Hn2 by lia.
  rewrite Zle_Qle, <- pow2_nonneg_Z in Hd1 by lia. rewrite Zlt_Qlt, <- pow2_nonneg_Z in Hd2 by lia.
  set (d := inject_Z (Zpos (Qden q))) in *. rewrite <- Hqd in Hn1, Hn2. clear Hqd.
  assert (pow2 (ln - ld + 1) * pow2 ld == pow2 (Z.succ ln))%Q as E1.
  { rewrite <- pow2_plus. replace (ln - ld + 1 + ld)%Z with (Z.succ ln) by lia. reflexivity. }
  assert (pow2 (ln - ld - 1) * pow2 (Z.succ ld) == pow2 ln)%Q as E2.
  { rewrite <- pow2_plus. replace (ln - ld - 1 + Z.succ ld)%Z with ln by lia. reflexivity. }
  pose proof (pow2_pos ld). pose proof (pow2_pos (ln - ld + 1)). pose proof (pow2_pos (ln - ld - 1)).
  assert (q < pow2 (ln - ld + 1))%Q as Hup.
  { apply Qnot_le_lt. intros Hc.
    assert (pow2 (ln - ld + 1) * pow2 ld <= q * d)%Q; [|lra].
    apply Qmult_le_compat_nonneg; split; lra. }
  assert (pow2 (ln - ld - 1) <= q)%Q as Hlow.
  { apply Qnot_lt_le. intros Hc.
    assert (q * d <= pow2 (ln - ld - 1) * d)%Q by (apply Qmult_le_compat_r; lra).
    assert (pow2 (ln - ld - 1) * d < pow2 (ln - ld - 1) * pow2 (Z.succ ld))%Q.
    { apply Qmult_lt_l; lra. } lra. }
  destruct (Qle_bool (pow2 (ln - ld)) q) eqn:E.
  - apply Qle_bool_iff in E. split; [done|]. exact Hup.
  - split; [exact Hlow|]. replace (ln - ld - 1 + 1)%Z with (ln - ld)%Z by lia.
    apply Qnot_le_lt. rewrite <- Qle_bool_iff. by rewrite E.
Qed.

Lemma pow2_le_mono a b : (a <= b)%Z → (pow2 a <= pow2 b)%Q.
Proof. intros. apply Qpower_le_compat_l; [done|]. discriminate. Qed.

Lemma pow2_lt_inv a b : (pow2 a < pow2 b)%Q → (a < b)%Z.
Proof.
  intros H. apply Z.nle_gt. intros Hle. apply pow2_le_mono in Hle. lra.
Qed.

Lemma flog2_mono a b : (0 < a)%Q → (a <= b)%Q → (flog2 a <= flog2 b)%Z.
Proof.
  intros Ha Hab. destruct (flog2_spec a Ha) as [Ha1 _].
  destruct (flog2_spec b) as [_ Hb2]; [lra|].
  apply Z.lt_succ_r, pow2_lt_inv. unfold Z.succ. lra.
Qed.

Lemma rhe_ge_Z q n : (inject_Z n <= q)%Q → (n <= rhe q)%Z.
Proof.
  intros H. unfold rhe.
  assert (n <= Qfloor q)%Z as Hf.
  { rewrite <- (Qfloor_Z n). by apply Qfloor_resp_le. }
  destruct (_ ?= _)%Q; [destruct (Z.even _)| |]; lia.
Qed.

Lemma rhe_inject_Z n : rhe (inject_Z n) = n.
Proof. apply Z.le_antisymm; [apply rhe_le_Z | apply rhe_ge_Z]; apply Qle_refl. Qed.

(** What [rhe] adds to the floor. *)
Lemma rhe_bounds q : (Qfloor q <= rhe q <= Qfloor q + 1)%Z.
Proof. unfold rhe. destruct (_ ?= _)%Q; [destruct (Z.even _)| |]; lia. Qed.

Lemma rhe_mono a b : (a <= b)%Q → (rhe a <= rhe b)%Z.
Proof.
  intros H. pose proof (Qfloor_resp_le _ _ H) as Hf.
  destruct (Z.eq_dec (Qfloor a) (Qfloor b)) as [E|E].
  - unfold rhe. rewrite <- E. set (f := Qfloor a).
    destruct (a - inject_Z f ?= 1 # 2)%Q eqn:Ea, (b - inject_Z f ?= 1 # 2)%Q eqn:Eb;
      rewrite <- ?Qeq_alt, <- ?Qlt_alt, <- ?Qgt_alt in *;
      try destruct (Z.even f); try lia; lra.
  - pose proof (rhe_bounds a). pose proof (rhe_bounds b). lia.
Qed.

Lemma round_mag_mono a b : (0 < a)%Q → (a <= b)%Q → (round_mag a <= round_mag b)%Q.
Proof.
  intros Ha Hab. unfold round_mag. rewrite !Qred_correct.
  pose proof (flog2_mono a b Ha Hab) as Hl.
  set (ea := Z.max (flog2 a) min_exp). set (eb := Z.max (flog2 b) min_exp).
  assert (ea <= eb)%Z as He by lia.
  pose proof (pow2_pos (52 - ea)). pose proof (pow2_pos (ea - 52)).
  pose proof (pow2_pos (52 - eb)). pose proof (pow2_pos (eb - 52)).
  destruct (Z.eq_dec ea eb) as [E|E].
  - rewrite <- E. apply Qmult_le_compat_r; [|lra]. rewrite <- Zle_Qle.
    apply rhe_mono. apply Qmult_le_compat_r; lra.
  - apply Qle_trans with (pow2 eb).
    + apply Qle_trans with (inject_Z (2 ^ 53) * pow2 (ea - 52))%Q.
      * apply Qmult_le_compat_r; [|lra]. rewrite <- Zle_Qle. apply rhe_le_Z.
        rewrite <- (pow2_nonneg_Z 53) by lia.
        setoid_replace (pow2 53) with (pow2 (ea + 1) * pow2 (52 - ea))%Q using relation Qeq.
        -- apply Qmult_le_compat_r; [|lra].
           apply Qle_trans with (pow2 (flog2 a + 1)).
           ++ apply Qlt_le_weak. by apply flog2_spec.
           ++ apply pow2_le_mono. lia.
        -- rewrite <- pow2_plus. by replace (ea + 1 + (52 - ea))%Z with 53%Z by lia.
      * rewrite <- (pow2_nonneg_Z 53) by lia. rewrite <- pow2_plus. apply pow2_le_mono. lia.
    + assert (eb = flog2 b) as Eb by lia.
      setoid_replace (pow2 eb) with (inject_Z (2 ^ 52) * pow2 (eb - 52))%Q using relation Qeq.
      * apply Qmult_le_compat_r; [|lra]. rewrite <- Zle_Qle. apply rhe_ge_Z.
        rewrite <- (pow2_nonneg_Z 52) by lia.
        setoid_replace (pow2 52) with (pow2 eb * pow2 (52 - eb))%Q using relation Qeq.
        -- apply Qmult_le_compat_r; [|lra]. rewrite Eb. apply flog2_spec. lra.
        -- rewrite <- pow2_plus. by replace (eb + (52 - eb))%Z with 52%Z by lia.
      * rewrite <- (pow2_nonneg_Z 52) by lia. rewrite <- pow2_plus.
        by replace (52 + (eb - 52))%Z with eb by lia.
Qed.

(** [round64] rounds a small integer to itself. *)
Lemma round_mag_Z n : (0 < n < 2 ^ 53)%Z → round_mag (inject_Z n) = inject_Z n.
Proof.
  intros Hn. unfold round_mag. set (e := Z.max (flog2 (inject_Z n)) min_exp).
  assert (e <= 52)%Z as He.
  { assert (flog2 (inject_Z n) < 53)%Z; [|unfold e, min_exp; lia].
    apply pow2_lt_inv. destruct (flog2_spec (inject_Z n)) as [H1 _].
    { rewrite <- (Zlt_Qlt 0). lia. }
    rewrite (pow2_nonneg_Z 53) by lia. apply Qle_lt_trans with (inject_Z n); [done|].
    rewrite <- Zlt_Qlt. lia. }
  assert (rhe (inject_Z n * pow2 (52 - e)) = n * 2 ^ (52 - e))%Z as ->.
  { apply Z.le_antisymm; [apply rhe_le_Z|apply rhe_ge_Z];
      rewrite inject_Z_mult, <- pow2_nonneg_Z by lia; apply Qle_refl. }
  transitivity (Qred (inject_Z n)).
  - apply Qred_complete. rewrite inject_Z_mult, <- pow2_nonneg_Z by lia.
    rewrite <- Qmult_assoc, <- pow2_plus. replace (52 - e + (e - 52))%Z with 0%Z by lia.
    change (pow2 0) with 1%Q. ring.
  - apply Qcanon.Qred_identity. unfold inject_Z; simpl. apply Z.gcd_1_r.
Qed.

Create HintDb pyfloat.
#[export] Hint Resolve clip_in_unit round64_unit round_ndigits_unit : pyfloat.

Lemma round64_Z n : (0 <= n < 2 ^ 53)%Z → round64 (inject_Z n) = FFin (inject_Z n).
Proof.
  intros Hn. unfold round64. destruct (Z.eq_dec n 0%Z) as [->|Hne]; [done|].
  assert (inject_Z n ?= 0 = Gt)%Q as ->.
  { apply Qgt_alt. rewrite <- (Zlt_Qlt 0). lia. }
  rewrite round_mag_Z by lia.
  destruct (Qle_bool max_float_bound (inject_Z n)) eqn:E; [|done].
  apply Qle_bool_iff in E. exfalso.
  assert (inject_Z n < inject_Z (2 ^ 53))%Q by (rewrite <- Zlt_Qlt; lia).
  assert (inject_Z (2 ^ 53) <= max_float_bound)%Q; [|lra].
  unfold max_float_bound. rewrite (pow2_nonneg_Z 1024), <- Zle_Qle by lia.
  apply Z.pow_le_mono_r; lia.
Qed.

(** The value of a float, extended with the infinities. *)
Lemma round64_pos_mono a b :
  (0 < a)%Q → (a <= b)%Q → fle (round64 a) (round64 b) = true.
Proof.
  intros Ha Hab. unfold round64.
  rewrite (proj1 (Qgt_alt a 0)) by lra. rewrite (proj1 (Qgt_alt b 0)) by lra.
  pose proof (round_mag_mono a b Ha Hab) as Hm.
  destruct (Qle_bool max_float_bound (round_mag a)) eqn:Ea,
    (Qle_bool max_float_bound (round_mag b)) eqn:Eb; unfold fle; simpl; try done.
  - apply Qle_bool_iff in Ea. exfalso. rewrite <- not_true_iff_false, Qle_bool_iff in Eb. lra.
  - destruct (Qlt_bool (round_mag a) (round_mag b)) eqn:E; [done|]. simpl.
    apply Qlt_bool_false in E. apply Qeq_bool_iff. lra.
Qed.

Lemma round_mag_nonneg q : (0 <= q)%Q → (0 <= round_mag q)%Q.
Proof.
  intros H. unfold round_mag. rewrite Qred_correct. set (e := Z.max (flog2 q) min_exp).
  pose proof (pow2_pos (52 - e)). pose proof (pow2_pos (e - 52)).
  apply Qmult_le_0_compat; [|lra]. rewrite <- (Zle_Qle 0).
  apply rhe_nonneg. apply Qmult_le_0_compat; lra.
Qed.

Lemma round64_nonpos q r : (q <= 0)%Q → round64 q = FFin r → (r <= 0)%Q.
Proof.
  intros Hq. unfold round64. destruct (q ?= 0)%Q eqn:E; intros; simplify_eq.
  - lra.
  - destruct (Qle_bool max_float_bound (round_mag (- q))); simplify_eq.
    rewrite Qred_correct. pose proof (round_mag_nonneg (- q)). lra.
  - apply Qgt_alt in E. lra.
Qed.

Lemma fle_round64_Z N q :
  (0 <= N < 2 ^ 53)%Z → (inject_Z N <= q)%Q → (0 < q)%Q →
  fle (FFin (inject_Z N)) (round64 q) = true.
Proof.
  intros HN Hle Hq. destruct (Z.eq_dec N 0%Z) as [->|Hne].
  - unfold round64. rewrite (proj1 (Qgt_alt q 0)) by done.
    destruct (Qle_bool max_float_bound (round_mag q)); [done|].
    pose proof (round_mag_nonneg q). unfold fle; simpl.
    destruct (Qlt_bool (inject_Z 0) (round_mag q)) eqn:E; [done|]. simpl.
    apply Qlt_bool_false in E. apply Qeq_bool_iff. change (inject_Z 0) with 0%Q in *. lra.
  - rewrite <- (round64_Z N HN). apply round64_pos_mono; [|done].
    rewrite <- (Zlt_Qlt 0). lia.
Qed.

(** ** Rounding and the operations keep the order *)

Lemma fle_FFin x y : fle (FFin x) (FFin y) = true ↔ (x <= y)%Q.
Proof.
  unfold fle; cbn. rewrite orb_true_iff, Qlt_bool_iff, Qeq_bool_iff. split.
  - intros [H|H]; lra.
  - intros H. destruct (Qlt_le_dec x y); [by left|right; lra].
Qed.

Lemma fle_trans a b c : fle a b = true → fle b c = true → fle a c = true.
Proof.
  destruct a as [x|[]|], b as [y|[]|], c as [z|[]|]; try done.
  rewrite !fle_FFin. lra.
Qed.

Lemma fle_refl a : a ≠ FNan → fle a a = true.
Proof. destruct a as [x|[]|]; try done. rewrite fle_FFin. lra. Qed.

Lemma round64_zero q : (q == 0)%Q → round64 q = FFin 0.
Proof. intros H. unfold round64. by rewrite (proj1 (Qeq_alt q 0) H). Qed.

Lemma round64_sign_pos q : (0 <= q)%Q → fle (FFin 0) (round64 q) = true.
Proof.
  intros H. unfold round64. destruct (q ?= 0)%Q eqn:E; [done| |].
  - apply Qlt_alt in E. lra.
  - destruct (Qle_bool _ _); [done|]. apply fle_FFin. by apply round_mag_nonneg.
Qed.

Lemma round64_sign_neg q : (q <= 0)%Q → fle (round64 q) (FFin 0) = true.
Proof.
  intros H. unfold round64. destruct (q ?= 0)%Q eqn:E; [done| |].
  - destruct (Qle_bool _ _); [done|]. apply fle_FFin. rewrite Qred_correct.
    pose proof (round_mag_nonneg (- q)). lra.
  - apply Qgt_alt in E. lra.
Qed.

Lemma round64_neg_mono a b :
  (b < 0)%Q → (a <= b)%Q → fle (round64 a) (round64 b) = true.
Proof.
  intros Hb Hab. unfold round64.
  rewrite (proj1 (Qlt_alt a 0)) by lra. rewrite (proj1 (Qlt_alt b 0)) by lra.
  assert (round_mag (- b) <= round_mag (- a))%Q as Hm by (apply round_mag_mono; lra).
  destruct (Qle_bool max_float_bound (round_mag (- a))) eqn:Ea,
    (Qle_bool max_float_bound (round_mag (- b))) eqn:Eb; try done.
  - apply Qle_bool_iff in Eb. exfalso. rewrite <- not_true_iff_false, Qle_bool_iff in Ea. lra.
  - apply fle_FFin. rewrite !Qred_correct. lra.
Qed.

Lemma round64_mono a b : (a <= b)%Q → fle (round64 a) (round64 b) = true.
Proof.
  intros H. destruct (Qlt_le_dec 0 a); [by apply round64_pos_mono|].
  destruct (Qlt_le_dec b 0); [by apply round64_neg_mono|].
  apply fle_trans with (FFin 0); [by apply round64_sign_neg|by apply round64_sign_pos].
Qed.

Lemma round64_not_nan q : round64 q ≠ FNan.
Proof. unfold round64. by repeat case_match. Qed.

Lemma fadd_mono a b z : fle a b = true → fle (fadd a (FFin z)) (fadd b (FFin z)) = true.
Proof.
  destruct a as [x|[]|], b as [y|[]|]; try done.
  - rewrite fle_FFin. intros H. apply round64_mono. lra.
  - intros _. cbn. pose proof (round64_not_nan (x + z)). by destruct (round64 (x + z)) as [?|[]|].
  - intros _. cbn. pose proof (round64_not_nan (y + z)). by destruct (round64 (y + z)) as [?|[]|].
Qed.

(** A difference grows with its left side and falls with its right one. *)
Lemma fsub_mono_l a b z : fle a b = true → fle (fsub a (FFin z)) (fsub b (FFin z)) = true.
Proof. apply fadd_mono. Qed.

Lemma fsub_mono_r a b z : fle a b = true → fle (fsub (FFin z) b) (fsub (FFin z) a) = true.
Proof.
  destruct a as [x|[]|], b as [y|[]|]; try done; unfold fsub; cbn [fneg fadd negb].
  - rewrite fle_FFin. intros H. apply round64_mono. rewrite !Qred_correct. lra.
  - intros _. pose proof (round64_not_nan (z + Qred (- x))).
    by destruct (round64 (z + Qred (- x))) as [?|[]|].
  - intros _. pose proof (round64_not_nan (z + Qred (- y))).
    by destruct (round64 (z + Qred (- y))) as [?|[]|].
Qed.

Lemma clip_mono a b : fle a b = true → fle (clip a) (clip b) = true.
Proof.
  destruct (clip_in_unit a) as (x & Ex & Hx), (clip_in_unit b) as (y & Ey & Hy).
  unfold clip, fmax, fmin in *.
  destruct a as [a|[]|], b as [b|[]|]; try done; cbn in *; intros Hab.
  - apply fle_FFin in Hab.
    destruct (Qlt_bool a 1) eqn:E1, (Qlt_bool b 1) eqn:E2; cbn in *;
      repeat match goal with |- context [Qlt_bool ?x ?y] => destruct (Qlt_bool x y) eqn:? end;
      apply fle_FFin; rewrite ?Qlt_bool_iff, ?Qlt_bool_false in *; lra.
  - destruct (Qlt_bool a 1) eqn:E1; cbn in *;
      repeat match goal with |- context [Qlt_bool ?x ?y] => destruct (Qlt_bool x y) eqn:? end;
      apply fle_FFin; rewrite ?Qlt_bool_iff, ?Qlt_bool_false in *; lra.
  - destruct (Qlt_bool b 1) eqn:E1; cbn in *;
      repeat match goal with |- context [Qlt_bool ?x ?y] => destruct (Qlt_bool x y) eqn:? end;
      apply fle_FFin; rewrite ?Qlt_bool_iff, ?Qlt_bool_false in *; lra.
Qed.

(** ** Means *)

Lemma fsum_exact_mono l k : Forall2 (λ x y, fle x y = true) l k →
  Forall in_unit l → Forall in_unit k →
  ∃ s t, fsum_exact l = Some s ∧ fsum_exact k = Some t ∧ (s <= t)%Q.
Proof.
  induction 1 as [|x y l k Hxy _ IH]; intros Hl Hk.
  - by exists 0%Q, 0%Q.
  - apply Forall_cons in Hl as [(a & -> & _) Hl], Hk as [(b & -> & _) Hk].
    destruct (IH Hl Hk) as (s & t & Es & Et & Hst). apply fle_FFin in Hxy.
    exists (a + s)%Q, (b + t)%Q. cbn. unfold fsum_exact in *. rewrite Es, Et. split_and!; [done..|lra].
Qed.

Lemma float_of_Z_pos n d : (0 < n)%Z → float_of_Z n = Ok d → ∃ q, d = FFin q ∧ (0 < q)%Q.
Proof.
  intros Hn. unfold float_of_Z. destruct (round64 (inject_Z n)) as [q| |] eqn:E; intros; simplify_eq.
  exists q. split; [done|].
  assert (fle (round64 1) (round64 (inject_Z n)) = true) as H.
  { apply round64_mono. rewrite <- (Zle_Qle 1). lia. }
  rewrite E in H. change (round64 1) with (FFin 1) in H. apply fle_FFin in H. lra.
Qed.

Lemma fmean_mono l k x y : Forall2 (λ x y, fle x y = true) l k →
  Forall in_unit l → Forall in_unit k → fmean l = Ok x → fmean k = Ok y → fle x y = true.
Proof.
  intros H Hl Hk. pose proof (Forall2_length _ _ _ H) as Hlen.
  destruct (fsum_exact_mono l k H Hl Hk) as (s & t & Es & Et & Hst).
  unfold fmean, fsum. destruct l as [|a l], k as [|b k]; try done.
  rewrite Es, Et, Hlen. clear Es Et H Hlen Hl Hk.
  pose proof (round64_mono s t Hst) as Hr.
  intros (s1 & H1 & (n1 & Hn1 & Hx)%bind_Ok_inv)%bind_Ok_inv
    (t1 & H2 & (n2 & Hn2 & Hy)%bind_Ok_inv)%bind_Ok_inv.
  assert (n2 = n1) as -> by congruence. apply float_of_Z_pos in Hn1 as (n & -> & Hn); [|cbn; lia].
  destruct (round64 s) as [s'| |], (round64 t) as [t'| |]; try done. simplify_eq.
  apply fle_FFin in Hr. unfold fdiv in Hx, Hy.
  destruct (qzero n); [done|]. injection Hx as <-. injection Hy as <-.
  apply round64_mono. unfold Qdiv. apply Qmult_le_r; [by apply Qinv_lt_0_compat|done].
Qed.

(** ** Regression examples against CPython *)
Example round64_tenth : round64 (1 # 10) = FFin (3602879701896397 # 36028797018963968).
Proof. vm_compute. reflexivity. Qed.
Example repr_tenth : repr_float (round64 (1 # 10)) = "0.1".
Proof. vm_compute. reflexivity. Qed.
Example repr_sum : repr_float (fadd (round64 (1 # 10)) (round64 (2 # 10))) = "0.30000000000000004".
Proof. vm_compute. reflexivity. Qed.
Example repr_pow : repr_float (FFin (pow2 (-44))) = "5.684341886080802e-14".
Proof. vm_compute. reflexivity. Qed.
Example parse_float : float_of_string " 1_0.5e-1 " = Some (round64 (105 # 100)).
Proof. vm_compute. reflexivity. Qed.
Example parse_bad : float_of_string "1__0" = None ∧ float_of_string "." = None.
Proof. split; vm_compute; reflexivity. Qed.
Example format_g_samples :
  map format_g [FFin 0; FFin 100; flit (1 # 10); flit (3 # 2); flit 1234567; flit (1 # 100000)] =
  ["0"; "100"; "0.1"; "1.5"; "1.23457e+06"; "1e-05"].
Proof. vm_compute. reflexivity. Qed.
