(* ===== verification/PyVal.v ===== *)
(** * JSON-shaped Python values

    The sources pass [Mapping[str, Any]] documents around.  [val] is such a
    document; below are the operations the sources apply to one: truth value,
    [==], [d.get], [d\[k\]], [str], [int], [float] and [isinstance] tests, with
    the exceptions CPython raises. Strings are byte strings; the ASCII part of
    [str.strip] and of the numeric parsers is modelled. *)

From Stdlib Require Import QArith.
From S2P Require Import Prelude PyFloat.

#[local] Set Warnings "-register-all".

Inductive val :=
  | VNone
  | VBool (b : bool)
  | VInt (z : Z)
  | VFloat (f : pyfloat)
  | VStr (s : string)
  | VList (l : list val)
  | VDict (d : list (string * val)).

Abbreviation mapping := (list (string * val)).

(** Structural induction through the nested lists. *)
Section val_induction.
Context (P : val → Prop).
Context (HNone : P VNone) (HBool : ∀ b, P (VBool b)) (HInt : ∀ z, P (VInt z))
  (HFloat : ∀ f, P (VFloat f)) (HStr : ∀ s, P (VStr s))
  (HList : ∀ l, Forall P l → P (VList l))
  (HDict : ∀ d, Forall (λ kv, P kv.2) d → P (VDict d)).

Fixpoint val_ind_nested (v : val) : P v :=
  match v with
  | VNone => HNone
  | VBool b => HBool b
  | VInt z => HInt z
  | VFloat f => HFloat f
  | VStr s => HStr s
  | VList l => HList l ((fix go l : Forall P l := match l with
      | [] => Forall_nil_2 _
      | x :: l' => Forall_cons_2 _ _ _ (val_ind_nested x) (go l')
      end) l)
  | VDict d => HDict d ((fix go d : Forall (λ kv, P kv.2) d := match d with
      | [] => Forall_nil_2 _
      | kv :: d' => Forall_cons_2 _ kv _ (val_ind_nested kv.2) (go d')
      end) d)
  end.
End val_induction.

(** ** Types and truth *)

Definition type_name (v : val) : string :=
  match v with
  | VNone => "NoneType" | VBool _ => "bool" | VInt _ => "int" | VFloat _ => "float"
  | VStr _ => "str" | VList _ => "list" | VDict _ => "dict"
  end.

Definition truthy (v : val) : bool :=
  match v with
  | VNone => false
  | VBool b => b
  | VInt z => negb (z =? 0)%Z
  | VFloat (FFin q) => negb (qzero q)
  | VFloat _ => true
  | VStr s => nonempty s
  | VList l => negb (bool_decide (length l = 0))
  | VDict d => negb (bool_decide (length d = 0))
  end.

(** [a or b] *)
Definition py_or (a b : val) : val := if truthy a then a else b.

(** A text that may be absent. *)
Definition opt_str (o : option string) : val := from_option VStr VNone o.

Definition is_none (v : val) : bool := match v with VNone => true | _ => false end.

(** [isinstance(v, list)], and the list it is. *)
Definition as_list (v : val) : option (list val) := match v with VList l => Some l | _ => None end.
Definition as_map (v : val) : option mapping := match v with VDict d => Some d | _ => None end.
Definition as_str (v : val) : option string := match v with VStr s => Some s | _ => None end.
(** [isinstance(v, int)]: a [bool] is an [int]. *)
Definition as_int (v : val) : option Z :=
  match v with VInt z => Some z | VBool b => Some (Z.b2z b) | _ => None end.

(** [v is True] *)
Definition is_true (v : val) : bool := match v with VBool b => b | _ => false end.

(** ** Equality *)

Definition num_eq (a b : val) : bool :=
  let exact := λ v, match v with
    | VInt z => Some (FFin (inject_Z z))
    | VBool b => Some (FFin (inject_Z (Z.b2z b)))
    | VFloat f => Some f
    | _ => None
    end in
  match exact a, exact b with Some x, Some y => feq x y | _, _ => false end.

Fixpoint py_eq (a b : val) {struct a} : bool :=
  match a, b with
  | VNone, VNone => true
  | VStr s, VStr t => bool_decide (s = t)
  | VList l, VList m =>
      (fix go l m := match l, m with
        | [], [] => true
        | x :: l', y :: m' => py_eq x y && go l' m'
        | _, _ => false
        end) l m
  | VDict d, VDict e =>
      bool_decide (length d = length e) &&
      (fix go d := match d with
        | [] => true
        | (k, x) :: d' =>
            match dget k e with Some y => py_eq x y | None => false end && go d'
        end) d
  | (VBool _ | VInt _ | VFloat _), (VBool _ | VInt _ | VFloat _) => num_eq a b
  | _, _ => false
  end.

Definition is_str (v : val) (s : string) : bool := py_eq v (VStr s).

Lemma is_str_true v s : is_str v s = true ↔ v = VStr s.
Proof.
  unfold is_str. destruct v; simpl; split; try discriminate.
  - intros ->%bool_decide_eq_true. done.
  - intros [= ->]. by apply bool_decide_eq_true.
Qed.

Lemma is_str_false v s : is_str v s = false ↔ v ≠ VStr s.
Proof. rewrite <- not_true_iff_false, is_str_true. done. Qed.

Lemma is_str_refl s : is_str (VStr s) s = true.
Proof. by apply is_str_true. Qed.

Lemma is_str_VStr s t : is_str (VStr s) t = bool_decide (s = t).
Proof. done. Qed.

(** Values usable in a [set]. *)
Definition hashable (v : val) : bool :=
  match v with VList _ | VDict _ => false | _ => true end.
Definition hash_check (v : val) : result unit :=
  require (hashable v) TypeError ("unhashable type: '" +:+ type_name v +:+ "'").

(** [v in {"a", ...}] for a set of string literals. *)
Definition in_str_set (v : val) (l : list string) : result bool :=
  hash_check v ;; Ok (existsb (is_str v) l).

(** [v in ("a", ...)] for a tuple or list of strings: no hashing. *)
Definition in_str_list (v : val) (l : list string) : bool := existsb (is_str v) l.

Lemma in_str_list_true v l : in_str_list v l = true ↔ ∃ s, v = VStr s ∧ s ∈ l.
Proof.
  unfold in_str_list. rewrite existsb_True. setoid_rewrite is_str_true. naive_solver.
Qed.

(** ** Access *)

(** [d.get(k)] and [d.get(k, x)] of a mapping. *)
Definition vget (d : mapping) (k : string) : val := default VNone (dget k d).
Definition vget_or (d : mapping) (k : string) (x : val) : val := default x (dget k d).
(** [d\[k\]] of a mapping. *)
Definition vitem (d : mapping) (k : string) : result val :=
  opt_or_raise (dget k d) KeyError ("'" +:+ k +:+ "'").
Definition has_key (d : mapping) (k : string) : bool := dmem k d.

(** [v.get(k)] of any value: only a mapping has [get]. *)
Definition attr_get (v : val) (k : string) : result val :=
  match v with
  | VDict d => Ok (vget d k)
  | _ => raise AttributeError ("'" +:+ type_name v +:+ "' object has no attribute 'get'")
  end.

(** [l\[i\]] of a list, with Python's negative indices. *)
Definition list_item {A} (l : list A) (i : Z) : result A :=
  let j := if (i <? 0)%Z then (i + Z.of_nat (length l))%Z else i in
  if (j <? 0)%Z then raise IndexError "list index out of range"
  else opt_or_raise (l !! Z.to_nat j) IndexError "list index out of range".

(** [v\[k\]] of any value. *)
Definition val_item (v : val) (k : string) : result val :=
  match v with
  | VDict d => vitem d k
  | VList _ => raise TypeError "list indices must be integers or slices, not str"
  | VStr _ => raise TypeError "string indices must be integers, not 'str'"
  | _ => raise TypeError ("'" +:+ type_name v +:+ "' object is not subscriptable")
  end.

Definition val_index (v : val) (i : Z) : result val :=
  match v with
  | VList l => list_item l i
  | VDict _ => raise KeyError (pretty i)
  | VStr s => c ← list_item (chars s) i; Ok (VStr (String c EmptyString))
  | _ => raise TypeError ("'" +:+ type_name v +:+ "' object is not subscriptable")
  end.

(** [v.get(k, x)] *)
Definition attr_get_or (v : val) (k : string) (x : val) : result val :=
  match v with
  | VDict d => Ok (vget_or d k x)
  | _ => raise AttributeError ("'" +:+ type_name v +:+ "' object has no attribute 'get'")
  end.

Definition val_len (v : val) : result Z :=
  match v with
  | VList l => Ok (Z.of_nat (length l))
  | VDict d => Ok (Z.of_nat (length d))
  | VStr s => Ok (Z.of_nat (length (chars s)))
  | _ => raise TypeError ("object of type '" +:+ type_name v +:+ "' has no len()")
  end.

Lemma vget_dset_eq d k v : vget (dset k v d) k = v.
Proof. unfold vget. by rewrite dget_dset_eq. Qed.
Lemma vget_dset_ne d k k' v : k ≠ k' → vget (dset k' v d) k = vget d k.
Proof. intros. unfold vget. by rewrite dget_dset_ne. Qed.

(** ** [str] and [repr] *)

Definition hex_digit (n : N) : ascii :=
  if (n <? 10)%N then ascii_of_N (48 + n) else ascii_of_N (87 + n).

Definition repr_char (quote c : ascii) : string :=
  let n := N_of_ascii c in
  if bool_decide (c = quote) then String "\" (String c EmptyString)
  else if bool_decide (c = "\"%char) then "\\"
  else if (n =? 10)%N then "\n"
  else if (n =? 13)%N then "\r"
  else if (n =? 9)%N then "\t"
  else if (n <? 32)%N || (n =? 127)%N
       then "\x" +:+ String (hex_digit (n / 16)) (String (hex_digit (n mod 16)) EmptyString)
  else String c EmptyString.

Definition squote : ascii := ascii_of_N 39.
Definition dquote : ascii := ascii_of_N 34.

Definition repr_string (s : string) : string :=
  let quote := if bool_decide (squote ∈ chars s) && negb (bool_decide (dquote ∈ chars s))
               then dquote else squote in
  let q := String quote EmptyString in
  q +:+ foldr (λ c acc, repr_char quote c +:+ acc) "" (chars s) +:+ q.

Fixpoint py_repr (v : val) : string :=
  match v with
  | VNone => "None"
  | VBool true => "True"
  | VBool false => "False"
  | VInt z => pretty z
  | VFloat f => repr_float f
  | VStr s => repr_string s
  | VList l => "[" +:+ str_join ", " (map py_repr l) +:+ "]"
  | VDict d =>
      "{" +:+ str_join ", " (map (λ kv, repr_string kv.1 +:+ ": " +:+ py_repr kv.2) d) +:+ "}"
  end.

Definition py_str (v : val) : string :=
  match v with VStr s => s | _ => py_repr v end.

(** [str(v or "")] *)
Definition str_or_empty (v : val) : string := py_str (py_or v (VStr "")).

Lemma str_or_empty_VStr s : str_or_empty (VStr s) = s.
Proof.
  unfold str_or_empty, py_or; simpl. unfold nonempty.
  destruct (decide (s = "")) as [->|]; [done|]. by rewrite bool_decide_false.
Qed.

(** ** [int] and [float] *)

Definition py_int (v : val) : result Z :=
  match v with
  | VInt z => Ok z
  | VBool b => Ok (Z.b2z b)
  | VFloat f => Z_of_float f
  | VStr s => opt_or_raise (int_of_string s) ValueError
                ("invalid literal for int() with base 10: " +:+ repr_string s)
  | _ => raise TypeError ("int() argument must be a string, a bytes-like object or a real number, not '"
                          +:+ type_name v +:+ "'")
  end.

Definition py_float (v : val) : result pyfloat :=
  match v with
  | VInt z => float_of_Z z
  | VBool b => float_of_Z (Z.b2z b)
  | VFloat f => Ok f
  | VStr s => opt_or_raise (float_of_string s) ValueError
                ("could not convert string to float: " +:+ repr_string s)
  | _ => raise TypeError ("float() argument must be a string or a real number, not '"
                          +:+ type_name v +:+ "'")
  end.

(** [list(v)], and what a [for] loop over [v] visits. *)
Definition py_list (v : val) : result (list val) :=
  match v with
  | VList l => Ok l
  | VStr s => Ok (map (λ c, VStr (String c EmptyString)) (chars s))
  | VDict d => Ok (map (λ kv, VStr kv.1) d)
  | _ => raise TypeError ("'" +:+ type_name v +:+ "' object is not iterable")
  end.

(** [dict(v)] of a mapping; nothing else is one. *)
Definition py_dict (v : val) : result mapping :=
  match v with
  | VDict d => Ok d
  | _ => raise TypeError ("'" +:+ type_name v +:+ "' object is not a mapping")
  end.

(** [bool(v)] *)
Definition py_bool (v : val) : bool := truthy v.

Example py_int_bool : py_int (VBool true) = Ok 1%Z.
Proof. reflexivity. Qed.
Example py_repr_nested :
  py_repr (VDict [("a", VList [VInt 1; VStr "x'y"; VNone])]) =
  "{'a': [1, " +:+ String dquote ("x'y" +:+ String dquote ", None]}").
Proof. vm_compute. reflexivity. Qed.

(** ** Documents written with [sort_keys=True] and read back *)
Definition sort_items {A} (d : list (string * A)) : list (string * A) :=
  sort_by (λ x y, str_leb x.1 y.1) d.

Fixpoint sort_doc (v : val) : val :=
  match v with
  | VList l => VList (map sort_doc l)
  | VDict d => VDict (sort_items (map (λ kv, (kv.1, sort_doc kv.2)) d))
  | _ => v
  end.

Definition sort_mapping (m : mapping) : mapping :=
  sort_items (map (λ kv, (kv.1, sort_doc kv.2)) m).

Lemma list_ascii_leb_refl l : list_ascii_leb l l = true.
Proof. induction l; cbn; [done|]. by rewrite N.ltb_irrefl. Qed.

Lemma dget_insert_by {A} k (x : string * A) d :
  dget k (insert_by (λ a b, str_leb a.1 b.1) x d) =
  if decide (k = x.1) then Some x.2 else dget k d.
Proof.
  destruct x as [k' v]. cbn [fst snd]. induction d as [|[k1 v1] d IH]; [done|].
  cbn [insert_by fst]. destruct (str_leb k' k1) eqn:E; [done|]. cbn [dget]. rewrite IH.
  repeat case_decide; subst; try done. unfold str_leb in E. by rewrite list_ascii_leb_refl in E.
Qed.

Lemma dget_sort_items {A} k (d : list (string * A)) : dget k (sort_items d) = dget k d.
Proof.
  unfold sort_items. induction d as [|[k1 v1] d IH]; [done|]. cbn [sort_by foldr].
  rewrite dget_insert_by. cbn [fst snd dget]. unfold sort_by in IH. by rewrite IH.
Qed.

Lemma dget_map_doc k (f : val → val) (d : mapping) :
  dget k (map (λ kv, (kv.1, f kv.2)) d) = f <$> dget k d.
Proof. induction d as [|[k1 v1] d IH]; [done|]. cbn. by case_decide. Qed.

Lemma dget_sort_mapping k m : dget k (sort_mapping m) = sort_doc <$> dget k m.
Proof. unfold sort_mapping. by rewrite dget_sort_items, dget_map_doc. Qed.

Lemma dkeys_sort_mapping m : dkeys (sort_mapping m) ≡ₚ dkeys m.
Proof.
  unfold dkeys, sort_mapping, sort_items. rewrite sort_by_Permutation.
  induction m as [|kv m IH]; [done|]. cbn. by rewrite IH.
Qed.

Lemma vget_sort_str k m x : vget m k = VStr x → vget (sort_mapping m) k = VStr x.
Proof. unfold vget. rewrite dget_sort_mapping. destruct (dget k m); cbn; [by intros ->|done]. Qed.
