(* ===== verification/PyJson.v ===== *)
(** * JSON text

    [json.dumps(..., ensure_ascii=False, separators=(",", ":"), sort_keys=True)] of documents
    without floats, and that documents with the same text are the same up to the order of
    their keys. *)

From S2P Require Import Prelude PyVal.

#[local] Open Scope Z_scope.

Inductive Json :=
  | JNull
  | JBool (b : bool)
  | JInt (z : Z)
  | JStr (s : string)
  | JList (l : list Json)
  | JObj (l : list (string * Json)).

(** ** Printing *)

Definition backslash : ascii := ascii_of_N 92.

(** One character of a string. *)
Definition escape (c : ascii) : list ascii :=
  let n := N_of_ascii c in
  if bool_decide (n = 34%N) then [backslash; dquote]
  else if bool_decide (n = 92%N) then [backslash; backslash]
  else if bool_decide (n = 10%N) then [backslash; "n"%char]
  else if bool_decide (n = 13%N) then [backslash; "r"%char]
  else if bool_decide (n = 9%N) then [backslash; "t"%char]
  else if bool_decide (n = 12%N) then [backslash; "f"%char]
  else if bool_decide (n = 8%N) then [backslash; "b"%char]
  else if (n <? 32)%N then backslash :: chars "u00" ++ [hex_digit (n / 16); hex_digit (n mod 16)]
  else [c].

Definition quoted (s : string) : list ascii := dquote :: (chars s ≫= escape) ++ [dquote].

(** [",".join(items)] *)
Fixpoint commas (items : list (list ascii)) : list ascii :=
  match items with
  | [] => []
  | [x] => x
  | x :: rest => x ++ ","%char :: commas rest
  end.

Fixpoint text_of (j : Json) : list ascii :=
  match j with
  | JNull => chars "null"
  | JBool b => chars (if b then "true" else "false")
  | JInt z => chars (pretty z)
  | JStr s => quoted s
  | JList l => "["%char :: commas (map text_of l) ++ ["]"%char]
  | JObj l => "{"%char :: commas (map (λ kv : string * Json, quoted kv.1 ++ ":"%char :: text_of kv.2) l) ++ ["}"%char]
  end.

(** [sort_keys=True] *)
Fixpoint sort_keys (j : Json) : Json :=
  match j with
  | JList l => JList (map sort_keys l)
  | JObj l => JObj (sort_items (map (λ kv : string * Json, (kv.1, sort_keys kv.2)) l))
  | _ => j
  end.

Definition dumps_sorted (j : Json) : string := unchars (text_of (sort_keys j)).

Example dumps_example :
  dumps_sorted (JObj [("b", JList [JInt (-2); JBool true; JNull]); ("a", JObj [("k", JStr "x,y")])]) =
  unchars (map (λ c, if bool_decide (c = "'"%char) then dquote else c)
    (chars "{'a':{'k':'x,y'},'b':[-2,true,null]}")).
Proof. vm_compute. reflexivity. Qed.

(** ** The text determines the document *)

Section json_ind.
Context (P : Json → Prop) (HN : P JNull) (HB : ∀ b, P (JBool b)) (HI : ∀ z, P (JInt z)) (HS : ∀ s, P (JStr s))
  (HL : ∀ l, Forall P l → P (JList l)) (HO : ∀ l, Forall (λ kv, P kv.2) l → P (JObj l)).

Fixpoint json_ind_nested (j : Json) : P j :=
  match j with
  | JNull => HN
  | JBool b => HB b
  | JInt z => HI z
  | JStr s => HS s
  | JList l => HL l ((fix go (l : list Json) : Forall P l :=
      match l with [] => Forall_nil_2 _ | x :: l' => Forall_cons_2 _ _ _ (json_ind_nested x) (go l') end) l)
  | JObj l => HO l ((fix go (l : list (string * Json)) : Forall (λ kv, P kv.2) l :=
      match l with [] => Forall_nil_2 _ | x :: l' => Forall_cons_2 _ _ _ (json_ind_nested x.2) (go l') end) l)
  end.
End json_ind.

Definition all_chars : list ascii := map (λ n, ascii_of_N (N.of_nat n)) (seq 0 256).

Lemma in_all_chars c : List.In c all_chars.
Proof.
  apply in_map_iff. exists (N.to_nat (N_of_ascii c)). rewrite N2Nat.id, ascii_N_embedding.
  split; [done|]. apply in_seq. pose proof (N_ascii_bounded c). lia.
Qed.

Fixpoint prefixb (l k : list ascii) : bool :=
  match l, k with
  | [], _ => true
  | _, [] => false
  | a :: l, b :: k => Ascii.eqb a b && prefixb l k
  end.

Lemma prefixb_app l k x y : l ++ x = k ++ y → prefixb l k = true ∨ prefixb k l = true.
Proof.
  revert k. induction l as [|a l IH]; intros [|b k]; cbn; [auto..|]. intros [= -> H].
  rewrite !Ascii.eqb_refl. cbn. auto.
Qed.

(** The codes of two characters: neither starts with the other. *)
Lemma escapes_prefix_free :
  forallb (λ c, forallb (λ d, Ascii.eqb c d || negb (prefixb (escape c) (escape d))) all_chars) all_chars = true.
Proof. vm_compute. reflexivity. Qed.

Lemma escapes_not_quote :
  forallb (λ c, match escape c with [] => false | a :: _ => negb (Ascii.eqb a dquote) end) all_chars = true.
Proof. vm_compute. reflexivity. Qed.

Lemma escape_prefix c d : prefixb (escape c) (escape d) = true → c = d.
Proof.
  intros H. pose proof escapes_prefix_free as F. rewrite forallb_forall in F. specialize (F c (in_all_chars c)).
  rewrite forallb_forall in F. specialize (F d (in_all_chars d)).
  apply orb_true_iff in F as [F|F]; [by apply Ascii.eqb_eq|by rewrite H in F].
Qed.

Lemma escape_inj c d x y : escape c ++ x = escape d ++ y → c = d ∧ x = y.
Proof.
  intros H. assert (c = d) as ->; [|split; [done|by eapply app_inv_head]].
  destruct (prefixb_app _ _ _ _ H) as [E|E]; apply escape_prefix in E; congruence.
Qed.

Lemma escape_not_quote c x y : escape c ++ x = dquote :: y → False.
Proof.
  intros H. pose proof escapes_not_quote as F. rewrite forallb_forall in F. specialize (F c (in_all_chars c)).
  destruct (escape c) as [|a l]; [done|]. cbn in H. injection H as -> _. by rewrite Ascii.eqb_refl in F.
Qed.

Lemma quoted_inj s t x y : quoted s ++ x = quoted t ++ y → s = t ∧ x = y.
Proof.
  unfold quoted. cbn. intros [= H]. rewrite <- !app_assoc in H. cbn in H.
  cut (chars s = chars t ∧ x = y).
  { intros [E ->]. split; [|done]. by rewrite <- (unchars_chars s), E, unchars_chars. }
  revert H. generalize (chars t). induction (chars s) as [|c l IH]; intros [|d k]; cbn.
  - by intros [= ->].
  - rewrite <- app_assoc. intros H. symmetry in H. by apply escape_not_quote in H.
  - rewrite <- app_assoc. intros H. by apply escape_not_quote in H.
  - rewrite <- !app_assoc. intros [-> H]%escape_inj. apply IH in H as [-> ->]. done.
Qed.

(** What may follow a document: the end of the text or of an enclosing one. *)
Definition stops (x : list ascii) : bool :=
  match x with [] => true | c :: _ => one_of ",]}" c end.

Definition number_char (c : ascii) : bool := is_digit c || Ascii.eqb c "-".

Lemma stops_not_number x : stops x = true → match x with [] => True | c :: _ => number_char c = false end.
Proof. destruct x as [|c x]; [done|]. destruct c as [[] [] [] [] [] [] [] []]; vm_compute; congruence. Qed.

Lemma span_inj (p : ascii → bool) l k x y :
  forallb p l = true → forallb p k = true →
  match x with [] => True | c :: _ => p c = false end → match y with [] => True | c :: _ => p c = false end →
  l ++ x = k ++ y → l = k ∧ x = y.
Proof.
  revert k. induction l as [|a l IH]; intros [|b k]; cbn; intros Hl Hk Hx Hy H.
  - done.
  - subst x. apply andb_true_iff in Hk as [Hk _]. congruence.
  - subst y. apply andb_true_iff in Hl as [Hl _]. congruence.
  - injection H as -> H. apply andb_true_iff in Hl as [_ Hl], Hk as [_ Hk].
    destruct (IH k Hl Hk Hx Hy H) as [-> ->]. done.
Qed.

Lemma pretty_number_chars (z : Z) : forallb number_char (chars (pretty z)) = true.
Proof.
  assert (∀ n : N, forallb number_char (chars (pretty n)) = true) as H.
  { intros n. apply forallb_forall. intros c Hc%list_elem_of_In%pretty_N_digits. unfold number_char. by rewrite Hc. }
  destruct z as [|p|p]; [done|apply (H (Npos p))|].
  change (pretty (Zneg p)) with (String "-" (pretty (Npos p))). apply (H (Npos p)).
Qed.

Lemma pretty_go_suffix (n : N) s : ∃ l, chars (pretty_N_go n s) = l ++ chars s.
Proof.
  revert s. induction (N.lt_wf_0 n) as [n _ IH]; intros s. destruct (decide (0 < n)%N) as [Hn|Hn].
  - rewrite pretty_N_go_step by done. destruct (IH (n `div` 10)%N ltac:(by apply N.div_lt)
      (String (pretty_N_char (n `mod` 10)) s)) as [l ->].
    exists (l ++ [pretty_N_char (n `mod` 10)]). by rewrite <- app_assoc.
  - assert (n = 0%N) as -> by lia. exists []. by rewrite pretty_N_go_0.
Qed.

Lemma pretty_nonempty (z : Z) : chars (pretty z) ≠ [].
Proof.
  assert (∀ p, chars (pretty (Npos p)) ≠ []) as H.
  { intros p. change (pretty (Npos p)) with (pretty_N_go (Npos p) ""). rewrite pretty_N_go_step by done.
    destruct (pretty_go_suffix (Npos p `div` 10) (String (pretty_N_char (Npos p `mod` 10)) "")) as [l ->].
    by destruct l. }
  destruct z as [|p|p]; [done|apply H|done].
Qed.

Lemma pretty_inj (z w : Z) x y : stops x = true → stops y = true →
  chars (pretty z) ++ x = chars (pretty w) ++ y → z = w ∧ x = y.
Proof.
  intros Hx%stops_not_number Hy%stops_not_number H.
  apply (span_inj number_char) in H as [E ->]; [|apply pretty_number_chars..|done|done].
  split; [|done]. apply (inj pretty). by rewrite <- (unchars_chars (pretty z)), E, unchars_chars.
Qed.

(** The texts of the items of a list, up to its closing bracket. *)
Section commas.
Context {A : Type} (f : A → list ascii) (close : ascii) (Hclose : one_of "]}" close = true)
  (Hf : ∀ a x y, f a ++ x = close :: y → False).

Definition injective_item (a : A) : Prop :=
  ∀ b x y, stops x = true → stops y = true → f a ++ x = f b ++ y → a = b ∧ x = y.

Lemma stops_close x : stops (close :: x) = true.
Proof. revert Hclose. cbn. destruct close as [[] [] [] [] [] [] [] []]; vm_compute; congruence. Qed.

Lemma close_not_comma : close ≠ ","%char.
Proof. intros ->. done. Qed.

Lemma commas_cons a l x : commas (f a :: map f l) ++ close :: x =
  f a ++ match l with [] => close :: x | _ => ","%char :: commas (map f l) ++ close :: x end.
Proof. destruct l as [|b l]; [done|]. cbn [map commas]. by rewrite <- app_assoc. Qed.

Lemma commas_inj l k x y : Forall injective_item l →
  commas (map f l) ++ close :: x = commas (map f k) ++ close :: y → l = k ∧ x = y.
Proof.
  intros Hl. revert k. induction Hl as [|a l Ha Hl IH]; intros [|b k].
  - by intros [= ->].
  - cbn [map]. rewrite commas_cons. intros H. symmetry in H. by apply Hf in H.
  - cbn [map]. rewrite commas_cons. intros H. by apply Hf in H.
  - cbn [map]. rewrite !commas_cons. intros H. apply Ha in H as [-> H].
    2:{ destruct l; [apply stops_close|done]. } 2:{ destruct k; [apply stops_close|done]. }
    destruct l as [|a' l], k as [|b' k].
    + injection H as ->. done.
    + injection H as H _. by destruct close_not_comma.
    + injection H as H _. by destruct close_not_comma.
    + apply (f_equal (drop 1)) in H. by apply (IH (b' :: k)) in H as [-> ->].
Qed.
End commas.

(** Every document is told from what follows it, so a text has one document. *)
Lemma text_nonempty j x y : text_of j ++ x = y → match y with [] => False | c :: _ => one_of ",]}:" c = false end.
Proof.
  intros <-. destruct j as [|[]|z|s|l|l]; try done. cbn [text_of].
  pose proof (pretty_number_chars z) as H. pose proof (pretty_nonempty z) as Hne.
  destruct (chars (pretty z)) as [|c r]; [done|]. cbn in H |- *. apply andb_true_iff in H as [H _].
  destruct c as [[] [] [] [] [] [] [] []]; vm_compute in H |- *; congruence.
Qed.

Lemma first_char j x : ∃ c r, text_of j ++ x = c :: r ∧ one_of ",]}:" c = false.
Proof. pose proof (text_nonempty j x _ eq_refl). destruct (text_of j ++ x) as [|c r]; [done|eauto]. Qed.

Definition item_text (kv : string * Json) : list ascii := quoted kv.1 ++ ":"%char :: text_of kv.2.

Lemma text_not_close j x y : text_of j ++ x = "]"%char :: y → False.
Proof. intros H. destruct (first_char j x) as (c & r & E & Hc). rewrite E in H. by injection H as ->. Qed.

Lemma item_not_close kv x y : item_text kv ++ x = "}"%char :: y → False.
Proof. unfold item_text, quoted. intros [=]. Qed.

(** Documents of different kinds start differently. *)
Definition kind (j : Json) : nat :=
  match j with
  | JNull => 0 | JBool true => 1 | JBool false => 2 | JInt _ => 3 | JStr _ => 4 | JList _ => 5 | JObj _ => 6
  end.

Definition kind_of_char (c : ascii) : nat :=
  if Ascii.eqb c "n" then 0 else if Ascii.eqb c "t" then 1 else if Ascii.eqb c "f" then 2
  else if number_char c then 3 else if Ascii.eqb c dquote then 4 else if Ascii.eqb c "[" then 5 else 6.

Lemma text_kind j x : match text_of j ++ x with [] => False | c :: _ => kind_of_char c = kind j end.
Proof.
  destruct j as [|[]|z|s|l|l]; try done. cbn [text_of].
  pose proof (pretty_number_chars z) as H. pose proof (pretty_nonempty z) as Hne.
  destruct (chars (pretty z)) as [|c r]; [done|]. cbn in H |- *. apply andb_true_iff in H as [H _].
  destruct c as [[] [] [] [] [] [] [] []]; vm_compute in H |- *; congruence.
Qed.

Lemma same_kind j k x y : text_of j ++ x = text_of k ++ y → kind j = kind k.
Proof.
  intros H. pose proof (text_kind j x) as Hj. pose proof (text_kind k y) as Hk. rewrite <- H in Hk.
  destruct (text_of j ++ x); [done|congruence].
Qed.

Lemma text_of_inj j k x y : stops x = true → stops y = true → text_of j ++ x = text_of k ++ y → j = k ∧ x = y.
Proof.
  revert k x y. induction j as [|b|z|s|l IH|l IH] using json_ind_nested; intros k x y Hx Hy H;
    pose proof (same_kind _ _ _ _ H) as E.
  - destruct k as [|[]| | | |]; try done. by apply app_inv_head in H.
  - destruct b, k as [|[]| | | |]; try done; by apply app_inv_head in H.
  - destruct k as [|[]|w| | |]; try done. by apply pretty_inj in H as [-> ->].
  - destruct k as [|[]| |t| |]; try done. by apply quoted_inj in H as [-> ->].
  - destruct k as [|[]| | |k|]; try done. apply (f_equal (drop 1)) in H. cbn in H. rewrite <- !app_assoc in H.
    apply (commas_inj text_of "]" eq_refl text_not_close) in H as [-> ->]; [done|].
    apply (Forall_impl _ _ _ IH). unfold injective_item. auto.
  - destruct k as [|[]| | | |k]; try done. apply (f_equal (drop 1)) in H. cbn in H. rewrite <- !app_assoc in H.
    apply (commas_inj item_text "}" eq_refl item_not_close) in H as [-> ->]; [done|].
    apply (Forall_impl _ _ _ IH). intros [a v] Hv [b w] x' y' Hx' Hy' H'. unfold item_text in H'. cbn [fst snd] in H', Hv.
    rewrite <- !app_assoc in H'. apply quoted_inj in H' as [-> H']. injection H' as H'.
    by apply Hv in H' as [-> ->].
Qed.

(** Two documents have the same sorted JSON text exactly when they are the same up to the order
    of their keys. *)
Theorem dumps_sorted_injective j k : dumps_sorted j = dumps_sorted k ↔ sort_keys j = sort_keys k.
Proof.
  unfold dumps_sorted. split; [|by intros ->]. intros H.
  assert (text_of (sort_keys j) = text_of (sort_keys k)) as E.
  { by rewrite <- (chars_unchars (text_of (sort_keys j))), H, chars_unchars. }
  eapply (text_of_inj _ _ [] []); [done|done|]. by rewrite !app_nil_r.
Qed.
