(* ===== verification/PyTime.v ===== *)
(** * [datetime] and [timedelta], as the sources use them

    A [datetime] is its wall-clock reading in microseconds since the epoch and
    its UTC offset when it is aware. *)

From Stdlib Require Import QArith.
From S2P Require Import Prelude PyFloat.

Record datetime := DateTime { dt_wall : Z; dt_offset : option Z }.

Definition utc_of (micros : Z) : datetime := DateTime micros (Some 0%Z).

(** [value.replace(tzinfo=utc)] when naive, else [value.astimezone(utc)]. *)
Definition as_utc (value : datetime) : datetime :=
  match dt_offset value with
  | None => DateTime (dt_wall value) (Some 0%Z)
  | Some off => DateTime (dt_wall value - off)%Z (Some 0%Z)
  end.

(** [a - b] in microseconds: naive and aware values do not mix. *)
Definition dt_sub (a b : datetime) : result Z :=
  match dt_offset a, dt_offset b with
  | Some x, Some y => Ok ((dt_wall a - x) - (dt_wall b - y))%Z
  | None, None => Ok (dt_wall a - dt_wall b)%Z
  | _, _ => raise TypeError "can't subtract offset-naive and offset-aware datetimes"
  end.

(** [a <= b] *)
Definition dt_le (a b : datetime) : result bool :=
  match dt_offset a, dt_offset b with
  | Some x, Some y => Ok (dt_wall a - x <=? dt_wall b - y)%Z
  | None, None => Ok (dt_wall a <=? dt_wall b)%Z
  | _, _ => raise TypeError "can't compare offset-naive and offset-aware datetimes"
  end.

(** [a < b] *)
Definition dt_lt (a b : datetime) : result bool := le ← dt_le b a; Ok (negb le).

(** [delta.total_seconds()] *)
Definition total_seconds (micros : Z) : result pyfloat := div_Z micros 1000000.

(** [value.isoformat()] of a UTC value. *)
Definition civil_of_days (z0 : Z) : Z * Z * Z :=
  let z := (z0 + 719468)%Z in
  let era := (z / 146097)%Z in
  let doe := (z mod 146097)%Z in
  let yoe := ((doe - doe / 1460 + doe / 36524 - doe / 146096) / 365)%Z in
  let doy := (doe - (365 * yoe + yoe / 4 - yoe / 100))%Z in
  let mp := ((5 * doy + 2) / 153)%Z in
  let d := (doy - (153 * mp + 2) / 5 + 1)%Z in
  let m := (if mp <? 10 then mp + 3 else mp - 9)%Z in
  let y := (yoe + era * 400 + (if m <=? 2 then 1 else 0))%Z in
  (y, m, d).

Definition pad (width : nat) (n : Z) : string :=
  let s := pretty n in
  unchars (replicate (width - String.length s) "0"%char) +:+ s.

Definition iso_utc (v : datetime) : string :=
  let t := dt_wall (as_utc v) in
  let secs := (t / 1000000)%Z in
  let micro := (t mod 1000000)%Z in
  let sod := (secs mod 86400)%Z in
  let '(y, m, d) := civil_of_days (secs / 86400) in
  pad 4 y +:+ "-" +:+ pad 2 m +:+ "-" +:+ pad 2 d +:+ "T" +:+
  pad 2 (sod / 3600) +:+ ":" +:+ pad 2 (sod / 60 mod 60) +:+ ":" +:+ pad 2 (sod mod 60) +:+
  (if (micro =? 0)%Z then "" else "." +:+ pad 6 micro).

(** [value.isoformat()]; offsets are whole minutes here. *)
Definition iso_any (v : datetime) : string :=
  iso_utc (DateTime (dt_wall v) None) +:+
  match dt_offset v with
  | None => ""
  | Some off =>
      let m := (Z.abs off / 60000000)%Z in
      (if (off <? 0)%Z then "-" else "+") +:+ pad 2 (m / 60) +:+ ":" +:+ pad 2 (m mod 60)
  end.

(** [_utc_iso]: [isoformat().replace("+00:00", "Z")]. *)
Definition utc_iso (v : datetime) : string := iso_utc v +:+ "Z".

Example utc_iso_example : utc_iso (utc_of 1726221600123000) = "2024-09-13T10:00:00.123000Z".
Proof. vm_compute. reflexivity. Qed.

(** ** How elapsed seconds compare with an integer limit *)

Lemma fle_trans_lt a b c : flt a b = true → fle b c = true → flt a c = true.
Proof.
  unfold fle. destruct a as [x|[]|], b as [y|[]|], c as [z|[]|]; simpl; try done.
  rewrite orb_true_iff, !Qlt_bool_iff, Qeq_bool_iff. intros Hxy [Hyz|Hyz].
  - eapply Qlt_trans; eauto.
  - by rewrite <- Hyz.
Qed.

Lemma inject_div_pos d : (0 < d)%Z → (0 < inject_Z d / inject_Z 1000000)%Q.
Proof.
  intros. apply Qlt_shift_div_l; [reflexivity|]. rewrite Qmult_0_l. by rewrite <- (Zlt_Qlt 0).
Qed.

Lemma inject_div_mono d d' :
  (d <= d')%Z → (inject_Z d / inject_Z 1000000 <= inject_Z d' / inject_Z 1000000)%Q.
Proof. intros. apply Qmult_le_compat_r; [by rewrite <- Zle_Qle|discriminate]. Qed.

(** Elapsed time that exceeds a limit still exceeds it later. *)
Lemma total_seconds_exceeds_mono N d d' f f' :
  (0 <= N)%Z → (d <= d')%Z →
  total_seconds d = Ok f → total_seconds d' = Ok f' →
  flt (FFin (inject_Z N)) f = true → flt (FFin (inject_Z N)) f' = true.
Proof.
  unfold total_seconds, div_Z. simpl. intros HN Hd Hf Hf' Hlt.
  assert (0 < d)%Z as Hpos.
  { apply Z.nle_gt. intros Hle.
    destruct (round64 (inject_Z d / inject_Z 1000000)) as [q| |] eqn:E; simplify_eq.
    simpl in Hlt. apply Qlt_bool_iff in Hlt.
    assert (q <= 0)%Q as Hq.
    { eapply round64_nonpos; [|exact E].
      apply Qle_trans with (inject_Z 0 / inject_Z 1000000)%Q; [by apply inject_div_mono|].
      discriminate. }
    rewrite Zle_Qle in HN. apply (Qlt_not_le _ _ Hlt). by apply Qle_trans with 0%Q. }
  destruct (round64 (inject_Z d / _)) as [q| |] eqn:E; simplify_eq.
  destruct (round64 (inject_Z d' / _)) as [q'| |] eqn:E'; simplify_eq.
  change (flt (FFin (inject_Z N)) (FFin q') = true).
  apply (fle_trans_lt _ (FFin q)); [exact Hlt|].
  rewrite <- E, <- E'. apply round64_pos_mono; [by apply inject_div_pos|by apply inject_div_mono].
Qed.
