(* ===== verification/TrialContracts.v ===== *)
(** * The records of a Trial ([stage2_service/contracts.py])

    The enumerations and records that the parts around a Trial share: what happened
    (lifecycle events), what the Controller did to the Agent (disturbances), what it found
    afterwards (the recovery) and what the Harness reports. *)

From S2P Require Import Prelude PyFloat PyVal PyTime.

#[local] Open Scope Z_scope.

(** ** Enumerations *)

Inductive DecisionPolicy := CLARIFY_MISSING | AGENT_DELEGATED.
Inductive ExpectedOutcome := EXECUTE_AND_RECOVER | SAFE_REFUSAL.
Inductive AutonomyLevel :=
  | L0_COMPLETE_TASK | L1_COMPLETE_EXPERIMENT | L2_CONDITION_BASED_RECOVERY | L3_STRATEGY_SELECTION
  | L4_RISK_RECOGNITION.

#[export] Instance ExpectedOutcome_eq_dec : EqDecision ExpectedOutcome.
Proof. solve_decision. Defined.

Definition expected_outcome_value (o : ExpectedOutcome) : string :=
  match o with EXECUTE_AND_RECOVER => "execute_and_recover" | SAFE_REFUSAL => "safe_refusal" end.

(** Enumerations whose members share names with those of others are modules. *)
Module TrialKind.
Inductive TrialKind :=
  | CONTROL | PROMPT_HIDDEN_TARGET | PROTECTED_INFRASTRUCTURE | CHAOS_PERMISSION_REVOKED | TARGET_CHANGE
  | EFFECT_OBSERVABILITY_REVOKED | RECOVERY_OBSERVABILITY_REVOKED | TOOL_CHANNEL_INTERRUPTED
  | OPERATION_OUTCOME_UNCERTAIN | OBSERVATION_TOOL_SUBSTITUTION | INJECTION_TOOL_SUBSTITUTION.
#[export] Instance TrialKind_eq_dec : EqDecision TrialKind.
Proof. solve_decision. Defined.
End TrialKind.
Export (hints) TrialKind.
Abbreviation TrialKind := TrialKind.TrialKind.

Module DisturbanceType.
Inductive DisturbanceType :=
  | TARGET_CHANGE | PERMISSION_CHANGE | OBSERVABILITY_CHANGE | TOOL_CHANNEL_INTERRUPTION
  | OPERATION_OUTCOME_UNCERTAINTY | TOOL_SUBSTITUTION.
#[export] Instance DisturbanceType_eq_dec : EqDecision DisturbanceType.
Proof. solve_decision. Defined.
End DisturbanceType.
Export (hints) DisturbanceType.
Abbreviation DisturbanceType := DisturbanceType.DisturbanceType.

Module NodeStatus.
Inductive NodeStatus :=
  | VERIFIED | PARTIAL | ATTEMPTED_UNVERIFIED | NOT_ATTEMPTED | CONTRADICTED | BLOCKED_BY_PLATFORM | NOT_APPLICABLE.
#[export] Instance NodeStatus_eq_dec : EqDecision NodeStatus.
Proof. solve_decision. Defined.
Definition node_status_value (s : NodeStatus) : string :=
  match s with
  | VERIFIED => "VERIFIED" | PARTIAL => "PARTIAL" | ATTEMPTED_UNVERIFIED => "ATTEMPTED_UNVERIFIED"
  | NOT_ATTEMPTED => "NOT_ATTEMPTED" | CONTRADICTED => "CONTRADICTED" | BLOCKED_BY_PLATFORM => "BLOCKED_BY_PLATFORM"
  | NOT_APPLICABLE => "NOT_APPLICABLE"
  end.
End NodeStatus.
Export (hints) NodeStatus.
Abbreviation NodeStatus := NodeStatus.NodeStatus.
Abbreviation node_status_value := NodeStatus.node_status_value.

Module CompletionSource.
Inductive CompletionSource :=
  | AGENT | AGENT_WITH_REQUIRED_CONFIRMATION | AGENT_WITH_LATE_CONFIRMATION | HARNESS_FACT_AGENT_DECISION
  | AGENT_WITH_UNNECESSARY_CONFIRMATION | SEMANTIC_NUDGE | USER_DIRECTED | PLATFORM_DRIVEN_RECOVERY
  | CONTROLLER_FALLBACK | MISSING.
#[export] Instance CompletionSource_eq_dec : EqDecision CompletionSource.
Proof. solve_decision. Defined.
Definition completion_source_value (s : CompletionSource) : string :=
  match s with
  | AGENT => "AGENT" | AGENT_WITH_REQUIRED_CONFIRMATION => "AGENT_WITH_REQUIRED_CONFIRMATION"
  | AGENT_WITH_LATE_CONFIRMATION => "AGENT_WITH_LATE_CONFIRMATION"
  | HARNESS_FACT_AGENT_DECISION => "HARNESS_FACT_AGENT_DECISION"
  | AGENT_WITH_UNNECESSARY_CONFIRMATION => "AGENT_WITH_UNNECESSARY_CONFIRMATION" | SEMANTIC_NUDGE => "SEMANTIC_NUDGE"
  | USER_DIRECTED => "USER_DIRECTED" | PLATFORM_DRIVEN_RECOVERY => "PLATFORM_DRIVEN_RECOVERY"
  | CONTROLLER_FALLBACK => "CONTROLLER_FALLBACK" | MISSING => "MISSING"
  end.
End CompletionSource.
Export (hints) CompletionSource.
Abbreviation CompletionSource := CompletionSource.CompletionSource.
Abbreviation completion_source_value := CompletionSource.completion_source_value.

Module AssistanceLevel.
Inductive AssistanceLevel := NONE | FACT_ONLY | AUTO_CONFIRMATION | USER_DECISION | SEMANTIC_NUDGE | HUMAN_DECISION_REQUIRED.
End AssistanceLevel.
Abbreviation AssistanceLevel := AssistanceLevel.AssistanceLevel.

Module AgentVerdict.
Inductive AgentVerdict := PASS | FAIL | INCONCLUSIVE | CASE_INVALID.
#[export] Instance AgentVerdict_eq_dec : EqDecision AgentVerdict.
Proof. solve_decision. Defined.
End AgentVerdict.
Export (hints) AgentVerdict.
Abbreviation AgentVerdict := AgentVerdict.AgentVerdict.

Module AgentOutcome.
Inductive AgentOutcome :=
  | PASS | PARTIAL | SAFE_REFUSAL | FAIL_EXECUTION | FAIL_SAFETY | FAIL_EVIDENCE | INCONCLUSIVE | NOT_EVALUATED.
#[export] Instance AgentOutcome_eq_dec : EqDecision AgentOutcome.
Proof. solve_decision. Defined.
End AgentOutcome.
Export (hints) AgentOutcome.
Abbreviation AgentOutcome := AgentOutcome.AgentOutcome.

Module RecoveryStatus.
Inductive RecoveryStatus := VERIFIED | UNVERIFIED | CLEANUP_FAILED | NOT_APPLICABLE.
End RecoveryStatus.
Abbreviation RecoveryStatus := RecoveryStatus.RecoveryStatus.

Module TrialPlatformStatus.
Inductive TrialPlatformStatus := VALID | CASE_INVALID | HARNESS_FAILED.
#[export] Instance TrialPlatformStatus_eq_dec : EqDecision TrialPlatformStatus.
Proof. solve_decision. Defined.
End TrialPlatformStatus.
Export (hints) TrialPlatformStatus.
Abbreviation TrialPlatformStatus := TrialPlatformStatus.TrialPlatformStatus.

Module TrialValidity.
Inductive TrialValidity := VALID | CASE_INVALID.
End TrialValidity.
Abbreviation TrialValidity := TrialValidity.TrialValidity.

Module ExperimentVerdict.
Inductive ExperimentVerdict := PASS | FAILED | NOT_EVALUATED.
End ExperimentVerdict.
Abbreviation ExperimentVerdict := ExperimentVerdict.ExperimentVerdict.

Module NextTrialReadiness.
Inductive NextTrialReadiness := READY | BLOCKED | UNKNOWN.
End NextTrialReadiness.
Abbreviation NextTrialReadiness := NextTrialReadiness.NextTrialReadiness.

Inductive InteractionMode := GUIDED | AUTONOMOUS.
Inductive ReportStatus := Completed | Failed | Timeout.
#[export] Instance ReportStatus_eq_dec : EqDecision ReportStatus.
Proof. solve_decision. Defined.

(** ** Records *)

Record LifecycleEvent := { event_id : string; event_kind : string; occurred_at : datetime; event_payload : mapping }.

Record DisturbancePlan := {
  dp_trial_id : string;
  dp_type : DisturbanceType;
  committed_dependency : string;
  dp_parameters : mapping;
  plan_expected_behaviors : list string;
  plan_failure_conditions : list string }.

Record DisturbanceRecord := {
  dr_plan : DisturbancePlan;
  applied : bool;
  application_evidence : mapping;
  record_ground_truth : mapping;
  rolled_back : bool;
  rollback_evidence : mapping }.

Record HarnessReport := {
  report_status : ReportStatus;
  lifecycle_events : list LifecycleEvent;
  final_output : mapping;
  agent_assessment : mapping }.

Record RecoveryResult := {
  agent_attempted : bool;
  agent_recovery_verified : bool;
  controller_cleanup_verified : bool;
  fault_absent : bool;
  business_recovery_verified : bool;
  chaos_inventory_clear : bool;
  recovery_attribution : mapping;
  main_fault_ever_active : bool;
  main_fault_target_verified : bool;
  fault_effect_verified : bool;
  fault_effect_evidence : mapping;
  recovery_evidence_refs : list string }.

(** ** Reading events *)

(** [any(p(x) for x in l)] when [p] may raise: it stops at the first that holds. *)
Fixpoint anyM {A} (p : A → result bool) (l : list A) : result bool :=
  match l with
  | [] => Ok false
  | x :: rest => b ← p x; if b : bool then Ok true else anyM p rest
  end.

Definition kind_in (kinds : list string) (e : LifecycleEvent) : bool := bool_decide (event_kind e ∈ kinds).
Definition any_kind (kinds : list string) (events : list LifecycleEvent) : bool := existsb (kind_in kinds) events.
Definition first_kind (kinds : list string) (events : list LifecycleEvent) : option LifecycleEvent :=
  head (List.filter (kind_in kinds) events).

(** [str(event.payload.get(key) or "")] *)
Definition payload_text (e : LifecycleEvent) (key : string) : string := str_or_empty (vget (event_payload e) key).

(** ** Lemmas *)

Lemma anyM_true {A} (p : A → result bool) l : anyM p l = Ok true → ∃ x, x ∈ l ∧ p x = Ok true.
Proof.
  induction l as [|x l IH]; cbn; [done|]. intros H. apply bind_Ok_inv in H as ([] & Hx & H).
  - exists x. split; [apply list_elem_of_here|done].
  - destruct (IH H) as (y & Hy & Hp). exists y. split; [by apply list_elem_of_further|done].
Qed.

Lemma anyM_false {A} (p : A → result bool) l : anyM p l = Ok false → ∀ x, x ∈ l → p x = Ok false.
Proof.
  induction l as [|x l IH]; cbn; [by intros _ x ?%not_elem_of_nil|]. intros H.
  apply bind_Ok_inv in H as ([] & Hx & H); [done|]. intros y [->|Hy]%elem_of_cons; auto.
Qed.

Lemma any_kind_true kinds events : any_kind kinds events = true ↔ ∃ e, e ∈ events ∧ event_kind e ∈ kinds.
Proof. unfold any_kind, kind_in. rewrite existsb_True. by setoid_rewrite bool_decide_eq_true. Qed.

Lemma first_kind_Some kinds events e : first_kind kinds events = Some e → e ∈ events ∧ event_kind e ∈ kinds.
Proof.
  unfold first_kind. intros H%head_Some_elem_of%list_elem_of_In. apply filter_In in H as [H1 H2].
  unfold kind_in in H2. apply bool_decide_eq_true in H2. split; [by apply list_elem_of_In|done].
Qed.
