(* ===== verification/PyIso.v ===== *)
(** * Time stamps as text

    [value.isoformat()] of a UTC value and [datetime.fromisoformat], in the grammar of
    Python 3.10, the least version the package supports: what one writes the other reads. *)

From S2P Require Import Prelude PyFloat PyTime.

#[local] Open Scope Z_scope.

(** [_as_utc(value).isoformat()] *)
Definition isoformat (v : datetime) : string := iso_utc v +:+ "+00:00".

(** ** Reading *)

Definition leap (y : Z) : bool := ((y mod 4 =? 0) && negb (y mod 100 =? 0)) || (y mod 400 =? 0).

Definition days_in_month (y m : Z) : Z :=
  if m =? 2 then if leap y then 29 else 28
  else if bool_decide (m ∈ [4; 6; 9; 11]) then 30 else 31.

(** Days since the epoch of a date: years start in March. *)
Definition days_of_civil (y m d : Z) : Z :=
  let y := if m <=? 2 then y - 1 else y in
  let mp := if m <=? 2 then m + 9 else m - 3 in
  365 * y + y / 4 - y / 100 + y / 400 + (153 * mp + 2) / 5 + d - 1 - 719468.

(** The first [n] characters, which must be digits, and the rest. *)
Definition digits (n : nat) (l : list ascii) : option (Z * list ascii) :=
  let d := take n l in
  if bool_decide (length d = n) && forallb is_digit d then Some (digits_value d, drop n l) else None.

(** A character that must be there. *)
Definition char (c : ascii) (l : list ascii) : option (list ascii) :=
  match l with x :: r => if bool_decide (x = c) then Some r else None | [] => None end.

Definition parse_date (l : list ascii) : option Z :=
  '(y, l) ← digits 4 l; l ← char "-" l;
  '(m, l) ← digits 2 l; l ← char "-" l;
  '(d, l) ← digits 2 l;
  if bool_decide (l = []) && (1 <=? y) && (1 <=? m) && (m <=? 12) && (1 <=? d)
     && (d <=? days_in_month y m)
  then Some (days_of_civil y m d) else None.

(** [HH\[:MM\[:SS\[.fff\[fff\]\]\]\]], in microseconds. *)
Definition parse_fraction (l : list ascii) : option Z :=
  match l with
  | [] => Some 0
  | _ => l ← char "." l;
         match digits 6 l with
         | Some (u, []) => Some u
         | _ => match digits 3 l with Some (u, []) => Some (1000 * u) | _ => None end
         end
  end.

Definition parse_clock (l : list ascii) : option (Z * Z * Z * Z) :=
  '(h, l) ← digits 2 l;
  match l with
  | [] => Some (h, 0, 0, 0)
  | _ =>
      l ← char ":" l; '(m, l) ← digits 2 l;
      match l with
      | [] => Some (h, m, 0, 0)
      | _ => l ← char ":" l; '(s, l) ← digits 2 l; u ← parse_fraction l; Some (h, m, s, u)
      end
  end.

Definition micros (c : Z * Z * Z * Z) : Z :=
  let '(h, m, s, u) := c in ((h * 60 + m) * 60 + s) * 1000000 + u.

(** The position of the sign that starts a time zone. *)
Fixpoint split_zone (l : list ascii) : list ascii * option (bool * list ascii) :=
  match l with
  | [] => ([], None)
  | c :: r =>
      if bool_decide (c = "-"%char) then ([], Some (true, r))
      else if bool_decide (c = "+"%char) then ([], Some (false, r))
      else let '(a, z) := split_zone r in (c :: a, z)
  end.

Definition parse_offset (negative : bool) (l : list ascii) : option Z :=
  if bool_decide (length l ∈ [5; 8; 15]%nat) then
    c ← parse_clock l;
    let '(h, m, s, _) := c in
    if (micros c <? 86400 * 1000000) then Some (if negative then - micros c else micros c) else None
  else None.

Definition parse_time (l : list ascii) : option (Z * option Z) :=
  let '(clock, zone) := split_zone l in
  '(h, m, s, u) ← parse_clock clock;
  offset ← (match zone with
            | None => Some None
            | Some (negative, z) => o ← parse_offset negative z; Some (Some o)
            end);
  if (h <=? 23) && (m <=? 59) && (s <=? 59) then Some (micros (h, m, s, u), offset) else None.

(** [datetime.fromisoformat]; [None] is its [ValueError]. *)
Definition fromisoformat (s : string) : option datetime :=
  let l := chars s in
  days ← parse_date (take 10 l);
  match drop 11 l with
  | [] => Some (DateTime (days * 86400000000) None)
  | t => '(time, offset) ← parse_time t; Some (DateTime (days * 86400000000 + time) offset)
  end.

Example fromisoformat_samples :
  fromisoformat "2024-09-13T10:00:00.123000+00:00" = Some (utc_of 1726221600123000) ∧
  fromisoformat "2024-02-30" = None ∧ fromisoformat "2024-02-29" = Some (DateTime 1709164800000000 None) ∧
  fromisoformat "1970-01-01 02:30+02:30" = Some (DateTime 9000000000 (Some 9000000000)).
Proof. vm_compute. done. Qed.

(** ** Digits *)

Lemma digits_value_app l k :
  digits_value (l ++ k) = digits_value l * 10 ^ Z.of_nat (length k) + digits_value k.
Proof.
  unfold digits_value. rewrite foldl_app. generalize (foldl (λ acc c, 10 * acc + Z.of_N (N_of_ascii c - 48)) 0 l).
  induction k as [|c k IH] using rev_ind; intros z; [cbn; lia|].
  rewrite !foldl_app. cbn [foldl]. rewrite IH, length_app, Nat2Z.inj_add, Z.pow_add_r by lia. cbn. lia.
Qed.

Lemma pretty_char_value (n : N) : (n < 10)%N →
  Z.of_N (N_of_ascii (pretty_N_char n) - 48) = Z.of_N n.
Proof.
  intros Hn. destruct n as [|p]; [done|]. do 4 (destruct p as [p|p|]; try done; try lia).
Qed.

Lemma pretty_go_value (n : N) s :
  digits_value (chars (pretty_N_go n s)) =
  Z.of_N n * 10 ^ Z.of_nat (length (chars s)) + digits_value (chars s).
Proof.
  revert s. induction (N.lt_wf_0 n) as [n _ IH]; intros s.
  destruct (decide (0 < n)%N) as [Hn|Hn].
  - rewrite pretty_N_go_step by done. rewrite IH by (by apply N.div_lt).
    change (chars (String (pretty_N_char (n `mod` 10)) s)) with ([pretty_N_char (n `mod` 10)] ++ chars s).
    rewrite digits_value_app, length_app, Nat2Z.inj_add, Z.pow_add_r by lia.
    assert (digits_value [pretty_N_char (n `mod` 10)] = Z.of_N (n `mod` 10)) as ->.
    { cbn. rewrite Z.add_0_l. apply pretty_char_value. by apply N.mod_lt. }
    cbn [length]. rewrite N2Z.inj_div, N2Z.inj_mod. cbn.
    pose proof (Z.div_mod (Z.of_N n) 10 ltac:(lia)) as E.
    assert (10 ^ Z.of_nat (length (chars s)) > 0) by (apply Z.lt_gt, Z.pow_pos_nonneg; lia). nia.
  - assert (n = 0%N) as -> by lia. rewrite pretty_N_go_0. lia.
Qed.

Lemma pretty_go_length (n : N) (w : nat) s : Z.of_N n < 10 ^ Z.of_nat w →
  (length (chars (pretty_N_go n s)) <= w + length (chars s))%nat.
Proof.
  revert n s. induction w as [|w IH]; intros n s Hn.
  - assert (n = 0%N) as -> by (cbn in Hn; lia). by rewrite pretty_N_go_0.
  - destruct (decide (0 < n)%N) as [Hp|Hp].
    + rewrite pretty_N_go_step by done. etrans; [apply IH|unfold chars; cbn; lia].
      rewrite N2Z.inj_div. apply Z.div_lt_upper_bound; [lia|].
      rewrite Nat2Z.inj_succ, Z.pow_succ_r in Hn by lia. exact Hn.
    + assert (n = 0%N) as -> by lia. rewrite pretty_N_go_0. lia.
Qed.

Lemma digits_value_zeros k l : digits_value (replicate k "0"%char ++ l) = digits_value l.
Proof.
  rewrite digits_value_app. assert (digits_value (replicate k "0"%char) = 0) as ->; [|lia].
  induction k; [done|]. cbn in *. unfold digits_value in *. cbn. done.
Qed.

Lemma pretty_value n : 0 <= n → digits_value (chars (pretty n)) = n.
Proof.
  intros Hn. destruct n as [|p|p]; [done| |lia]. change (pretty (Zpos p)) with (pretty (Npos p)).
  unfold pretty, pretty_N. rewrite decide_False by done. rewrite pretty_go_value. cbn. lia.
Qed.

Lemma pretty_length n (w : nat) : 0 <= n < 10 ^ Z.of_nat w → (1 <= w)%nat →
  (length (chars (pretty n)) <= w)%nat.
Proof.
  intros [Hn Hw] Hw1. destruct n as [|p|p]; [cbn; lia| |lia].
  change (pretty (Zpos p)) with (pretty (Npos p)).
  unfold pretty, pretty_N. rewrite decide_False by done.
  etrans; [apply (pretty_go_length _ w); lia|]. cbn. lia.
Qed.

(** A padded number has its width, and reads back. *)
Lemma pad_digits (w : nat) n l : 0 <= n < 10 ^ Z.of_nat w → (1 <= w)%nat →
  digits w (chars (pad w n) ++ l) = Some (n, l).
Proof.
  intros Hn Hw. pose proof (pretty_length n w Hn Hw) as Hlen.
  assert (∀ s, String.length s = length (chars s)) as Hl.
  { induction s as [|c s IH]; cbn; [done|]. by rewrite IH. }
  unfold pad, digits. rewrite chars_app, chars_unchars, Hl.
  assert (length (replicate (w - length (chars (pretty n))) "0"%char ++ chars (pretty n)) = w) as E.
  { rewrite length_app, length_replicate. lia. }
  rewrite take_app_length', drop_app_length' by done.
  rewrite E, bool_decide_true by done. rewrite digits_value_zeros, pretty_value by lia.
  assert (forallb is_digit (replicate (w - length (chars (pretty n))) "0"%char ++ chars (pretty n)) = true)
    as ->; [|done].
  apply forallb_forall. intros c. rewrite <- list_elem_of_In, elem_of_app.
  intros [[-> _]%elem_of_replicate|Hc]; [done|]. by apply (pretty_Z_digits n); [lia|].
Qed.

(** ** Dates *)

(** The day of the 400-year era on which year [y] of the era starts. *)
Definition year_start (y : Z) : Z := 365 * y + y / 4 - y / 100 + y / 400.

(** [civil_of_days]'s numerator of the year of the era. *)
Definition year_numerator (doe : Z) : Z := doe - doe / 1460 + doe / 36524 - doe / 146096.

Definition year_ok (y : Z) : bool :=
  let s := year_start y in let e := year_start (y + 1) - 1 in
  (365 * y <=? year_numerator s) && (year_numerator e <=? 365 * y + 364) &&
  ((e - s <=? 364) || (e - s =? 365) && leap (y + 1)).

Lemma years_ok : forallb year_ok (seqZ 0 400) = true.
Proof. vm_compute. reflexivity. Qed.

Lemma year_numerator_mono a b : 0 <= a → a <= b → b <= 146096 → year_numerator a <= year_numerator b.
Proof.
  intros Ha Hab. revert b Hab. refine (Zlt_lower_bound_ind _ a _). intros b IH Hab Hb.
  destruct (decide (a = b)) as [->|Hne]; [lia|].
  specialize (IH (b - 1) ltac:(lia) ltac:(lia)). etrans; [exact IH|].
  destruct (decide (b = 146096)) as [->|Hb']; [vm_compute; discriminate|].
  unfold year_numerator. rewrite !(Z.div_small _ 146096) by lia.
  pose proof (Z.div_le_mono (b - 1) b 36524 ltac:(lia) ltac:(lia)).
  pose proof (Z.div_le_mono b (b - 1 + 1460) 1460 ltac:(lia) ltac:(lia)) as Hq.
  replace (b - 1 + 1460) with (b - 1 + 1 * 1460) in Hq by lia. rewrite Z.div_add in Hq by lia. lia.
Qed.

(** The year of the era of a day, and the day's number in it. *)
Lemma year_of_day doe : 0 <= doe <= 146096 →
  let y := year_numerator doe / 365 in
  0 <= y <= 399 ∧ 0 <= doe - year_start y <= 365 ∧
  (doe - year_start y = 365 → leap (y + 1) = true).
Proof.
  intros Hd. assert (∃ y, 0 <= y <= 399 ∧ year_start y <= doe < year_start (y + 1)) as (y & Hy & Hs).
  { assert (∀ n : nat, (n <= 400)%nat → doe < year_start (Z.of_nat n) →
      ∃ y, 0 <= y <= 399 ∧ year_start y <= doe < year_start (y + 1)) as H.
    { induction n as [|n IH]; intros Hn Hlt; [change (year_start (Z.of_nat 0)) with 0 in Hlt; lia|].
      destruct (Z.lt_ge_cases doe (year_start (Z.of_nat n))); [apply IH; [lia|done]|].
      exists (Z.of_nat n). rewrite Nat2Z.inj_succ in Hlt. unfold Z.succ in Hlt. lia. }
    apply (H 400%nat); [lia|]. change (year_start (Z.of_nat 400)) with 146097. lia. }
  pose proof years_ok as H. rewrite forallb_True in H.
  specialize (H y ltac:(apply elem_of_seqZ; lia)). unfold year_ok in H.
  rewrite !andb_true_iff, orb_true_iff, andb_true_iff, !Z.leb_le, Z.eqb_eq in H.
  destruct H as [[H1 H2] H3].
  assert (0 <= year_start y) as H0 by (unfold year_start; Z.to_euclidean_division_equations; lia).
  assert (year_start (y + 1) <= 146097) as H4 by (unfold year_start; Z.to_euclidean_division_equations; lia).
  pose proof (year_numerator_mono (year_start y) doe ltac:(lia) ltac:(lia) ltac:(lia)).
  pose proof (year_numerator_mono doe (year_start (y + 1) - 1) ltac:(lia) ltac:(lia) ltac:(lia)).
  assert (year_numerator doe / 365 = y) as -> by (symmetry; apply (Z.div_unique _ _ _ (year_numerator doe - 365 * y)); lia).
  cbv zeta. destruct H3 as [H3|[H3 Hl]]; split_and!; try lia. intros. exact Hl.
Qed.

Definition month_ok (doy : Z) : bool :=
  let mp := (5 * doy + 2) / 153 in
  let m := if mp <? 10 then mp + 3 else mp - 9 in
  let d := doy - (153 * mp + 2) / 5 + 1 in
  (0 <=? mp) && (mp <=? 11) && (1 <=? d) &&
  ((d <=? days_in_month 1 m) || (doy =? 365) && (m =? 2) && (d =? 29)).

Lemma months_ok : forallb month_ok (seqZ 0 366) = true.
Proof. vm_compute. reflexivity. Qed.

Lemma leap_period y k : leap (y + k * 400) = leap y.
Proof.
  unfold leap.
  assert ((y + k * 400) mod 4 = y mod 4) as -> by (rewrite <- (Z.mod_add y (k * 100) 4); [f_equal|]; lia).
  assert ((y + k * 400) mod 100 = y mod 100) as -> by (rewrite <- (Z.mod_add y (k * 4) 100); [f_equal|]; lia).
  by rewrite Z.mod_add.
Qed.

Lemma days_in_month_1 y m : days_in_month 1 m <= days_in_month y m.
Proof. unfold days_in_month. destruct (m =? 2); [|lia]. change (leap 1) with false. destruct (leap y); lia. Qed.

(** [civil_of_days] gives a date of the calendar, and the day it is. *)
Lemma civil_roundtrip z : ∃ y m d, civil_of_days z = (y, m, d) ∧
  1 <= m <= 12 ∧ 1 <= d <= days_in_month y m ∧ days_of_civil y m d = z.
Proof.
  unfold civil_of_days. set (t := z + 719468). set (era := t / 146097). set (doe := t mod 146097).
  assert (0 <= doe <= 146096) as Hd by (unfold doe; pose proof (Z.mod_pos_bound t 146097); lia).
  assert (t = 146097 * era + doe) as Ht by (apply Z.div_mod; lia).
  pose proof (year_of_day doe Hd) as (Hy & Hdoy & Hleap). fold (year_numerator doe).
  set (yoe := year_numerator doe / 365) in *.
  assert (365 * yoe + yoe / 4 - yoe / 100 = year_start yoe) as Hys.
  { unfold year_start. rewrite (Z.div_small yoe 400) by lia. lia. }
  rewrite Hys. set (doy := doe - year_start yoe) in *.
  pose proof months_ok as H. rewrite forallb_True in H.
  specialize (H doy ltac:(apply elem_of_seqZ; lia)). unfold month_ok in H.
  set (mp := (5 * doy + 2) / 153) in *. set (m := if mp <? 10 then mp + 3 else mp - 9) in *.
  rewrite !andb_true_iff, orb_true_iff, !andb_true_iff, !Z.leb_le, !Z.eqb_eq in H.
  destruct H as [[[Hm0 Hm1] Hd1] Hd2].
  eexists _, _, _. split; [reflexivity|].
  assert (1 <= m <= 12) as Hm by (unfold m; destruct (Z.ltb_spec mp 10); lia).
  split_and!; [lia..| | ].
  - destruct Hd2 as [Hd2|[[Hx Hm2] Hx']]; [etrans; [exact Hd2|apply days_in_month_1]|].
    rewrite Hx', Hm2. cbn.
    assert (leap (yoe + era * 400 + 1) = true) as Hl.
    { replace (yoe + era * 400 + 1) with ((yoe + 1) + era * 400) by lia. rewrite leap_period. by apply Hleap. }
    unfold days_in_month. cbn. rewrite Hl. lia.
  - unfold days_of_civil.
    assert ((if m <=? 2 then m + 9 else m - 3) = mp) as ->.
    { unfold m. destruct (Z.ltb_spec mp 10), (Z.leb_spec (mp + 3) 2), (Z.leb_spec (mp - 9) 2); lia. }
    assert ((if m <=? 2 then yoe + era * 400 + (if m <=? 2 then 1 else 0) - 1
             else yoe + era * 400 + (if m <=? 2 then 1 else 0)) = yoe + era * 400) as ->
      by (destruct (m <=? 2); lia).
    assert ((yoe + era * 400) / 4 = yoe / 4 + era * 100) as -> by (Z.to_euclidean_division_equations; lia).
    assert ((yoe + era * 400) / 100 = yoe / 100 + era * 4) as -> by (Z.to_euclidean_division_equations; lia).
    assert ((yoe + era * 400) / 400 = era) as -> by (Z.to_euclidean_division_equations; lia).
    unfold doy in *. lia.
Qed.

(** ** Time stamps *)

Lemma pad_chars (w : nat) n : 0 <= n < 10 ^ Z.of_nat w → (1 <= w)%nat →
  length (chars (pad w n)) = w ∧ Forall (λ c, is_digit c = true) (chars (pad w n)).
Proof.
  intros Hn Hw. pose proof (pad_digits w n [] Hn Hw) as H. rewrite app_nil_r in H.
  unfold digits in H. destruct (bool_decide _ && _) eqn:E; [|done].
  apply andb_true_iff in E as [E1%bool_decide_eq_true E2].
  rewrite forallb_True in E2.
  assert (drop w (chars (pad w n)) = []) as Hd by congruence.
  pose proof (take_drop w (chars (pad w n))) as E. rewrite Hd, app_nil_r in E. rewrite E in E1, E2.
  split; [done|]. by apply Forall_forall.
Qed.

Lemma char_cons c l : char c (c :: l) = Some l.
Proof. cbn. by rewrite bool_decide_true. Qed.

Lemma parse_date_pad y m d : 1 <= y <= 9999 → 1 <= m <= 12 → 1 <= d <= days_in_month y m →
  parse_date (chars (pad 4 y) ++ "-"%char :: chars (pad 2 m) ++ "-"%char :: chars (pad 2 d)) =
  Some (days_of_civil y m d).
Proof.
  intros Hy Hm Hd.
  assert (d <= 31) as Hd' by (unfold days_in_month in Hd; repeat case_match; lia).
  unfold parse_date. rewrite pad_digits by lia. cbn [mbind option_bind]. rewrite char_cons. cbn [mbind option_bind].
  rewrite pad_digits by lia. cbn [mbind option_bind]. rewrite char_cons. cbn [mbind option_bind].
  rewrite <- (app_nil_r (chars (pad 2 d))), pad_digits by lia. cbn [mbind option_bind].
  rewrite (proj2 (andb_true_iff _ _)); [done|]. rewrite !andb_true_iff, !Z.leb_le. split_and!; try lia.
  by apply bool_decide_eq_true.
Qed.

Lemma split_zone_app clock z : Forall (λ c, c ≠ "-"%char ∧ c ≠ "+"%char) clock →
  split_zone (clock ++ "+"%char :: z) = (clock, Some (false, z)).
Proof.
  induction 1 as [|c l [H1 H2] _ IH]; cbn; [done|]. by rewrite !bool_decide_false, IH.
Qed.

Definition fraction (u : Z) : list ascii :=
  if u =? 0 then [] else "."%char :: chars (pad 6 u).

Lemma parse_clock_pad h m s u : 0 <= h <= 23 → 0 <= m <= 59 → 0 <= s <= 59 → 0 <= u <= 999999 →
  parse_clock (chars (pad 2 h) ++ ":"%char :: chars (pad 2 m) ++ ":"%char :: chars (pad 2 s) ++ fraction u) =
  Some (h, m, s, u).
Proof.
  intros Hh Hm Hs Hu. unfold parse_clock. rewrite pad_digits by lia. cbn [mbind option_bind].
  rewrite char_cons. cbn [mbind option_bind]. rewrite pad_digits by lia. cbn [mbind option_bind].
  rewrite char_cons. cbn [mbind option_bind]. rewrite pad_digits by lia. cbn [mbind option_bind].
  unfold fraction, parse_fraction. destruct (Z.eqb_spec u 0) as [->|Hne]; [done|].
  rewrite char_cons. cbn [mbind option_bind].
  by rewrite <- (app_nil_r (chars (pad 6 u))), pad_digits by lia.
Qed.

Lemma clock_chars h m s u : 0 <= h <= 23 → 0 <= m <= 59 → 0 <= s <= 59 → 0 <= u <= 999999 →
  Forall (λ c, c ≠ "-"%char ∧ c ≠ "+"%char)
    (chars (pad 2 h) ++ ":"%char :: chars (pad 2 m) ++ ":"%char :: chars (pad 2 s) ++ fraction u).
Proof.
  intros Hh Hm Hs Hu.
  assert (∀ w n, 0 <= n < 10 ^ Z.of_nat w → (1 <= w)%nat →
          Forall (λ c, c ≠ "-"%char ∧ c ≠ "+"%char) (chars (pad w n))) as H.
  { intros w n Hn Hw. eapply Forall_impl; [by apply (pad_chars w n)|].
    intros c Hc. split; intros ->; discriminate Hc. }
  rewrite Forall_app, Forall_cons, Forall_app, Forall_cons, Forall_app.
  split_and!; try done; try (apply H; lia).
  unfold fraction. destruct (Z.eqb_spec u 0); [by apply Forall_nil|].
  apply Forall_cons. split; [done|]. apply H; lia.
Qed.

(** The instants a [datetime] can hold: the years 1 to 9999. *)
Definition representable (t : Z) : Prop := -62135596800000000 <= t < 253402300800000000.

Lemma civil_year z y m d : civil_of_days z = (y, m, d) → 1 <= m <= 12 → 1 <= d <= days_in_month y m →
  days_of_civil y m d = z → -719162 <= z <= 2932896 → 1 <= y <= 9999.
Proof.
  intros _ Hm Hd Hz Hr.
  assert (d <= 31) as Hd' by (unfold days_in_month in Hd; repeat case_match; lia).
  unfold days_of_civil in Hz. split.
  - apply Z.nlt_ge. intros Hy. destruct (Z.leb_spec m 2); Z.to_euclidean_division_equations; lia.
  - apply Z.nlt_ge. intros Hy. destruct (Z.leb_spec m 2); Z.to_euclidean_division_equations; lia.
Qed.

(** What [isoformat] writes, [fromisoformat] reads. *)
Theorem isoformat_roundtrip t : representable t → fromisoformat (isoformat (utc_of t)) = Some (utc_of t).
Proof.
  intros Ht. unfold representable in Ht. unfold isoformat, iso_utc, utc_of, as_utc. cbn [dt_offset dt_wall].
  rewrite Z.sub_0_r. set (secs := t / 1000000). set (u := t mod 1000000). set (sod := secs mod 86400).
  assert (t = 1000000 * secs + u) as Et by (apply Z.div_mod; lia).
  assert (0 <= u <= 999999) as Hu by (unfold u; pose proof (Z.mod_pos_bound t 1000000); lia).
  assert (secs = 86400 * (secs / 86400) + sod) as Es by (apply Z.div_mod; lia).
  assert (0 <= sod <= 86399) as Hsod by (unfold sod; pose proof (Z.mod_pos_bound secs 86400); lia).
  destruct (civil_roundtrip (secs / 86400)) as (y & m & d & Ec & Hm & Hd & Ez). rewrite Ec.
  assert (1 <= y <= 9999) as Hy by (eapply civil_year; try done; lia).
  assert (d <= 31) as Hd' by (unfold days_in_month in Hd; repeat case_match; lia).
  set (hh := sod / 3600). set (mm := sod / 60 mod 60). set (ss := sod mod 60).
  assert (0 <= hh <= 23) as Hhh by (unfold hh; Z.to_euclidean_division_equations; lia).
  assert (0 <= mm <= 59) as Hmm by (unfold mm; Z.to_euclidean_division_equations; lia).
  assert (0 <= ss <= 59) as Hss by (unfold ss; Z.to_euclidean_division_equations; lia).
  assert (sod = (hh * 60 + mm) * 60 + ss) as Esod
    by (unfold hh, mm, ss; Z.to_euclidean_division_equations; lia).
  set (D := chars (pad 4 y) ++ "-"%char :: chars (pad 2 m) ++ "-"%char :: chars (pad 2 d)).
  set (C := chars (pad 2 hh) ++ ":"%char :: chars (pad 2 mm) ++ ":"%char :: chars (pad 2 ss) ++ fraction u).
  match goal with |- fromisoformat ?s = _ =>
    assert (chars s = D ++ "T"%char :: C ++ "+"%char :: chars "00:00") as Echars end.
  { unfold D, C, fraction. rewrite !chars_app. destruct (u =? 0); rewrite ?chars_app;
      repeat first [rewrite <- app_assoc | progress cbn [app]]; reflexivity. }
  unfold fromisoformat. rewrite Echars.
  assert (length D = 10%nat) as HD.
  { unfold D. rewrite length_app. cbn [length]. rewrite length_app. cbn [length].
    destruct (pad_chars 4 y), (pad_chars 2 m), (pad_chars 2 d); lia. }
  rewrite take_app_length' by done. rewrite (parse_date_pad y m d Hy Hm Hd : parse_date D = _).
  cbn [mbind option_bind].
  assert (drop 11 (D ++ "T"%char :: C ++ "+"%char :: chars "00:00") = C ++ "+"%char :: chars "00:00") as ->.
  { change 11%nat with (10 + 1)%nat. rewrite <- drop_drop, drop_app_length' by done. done. }
  destruct (C ++ "+"%char :: chars "00:00") as [|c l] eqn:E.
  { destruct C; discriminate E. }
  rewrite <- E. unfold parse_time. rewrite split_zone_app by (by apply clock_chars).
  unfold C. rewrite parse_clock_pad by done. cbn [mbind option_bind].
  change (parse_offset false (chars "00:00")) with (Some 0). cbn [mbind option_bind].
  rewrite !(proj2 (Z.leb_le _ _)) by lia. cbn. do 2 f_equal. rewrite Ez. lia.
Qed.
