(* ===== verification/PyIsoOrder.v ===== *)
(** * Time stamps as text, compared

    The databases of the sources hold times as the text of [isoformat] and compare them as
    text: that is the order of the instants. *)

From S2P Require Import Prelude PyFloat PyTime PyIso.

#[local] Open Scope Z_scope.

(** ** Comparing lists of characters *)

Fixpoint lcmp (l k : list ascii) : comparison :=
  match l, k with
  | [], [] => Eq
  | [], _ :: _ => Lt
  | _ :: _, [] => Gt
  | a :: l, b :: k =>
      match N.compare (N_of_ascii a) (N_of_ascii b) with Eq => lcmp l k | c => c end
  end.

Lemma list_ascii_leb_lcmp l k : list_ascii_leb l k = match lcmp l k with Gt => false | _ => true end.
Proof.
  revert k. induction l as [|a l IH]; intros [|b k]; cbn; try done.
  destruct (N.compare_spec (N_of_ascii a) (N_of_ascii b)) as [E|E|E];
    destruct (N.ltb_spec (N_of_ascii a) (N_of_ascii b)), (N.ltb_spec (N_of_ascii b) (N_of_ascii a));
    try done; lia.
Qed.

(** One comparison decides, or the next. *)
Definition andthen (c d : comparison) : comparison := match c with Eq => d | c => c end.

Lemma andthen_assoc a b c : andthen (andthen a b) c = andthen a (andthen b c).
Proof. by destruct a. Qed.

Lemma lcmp_app a b x y : length a = length b → lcmp (a ++ x) (b ++ y) = andthen (lcmp a b) (lcmp x y).
Proof.
  revert b. induction a as [|c a IH]; intros [|d b]; cbn; try done. intros [= E].
  destruct (N.compare _ _); [by apply IH|done|done].
Qed.

Lemma lcmp_cons c x y : lcmp (c :: x) (c :: y) = lcmp x y.
Proof. cbn. by rewrite N.compare_refl. Qed.

(** ** Comparing numbers and their digits *)

Lemma compare_fields n a b x y : 0 <= x < n → 0 <= y < n →
  (a * n + x ?= b * n + y) = andthen (a ?= b) (x ?= y).
Proof.
  intros Hx Hy. destruct (Z.compare_spec a b) as [->|H|H]; cbn.
  - destruct (Z.compare_spec x y); [apply Z.compare_eq_iff|apply Z.compare_lt_iff|apply Z.compare_gt_iff]; lia.
  - apply Z.compare_lt_iff. nia.
  - apply Z.compare_gt_iff. nia.
Qed.

Definition digit (c : ascii) : Z := Z.of_N (N_of_ascii c - 48).

Lemma digit_bounds c : is_digit c = true → 0 <= digit c < 10.
Proof. unfold is_digit, digit. destruct c as [[] [] [] [] [] [] [] []]; cbn; try discriminate; lia. Qed.

Lemma digit_compare c d : is_digit c = true → is_digit d = true →
  (N.compare (N_of_ascii c) (N_of_ascii d)) = (digit c ?= digit d).
Proof.
  intros Hc Hd. assert (48 <= N_of_ascii c)%N as H1.
  { revert Hc. unfold is_digit. destruct c as [[] [] [] [] [] [] [] []]; cbn; try discriminate; lia. }
  assert (48 <= N_of_ascii d)%N as H2.
  { revert Hd. unfold is_digit. destruct d as [[] [] [] [] [] [] [] []]; cbn; try discriminate; lia. }
  unfold digit. destruct (N.compare_spec (N_of_ascii c) (N_of_ascii d)) as [->|H|H]; symmetry;
    [apply Z.compare_refl|apply Z.compare_lt_iff|apply Z.compare_gt_iff]; lia.
Qed.

Lemma digits_value_cons c l : digits_value (c :: l) = digit c * 10 ^ Z.of_nat (length l) + digits_value l.
Proof. change (c :: l) with ([c] ++ l). rewrite digits_value_app. unfold digits_value at 1, digit. cbn [foldl]. lia. Qed.

Lemma digits_value_bounds l : Forall (λ c, is_digit c = true) l → 0 <= digits_value l < 10 ^ Z.of_nat (length l).
Proof.
  induction 1 as [|c l Hc _ IH]; [done|]. rewrite digits_value_cons. cbn [length].
  rewrite Nat2Z.inj_succ, Z.pow_succ_r by lia. pose proof (digit_bounds c Hc). nia.
Qed.

Lemma lcmp_digits l k : length l = length k → Forall (λ c, is_digit c = true) l →
  Forall (λ c, is_digit c = true) k → lcmp l k = (digits_value l ?= digits_value k).
Proof.
  intros Hlen Hl. revert k Hlen. induction Hl as [|c l Hc Hl IH]; intros [|d k]; try done. intros [= Hlen].
  intros [Hd Hk]%Forall_cons. rewrite !digits_value_cons, Hlen.
  rewrite compare_fields; [|rewrite <- Hlen; by apply digits_value_bounds|by apply digits_value_bounds].
  cbn [lcmp]. rewrite digit_compare, IH by done. by destruct (digit c ?= digit d).
Qed.

Lemma digits_pad (w : nat) n : 0 <= n < 10 ^ Z.of_nat w → (1 <= w)%nat → digits_value (chars (pad w n)) = n.
Proof.
  intros Hn Hw. pose proof (pad_digits w n [] Hn Hw) as H. rewrite app_nil_r in H. unfold digits in H.
  destruct (_ && _); [|done]. injection H as Hv Hd.
  by rewrite <- (take_drop w (chars (pad w n))), Hd, app_nil_r.
Qed.

Lemma lcmp_pad (w : nat) a b x y : 0 <= a < 10 ^ Z.of_nat w → 0 <= b < 10 ^ Z.of_nat w → (1 <= w)%nat →
  lcmp (chars (pad w a) ++ x) (chars (pad w b) ++ y) = andthen (a ?= b) (lcmp x y).
Proof.
  intros Ha Hb Hw. destruct (pad_chars w a Ha Hw) as [La Da], (pad_chars w b Hb Hw) as [Lb Db].
  rewrite lcmp_app by lia. rewrite lcmp_digits by (done || lia). by rewrite !digits_pad.
Qed.

(** ** Comparing dates *)

(** Days of the years before [y], which start in March. *)
Definition year_days (y : Z) : Z := 365 * y + y / 4 - y / 100 + y / 400.
Definition month_days (mp : Z) : Z := (153 * mp + 2) / 5.

Lemma year_days_step y : year_days (y + 1) = year_days y + 365 + (if leap (y + 1) then 1 else 0).
Proof.
  unfold year_days, leap.
  destruct (Z.eqb_spec ((y + 1) mod 4) 0), (Z.eqb_spec ((y + 1) mod 100) 0), (Z.eqb_spec ((y + 1) mod 400) 0);
    cbn; Z.to_euclidean_division_equations; lia.
Qed.

Lemma year_days_mono y (n : nat) : year_days y <= year_days (y + Z.of_nat n).
Proof.
  induction n as [|n IH]; [by rewrite Z.add_0_r|].
  replace (y + Z.of_nat (S n)) with (y + Z.of_nat n + 1) by lia. rewrite year_days_step. destruct (leap _); lia.
Qed.

(** A date counted from March: its year, month and day. *)
Definition march (y m : Z) : Z := 12 * y + m - 3.

Lemma march_year y m : 1 <= m <= 12 → march y m / 12 = (if m <=? 2 then y - 1 else y).
Proof. intros Hm. unfold march. destruct (Z.leb_spec m 2); Z.to_euclidean_division_equations; lia. Qed.
Lemma march_month y m : 1 <= m <= 12 → march y m mod 12 = (if m <=? 2 then m + 9 else m - 3).
Proof. intros Hm. unfold march. destruct (Z.leb_spec m 2); Z.to_euclidean_division_equations; lia. Qed.

Lemma days_march y m d : 1 <= m <= 12 →
  days_of_civil y m d = year_days (march y m / 12) + month_days (march y m mod 12) + d - 1 - 719468.
Proof.
  intros Hm. unfold days_of_civil, year_days, month_days. by rewrite march_year, march_month.
Qed.

Definition march_of (m : Z) : Z := if m <=? 2 then m + 9 else m - 3.
Definition month_end_ok (m : Z) : bool :=
  (m =? 2) || negb (march_of m =? 11) && (month_days (march_of m) + days_in_month 1 m <=? month_days (march_of m + 1)).

Lemma month_ends_ok : forallb month_end_ok (seqZ 1 12) = true.
Proof. vm_compute. reflexivity. Qed.

(** The last day of a month comes before the next month. *)
Lemma month_end y m d : 1 <= m <= 12 → 1 <= d <= days_in_month y m →
  month_days (march y m mod 12) + d <=
  (if march y m mod 12 =? 11 then 365 + (if leap (march y m / 12 + 1) then 1 else 0)
   else month_days (march y m mod 12 + 1)).
Proof.
  intros Hm Hd. rewrite march_year, march_month by done. fold (march_of m).
  pose proof month_ends_ok as H. rewrite forallb_True in H.
  specialize (H m ltac:(apply elem_of_seqZ; lia)). unfold month_end_ok in H.
  destruct (Z.eqb_spec m 2) as [->|Hne].
  - change (march_of 2) with 11. change (month_days 11) with 337. cbn.
    unfold days_in_month in Hd. replace (y - 1 + 1) with y by lia. cbn in Hd. destruct (leap y); lia.
  - cbn [orb] in H. apply andb_true_iff in H as [H1%negb_true_iff H2%Z.leb_le]. rewrite H1.
    assert (days_in_month y m = days_in_month 1 m) as E.
    { unfold days_in_month. by rewrite (proj2 (Z.eqb_neq _ _) Hne). }
    lia.
Qed.

Lemma month_days_mono a b : 0 <= a → a <= b → month_days a <= month_days b.
Proof. intros. unfold month_days. apply Z.div_le_mono; lia. Qed.

(** An earlier date has fewer days before it. *)
Lemma earlier_date y m d y' m' d' : 1 <= m <= 12 → 1 <= m' <= 12 → 1 <= d <= days_in_month y m → 1 <= d' →
  march y m < march y' m' → days_of_civil y m d < days_of_civil y' m' d'.
Proof.
  intros Hm Hm' Hd Hd' Hlt. rewrite !days_march by done.
  pose proof (month_end y m d Hm Hd) as He.
  set (k := march y m) in *. set (k' := march y' m') in *.
  assert (0 <= k' mod 12 < 12) as B' by (apply Z.mod_pos_bound; lia).
  assert (0 <= k mod 12 < 12) as B by (apply Z.mod_pos_bound; lia).
  pose proof (Z.div_mod k 12 ltac:(lia)). pose proof (Z.div_mod k' 12 ltac:(lia)).
  assert (0 <= month_days (k' mod 12)) by (unfold month_days; apply Z.div_pos; lia).
  destruct (Z.eq_dec (k / 12) (k' / 12)) as [Ey|Ey].
  - assert (k mod 12 < k' mod 12) as Hmm by lia. rewrite (proj2 (Z.eqb_neq _ _)) in He by lia.
    pose proof (month_days_mono (k mod 12 + 1) (k' mod 12) ltac:(lia) ltac:(lia)). rewrite Ey. lia.
  - assert (k / 12 + 1 <= k' / 12) as Hyy by (apply Z.lt_pred_le; assert (k / 12 <= k' / 12) by (apply Z.div_le_mono; lia); lia).
    pose proof (year_days_mono (k / 12 + 1) (Z.to_nat (k' / 12 - (k / 12 + 1)))) as Hmono.
    rewrite Z2Nat.id in Hmono by lia. replace (k / 12 + 1 + (k' / 12 - (k / 12 + 1))) with (k' / 12) in Hmono by lia.
    rewrite year_days_step in Hmono.
    assert (month_days (k mod 12) + d <= 365 + (if leap (k / 12 + 1) then 1 else 0)); [|lia].
    destruct (Z.eqb_spec (k mod 12) 11); [done|]. etrans; [exact He|].
    pose proof (month_days_mono (k mod 12 + 1) 11 ltac:(lia) ltac:(lia)) as Hm11.
    change (month_days 11) with 337 in Hm11. destruct (leap _); lia.
Qed.

Lemma compare_dates y m d y' m' d' : 1 <= m <= 12 → 1 <= m' <= 12 → 1 <= d <= days_in_month y m →
  1 <= d' <= days_in_month y' m' →
  (days_of_civil y m d ?= days_of_civil y' m' d') = andthen (y ?= y') (andthen (m ?= m') (d ?= d')).
Proof.
  intros Hm Hm' Hd Hd'.
  assert (andthen (y ?= y') (m ?= m') = (march y m ?= march y' m')) as E.
  { unfold march. replace (12 * y + m - 3) with (y * 12 + (m - 1) - 2) by lia.
    replace (12 * y' + m' - 3) with (y' * 12 + (m' - 1) - 2) by lia.
    rewrite !(Z.compare_sub (_ - 2)). 
    replace (y * 12 + (m - 1) - 2 - (y' * 12 + (m' - 1) - 2)) with (y * 12 + (m - 1) - (y' * 12 + (m' - 1))) by lia.
    rewrite <- Z.compare_sub, compare_fields by lia. f_equal.
    rewrite (Z.compare_sub m), (Z.compare_sub (m - 1)). f_equal. lia. }
  transitivity (andthen (march y m ?= march y' m') (d ?= d')).
  2:{ rewrite <- E. destruct (y ?= y'); reflexivity. }
  destruct (Z.compare_spec (march y m) (march y' m')) as [Em|Hlt|Hlt]; cbn.
  - rewrite !days_march, Em by done. rewrite (Z.compare_sub d), Z.compare_sub. f_equal. lia.
  - apply Z.compare_lt_iff. apply earlier_date; try done; lia.
  - apply Z.compare_gt_iff. apply earlier_date; try done; lia.
Qed.

(** ** Comparing time stamps *)

(** The fields of an instant. *)
Record Fields := {
  f_year : Z; f_month : Z; f_day : Z; f_hour : Z; f_minute : Z; f_second : Z; f_micro : Z }.

Definition day_of (t : Z) : Z := t / 1000000 / 86400.

Definition fields (t : Z) : Fields :=
  let '(y, m, d) := civil_of_days (day_of t) in
  let sod := t / 1000000 mod 86400 in
  {| f_year := y; f_month := m; f_day := d; f_hour := sod / 3600; f_minute := sod / 60 mod 60;
     f_second := sod mod 60; f_micro := t mod 1000000 |}.

Record fields_ok (t : Z) (f : Fields) : Prop := {
  fo_year : 1 <= f_year f <= 9999;
  fo_month : 1 <= f_month f <= 12;
  fo_day : 1 <= f_day f <= days_in_month (f_year f) (f_month f);
  fo_hour : 0 <= f_hour f <= 23;
  fo_minute : 0 <= f_minute f <= 59;
  fo_second : 0 <= f_second f <= 59;
  fo_micro : 0 <= f_micro f <= 999999;
  fo_days : days_of_civil (f_year f) (f_month f) (f_day f) = day_of t;
  fo_time : t = (((day_of t * 24 + f_hour f) * 60 + f_minute f) * 60 + f_second f) * 1000000 + f_micro f }.

Lemma fields_valid t : representable t → fields_ok t (fields t).
Proof.
  unfold representable. intros Ht. unfold fields, day_of.
  assert (t = 1000000 * (t / 1000000) + t mod 1000000) as Et by (apply Z.div_mod; lia).
  set (secs := t / 1000000) in *. set (u := t mod 1000000) in *. set (sod := secs mod 86400).
  assert (0 <= u <= 999999) as Hu by (unfold u; pose proof (Z.mod_pos_bound t 1000000); lia).
  assert (secs = 86400 * (secs / 86400) + sod) as Es by (apply Z.div_mod; lia).
  assert (0 <= sod <= 86399) as Hsod by (unfold sod; pose proof (Z.mod_pos_bound secs 86400); lia).
  destruct (civil_roundtrip (secs / 86400)) as (y & m & d & Ec & Hm & Hd & Ez). rewrite Ec.
  assert (sod = (sod / 3600 * 60 + sod / 60 mod 60) * 60 + sod mod 60) as Esod
    by (Z.to_euclidean_division_equations; lia).
  split; cbn; try done; try (Z.to_euclidean_division_equations; lia).
  - eapply civil_year; try done; lia.
  - change (day_of t) with (secs / 86400). lia.
Qed.

Lemma days_small y m d : d <= days_in_month y m → d <= 31.
Proof. unfold days_in_month. intros. repeat case_match; lia. Qed.

(** The order of the instants is that of their fields. *)
Lemma compare_instants t t' f f' : fields_ok t f → fields_ok t' f' →
  (t ?= t') = andthen (f_year f ?= f_year f') (andthen (f_month f ?= f_month f') (andthen (f_day f ?= f_day f')
    (andthen (f_hour f ?= f_hour f') (andthen (f_minute f ?= f_minute f') (andthen (f_second f ?= f_second f')
       (f_micro f ?= f_micro f')))))).
Proof.
  intros [] []. rewrite fo_time0, fo_time1.
  rewrite !compare_fields by lia. rewrite <- fo_days0, <- fo_days1, compare_dates by done.
  by rewrite !andthen_assoc.
Qed.

Lemma isoformat_chars t f : fields t = f → chars (isoformat (utc_of t)) =
  chars (pad 4 (f_year f)) ++ "-"%char :: chars (pad 2 (f_month f)) ++ "-"%char :: chars (pad 2 (f_day f)) ++
  "T"%char :: chars (pad 2 (f_hour f)) ++ ":"%char :: chars (pad 2 (f_minute f)) ++ ":"%char ::
  chars (pad 2 (f_second f)) ++ fraction (f_micro f) ++ chars "+00:00".
Proof.
  intros <-. unfold isoformat, iso_utc, utc_of, as_utc, fields, day_of. cbn [dt_offset dt_wall].
  rewrite Z.sub_0_r. destruct (civil_of_days _) as [[y m] d]. cbn [f_year f_month f_day f_hour f_minute f_second f_micro].
  unfold fraction. rewrite !chars_app.
  destruct (t mod 1000000 =? 0); rewrite ?chars_app;
    repeat first [rewrite <- app_assoc | progress cbn [app]]; reflexivity.
Qed.

Lemma compare_fractions u v : 0 <= u <= 999999 → 0 <= v <= 999999 →
  lcmp (fraction u ++ chars "+00:00") (fraction v ++ chars "+00:00") = (u ?= v).
Proof.
  intros Hu Hv. unfold fraction.
  destruct (Z.eqb_spec u 0) as [->|Hu0], (Z.eqb_spec v 0) as [->|Hv0]; try reflexivity.
  - symmetry. apply Z.compare_lt_iff. lia.
  - symmetry. apply Z.compare_gt_iff. lia.
  - rewrite <- !app_comm_cons, lcmp_cons, lcmp_pad by lia. by destruct (u ?= v).
Qed.

Lemma lcmp_isoformat t t' : representable t → representable t' →
  lcmp (chars (isoformat (utc_of t))) (chars (isoformat (utc_of t'))) = (t ?= t').
Proof.
  intros [] % fields_valid [] % fields_valid.
  rewrite (compare_instants t t' (fields t) (fields t')) by done.
  rewrite (isoformat_chars t (fields t) eq_refl), (isoformat_chars t' (fields t') eq_refl).
  pose proof (days_small _ _ _ (proj2 fo_day0)). pose proof (days_small _ _ _ (proj2 fo_day1)).
  repeat (rewrite lcmp_pad by lia; rewrite ?lcmp_cons). by rewrite compare_fractions.
Qed.

(** The texts [isoformat] gives to UTC instants are ordered like the instants, with and without
    a fraction of a second. *)
Theorem isoformat_ordered t t' : representable t → representable t' →
  str_leb (isoformat (utc_of t)) (isoformat (utc_of t')) = (t <=? t').
Proof.
  intros Ht Ht'. unfold str_leb. rewrite list_ascii_leb_lcmp, lcmp_isoformat by done.
  by unfold Z.leb; destruct (t ?= t').
Qed.

Lemma isoformat_ordered_witness :
  str_leb "2026-01-01T00:00:02+00:00" "2026-01-01T00:00:02.500000+00:00" = true.
Proof.
  change "2026-01-01T00:00:02+00:00" with (isoformat (utc_of 1767225602000000)).
  change "2026-01-01T00:00:02.500000+00:00" with (isoformat (utc_of 1767225602500000)).
  rewrite (isoformat_ordered 1767225602000000 1767225602500000) by (unfold representable; lia). reflexivity.
Defined.
