(* ===== verification/PyStamp.v ===== *)
(** * Time stamps as texts

    Reading time stamps back, the range of [datetime], and UTC stamps: texts that name an
    instant and compare as the instants do. *)

From S2P Require Import Prelude PyFloat PyVal PyTime PyIso PyIsoOrder.

#[local] Open Scope Z_scope.

(** [value.replace("Z", "+00:00")] *)
Definition spell_zulu (s : string) : string :=
  unchars (concat (map (λ c, if bool_decide (c = "Z"%char) then chars "+00:00" else [c]) (chars s))).

(** [datetime.fromisoformat(text)] *)
Definition parsed (text : string) : result datetime :=
  opt_or_raise (fromisoformat text) ValueError ("Invalid isoformat string: " +:+ repr_string text).

(** A [datetime] is between the years 1 and 9999. *)
Definition dt_in_range (t : datetime) : result datetime :=
  if (-62135596800000000 <=? dt_wall t) && (dt_wall t <? 253402300800000000) then Ok t
  else raise OverflowError "date value out of range".

(** [t + timedelta(seconds=n)] of a UTC value, the text of the exception aside. *)
Definition plus_seconds (t : datetime) (n : Z) : result datetime := dt_in_range (utc_of (dt_wall t + n * 1000000)).

(** What SQLite raises when a UNIQUE constraint fails. *)
Definition IntegrityError : exn_kind := OtherError "IntegrityError".

(** ** UTC stamps *)

Definition utc_time (t : datetime) : Prop := ∃ w, representable w ∧ t = utc_of w.
Definition stamp (text : string) : Prop := ∃ t, utc_time t ∧ text = isoformat t.

Lemma parsed_isoformat t : utc_time t → parsed (isoformat t) = Ok t.
Proof. intros (w & Hw & ->). unfold parsed. by rewrite isoformat_roundtrip. Qed.

Lemma parsed_stamp text : stamp text → ∃ t, utc_time t ∧ parsed text = Ok t ∧ text = isoformat t.
Proof. intros (t & Ht & ->). eauto using parsed_isoformat. Qed.

Lemma stamp_isoformat t : utc_time t → stamp (isoformat t).
Proof. intros. by exists t. Qed.

Lemma in_range_utc t t' : dt_offset t = Some 0 → dt_in_range t = Ok t' → utc_time t'.
Proof.
  unfold dt_in_range. intros Ho. case_match eqn:E; [|done]. intros [= <-].
  apply andb_true_iff in E as [?%Z.leb_le ?%Z.ltb_lt].
  exists (dt_wall t). split; [by unfold representable|]. destruct t. cbn in *. by subst.
Qed.

Lemma as_utc_is_utc t : dt_offset (as_utc t) = Some 0.
Proof. unfold as_utc. by destruct (dt_offset t). Qed.

Lemma plus_seconds_utc t n t' : plus_seconds t n = Ok t' → utc_time t'.
Proof. by apply in_range_utc. Qed.

Lemma stamp_utc w : representable w → stamp (isoformat (utc_of w)).
Proof. intros. apply stamp_isoformat. by exists w. Qed.

(** The instant a stamp names. *)
Definition instant (text : string) : Z := match fromisoformat text with Some t => dt_wall t | None => 0 end.

Lemma instant_isoformat t : utc_time t → instant (isoformat t) = dt_wall t.
Proof. intros (w & Hw & ->). unfold instant. by rewrite isoformat_roundtrip. Qed.

Lemma instant_utc w : representable w → instant (isoformat (utc_of w)) = w.
Proof. intros. rewrite instant_isoformat; [done|]. by exists w. Qed.

(** Texts are ordered like the instants they name. *)
Lemma str_leb_stamps a b : stamp a → stamp b → str_leb a b = (instant a <=? instant b).
Proof.
  intros (? & (x & Hx & ->) & ->) (? & (y & Hy & ->) & ->). rewrite !instant_isoformat by (unfold utc_time; eauto).
  unfold str_leb. rewrite list_ascii_leb_lcmp, lcmp_isoformat by done. by unfold Z.leb; cbn; destruct (x ?= y).
Qed.

(** A stamp holds no [Z]. *)
Definition no_zulu (s : string) : Prop := Forall (λ c, c ≠ "Z"%char) (chars s).

Lemma no_zulu_app a b : no_zulu a → no_zulu b → no_zulu (a +:+ b).
Proof. unfold no_zulu. rewrite chars_app. apply Forall_app_2. Qed.

Lemma no_zulu_pretty (n : Z) : no_zulu (pretty n).
Proof.
  assert (∀ n : Z, 0 <= n → no_zulu (pretty n)) as H.
  { intros m Hm. apply Forall_forall. intros c Hc ->. by apply (pretty_Z_digits m) in Hc. }
  destruct n as [|p|p]; [by apply H|by apply H|].
  change (pretty (Zneg p)) with (String "-" (pretty (Zpos p))). constructor; [done|]. by apply H.
Qed.

Lemma no_zulu_pad w n : no_zulu (pad w n).
Proof.
  unfold pad. apply no_zulu_app; [|apply no_zulu_pretty]. unfold no_zulu. rewrite chars_unchars.
  apply Forall_forall. by intros c [-> _]%elem_of_replicate.
Qed.

Lemma no_zulu_isoformat v : no_zulu (isoformat v).
Proof.
  unfold isoformat, iso_utc. destruct (civil_of_days _) as [[y m] d].
  repeat first [apply no_zulu_pad | apply no_zulu_app]; try by repeat constructor.
  case_match; [by constructor|]. apply no_zulu_app; [by repeat constructor|apply no_zulu_pad].
Qed.

Lemma spell_no_zulu s : no_zulu s → spell_zulu s = s.
Proof.
  intros Hs. unfold spell_zulu. rewrite <- (unchars_chars s) at 2. f_equal.
  induction Hs as [|c l Hc _ IH]; [done|]. cbn [map concat]. rewrite IH. by rewrite bool_decide_false.
Qed.
