(* ===== verification/Safety.v ===== *)
(** * The Controller's safety policy ([controller/safety.py])

    The lifecycle state machine, the policy and action validators, and the
    agent-loss cleanup decision.  [validate_action] is side-effect free and
    returns findings; it raises only where a conversion of an intensity does. *)

From Stdlib Require Import QArith.
From S2P Require Import Prelude PyFloat PyVal PyTime.

#[local] Open Scope Z_scope.

(** ** Lifecycle *)

Inductive LifecyclePhase :=
  | PREPARE | QUALIFY | BASELINE | PLAN | EXECUTE | OBSERVE | RECOVER | EVALUATE | CLEANUP.

#[export] Instance LifecyclePhase_eq_dec : EqDecision LifecyclePhase.
Proof. solve_decision. Defined.

Definition phase_value (p : LifecyclePhase) : string :=
  match p with
  | PREPARE => "prepare" | QUALIFY => "qualify" | BASELINE => "baseline" | PLAN => "plan"
  | EXECUTE => "execute" | OBSERVE => "observe" | RECOVER => "recover"
  | EVALUATE => "evaluate" | CLEANUP => "cleanup"
  end.

Definition ALLOWED_TRANSITIONS (p : LifecyclePhase) : list LifecyclePhase :=
  match p with
  | PREPARE => [QUALIFY; CLEANUP]
  | QUALIFY => [BASELINE; CLEANUP]
  | BASELINE => [PLAN; CLEANUP]
  | PLAN => [EXECUTE; CLEANUP]
  | EXECUTE => [OBSERVE; RECOVER; CLEANUP]
  | OBSERVE => [RECOVER; CLEANUP]
  | RECOVER => [EVALUATE; CLEANUP]
  | EVALUATE => [CLEANUP]
  | CLEANUP => []
  end.

(** ** Findings *)

Record SafetyFinding := _finding { code : string; message : string }.

#[export] Instance SafetyFinding_eq_dec : EqDecision SafetyFinding.
Proof. solve_decision. Defined.

Record ValidationResult := { findings : list SafetyFinding }.

Definition ok (r : ValidationResult) : bool := bool_decide (findings r = []).
Definition codes (r : ValidationResult) : list string := map code (findings r).

(** [if b: findings.append(_finding(c, m))] *)
Definition check (b : bool) (c m : string) : list SafetyFinding := guard_list b (_finding c m).

(** ** Intensity fields *)

Definition _coerce_number (raw_value : val) (unit : string) : result (option pyfloat) :=
  match raw_value with
  | VBool _ => Ok None
  | VInt _ | VFloat _ => f ← py_float raw_value; Ok (Some f)
  | VStr s =>
      let value := str_strip s in
      let value := if bool_decide (unit = "percent") && str_endswith "%" value
                   then str_drop_last 1 value else value in
      Ok (float_of_string value)
  | _ => Ok None
  end.

Record IntensityField := { unit : string }.

Definition describe (self : IntensityField) : mapping :=
  let upper := if bool_decide (unit self = "percent") then VFloat (flit 100) else VNone in
  [("type", VStr "number"); ("unit", VStr (unit self)); ("bounded", VBool true);
   ("exclusive_minimum", VFloat (flit 0)); ("maximum", upper)].

Definition accepts (self : IntensityField) (raw_value : val) : result bool :=
  value ← _coerce_number raw_value (unit self);
  match value with
  | None => Ok false
  | Some value =>
      if negb (isfinite value) then Ok false
      else if bool_decide (unit self = "percent")
           then Ok (flt (FFin 0) value && fle value (FFin 100))
           else Ok (flt (FFin 0) value)
  end.

(** ** Policies, targets, actions *)

Record FaultTypeContract := { intensity_fields : dict string IntensityField }.

Definition MAX_FAULT_DURATION_SECONDS : Z := 20 * 60.

Record AbortGate := {
  abort_enabled : bool;
  max_runtime_seconds : Z;
  heartbeat_timeout_seconds : Z }.

Record CleanupGate := {
  cleanup_enabled : bool;
  max_cleanup_seconds : Z;
  cleanup_require_run_id_label : bool;
  cleanup_require_target_uid : bool;
  verify_absence : bool }.

Record ControllerPolicy := {
  namespace_allowlist : list string;
  fault_type_contracts : dict string FaultTypeContract;
  max_fault_duration_seconds : Z;
  max_concurrent_actions : Z;
  require_single_target : bool;
  require_target_uid : bool;
  require_run_id_label : bool;
  abort_gate : AbortGate;
  cleanup_gate : CleanupGate }.

Definition default_abort_gate : AbortGate := {|
  abort_enabled := true; max_runtime_seconds := 1800;
  heartbeat_timeout_seconds := MAX_FAULT_DURATION_SECONDS |}.

Definition default_cleanup_gate : CleanupGate := {|
  cleanup_enabled := true; max_cleanup_seconds := 300;
  cleanup_require_run_id_label := true; cleanup_require_target_uid := true;
  verify_absence := true |}.

Record TargetIdentity := {
  target_namespace : string;
  kind : string;
  name : string;
  uid : string;
  selector : option (dict string string) }.

Record ChaosBladeAction := {
  run_id : string;
  namespace : string;
  target : TargetIdentity;
  fault_type : string;
  duration_seconds : Z;
  intensity : mapping;
  labels : dict string string }.

Record RunLease := {
  lease_run_id : string;
  phase : LifecyclePhase;
  started_at : datetime;
  last_agent_heartbeat_at : option datetime;
  active_action_ids : list string }.

Definition default_policy (allowlist : list string) : ControllerPolicy := {|
  namespace_allowlist := allowlist;
  fault_type_contracts :=
    [("cpu-load", {| intensity_fields := [("cpu_percent", {| unit := "percent" |})] |});
     ("memory-stress", {| intensity_fields := [("mem_percent", {| unit := "percent" |})] |});
     ("network-delay", {| intensity_fields := [("delay_ms", {| unit := "milliseconds" |})] |});
     ("network-loss", {| intensity_fields := [("loss_percent", {| unit := "percent" |})] |});
     ("pod-kill", {| intensity_fields := [("pod_count", {| unit := "count" |})] |})];
  max_fault_duration_seconds := MAX_FAULT_DURATION_SECONDS;
  max_concurrent_actions := 1;
  require_single_target := true;
  require_target_uid := true;
  require_run_id_label := true;
  abort_gate := default_abort_gate;
  cleanup_gate := default_cleanup_gate |}.

(** [RUN_ID_RE = ^\[a-z0-9\]\[a-z0-9._-\]{2,62}$] under [fullmatch]. *)
Definition RUN_ID_RE (s : string) : bool :=
  match chars s with
  | c :: rest =>
      is_lower_alnum c && forallb (λ c, is_lower_alnum c || one_of "._-" c) rest
      && (2 <=? Z.of_nat (length rest)) && (Z.of_nat (length rest) <=? 62)
  | [] => false
  end.

(** ** Validators *)

Definition validate_policy (policy : ControllerPolicy) : ValidationResult := {| findings :=
  check (bool_decide (namespace_allowlist policy = []))
    "NO_NAMESPACE_ALLOWLIST" "namespace allowlist must not be empty" ++
  check (bool_decide (length (fault_type_contracts policy) = 0%nat))
    "NO_SUPPORTED_FAULT_TYPES" "at least one executable fault type is required" ++
  check (max_fault_duration_seconds policy <=? 0)
    "INVALID_FAULT_TIMEOUT" "fault timeout must be positive" ++
  check (negb (max_concurrent_actions policy =? 1))
    "UNSAFE_CONCURRENCY" "controller only supports one active action per run" ++
  check (negb (require_single_target policy))
    "MULTI_TARGET_ALLOWED" "single target enforcement must stay enabled" ++
  check (negb (require_target_uid policy))
    "TARGET_UID_NOT_REQUIRED" "target UID is required to detect drift" ++
  check (negb (require_run_id_label policy))
    "RUN_ID_LABEL_NOT_REQUIRED" "run_id label is required for cleanup" ++
  check (negb (abort_enabled (abort_gate policy)))
    "ABORT_GATE_DISABLED" "abort gate must be enabled" ++
  check (negb (cleanup_enabled (cleanup_gate policy)))
    "CLEANUP_GATE_DISABLED" "cleanup gate must be enabled" ++
  check (negb (cleanup_require_target_uid (cleanup_gate policy)))
    "CLEANUP_WITHOUT_UID" "cleanup must verify target UID" ++
  check (negb (cleanup_require_run_id_label (cleanup_gate policy)))
    "CLEANUP_WITHOUT_RUN_ID" "cleanup must scope by run_id label" |}.

Definition validate_lifecycle_transition (current next_phase : LifecyclePhase) : ValidationResult :=
  if bool_decide (next_phase ∈ ALLOWED_TRANSITIONS current) then {| findings := [] |}
  else {| findings := [_finding "INVALID_LIFECYCLE_TRANSITION"
            ("cannot transition from " +:+ phase_value current +:+ " to " +:+ phase_value next_phase)] |}.

(** The guards of [validate_action] before the fault-type contract is read. *)
Definition action_guards (action : ChaosBladeAction) (policy : ControllerPolicy)
    (active_action_count : Z) : list SafetyFinding :=
  check (negb (RUN_ID_RE (run_id action)))
    "INVALID_RUN_ID" "run_id must be a stable DNS-label-like identifier" ++
  check (require_run_id_label policy &&
         negb (bool_decide (dget "benchmark.run_id" (labels action) = Some (run_id action))))
    "MISSING_RUN_ID_LABEL" "action labels must include benchmark.run_id" ++
  check (negb (bool_decide (namespace action ∈ namespace_allowlist policy)))
    "NAMESPACE_NOT_ALLOWED" "action namespace is outside the allowlist" ++
  check (negb (bool_decide (target_namespace (target action) = namespace action)))
    "TARGET_NAMESPACE_MISMATCH" "target namespace must match action namespace" ++
  check (negb (bool_decide (kind (target action) = "Pod")))
    "TARGET_KIND_NOT_ALLOWED" "only an exact Pod target is allowed" ++
  check (require_single_target policy &&
         match selector (target action) with
         | Some s => negb (bool_decide (length s = 0%nat))
         | None => false
         end)
    "SELECTOR_TARGET_FORBIDDEN" "selector-based targets are not single-target safe" ++
  check (require_target_uid policy && negb (nonempty (uid (target action))))
    "MISSING_TARGET_UID" "target UID is required before injection" ++
  check (negb (nonempty (name (target action))))
    "MISSING_TARGET_NAME" "target name is required before injection" ++
  check (max_concurrent_actions policy <=? active_action_count)
    "CONCURRENCY_BUDGET_EXCEEDED" "another action is already active".

Definition duration_findings (action : ChaosBladeAction) (policy : ControllerPolicy)
    : list SafetyFinding :=
  if duration_seconds action <=? 0
  then [_finding "INVALID_DURATION" "duration must be positive"]
  else check (max_fault_duration_seconds policy <? duration_seconds action)
         "FAULT_TIMEOUT_EXCEEDED"
         ("duration exceeds the global " +:+ pretty (max_fault_duration_seconds policy)
          +:+ "-second fault timeout").

(** The loop over [contract.intensity_fields.items()]. *)
Definition intensity_finding (action : ChaosBladeAction) (acc : list SafetyFinding)
    (kf : string * IntensityField) : result (list SafetyFinding) :=
  let '(key, field_contract) := kf in
  match dget key (intensity action) with
  | None => Ok (acc ++ [_finding "MISSING_INTENSITY_FIELD" ("missing intensity field " +:+ key)])
  | Some raw =>
      good ← accepts field_contract raw;
      Ok (acc ++ check (negb good) "INVALID_INTENSITY_VALUE"
            ("intensity field " +:+ key +:+ " must be a finite numeric value"))
  end.

Definition validate_action (action : ChaosBladeAction) (policy : ControllerPolicy)
    (active_action_count : Z) : result ValidationResult :=
  let fs := findings (validate_policy policy) ++ action_guards action policy active_action_count in
  match dget (fault_type action) (fault_type_contracts policy) with
  | None => Ok {| findings := fs ++ [_finding "FAULT_TYPE_NOT_ALLOWED"
                                      "fault type is outside the allowed action space"] |}
  | Some contract =>
      let fs := fs ++ duration_findings action policy in
      let unexpected := existsb (λ k, negb (dmem k (intensity_fields contract)))
                          (dkeys (intensity action)) in
      let fs := fs ++ check unexpected "UNKNOWN_INTENSITY_FIELD"
                  "intensity includes fields not allowed for this fault" in
      fs ← foldM (intensity_finding action) fs (intensity_fields contract);
      Ok {| findings := fs ++ check (negb (verify_absence (cleanup_gate policy)))
              "CLEANUP_NOT_VERIFIABLE" "cleanup must verify absence of this run's fault" |}
  end.

(** ** Cleanup after the Agent is lost *)

(** [clock] is the reading of [datetime.now(timezone.utc)]. *)
Definition should_cleanup_on_agent_loss (clock : datetime) (lease : RunLease)
    (policy : ControllerPolicy) (now : option datetime) : result bool :=
  if negb (abort_enabled (abort_gate policy)) || negb (cleanup_enabled (cleanup_gate policy))
  then Ok false
  else if bool_decide (phase lease ∈ [CLEANUP; EVALUATE]) then Ok false
  else
    let current_time := default clock now in
    let heartbeat := default (started_at lease) (last_agent_heartbeat_at lease) in
    d1 ← dt_sub current_time (as_utc heartbeat);
    heartbeat_age ← total_seconds d1;
    d2 ← dt_sub current_time (as_utc (started_at lease));
    runtime_age ← total_seconds d2;
    Ok (flt (FFin (inject_Z (heartbeat_timeout_seconds (abort_gate policy)))) heartbeat_age
        || flt (FFin (inject_Z (max_runtime_seconds (abort_gate policy)))) runtime_age).

(** * Properties *)

Lemma check_nil b c m : check b c m = [] ↔ b = false.
Proof. apply guard_list_nil. Qed.

Lemma ok_true r : ok r = true ↔ findings r = [].
Proof. unfold ok. by rewrite bool_decide_eq_true. Qed.

(** Rewrite a list of guards being empty into the guards being false. *)
Create Rewrite HintDb guards.
#[export] Hint Rewrite @app_eq_nil_iff check_nil negb_false_iff bool_decide_eq_true
  bool_decide_eq_false andb_false_iff Z.leb_gt Z.ltb_ge Z.eqb_eq : guards.

(** ** Policies *)

Record policy_sound (p : ControllerPolicy) : Prop := {
  ps_namespaces : namespace_allowlist p ≠ [];
  ps_faults : fault_type_contracts p ≠ [];
  ps_duration : 0 < max_fault_duration_seconds p;
  ps_single_action : max_concurrent_actions p = 1;
  ps_single_target : require_single_target p = true;
  ps_uid : require_target_uid p = true;
  ps_label : require_run_id_label p = true;
  ps_abort : abort_enabled (abort_gate p) = true;
  ps_cleanup : cleanup_enabled (cleanup_gate p) = true;
  ps_cleanup_uid : cleanup_require_target_uid (cleanup_gate p) = true;
  ps_cleanup_label : cleanup_require_run_id_label (cleanup_gate p) = true }.

Lemma length_zero_nil {A} (l : list A) : length l = 0%nat ↔ l = [].
Proof. apply length_zero_iff_nil. Qed.

Lemma validate_policy_ok_iff p : ok (validate_policy p) = true ↔ policy_sound p.
Proof.
  rewrite ok_true. unfold validate_policy; cbn [findings].
  autorewrite with guards. rewrite length_zero_nil. split.
  - intros. destruct_and!. split; assumption.
  - intros []. repeat split; assumption.
Qed.

(** ** Intensities *)

Lemma accepts_Ok_true_inv f raw :
  accepts f raw = Ok true →
  ∃ q, _coerce_number raw (unit f) = Ok (Some (FFin q)) ∧ (0 < q)%Q ∧
       (unit f = "percent" → (q <= 100)%Q).
Proof.
  unfold accepts. intros H. apply bind_Ok_inv in H as (v & -> & H).
  destruct v as [[q| |]|]; try discriminate H. cbn [isfinite negb] in H.
  exists q. split; [done|]. case_bool_decide.
  - injection H as H. apply andb_true_iff in H as [H1 H2]. simpl in H1.
    apply Qlt_bool_iff in H1. split; [done|]. intros _.
    unfold fle in H2. apply orb_true_iff in H2 as [H2|H2]; simpl in H2.
    + by apply Qlt_le_weak, Qlt_bool_iff.
    + apply Qeq_bool_iff in H2. rewrite H2. apply Qle_refl.
  - injection H as H. simpl in H. apply Qlt_bool_iff in H. by split; [|intros].
Qed.

(** The reading of the document [describe] publishes: a float is inside it. *)
Definition within_published (doc : mapping) (x : pyfloat) : bool :=
  isfinite x &&
  match vget doc "exclusive_minimum" with VFloat lo => flt lo x | _ => true end &&
  match vget doc "maximum" with VFloat hi => fle x hi | _ => true end.

(** A float intensity is accepted exactly within the limits published for its unit. *)
Lemma accepts_float f x :
  accepts f (VFloat x) = Ok (within_published (describe f) x).
Proof.
  unfold accepts, within_published, describe, flit. cbn [_coerce_number py_float].
  change (round64 0) with (FFin 0). replace (round64 100) with (FFin 100) by (vm_compute; reflexivity).
  destruct x as [q| |]; [|done|done]. simpl.
  destruct (bool_decide (unit f = "percent")); simpl; [done|]. by rewrite andb_true_r.
Qed.

Lemma coerce_total raw u :
  (∀ z, raw = VInt z → 0 <= z < 2 ^ 53) → ∃ o, _coerce_number raw u = Ok o.
Proof.
  intros Hz. destruct raw as [|b|z|f|s|l|d]; simpl; eauto.
  unfold float_of_Z. rewrite round64_Z by eauto. simpl. eauto.
Qed.

Lemma accepts_total f raw :
  (∀ z, raw = VInt z → 0 <= z < 2 ^ 53) → ∃ b, accepts f raw = Ok b.
Proof.
  intros Hz. destruct (coerce_total raw (unit f) Hz) as [o Ho]. unfold accepts. rewrite Ho.
  destruct o as [v|]; simpl; [|eauto]. destruct (negb _); [eauto|]. case_bool_decide; eauto.
Qed.

(** ** Actions *)

Definition intensity_ok (action : ChaosBladeAction) (kf : string * IntensityField) : Prop :=
  ∃ raw, dget kf.1 (intensity action) = Some raw ∧ accepts kf.2 raw = Ok true.

Lemma intensity_loop_nil action l fs fs' :
  foldM (intensity_finding action) fs l = Ok fs' →
  fs' = [] ↔ fs = [] ∧ ∀ kf, kf ∈ l → intensity_ok action kf.
Proof.
  revert fs. induction l as [|[k f] l IH]; intros fs; simpl; intros H.
  - injection H as ->. split; [|by intros []]. intros ->. split; [done|].
    intros kf Hkf. by apply not_elem_of_nil in Hkf.
  - apply bind_Ok_inv in H as (fs1 & H1 & H). apply IH in H as ->.
    setoid_rewrite elem_of_cons. unfold intensity_ok at 2.
    destruct (dget k (intensity action)) as [raw|] eqn:Ek.
    + apply bind_Ok_inv in H1 as (good & Hg & [= <-]).
      rewrite app_eq_nil_iff, check_nil, negb_false_iff. split.
      * intros [[-> ->] Hl]. split; [done|]. intros kf [->|Hkf]; [by exists raw|]. by apply Hl.
      * intros [-> Hl]. destruct (Hl (k, f)) as (raw' & Hr & Ha); [by left|].
        simpl in *. simplify_eq. split; [|intros kf Hkf; apply Hl; by right].
        split; [done|]. congruence.
    + injection H1 as <-. split.
      * intros [[_ ?]%app_nil _]. done.
      * intros [_ Hl]. destruct (Hl (k, f)) as (raw' & Hr & Ha); [by left|]. simpl in *. congruence.
Qed.

Record action_admissible (a : ChaosBladeAction) (p : ControllerPolicy) (n : Z)
    (contract : FaultTypeContract) : Prop := {
  aa_policy : policy_sound p;
  aa_run_id : RUN_ID_RE (run_id a) = true;
  aa_label : dget "benchmark.run_id" (labels a) = Some (run_id a);
  aa_namespace : namespace a ∈ namespace_allowlist p;
  aa_target_namespace : target_namespace (target a) = namespace a;
  aa_kind : kind (target a) = "Pod";
  aa_selector : default [] (selector (target a)) = [];
  aa_uid : uid (target a) ≠ "";
  aa_name : name (target a) ≠ "";
  aa_concurrency : n < 1;
  aa_fault : dget (fault_type a) (fault_type_contracts p) = Some contract;
  aa_duration : 0 < duration_seconds a <= max_fault_duration_seconds p;
  aa_fields : ∀ k, k ∈ dkeys (intensity a) → k ∈ dkeys (intensity_fields contract);
  aa_values : ∀ kf, kf ∈ intensity_fields contract → intensity_ok a kf;
  aa_verifiable : verify_absence (cleanup_gate p) = true }.

Lemma duration_findings_nil a p :
  0 < max_fault_duration_seconds p →
  duration_findings a p = [] ↔ 0 < duration_seconds a <= max_fault_duration_seconds p.
Proof.
  intros Hp. unfold duration_findings. destruct (Z.leb_spec (duration_seconds a) 0).
  - split; [done|lia].
  - rewrite check_nil, Z.ltb_ge. lia.
Qed.

Lemma action_guards_nil a p n :
  policy_sound p →
  action_guards a p n = [] ↔
  RUN_ID_RE (run_id a) = true ∧ dget "benchmark.run_id" (labels a) = Some (run_id a) ∧
  namespace a ∈ namespace_allowlist p ∧ target_namespace (target a) = namespace a ∧
  kind (target a) = "Pod" ∧ default [] (selector (target a)) = [] ∧
  uid (target a) ≠ "" ∧ name (target a) ≠ "" ∧ n < 1.
Proof.
  intros [_ _ _ Hmax Hst Huid Hlab _ _ _ _]. unfold action_guards.
  rewrite Hmax, Hst, Huid, Hlab. cbn [andb]. autorewrite with guards.
  rewrite !nonempty_true.
  assert ((match selector (target a) with
           | Some s => negb (bool_decide (length s = 0%nat)) | None => false end = false)
          ↔ default [] (selector (target a)) = []) as ->; [|tauto].
  destruct (selector (target a)) as [s|]; simpl; [|done].
  by rewrite negb_false_iff, bool_decide_eq_true, length_zero_nil.
Qed.

(** A fault action is accepted exactly when the policy is sound and the action is labelled with
    its run, aimed at one named Pod with a UID in an allowed namespace, alone, within the
    duration limit, and carries exactly the intensity fields its fault type publishes with
    acceptable values. *)
Theorem validate_action_ok_iff a p n r :
  validate_action a p n = Ok r →
  ok r = true ↔ ∃ contract, action_admissible a p n contract.
Proof.
  rewrite ok_true. unfold validate_action.
  destruct (dget (fault_type a) (fault_type_contracts p)) as [contract|] eqn:Ec.
  - intros H. apply bind_Ok_inv in H as (fs & Hfs & [= <-]).
    pose proof (intensity_loop_nil _ _ _ _ Hfs) as Hnil. cbn [findings].
    rewrite app_eq_nil_iff, check_nil, negb_false_iff, Hnil.
    rewrite !app_eq_nil_iff, check_nil, <- (ok_true (validate_policy p)), validate_policy_ok_iff.
    split.
    + intros (((((Hp & Hg) & Hd) & Hu) & Hv) & Hver). exists contract.
      apply (action_guards_nil a p n Hp) in Hg. destruct Hg as (?&?&?&?&?&?&?&?&?).
      apply (duration_findings_nil a p (ps_duration _ Hp)) in Hd.
      split; try done. intros k Hk. apply dmem_true.
      apply not_false_iff_true. intros Hm. apply not_true_iff_false in Hu. apply Hu.
      apply existsb_True. exists k. by rewrite Hm.
    + intros [c' [Hp ? ? ? ? ? ? ? ? ? Hc Hd Hf Hv Hver]]. simplify_eq.
      split; [|done]. split; [|done]. split_and!; [done| | |].
      * apply action_guards_nil; done.
      * apply duration_findings_nil; [by apply ps_duration|done].
      * apply not_true_iff_false. intros (k & Hk & Hn)%existsb_True.
        apply negb_true_iff, dmem_false in Hn. by apply Hn, Hf.
  - intros [= <-]. cbn [findings]. rewrite !app_eq_nil_iff. split; [naive_solver|].
    intros [c' []]. congruence.
Qed.

(** ** Lifecycle *)

Definition lifecycle_step (p q : LifecyclePhase) : Prop :=
  ok (validate_lifecycle_transition p q) = true.

Inductive lifecycle_run : LifecyclePhase → list LifecyclePhase → LifecyclePhase → Prop :=
  | run_nil p : lifecycle_run p [] p
  | run_cons p q ps r : lifecycle_step p q → lifecycle_run q ps r → lifecycle_run p (q :: ps) r.

Definition phase_rank (p : LifecyclePhase) : nat :=
  match p with
  | PREPARE => 0 | QUALIFY => 1 | BASELINE => 2 | PLAN => 3 | EXECUTE => 4
  | OBSERVE => 5 | RECOVER => 6 | EVALUATE => 7 | CLEANUP => 8
  end.

Lemma lifecycle_step_iff p q : lifecycle_step p q ↔ q ∈ ALLOWED_TRANSITIONS p.
Proof.
  unfold lifecycle_step, validate_lifecycle_transition. rewrite ok_true.
  case_bool_decide; simpl; naive_solver.
Qed.

Lemma lifecycle_step_rank p q : lifecycle_step p q → (phase_rank p < phase_rank q)%nat.
Proof.
  rewrite lifecycle_step_iff. destruct p; simpl; rewrite ?elem_of_cons, elem_of_nil;
    intros; destruct_or?; subst; simpl; try lia; done.
Qed.

Lemma lifecycle_run_rank p ps q :
  lifecycle_run p ps q → (phase_rank p + length ps <= phase_rank q)%nat.
Proof.
  induction 1 as [p|p q ps r Hs _ IH]; simpl; [lia|]. apply lifecycle_step_rank in Hs. lia.
Qed.

(** The phases below [PLAN] have one successor besides [CLEANUP]. *)
Lemma lifecycle_step_forward p q :
  lifecycle_step p q → q ≠ CLEANUP → (phase_rank p < 4)%nat →
  phase_rank q = S (phase_rank p).
Proof.
  rewrite lifecycle_step_iff. destruct p; simpl; rewrite ?elem_of_cons, elem_of_nil;
    intros; destruct_or?; subst; simpl; try lia; done.
Qed.

Lemma phase_rank_inj p q : phase_rank p = phase_rank q → p = q.
Proof. destruct p, q; simpl; intros; done. Qed.

Lemma lifecycle_visits p ps q m :
  lifecycle_run p ps q → (phase_rank q = 4)%nat →
  (phase_rank p < phase_rank m <= 4)%nat → m ∈ ps.
Proof.
  induction 1 as [p|p s ps r Hs Hrun IH]; intros Hq Hm; [lia|].
  pose proof (lifecycle_run_rank _ _ _ Hrun) as Hr.
  assert (s ≠ CLEANUP) as Hc by (intros ->; simpl in Hr; lia).
  pose proof (lifecycle_step_forward _ _ Hs Hc ltac:(lia)) as Hf.
  rewrite elem_of_cons. destruct (decide (phase_rank m = phase_rank s)) as [E|E].
  - left. by apply phase_rank_inj.
  - right. apply IH; [done|lia].
Qed.

(** Along the lifecycle transitions the validator accepts, no run is longer than eight steps,
    every phase but CLEANUP can go to CLEANUP in one step, nothing leaves CLEANUP, and a run
    from PREPARE to EXECUTE has passed QUALIFY, BASELINE and PLAN. *)
Theorem lifecycle_sound p ps q :
  lifecycle_run p ps q →
  (length ps <= 8)%nat ∧
  (q ≠ CLEANUP → lifecycle_step q CLEANUP) ∧
  (∀ r, lifecycle_step CLEANUP r → False) ∧
  (p = PREPARE → q = EXECUTE → QUALIFY ∈ ps ∧ BASELINE ∈ ps ∧ PLAN ∈ ps).
Proof.
  intros Hrun. pose proof (lifecycle_run_rank _ _ _ Hrun) as Hr.
  assert (phase_rank q <= 8)%nat by (destruct q; simpl; lia).
  split_and!; [lia| | |].
  - intros Hq. apply lifecycle_step_iff. destruct q; simpl; rewrite ?elem_of_cons; tauto.
  - intros r. rewrite lifecycle_step_iff. simpl. apply not_elem_of_nil.
  - intros -> ->. split_and!; eapply lifecycle_visits; try exact Hrun; simpl; lia.
Qed.

(** ** Agent loss *)

Lemma dt_sub_aware a b x y :
  dt_offset a = Some x → dt_offset b = Some y →
  dt_sub a b = Ok ((dt_wall a - x) - (dt_wall b - y)).
Proof. unfold dt_sub. by intros -> ->. Qed.

Lemma as_utc_offset v : dt_offset (as_utc v) = Some 0.
Proof. unfold as_utc. by destruct (dt_offset v). Qed.

(** The UTC instant, in microseconds, that [as_utc] denotes. *)
Definition instant (v : datetime) : Z := dt_wall (as_utc v).

Lemma dt_sub_instant now v off :
  dt_offset now = Some off → dt_sub now (as_utc v) = Ok (instant now - instant v).
Proof.
  intros Ho. rewrite (dt_sub_aware _ _ _ _ Ho (as_utc_offset v)).
  unfold instant at 1. unfold as_utc at 2. rewrite Ho. simpl. f_equal. unfold instant. lia.
Qed.

(** Once the loss of the Agent calls for clean-up, every later reading of the clock does too. *)
Theorem agent_loss_monotone clock lease policy now now' off off' b' :
  0 <= heartbeat_timeout_seconds (abort_gate policy) →
  0 <= max_runtime_seconds (abort_gate policy) →
  dt_offset now = Some off → dt_offset now' = Some off' →
  instant now <= instant now' →
  should_cleanup_on_agent_loss clock lease policy (Some now) = Ok true →
  should_cleanup_on_agent_loss clock lease policy (Some now') = Ok b' → b' = true.
Proof.
  intros Hh Hr Ho Ho' Hle. unfold should_cleanup_on_agent_loss. cbn [default].
  destruct (negb _ || _); [discriminate|]. case_bool_decide; [discriminate|].
  rewrite !(dt_sub_instant _ _ _ Ho), !(dt_sub_instant _ _ _ Ho'). cbn [mbind result_bind].
  intros Ht Ht'.
  apply bind_Ok_inv in Ht as (f1 & Hf1 & Ht). apply bind_Ok_inv in Ht as (f2 & Hf2 & [= Ht]).
  apply bind_Ok_inv in Ht' as (f1' & Hf1' & Ht').
  apply bind_Ok_inv in Ht' as (f2' & Hf2' & [= <-]).
  apply orb_true_iff in Ht as [Ht|Ht]; apply orb_true_iff; [left|right].
  - eapply total_seconds_exceeds_mono; [exact Hh| |exact Hf1|exact Hf1'|exact Ht]. lia.
  - eapply total_seconds_exceeds_mono; [exact Hr| |exact Hf2|exact Hf2'|exact Ht]. lia.
Qed.

Lemma lifecycle_sound_witness :
  QUALIFY ∈ [QUALIFY; BASELINE; PLAN; EXECUTE] ∧ lifecycle_step EXECUTE CLEANUP.
Proof.
  assert (lifecycle_run PREPARE [QUALIFY; BASELINE; PLAN; EXECUTE] EXECUTE) as H.
  { repeat (eapply run_cons; [vm_compute; reflexivity|]). apply run_nil. }
  destruct (lifecycle_sound _ _ _ H) as (_ & Hc & _ & Hv).
  split; [apply Hv; reflexivity | apply Hc; discriminate].
Defined.

(** A CPU load on one Pod, admissible under the default policy. *)
Definition sample_action : ChaosBladeAction := {|
  run_id := "run-1"; namespace := "otel-demo";
  target := {| target_namespace := "otel-demo"; kind := "Pod"; name := "cart-0"; uid := "u-1";
               selector := None |};
  fault_type := "cpu-load"; duration_seconds := 120;
  intensity := [("cpu_percent", VInt 80)]; labels := [("benchmark.run_id", "run-1")] |}.

Lemma validate_action_ok_iff_witness :
  ∃ contract, action_admissible sample_action (default_policy ["otel-demo"]) 0 contract.
Proof.
  apply (proj1 (validate_action_ok_iff sample_action (default_policy ["otel-demo"]) 0
                  {| findings := [] |} ltac:(vm_compute; reflexivity))).
  reflexivity.
Defined.

(** A run of which nothing has been heard for 21 minutes, and for 25. *)
Definition sample_lease : RunLease := {|
  lease_run_id := "run-1"; phase := OBSERVE;
  started_at := {| dt_wall := 0; dt_offset := Some 0 |};
  last_agent_heartbeat_at := None; active_action_ids := [] |}.

Definition sample_now (minutes : Z) : datetime :=
  {| dt_wall := minutes * 60 * 1000000; dt_offset := Some 0 |}.

Lemma agent_loss_monotone_witness : true = true.
Proof.
  refine (agent_loss_monotone (sample_now 0) sample_lease (default_policy ["otel-demo"])
            (sample_now 21) (sample_now 25) 0 0 true _ _ eq_refl eq_refl _ _ _).
  - vm_compute; discriminate.
  - vm_compute; discriminate.
  - vm_compute; discriminate.
  - vm_compute; reflexivity.
  - vm_compute; reflexivity.
Defined.
