(* ===== verification/ConditionPolicy.v ===== *)
(** * The condition policy ([stage2_service/condition_policy.py])

    The Controller's fixed timing and tolerance for an Agent's effect and recovery
    conditions, the check of an Agent's conditions, and how a condition is judged on two
    workload snapshots, on binary64 numbers. *)

From Stdlib Require Import QArith Lqa.
From S2P Require Import Prelude PyFloat PyVal.

#[local] Open Scope Z_scope.

Definition RECOVERY_MODE : string := "effect_condition".

Definition CONDITION_POLICY : mapping :=
  [("recovery_mode", VStr RECOVERY_MODE); ("safety_ttl_seconds", VInt 1200);
   ("effect_observation_seconds", VInt 300); ("effect_sustain_seconds", VInt 60);
   ("agent_cleanup_seconds", VInt 60); ("recovery_observation_seconds", VInt 180);
   ("recovery_sustain_seconds", VInt 60)].

Definition EFFECT_THRESHOLD_TOLERANCE_RATIO : pyfloat := flit (60 # 100).

Definition RESOURCE_METRICS : list string := ["target_cpu_cores"; "target_memory_mib"].
Definition WORKLOAD_METRICS : list string :=
  ["target_latency_ms"; "target_success_rate"; "target_current_rps"] ++ RESOURCE_METRICS.
Definition EFFECT_OPERATORS : list string :=
  ["increase_by_at_least"; "decrease_by_at_least"; "at_or_above"; "at_or_below"].
Definition RECOVERY_OPERATORS : list string :=
  ["within_baseline_delta"; "at_or_above"; "at_or_below"].

(** [isinstance(v, bool) or not isinstance(v, (int, float))] is its negation. *)
Definition is_number (v : val) : bool :=
  match v with VInt _ | VFloat _ => true | _ => false end.

(** [math.isclose(a, b)] with its default tolerances. *)
Definition isclose (a b : pyfloat) : bool :=
  feq a b ||
  (isfinite a && isfinite b &&
   fle (fabs (fsub a b)) (fmul (flit (1 # 1000000000)) (fmax (fabs a) (fabs b)))).

(** ** Attaching the policy *)

(** One turn of the loop over the two conditions. *)
Definition normalize_condition (value : mapping) (name : string) : mapping :=
  match vget value name with
  | VDict condition =>
      let normalized := ddel "threshold_tolerance_ratio" (ddel "minimum_requests" condition) in
      let normalized :=
        if bool_decide (name = "effect_condition")
        then dset "threshold_tolerance_ratio" (VFloat EFFECT_THRESHOLD_TOLERANCE_RATIO) normalized
        else normalized in
      dset name (VDict normalized) value
  | _ => value
  end.

Definition CONDITION_NAMES : list string := ["effect_condition"; "recovery_condition"].

Definition apply_condition_policy (plan : option mapping) : mapping :=
  let value := ddel "maximum_observation_seconds" (ddel "duration_seconds" (default [] plan)) in
  let value := foldl normalize_condition value CONDITION_NAMES in
  let agent_ttl := vget value "safety_ttl_seconds" in
  let value := dict_update value CONDITION_POLICY in
  if is_none agent_ttl then value else dset "safety_ttl_seconds" agent_ttl value.

(** ** Checking the Agent's conditions *)

(** [isinstance(t, bool) or not isinstance(t, (int, float)) or not isfinite(float(t)) or
    float(t) < 0]; [float] of a huge integer raises. *)
Definition bad_threshold (threshold : val) : result bool :=
  if is_number threshold
  then f ← py_float threshold; Ok (negb (isfinite f) || flt f (FFin 0))
  else Ok true.

Definition bad_tolerance (tolerance : val) : result bool :=
  if is_number tolerance
  then f ← py_float tolerance; Ok (negb (isclose f EFFECT_THRESHOLD_TOLERANCE_RATIO))
  else Ok true.

Definition _validate_condition (raw : val) (name : string) (operators missing : list string)
    : result (list string) :=
  match raw with
  | VDict raw =>
      let missing := missing ++
        guard_list (negb (bool_decide (str_or_empty (vget raw "metric") ∈ WORKLOAD_METRICS)))
          (name +:+ ".metric") in
      let missing := missing ++
        guard_list (negb (bool_decide (str_or_empty (vget raw "operator") ∈ operators)))
          (name +:+ ".operator") in
      bad ← bad_threshold (vget raw "threshold");
      let missing := missing ++ guard_list bad (name +:+ ".threshold") in
      if bool_decide (name = "effect_condition") then
        bad ← bad_tolerance (vget raw "threshold_tolerance_ratio");
        Ok (missing ++ guard_list bad (name +:+ ".threshold_tolerance_ratio"))
      else Ok missing
  | _ => Ok (missing ++ [name])
  end.

Definition validate_condition_plan (plan : mapping) : result (list string) :=
  missing ← _validate_condition (vget plan "effect_condition") "effect_condition"
              EFFECT_OPERATORS [];
  _validate_condition (vget plan "recovery_condition") "recovery_condition"
    RECOVERY_OPERATORS missing.

Definition condition_plan_complete (plan : mapping) : result bool :=
  missing ← validate_condition_plan plan; Ok (empty missing).

Definition condition_policy_summary : mapping :=
  dict_update CONDITION_POLICY
    [("effect_threshold_tolerance_ratio", VFloat EFFECT_THRESHOLD_TOLERANCE_RATIO);
     ("recovery_metric_policy", VStr "final_metric_without_request_count_gate")].

(** ** Judging a condition *)

(** [except (TypeError, ValueError)] *)
Definition type_or_value_error (e : exn) : bool :=
  match exn_class e with TypeError | ValueError => true | _ => false end.

(** [try: r except (TypeError, ValueError): d] *)
Definition or_else {A} (r : result A) (d : A) : result A :=
  match r with
  | Err e => if type_or_value_error e then Ok d else Err e
  | Ok a => Ok a
  end.

Definition _counter_delta (current baseline : val) : result Z :=
  or_else (left ← py_int (py_or current (VInt 0)); right ← py_int (py_or baseline (VInt 0));
           Ok (if right <=? left then left - right else left)) 0.

Definition _number (value : val) : result pyfloat :=
  or_else (py_float (py_or value (VFloat (FFin 0)))) (FFin 0).

(** The value of a metric that is read as it stands. *)
Definition plain_metric (metric : string) (sample : mapping) : result (option pyfloat) :=
  let value := vget sample metric in
  if is_number value then Some <$> py_float value else Ok None.

Definition failures (snapshot : mapping) : val :=
  vget_or snapshot "target_failures" (vget snapshot "cart_failures").

Definition _metric_value (metric : string) (baseline sample : mapping) : result (option pyfloat) :=
  request_delta ← (if bool_decide (metric ∈ ["target_latency_ms"; "target_success_rate"])
                   then _counter_delta (vget sample "target_requests") (vget baseline "target_requests")
                   else Ok 0);
  if bool_decide (metric = "target_latency_ms") then
    s ← _number (vget sample "target_response_sum_ms");
    b ← _number (vget baseline "target_response_sum_ms");
    let response_delta := fsub s b in
    if (0 <? request_delta) && fle (FFin 0) response_delta
    then n ← float_of_Z request_delta; Some <$> fdiv response_delta n
    else plain_metric metric sample
  else if bool_decide (metric = "target_success_rate") then
    failure_delta ← _counter_delta (failures sample) (failures baseline);
    if (0 <? request_delta) && (0 <=? failure_delta) && (failure_delta <=? request_delta)
    then Some <$> div_Z (request_delta - failure_delta) request_delta
    else plain_metric metric sample
  else plain_metric metric sample.

(** The thresholds a tolerance gives. *)
Definition lower_threshold (configured tolerance : pyfloat) : pyfloat :=
  fmul configured (fsub (FFin 1) tolerance).
Definition upper_threshold (configured tolerance : pyfloat) : pyfloat :=
  fmul configured (fadd (FFin 1) tolerance).

(** The chain of operators: whether it matched, and the threshold it used. *)
Definition operator_matches (operator : string) (configured tolerance sample baseline : pyfloat)
    : bool * pyfloat :=
  let lower := lower_threshold configured tolerance in
  let upper := upper_threshold configured tolerance in
  if bool_decide (operator = "increase_by_at_least") then (fle lower (fsub sample baseline), lower)
  else if bool_decide (operator = "decrease_by_at_least") then (fle lower (fsub baseline sample), lower)
  else if bool_decide (operator = "at_or_above") then (fle lower sample, lower)
  else if bool_decide (operator = "at_or_below") then (fle sample upper, upper)
  else if bool_decide (operator = "within_baseline_delta")
       then (fle (fabs (fsub sample baseline)) upper, upper)
  else (false, configured).

Definition opt_float (o : option pyfloat) : val :=
  match o with Some f => VFloat f | None => VNone end.

(** [isinstance(v, (int, float)) and not isinstance(v, bool)] guards [float(v)]. *)
Definition number_or_none (v : val) : result (option pyfloat) :=
  if is_number v then Some <$> py_float v else Ok None.

Definition evaluate_condition (condition baseline sample : mapping) (counter_anchor : option mapping)
    : result (bool * mapping) :=
  m ← vitem condition "metric";
  let metric := py_str m in
  o ← vitem condition "operator";
  let operator := py_str o in
  t ← vitem condition "threshold";
  configured ← py_float t;
  tolerance ← py_float (py_or (vget condition "threshold_tolerance_ratio") (VFloat (FFin 0)));
  let anchor := default baseline counter_anchor in
  request_delta ← _counter_delta (vget sample "target_requests") (vget anchor "target_requests");
  baseline_value ← number_or_none (vget baseline metric);
  sample_value ← _metric_value metric anchor sample;
  let '(matched, effective) := match sample_value, baseline_value with
    | Some s, Some b => operator_matches operator configured tolerance s b
    | _, _ => (false, configured)
    end in
  Ok (matched,
      [("metric", VStr metric); ("operator", VStr operator); ("threshold", VFloat configured);
       ("configured_threshold", VFloat configured); ("effective_threshold", VFloat effective);
       ("threshold_lower_bound", VFloat (lower_threshold configured tolerance));
       ("threshold_upper_bound", VFloat (upper_threshold configured tolerance));
       ("threshold_tolerance_ratio", VFloat tolerance); ("request_delta", VInt request_delta);
       ("metric_available", VBool (bool_decide (is_Some sample_value ∧ is_Some baseline_value)));
       ("baseline_value", opt_float baseline_value); ("observed_value", opt_float sample_value);
       ("matched", VBool matched);
       ("sample_status",
         py_or (vget sample "sample_status")
           (VStr (match vget sample "traffic_observed" with VBool true => "valid"
                  | _ => "insufficient" end)))]).

(** * Properties *)

(** ** The policy belongs to the Controller *)

Lemma NoDup_policy : NoDup (dkeys CONDITION_POLICY).
Proof. vm_compute. repeat constructor; rewrite ?elem_of_cons, ?elem_of_nil; naive_solver. Qed.

(** Every condition of a plan is a dictionary: no key twice. *)
Definition conditions_wf (plan : mapping) : Prop :=
  NoDup (dkeys plan) ∧
  ∀ name c, name ∈ CONDITION_NAMES → vget plan name = VDict c → NoDup (dkeys c).

Definition clean (name : string) (condition : mapping) : mapping :=
  let c := ddel "threshold_tolerance_ratio" (ddel "minimum_requests" condition) in
  if bool_decide (name = "effect_condition")
  then dset "threshold_tolerance_ratio" (VFloat EFFECT_THRESHOLD_TOLERANCE_RATIO) c else c.

Lemma normalize_get value name k :
  vget (normalize_condition value name) k =
  match vget value name with
  | VDict c => if decide (k = name) then VDict (clean name c) else vget value k
  | _ => vget value k
  end.
Proof.
  unfold normalize_condition. destruct (vget value name) eqn:E; try done.
  unfold vget. rewrite dget_dset. by case_decide.
Qed.

Lemma vget_ddel_ne k k' (d : mapping) : k ≠ k' → vget (ddel k' d) k = vget d k.
Proof. intros. unfold vget. by rewrite dget_ddel_ne. Qed.

Lemma vget_update_policy k value : k ∉ dkeys CONDITION_POLICY →
  vget (dict_update value CONDITION_POLICY) k = vget value k.
Proof.
  intros Hk. unfold vget. rewrite dget_dict_update by apply NoDup_policy.
  by rewrite (proj2 (dget_None _ _) Hk).
Qed.

(** What each key of the plan becomes. *)
Lemma policy_get plan k : k ≠ "duration_seconds" → k ≠ "maximum_observation_seconds" →
  vget (apply_condition_policy (Some plan)) k =
  if bool_decide (k = "safety_ttl_seconds") && negb (is_none (vget plan k)) then vget plan k
  else match dget k CONDITION_POLICY with
       | Some v => v
       | None =>
           match bool_decide (k ∈ CONDITION_NAMES), vget plan k with
           | true, VDict c => VDict (clean k c)
           | _, v => v
           end
       end.
Proof.
  intros H1 H2. unfold apply_condition_policy. cbn [from_option].
  set (v0 := ddel "maximum_observation_seconds" _).
  set (v1 := foldl normalize_condition v0 CONDITION_NAMES).
  assert (∀ k, k ≠ "duration_seconds" → k ≠ "maximum_observation_seconds" →
               vget v1 k = match bool_decide (k ∈ CONDITION_NAMES), vget plan k with
                           | true, VDict c => VDict (clean k c) | _, v => v end) as Hv1.
  { clear k H1 H2. intros k H1 H2.
    assert (∀ k, k ≠ "duration_seconds" → k ≠ "maximum_observation_seconds" → vget v0 k = vget plan k)
      as Hv0 by (intros; unfold v0; by rewrite !vget_ddel_ne).
    unfold v1, CONDITION_NAMES. cbn [foldl]. rewrite !normalize_get, !Hv0 by done.
    destruct (bool_decide (k ∈ _)) eqn:Ek.
    - apply bool_decide_eq_true in Ek. rewrite !elem_of_cons, elem_of_nil in Ek.
      destruct Ek as [->|[->|[]]]; cbn;
        by destruct (vget plan "effect_condition"), (vget plan "recovery_condition").
    - apply bool_decide_eq_false in Ek. rewrite !elem_of_cons, elem_of_nil in Ek.
      destruct (decide (k = "recovery_condition")) as [->|]; [naive_solver|].
      destruct (decide (k = "effect_condition")) as [->|]; [naive_solver|].
      by destruct (vget plan "effect_condition"), (vget plan "recovery_condition"). }
  assert (vget v1 "safety_ttl_seconds" = vget plan "safety_ttl_seconds") as Ht by by rewrite Hv1.
  rewrite Ht.
  assert (vget (dict_update v1 CONDITION_POLICY) k =
          match dget k CONDITION_POLICY with Some v => v | None => vget v1 k end) as Hu.
  { unfold vget. rewrite dget_dict_update by apply NoDup_policy. by destruct (dget k CONDITION_POLICY). }
  rewrite <- (Hv1 k) by done. rewrite <- Hu.
  destruct (decide (k = "safety_ttl_seconds")) as [->|Hk].
  - rewrite bool_decide_true by done. cbn [andb].
    destruct (is_none _); cbn [negb]; [done|by rewrite vget_dset_eq].
  - rewrite bool_decide_false by done. cbn [andb].
    destruct (is_none _); [done|by rewrite vget_dset_ne].
Qed.

(** Whatever the Agent's plan says, the timing and the tolerance are the Controller's, the fault
    lifetime is the Agent's only if given, and other keys are untouched. *)
Theorem policy_is_the_controllers plan :
  let plan' := apply_condition_policy (Some plan) in
  (∀ k v, dget k CONDITION_POLICY = Some v → k ≠ "safety_ttl_seconds" → vget plan' k = v) ∧
  vget plan' "safety_ttl_seconds" =
    (if is_none (vget plan "safety_ttl_seconds") then VInt 1200 else vget plan "safety_ttl_seconds") ∧
  (∀ c, vget plan' "effect_condition" = VDict c →
     vget c "threshold_tolerance_ratio" = VFloat EFFECT_THRESHOLD_TOLERANCE_RATIO) ∧
  (∀ k, k ∉ dkeys CONDITION_POLICY → k ∉ CONDITION_NAMES → k ≠ "duration_seconds" →
     k ≠ "maximum_observation_seconds" → vget plan' k = vget plan k).
Proof.
  cbv zeta. split_and!.
  - intros k v Hk Hne. pose proof (dget_Some_elem _ _ _ Hk) as Hin.
    rewrite policy_get, (bool_decide_false _ Hne), Hk; [done| |];
      intros ->; vm_compute in Hk; discriminate.
  - rewrite policy_get by done. cbn. by destruct (is_none _).
  - intros c. rewrite policy_get by done. cbn. destruct (vget plan "effect_condition"); try done.
    intros [= <-]. unfold clean. cbn. apply vget_dset_eq.
  - intros k Hk Hn H1 H2. rewrite policy_get by done.
    rewrite (proj2 (dget_None _ _) Hk). rewrite (bool_decide_false (k ∈ _)) by done.
    rewrite (bool_decide_false (k = _)); [done|]. intros ->. apply Hk. by vm_compute; right; left.
Qed.

(** ** A condition that holds keeps holding as its metric moves its way *)

Definition RISING : list string := ["increase_by_at_least"; "at_or_above"].
Definition FALLING : list string := ["decrease_by_at_least"; "at_or_below"].

Lemma operator_monotone op t r s s' z :
  (op ∈ RISING ∧ fle s s' = true) ∨ (op ∈ FALLING ∧ fle s' s = true) →
  (operator_matches op t r s (FFin z)).1 = true → (operator_matches op t r s' (FFin z)).1 = true.
Proof.
  unfold RISING, FALLING. rewrite !elem_of_cons, !elem_of_nil.
  intros [[[->|[->|[]]] Hs]|[[->|[->|[]]] Hs]]; unfold operator_matches; cbn [fst];
    eval_string_tests; cbn [fst]; intros H.
  - eapply fle_trans; [exact H|by apply fsub_mono_l].
  - by eapply fle_trans.
  - eapply fle_trans; [exact H|by apply fsub_mono_r].
  - by eapply fle_trans.
Qed.

(** What a judgement reports of the values it compared. *)
Lemma evaluate_condition_inv c b s a m d : evaluate_condition c b s a = Ok (m, d) →
  ∃ op t r, vitem c "operator" = Ok op ∧ (∃ v, vitem c "threshold" = Ok v ∧ py_float v = Ok t) ∧
    py_float (py_or (vget c "threshold_tolerance_ratio") (VFloat (FFin 0))) = Ok r ∧
    vget d "operator" = VStr (py_str op) ∧ vget d "matched" = VBool m ∧
    (m = true → ∃ x y, vget d "observed_value" = VFloat x ∧ vget d "baseline_value" = VFloat y) ∧
    ∀ x y, vget d "observed_value" = VFloat x → vget d "baseline_value" = VFloat y →
      m = (operator_matches (py_str op) t r x y).1 ∧
      vget d "effective_threshold" = VFloat (operator_matches (py_str op) t r x y).2.
Proof.
  unfold evaluate_condition. intros H.
  apply bind_Ok_inv in H as (mv & Hm & H). apply bind_Ok_inv in H as (op & Ho & H).
  apply bind_Ok_inv in H as (tv & Ht & H). apply bind_Ok_inv in H as (t & Htf & H).
  apply bind_Ok_inv in H as (r & Hr & H). apply bind_Ok_inv in H as (rd & Hrd & H).
  apply bind_Ok_inv in H as (bv & Hb & H). apply bind_Ok_inv in H as (sv & Hs & H).
  exists op, t, r. destruct sv as [x|], bv as [y|];
    [destruct (operator_matches (py_str op) t r x y) as [m' e] eqn:E| | |];
    injection H as <- <-; (split_and!; [done|by exists tv|done|done|done| |]);
    try (intros Hf; discriminate Hf);
    try (intros x' y' Hx Hy; vm_compute in Hx, Hy; simplify_eq).
  - intros _. by exists x, y.
  - by rewrite E.
Qed.

(** A condition that held against a baseline still holds for any sample whose metric moved
    further in its operator's direction, in floating point. *)
Theorem condition_monotone c b s s' a m' d d' x x' z :
  evaluate_condition c b s a = Ok (true, d) → evaluate_condition c b s' a = Ok (m', d') →
  vget d "observed_value" = VFloat x → vget d' "observed_value" = VFloat x' →
  vget d "baseline_value" = VFloat (FFin z) → vget d' "baseline_value" = VFloat (FFin z) →
  (∃ op, vget d "operator" = VStr op ∧
     ((op ∈ RISING ∧ fle x x' = true) ∨ (op ∈ FALLING ∧ fle x' x = true))) →
  m' = true.
Proof.
  intros H H' Hx Hx' Hz Hz' (op & Hop & Hdir).
  apply evaluate_condition_inv in H as (o & t & r & Ho & (tv & Ht & Htf) & Hr & E & _ & _ & Hm).
  apply evaluate_condition_inv in H' as (o' & t' & r' & Ho' & (tv' & Ht' & Htf') & Hr' & _ & _ & _ & Hm').
  rewrite Hop in E. injection E as ->. rewrite Ho in Ho'. injection Ho' as <-.
  rewrite Ht in Ht'. injection Ht' as <-. rewrite Htf in Htf'. injection Htf' as <-.
  rewrite Hr in Hr'. injection Hr' as <-.
  destruct (Hm _ _ Hx Hz) as [E1 _], (Hm' _ _ Hx' Hz') as [-> _].
  exact (operator_monotone _ _ _ _ _ _ Hdir (eq_sym E1)).
Qed.

(** ** Samples *)

Definition sample_condition : mapping :=
  [("metric", VStr "target_cpu_cores"); ("operator", VStr "increase_by_at_least");
   ("threshold", VInt 1); ("threshold_tolerance_ratio", VFloat EFFECT_THRESHOLD_TOLERANCE_RATIO)].
Definition sample_snapshot (cores : pyfloat) : mapping := [("target_cpu_cores", VFloat cores)].

(** With the tolerance, 0.4 cores more are enough for a threshold of 1. *)
Definition sample_judgement (cores : pyfloat) : result (bool * mapping) :=
  evaluate_condition sample_condition (sample_snapshot (FFin 1)) (sample_snapshot cores) None.

Example sample_judgements :
  fst <$> sample_judgement (flit (3 # 2)) = Ok true ∧
  fst <$> sample_judgement (flit (13 # 10)) = Ok false.
Proof. vm_compute. done. Qed.

Lemma condition_monotone_witness : is_ok (sample_judgement (FFin 2)) = true ∧ true = true.
Proof.
  split; [vm_compute; reflexivity|].
  pose (d q := (ok_or (false, []) (sample_judgement q)).2).
  refine (condition_monotone sample_condition (sample_snapshot (FFin 1))
            (sample_snapshot (flit (3 # 2))) (sample_snapshot (FFin 2)) None true
            (d (flit (3 # 2))) (d (FFin 2)) (flit (3 # 2)) (FFin 2) 1 _ _ _ _ _ _ _);
    try (vm_compute; reflexivity).
  exists "increase_by_at_least". split; [vm_compute; reflexivity|].
  left. split; [left|vm_compute; reflexivity].
Defined.

(** A plan that keeps its own lifetime, and whose timing is replaced. *)
Example policy_keeps_ttl :
  let plan := apply_condition_policy (Some
    [("safety_ttl_seconds", VInt 90); ("agent_cleanup_seconds", VInt 5);
     ("effect_condition", VDict sample_condition)]) in
  vget plan "safety_ttl_seconds" = VInt 90 ∧ vget plan "agent_cleanup_seconds" = VInt 60.
Proof. vm_compute. done. Qed.
