(* ===== verification/ConditionMonitor.v ===== *)
(** * The monitor of the effect condition ([stage2_service/condition_monitor.py])

    A thread of the Controller watches a fault that an Agent created: it waits until the
    fault runs, until its effect has held long enough, and then until somebody ends the
    fault, which it does itself when the approved time and the grace are over. The thread
    that talks to the Agent reports the Agent's clean-up and, in the end, calls [finish].

    Every step of the monitor is appended to a log. What clocks, telemetry and the chaos
    gateway answer is any function of the log, and so are the steps the other threads take
    between two steps of the monitor. What holds the monitor's lock is one step. *)

From Stdlib Require Import QArith.
From S2P Require Import Prelude Hoare PyFloat PyVal PyTime PyIso PyStamp ConditionPolicy.

#[local] Open Scope Z_scope.

(** ** Calls *)

(** The monitor's own thread, and the one that calls [finish]. *)
Inductive Thread := MonitorThread | MainThread.

Inductive Call :=
  | StopIsSet
  | CleanupIsSet
  | WaitStop (seconds : pyfloat)
  | WaitCleanup (seconds : pyfloat)
  | Locked
  | Monotonic (now : pyfloat)
  | UtcNow (now : datetime)
  | Current
  | Baseline (trial_id : string)
  | TargetResource (metric : string)
  | Status (cleanup_handle : string)
  | Reap (cleanup_handle : string)
  | Destroy (thread : Thread) (cleanup_handle : string)
  | RequestRecovery
  | Notify (thread : Thread) (kind : string) (payload : mapping).

(** A step of another thread: [agent_cleanup_requested] under the lock and then its
    [set()], and the steps of [finish]. *)
Inductive External :=
  | CleanupRecorded (now : pyfloat) (occurred_at : datetime)
  | CleanupSet
  | FinishStep.

(** Where the call of [finish] stands. *)
Inductive FinishPC :=
  | NotFinishing
  | Joining
  | Judged (fallback : bool)
  | Destroyed (cleanup : mapping)
  | Reporting
  | Finished.

Record Monitor := {
  _stop : bool;
  _agent_cleanup : bool;
  _agent_cleanup_monotonic : option pyfloat;
  _thread : bool;
  _trial_id : option string;
  _cleanup_handle : option string;
  _resource_baseline : val;
  _emit : bool;
  _result : mapping;
  finish_pc : FinishPC;
  m_log : list Call }.

(** What the monitor is built with, and how the world around it answers. *)
Record World := {
  poll_seconds : pyfloat;
  recovery_request_grace_seconds : pyfloat;
  others : list Call → list External;
  monotonic_clock : list Call → pyfloat;
  utc_clock : list Call → Z;
  workload_current : list Call → result mapping;
  workload_baseline : list Call → result mapping;
  target_resource_value : option (list Call → result val);
  chaos_status : list Call → result mapping;
  chaos_destroy : list Call → result mapping;
  reap_expired : option (list Call → result unit);
  request_recovery : option (list Call → result val);
  emit : list Call → result unit }.

Definition initial_result : mapping :=
  [("schema_version", VStr "stage2-condition-monitor.v1"); ("armed", VBool false);
   ("effect_condition_met", VBool false); ("effect_observation_timed_out", VBool false);
   ("agent_cleanup_requested", VBool false); ("agent_cleanup_timely", VBool false);
   ("agent_cleanup_prompt", VBool false); ("controller_fallback_used", VBool false);
   ("platform_recovery_requested", VBool false)].

(** [ConditionRecoveryMonitor(...)] *)
Definition new_monitor : Monitor :=
  {| _stop := false; _agent_cleanup := false; _agent_cleanup_monotonic := None; _thread := false;
     _trial_id := None; _cleanup_handle := None; _resource_baseline := VNone; _emit := false;
     _result := initial_result; finish_pc := NotFinishing; m_log := [] |}.

Definition OVERTIME_GRACE_SECONDS : Z := 300.
Definition RECOVERY_GRACE_SECONDS : Z := 300.

(** [CONDITION_POLICY\[name\]] *)
Definition policy_seconds (name : string) : Z :=
  match vget CONDITION_POLICY name with VInt n => n | _ => 0 end.

Definition _plan_seconds (plan : mapping) (name : string) (default : Z) : result Z :=
  let value := vget plan name in
  if negb (is_number value) then Ok default
  else n ← py_int value; Ok (Z.max 0 n).

(** ** Changes of the state *)

Definition set_log (f : list Call → list Call) (m : Monitor) : Monitor :=
  {| _stop := _stop m; _agent_cleanup := _agent_cleanup m;
     _agent_cleanup_monotonic := _agent_cleanup_monotonic m; _thread := _thread m;
     _trial_id := _trial_id m; _cleanup_handle := _cleanup_handle m;
     _resource_baseline := _resource_baseline m; _emit := _emit m; _result := _result m;
     finish_pc := finish_pc m; m_log := f (m_log m) |}.
Definition logged (c : Call) : Monitor → Monitor := set_log (λ l, l ++ [c]).
Definition set_result (f : mapping → mapping) (m : Monitor) : Monitor :=
  {| _stop := _stop m; _agent_cleanup := _agent_cleanup m;
     _agent_cleanup_monotonic := _agent_cleanup_monotonic m; _thread := _thread m;
     _trial_id := _trial_id m; _cleanup_handle := _cleanup_handle m;
     _resource_baseline := _resource_baseline m; _emit := _emit m; _result := f (_result m);
     finish_pc := finish_pc m; m_log := m_log m |}.
Definition set_flags (stop cleanup : bool) (at_time : option pyfloat) (m : Monitor) : Monitor :=
  {| _stop := stop; _agent_cleanup := cleanup; _agent_cleanup_monotonic := at_time; _thread := _thread m;
     _trial_id := _trial_id m; _cleanup_handle := _cleanup_handle m;
     _resource_baseline := _resource_baseline m; _emit := _emit m; _result := _result m;
     finish_pc := finish_pc m; m_log := m_log m |}.
Definition set_finish (pc : FinishPC) (m : Monitor) : Monitor :=
  {| _stop := _stop m; _agent_cleanup := _agent_cleanup m;
     _agent_cleanup_monotonic := _agent_cleanup_monotonic m; _thread := _thread m;
     _trial_id := _trial_id m; _cleanup_handle := _cleanup_handle m;
     _resource_baseline := _resource_baseline m; _emit := _emit m; _result := _result m;
     finish_pc := pc; m_log := m_log m |}.

Section monitor.
Context (w : World).

#[local] Abbreviation st := (prog Monitor).

(** ** Single steps *)

(** A call whose answer is [f] of what was logged before it. *)
Definition ask {A} (f : list Call → A) (c : A → Call) : st A := λ m,
  let a := f (m_log m) in (logged (c a) m, Ok a).
Definition ask_result {A} (f : list Call → result A) (c : Call) : st A :=
  a ← ask f (λ _, c); lift a.
Definition catching {A} (body : st A) : st (result A) := λ m,
  let (m', r) := body m in (m', Ok r).
Definition update (items : mapping) : st unit := modify (set_result (λ d, dict_update d items)).

Definition _now_text : st string :=
  t ← ask (λ l, utc_of (utc_clock w l)) UtcNow;
  mret (isoformat t).

(** [try: cleanup = dict(self.chaos.destroy(handle)) except Exception ...] *)
Definition destroy_fault (thread : Thread) : st mapping :=
  handle ← gets (λ m, default "" (_cleanup_handle m));
  cleanup ← catching (ask_result (chaos_destroy w) (Destroy thread handle));
  mret match cleanup with
       | Ok d => d
       | Err e => [("verified_absent", VBool false); ("error_type", VStr (exn_type_name e))]
       end.

Definition record_fallback (reason : string) (cleanup : mapping) : st unit :=
  at_text ← _now_text;
  update [("controller_fallback_used", VBool true); ("controller_fallback_at", VStr at_text);
          ("controller_fallback_reason", VStr reason); ("controller_cleanup", VDict cleanup)].

Definition call_emit (thread : Thread) (kind : string) (payload : mapping) : st unit :=
  armed ← gets _emit;
  when armed (ask_result (emit w) (Notify thread kind payload)).

(** ** The other threads *)

(** The next step of [finish]. *)
Definition finish_step : st unit :=
  pc ← gets finish_pc;
  match pc with
  | NotFinishing =>
      modify (λ m, set_flags true (_agent_cleanup m) (_agent_cleanup_monotonic m) (set_finish Joining m))
  | Joining =>
      current ← gets _result;
      modify (set_finish (Judged (is_true (vget current "armed") &&
        negb (is_true (vget current "agent_cleanup_requested")) &&
        negb (is_true (vget current "controller_fallback_used")) &&
        negb (is_true (vget current "fault_ended_without_cleanup_request")))))
  | Judged false => modify (set_finish Finished)
  | Judged true => cleanup ← destroy_fault MainThread; modify (set_finish (Destroyed cleanup))
  | Destroyed cleanup =>
      record_fallback "agent_session_ended" cleanup;; modify (set_finish Reporting)
  | Reporting =>
      payload ← gets _result;
      modify (set_finish Finished);; call_emit MainThread "controller_condition_cleanup" payload
  | Finished => mret tt
  end.

(** [finish()] when nothing else runs; what the callback raises, it raises. *)
Definition finish : st mapping :=
  finish_step;; finish_step;; finish_step;; finish_step;; finish_step;; gets _result.

Definition external (e : External) : st unit :=
  match e with
  | CleanupRecorded now occurred_at =>
      modify (λ m, set_flags (_stop m) (_agent_cleanup m) (Some now) m);;
      update [("agent_cleanup_requested", VBool true);
              ("agent_cleanup_requested_at", VStr (isoformat occurred_at))]
  | CleanupSet => modify (λ m, set_flags (_stop m) true (_agent_cleanup_monotonic m) m)
  | FinishStep => finish_step
  end.

(** What the other threads do before the next step of the monitor. *)
Definition interleave (m : Monitor) : Monitor := fold_left (λ m e, (external e m).1) (others w (m_log m)) m.
Definition sync : st unit := modify interleave.

(** ** The monitor's steps *)

Definition stop_is_set : st bool := sync;; ask (λ _, tt) (λ _, StopIsSet);; gets _stop.
Definition cleanup_is_set : st bool := sync;; ask (λ _, tt) (λ _, CleanupIsSet);; gets _agent_cleanup.
(** [Event.wait]: the others run while it waits. *)
Definition wait_stop (seconds : pyfloat) : st unit := ask (λ _, tt) (λ _, WaitStop seconds);; sync.
Definition wait_cleanup (seconds : pyfloat) : st bool :=
  ask (λ _, tt) (λ _, WaitCleanup seconds);; sync;; gets _agent_cleanup.
Definition monotonic : st pyfloat := sync;; ask (monotonic_clock w) Monotonic.
Definition _now : st string := sync;; _now_text.
Definition status : st mapping :=
  sync;; handle ← gets (λ m, default "" (_cleanup_handle m)); ask_result (chaos_status w) (Status handle).
(** [with self._lock: body] *)
Definition locked {A} (body : st A) : st A := sync;; ask (λ _, tt) (λ _, Locked);; body.
Definition snapshot : st mapping := locked (gets _result).
Definition notify (kind : string) : st unit :=
  payload ← snapshot; sync;; call_emit MonitorThread kind payload.

(** [not self._stop.is_set() and not self._agent_cleanup.is_set()] *)
Definition undisturbed : st bool :=
  stopped ← stop_is_set;
  if (stopped : bool) then mret false else (cleaned ← cleanup_is_set; mret (negb cleaned)).

Definition _resource_value (plan : mapping) : st val :=
  let metric := match vget plan "effect_condition" with
                | VDict condition => str_or_empty (vget condition "metric")
                | _ => ""
                end in
  match target_resource_value w with
  | Some sampler =>
      if bool_decide (metric ∈ RESOURCE_METRICS) then
        value ← catching (sync;; ask_result sampler (TargetResource metric));
        mret (ok_or VNone value)
      else mret VNone
  | None => mret VNone
  end.

(** [arm(...)]; starting the thread that executes [_run] is what follows it. *)
Definition arm (trial_id cleanup_handle : string) (plan : mapping) : st bool :=
  resource_baseline ← _resource_value plan;
  locked (
    started ← gets _thread;
    if (started : bool) then mret false else
    modify (λ m, {| _stop := _stop m; _agent_cleanup := _agent_cleanup m;
                    _agent_cleanup_monotonic := _agent_cleanup_monotonic m; _thread := true;
                    _trial_id := Some trial_id; _cleanup_handle := Some cleanup_handle;
                    _resource_baseline := resource_baseline; _emit := true; _result := _result m;
                    finish_pc := finish_pc m; m_log := m_log m |});;
    at_text ← _now_text;
    update [("armed", VBool true); ("trial_id", VStr trial_id); ("plan", VDict plan);
            ("armed_at", VStr at_text)];;
    mret true).

(** The answer of the gateway says that the fault runs. *)
Definition running (status : mapping) : bool :=
  let live := match vget status "live" with VDict d => d | _ => [] end in
  is_true (vget status "ever_active") && negb (is_true (vget status "resource_absent")) &&
  (String.eqb (str_lower (str_or_empty (vget status "state"))) "active" ||
   String.eqb (str_lower (str_or_empty (vget status "phase"))) "running" ||
   String.eqb (str_lower (str_or_empty (vget live "phase"))) "running").

(** [None] when the fuel runs out, as in every loop below. *)
Fixpoint _wait_for_running (fuel : nat) : st (option bool) :=
  match fuel with
  | O => mret None
  | S fuel =>
      go_on ← undisturbed;
      if negb (go_on : bool) then mret (Some false) else
      answer ← catching status;
      let status := match answer with Ok d => d | Err e => [("error_type", VStr (exn_type_name e))] end in
      if running status then
        locked (
          at_value ← (if truthy (vget status "started_at") then mret (vget status "started_at")
                      else (at_text ← _now_text; mret (VStr at_text)));
          update [("fault_running_verified", VBool true); ("fault_running_at", at_value)]);;
        notify "condition_monitor_fault_running";;
        mret (Some true)
      else if is_true (vget status "ever_active") && is_true (vget status "resource_absent") then
        locked (update [("fault_disappeared_before_monitoring", VBool true)]);;
        mret (Some false)
      else
        wait_stop (poll_seconds w);;
        _wait_for_running fuel
  end.

Definition _fallback_cleanup (reason : string) : st unit :=
  cleanup ← (sync;; destroy_fault MonitorThread);
  locked (record_fallback reason cleanup);;
  notify "controller_condition_cleanup".

Definition _drive_recovery : st pyfloat :=
  match request_recovery w with
  | None => mret (FFin 0)
  | Some request =>
      cleaned ← cleanup_is_set;
      if (cleaned : bool) then mret (FFin 0) else
      requested_at ← _now;
      answer ← catching (sync;; ask_result request RequestRecovery);
      match answer with
      | Err e =>
          locked (update [("platform_recovery_requested", VBool false);
                          ("platform_recovery_request_error", VStr (exn_type_name e +:+ ": " +:+ exn_msg e))]);;
          notify "platform_recovery_request_failed";;
          mret (FFin 0)
      | Ok answer =>
          let delivered := truthy answer in
          locked (update [("platform_recovery_requested", VBool delivered);
                          ("platform_recovery_requested_at", VStr requested_at)]);;
          if delivered then notify "platform_recovery_requested";; mret (recovery_request_grace_seconds w)
          else notify "platform_recovery_request_undelivered";; mret (FFin 0)
      end
  end.

(** [datetime.fromisoformat(str(v or "").replace("Z", "+00:00"))], UTC unless it says. *)
Definition deadline_of (status : mapping) : option datetime :=
  as_utc <$> fromisoformat (spell_zulu (str_or_empty (vget status "deadline_at"))).

Definition _ended_fault_status : st (option mapping) :=
  answer ← catching status;
  match answer with
  | Err _ => mret None
  | Ok first =>
      if negb (is_true (vget first "ever_active")) then mret None
      else if is_true (vget first "resource_absent") then mret (Some first)
      else match deadline_of first with
      | None => mret None
      | Some deadline =>
          now ← (sync;; ask (λ l, utc_of (utc_clock w l)) UtcNow);
          remaining ← lift (dt_sub deadline now);
          if 0 <? remaining then mret None else
          last ← match reap_expired w with
                 | None => mret first
                 | Some reap =>
                     again ← catching (
                       handle ← (sync;; gets (λ m, default "" (_cleanup_handle m)));
                       ask_result reap (Reap handle);; status);
                     mret (ok_or first again)
                 end;
          mret (Some (dset "fault_timer_expired" (VBool true) last))
      end
  end.

Section await.
Context (fault_started : pyfloat) (effect_met : option pyfloat) (cleanup_seconds ttl : Z) (deadline : pyfloat).

(** The loop of [_await_agent_until_overtime] and what follows it. *)
Fixpoint await_agent (fuel : nat) : st (option unit) :=
  let overtime :=
    stopped ← stop_is_set;
    if (stopped : bool) then mret (Some tt) else
    _fallback_cleanup "platform_overtime_abort";;
    notify "platform_overtime_abort";;
    mret (Some tt) in
  match fuel with
  | O => mret None
  | S fuel =>
      stopped ← stop_is_set;
      if (stopped : bool) then overtime else
      cleaned ← cleanup_is_set;
      if (cleaned : bool) then
        default_now ← monotonic;
        cleaned ← (sync;; gets (λ m, default default_now (_agent_cleanup_monotonic m)));
        locked (
          asked ← gets (λ m, truthy (vget (_result m) "platform_recovery_requested"));
          update [("agent_cleanup_timely",
                     VBool (float_le_int (fsub cleaned fault_started) (ttl + RECOVERY_GRACE_SECONDS)));
                  ("agent_cleanup_prompt",
                     VBool match effect_met with
                           | Some met => float_le_int (fsub cleaned met) cleanup_seconds
                           | None => false
                           end);
                  ("agent_cleanup_after_platform_request", VBool asked)]);;
        notify "agent_condition_cleanup_observed";;
        mret (Some tt)
      else
      ended ← _ended_fault_status;
      match ended with
      | Some ended =>
          arrived ← wait_cleanup (poll_seconds w);
          if (arrived : bool) then await_agent fuel else
          locked (
            at_text ← _now_text;
            update [("fault_ended_without_cleanup_request", VBool true);
                    ("fault_ended_observed_at", VStr at_text);
                    ("fault_end_state", VStr (str_or_empty (py_or (vget ended "ledger_state") (vget ended "state"))))]);;
          notify "fault_end_observed";;
          mret (Some tt)
      | None =>
          now ← monotonic;
          let remaining := fsub deadline now in
          if fle remaining (FFin 0) then overtime else
          wait_cleanup (fmin (poll_seconds w) remaining);;
          await_agent fuel
      end
  end.
End await.

(** [t + n] of a [float] and an [int] *)
Definition float_plus_int (t : pyfloat) (n : Z) : result pyfloat := d ← float_of_Z n; Ok (fadd t d).
(** [fault_started + ttl + OVERTIME_GRACE_SECONDS] *)
Definition overtime_at (started : pyfloat) (ttl : Z) : result pyfloat :=
  t ← float_plus_int started ttl; float_plus_int t OVERTIME_GRACE_SECONDS.

Definition _await_agent_until_overtime (fuel : nat) (plan : mapping) (fault_started : pyfloat)
    (effect_met : option pyfloat) (cleanup_seconds : Z) : st (option unit) :=
  ttl ← lift (_plan_seconds plan "safety_ttl_seconds" (policy_seconds "safety_ttl_seconds"));
  overtime ← lift (overtime_at fault_started ttl);
  grace ← _drive_recovery;
  await_agent fault_started effect_met cleanup_seconds ttl (fadd overtime grace) fuel.

(** One observation of the effect: whether it matches, and the evidence. *)
Definition judge (plan condition baseline : mapping) (resource_metric : string) : st (bool * mapping) :=
  judged ← catching (
    sample ← (sync;; ask_result (workload_current w) Current);
    sample ← (if bool_decide (resource_metric ∈ RESOURCE_METRICS)
              then value ← _resource_value plan; mret (dset resource_metric value sample)
              else mret sample);
    lift (evaluate_condition condition baseline sample None));
  mret match judged with
       | Ok r => r
       | Err e => (false, [("error_type", VStr (exn_type_name e)); ("matched", VBool false)])
       end.

(** [matched_since or now] *)
Definition since_or (matched_since : option pyfloat) (now : pyfloat) : pyfloat :=
  match matched_since with
  | Some t => if feq t (FFin 0) then now else t
  | None => now
  end.

Section observe.
Context (plan condition baseline : mapping) (resource_metric : string)
  (observation_seconds sustain_seconds cleanup_seconds : Z) (started overtime_at : pyfloat).

(** The loop of [_run] and what follows it. *)
Fixpoint observe (fuel : nat) (matched_since : option pyfloat) : st (option unit) :=
  match fuel with
  | O => mret None
  | S fuel' =>
      let after :=
        cleaned ← cleanup_is_set;
        if (cleaned : bool) then
          locked (update [("agent_cleanup_before_effect_condition", VBool true)]);; mret (Some tt)
        else
          stopped ← stop_is_set;
          if (stopped : bool) then mret (Some tt)
          else _await_agent_until_overtime fuel plan started None cleanup_seconds in
      go_on ← undisturbed;
      if negb (go_on : bool) then after else
      '(matched, latest) ← judge plan condition baseline resource_metric;
      now ← monotonic;
      let matched_since := if (matched : bool) then Some (since_or matched_since now) else None in
      if match matched_since with Some t => float_ge_int (fsub now t) sustain_seconds | None => false end then
        met_at ← _now;
        locked (update [("effect_condition_met", VBool true); ("effect_condition_met_at", VStr met_at);
                        ("effect_condition_evidence", VDict latest)]);;
        notify "effect_condition_met";;
        _await_agent_until_overtime fuel plan started (Some now) cleanup_seconds
      else if float_ge_int (fsub now started) observation_seconds then
        locked (
          at_text ← _now_text;
          update [("effect_observation_timed_out", VBool true);
                  ("effect_observation_timed_out_at", VStr at_text);
                  ("effect_condition_evidence", VDict latest)]);;
        notify "effect_observation_timed_out";;
        _await_agent_until_overtime fuel plan started None cleanup_seconds
      else if fle overtime_at now then after
      else
        wait_stop (poll_seconds w);;
        observe fuel' matched_since
  end.
End observe.

(** What the thread executes. *)
Definition _run (fuel : nat) (plan : mapping) : st (option unit) :=
  seen ← _wait_for_running fuel;
  match seen with
  | None => mret None
  | Some false => mret (Some tt)
  | Some true =>
      baseline ← (sync;; trial_id ← gets (λ m, default "None" (_trial_id m));
                  ask_result (workload_baseline w) (Baseline trial_id));
      condition ← lift (py_dict (py_or (vget plan "effect_condition") (VDict [])));
      let resource_metric := str_or_empty (vget condition "metric") in
      resource_baseline ← gets _resource_baseline;
      let baseline := if bool_decide (resource_metric ∈ RESOURCE_METRICS)
                      then dset resource_metric resource_baseline baseline else baseline in
      observation_seconds ← lift (_plan_seconds plan "effect_observation_seconds" (policy_seconds "effect_observation_seconds"));
      sustain_seconds ← lift (_plan_seconds plan "effect_sustain_seconds" (policy_seconds "effect_sustain_seconds"));
      cleanup_seconds ← lift (_plan_seconds plan "agent_cleanup_seconds" (policy_seconds "agent_cleanup_seconds"));
      started ← monotonic;
      ttl ← lift (_plan_seconds plan "safety_ttl_seconds" (policy_seconds "safety_ttl_seconds"));
      overtime ← lift (overtime_at started ttl);
      observe plan condition baseline resource_metric observation_seconds sustain_seconds cleanup_seconds
        started overtime fuel None
  end.
End monitor.
