(* ===== verification/ConditionMonitorProps.v ===== *)
(** * What the monitor of the effect condition promises

    Whatever the other threads, the clocks, telemetry and the gateway do: the monitor ends a
    fault at most once and only when it is overdue, it calls an effect met only when it held
    long enough, and once the clock has passed the deadline it settles the fault. *)

From Stdlib Require Import QArith Lqa.
From S2P Require Import Prelude Hoare PyFloat PyVal PyTime PyIso PyStamp ConditionPolicy ConditionMonitor.

#[local] Open Scope Z_scope.

(** ** Quiet steps

    Most steps neither ask the Agent to recover nor end the fault, and leave alone whether
    the effect was met. *)

Definition watching (c : Call) : Prop :=
  match c with RequestRecovery | Destroy MonitorThread _ => False | _ => True end.

(** A predicate on what was logged that more quiet steps do not break. *)
Definition closed (P : list Call → Prop) : Prop := ∀ new l, P new → Forall watching l → P (new ++ l).

Definition met (m : Monitor) : val := vget (_result m) "effect_condition_met".
Definition ended_alone (m : Monitor) : Prop := vget (_result m) "fault_ended_without_cleanup_request" = VBool true.

(** What quiet steps leave alone: the handle, whether the effect was met, the log so far and
    the flags that were set. *)
Record Frame := {
  fr_handle : string;
  fr_met : val;
  fr_base : list Call;
  fr_stop : bool;
  fr_cleanup : bool;
  fr_ended : Prop }.

(** The monitor has logged [new] since the frame was taken, with [P new]. *)
Definition since (fr : Frame) (P : list Call → Prop) (m : Monitor) : Prop :=
  _cleanup_handle m = Some (fr_handle fr) ∧ met m = fr_met fr ∧
  (fr_stop fr = true → _stop m = true) ∧ (fr_cleanup fr = true → _agent_cleanup m = true) ∧
  (fr_ended fr → ended_alone m) ∧
  ∃ new, m_log m = fr_base fr ++ new ∧ P new.

Definition quiet {A} (p : prog Monitor A) : Prop := ∀ fr P, closed P →
  triple (since fr P) p (λ _, since fr P) (since fr P).

Lemma closed_watching P c new : closed P → watching c → P new → P (new ++ [c]).
Proof. intros HP Hc Hn. by apply HP; [|repeat constructor]. Qed.

Lemma watching_closed : closed (Forall watching).
Proof. intros new l Hn Hl. by apply Forall_app. Qed.

Lemma watch_since_weaken fr (P Q : list Call → Prop) m : (∀ new, P new → Q new) → since fr P m → since fr Q m.
Proof. intros HPQ (? & ? & ? & ? & ? & new & ? & ?). split_and!; [done..|]. exists new. auto. Qed.

Section quiet_rules.
Context {A B : Type}.
Implicit Types (p : prog Monitor A) (f : A → prog Monitor B).

Lemma mquiet_ret (a : A) : quiet (mret a : prog Monitor A).
Proof. intros fr P HP. by apply triple_ret. Qed.

Lemma mquiet_bind p f : quiet p → (∀ a, quiet (f a)) → quiet (p ≫= f).
Proof. intros Hp Hf fr P HP. apply triple_bind with (Q := λ _, since fr P); [by apply Hp|]. intros a. by apply Hf. Qed.

Lemma mquiet_lift (r : result A) : quiet (lift r : prog Monitor A).
Proof. intros fr P HP. apply triple_lift; auto. Qed.

Lemma mquiet_gets (f : Monitor → A) : quiet (gets f).
Proof. intros fr P HP. apply triple_gets; auto. Qed.

Lemma quiet_catching p : quiet p → quiet (catching p).
Proof.
  intros Hp fr P HP s Hs. unfold catching. specialize (Hp fr P HP s Hs).
  destruct (p s) as [s' [a|x]]; done.
Qed.

Lemma quiet_ask (f : list Call → A) c : (∀ a, watching (c a)) → quiet (ask f c).
Proof.
  intros Hc fr P HP s (Hh & He & Hs & Hc1 & Hc2 & new & El & Hn). unfold ask. cbv zeta.
  split_and!; [done..|]. exists (new ++ [c (f (m_log s))]). cbn [m_log logged set_log]. rewrite El, app_assoc.
  split; [done|]. rewrite <- El. by apply closed_watching.
Qed.
End quiet_rules.

(** A change that touches neither the log nor the handle nor the effect's flag, and clears
    no flag. *)
Lemma quiet_modify f : (∀ m, _cleanup_handle (f m) = _cleanup_handle m) → (∀ m, met (f m) = met m) →
  (∀ m, m_log (f m) = m_log m) → (∀ m, _stop m = true → _stop (f m) = true) →
  (∀ m, _agent_cleanup m = true → _agent_cleanup (f m) = true) → (∀ m, ended_alone m → ended_alone (f m)) →
  quiet (modify f).
Proof.
  intros Hh He Hl Hs Hc Ha fr P HP. apply triple_modify. intros s (? & ? & ? & ? & ? & new & ? & ?).
  split_and!; [by rewrite Hh|by rewrite He|auto..|]. exists new. by rewrite Hl.
Qed.

Lemma vget_dict_update_other d items k : k ∉ dkeys items → vget (dict_update d items) k = vget d k.
Proof.
  unfold dict_update. revert d. induction items as [|[k' v] items IH]; intros d Hk; [done|].
  cbn in Hk. apply not_elem_of_cons in Hk as [Hne Hk]. etransitivity; [by apply IH|]. unfold vget.
  by rewrite dget_dset_ne.
Qed.

(** The items of an update that does not take back that the fault ended. *)
Definition keeps_end (items : mapping) : bool :=
  forallb (λ kv, negb (String.eqb kv.1 "fault_ended_without_cleanup_request") || is_true kv.2) items.

Lemma vget_dict_update_end d items : keeps_end items = true → vget d "fault_ended_without_cleanup_request" = VBool true →
  vget (dict_update d items) "fault_ended_without_cleanup_request" = VBool true.
Proof.
  unfold dict_update. revert d. induction items as [|[k v] items IH]; intros d Hk Hd; [done|].
  cbn in Hk. apply andb_true_iff in Hk as [Hv Hk]. apply (IH _ Hk). unfold vget. cbn [fst snd]. rewrite dget_dset.
  case_decide as Hd'; [|exact Hd]. subst k. cbn in Hv. by destruct v as [|[]| | | | | ].
Qed.

Lemma quiet_update items : bool_decide ("effect_condition_met" ∈ dkeys items) = false → keeps_end items = true →
  quiet (update items).
Proof.
  intros Hk%bool_decide_eq_false He. apply quiet_modify; intros m; [done| |done..|].
  - unfold met. cbn [_result set_result]. by apply vget_dict_update_other.
  - by apply vget_dict_update_end.
Qed.

Create HintDb quiet.
#[export] Hint Resolve mquiet_ret mquiet_lift mquiet_gets : quiet.
#[export] Hint Extern 1 (bool_decide _ = false) => reflexivity : quiet.
#[export] Hint Extern 1 (keeps_end _ = true) => reflexivity : quiet.
#[export] Hint Extern 1 (watching _) => exact I : quiet.

(** [quiet] walks through a program and closes what the hints close. *)
Ltac quiet :=
  repeat first
    [ progress eauto 2 with quiet
    | apply mquiet_bind; [|intros ?]
    | apply quiet_catching | apply quiet_ask; intros ?
    | apply quiet_update | apply quiet_modify; intros ?
    | case_match | done ].

Section quiet_programs.
Context (w : World).

Lemma quiet_ask_result {A} (f : list Call → result A) c : watching c → quiet (ask_result f c).
Proof. intros Hc. unfold ask_result. quiet. Qed.
#[local] Hint Resolve quiet_ask_result : quiet.

Lemma quiet_now_text : quiet (_now_text w).
Proof. unfold _now_text. quiet. Qed.
#[local] Hint Resolve quiet_now_text : quiet.

Lemma quiet_record_fallback reason cleanup : quiet (record_fallback w reason cleanup).
Proof. unfold record_fallback. quiet. Qed.
#[local] Hint Resolve quiet_record_fallback : quiet.

Lemma quiet_call_emit thread kind payload : quiet (call_emit w thread kind payload).
Proof. unfold call_emit, when. quiet. Qed.
#[local] Hint Resolve quiet_call_emit : quiet.

Lemma quiet_destroy_main : quiet (destroy_fault w MainThread).
Proof. unfold destroy_fault. quiet. Qed.
#[local] Hint Resolve quiet_destroy_main : quiet.

Lemma quiet_finish_step : quiet (finish_step w).
Proof. unfold finish_step. quiet. Qed.
#[local] Hint Resolve quiet_finish_step : quiet.

Lemma quiet_external e : quiet (external w e).
Proof. unfold external. quiet. Qed.

Lemma quiet_sync : quiet (sync w).
Proof.
  intros fr P HP. apply triple_modify. intros s. unfold interleave.
  generalize (others w (m_log s)). intros l. revert s.
  induction l as [|x l IH]; intros s Hs; [done|]. cbn. apply IH.
  pose proof (quiet_external x fr P HP s Hs) as Hq. destruct (external w x s) as [s' []]; done.
Qed.
End quiet_programs.
#[export] Hint Resolve quiet_ask_result quiet_now_text quiet_record_fallback quiet_call_emit quiet_finish_step quiet_sync : quiet.

Section quiet_steps.
Context (w : World).

Lemma quiet_stop_is_set : quiet (stop_is_set w).
Proof. unfold stop_is_set. quiet. Qed.
Lemma quiet_cleanup_is_set : quiet (cleanup_is_set w).
Proof. unfold cleanup_is_set. quiet. Qed.
Lemma quiet_wait_stop x : quiet (wait_stop w x).
Proof. unfold wait_stop. quiet. Qed.
Lemma quiet_wait_cleanup x : quiet (wait_cleanup w x).
Proof. unfold wait_cleanup. quiet. Qed.
Lemma quiet_monotonic : quiet (monotonic w).
Proof. unfold monotonic. quiet. Qed.
Lemma quiet_now : quiet (_now w).
Proof. unfold _now. quiet. Qed.
Lemma quiet_status : quiet (status w).
Proof. unfold status. quiet. Qed.
Lemma quiet_locked {A} (body : prog Monitor A) : quiet body → quiet (locked w body).
Proof. intros. unfold locked. quiet. Qed.
#[local] Hint Resolve quiet_stop_is_set quiet_cleanup_is_set quiet_wait_stop quiet_wait_cleanup quiet_monotonic
  quiet_now quiet_status quiet_locked : quiet.

Lemma quiet_notify kind : quiet (notify w kind).
Proof. unfold notify, snapshot. quiet. Qed.
Lemma quiet_undisturbed : quiet (undisturbed w).
Proof. unfold undisturbed. quiet. Qed.
Lemma quiet_resource_value plan : quiet (_resource_value w plan).
Proof. unfold _resource_value. quiet. Qed.
#[local] Hint Resolve quiet_notify quiet_undisturbed quiet_resource_value : quiet.

Lemma quiet_wait_for_running fuel : quiet (_wait_for_running w fuel).
Proof. induction fuel as [|fuel IH]; cbn [_wait_for_running]; cbv zeta; quiet; apply quiet_locked; quiet. Qed.
Lemma quiet_ended_fault_status : quiet (_ended_fault_status w).
Proof. unfold _ended_fault_status. quiet. Qed.
Lemma quiet_judge plan condition baseline metric : quiet (judge w plan condition baseline metric).
Proof. unfold judge. quiet. Qed.
End quiet_steps.
#[export] Hint Resolve quiet_stop_is_set quiet_cleanup_is_set quiet_wait_stop quiet_wait_cleanup quiet_monotonic
  quiet_now quiet_status quiet_locked quiet_notify quiet_undisturbed quiet_resource_value quiet_wait_for_running
  quiet_ended_fault_status quiet_judge : quiet.

(** ** What the monitor does to the fault *)

Definition within (h : string) (base : list Call) (P : list Call → Prop) (m : Monitor) : Prop :=
  _cleanup_handle m = Some h ∧ ∃ new, m_log m = base ++ new ∧ P new.

(** The frame of a state. *)
Definition frame_of (h : string) (base : list Call) (m : Monitor) : Frame :=
  {| fr_handle := h; fr_met := met m; fr_base := base; fr_stop := _stop m; fr_cleanup := _agent_cleanup m;
     fr_ended := ended_alone m |}.
Lemma within_since h base P m : within h base P m → since (frame_of h base m) P m.
Proof. intros (? & ?). by split_and!. Qed.
Lemma since_within fr P m : since fr P m → within (fr_handle fr) (fr_base fr) P m.
Proof. intros (? & _ & _ & _ & _ & ?). by split. Qed.

Lemma quiet_within {A} (p : prog Monitor A) h base P : quiet p → closed P →
  triple (within h base P) p (λ _, within h base P) (within h base P).
Proof.
  intros Hp HP s Hs. specialize (Hp _ P HP s (within_since _ _ _ _ Hs)).
  destruct (p s) as [s' []]; apply since_within in Hp; exact Hp.
Qed.

(** A flag that is set stays set. *)
Lemma quiet_stopped {A} (p : prog Monitor A) h base P : quiet p → closed P →
  triple (λ m, within h base P m ∧ _stop m = true) p (λ _ m, within h base P m ∧ _stop m = true)
    (λ m, within h base P m ∧ _stop m = true).
Proof.
  intros Hp HP s [Hs Hst]. specialize (Hp _ P HP s (within_since _ _ _ _ Hs)).
  destruct (p s) as [s' []]; (split; [apply since_within in Hp; exact Hp|]);
    destruct Hp as (_ & _ & Hp & _); auto.
Qed.

Lemma within_weaken h base (P Q : list Call → Prop) m : (∀ new, P new → Q new) → within h base P m → within h base Q m.
Proof. intros HPQ (? & new & ? & ?). split; [done|]. exists new. auto. Qed.

Lemma quiet_within_to {A} (p : prog Monitor A) h base (P Q : list Call → Prop) : quiet p → closed P →
  (∀ new, P new → Q new) → triple (within h base P) p (λ _, within h base Q) (within h base Q).
Proof.
  intros Hp HP HPQ. eapply triple_post; [by apply quiet_within|intros ? s|intros s]; by apply within_weaken.
Qed.

(** Any update of the results, [effect_condition_met] included. *)
Lemma update_within items h base P : triple (within h base P) (update items) (λ _, within h base P) (within h base P).
Proof.
  apply triple_modify. intros s Hs. exact Hs.
Qed.

Lemma ask_within {A} (f : list Call → A) c h base (P : list Call → Prop) (Q : A → list Call → Prop) :
  (∀ a new, P new → Q a (new ++ [c a])) → ∀ E, triple (within h base P) (ask f c) (λ a, within h base (Q a)) E.
Proof.
  intros HQ E s (Hh & new & El & Hn). unfold ask. cbv zeta. split; [done|].
  exists (new ++ [c (f (m_log s))]). cbn [m_log logged set_log]. rewrite El, app_assoc. auto.
Qed.

Section lawful.
Context (w : World) (plan : mapping) (h : string) (base : list Call).

(** The gateway's answer says that the fault runs: it was active once, its resource is not known to
    be gone, and the entry is active or the experiment, as recorded or live, is running. *)
Definition says_running (d : mapping) : Prop :=
  vget d "ever_active" = VBool true ∧ vget d "resource_absent" ≠ VBool true ∧
  (str_lower (str_or_empty (vget d "state")) = "active" ∨
   str_lower (str_or_empty (vget d "phase")) = "running" ∨
   ∃ live, vget d "live" = VDict live ∧ str_lower (str_or_empty (vget live "phase")) = "running").

Lemma running_says d : running d = true → says_running d.
Proof.
  unfold running, says_running. cbv zeta.
  intros [[H1 H2]%andb_true_iff H3]%andb_true_iff. split; [|split].
  - by destruct (vget d "ever_active") as [|[]| | | | |].
  - intros E. by rewrite E in H2.
  - apply orb_true_iff in H3 as [[H3|H3]%orb_true_iff|H3]; apply String.eqb_eq in H3; [by left|right; by left|].
    right. right. destruct (vget d "live") as [| | | | | |live]; try done. by exists live.
Qed.

(** The monitor watched, and the gateway told it that its fault runs. *)
Definition seen (l : list Call) : Prop := Forall watching l ∧ ∃ lA lB d,
  l = lA ++ Status h :: lB ∧ chaos_status w (base ++ lA) = Ok d ∧ says_running d.

Lemma seen_closed : closed seen.
Proof.
  intros new l [Hn (lA & lB & d & -> & Hd & Hr)] Hl. split; [by apply Forall_app|].
  exists lA, (lB ++ l), d. rewrite <- app_assoc. by split_and!.
Qed.

(** The grace that [_drive_recovery] granted, and what it logged. *)
Inductive granted : pyfloat → list Call → Prop :=
  | granted_unasked l : Forall watching l → granted (FFin 0) l
  | granted_asked l l' grace : Forall watching l → Forall watching l' →
      (grace = FFin 0 ∨ grace = recovery_request_grace_seconds w) → granted grace (l ++ RequestRecovery :: l').

(** The reading [now] is past the deadline of a fault watched since [started]. *)
Definition overdue (started grace now : pyfloat) : Prop :=
  ∃ ttl t, _plan_seconds plan "safety_ttl_seconds" (policy_seconds "safety_ttl_seconds") = Ok ttl ∧
    overtime_at started ttl = Ok t ∧ fle (fsub (fadd t grace) now) (FFin 0) = true.

(** What a run of the monitor may log: it never ends the fault, nor asks the Agent to; or, once it was
    told that the fault runs, it reads the clock and watches on; or it ends the fault once, after
    the deadline. *)
Inductive lawful : list Call → Prop :=
  | lawful_waiting l : Forall watching l → lawful l
  | lawful_watched l started grace l1 : seen l → granted grace l1 →
      lawful (l ++ Monotonic started :: l1)
  | lawful_ended l started grace l1 now l2 l3 : seen l → granted grace l1 →
      overdue started grace now → Forall watching l2 → Forall watching l3 →
      lawful (l ++ Monotonic started :: l1 ++ Monotonic now :: l2 ++ Destroy MonitorThread h :: l3).

Definition watched (started grace : pyfloat) (new : list Call) : Prop :=
  ∃ l l1, new = l ++ Monotonic started :: l1 ∧ seen l ∧ granted grace l1.
Definition late (started grace : pyfloat) (new : list Call) : Prop :=
  ∃ l l1 now l2, new = l ++ Monotonic started :: l1 ++ Monotonic now :: l2 ∧ seen l ∧
    granted grace l1 ∧ overdue started grace now ∧ Forall watching l2.
Definition ended (new : list Call) : Prop :=
  ∃ l started grace l1 now l2 l3,
    new = l ++ Monotonic started :: l1 ++ Monotonic now :: l2 ++ Destroy MonitorThread h :: l3 ∧
    seen l ∧ granted grace l1 ∧ overdue started grace now ∧ Forall watching l2 ∧ Forall watching l3.

Lemma granted_closed grace : closed (granted grace).
Proof.
  intros new l Hn Hl. destruct Hn as [l0 H0|l0 l1 grace H0 H1 Hg].
  - apply granted_unasked. by apply Forall_app.
  - rewrite <- app_assoc. cbn. apply granted_asked; [done|by apply Forall_app|done].
Qed.

Lemma watched_closed started grace : closed (watched started grace).
Proof.
  intros new l' (l & l1 & -> & Hl & Hg) Hl'. exists l, (l1 ++ l'). rewrite <- app_assoc. cbn.
  split_and!; [done..|]. by apply granted_closed.
Qed.

Lemma late_closed started grace : closed (late started grace).
Proof.
  intros new l' (l & l1 & now & l2 & -> & Hl & Hg & Ho & Hl2) Hl'. exists l, l1, now, (l2 ++ l').
  rewrite <- !app_assoc. cbn. rewrite <- !app_assoc. split_and!; [done..|]. by apply Forall_app.
Qed.

Lemma ended_closed : closed ended.
Proof.
  intros new l' (l & started & grace & l1 & now & l2 & l3 & -> & Hl & Hg & Ho & Hl2 & Hl3) Hl'.
  exists l, started, grace, l1, now, l2, (l3 ++ l'). rewrite <- !app_assoc. cbn. rewrite <- !app_assoc. cbn.
  rewrite <- !app_assoc. split_and!; [done..|]. by apply Forall_app.
Qed.

Lemma watched_lawful started grace new : watched started grace new → lawful new.
Proof. intros (l & l1 & -> & Hl & Hg). by eapply lawful_watched. Qed.
Lemma late_lawful started grace new : late started grace new → lawful new.
Proof.
  intros (l & l1 & now & l2 & -> & Hl & Hg & _ & Hl2). eapply lawful_watched; [done|].
  eapply granted_closed; [exact Hg|]. by constructor.
Qed.
Lemma ended_lawful new : ended new → lawful new.
Proof. intros (l & ? & ? & l1 & ? & l2 & l3 & -> & ?). eapply lawful_ended; naive_solver. Qed.

Lemma seen_lawful new : seen new → lawful new.
Proof. intros [Hn _]. by apply lawful_waiting. Qed.

#[local] Hint Resolve watching_closed seen_closed seen_lawful granted_closed watched_closed late_closed ended_closed
  lawful_waiting watched_lawful late_lawful ended_lawful : core.

(** A quiet statement first, then the rest. *)
Lemma quiet_then {A B} (p : prog Monitor A) (f : A → prog Monitor B) P Q E : quiet p → closed P →
  (∀ new, P new → E new) → (∀ a, triple (within h base P) (f a) Q (within h base E)) →
  triple (within h base P) (p ≫= f) Q (within h base E).
Proof.
  intros Hp HP HE Hf. eapply triple_bind; [|intros a; apply Hf].
  eapply triple_post; [by apply quiet_within|done|intros s; by apply within_weaken].
Qed.

Lemma quiet_ends {A} (p : prog Monitor A) (P Q : list Call → Prop) : quiet p → closed P → (∀ new, P new → Q new) →
  triple (within h base P) p (λ _, within h base Q) (within h base Q).
Proof. apply quiet_within_to. Qed.

Lemma ret_ends {A} (a : A) (P Q : list Call → Prop) : (∀ new, P new → Q new) →
  triple (within h base P) (mret a) (λ _, within h base Q) (within h base Q).
Proof. intros. apply triple_ret. intros s. by apply within_weaken. Qed.

#[local] Abbreviation fair := (within h base lawful).

Lemma destroy_fault_eq thread s : destroy_fault w thread s =
  (logged (Destroy thread (default "" (_cleanup_handle s))) s,
   Ok match chaos_destroy w (m_log s) with
      | Ok d => d
      | Err e => [("verified_absent", VBool false); ("error_type", VStr (exn_type_name e))]
      end).
Proof.
  cbv [destroy_fault gets catching ask_result ask lift mbind prog_bind mret prog_ret].
  by destruct (chaos_destroy w (m_log s)).
Qed.

Lemma fallback_triple started grace reason :
  triple (within h base (late started grace)) (_fallback_cleanup w reason) (λ _, within h base ended) fair.
Proof.
  unfold _fallback_cleanup. eapply triple_bind with (Q := λ _, within h base ended).
  - eapply quiet_then; [apply quiet_sync|eauto..|]. intros _.
    intros s (Hh & new & El & Hn). rewrite destroy_fault_eq, Hh. cbn [default].
    assert (Hd : within h base ended (logged (Destroy MonitorThread h) s)).
    { split; [done|]. exists (new ++ [Destroy MonitorThread h]).
      cbn [m_log logged set_log]. rewrite El, app_assoc. split; [done|].
      destruct Hn as (l & l1 & now & l2 & -> & ? & ? & ? & ?). exists l, started, grace, l1, now, l2, [].
      rewrite <- !app_assoc. cbn. by rewrite <- !app_assoc. }
    exact Hd.
  - intros cleanup. eapply quiet_then; [apply quiet_locked; eauto with quiet|eauto..|].
    intros _. eapply triple_post; [by apply quiet_within; eauto with quiet|done|].
    intros s. by apply within_weaken; eauto.
Qed.

Lemma monotonic_then {A} (f : pyfloat → prog Monitor A) P R :
  closed P → (∀ new, P new → lawful new) →
  (∀ now, triple (within h base (λ new, ∃ l, new = l ++ [Monotonic now] ∧ P l)) (f now) R fair) →
  triple (within h base P) (monotonic w ≫= f) R fair.
Proof.
  intros HP HE Hf. eapply triple_bind; [|intros now; apply Hf]. unfold monotonic.
  eapply quiet_then; [eauto with quiet..|]. intros _. apply ask_within. eauto.
Qed.

Lemma stop_is_set_triple P : closed P →
  triple (within h base P) (stop_is_set w)
    (λ b m, within h base P m ∧ (b = true → _stop m = true)) (within h base P).
Proof.
  intros HP s Hs. pose proof (quiet_within _ h base P (quiet_stop_is_set w) HP s Hs) as Hq. revert Hq.
  unfold stop_is_set, ask, gets. rewrite !prog_bind_eq. destruct (sync w s) as [s1 [[]|x]]; [|done].
  rewrite !prog_bind_eq. cbv zeta beta iota. intros Hq. split; [exact Hq|auto].
Qed.

Lemma stop_stays_set P : closed P →
  triple (λ m, within h base P m ∧ _stop m = true) (stop_is_set w)
    (λ b m, within h base P m ∧ b = true) (within h base P).
Proof.
  intros HP s Hs. pose proof (quiet_stopped _ h base P (quiet_sync w) HP s Hs) as Hq.
  pose proof (stop_is_set_triple P HP s (proj1 Hs)) as Ht. revert Hq Ht.
  unfold stop_is_set, ask, gets. rewrite !prog_bind_eq. destruct (sync w s) as [s1 [[]|x]]; [|tauto].
  rewrite !prog_bind_eq. cbv zeta beta iota. intros [_ Hq] [Ht _]. split; [exact Ht|exact Hq].
Qed.

Definition overtime_abort : prog Monitor (option unit) :=
  stopped ← stop_is_set w;
  if (stopped : bool) then mret (Some tt) else
  _fallback_cleanup w "platform_overtime_abort";;
  notify w "platform_overtime_abort";;
  mret (Some tt).

Lemma abort_when_stopped P : closed P → (∀ new, P new → lawful new) →
  triple (λ m, within h base P m ∧ _stop m = true) overtime_abort (λ _, fair) fair.
Proof.
  intros HP HE. unfold overtime_abort. eapply triple_bind with (Q := λ b m, within h base P m ∧ b = true).
  - eapply triple_post; [by apply stop_stays_set|done|]. intros s. by apply within_weaken.
  - intros b s [Hs ->]. by apply (within_weaken _ _ P).
Qed.

Lemma abort_when_late started grace :
  triple (within h base (late started grace)) overtime_abort (λ _, fair) fair.
Proof.
  unfold overtime_abort. eapply quiet_then; [eauto with quiet|eauto..|]. intros [].
  - apply ret_ends. eauto.
  - eapply triple_bind with (Q := λ _, within h base ended).
    + apply fallback_triple.
    + intros _. eapply quiet_then; [eauto with quiet|eauto..|]. intros _. apply ret_ends. eauto.
Qed.

Section agent.
Context (started grace : pyfloat) (ttl : Z) (t : pyfloat) (effect_met : option pyfloat) (cleanup_seconds : Z).
Hypothesis Httl : _plan_seconds plan "safety_ttl_seconds" (policy_seconds "safety_ttl_seconds") = Ok ttl.
Hypothesis Ht : overtime_at started ttl = Ok t.

Lemma await_agent_triple fuel :
  triple (within h base (watched started grace))
    (await_agent w started effect_met cleanup_seconds ttl (fadd t grace) fuel) (λ _, fair) fair.
Proof.
  induction fuel as [|fuel IH]; cbn [await_agent]; [by apply ret_ends; eauto|]. fold overtime_abort.
  eapply triple_bind with (Q := λ b m, within h base (watched started grace) m ∧ (b = true → _stop m = true)).
  { eapply triple_post; [apply stop_is_set_triple; eauto|done|]. intros s. apply within_weaken. eauto. }
  intros [].
  { eapply triple_pre; [|apply (abort_when_stopped (watched started grace)); eauto]. intros s []. auto. }
  eapply triple_pre with (P' := within h base (watched started grace)); [by intros s []|].
  eapply quiet_then; [eauto with quiet|eauto..|]. intros [].
  { eapply quiet_ends; [|eauto..]. quiet; apply quiet_locked; quiet. }
  eapply quiet_then; [eauto with quiet|eauto..|]. intros [status|].
  { eapply quiet_then; [eauto with quiet|eauto..|]. intros []; [exact IH|].
    eapply quiet_ends; [|eauto..]. quiet; apply quiet_locked; quiet. }
  apply (monotonic_then _ (watched started grace)); [eauto..|]. intros now. cbv zeta.
  destruct (fle (fsub (fadd t grace) now) (FFin 0)) eqn:Hlate.
  - eapply triple_pre; [|apply (abort_when_late started grace)]. intros s. apply within_weaken.
    intros new (l & -> & l0 & l1 & -> & Hl0 & Hl1). exists l0, l1, now, [].
    rewrite <- app_assoc. split_and!; [done..| |constructor]. by exists ttl, t.
  - eapply triple_pre with (P' := within h base (watched started grace)).
    { intros s. apply within_weaken. intros new (l & -> & Hl). by apply closed_watching; eauto. }
    eapply quiet_then; [eauto with quiet|eauto..|]. intros _. exact IH.
Qed.
End agent.

(** The fault runs and the Agent was not asked yet; it was asked. *)
Definition observing (started : pyfloat) (new : list Call) : Prop :=
  ∃ l l1, new = l ++ Monotonic started :: l1 ∧ seen l ∧ Forall watching l1.
Definition asked (started : pyfloat) (new : list Call) : Prop :=
  ∃ l l1 l2, new = l ++ Monotonic started :: l1 ++ RequestRecovery :: l2 ∧ seen l ∧
    Forall watching l1 ∧ Forall watching l2.

Lemma observing_closed started : closed (observing started).
Proof.
  intros new l' (l & l1 & -> & Hl & Hl1) Hl'. exists l, (l1 ++ l'). rewrite <- app_assoc.
  split_and!; [done..|]. by apply Forall_app.
Qed.
Lemma asked_closed started : closed (asked started).
Proof.
  intros new l' (l & l1 & l2 & -> & Hl & Hl1 & Hl2) Hl'. exists l, l1, (l2 ++ l'). rewrite <- app_assoc. cbn.
  rewrite <- app_assoc. split_and!; [done..|]. by apply Forall_app.
Qed.
Lemma observing_watched started new : observing started new → watched started (FFin 0) new.
Proof. intros (l & l1 & -> & Hl & Hl1). exists l, l1. split_and!; [done..|]. by apply granted_unasked. Qed.
Lemma asked_watched started grace new : grace = FFin 0 ∨ grace = recovery_request_grace_seconds w →
  asked started new → watched started grace new.
Proof.
  intros Hg (l & l1 & l2 & -> & Hl & Hl1 & Hl2). exists l, (l1 ++ RequestRecovery :: l2).
  split_and!; [done..|]. by apply granted_asked.
Qed.
Lemma observing_lawful started new : observing started new → lawful new.
Proof. intros Hn%observing_watched. eauto. Qed.
Lemma asked_lawful started new : asked started new → lawful new.
Proof. intros Hn%(asked_watched _ (FFin 0)); [eauto|by left]. Qed.
#[local] Hint Resolve observing_closed asked_closed observing_watched observing_lawful asked_lawful : core.

Lemma request_triple started (f : list Call → result val) :
  triple (within h base (observing started)) (catching (sync w;; ask_result f RequestRecovery))
    (λ _, within h base (asked started)) fair.
Proof.
  assert (Hc : triple (within h base (observing started)) (sync w;; ask_result f RequestRecovery)
    (λ _, within h base (asked started)) (within h base (asked started))).
  { eapply triple_bind with (Q := λ _, within h base (observing started)).
    - intros s Hs. pose proof (quiet_within _ h base _ (quiet_sync w) (observing_closed started) s Hs) as Hq.
      unfold sync, modify in *. exact Hq.
    - intros _. unfold ask_result. eapply triple_bind with (Q := λ _, within h base (asked started)).
      + apply ask_within. intros _ new (l & l1 & -> & ? & ?). exists l, l1, []. rewrite <- app_assoc. by split_and!.
      + intros a. apply triple_lift; auto. }
  intros s Hs. specialize (Hc s Hs). unfold catching.
  destruct ((sync w;; ask_result f RequestRecovery) s) as [s' []]; exact Hc.
Qed.

Lemma drive_recovery_triple started :
  triple (within h base (observing started)) (_drive_recovery w)
    (λ grace, within h base (watched started grace)) fair.
Proof.
  unfold _drive_recovery. destruct (request_recovery w) as [request|].
  2: { apply triple_ret. intros s. apply within_weaken. eauto. }
  eapply quiet_then; [eauto with quiet|eauto..|]. intros [].
  { apply triple_ret. intros s. apply within_weaken. eauto. }
  eapply quiet_then; [eauto with quiet|eauto..|]. intros requested_at.
  eapply triple_bind; [apply request_triple|]. intros answer. cbv beta.
  assert (Hret : ∀ g, g = FFin 0 ∨ g = recovery_request_grace_seconds w →
    triple (within h base (asked started)) (mret g : prog Monitor pyfloat)
      (λ grace, within h base (watched started grace)) fair).
  { intros g Hg. apply triple_ret. intros s. apply within_weaken. intros new. by apply asked_watched. }
  destruct answer as [answer|e].
  - eapply quiet_then; [apply quiet_locked; quiet|eauto..|]. intros _. cbv zeta.
    destruct (truthy answer); (eapply quiet_then; [eauto with quiet|eauto..|]); intros _; apply Hret; auto.
  - eapply quiet_then; [apply quiet_locked; quiet|eauto..|]. intros _.
    eapply quiet_then; [eauto with quiet|eauto..|]. intros _. apply Hret. auto.
Qed.

Lemma await_until_overtime_triple fuel started effect_met cleanup_seconds :
  triple (within h base (observing started))
    (_await_agent_until_overtime w fuel plan started effect_met cleanup_seconds) (λ _, fair) fair.
Proof.
  unfold _await_agent_until_overtime.
  eapply triple_bind with (Q := λ ttl m, _plan_seconds plan "safety_ttl_seconds" (policy_seconds "safety_ttl_seconds") = Ok ttl ∧
    within h base (observing started) m).
  { apply triple_lift; [by intros s a ? ?|]. intros s. apply within_weaken. eauto. }
  intros ttl. apply triple_pure. intros Httl.
  eapply triple_bind with (Q := λ t m, overtime_at started ttl = Ok t ∧ within h base (observing started) m).
  { apply triple_lift; [by intros s a ? ?|]. intros s. apply within_weaken. eauto. }
  intros t. apply triple_pure. intros Ht.
  eapply triple_bind; [apply drive_recovery_triple|]. intros grace. cbv beta. by apply await_agent_triple.
Qed.

Lemma observe_triple condition baseline metric observation sustain cleanup started overtime fuel : ∀ matched_since,
  triple (within h base (observing started))
    (observe w plan condition baseline metric observation sustain cleanup started overtime fuel matched_since)
    (λ _, fair) fair.
Proof.
  induction fuel as [|fuel IH]; intros matched_since; cbn [observe]; cbv zeta; [by apply ret_ends; eauto|].
  assert (Hafter : triple (within h base (observing started))
    (cleaned ← cleanup_is_set w;
     if (cleaned : bool) then
       locked w (update [("agent_cleanup_before_effect_condition", VBool true)]);; mret (Some tt)
     else
       stopped ← stop_is_set w;
       if (stopped : bool) then mret (Some tt)
       else _await_agent_until_overtime w (S fuel) plan started None cleanup) (λ _, fair) fair).
  { eapply quiet_then; [eauto with quiet|eauto..|]. intros [].
    { eapply quiet_ends; [|eauto..]. quiet; apply quiet_locked; quiet. }
    eapply quiet_then; [eauto with quiet|eauto..|]. intros [].
    { apply ret_ends; eauto. }
    apply await_until_overtime_triple. }
  eapply quiet_then; [eauto with quiet|eauto..|]. intros []; cbn [negb]; [|exact Hafter].
  eapply quiet_then; [eauto with quiet|eauto..|]. intros [matched latest].
  eapply quiet_then; [eauto with quiet|eauto..|]. intros now.
  set (since' := if matched then Some (since_or matched_since now) else None).
  destruct (match since' with Some t => float_ge_int (fsub now t) sustain | None => false end).
  { eapply quiet_then; [eauto with quiet|eauto..|]. intros met_at.
    eapply triple_bind with (Q := λ _, within h base (observing started)).
    - unfold locked. eapply quiet_then; [eauto with quiet|eauto..|]. intros _.
      eapply quiet_then; [by apply quiet_ask|eauto..|]. intros _.
      eapply triple_post; [apply update_within|done|]. intros s. apply within_weaken. eauto.
    - intros _. eapply quiet_then; [eauto with quiet|eauto..|]. intros _. apply await_until_overtime_triple. }
  destruct (float_ge_int (fsub now started) observation).
  { eapply quiet_then; [apply quiet_locked; quiet|eauto..|]. intros _.
    eapply quiet_then; [eauto with quiet|eauto..|]. intros _. apply await_until_overtime_triple. }
  destruct (fle overtime now); [exact Hafter|].
  eapply quiet_then; [eauto with quiet|eauto..|]. intros _. apply IH.
Qed.

(** The answer of the gateway is the one it gives for what was logged before the call. *)
Lemma status_triple :
  triple (within h base (Forall watching)) (catching (status w))
    (λ r, within h base (λ new, Forall watching new ∧ ∀ d, r = Ok d →
       ∃ lA lB, new = lA ++ Status h :: lB ∧ chaos_status w (base ++ lA) = Ok d)) fair.
Proof.
  intros s Hs. pose proof (quiet_within _ h base _ (quiet_sync w) watching_closed s Hs) as Hq. revert Hq.
  unfold catching, status, ask_result, ask, gets, lift. rewrite !prog_bind_eq.
  destruct (sync w s) as [s1 [[]|x]]; [|apply within_weaken; by intros new Hn]. rewrite !prog_bind_eq. cbv zeta beta iota.
  intros (Hh & new & El & Hn). rewrite Hh, El. cbn [default].
  assert (Hw : ∀ r, chaos_status w (base ++ new) = r → within h base (λ new', Forall watching new' ∧
    ∀ d, r = Ok d → ∃ lA lB, new' = lA ++ Status h :: lB ∧ chaos_status w (base ++ lA) = Ok d)
    (logged (Status h) s1)).
  { intros r Er. split; [exact Hh|]. exists (new ++ [Status h]). cbn [m_log logged set_log].
    rewrite El, app_assoc. split; [done|]. split; [by apply Forall_app; repeat constructor|].
    intros d ->. by exists new, []. }
  destruct (chaos_status w (base ++ new)) as [d|e]; by apply Hw.
Qed.

Lemma wait_for_running_triple fuel :
  triple (within h base (Forall watching)) (_wait_for_running w fuel)
    (λ o, within h base (λ new, Forall watching new ∧ (o = Some true → seen new))) fair.
Proof.
  assert (Hret : ∀ o, o ≠ Some true → triple (within h base (Forall watching)) (mret o : prog Monitor (option bool))
    (λ o, within h base (λ new, Forall watching new ∧ (o = Some true → seen new))) fair).
  { intros o Ho. apply triple_ret. intros s. apply within_weaken. intros new Hn. by split. }
  induction fuel as [|fuel IH]; cbn [_wait_for_running]; [by apply Hret|].
  eapply quiet_then; [eauto with quiet|eauto..|]. intros []; cbn [negb]; [|by apply Hret].
  eapply triple_bind; [apply status_triple|]. intros answer. cbv beta zeta.
  destruct (running _) eqn:Hrun.
  - eapply triple_pre with (P' := within h base seen).
    { intros s. apply within_weaken. intros new [Hn Hd]. destruct answer as [d|e]; [|by vm_compute in Hrun].
      destruct (Hd d eq_refl) as (lA & lB & -> & Ha). split; [done|]. exists lA, lB, d.
      split_and!; [done|done|by apply running_says]. }
    eapply quiet_then; [apply quiet_locked; quiet|eauto..|]. intros ?.
    eapply quiet_then; [eauto with quiet|eauto..|]. intros ?.
    apply triple_ret. intros s. apply within_weaken. intros new Hn. split; [apply Hn|done].
  - eapply triple_pre with (P' := within h base (Forall watching)); [intros s; apply within_weaken; by intros new []|].
    match goal with |- triple _ (if ?b then _ else _) _ _ => destruct b end.
    + eapply quiet_then; [apply quiet_locked; quiet|eauto..|]. intros ?. by apply Hret.
    + eapply quiet_then; [eauto with quiet|eauto..|]. intros ?. exact IH.
Qed.

Lemma run_triple fuel : triple (within h base (Forall watching)) (_run w fuel plan) (λ _, fair) fair.
Proof.
  unfold _run. eapply triple_bind; [apply wait_for_running_triple|].
  intros [[]|]; [|apply ret_ends; intros new []; eauto..].
  eapply triple_pre with (P' := within h base seen); [intros s; apply within_weaken; intros new [_ Hs]; auto|].
  eapply quiet_then; [quiet|eauto..|]. intros baseline.
  do 2 (eapply quiet_then; [eauto with quiet|eauto..|]; intros ?). cbv zeta.
  do 3 (eapply quiet_then; [eauto with quiet|eauto..|]; intros ?).
  apply monotonic_then; [eauto..|]. intros started.
  eapply triple_pre with (P' := within h base (observing started)).
  { intros s. apply within_weaken. intros new (l & -> & Hl). by exists l, []. }
  do 2 (eapply quiet_then; [eauto with quiet|eauto..|]; intros ?). apply observe_triple.
Qed.
End lawful.

(** ** Steps that return

    With a callback that does not raise, the steps around the two loops return. *)

Definition returns {A} (p : prog Monitor A) : Prop := ∀ s, ∃ s' a, p s = (s', Ok a).

Section returns_rules.
Context {A B : Type}.
Implicit Types (p : prog Monitor A) (f : A → prog Monitor B).

Lemma returns_ret (a : A) : returns (mret a : prog Monitor A).
Proof. intros s. by exists s, a. Qed.
Lemma returns_gets (f : Monitor → A) : returns (gets f).
Proof. intros s. by eexists _, _. Qed.
Lemma returns_ask (f : list Call → A) c : returns (ask f c).
Proof. intros s. by eexists _, _. Qed.
Lemma returns_catching p : returns (catching p).
Proof. intros s. unfold catching. destruct (p s) as [s' r]. by exists s', r. Qed.
Lemma returns_bind p f : returns p → (∀ a, returns (f a)) → returns (p ≫= f).
Proof.
  intros Hp Hf s. destruct (Hp s) as (s1 & a & E). destruct (Hf a s1) as (s2 & b & E2).
  exists s2, b. by rewrite (run_ok _ _ _ _ _ E).
Qed.
Lemma returns_bind_post p f (Φ : A → Prop) : returns p → (∀ s s' a, p s = (s', Ok a) → Φ a) →
  (∀ a, Φ a → returns (f a)) → returns (p ≫= f).
Proof.
  intros Hp HΦ Hf s. destruct (Hp s) as (s1 & a & E). destruct (Hf a (HΦ _ _ _ E) s1) as (s2 & b & E2).
  exists s2, b. by rewrite (run_ok _ _ _ _ _ E).
Qed.
Lemma returns_lift (r : result A) a : r = Ok a → returns (lift r : prog Monitor A).
Proof. intros -> s. by exists s, a. Qed.
End returns_rules.

Lemma returns_modify f : returns (modify f : prog Monitor unit).
Proof. intros s. by eexists _, _. Qed.
Lemma returns_update items : returns (update items).
Proof. apply returns_modify. Qed.

Create HintDb returns.
#[export] Hint Resolve returns_ret returns_gets returns_ask returns_catching returns_modify returns_update : returns.

Ltac returns := repeat first [ progress eauto 3 with returns | apply returns_bind; [|intros ?] | case_match | done ].

Section returning.
Context (w : World) (emit_ok : ∀ log, emit w log = Ok tt).

Lemma returns_sync : returns (sync w).
Proof. apply returns_modify. Qed.
#[local] Hint Resolve returns_sync : returns.
Lemma returns_stop_is_set : returns (stop_is_set w).
Proof. unfold stop_is_set. returns. Qed.
Lemma returns_cleanup_is_set : returns (cleanup_is_set w).
Proof. unfold cleanup_is_set. returns. Qed.
Lemma returns_wait_stop x : returns (wait_stop w x).
Proof. unfold wait_stop. returns. Qed.
Lemma returns_wait_cleanup x : returns (wait_cleanup w x).
Proof. unfold wait_cleanup. returns. Qed.
Lemma returns_monotonic : returns (monotonic w).
Proof. unfold monotonic. returns. Qed.
Lemma returns_now_text : returns (_now_text w).
Proof. unfold _now_text. returns. Qed.
Lemma returns_now : returns (_now w).
Proof. unfold _now. apply returns_bind; [|intros ?]; [returns|apply returns_now_text]. Qed.
Lemma returns_locked {A} (body : prog Monitor A) : returns body → returns (locked w body).
Proof. intros. unfold locked. returns. Qed.
Lemma returns_call_emit thread kind payload : returns (call_emit w thread kind payload).
Proof.
  unfold call_emit, when. apply returns_bind; [returns|]. intros []; [|returns].
  intros s. exists (logged (Notify thread kind payload) s), tt.
  change (ask_result (emit w) (Notify thread kind payload) s)
    with (logged (Notify thread kind payload) s, emit w (m_log s)). by rewrite emit_ok.
Qed.
#[local] Hint Resolve returns_stop_is_set returns_cleanup_is_set returns_wait_stop returns_wait_cleanup
  returns_monotonic returns_now_text returns_now returns_locked returns_call_emit : returns.

Lemma returns_notify kind : returns (notify w kind).
Proof. unfold notify, snapshot. returns. Qed.
#[local] Hint Resolve returns_notify : returns.
Lemma returns_undisturbed : returns (undisturbed w).
Proof. unfold undisturbed. returns. Qed.
Lemma returns_judge plan condition baseline metric : returns (judge w plan condition baseline metric).
Proof. unfold judge. returns. Qed.
Lemma returns_destroy thread : returns (destroy_fault w thread).
Proof. intros s. rewrite destroy_fault_eq. by eexists _, _. Qed.
#[local] Hint Resolve returns_destroy : returns.
Lemma returns_fallback reason : returns (_fallback_cleanup w reason).
Proof. unfold _fallback_cleanup, record_fallback. returns; apply returns_locked; returns. Qed.
Lemma returns_drive_recovery : returns (_drive_recovery w).
Proof. unfold _drive_recovery. returns; apply returns_locked; returns. Qed.

Lemma aware_sub a b : is_Some (dt_offset a) → is_Some (dt_offset b) → ∃ d, dt_sub a b = Ok d.
Proof. intros [x Hx] [y Hy]. unfold dt_sub. rewrite Hx, Hy. by eexists. Qed.

Lemma returns_ended_fault_status : returns (_ended_fault_status w).
Proof.
  unfold _ended_fault_status. apply returns_bind; [returns|]. intros [first|]; [|returns].
  case_match; [returns|]. case_match; [returns|]. unfold deadline_of.
  destruct (fromisoformat _) as [deadline|]; cbn [fmap option_fmap option_map]; [|returns].
  apply (returns_bind_post _ _ (λ now, is_Some (dt_offset now))); [returns| |].
  { intros s s' now [= _ <-]. by eexists. }
  intros now Hnow. destruct (aware_sub (as_utc deadline) now) as [d Hd]; [|done|].
  { destruct deadline as [wall [o|]]; by eexists. }
  apply returns_bind; [by eapply returns_lift|]. intros ?. returns.
Qed.
End returning.
#[export] Hint Resolve returns_sync returns_stop_is_set returns_cleanup_is_set returns_wait_stop returns_wait_cleanup
  returns_monotonic returns_now_text returns_now returns_locked returns_call_emit returns_notify returns_undisturbed
  returns_judge returns_fallback returns_drive_recovery returns_ended_fault_status : returns.


(** ** The loops end *)

Section settle.
Context (w : World) (h : string) (n : nat).
Hypothesis emit_ok : ∀ log, emit w log = Ok tt.

(** From the [n]-th step on the clock shows at least [t]. *)
Definition clock_passes (t : pyfloat) : Prop :=
  ∃ q, t = FFin q ∧ ∀ log, (n ≤ length log)%nat → ∃ r, monotonic_clock w log = FFin r ∧ (q <= r)%Q.

(** At least [k] steps were made, of a monitor armed with [h]. *)
Definition grown (k : nat) (m : Monitor) : Prop := _cleanup_handle m = Some h ∧ (k ≤ length (m_log m))%nat.

(** Somebody ended the fault or the monitor: the monitor does not just give up. *)
Definition settled (m : Monitor) : Prop :=
  _stop m = true ∨ _agent_cleanup m = true ∨ ended_alone m ∨ Destroy MonitorThread h ∈ m_log m.

#[local] Abbreviation never := (λ _ : Monitor, False).

(** A quiet step that returns keeps what a frame keeps. *)
Lemma calm {A} (p : prog Monitor A) (R : Monitor → Prop) : quiet p → returns p →
  (∀ m m', R m → _cleanup_handle m = Some h → since (frame_of h (m_log m) m) (Forall watching) m' → R m') →
  triple (λ m, _cleanup_handle m = Some h ∧ R m) p (λ _ m, _cleanup_handle m = Some h ∧ R m) never.
Proof.
  intros Hq Hr HR s [Hh Hs].
  assert (Hw : since (frame_of h (m_log s) s) (Forall watching) s).
  { apply within_since. split; [done|]. exists []. rewrite app_nil_r. by split. }
  specialize (Hq _ _ watching_closed s Hw). destruct (Hr s) as (s' & a & E). rewrite E in Hq |- *.
  split; [apply Hq|by eapply HR].
Qed.

Lemma calm_grown {A} (p : prog Monitor A) k : quiet p → returns p → triple (grown k) p (λ _, grown k) never.
Proof.
  intros Hq Hr. apply (calm _ (λ m, k ≤ length (m_log m))%nat Hq Hr).
  intros m m' Hk _ (_ & _ & _ & _ & _ & new & E & _). rewrite E, length_app. cbn. lia.
Qed.

Lemma calm_settled {A} (p : prog Monitor A) : quiet p → returns p →
  triple (λ m, _cleanup_handle m = Some h ∧ settled m) p (λ _ m, _cleanup_handle m = Some h ∧ settled m) never.
Proof.
  intros Hq Hr. apply (calm _ settled Hq Hr).
  intros m m' Hk _ (_ & _ & H1 & H2 & H3 & new & E & _). unfold settled.
  destruct Hk as [Hk|[Hk|[Hk|Hk]]]; [left|right; left|right; right; left|right; right; right]; [by auto..|].
  rewrite E. apply elem_of_app. by left.
Qed.

(** Every test of the flag is a step. *)
Lemma stop_grows k : triple (grown k) (stop_is_set w)
  (λ b m, grown (S k) m ∧ (b = true → _stop m = true)) never.
Proof.
  intros s Hs. pose proof (calm_grown _ k (quiet_sync w) (returns_sync w) s Hs) as Hq. revert Hq.
  unfold stop_is_set, ask, gets. rewrite !prog_bind_eq. destruct (sync w s) as [s1 [[]|x]]; [|done].
  rewrite !prog_bind_eq. cbv zeta beta iota. intros [Hh Hq]. split; [|auto]. split; [exact Hh|].
  cbn [m_log logged set_log]. rewrite length_app. cbn. lia.
Qed.

Lemma cleanup_flag k : triple (grown k) (cleanup_is_set w)
  (λ b m, grown k m ∧ (b = true → _agent_cleanup m = true)) never.
Proof.
  intros s Hs. pose proof (calm_grown _ k (quiet_cleanup_is_set w) (returns_cleanup_is_set w) s Hs) as Hq. revert Hq.
  unfold cleanup_is_set, ask, gets. rewrite !prog_bind_eq. destruct (sync w s) as [s1 [[]|x]]; [|done].
  rewrite !prog_bind_eq. cbv zeta beta iota. intros Hq. split; [exact Hq|auto].
Qed.

Lemma wait_flag x k : triple (grown k) (wait_cleanup w x)
  (λ b m, grown k m ∧ (b = true → _agent_cleanup m = true)) never.
Proof.
  intros s Hs. pose proof (calm_grown _ k (quiet_wait_cleanup w x) (returns_wait_cleanup w x) s Hs) as Hq. revert Hq.
  unfold wait_cleanup. rewrite !prog_bind_eq. destruct (ask _ _ s) as [s1 [[]|e]]; [|done].
  rewrite !prog_bind_eq. destruct (sync w s1) as [s2 [[]|e]]; [|done].
  intros Hq. split; [exact Hq|auto].
Qed.

(** A reading taken late enough shows at least [t]. *)
Lemma monotonic_late k t : clock_passes t → (n ≤ k)%nat →
  triple (grown k) (monotonic w) (λ now m, grown k m ∧ fle t now = true ∧ fle (fsub t now) (FFin 0) = true) never.
Proof.
  intros (q & -> & Hclock) Hk s Hs.
  pose proof (calm_grown _ k (quiet_monotonic w) (returns_monotonic w) s Hs) as Hq. revert Hq.
  pose proof (calm_grown _ k (quiet_sync w) (returns_sync w) s Hs) as Hy. revert Hy.
  unfold monotonic, ask. rewrite !prog_bind_eq. destruct (sync w s) as [s1 [[]|x]]; [|done].
  cbv zeta beta iota. intros [_ Hlen] Hg. split; [exact Hg|].
  destruct (Hclock (m_log s1)) as (r & -> & Hr); [lia|]. split; [by apply fle_FFin|].
  unfold fsub, fneg, fadd. apply round64_sign_neg. rewrite Qred_correct. lra.
Qed.

Lemma settled_ends {A B} (p : prog Monitor A) (b : B) P : quiet p → returns p →
  (∀ m, P m → _cleanup_handle m = Some h ∧ settled m) →
  triple P (p;; mret b) (λ o m, o = b ∧ settled m) never.
Proof.
  intros Hq Hr HP. eapply triple_bind with (Q := λ _ m, _cleanup_handle m = Some h ∧ settled m).
  - eapply triple_pre; [exact HP|by apply calm_settled].
  - intros _. apply triple_ret. by intros s [].
Qed.

Lemma stop_set_reads : triple (λ m, _cleanup_handle m = Some h ∧ _stop m = true) (stop_is_set w)
  (λ b m, b = true ∧ _stop m = true) never.
Proof.
  intros s Hs.
  assert (Hf : triple (λ m, _cleanup_handle m = Some h ∧ _stop m = true) (sync w)
    (λ _ m, _cleanup_handle m = Some h ∧ _stop m = true) never).
  { apply calm; [apply quiet_sync|apply returns_sync|]. intros m m' Hk _ (_ & _ & H1 & _). auto. }
  specialize (Hf s Hs). revert Hf. unfold stop_is_set, ask, gets. rewrite !prog_bind_eq.
  destruct (sync w s) as [s1 [[]|x]]; [|done]. rewrite !prog_bind_eq. cbv zeta beta iota. by intros [_ ?].
Qed.

Lemma abort_settles k : triple (grown k) (overtime_abort w) (λ o m, o = Some tt ∧ settled m) never.
Proof.
  unfold overtime_abort. eapply triple_bind; [apply stop_grows|]. intros [].
  { apply triple_ret. intros s [_ Hs]. split; [done|]. left. auto. }
  eapply triple_bind with (Q := λ _ m, _cleanup_handle m = Some h ∧ settled m).
  - eapply triple_pre with (P' := grown (S k)); [by intros s []|]. unfold _fallback_cleanup.
    eapply triple_bind with (Q := λ _ m, _cleanup_handle m = Some h ∧ settled m).
    + eapply triple_bind; [apply calm_grown; eauto with quiet returns|]. intros _ s [Hh Hs].
      rewrite destroy_fault_eq, Hh. split; [done|]. right. right. right.
      cbn [m_log logged set_log default]. apply elem_of_app. right. by apply list_elem_of_singleton.
    + intros cleanup. eapply triple_bind with (Q := λ _ m, _cleanup_handle m = Some h ∧ settled m).
      * apply calm_settled; [apply quiet_locked; eauto with quiet|].
        unfold record_fallback. apply returns_locked. returns.
      * intros _. apply calm_settled; eauto with quiet returns.
  - intros _. apply settled_ends; [eauto with quiet returns..|auto].
Qed.

Lemma abort_when_set P : (∀ m, P m → _cleanup_handle m = Some h ∧ _stop m = true) →
  triple P (overtime_abort w) (λ o m, o = Some tt ∧ settled m) never.
Proof.
  intros HP. unfold overtime_abort. eapply triple_bind with (Q := λ b m, b = true ∧ _stop m = true).
  - eapply triple_pre; [exact HP|apply stop_set_reads].
  - intros b s [-> Hs]. split; [done|]. by left.
Qed.

(** A quiet step that returns, in a state that is settled. *)
Lemma calm_then {A B} (p : prog Monitor A) (f : A → prog Monitor B) (P : Monitor → Prop) Q : quiet p → returns p →
  (∀ m, P m → _cleanup_handle m = Some h ∧ settled m) →
  (∀ a, triple (λ m, _cleanup_handle m = Some h ∧ settled m) (f a) Q never) → triple P (p ≫= f) Q never.
Proof.
  intros Hq Hr HP Hf. eapply triple_bind; [|exact Hf].
  eapply triple_pre; [exact HP|by apply calm_settled].
Qed.

Lemma cleanup_set_reads : triple (λ m, _cleanup_handle m = Some h ∧ _agent_cleanup m = true) (cleanup_is_set w)
  (λ b m, _cleanup_handle m = Some h ∧ _agent_cleanup m = true ∧ b = true) never.
Proof.
  intros s Hs.
  assert (Hf : triple (λ m, _cleanup_handle m = Some h ∧ _agent_cleanup m = true) (sync w)
    (λ _ m, _cleanup_handle m = Some h ∧ _agent_cleanup m = true) never).
  { apply calm; [apply quiet_sync|apply returns_sync|]. intros m m' Hk _ (_ & _ & _ & H1 & _). auto. }
  specialize (Hf s Hs). revert Hf. unfold cleanup_is_set, ask, gets. rewrite !prog_bind_eq.
  destruct (sync w s) as [s1 [[]|x]]; [|done]. rewrite !prog_bind_eq. cbv zeta beta iota.
  intros [Hh Hc]. by split_and!.
Qed.

Section await_settles.
Context (started : pyfloat) (effect_met : option pyfloat) (cleanup_seconds ttl : Z) (deadline : pyfloat).
Hypothesis passes : clock_passes deadline.

(** What follows once the Agent's clean-up is seen. *)
Definition observe_cleanup : prog Monitor (option unit) :=
  default_now ← monotonic w;
  cleaned ← (sync w;; gets (λ m, default default_now (_agent_cleanup_monotonic m)));
  locked w (
    asked ← gets (λ m, truthy (vget (_result m) "platform_recovery_requested"));
    update [("agent_cleanup_timely",
               VBool (float_le_int (fsub cleaned started) (ttl + RECOVERY_GRACE_SECONDS)));
            ("agent_cleanup_prompt",
               VBool match effect_met with
                     | Some met => float_le_int (fsub cleaned met) cleanup_seconds
                     | None => false
                     end);
            ("agent_cleanup_after_platform_request", VBool asked)]);;
  notify w "agent_condition_cleanup_observed";;
  mret (Some tt).

Lemma observe_cleanup_settles P : (∀ m, P m → _cleanup_handle m = Some h ∧ _agent_cleanup m = true) →
  triple P observe_cleanup (λ o m, o = Some tt ∧ settled m) never.
Proof.
  intros HP. unfold observe_cleanup. apply calm_then; [eauto with quiet returns..| |].
  { intros m Hm. destruct (HP m Hm). split; [done|]. right. by left. }
  intros default_now. apply calm_then; [quiet|returns; apply returns_sync|done|]. intros cleaned.
  apply calm_then; [apply quiet_locked; quiet|apply returns_locked; returns|done|]. intros _.
  apply settled_ends; [eauto with quiet returns..|done].
Qed.

Lemma await_when_set fuel : (0 < fuel)%nat →
  triple (λ m, _cleanup_handle m = Some h ∧ _agent_cleanup m = true)
    (await_agent w started effect_met cleanup_seconds ttl deadline fuel) (λ o m, o = Some tt ∧ settled m) never.
Proof.
  destruct fuel as [|fuel]; [lia|]. intros _. cbn [await_agent]. fold (overtime_abort w).
  eapply triple_bind with (Q := λ b m, (_cleanup_handle m = Some h ∧ _agent_cleanup m = true) ∧ (b = true → _stop m = true)).
  { intros s Hs. pose proof (stop_grows 0 s) as Hg.
    assert (Hc : triple (λ m, _cleanup_handle m = Some h ∧ _agent_cleanup m = true) (stop_is_set w)
      (λ _ m, _cleanup_handle m = Some h ∧ _agent_cleanup m = true) never).
    { apply calm; [eauto with quiet returns..|]. intros m m' Hk _ (_ & _ & _ & H1 & _). auto. }
    specialize (Hc s Hs). destruct (stop_is_set w s) as [s1 [b|x]]; [|done]. split; [done|].
    destruct Hg as [_ Hg]; [split; [apply Hs|lia]|done]. }
  intros [].
  - apply abort_when_set. intros m [[Hh _] Hs]. auto.
  - eapply triple_pre with (P' := λ m, _cleanup_handle m = Some h ∧ _agent_cleanup m = true); [by intros m []|].
    eapply triple_bind; [apply cleanup_set_reads|]. intros b. cbv beta.
    destruct b; [|by intros s (_ & _ & ?)]. apply observe_cleanup_settles. by intros m (? & ? & _).
Qed.

Lemma await_settles fuel : ∀ k, (2 ≤ fuel)%nat → (n + 2 ≤ fuel + k)%nat →
  triple (grown k) (await_agent w started effect_met cleanup_seconds ttl deadline fuel)
    (λ o m, o = Some tt ∧ settled m) never.
Proof.
  induction fuel as [|fuel IH]; intros k H2 Hk; [lia|]. cbn [await_agent]. fold (overtime_abort w).
  eapply triple_bind; [apply stop_grows|]. intros [].
  { apply abort_when_set. intros m [[Hh _] Hs]. auto. }
  eapply triple_pre with (P' := grown (S k)); [by intros m []|].
  eapply triple_bind; [apply cleanup_flag|]. intros [].
  { apply observe_cleanup_settles. intros m [[Hh _] Hc]. auto. }
  eapply triple_pre with (P' := grown (S k)); [by intros m []|].
  eapply triple_bind; [apply calm_grown; eauto with quiet returns|]. intros [status|]; cbv beta.
  - eapply triple_bind; [apply wait_flag|]. intros [].
    { eapply triple_pre; [|apply await_when_set; lia]. intros m [[Hh _] Hc]. auto. }
    eapply triple_pre with (P' := grown (S k)); [by intros m []|].
    eapply triple_bind with (Q := λ _ m, _cleanup_handle m = Some h ∧ settled m).
    + unfold locked. eapply triple_bind; [apply calm_grown; eauto with quiet returns|]. intros []. cbv beta.
      eapply triple_bind; [apply calm_grown; [by apply quiet_ask|apply returns_ask]|]. intros []. cbv beta.
      eapply triple_bind; [apply calm_grown; eauto with quiet returns|]. intros at_text s [Hh _].
      cbn. split; [exact Hh|]. right. right. left. unfold ended_alone. cbn [_result set_result].
      unfold dict_update. cbn. unfold vget. rewrite !dget_dset. by repeat case_decide.
    + intros _. apply settled_ends; [eauto with quiet returns..|done].
  - destruct (decide (n ≤ S k)%nat) as [Hn|Hn].
    + eapply triple_bind; [by apply (monotonic_late _ deadline)|]. intros now. cbv beta zeta.
      intros s (Hs & _ & Hlate). rewrite Hlate. by apply (abort_settles (S k)).
    + eapply triple_bind; [apply calm_grown; eauto with quiet returns|]. intros now. cbv beta zeta.
      destruct (fle (fsub deadline now) (FFin 0)); [apply abort_settles|].
      eapply triple_bind; [apply calm_grown; eauto with quiet returns|]. intros ?. apply IH; lia.
Qed.
End await_settles.

Lemma request_grows k (f : list Call → result val) :
  triple (grown k) (catching (sync w;; ask_result f RequestRecovery)) (λ _, grown k) never.
Proof.
  intros s Hs. pose proof (calm_grown _ k (quiet_sync w) (returns_sync w) s Hs) as Hq. revert Hq.
  unfold catching, ask_result, ask, lift. rewrite !prog_bind_eq. destruct (sync w s) as [s1 [[]|x]]; [|done].
  rewrite !prog_bind_eq. cbv zeta beta iota. intros [Hh Hl]. split; [exact Hh|].
  cbn [m_log logged set_log]. rewrite length_app. lia.
Qed.

Lemma drive_recovery_grows k : triple (grown k) (_drive_recovery w)
  (λ g m, (g = FFin 0 ∨ g = recovery_request_grace_seconds w) ∧ grown k m) never.
Proof.
  unfold _drive_recovery. destruct (request_recovery w) as [request|]; [|apply triple_ret; auto].
  eapply triple_bind; [apply calm_grown; eauto with quiet returns|]. intros []; [apply triple_ret; auto|].
  eapply triple_bind; [apply calm_grown; eauto with quiet returns|]. intros requested_at. cbv beta.
  eapply triple_bind; [apply request_grows|]. cbv beta zeta. intros [answer|e].
  - eapply triple_bind; [apply calm_grown; [apply quiet_locked; quiet|apply returns_locked; returns]|]. intros [].
    destruct (truthy answer); (eapply triple_bind; [apply calm_grown; eauto with quiet returns|]); intros [];
      apply triple_ret; auto.
  - eapply triple_bind; [apply calm_grown; [apply quiet_locked; quiet|apply returns_locked; returns]|]. intros [].
    eapply triple_bind; [apply calm_grown; eauto with quiet returns|]. intros []. apply triple_ret. auto.
Qed.

Section observe_settles.
Context (plan condition baseline : mapping) (metric : string) (observation sustain cleanup ttl : Z)
  (started overtime : pyfloat).
Hypothesis Httl : _plan_seconds plan "safety_ttl_seconds" (policy_seconds "safety_ttl_seconds") = Ok ttl.
Hypothesis Ht : overtime_at started ttl = Ok overtime.
Hypothesis passes_overtime : clock_passes overtime.
Hypothesis passes_deadline : clock_passes (fadd overtime (FFin 0)).
Hypothesis passes_grace : clock_passes (fadd overtime (recovery_request_grace_seconds w)).

Lemma await_until_overtime_settles fuel k effect_met : (2 ≤ fuel)%nat → (n + 2 ≤ fuel + k)%nat →
  triple (grown k) (_await_agent_until_overtime w fuel plan started effect_met cleanup)
    (λ o m, o = Some tt ∧ settled m) never.
Proof.
  intros H2 Hk. unfold _await_agent_until_overtime. rewrite Httl. intros s Hs.
  rewrite (run_lift _ ttl _ _ eq_refl), (run_lift _ overtime _ _ Ht). revert s Hs.
  eapply triple_bind; [apply drive_recovery_grows|]. intros g. apply triple_pure.
  intros [->| ->]; by apply await_settles.
Qed.

Lemma undisturbed_grows k : triple (grown k) (undisturbed w)
  (λ b m, grown (S k) m) never.
Proof.
  unfold undisturbed. eapply triple_bind; [apply stop_grows|]. intros [].
  - apply triple_ret. by intros s [].
  - eapply triple_pre with (P' := grown (S k)); [by intros m []|].
    eapply triple_bind; [apply calm_grown; eauto with quiet returns|]. intros b. by apply triple_ret.
Qed.

Lemma observe_settles fuel : ∀ k matched_since, (3 ≤ fuel)%nat → (n + 3 ≤ fuel + k)%nat →
  triple (grown k)
    (observe w plan condition baseline metric observation sustain cleanup started overtime fuel matched_since)
    (λ o m, o = Some tt ∧ settled m) never.
Proof.
  induction fuel as [|fuel IH]; intros k matched_since H3 Hk; [lia|]. cbn [observe]. cbv zeta.
  assert (Hafter : triple (grown (S k))
    (cleaned ← cleanup_is_set w;
     if (cleaned : bool) then
       locked w (update [("agent_cleanup_before_effect_condition", VBool true)]);; mret (Some tt)
     else
       stopped ← stop_is_set w;
       if (stopped : bool) then mret (Some tt)
       else _await_agent_until_overtime w (S fuel) plan started None cleanup) (λ o m, o = Some tt ∧ settled m) never).
  { eapply triple_bind; [apply cleanup_flag|]. intros [].
    { apply settled_ends; [apply quiet_locked; quiet|apply returns_locked; returns|].
      intros m [[Hh _] Hc]. split; [done|]. right. left. auto. }
    eapply triple_pre with (P' := grown (S k)); [by intros m []|].
    eapply triple_bind; [apply stop_grows|]. intros [].
    { apply triple_ret. intros m [_ Hm]. split; [done|]. left. auto. }
    eapply triple_pre with (P' := grown (S (S k))); [by intros m []|].
    apply await_until_overtime_settles; lia. }
  eapply triple_bind; [apply undisturbed_grows|]. intros []; cbn [negb]; [|exact Hafter].
  eapply triple_bind; [apply calm_grown; eauto with quiet returns|]. intros [matched latest]. cbv beta iota.
  eapply triple_bind with (Q := λ now m, (n ≤ S k → fle overtime now = true)%nat ∧ grown (S k) m).
  { destruct (decide (n ≤ S k)%nat) as [Hn|Hn].
    - eapply triple_post; [by apply (monotonic_late _ overtime)| |done]. intros now m (? & ? & _). auto.
    - eapply triple_post; [apply calm_grown; eauto with quiet returns| |done]. intros now m Hm. split; [lia|exact Hm]. }
  intros now. apply triple_pure. intros Hnow.
  set (since' := if matched then Some (since_or matched_since now) else None).
  destruct (match since' with Some t => float_ge_int (fsub now t) sustain | None => false end).
  { eapply triple_bind; [apply calm_grown; eauto with quiet returns|]. intros met_at. cbv beta.
    eapply triple_bind with (Q := λ _, grown (S k)).
    - unfold locked. eapply triple_bind; [apply calm_grown; eauto with quiet returns|]. intros []. cbv beta.
      eapply triple_bind; [apply calm_grown; [by apply quiet_ask|apply returns_ask]|]. intros []. cbv beta.
      apply triple_modify. intros s Hs. exact Hs.
    - intros ?. eapply triple_bind; [apply calm_grown; eauto with quiet returns|]. intros [].
      apply await_until_overtime_settles; lia. }
  destruct (float_ge_int (fsub now started) observation).
  { eapply triple_bind; [apply calm_grown; [apply quiet_locked; quiet|apply returns_locked; returns]|]. intros []. cbv beta.
    eapply triple_bind; [apply calm_grown; eauto with quiet returns|]. intros []. apply await_until_overtime_settles; lia. }
  destruct (fle overtime now) eqn:Hle; [exact Hafter|].
  eapply triple_bind; [apply calm_grown; eauto with quiet returns|]. intros [].
  apply IH; destruct (decide (n ≤ S k)%nat) as [Hn|Hn]; try lia; by rewrite (Hnow Hn) in Hle.
Qed.
End observe_settles.
End settle.

(** ** Programs that change the monitor only in one way *)

(** The state after the program is related to the state before it. *)
Definition moves {A} (R : relation Monitor) (p : prog Monitor A) : Prop := ∀ s, R s (p s).1.

Section moves_rules.
Context {A B : Type} (R : relation Monitor) `{!PreOrder R}.
Implicit Types (p : prog Monitor A) (f : A → prog Monitor B).
Lemma moves_ret (a : A) : moves R (mret a : prog Monitor A).
Proof. by intros s. Qed.
Lemma moves_gets (f : Monitor → A) : moves R (gets f).
Proof. by intros s. Qed.
Lemma moves_lift (r : result A) : moves R (lift r : prog Monitor A).
Proof. by intros s. Qed.
Lemma steps_bind p f : moves R p → (∀ a, moves R (f a)) → moves R (p ≫= f).
Proof.
  intros Hp Hf s. rewrite prog_bind_eq. specialize (Hp s). destruct (p s) as [s1 [a|e]]; [|done].
  etrans; [exact Hp|apply Hf].
Qed.
Lemma moves_catching p : moves R p → moves R (catching p).
Proof. intros Hp s. specialize (Hp s). unfold catching. by destruct (p s). Qed.
End moves_rules.

(** The other threads between two steps. *)
Lemma moves_sync R `{!PreOrder R} w : (∀ e, moves R (external w e)) → moves R (sync w).
Proof.
  intros He s. unfold sync, modify, interleave. cbn [fst]. generalize (others w (m_log s)). intros l. revert s.
  induction l as [|e l IH]; intros s; [done|]. cbn. etrans; [apply He|apply IH].
Qed.

Create HintDb moves.
#[export] Hint Resolve moves_ret moves_gets moves_lift : moves.
#[export] Hint Extern 2 (PreOrder _) => apply _ : moves.

(** [moving step] walks through a program; [step] knows the calls and the updates. *)
Ltac moving step :=
  repeat first [ progress eauto 3 with moves | apply steps_bind; [solve [apply _]| |intros ?]
               | apply moves_catching | step | case_match | done ].

(** ** At most one destruction by [finish] *)

Definition finish_destroys (l : list Call) : nat :=
  count (λ c, match c with Destroy MainThread _ => true | _ => false end) l.
(** The destructions of [finish], and the one it may still ask for. *)
Definition at_most (m : Monitor) : nat :=
  (finish_destroys (m_log m) + match finish_pc m with NotFinishing | Joining | Judged _ => 1 | _ => 0 end)%nat.
Definition spends (m m' : Monitor) : Prop := (at_most m' ≤ at_most m)%nat.

#[export] Instance spends_preorder : PreOrder spends.
Proof. split; [by intros m; unfold spends|]. intros m1 m2 m3. unfold spends. lia. Qed.

Lemma finish_destroys_snoc l c : finish_destroys (l ++ [c]) = (finish_destroys l + finish_destroys [c])%nat.
Proof. unfold finish_destroys, count. by rewrite List.filter_app, length_app. Qed.

Lemma spends_ask {A} (f : list Call → A) c : (∀ a, finish_destroys [c a] = 0%nat) → moves spends (ask f c).
Proof.
  intros Hc s. unfold ask, spends, at_most. cbn [fst m_log finish_pc logged set_log].
  rewrite finish_destroys_snoc, Hc. lia.
Qed.
Lemma spends_modify f : (∀ m, m_log (f m) = m_log m) → (∀ m, finish_pc (f m) = finish_pc m) → moves spends (modify f).
Proof. intros Hl Hp s. unfold spends, at_most. cbn. by rewrite Hl, Hp. Qed.
Lemma spends_update items : moves spends (update items).
Proof. by apply spends_modify. Qed.
#[export] Hint Resolve spends_update : moves.

Ltac spending := moving ltac:(first [apply spends_ask; intros ?; reflexivity | apply spends_modify; intros ?; reflexivity]).

Section spending.
Context (w : World).

Lemma spends_now_text : moves spends (_now_text w).
Proof. unfold _now_text. spending. Qed.
#[local] Hint Resolve spends_now_text : moves.
Lemma spends_call_emit thread kind payload : moves spends (call_emit w thread kind payload).
Proof. unfold call_emit, when, ask_result. spending. Qed.
#[local] Hint Resolve spends_call_emit : moves.

Lemma spends_to pc s : (match pc with NotFinishing | Joining | Judged _ => False | _ => True end) →
  spends s (set_finish pc s).
Proof. unfold spends, at_most. intros H. cbn [m_log finish_pc set_finish]. destruct pc; try done; lia. Qed.

Lemma spends_finish_step : moves spends (finish_step w).
Proof.
  intros s. unfold finish_step. rewrite prog_bind_eq. unfold gets at 1. destruct (finish_pc s) as [| |[]|cleanup| |] eqn:Epc.
  - unfold spends, at_most. cbn [fst modify m_log finish_pc set_finish set_flags]. rewrite Epc. lia.
  - rewrite prog_bind_eq. unfold gets at 1. unfold spends, at_most.
    cbn [fst modify m_log finish_pc set_finish]. rewrite Epc. lia.
  - rewrite prog_bind_eq, destroy_fault_eq. unfold spends, at_most.
    cbn [fst modify m_log finish_pc set_finish logged set_log]. rewrite Epc, finish_destroys_snoc. cbn. lia.
  - by apply spends_to.
  - rewrite prog_bind_eq. assert (moves spends (record_fallback w "agent_session_ended" cleanup)) as H by (unfold record_fallback; spending).
    specialize (H s). destruct (record_fallback w "agent_session_ended" cleanup s) as [s1 [[]|x]]; [|done].
    etrans; [exact H|]. by apply spends_to.
  - rewrite prog_bind_eq. unfold gets at 1. rewrite prog_bind_eq. cbn [modify].
    etrans; [by apply (spends_to Finished)|]. apply spends_call_emit.
  - done.
Qed.
Lemma spends_sync : moves spends (sync w).
Proof. apply moves_sync; [apply _|]. intros []; [unfold external; spending..|apply spends_finish_step]. Qed.
#[local] Hint Resolve spends_sync : moves.
Lemma spends_locked {A} (body : prog Monitor A) : moves spends body → moves spends (locked w body).
Proof. intros. unfold locked. spending. Qed.
#[local] Hint Resolve spends_locked : moves.
Lemma spends_stop_is_set : moves spends (stop_is_set w).
Proof. unfold stop_is_set. spending. Qed.
Lemma spends_cleanup_is_set : moves spends (cleanup_is_set w).
Proof. unfold cleanup_is_set. spending. Qed.
Lemma spends_wait_stop x : moves spends (wait_stop w x).
Proof. unfold wait_stop. spending. Qed.
Lemma spends_wait_cleanup x : moves spends (wait_cleanup w x).
Proof. unfold wait_cleanup. spending. Qed.
Lemma spends_monotonic : moves spends (monotonic w).
Proof. unfold monotonic. spending. Qed.
Lemma spends_status : moves spends (status w).
Proof. unfold status, ask_result. spending. Qed.
Lemma spends_notify kind : moves spends (notify w kind).
Proof. unfold notify, snapshot. spending. Qed.
#[local] Hint Resolve spends_stop_is_set spends_cleanup_is_set spends_wait_stop spends_wait_cleanup
  spends_monotonic spends_status spends_notify : moves.
Lemma spends_undisturbed : moves spends (undisturbed w).
Proof. unfold undisturbed. spending. Qed.
#[local] Hint Resolve spends_undisturbed : moves.
Lemma spends_wait_for_running fuel : moves spends (_wait_for_running w fuel).
Proof. induction fuel as [|fuel IH]; cbn [_wait_for_running]; cbv zeta; spending. Qed.
Lemma spends_judge plan condition baseline metric : moves spends (judge w plan condition baseline metric).
Proof. unfold judge, _resource_value, ask_result. spending. Qed.
Lemma spends_drive_recovery : moves spends (_drive_recovery w).
Proof. unfold _drive_recovery, _now, ask_result. spending. Qed.
Lemma spends_ended_fault_status : moves spends (_ended_fault_status w).
Proof. unfold _ended_fault_status, ask_result. spending. Qed.
Lemma spends_abort : moves spends (overtime_abort w).
Proof.
  unfold overtime_abort, _fallback_cleanup, record_fallback, destroy_fault, ask_result. spending.
Qed.
#[local] Hint Resolve spends_wait_for_running spends_judge spends_drive_recovery spends_ended_fault_status spends_abort : moves.
Lemma spends_await_agent started effect_met cleanup ttl deadline fuel :
  moves spends (await_agent w started effect_met cleanup ttl deadline fuel).
Proof.
  induction fuel as [|fuel IH]; cbn [await_agent]; cbv zeta; fold (overtime_abort w); spending.
Qed.
#[local] Hint Resolve spends_await_agent : moves.
Lemma spends_observe plan condition baseline metric observation sustain cleanup started overtime fuel : ∀ matched_since,
  moves spends (observe w plan condition baseline metric observation sustain cleanup started overtime fuel matched_since).
Proof.
  induction fuel as [|fuel IH]; intros matched_since; cbn [observe]; cbv zeta; unfold _await_agent_until_overtime, _now;
    spending.
Qed.
#[local] Hint Resolve spends_observe : moves.
Lemma spends_run fuel plan : moves spends (_run w fuel plan).
Proof. unfold _run, ask_result. cbv zeta. spending. Qed.
End spending.

(** ** The effect held *)

(** No sample of the workload was taken between two states. *)
Definition idle_call (c : Call) : Prop := match c with Current => False | _ => True end.
Definition idle (m m' : Monitor) : Prop := ∃ l, m_log m' = m_log m ++ l ∧ Forall idle_call l.
#[local] Abbreviation resting := (moves idle).

#[export] Instance idle_preorder : PreOrder idle.
Proof.
  split.
  - intros m. exists []. by rewrite app_nil_r.
  - intros m1 m2 m3 (l1 & E1 & H1) (l2 & E2 & H2). exists (l1 ++ l2). rewrite E2, E1, app_assoc.
    split; [done|by apply Forall_app].
Qed.

Lemma resting_ask {A} (f : list Call → A) c : (∀ a, idle_call (c a)) → resting (ask f c).
Proof. intros Hc s. eexists [_]. split; [done|]. by repeat constructor. Qed.
Lemma resting_modify f : (∀ m, m_log (f m) = m_log m) → resting (modify f).
Proof. intros Hf s. exists []. cbn. by rewrite Hf, app_nil_r. Qed.

Ltac resting := moving ltac:(first [apply resting_ask; intros ?; exact I | apply resting_modify; intros ?; reflexivity]).

Section held.
Context (w : World).

Lemma resting_finish_step : resting (finish_step w).
Proof.
  unfold finish_step, record_fallback, _now_text, call_emit, when, destroy_fault, ask_result, update. resting.
Qed.
Lemma resting_sync : resting (sync w).
Proof. apply moves_sync; [apply _|]. intros []; [unfold external, update; resting..|apply resting_finish_step]. Qed.
#[local] Hint Resolve resting_sync : moves.
Lemma resting_undisturbed : resting (undisturbed w).
Proof. unfold undisturbed, stop_is_set, cleanup_is_set. resting. Qed.
Lemma resting_wait_stop x : resting (wait_stop w x).
Proof. unfold wait_stop. resting. Qed.

Context (plan condition baseline : mapping) (metric : string).

(** Every sample that was taken from the reading [t] to the reading [u] of the clock matched. *)
Inductive holding (t : pyfloat) : Monitor → pyfloat → Prop :=
  | holding_first s s1 s2 latest :
      judge w plan condition baseline metric s = (s1, Ok (true, latest)) → monotonic w s1 = (s2, Ok t) →
      holding t s2 t
  | holding_next s u s' s1 s2 latest u' : holding t s u → idle s s' →
      judge w plan condition baseline metric s' = (s1, Ok (true, latest)) → monotonic w s1 = (s2, Ok u') →
      holding t s2 u'.

Definition held_long (sustain : Z) : Prop :=
  ∃ s t u, holding t s u ∧ float_ge_int (fsub u t) sustain = true.

(** The effect counts as met only if it held long enough. *)
Definition honest (sustain : Z) (m : Monitor) : Prop :=
  _cleanup_handle m ≠ None ∧ (met m = VBool true → held_long sustain).

Lemma quiet_met {A} (p : prog Monitor A) s : quiet p → _cleanup_handle s ≠ None →
  met (p s).1 = met s ∧ _cleanup_handle (p s).1 ≠ None.
Proof.
  intros Hq Hh. destruct (_cleanup_handle s) as [h|] eqn:E; [|done].
  specialize (Hq (frame_of h (m_log s) s) (Forall watching) watching_closed s).
  destruct (p s) as [s' []]; cbn [fst]; (destruct Hq as (H1 & H2 & _);
    [apply within_since; split; [done|]; exists []; by rewrite app_nil_r|split; [exact H2|by rewrite H1]]).
Qed.

Lemma quiet_honest {A} (p : prog Monitor A) sustain : quiet p →
  triple (honest sustain) p (λ _, honest sustain) (honest sustain).
Proof.
  intros Hq s [Hh Hm]. destruct (quiet_met p s Hq Hh) as [E Hh']. revert E Hh'.
  destruct (p s) as [s' []]; cbn [fst]; intros E Hh'; (split; [exact Hh'|by rewrite E]).
Qed.

Lemma request_honest sustain (f : list Call → result val) :
  triple (honest sustain) (catching (sync w;; ask_result f RequestRecovery)) (λ _, honest sustain) (honest sustain).
Proof.
  intros s Hs. pose proof (quiet_honest (sync w) sustain (quiet_sync w) s Hs) as Hq. revert Hq.
  unfold catching, ask_result, ask, lift. rewrite !prog_bind_eq. by destruct (sync w s) as [s1 [[]|x]].
Qed.

(** From here on nothing says that the effect is met. *)
Ltac honestly := eapply triple_bind; [apply quiet_honest; first [progress eauto with quiet|quiet; apply quiet_locked; quiet|quiet]|].

Lemma drive_recovery_honest sustain : triple (honest sustain) (_drive_recovery w) (λ _, honest sustain) (honest sustain).
Proof.
  unfold _drive_recovery. destruct (request_recovery w) as [request|]; [|by apply triple_ret].
  honestly. intros []; [by apply triple_ret|]. honestly. intros at_text.
  eapply triple_bind; [apply request_honest|]. intros [answer|e]; cbv zeta.
  - eapply triple_bind; [apply quiet_honest, quiet_locked; quiet|]. intros [].
    apply quiet_honest. quiet.
  - eapply triple_bind; [apply quiet_honest, quiet_locked; quiet|]. intros []. apply quiet_honest. quiet.
Qed.

Lemma overtime_honest sustain : triple (honest sustain) (overtime_abort w) (λ _, honest sustain) (honest sustain).
Proof.
  unfold overtime_abort. honestly. intros []; [by apply triple_ret|].
  eapply triple_bind with (Q := λ _, honest sustain).
  - unfold _fallback_cleanup. eapply triple_bind with (Q := λ _, honest sustain).
    + honestly. intros ? s Hs. rewrite destroy_fault_eq. exact Hs.
    + intros cleanup. honestly. intros ?. apply quiet_honest. eauto with quiet.
  - intros ?. honestly. intros ?. by apply triple_ret.
Qed.

Lemma await_honest sustain started effect_met cleanup ttl deadline fuel :
  triple (honest sustain) (await_agent w started effect_met cleanup ttl deadline fuel)
    (λ _, honest sustain) (honest sustain).
Proof.
  induction fuel as [|fuel IH]; cbn [await_agent]; [by apply triple_ret|]. fold (overtime_abort w).
  honestly. intros []; [apply overtime_honest|]. honestly. intros [].
  { apply quiet_honest. quiet; apply quiet_locked; quiet. }
  honestly. intros [status|].
  - honestly. intros []; [exact IH|]. unfold locked.
    eapply triple_bind with (Q := λ _, honest sustain).
    + honestly. intros ?. eapply triple_bind; [apply quiet_honest; by apply quiet_ask|]. intros ?. cbv beta.
      apply quiet_honest. quiet.
    + intros ?. honestly. intros ?. by apply triple_ret.
  - honestly. intros now. cbv zeta. case_match; [apply overtime_honest|]. honestly. intros ?. exact IH.
Qed.

Lemma await_until_overtime_honest sustain fuel started effect_met cleanup :
  triple (honest sustain) (_await_agent_until_overtime w fuel plan started effect_met cleanup)
    (λ _, honest sustain) (honest sustain).
Proof.
  unfold _await_agent_until_overtime. eapply triple_bind with (Q := λ _, honest sustain); [by apply triple_lift|].
  intros ttl. eapply triple_bind with (Q := λ _, honest sustain); [by apply triple_lift|].
  intros t. eapply triple_bind; [apply drive_recovery_honest|]. intros grace. apply await_honest.
Qed.

(** The loop remembers since when the effect holds. *)
Definition remembers (sustain : Z) (matched_since : option pyfloat) (m : Monitor) : Prop :=
  honest sustain m ∧ ∀ t, matched_since = Some t → ∃ s u, holding t s u ∧ idle s m.

Lemma resting_remembers {A} (p : prog Monitor A) sustain matched_since : quiet p → resting p →
  triple (remembers sustain matched_since) p (λ _, remembers sustain matched_since) (honest sustain).
Proof.
  intros Hq Hr s [Hs Hm]. pose proof (quiet_honest p sustain Hq s Hs) as Hh. specialize (Hr s).
  destruct (p s) as [s' [a|e]]; [|exact Hh]. split; [exact Hh|]. intros t Ht.
  destruct (Hm t Ht) as (s0 & u & H1 & H2). exists s0, u. split; [done|]. by etrans.
Qed.

(** A sample, and the reading of the clock that follows it. *)
Lemma sample_remembers {A} sustain matched_since (f : bool → mapping → pyfloat → prog Monitor A) R :
  (∀ matched latest now,
     let since' := if matched : bool then Some (since_or matched_since now) else None in
     triple (λ m, honest sustain m ∧ ∀ t, since' = Some t → ∃ s, holding t s now ∧ idle s m)
       (f matched latest now) R (honest sustain)) →
  triple (remembers sustain matched_since)
    ('(matched, latest) ← judge w plan condition baseline metric; now ← monotonic w; f matched latest now)
    R (honest sustain).
Proof.
  intros Hf s [Hs Hm]. rewrite prog_bind_eq.
  destruct (returns_judge w plan condition baseline metric s) as (s1 & [matched latest] & E1).
  destruct (returns_monotonic w s1) as (s2 & now & E2).
  pose proof (quiet_honest _ sustain (quiet_judge w plan condition baseline metric) s Hs) as H1. rewrite E1 in H1.
  pose proof (quiet_honest _ sustain (quiet_monotonic w) s1 H1) as H2. rewrite E2 in H2.
  rewrite E1, (run_ok _ _ _ _ _ E2). apply Hf. split; [exact H2|]. intros t Ht.
  exists s2. split; [|reflexivity]. destruct matched; [|done]. injection Ht as <-.
  destruct matched_since as [t|]; cbn [since_or]; [|by eapply holding_first].
  destruct (feq t (FFin 0)); [by eapply holding_first|].
  destruct (Hm t eq_refl) as (s0 & u & Hu & Hi). by eapply holding_next.
Qed.

Lemma observe_honest observation sustain cleanup started overtime fuel : ∀ matched_since,
  triple (remembers sustain matched_since)
    (observe w plan condition baseline metric observation sustain cleanup started overtime fuel matched_since)
    (λ _, honest sustain) (honest sustain).
Proof.
  induction fuel as [|fuel IH]; intros matched_since; cbn [observe]; cbv zeta; [by apply triple_ret; intros s []|].
  assert (Hafter : triple (honest sustain)
    (cleaned ← cleanup_is_set w;
     if (cleaned : bool) then
       locked w (update [("agent_cleanup_before_effect_condition", VBool true)]);; mret (Some tt)
     else
       stopped ← stop_is_set w;
       if (stopped : bool) then mret (Some tt)
       else _await_agent_until_overtime w (S fuel) plan started None cleanup) (λ _, honest sustain) (honest sustain)).
  { honestly. intros []. { apply quiet_honest. quiet; apply quiet_locked; quiet. }
    honestly. intros []; [by apply triple_ret|]. apply await_until_overtime_honest. }
  eapply triple_bind; [apply resting_remembers; [eauto with quiet|apply resting_undisturbed]|].
  intros []; cbn [negb]; [|eapply triple_pre; [|exact Hafter]; by intros s []].
  apply sample_remembers. intros matched latest now since'.
  fold since'.
  destruct (match since' with Some t => float_ge_int (fsub now t) sustain | None => false end) eqn:Hlong.
  { destruct since' as [t|]; [|done].
    eapply triple_pre with (P' := λ m, held_long sustain ∧ honest sustain m).
    { intros s [Hs Hm]. split; [|done]. destruct (Hm t eq_refl) as (s0 & Hh & _). by exists s0, t, now. }
    apply triple_pure. intros Hheld. honestly. intros met_at.
    eapply triple_bind with (Q := λ _, honest sustain).
    - unfold locked. honestly. intros ?. eapply triple_bind; [apply quiet_honest; by apply quiet_ask|]. intros ?. cbv beta.
      apply triple_modify. intros s [Hh _]. by split.
    - intros ?. honestly. intros ?. apply await_until_overtime_honest. }
  destruct (float_ge_int (fsub now started) observation).
  { eapply triple_pre with (P' := honest sustain); [by intros s []|].
    eapply triple_bind; [apply quiet_honest, quiet_locked; quiet|]. intros ?. honestly. intros ?.
    apply await_until_overtime_honest. }
  destruct (fle overtime now); [eapply triple_pre; [|exact Hafter]; by intros s []|].
  eapply triple_pre with (P' := remembers sustain since').
  { intros s [Hs Hm]. split; [done|]. intros t Ht. destruct (Hm t Ht) as (s0 & ? & ?). by exists s0, now. }
  eapply triple_bind; [apply resting_remembers; [eauto with quiet|apply resting_wait_stop]|]. intros ?. apply IH.
Qed.
End held.

(** ** The theorems *)

Lemma arm_handle w trial_id h plan m m' : arm w trial_id h plan m = (m', Ok true) → _cleanup_handle m' = Some h.
Proof.
  unfold arm, locked, _now_text, update, modify, ask. intros H. run_inv.
  match goal with H : (if ?b then _ else _) _ = _ |- _ => destruct b; [by inversion H|] end. run_inv.
  repeat match goal with H : (_, Ok _) = (_, Ok _) |- _ => apply pair_equal_spec in H as [<- _] end. done.
Qed.

(** C24: Whatever the other threads, clocks, telemetry and the gateway do, the thread of an
    armed monitor destroys the fault at most once, only its own, and only after the gateway
    told it that the fault runs and a later reading of the clock was past the approved
    duration and the grace, counted from the reading it took then; before that it asks the
    Agent to recover at most once. The call of finish asks for at most one more destruction,
    whenever it is called (destroyed_twice shows both). *)
Theorem overdue_fault_ended_once w trial_id h plan fuel m m1 m2 r :
  arm w trial_id h plan m = (m1, Ok true) → _run w fuel plan m1 = (m2, r) →
  ∃ new, m_log m2 = m_log m1 ++ new ∧ lawful w plan h (m_log m1) new ∧ (finish_destroys new ≤ 1)%nat.
Proof.
  intros Hh%arm_handle Hr.
  pose proof (run_triple w plan h (m_log m1) fuel m1) as Ht. rewrite Hr in Ht.
  assert (∃ new, m_log m2 = m_log m1 ++ new ∧ lawful w plan h (m_log m1) new) as (new & El & Hl).
  { destruct r; (destruct Ht as [_ Ht]; [|exact Ht]); (split; [done|]); exists []; by rewrite app_nil_r. }
  exists new. split_and!; [done|done|]. pose proof (spends_run w fuel plan m1) as Hs. rewrite Hr in Hs.
  unfold spends, at_most in Hs. cbn [fst] in Hs. rewrite El in Hs.
  assert (finish_destroys (m_log m1 ++ new) = (finish_destroys (m_log m1) + finish_destroys new)%nat) as E.
  { unfold finish_destroys, count. by rewrite List.filter_app, length_app. }
  rewrite E in Hs. destruct (finish_pc m1), (finish_pc m2); lia.
Qed.

(** The monitor reports the effect condition as met only when every sample between two readings
    of the clock at least the sustain time apart matched. *)
Theorem effect_met_only_if_held w fuel plan m m' r h : _cleanup_handle m = Some h → met m = VBool false →
  _run w fuel plan m = (m', r) → met m' = VBool true →
  ∃ condition baseline sustain,
    py_dict (py_or (vget plan "effect_condition") (VDict [])) = Ok condition ∧
    _plan_seconds plan "effect_sustain_seconds" (policy_seconds "effect_sustain_seconds") = Ok sustain ∧
    held_long w plan condition baseline (str_or_empty (vget condition "metric")) sustain.
Proof.
  intros Hh Hm Hr Hmet.
  set (P := λ m, _cleanup_handle m ≠ None ∧ met m = VBool false).
  set (R := λ m, met m = VBool true → ∃ condition baseline sustain,
    py_dict (py_or (vget plan "effect_condition") (VDict [])) = Ok condition ∧
    _plan_seconds plan "effect_sustain_seconds" (policy_seconds "effect_sustain_seconds") = Ok sustain ∧
    held_long w plan condition baseline (str_or_empty (vget condition "metric")) sustain).
  assert (HPR : ∀ m, P m → R m) by (unfold P, R; intros ? [_ ->]; discriminate).
  assert (Hq : ∀ A (p : prog Monitor A), quiet p → triple P p (λ _, P) R).
  { intros A p Hp s [Hs1 Hs2]. destruct (quiet_met p s Hp Hs1) as [E1 E2].
    destruct (p s) as [s' []]; [|apply HPR]; (split; [done|]); by rewrite <- Hs2. }
  assert (Ht : triple P (_run w fuel plan) (λ _, R) R).
  { unfold _run. eapply triple_bind; [apply Hq; eauto with quiet|]. intros [[]|]; [|apply triple_ret; auto..].
    eapply triple_bind; [apply Hq; quiet|]. intros baseline. cbv beta.
    eapply triple_bind with (Q := λ condition m,
      py_dict (py_or (vget plan "effect_condition") (VDict [])) = Ok condition ∧ P m); [by apply triple_lift; auto|].
    intros condition. apply triple_pure. intros Hc. cbv zeta.
    do 2 (eapply triple_bind; [apply Hq; eauto with quiet|]; intros ?; cbv beta).
    eapply triple_bind with (Q := λ sustain m,
      _plan_seconds plan "effect_sustain_seconds" (policy_seconds "effect_sustain_seconds") = Ok sustain ∧ P m);
      [by apply triple_lift; auto|].
    intros sustain. apply triple_pure. intros Hs.
    do 4 (eapply triple_bind; [apply Hq; eauto with quiet|]; intros ?; cbv beta).
    eapply triple_post; [eapply triple_pre; [|apply observe_honest with (sustain := sustain)]|..].
    - intros s [H1 H2]. split; [split; [done|by rewrite H2]|done].
    - intros _ s [_ Hl]. unfold R. eauto 8.
    - intros s [_ Hl]. unfold R. eauto 8. }
  assert (HP : P m) by (split; [by rewrite Hh|done]).
  specialize (Ht m HP). rewrite Hr in Ht. destruct r; exact (Ht Hmet).
Qed.

(** C25: When the emit callback does not raise and the clock passes the deadline, with its
    grace, after finitely many readings, the watch over a running fault ends without an
    exception, and it ends because somebody stopped the monitor, the Agent asked for the
    clean-up, the fault ended alone or the monitor asked the gateway to destroy it, whatever
    the gateway answered. *)
Theorem overdue_fault_settled w h n plan condition baseline metric observation sustain cleanup ttl started overtime
    fuel matched_since m :
  (∀ log, emit w log = Ok tt) → _cleanup_handle m = Some h →
  _plan_seconds plan "safety_ttl_seconds" (policy_seconds "safety_ttl_seconds") = Ok ttl →
  overtime_at started ttl = Ok overtime → clock_passes w n overtime → clock_passes w n (fadd overtime (FFin 0)) →
  clock_passes w n (fadd overtime (recovery_request_grace_seconds w)) →
  (3 ≤ fuel)%nat → (n + 3 ≤ fuel + length (m_log m))%nat →
  ∃ m', observe w plan condition baseline metric observation sustain cleanup started overtime fuel matched_since m
          = (m', Ok (Some tt)) ∧ settled h m'.
Proof.
  intros Hemit Hh Httl Ht H1 H2 H3 Hf Hk.
  pose proof (observe_settles w h n Hemit plan condition baseline metric observation sustain cleanup ttl started overtime
    Httl Ht H1 H2 H3 fuel _ matched_since Hf Hk m (conj Hh (le_n _))) as Hs.
  destruct (observe _ _ _ _ _ _ _ _ _ _ _ _ _) as [m' [o|e]]; [|done].
  destruct Hs as [-> Hs]. by exists m'.
Qed.

(** When finish is over, the Agent asked for the clean-up of an armed fault, or the fault ended
    alone, or the platform ended it. *)
Lemma finish_leaves_nothing w m : (∀ log, emit w log = Ok tt) → finish_pc m = NotFinishing →
  is_true (vget (_result m) "armed") = true →
  ∃ m' d, finish w m = (m', Ok d) ∧
    (is_true (vget d "agent_cleanup_requested") || is_true (vget d "controller_fallback_used") ||
     is_true (vget d "fault_ended_without_cleanup_request")) = true.
Proof.
  intros Hemit Hpc Harmed. unfold finish.
  assert (E1 : finish_step w m = (set_flags true (_agent_cleanup m) (_agent_cleanup_monotonic m) (set_finish Joining m), Ok tt)).
  { unfold finish_step, gets. rewrite prog_bind_eq. by rewrite Hpc. }
  rewrite (run_ok _ _ _ _ _ E1). set (m1 := set_flags _ _ _ _).
  set (b := negb (is_true (vget (_result m) "agent_cleanup_requested")) &&
    negb (is_true (vget (_result m) "controller_fallback_used")) &&
    negb (is_true (vget (_result m) "fault_ended_without_cleanup_request"))).
  assert (E2 : finish_step w m1 = (set_finish (Judged b) m1, Ok tt)).
  { unfold finish_step. rewrite prog_bind_eq. change (gets finish_pc m1) with (m1, Ok Joining).
    cbv iota beta. rewrite prog_bind_eq. unfold gets, modify. cbv iota beta.
    change (_result m1) with (_result m). unfold b. rewrite Harmed. reflexivity. }
  rewrite (run_ok _ _ _ _ _ E2). destruct b eqn:Eb.
  - assert (E3 : ∃ cleanup m3, finish_step w (set_finish (Judged true) m1) = (m3, Ok tt) ∧ finish_pc m3 = Destroyed cleanup).
    { unfold finish_step, gets. rewrite prog_bind_eq. cbn [finish_pc set_finish]. rewrite prog_bind_eq, destroy_fault_eq.
      by eexists _, _. }
    destruct E3 as (cleanup & m3 & E3 & Hp3). rewrite (run_ok _ _ _ _ _ E3).
    assert (E4 : ∃ m4, finish_step w m3 = (m4, Ok tt) ∧ finish_pc m4 = Reporting ∧
      vget (_result m4) "controller_fallback_used" = VBool true).
    { unfold finish_step, gets. rewrite prog_bind_eq, Hp3.
      unfold record_fallback, _now_text, ask, update, modify. rewrite !prog_bind_eq. cbv zeta beta iota.
      eexists. split; [done|]. split; [done|]. cbn [_result set_result set_finish].
      unfold dict_update, vget. cbn [foldl fst snd]. rewrite !dget_dset. by repeat case_decide. }
    destruct E4 as (m4 & E4 & Hp4 & Hr4). rewrite (run_ok _ _ _ _ _ E4).
    assert (E5 : ∃ m5, finish_step w m4 = (m5, Ok tt) ∧ _result m5 = _result m4).
    { unfold finish_step, gets. rewrite prog_bind_eq, Hp4.
      unfold modify, call_emit, when, gets. rewrite !prog_bind_eq. cbn [_emit set_finish].
      destruct (_emit m4); [|by eexists].
      change (ask_result (emit w) ?c ?s) with (logged c s, emit w (m_log s)). rewrite Hemit. by eexists. }
    destruct E5 as (m5 & E5 & Hr5). rewrite (run_ok _ _ _ _ _ E5). exists m5, (_result m5). split; [done|].
    rewrite Hr5, Hr4. cbn [is_true]. by rewrite orb_true_r.
  - exists (set_finish Finished m1), (_result m1). split; [reflexivity|].
    change (_result m1) with (_result m). revert Eb. unfold b.
    generalize (is_true (vget (_result m) "agent_cleanup_requested")) (is_true (vget (_result m) "controller_fallback_used"))
      (is_true (vget (_result m) "fault_ended_without_cleanup_request")).
    by intros [] [] [].
Qed.

(** ** Concrete runs *)

(** A gateway that says the fault is active, a service whose rate stays doubled, and a clock
    that shows ten seconds more at every step; nobody cleans up. *)
Definition demo_world (others : list Call → list External) (rate : Z) : World :=
  {| poll_seconds := FFin 2; recovery_request_grace_seconds := FFin 120; others := others;
     monotonic_clock := λ log, FFin (inject_Z (10 * Z.of_nat (length log)));
     utc_clock := λ log, Z.of_nat (length log) * 10000000;
     workload_current := λ _, Ok [("target_current_rps", VInt rate)];
     workload_baseline := λ _, Ok [("target_current_rps", VInt 10)];
     target_resource_value := None;
     chaos_status := λ _, Ok [("ever_active", VBool true); ("state", VStr "Active")];
     chaos_destroy := λ _, Ok [("verified_absent", VBool true)];
     reap_expired := None;
     request_recovery := Some (λ _, Ok (VBool true));
     emit := λ _, Ok tt |}.
Definition demo_plan : mapping :=
  [("effect_condition", VDict [("metric", VStr "target_current_rps"); ("operator", VStr "at_or_above"); ("threshold", VInt 15)]);
   ("safety_ttl_seconds", VInt 600)].

Definition demo_armed : Monitor := (arm (demo_world (λ _, []) 20) "trial-1" "handle-1" demo_plan new_monitor).1.
Definition demo_end (w : World) : Monitor := (_run w 100 demo_plan demo_armed).1.

Definition destroys (m : Monitor) : nat :=
  count (λ c, match c with Destroy _ _ => true | _ => false end) (m_log m).

(** [finish] does not wait forever for the thread: when the monitor's own call of [destroy]
    is still under way, the fault is destroyed twice. *)
Definition impatient (log : list Call) : list External :=
  match last log with Some (Destroy MonitorThread _) => [FinishStep; FinishStep; FinishStep] | _ => [] end.
Example destroyed_twice :
  destroys (demo_end (demo_world (λ _, []) 20)) = 1%nat ∧ destroys (demo_end (demo_world impatient 20)) = 2%nat.
Proof. vm_compute. done. Qed.

Lemma overdue_fault_ended_once_witness :
  destroys (demo_end (demo_world (λ _, []) 20)) = 1%nat ∧
  ∃ new, m_log (demo_end (demo_world (λ _, []) 20)) = m_log demo_armed ++ new ∧
    lawful (demo_world (λ _, []) 20) demo_plan "handle-1" (m_log demo_armed) new ∧ (finish_destroys new ≤ 1)%nat.
Proof.
  split; [vm_compute; reflexivity|].
  apply (overdue_fault_ended_once (demo_world (λ _, []) 20) "trial-1" "handle-1" demo_plan 100 new_monitor demo_armed
    (demo_end (demo_world (λ _, []) 20)) (_run (demo_world (λ _, []) 20) 100 demo_plan demo_armed).2).
  - vm_compute. reflexivity.
  - apply surjective_pairing.
Defined.

Lemma effect_met_only_if_held_witness :
  ∃ condition baseline sustain,
    py_dict (py_or (vget demo_plan "effect_condition") (VDict [])) = Ok condition ∧
    _plan_seconds demo_plan "effect_sustain_seconds" (policy_seconds "effect_sustain_seconds") = Ok sustain ∧
    held_long (demo_world (λ _, []) 20) demo_plan condition baseline (str_or_empty (vget condition "metric")) sustain.
Proof.
  apply (effect_met_only_if_held (demo_world (λ _, []) 20) 100 demo_plan demo_armed (demo_end (demo_world (λ _, []) 20))
    (_run (demo_world (λ _, []) 20) 100 demo_plan demo_armed).2 "handle-1").
  - vm_compute. reflexivity.
  - vm_compute. reflexivity.
  - apply surjective_pairing.
  - vm_compute. reflexivity.
Defined.

Lemma demo_clock_passes (d : Z) : (d <= 2000) → clock_passes (demo_world (λ _, []) 20) 200 (FFin (inject_Z d)).
Proof.
  intros Hd. exists (inject_Z d). split; [done|]. intros log Hlog. eexists. split; [done|].
  rewrite <- Zle_Qle. lia.
Qed.

Lemma overdue_fault_settled_witness :
  ∃ m', observe (demo_world (λ _, []) 20) demo_plan [] [] "" 300 60 60 (FFin 0) (FFin (inject_Z 900)) 210 None demo_armed
          = (m', Ok (Some tt)) ∧ settled "handle-1" m'.
Proof.
  apply (overdue_fault_settled (demo_world (λ _, []) 20) "handle-1" 200 demo_plan [] [] "" 300 60 60 600).
  - done.
  - vm_compute. reflexivity.
  - vm_compute. reflexivity.
  - vm_compute. reflexivity.
  - by apply demo_clock_passes.
  - change (clock_passes (demo_world (λ _, []) 20) 200 (FFin (inject_Z 900))). by apply demo_clock_passes.
  - replace (fadd _ _) with (FFin (inject_Z 1020)) by (vm_compute; reflexivity). by apply demo_clock_passes.
  - lia.
  - lia.
Defined.
