(* ===== verification/PyRegex.v ===== *)
(** * Regular expressions on UTF-8 text

    The part of [re] the sources use: literals, [.], alternation, repetition, [re.search],
    by derivatives, and that it answers what the expression denotes. *)

From S2P Require Import Prelude.

(** [Cls p] is one byte. *)
Inductive regex :=
  | Nothing
  | Empty
  | Cls (p : ascii → bool)
  | Alt (a b : regex)
  | Seq (a b : regex)
  | Star (a : regex).

(** What an expression denotes. *)
Inductive matches : regex → list ascii → Prop :=
  | m_empty : matches Empty []
  | m_cls p c : p c = true → matches (Cls p) [c]
  | m_alt_l a b l : matches a l → matches (Alt a b) l
  | m_alt_r a b l : matches b l → matches (Alt a b) l
  | m_seq a b l k : matches a l → matches b k → matches (Seq a b) (l ++ k)
  | m_star_nil a : matches (Star a) []
  | m_star a l k : matches a l → matches (Star a) k → matches (Star a) (l ++ k).

Fixpoint nullable (r : regex) : bool :=
  match r with
  | Empty | Star _ => true
  | Alt a b => nullable a || nullable b
  | Seq a b => nullable a && nullable b
  | Nothing | Cls _ => false
  end.

(** Constructors that drop what denotes nothing. *)
Definition alt (a b : regex) : regex :=
  match a, b with Nothing, _ => b | _, Nothing => a | _, _ => Alt a b end.
Definition seq_ (a b : regex) : regex :=
  match a with Nothing => Nothing | Empty => b | _ => Seq a b end.

Fixpoint deriv (c : ascii) (r : regex) : regex :=
  match r with
  | Nothing | Empty => Nothing
  | Cls p => if p c then Empty else Nothing
  | Alt a b => alt (deriv c a) (deriv c b)
  | Seq a b => if nullable a then alt (seq_ (deriv c a) b) (deriv c b) else seq_ (deriv c a) b
  | Star a => seq_ (deriv c a) (Star a)
  end.

(** A prefix of the text matches. *)
Fixpoint match_prefix (r : regex) (l : list ascii) : bool :=
  nullable r ||
  match r with
  | Nothing => false
  | _ => match l with [] => false | c :: l' => match_prefix (deriv c r) l' end
  end.

(** [re.search(r, text)] finds a match. *)
Fixpoint search_chars (r : regex) (l : list ascii) : bool :=
  match_prefix r l || match l with [] => false | _ :: l' => search_chars r l' end.
Definition re_search (r : regex) (text : string) : bool := search_chars r (chars text).

(** ** Notation *)

Definition lit (s : string) : regex :=
  foldr (λ c r, seq_ (Cls (λ x, bool_decide (x = c))) r) Empty (chars s).
Definition any_of (l : list regex) : regex := foldr alt Nothing l.
Definition words (l : list string) : regex := any_of (map lit l).
Definition cat (l : list regex) : regex := foldr seq_ Empty l.
Definition opt (r : regex) : regex := alt r Empty.
(** [r{0,n}] *)
Fixpoint up_to (n : nat) (r : regex) : regex :=
  match n with O => Empty | S n' => opt (Seq r (up_to n' r)) end.
Definition byte_in (lo hi : N) : regex := Cls (λ c, (lo <=? N_of_ascii c)%N && (N_of_ascii c <=? hi)%N).
(** [.]: a code point that is not a new line. *)
Definition dot : regex :=
  any_of [byte_in 0 9; byte_in 11 127; cat [byte_in 194 223; byte_in 128 191];
          cat [byte_in 224 239; byte_in 128 191; byte_in 128 191];
          cat [byte_in 240 244; byte_in 128 191; byte_in 128 191; byte_in 128 191]].

(** ** Correctness *)

Lemma matches_Nothing l : ¬ matches Nothing l.
Proof. by inversion 1. Qed.

Lemma matches_alt a b l : matches (alt a b) l ↔ matches a l ∨ matches b l.
Proof.
  split.
  - unfold alt. destruct a; auto; destruct b; auto; inversion 1; subst; auto.
  - unfold alt. intros H. destruct a; try (destruct H as [H|H]; [by destruct (matches_Nothing _ H)|done]);
      destruct b; destruct H as [H|H]; try (by destruct (matches_Nothing _ H)); auto using matches.
Qed.

Lemma matches_Seq a b l : matches (Seq a b) l ↔ ∃ x y, l = x ++ y ∧ matches a x ∧ matches b y.
Proof. split; [inversion 1; subst; eauto 10|]. intros (x & y & -> & ? & ?). by constructor. Qed.

Lemma matches_seq a b l : matches (seq_ a b) l ↔ ∃ x y, l = x ++ y ∧ matches a x ∧ matches b y.
Proof.
  unfold seq_. destruct a; rewrite ?matches_Seq; try done.
  - split; [by intros ?%matches_Nothing|]. by intros (x & y & -> & ?%matches_Nothing & _).
  - split; [intros H; exists [], l; auto using matches|]. intros (x & y & -> & Hx & Hy). by inversion Hx.
Qed.

Lemma nullable_spec r : nullable r = true ↔ matches r [].
Proof.
  induction r as [| |p|a IHa b IHb|a IHa b IHb|a IHa]; cbn.
  - split; [done|by intros ?%matches_Nothing].
  - split; [constructor|done].
  - split; [done|]. by inversion 1.
  - rewrite orb_true_iff, IHa, IHb. split; [intros []; auto using matches|]. inversion 1; auto.
  - rewrite andb_true_iff, IHa, IHb, matches_Seq. split.
    + intros [Ha Hb]. by exists [], [].
    + intros (x & y & E & Ha & Hb). symmetry in E. by apply app_nil in E as [-> ->].
  - split; [constructor|done].
Qed.

Lemma matches_Star_cons a c l : matches (Star a) (c :: l) ↔ ∃ x y, l = x ++ y ∧ matches a (c :: x) ∧ matches (Star a) y.
Proof.
  split.
  - remember (Star a) as r eqn:Er. remember (c :: l) as k eqn:Ek. intros H. revert l Ek.
    induction H as [| | | | | |a' x y Hx _ Hy IHy]; intros tail Ek; simplify_eq/=.
    destruct x as [|c' x]; [by apply IHy|]. cbn in Ek. simplify_eq. eauto.
  - intros (x & y & -> & Hx & Hy). by apply (m_star a (c :: x) y).
Qed.

Lemma deriv_spec c r l : matches (deriv c r) l ↔ matches r (c :: l).
Proof.
  revert l. induction r as [| |p|a IHa b IHb|a IHa b IHb|a IHa]; intros l; cbn [deriv].
  - by split; intros ?%matches_Nothing.
  - split; [by intros ?%matches_Nothing|by inversion 1].
  - destruct (p c) eqn:E; split.
    + inversion 1; by constructor.
    + inversion 1; constructor.
    + by intros ?%matches_Nothing.
    + inversion 1; congruence.
  - rewrite matches_alt, IHa, IHb. split; [intros []; auto using matches|]. inversion 1; auto.
  - assert (Hs : matches (seq_ (deriv c a) b) l ↔ ∃ x y, l = x ++ y ∧ matches a (c :: x) ∧ matches b y).
    { rewrite matches_seq. by setoid_rewrite IHa. }
    assert (Hc : matches (Seq a b) (c :: l) ↔
      (∃ x y, l = x ++ y ∧ matches a (c :: x) ∧ matches b y) ∨ matches a [] ∧ matches b (c :: l)).
    { rewrite matches_Seq. split.
      - intros (x & y & E & Hx & Hy). destruct x as [|c' x]; cbn in E; simplify_eq; eauto 10.
      - intros [(x & y & -> & Hx & Hy)|[Ha Hb]]; [exists (c :: x), y|exists [], (c :: l)]; auto. }
    destruct (nullable a) eqn:En.
    + apply nullable_spec in En. rewrite matches_alt, IHb, Hs, Hc. naive_solver.
    + assert (¬ matches a []) as Hn by (rewrite <- nullable_spec; congruence). rewrite Hs, Hc. naive_solver.
  - rewrite matches_seq, matches_Star_cons. by setoid_rewrite IHa.
Qed.

Lemma match_prefix_spec r l : match_prefix r l = true ↔ ∃ x y, l = x ++ y ∧ matches r x.
Proof.
  revert r. induction l as [|c l IH]; intros r.
  - assert (match_prefix r [] = nullable r) as -> by (destruct r; cbn; rewrite ?orb_false_r; done).
    rewrite nullable_spec. split; [intros H; by exists [], []|].
    intros (x & y & E & H). symmetry in E. by apply app_nil in E as [-> ->].
  - assert (match_prefix r (c :: l) = nullable r || match_prefix (deriv c r) l) as ->.
    { destruct r; cbn [match_prefix]; try done. by destruct l. }
    rewrite orb_true_iff, nullable_spec, IH. setoid_rewrite deriv_spec. split.
    + intros [H|(x & y & -> & H)]; [by exists [], (c :: l)|by exists (c :: x), y].
    + intros (x & y & E & H). destruct x as [|c' x]; cbn in E; simplify_eq; eauto.
Qed.

(** [re.search] finds a match exactly when some part of the text matches. *)
Lemma re_search_spec r text : re_search r text = true ↔ ∃ x y z, chars text = x ++ y ++ z ∧ matches r y.
Proof.
  unfold re_search. generalize (chars text). intros l. induction l as [|c l IH]; cbn [search_chars].
  - rewrite orb_false_r, match_prefix_spec. split.
    + intros (x & y & -> & H). by exists [], x, y.
    + intros (x & y & z & E & H). symmetry in E. apply app_nil in E as [-> E]. eauto.
  - rewrite orb_true_iff, match_prefix_spec, IH. split.
    + intros [(x & y & E & H)|(x & y & z & -> & H)]; [by exists [], x, y|by exists (c :: x), y, z].
    + intros (x & y & z & E & H). destruct x as [|c' x]; cbn in E; simplify_eq; eauto 10.
Qed.

Example dot_is_one_code_point :
  re_search (cat [lit "a"; dot; lit "b"]) "a验b" = true ∧ re_search (cat [lit "a"; dot; lit "b"]) "a验验b" = false ∧
  re_search (cat [lit "a"; up_to 2 dot; lit "b"]) "xa验验b" = true.
Proof. vm_compute. done. Qed.
