(* ===== verification/EvidenceAssessment.v ===== *)
(** * Effects and claims about them ([stage2_service/evidence_assessment.py])

    What the Controller measured of a fault's effect, and whether the Agent's own words take
    back what it claims to have verified. White space and letter case are ASCII's. *)

From S2P Require Import Prelude PyVal PyRegex TrialContracts.

(** ** Patterns *)

Definition EFFECT_TOPIC : regex :=
  any_of [words ["effect"; "latency"; "trace"; "metric"; "request"]; cat [lit "error"; dot; lit "rate"];
          words ["cpu"; "效果"; "延迟"; "请求"; "指标"; "链路"; "样本"; "业务"]].
Definition RECOVERY_TOPIC : regex := words ["recover"; "恢复"; "清理"; "故障对象"; "残留"].
Definition EFFECT_ITSELF : regex := words ["effect"; "效果"].
Definition _RECOVERY_PHASE : regex :=
  any_of [words ["recover"; "restor"];
          cat [lit "clean"; opt (words ["ed"; "ing"]); opt (words [" "; "-"]); lit "up"];
          words ["destroy"; "恢复"; "清理"; "销毁"]].
Definition MISSING_EVIDENCE : regex :=
  any_of [lit "unverified"; cat [lit "unable to "; words ["verify"; "confirm"]];
          cat [lit "no "; opt (lit "reliable "); lit "evidence"];
          cat [lit "lack"; opt (words ["s"; "ing"]); lit " "; Star dot; lit "evidence"];
          cat [lit "missing "; Star dot; lit "evidence"];
          words ["insufficient"; "unavailable"]; cat [lit "not "; words ["verified"; "confirmed"]];
          lit "未验证"; cat [lit "无法"; up_to 12 dot; words ["验证"; "确认"; "取得"; "获取"]];
          words ["缺少"; "缺乏"; "没有取得"; "未返回"; "未形成"; "拿不到"]].
Definition CPU_EFFECT : regex := words ["cpu"; "负载"; "效果"; "effect"].
Definition MEMORY_EFFECT : regex := words ["mem"; "内存"; "效果"; "effect"].

(** [re.split(SENTENCE_BOUNDARY, text)]: white space after a full stop, a Chinese full stop, a
    semicolon or a new line ends a sentence. [skipping] white space of a boundary, [n] bytes of a
    character; [before] is the byte before, [acc] the sentence so far, backwards. *)
Fixpoint sentences (skipping : bool) (n : nat) (before : ascii) (acc l : list ascii) : list (list ascii) :=
  match l with
  | [] => [rev acc]
  | c :: rest =>
      match n with
      | S n' => sentences false n' c acc rest
      | O =>
          if skipping && is_space c then sentences true 0 c acc rest
          else if one_of ".!?" before && is_space c then rev acc :: sentences true 0 c [] rest
          else if bool_decide (c = ";"%char ∨ c = ascii_of_N 10) then rev acc :: sentences false 0 c [] rest
          else if is_prefix (chars "。") l || is_prefix (chars "；") l then rev acc :: sentences false 2 c [] rest
          else sentences false 0 c (c :: acc) rest
      end
  end.
Definition split_sentences (text : string) : list string := map unchars (sentences false 0 " "%char [] (chars text)).

Example split_sentences_ex :
  split_sentences "CPU rose.  Traces ok; v1.2 ran。" = ["CPU rose."; "Traces ok"; " v1.2 ran"; ""].
Proof. vm_compute. done. Qed.

(** ** The assessment *)

Section assessment.
Context (report : HarnessReport) (recovery : RecoveryResult).

(** [report.agent_assessment or report.final_output.get("agent_result") or {}] *)
Definition stated_assessment : val :=
  py_or (py_or (VDict (agent_assessment report)) (vget (final_output report) "agent_result")) (VDict []).

Definition assessments : result (list val) :=
  history ← py_list (py_or (vget (final_output report) "assessment_history") (VList []));
  Ok (history ++ match stated_assessment with
                 | VDict ((_ :: _) as d) => [VDict [("assessment", VDict d); ("source", VStr "final_answer")]]
                 | _ => []
                 end).

(** The fault the Agent chose, or that was approved, or that was measured. *)
Definition selected_fault (value : mapping) : result string :=
  chosen ← attr_get (py_or (vget value "strategy_selection") (VDict [])) "fault_type";
  chosen ← (if truthy chosen then Ok chosen
            else attr_get (py_or (vget (final_output report) "approved_plan") (VDict [])) "fault_type");
  Ok (str_lower (str_or_empty (if truthy chosen then chosen else vget (fault_effect_evidence recovery) "fault_type"))).

(** Whether a sentence that says something is missing is about the effect. *)
Definition about_effect (fault text : string) : bool :=
  re_search EFFECT_TOPIC text &&
  negb (re_search RECOVERY_TOPIC text && negb (re_search EFFECT_ITSELF text)) &&
  negb (str_contains "cpu" fault && negb (re_search CPU_EFFECT text)) &&
  negb (str_contains "memory" fault && negb (re_search MEMORY_EFFECT text)) &&
  negb (re_search _RECOVERY_PHASE text && negb (re_search EFFECT_ITSELF text)).

Record Contradictions := { found : list mapping; seen : list (string * string) }.

Definition judge_statement (record value : mapping) (field : string) (effect_topic : bool) (missing_conditions : list string)
    (acc : Contradictions) (statement : string) : result Contradictions :=
  let text := str_lower statement in
  let missing := bool_decide (statement ∈ missing_conditions) || re_search MISSING_EVIDENCE text in
  fault ← selected_fault value;
  let related := if effect_topic then about_effect fault text else re_search RECOVERY_TOPIC text in
  Ok (if missing && related && negb (bool_decide ((field, statement) ∈ seen acc))
      then {| found := found acc ++
                [[("claim", VStr field); ("claimed", VStr "verified"); ("conflicting_text", VStr statement);
                  ("source", vget_or record "source" (VStr "agent_message")); ("event_ref", vget record "event_ref")]];
              seen := (field, statement) :: seen acc |}
      else acc).

Definition judge_claim (record value : mapping) (acc : Contradictions) (claim : string * bool) : result Contradictions :=
  if negb (is_str (vget value claim.1) "verified") then Ok acc
  else
    conditions ← py_list (py_or (vget value "missing_conditions") (VList []));
    let missing_conditions := map py_str conditions in
    foldM (judge_statement record value claim.1 claim.2 missing_conditions) acc
          (missing_conditions ++ split_sentences (str_or_empty (vget value "remaining_risk"))).

Definition judge_record (acc : Contradictions) (record : val) : result Contradictions :=
  value ← attr_get_or record "assessment" record;
  match record, value with
  | VDict r, VDict v => foldM (judge_claim r v) acc [("effect_assessment", true); ("recovery_assessment", false)]
  | _, _ => Ok acc
  end.

Definition contradictions : result (list mapping) :=
  history ← assessments;
  acc ← foldM judge_record {| found := []; seen := [] |} history;
  Ok (found acc).

Record EvidenceAssessment := { effect_observation : mapping; effect_claim_status : string; effect_contradictions : list mapping }.

Definition observation : result mapping :=
  let effect := fault_effect_evidence recovery in
  observability ← py_dict (py_or (vget effect "observability") (VDict []));
  window ← py_dict (py_or (vget effect "evidence_window") (VDict []));
  Ok [("status", if fault_effect_verified recovery then VStr "verified"
                 else if is_str (vget observability "status") "not_observable" then VStr "not_observable" else VNone);
      ("reason", py_or (py_or (vget effect "reason") (vget observability "reason"))
                   (VStr (if fault_effect_verified recovery then "measured effect verified"
                          else "attributable effect has not been established")));
      ("window", VDict window); ("observability", VDict observability);
      ("evidence_refs", VList (map VStr (recovery_evidence_refs recovery)))].

Definition assess_evidence : result EvidenceAssessment :=
  found ← contradictions;
  o ← observation;
  Ok {| effect_observation := o;
        effect_claim_status := match found with [] => "not_contradicted" | _ => "contradicted" end;
        effect_contradictions := found |}.

Definition effect_claim (a : EvidenceAssessment) : mapping :=
  [("status", VStr (effect_claim_status a)); ("contradictions", VList (map VDict (effect_contradictions a)));
   ("original_claims_preserved", VBool true)].

(** [any(item\["claim"\] == field for item in contradictions)] *)
Definition contradicted (field : string) (a : EvidenceAssessment) : bool :=
  existsb (λ c, is_str (vget c "claim") field) (effect_contradictions a).
End assessment.
