(* ===== verification/TrialFacts.v ===== *)
(** * The facts of a Trial ([stage2_service/trial_facts.py])

    One reading of a report and a recovery: what is established and by whom, what help the
    Agent had, and the invariants an evaluation must keep. *)

From Stdlib Require Import QArith.
From S2P Require Import Prelude PyFloat PyVal PyTime PyIso PyStamp TrialContracts.

#[local] Open Scope Z_scope.

Inductive Provenance := CONTROLLER_LEDGER | CONTROLLER_ORACLE | AGENT_TOOL_RESULT | AGENT_CLAIM | HARNESS_DECISION.

Record Fact (A : Type) := { fact_value : A; fact_provenance : Provenance; fact_evidence_ref : string; observed_at : datetime }.
Arguments fact_value {A}. Arguments fact_provenance {A}. Arguments fact_evidence_ref {A}. Arguments observed_at {A}.

Record TrialFacts := {
  target_bound : Fact bool;
  baseline_observed : Fact bool;
  plan_validated : Fact bool;
  fault_created : Fact bool;
  fault_running : Fact bool;
  effect_verified : Fact bool;
  fact_fault_absent : Fact bool;
  inventory_clear : Fact bool;
  business_recovered : Fact bool;
  agent_conclusion : Fact mapping;
  interactions : list mapping;
  facts_assistance_level : AssistanceLevel;
  safe_refusal_create_attempted : bool }.

Definition EvaluationInvariantError : exn_kind := OtherError "EvaluationInvariantError".
Definition invariant {A} (message : string) : result A := raise EvaluationInvariantError message.

(** ** Platform events *)

(** [_mapping] *)
Definition _mapping (v : val) : mapping := default [] (as_map v).

(** The mappings of a list. *)
Definition maps_of (l : list val) : list mapping := omap as_map l.

Definition _platform_events (report : HarnessReport) : list mapping :=
  match vget (final_output report) "platform_events" with VList rows => maps_of rows | _ => [] end.

(** [_time] *)
Definition _time (v : val) : option datetime :=
  match v with
  | VStr text => (λ t, match dt_offset t with Some _ => t | None => DateTime (dt_wall t) (Some 0) end)
                 <$> fromisoformat (spell_zulu text)
  | _ => None
  end.

Record EventOrder := { previous_sequence : Z; seen_sequences : list Z; previous_recorded : option datetime }.

Definition check_event (o : EventOrder) (event : mapping) : result EventOrder :=
  let bad := invariant "platform event sequence is not unique and strictly increasing" in
  match as_int (vget event "sequence") with
  | None => bad
  | Some sequence =>
      if bool_decide (sequence ∈ seen_sequences o) || (sequence <=? previous_sequence o) then bad
      else
        match _time (vget event "recorded_at") with
        | None => invariant "platform event recorded_at is missing"
        | Some recorded =>
            match vget event "trial_id" with
            | VStr trial =>
                if negb (nonempty trial) then invariant "platform event trial_id is missing"
                else
                  regressed ← match previous_recorded o with
                              | Some previous => ordered ← dt_le previous recorded; Ok (negb ordered)
                              | None => Ok false
                              end;
                  if regressed : bool then invariant "platform event recorded_at regressed"
                  else Ok {| previous_sequence := sequence; seen_sequences := sequence :: seen_sequences o;
                             previous_recorded := Some recorded |}
            | _ => invariant "platform event trial_id is missing"
            end
        end
  end.

Definition _validate_platform_event_order (events : list mapping) : result unit :=
  let trial_ids := dedup (map (λ e, py_str (vget e "trial_id")) (List.filter (λ e, truthy (vget e "trial_id")) events)) in
  if (1 <? length trial_ids)%nat then invariant "platform events contain multiple trial identities"
  else foldM check_event {| previous_sequence := -1; seen_sequences := []; previous_recorded := None |} events ;; Ok tt.

(** ** Interactions and assistance *)

Definition platform_row (event : mapping) : mapping :=
  let payload := _mapping (vget event "payload") in
  let event_type := str_or_empty (vget event "event_type") in
  if bool_decide (event_type ∈ ["ToolCall"; "ToolResult"])
  then [("kind", VStr (if bool_decide (event_type = "ToolCall") then "tool_call" else "tool_result"));
        ("tool", vget payload "tool"); ("event_type", VStr event_type); ("occurred_at", vget event "occurred_at")]
  else [("kind", VStr "platform"); ("event_type", VStr event_type); ("occurred_at", vget event "occurred_at");
        ("payload", VDict payload)].

Definition _interactions (events : list LifecycleEvent) (platform_events : list mapping) : list mapping :=
  map (λ e, [("kind", VStr "lifecycle"); ("event_type", VStr (event_kind e));
             ("interaction_type", vget (event_payload e) "category"); ("occurred_at", VStr (iso_any (occurred_at e)))]) events ++
  map platform_row platform_events.

Definition derive_assistance (interactions : list mapping) : AssistanceLevel :=
  let kinds := map (λ i, py_str (py_or (py_or (vget i "interaction_type") (vget i "event_type")) (VStr ""))) interactions in
  let has k := bool_decide (k ∈ kinds) in
  if has "HINT_DELIVERED" || has "SEMANTIC_NUDGE" then AssistanceLevel.SEMANTIC_NUDGE
  else if has "PLAN_ASSISTANCE_DELIVERED" || has "USER_DECISION" then AssistanceLevel.USER_DECISION
  else if has "CONFIRM_GRANTED" || has "AUTH_CONFIRM" then AssistanceLevel.AUTO_CONFIRMATION
  else if has "NOTICE_DELIVERED" || has "FACT_EVENT" then AssistanceLevel.FACT_ONLY
  else AssistanceLevel.NONE.

Definition assistance_level_from_report (report : HarnessReport) : AssistanceLevel :=
  derive_assistance (_interactions (lifecycle_events report) (_platform_events report)).

Definition _agent_claim (report : HarnessReport) : mapping :=
  match agent_assessment report with
  | [] => _mapping (vget (final_output report) "agent_result")
  | assessment => assessment
  end.

(** ** Assembly *)

Definition assemble_trial_facts (now : datetime) (report : HarnessReport) (recovery : RecoveryResult) : result TrialFacts :=
  let events := lifecycle_events report in
  let platform_events := _platform_events report in
  _validate_platform_event_order platform_events ;;
  let interactions := _interactions events platform_events in
  let refs := List.filter nonempty (recovery_evidence_refs recovery) in
  let controller_ref := default "" (head refs) in
  let oracle_ref := default "" (last refs) in
  let controlled := nonempty controller_ref in
  let judged := nonempty oracle_ref in
  let event_ref (e : option LifecycleEvent) := from_option event_id "" e in
  let present (e : option LifecycleEvent) := bool_decide (is_Some e) in
  let fact {A} (v : A) p ref := {| fact_value := v; fact_provenance := p; fact_evidence_ref := ref; observed_at := now |} in
  let target_event := first_kind ["target_bound"; "target_reconfirmed"] events in
  let baseline_event := first_kind ["baseline_verified"] events in
  let plan_event := first_kind ["plan_validated"] events in
  let observed_fault := _mapping (vget (fault_effect_evidence recovery) "observed_main_fault") in
  let created := (truthy (vget observed_fault "experiment_name") || main_fault_ever_active recovery) && controlled in
  let target_from_controller := main_fault_target_verified recovery && controlled in
  Ok {|
    target_bound := fact (target_from_controller || present target_event)
      (if target_from_controller then CONTROLLER_LEDGER else AGENT_TOOL_RESULT)
      (if target_from_controller then controller_ref else event_ref target_event);
    baseline_observed := fact (present baseline_event) AGENT_TOOL_RESULT (event_ref baseline_event);
    plan_validated := fact (present plan_event) AGENT_TOOL_RESULT (event_ref plan_event);
    fault_created := fact created CONTROLLER_LEDGER (if created then controller_ref else "");
    fault_running := fact (main_fault_ever_active recovery && controlled) CONTROLLER_LEDGER controller_ref;
    effect_verified := fact (fault_effect_verified recovery && judged) CONTROLLER_ORACLE oracle_ref;
    fact_fault_absent := fact (fault_absent recovery && controlled) CONTROLLER_LEDGER controller_ref;
    inventory_clear := fact (chaos_inventory_clear recovery && controlled) CONTROLLER_LEDGER controller_ref;
    business_recovered := fact (business_recovery_verified recovery && judged) CONTROLLER_ORACLE oracle_ref;
    agent_conclusion := fact (_agent_claim report) AGENT_CLAIM "agent://conclusion";
    interactions := interactions;
    facts_assistance_level := derive_assistance interactions;
    safe_refusal_create_attempted :=
      existsb (λ i, is_str (vget i "kind") "tool_call" && str_endswith "create_experiment" (str_or_empty (vget i "tool")))
        interactions |}.

Definition next_trial_ready (f : TrialFacts) : bool :=
  fact_value (fact_fault_absent f) && fact_value (inventory_clear f) && fact_value (business_recovered f).

(** ** Invariants of an evaluation *)

Definition validate_node_invariants (facts : TrialFacts) (nodes : list mapping) (gate : mapping) : result unit :=
  foldM (λ (_ : unit) node,
    if is_str (vget node "status") "VERIFIED" && is_str (vget node "completion_source") "MISSING"
    then invariant (py_str (vget node "node") +:+ ": VERIFIED cannot have MISSING source") else Ok tt) tt nodes ;;
  let effect := head (List.filter (λ n, is_str (vget n "node") "FAULT_EFFECT") nodes) in
  match effect with
  | Some ((_ :: _) as e) =>
      (if negb (fact_value (fault_created facts)) then
         score ← py_float (py_or (vget e "score") (VInt 0));
         require (feq score f0) EvaluationInvariantError "fault effect scored without a created fault"
       else Ok tt) ;;
      requirements ← attr_get (vget_or gate "requirements" (VDict [])) "fault_effect_verified";
      match requirements with
      | VBool false =>
          require (negb (is_str (vget e "status") "VERIFIED")) EvaluationInvariantError
            "fault effect verified while gate is false"
      | _ => Ok tt
      end
  | _ => _ ← attr_get (vget_or gate "requirements" (VDict [])) "fault_effect_verified"; Ok tt
  end.
