(* ===== verification/NodeEvaluationProps.v ===== *)
(** * What a node of a Trial stands for

    Every node earns between nothing and its weight, and nothing without the Agent; a node of an
    execution counts as verified only on the Controller's evidence. *)

From Stdlib Require Import QArith.
From S2P Require Import Prelude PyFloat PyVal PyTime ConditionMonitor TrialContracts EvidenceAssessment TrialFacts NodeEvaluation.

#[local] Open Scope Z_scope.

(** ** The shape of the nodes *)

Definition all_weights : list Z := map snd (EXECUTION_NODE_WEIGHTS ++ SAFE_REFUSAL_NODE_WEIGHTS).

(** A node of [_node], of a weight of the tables. *)
Definition is_node (n : mapping) : Prop := ∃ name weight status source refs rationale bonus,
  n = _node name weight status source refs rationale bonus ∧ weight ∈ all_weights.

Lemma node_is name weight status source refs rationale bonus :
  bool_decide (weight ∈ all_weights) = true → is_node (_node name weight status source refs rationale bonus).
Proof. intros H%bool_decide_eq_true. by exists name, weight, status, source, refs, rationale, bonus. Qed.

#[local] Ltac each_node := repeat first [apply Forall_nil_2 | apply Forall_cons_2; [by apply node_is|]].

Lemma execution_nodes_are report recovery kind policy ledger valid nodes :
  _execution_nodes report recovery kind policy ledger valid = Ok nodes → Forall is_node nodes.
Proof.
  unfold _execution_nodes. destruct valid; cbn [negb].
  - intros H. repeat (apply bind_Ok_inv in H as (? & _ & H)). destruct (business_node _ _ _). injection H as <-. each_node.
  - intros [= <-]. each_node.
Qed.

Lemma refusal_nodes_are report recovery valid ledger facts nodes :
  _safe_refusal_nodes report recovery valid ledger facts = Ok nodes → Forall is_node nodes.
Proof.
  unfold _safe_refusal_nodes. destruct valid; cbn [negb].
  - intros H. repeat (apply bind_Ok_inv in H as (? & _ & H)). injection H as <-. each_node.
  - intros [= <-]. each_node.
Qed.

(** What [evaluate_nodes] returned, and the nodes it did so with. *)
Lemma evaluated_nodes now kind report recovery status policy outcome b :
  evaluate_nodes now kind report recovery status policy outcome = Ok b → ∃ facts ledger,
  match outcome with
  | SAFE_REFUSAL => _safe_refusal_nodes report recovery (bool_decide (status = TrialPlatformStatus.VALID)) ledger facts
  | EXECUTE_AND_RECOVER =>
      _execution_nodes report recovery kind policy ledger (bool_decide (status = TrialPlatformStatus.VALID))
  end = Ok (ne_node_results b).
Proof.
  unfold evaluate_nodes. intros H. apply bind_Ok_inv in H as (facts & _ & H). apply bind_Ok_inv in H as (gate & _ & H).
  apply bind_Ok_inv in H as (ledger & _ & H). apply bind_Ok_inv in H as (nodes & Hn & H).
  repeat (apply bind_Ok_inv in H as (? & _ & H)). injection H as <-. by exists facts, ledger.
Qed.

(** ** Points *)

Definition points (weight : Z) (status : NodeStatus) (source : CompletionSource) : pyfloat * pyfloat :=
  (round_ndigits 2 (raw_points weight status), round_ndigits 2 (fmul (raw_points weight status) (SOURCE_FACTORS source))).

Definition points_within (weight : Z) (status : NodeStatus) (source : CompletionSource) : bool :=
  let '(raw, score) := points weight status source in fle f0 score && fle score raw && fle raw (FFin (inject_Z weight)).

Lemma points_bounded weight status source : weight ∈ all_weights → points_within weight status source = true.
Proof.
  intros Hw. assert (H : forallb (λ w, points_within w status source) all_weights = true) by (by destruct status, source; vm_compute).
  rewrite forallb_forall in H. by apply H, list_elem_of_In.
Qed.

(** What the Controller did in the Agent's place, or nobody did, earns nothing. *)
Definition unearned (source : CompletionSource) : bool :=
  match source with CompletionSource.CONTROLLER_FALLBACK | CompletionSource.MISSING => true | _ => false end.
Lemma points_unearned weight status source : weight ∈ all_weights → unearned source = true → feq (points weight status source).2 f0 = true.
Proof.
  intros Hw Hs. assert (H : forallb (λ w, feq (points w status source).2 f0) all_weights = true)
    by (by destruct source; try done; destruct status; vm_compute).
  rewrite forallb_forall in H. by apply H, list_elem_of_In.
Qed.

(** ** Verified nodes *)

Section verified.
Context (kind : TrialKind) (report : HarnessReport) (recovery : RecoveryResult).

(** What the Controller has to have found, by node. *)
Definition controller_evidence : list (string * bool) :=
  [("TARGET_IDENTITY", main_fault_target_verified recovery || is_D1 kind && has_event (lifecycle_events report) "target_bound");
   ("FAULT_RUNNING", main_fault_ever_active recovery);
   ("FAULT_EFFECT", main_fault_ever_active recovery && fault_effect_verified recovery);
   ("FAULT_CLEARED", fault_absent recovery && controller_cleanup_verified recovery);
   ("BUSINESS_RECOVERY", business_recovery_verified recovery)].

Definition evidenced (n : mapping) : Prop := ∀ name evidence, dget name controller_evidence = Some evidence →
  vget n "node" = VStr name → is_status NodeStatus.VERIFIED n = true → evidence = true.

Lemma evidenced_node name weight status source refs rationale bonus :
  (status = NodeStatus.VERIFIED → default true (dget name controller_evidence) = true) →
  evidenced (_node name weight status source refs rationale bonus).
Proof. intros H name' evidence He [= <-] Hs. rewrite He in H. apply H. by destruct status. Qed.

Lemma effect_verified_says assessment :
  effect_status report recovery assessment = Ok NodeStatus.VERIFIED → main_fault_ever_active recovery && fault_effect_verified recovery = true.
Proof.
  unfold effect_status. destruct (main_fault_ever_active recovery); [|done]. cbn [negb]. intros H.
  apply bind_Ok_inv in H as (evidence & _ & H). destruct (contradicted _ _); [done|].
  destruct (fault_effect_verified recovery); [done|]. cbn [andb] in H. by repeat case_match.
Qed.

Lemma business_verified_says assessment evidence :
  (business_node recovery assessment evidence).1 = NodeStatus.VERIFIED → business_recovery_verified recovery = true.
Proof.
  unfold business_node. destruct (business_recovery_verified recovery); [done|].
  cbn. by repeat case_match.
Qed.

Lemma target_verified_says policy : target_status report recovery kind policy = NodeStatus.VERIFIED →
  main_fault_target_verified recovery || is_D1 kind && has_event (lifecycle_events report) "target_bound" = true.
Proof. unfold target_status. destruct (mutation_without_required_decision _ _ _); [done|]. by repeat case_match. Qed.

Lemma execution_nodes_evidenced policy ledger valid nodes :
  _execution_nodes report recovery kind policy ledger valid = Ok nodes → Forall evidenced nodes.
Proof.
  unfold _execution_nodes. destruct valid; cbn [negb].
  - intros H. apply bind_Ok_inv in H as (? & _ & H). apply bind_Ok_inv in H as (? & _ & H). apply bind_Ok_inv in H as (? & _ & H).
    apply bind_Ok_inv in H as (plan & _ & H). apply bind_Ok_inv in H as (effect & Heffect & H).
    apply bind_Ok_inv in H as (trigger & _ & H). apply bind_Ok_inv in H as (? & _ & H). apply bind_Ok_inv in H as (evidence & _ & H).
    pose proof (business_verified_says (_agent_assessment report) evidence) as Hbusiness.
    destruct (business_node _ _ _) as [business ?]. injection H as <-. cbn [fst] in Hbusiness.
    repeat first [apply Forall_nil_2 | apply Forall_cons_2; [apply evidenced_node; cbn [dget default from_option]|]]; try done.
    + apply target_verified_says.
    + cbn. by destruct (main_fault_ever_active recovery).
    + cbn. intros ->. by eapply effect_verified_says.
    + cbn. unfold cleared. by destruct (fault_absent recovery && _).
  - intros [= <-]. repeat first [apply Forall_nil_2 | apply Forall_cons_2; [by apply evidenced_node|]].
Qed.
End verified.

(** ** Nodes outside a case *)

(** The keys a mark writes, what they then hold, and the others. *)
Lemma vget_update d items k : NoDup (dkeys items) →
  vget (dict_update d items) k = default (vget d k) (dget k items).
Proof. intros H. unfold vget. rewrite dget_dict_update by done. by destruct (dget k items). Qed.

Lemma mark_twice impossible n : mark_not_applicable impossible (mark_not_applicable impossible n) = mark_not_applicable impossible n.
Proof.
  unfold mark_not_applicable at 2 3. destruct (dget (py_str (vget n "node")) impossible) as [reason|] eqn:E.
  - destruct (is_status NodeStatus.NOT_APPLICABLE n) eqn:Es; unfold mark_not_applicable; [by rewrite E, Es|].
    rewrite vget_update by by apply (bool_decide_unpack _). cbn [dget default]. rewrite decide_False by done.
    repeat rewrite decide_False by done. cbn [from_option]. rewrite E. unfold is_status at 1.
    rewrite vget_update by by apply (bool_decide_unpack _). done.
  - unfold mark_not_applicable. by rewrite E.
Qed.

(** ** The theorems *)

(** C36: Every node of every evaluation has 0 <= score <= raw score <= weight as floats, and
    scores 0 when the Controller, or nobody, completed it. *)
Theorem node_scores_bounded now kind report recovery status policy outcome b n :
  evaluate_nodes now kind report recovery status policy outcome = Ok b → n ∈ ne_node_results b →
  ∃ weight raw score, vget n "weight" = VInt weight ∧ vget n "raw_score" = VFloat raw ∧ vget n "score" = VFloat score ∧
    fle f0 score = true ∧ fle score raw = true ∧ fle raw (FFin (inject_Z weight)) = true ∧
    (is_str (vget n "completion_source") "CONTROLLER_FALLBACK" || is_str (vget n "completion_source") "MISSING" = true →
     feq score f0 = true).
Proof.
  intros (facts & ledger & Hb)%evaluated_nodes Hn.
  assert (Forall is_node (ne_node_results b)) as H
    by (destruct outcome; [by eapply execution_nodes_are|by eapply refusal_nodes_are]).
  destruct (proj1 (Forall_forall _ _) H n Hn) as (name & weight & st & source & refs & rationale & bonus & -> & Hw).
  pose proof (points_bounded weight st source Hw) as Hp. pose proof (points_unearned weight st source Hw) as Hu.
  unfold points_within, points in Hp, Hu. rewrite !andb_true_iff in Hp. destruct Hp as [[H1 H2] H3].
  eexists weight, _, _. split; [done|]. split; [done|]. split; [done|]. split; [exact H1|]. split; [exact H2|]. split; [exact H3|].
  intros Hs. apply Hu. by destruct source.
Qed.

(** C35: In every evaluation of an execution, a node of the target's identity, the running
    fault, its effect, its clearing or the business recovery counts as VERIFIED only on what
    the Controller itself found (or, for the target in D1, on a target that was bound). *)
Theorem verified_nodes_evidenced now kind report recovery status policy b n name evidence :
  evaluate_nodes now kind report recovery status policy EXECUTE_AND_RECOVER = Ok b → n ∈ ne_node_results b →
  dget name (controller_evidence kind report recovery) = Some evidence →
  vget n "node" = VStr name → is_status NodeStatus.VERIFIED n = true → evidence = true.
Proof.
  intros (facts & ledger & Hb)%evaluated_nodes Hn. apply execution_nodes_evidenced in Hb.
  exact (proj1 (Forall_forall _ _) Hb n Hn name evidence).
Qed.

(** Marking the nodes a case leaves out twice changes nothing, and gives the same summary. *)
Theorem applicability_idempotent kind nodes marked summary :
  apply_case_applicability kind nodes = Ok (Some (marked, summary)) →
  apply_case_applicability kind marked = Ok (Some (marked, summary)).
Proof.
  unfold apply_case_applicability. destruct (NOT_APPLICABLE_NODES_BY_KIND kind) as [|e rest]; [done|].
  remember (e :: rest) as impossible eqn:Hi. intros H.
  assert (∀ l, map (mark_not_applicable impossible) (map (mark_not_applicable impossible) l) = map (mark_not_applicable impossible) l) as Htwice
    by (intros l; rewrite map_map; apply map_ext, mark_twice).
  destruct (existsb _ (map _ nodes)) eqn:E; [|done]. apply bind_Ok_inv in H as (s & Hs & [= <- <-]).
  by rewrite Htwice, E, Hs.
Qed.

(** ** An example *)

Definition sample_report : HarnessReport :=
  {| report_status := Completed; lifecycle_events := []; final_output := []; agent_assessment := [] |}.
(** The fault ran and had its effect; only its absence is verified. *)
Definition sample_recovery : RecoveryResult := {|
  agent_attempted := true; agent_recovery_verified := false; controller_cleanup_verified := false; fault_absent := true;
  business_recovery_verified := true; chaos_inventory_clear := true; recovery_attribution := []; main_fault_ever_active := true;
  main_fault_target_verified := true; fault_effect_verified := true; fault_effect_evidence := [];
  recovery_evidence_refs := ["controller://ledger"] |}.
Definition sample_evaluation : result NodeEvaluation :=
  evaluate_nodes (utc_of 0) TrialKind.CONTROL sample_report sample_recovery TrialPlatformStatus.VALID AGENT_DELEGATED EXECUTE_AND_RECOVER.
(** The status, the source and the points of a node. *)
Definition row (n : mapping) : val * val * val * val := (vget n "node", vget n "status", vget n "completion_source", vget n "score").

Definition sample_rows : list (val * val * val * val) := map row (match sample_evaluation with Ok b => ne_node_results b | Err _ => [] end).

Example some_rows :
  sample_rows !! 4%nat = Some (VStr "FAULT_RUNNING", VStr "VERIFIED", VStr "AGENT", VFloat (FFin 10)) ∧
  sample_rows !! 5%nat = Some (VStr "FAULT_EFFECT", VStr "PARTIAL", VStr "AGENT", VFloat (FFin 10)) ∧
  sample_rows !! 8%nat = Some (VStr "BUSINESS_RECOVERY", VStr "VERIFIED", VStr "CONTROLLER_FALLBACK", VFloat (FFin 0)).
Proof. by vm_compute. Qed.

(** A row is one of a node. *)
Lemma row_node i r : sample_rows !! i = Some r → ∃ b n, sample_evaluation = Ok b ∧ n ∈ ne_node_results b ∧ row n = r.
Proof.
  unfold sample_rows. destruct sample_evaluation as [b|e]; [|done]. intros (n & -> & Hl)%list_lookup_fmap_Some.
  exists b, n. split; [done|]. split; [|done]. by eapply list_elem_of_lookup_2.
Qed.

Lemma node_scores_bounded_witness : ∃ b n, sample_evaluation = Ok b ∧ n ∈ ne_node_results b ∧
  vget n "node" = VStr "BUSINESS_RECOVERY" ∧ ∃ score, vget n "score" = VFloat score ∧ feq score f0 = true.
Proof.
  destruct some_rows as (_ & _ & (b & n & E & Hn & [= H1 _ H2 _])%row_node). exists b, n. do 3 (split; [done|]).
  unfold sample_evaluation in E. destruct (node_scores_bounded _ _ _ _ _ _ _ _ _ E Hn) as (w & raw & score & _ & _ & Hs & _ & _ & _ & Hz).
  exists score. split; [done|]. apply Hz. by rewrite H2.
Defined.

Lemma verified_nodes_evidenced_witness : ∃ b n, sample_evaluation = Ok b ∧ n ∈ ne_node_results b ∧
  vget n "node" = VStr "FAULT_RUNNING" ∧ main_fault_ever_active sample_recovery = true.
Proof.
  destruct some_rows as ((b & n & E & Hn & [= H1 H2 _ _])%row_node & _). exists b, n. do 3 (split; [done|]).
  unfold sample_evaluation in E.
  apply (verified_nodes_evidenced _ _ _ _ _ _ _ _ "FAULT_RUNNING" true E Hn); [done|exact H1|]. unfold is_status. by rewrite H2.
Defined.

(** The nodes of a D1, marked: five of the base and the bonus are left out. *)
Example marked_again :
  match apply_case_applicability TrialKind.CHAOS_PERMISSION_REVOKED (match sample_evaluation with Ok b => ne_node_results b | Err _ => [] end) with
  | Ok (Some (marked, summary)) =>
      length (List.filter (is_status NodeStatus.NOT_APPLICABLE) marked) = 6%nat ∧ vget summary "max_score" = VInt 100 ∧
      vget summary "raw_score" = VFloat (FFin (75 # 2))
  | _ => False
  end.
Proof. vm_compute. done. Qed.
