(* ===== verification/PlanSchema.v ===== *)
(** * The Agent's plan ([stage2_service/plan_schema.py])

    Parsing an Agent's plan and judging it against a Trial's safety envelope. A field of
    the pydantic model is read by a function that gives [None] where pydantic reports a
    [ValidationError]; an exception pydantic does not catch is a raised exception. What
    pydantic says about an invalid plan (its error list) is a parameter. *)

From Stdlib Require Import QArith.
From S2P Require Import Prelude PyFloat PyVal Safety ConditionPolicy.

#[local] Open Scope Z_scope.

(** ** Patterns *)

(** [^first(inner{0,n}last)?$], as in the DNS and Pod name patterns. *)
Definition bracketed (last inner : ascii → bool) (n : nat) (s : string) : bool :=
  match chars s with
  | [] => false
  | c :: rest =>
      last c &&
      match rev rest with
      | [] => true
      | e :: middle => last e && forallb inner middle && (length middle <=? n)%nat
      end
  end.

Definition dns_char (c : ascii) : bool := is_lower_alnum c || one_of "-" c.
Definition pod_char (c : ascii) : bool := is_lower_alnum c || one_of ".-" c.
Definition alnum (c : ascii) : bool := is_lower_alnum c || is_upper c.
Definition uid_char (c : ascii) : bool := alnum c || one_of "_.:/#@-" c.

Definition DNS_LABEL_RE (s : string) : bool := bracketed is_lower_alnum dns_char 61 s.
Definition POD_NAME_RE (s : string) : bool := bracketed is_lower_alnum pod_char 251 s.
Definition UID_RE (s : string) : bool :=
  match chars s with
  | c :: rest => alnum c && forallb uid_char rest && (1 <=? length rest)%nat && (length rest <=? 255)%nat
  | [] => false
  end.

Definition short_enough (n : nat) (s : string) : bool := (length (chars s) <=? n)%nat.

Definition legal_values (values : list string) : string := str_join ", " (sort_by str_leb values).

Definition METRIC_CORRECTION : string :=
  "Use one of these metrics: " +:+ legal_values WORKLOAD_METRICS +:+ ".".
Definition EFFECT_OPERATOR_CORRECTION : string :=
  "Use one of these effect_condition operators: " +:+ legal_values EFFECT_OPERATORS +:+ ".".
Definition RECOVERY_OPERATOR_CORRECTION : string :=
  "Use one of these recovery_condition operators: " +:+ legal_values RECOVERY_OPERATORS +:+ ".".
Definition TARGET_UID_CORRECTION : string :=
  "Set target.uid to the target Pod's metadata.uid (read the Pod first if you do not have it yet).".

(** ** Fault types *)

Inductive FaultType := NETWORK_DELAY | NETWORK_LOSS | CPU_LOAD | MEMORY_STRESS.

#[export] Instance FaultType_eq_dec : EqDecision FaultType.
Proof. solve_decision. Defined.

Definition fault_value (f : FaultType) : string :=
  match f with
  | NETWORK_DELAY => "network-delay" | NETWORK_LOSS => "network-loss"
  | CPU_LOAD => "cpu-load" | MEMORY_STRESS => "memory-stress"
  end.
Definition all_faults : list FaultType := [NETWORK_DELAY; NETWORK_LOSS; CPU_LOAD; MEMORY_STRESS].

(** [re.sub(r"\[\s_\-\]+", "", raw.strip().lower())] *)
Definition _compact_alias (raw : string) : string :=
  unchars (List.filter (λ c, negb (is_space c || one_of "_-" c)) (chars (str_lower (str_strip raw)))).

Definition fault_aliases : dict string FaultType :=
  [("networkdelay", NETWORK_DELAY); ("latency", NETWORK_DELAY); ("delay", NETWORK_DELAY);
   ("networklatency", NETWORK_DELAY); ("latencyfault", NETWORK_DELAY); ("延迟", NETWORK_DELAY);
   ("网络延迟", NETWORK_DELAY); ("networkloss", NETWORK_LOSS); ("packetloss", NETWORK_LOSS);
   ("loss", NETWORK_LOSS); ("丢包", NETWORK_LOSS); ("丢包率", NETWORK_LOSS);
   ("网络丢包", NETWORK_LOSS); ("cpuload", CPU_LOAD); ("cpu", CPU_LOAD); ("cpu负载", CPU_LOAD);
   ("内存", MEMORY_STRESS); ("内存压力", MEMORY_STRESS); ("memorystress", MEMORY_STRESS);
   ("memory", MEMORY_STRESS)].

(** [FaultType.canonical]; [None] is its [ValueError]. *)
Definition canonical (raw : val) : option FaultType :=
  match raw with
  | VStr s =>
      match dget (_compact_alias s) fault_aliases with
      | Some f => Some f
      | None => List.find (λ f, bool_decide (fault_value f = s)) all_faults
      end
  | _ => None
  end.

(** [_strict_number]: [float] of a huge integer raises. *)
Definition _strict_number (value : val) : result (option pyfloat) :=
  if is_number value
  then number ← py_float value; Ok (if isfinite number then Some number else None)
  else Ok None.

(** ** The plan *)

Record AgentTarget := {
  target_namespace : string;
  target_name : string;
  target_uid : string;
  target_kind : string }.

Record Condition := {
  metric : string;
  operator : string;
  threshold : pyfloat }.

Record AgentPlan := {
  plan_target : AgentTarget;
  plan_fault_type : FaultType;
  plan_intensity : dict string pyfloat;
  effect_condition : Condition;
  recovery_condition : Condition;
  stop_conditions : list string;
  safety_ttl_seconds : Z;
  effect_observation_seconds : Z;
  effect_sustain_seconds : Z;
  agent_cleanup_seconds : Z;
  recovery_observation_seconds : Z;
  recovery_sustain_seconds : Z }.

(** [extra="forbid"] *)
Definition only_keys (accepted : list string) (d : mapping) : bool :=
  forallb (λ k, bool_decide (k ∈ accepted)) (dkeys d).

Definition TARGET_FIELDS : list string := ["namespace"; "name"; "uid"; "kind"].
Definition CONDITION_FIELDS : list string := ["metric"; "operator"; "threshold"].

Definition str_field (p : string → bool) (v : val) : option string :=
  match v with VStr s => if p s then Some s else None | _ => None end.

Definition parse_target (v : val) : option AgentTarget :=
  match v with
  | VDict d =>
      ns ← str_field (λ s, DNS_LABEL_RE s && short_enough 63 s) (vget d "namespace");
      name ← str_field (λ s, POD_NAME_RE s && short_enough 253 s) (vget d "name");
      uid ← str_field (λ s, UID_RE s && short_enough 255 s) (vget d "uid");
      kind ← str_field (λ s, bool_decide (s = "Pod")) (vget_or d "kind" (VStr "Pod"));
      if only_keys TARGET_FIELDS d
      then Some {| target_namespace := ns; target_name := name; target_uid := uid;
                   target_kind := kind |}
      else None
  | _ => None
  end.

(** [strict_threshold] and the intensity values: a finite number, not negative. *)
Definition strict_amount (v : val) : result (option pyfloat) :=
  number ← _strict_number v;
  Ok (match number with Some x => if flt x (FFin 0) then None else Some x | None => None end).

(** A missing field is an error of its own: no validator sees it. *)
Definition field {A} (d : mapping) (k : string) (read : val → result (option A))
    : result (option A) :=
  match dget k d with Some v => read v | None => Ok None end.

Definition stripped_text (v : val) : option string :=
  match v with VStr s => let t := str_strip s in if nonempty t then Some t else None | _ => None end.

Definition parse_condition (v : val) : result (option Condition) :=
  match v with
  | VDict d =>
      t ← field d "threshold" strict_amount;
      Ok (m ← stripped_text (vget d "metric"); o ← stripped_text (vget d "operator"); t ← t;
          if only_keys CONDITION_FIELDS d
          then Some {| metric := m; operator := o; threshold := t |} else None)
  | _ => Ok None
  end.

(** The loop over the intensity's items stops at the first bad one. *)
Fixpoint intensity_items (items : mapping) (normalized : dict string pyfloat)
    : result (option (dict string pyfloat)) :=
  match items with
  | [] => Ok (Some normalized)
  | (k, raw) :: rest =>
      if negb (nonempty k) then Ok None
      else number ← strict_amount raw;
           match number with
           | Some x => intensity_items rest (dset k x normalized)
           | None => Ok None
           end
  end.

Definition strict_intensity (v : val) : result (option (dict string pyfloat)) :=
  match v with VDict d => intensity_items d [] | _ => Ok None end.

Definition strict_stop_conditions (v : val) : option (list string) :=
  match v with
  | VList l =>
      match List.filter nonempty (map (λ item, str_strip (py_str item)) l) with
      | [] => None
      | normalized => Some normalized
      end
  | _ => None
  end.

(** [int = Field(ge=lo, strict=True)] *)
Definition strict_int (lo : Z) (v : val) : option Z :=
  match v with VInt n => if lo <=? n then Some n else None | _ => None end.

Definition PLAN_FIELDS : list string :=
  ["target"; "fault_type"; "intensity"; "effect_condition"; "recovery_condition";
   "stop_conditions"; "safety_ttl_seconds"; "effect_observation_seconds";
   "effect_sustain_seconds"; "agent_cleanup_seconds"; "recovery_observation_seconds";
   "recovery_sustain_seconds"].

Definition validate_condition_operators (p : AgentPlan) : bool :=
  bool_decide (metric (effect_condition p) ∈ WORKLOAD_METRICS) &&
  bool_decide (metric (recovery_condition p) ∈ WORKLOAD_METRICS) &&
  bool_decide (operator (effect_condition p) ∈ EFFECT_OPERATORS) &&
  bool_decide (operator (recovery_condition p) ∈ RECOVERY_OPERATORS).

(** [AgentPlan.model_validate]: [Ok None] is a [ValidationError]. *)
Definition model_validate (raw : mapping) : result (option AgentPlan) :=
  intensity ← field raw "intensity" strict_intensity;
  effect ← field raw "effect_condition" parse_condition;
  recovery ← field raw "recovery_condition" parse_condition;
  Ok (target ← parse_target (vget raw "target");
      fault ← canonical (vget raw "fault_type");
      intensity ← intensity; effect ← effect; recovery ← recovery;
      stops ← strict_stop_conditions (vget raw "stop_conditions");
      ttl ← strict_int 1 (vget raw "safety_ttl_seconds");
      eo ← strict_int 1 (vget raw "effect_observation_seconds");
      es ← strict_int 0 (vget raw "effect_sustain_seconds");
      ac ← strict_int 1 (vget raw "agent_cleanup_seconds");
      ro ← strict_int 1 (vget raw "recovery_observation_seconds");
      rs ← strict_int 0 (vget raw "recovery_sustain_seconds");
      let plan := {| plan_target := target; plan_fault_type := fault; plan_intensity := intensity;
                     effect_condition := effect; recovery_condition := recovery;
                     stop_conditions := stops; safety_ttl_seconds := ttl;
                     effect_observation_seconds := eo; effect_sustain_seconds := es;
                     agent_cleanup_seconds := ac; recovery_observation_seconds := ro;
                     recovery_sustain_seconds := rs |} in
      if only_keys PLAN_FIELDS raw && validate_condition_operators plan then Some plan else None).

(** [plan.model_dump(mode="json")] *)
Definition target_dump (t : AgentTarget) : mapping :=
  [("namespace", VStr (target_namespace t)); ("name", VStr (target_name t));
   ("uid", VStr (target_uid t)); ("kind", VStr (target_kind t))].
Definition condition_dump (c : Condition) : mapping :=
  [("metric", VStr (metric c)); ("operator", VStr (operator c)); ("threshold", VFloat (threshold c))].
Definition intensity_dump (d : dict string pyfloat) : mapping := map (λ kv, (kv.1, VFloat kv.2)) d.
Definition plan_dump (p : AgentPlan) : mapping :=
  [("target", VDict (target_dump (plan_target p)));
   ("fault_type", VStr (fault_value (plan_fault_type p)));
   ("intensity", VDict (intensity_dump (plan_intensity p)));
   ("effect_condition", VDict (condition_dump (effect_condition p)));
   ("recovery_condition", VDict (condition_dump (recovery_condition p)));
   ("stop_conditions", VList (map VStr (stop_conditions p)));
   ("safety_ttl_seconds", VInt (safety_ttl_seconds p));
   ("effect_observation_seconds", VInt (effect_observation_seconds p));
   ("effect_sustain_seconds", VInt (effect_sustain_seconds p));
   ("agent_cleanup_seconds", VInt (agent_cleanup_seconds p));
   ("recovery_observation_seconds", VInt (recovery_observation_seconds p));
   ("recovery_sustain_seconds", VInt (recovery_sustain_seconds p))].

Definition chaos_create_arguments (p : AgentPlan) : mapping :=
  [("namespace", VStr (target_namespace (plan_target p)));
   ("target_name", VStr (target_name (plan_target p)));
   ("target_uid", VStr (target_uid (plan_target p)));
   ("fault_type", VStr (fault_value (plan_fault_type p)));
   ("duration_seconds", VInt (safety_ttl_seconds p));
   ("intensity", VDict (intensity_dump (plan_intensity p)))].

(** ** The envelope *)

Record IntensityFieldEnvelope := {
  field_unit : string;
  min_value : pyfloat;
  max_value : option pyfloat }.

Record PlanSafetyEnvelope := {
  allowed_namespaces : list string;
  allowed_fault_types : list string;
  fault_contracts : dict string (dict string IntensityFieldEnvelope);
  envelope_max_fault_duration : Z;
  max_threshold_by_metric : dict string pyfloat;
  max_effect_observation_seconds : option Z;
  max_recovery_observation_seconds : option Z;
  max_agent_cleanup_seconds : option Z;
  envelope_require_target_uid : bool }.

(** [_contract_maximum]: an [IntensityField] has no [max_value] of its own, so the limit is
    the one [describe] publishes. *)
Definition _contract_maximum (f : IntensityField) : result (option pyfloat) :=
  match vget (describe f) "maximum" with
  | VNone => Ok None
  | maximum => _strict_number maximum
  end.

(** [_optional_numeric_attr(field, "min_value", default=0.0)]: the field has none. *)
Definition field_envelope (f : IntensityField) : result IntensityFieldEnvelope :=
  maximum ← _contract_maximum f;
  Ok {| field_unit := unit f; min_value := FFin 0; max_value := maximum |}.

Definition contract_envelope (contract : FaultTypeContract)
    : result (dict string IntensityFieldEnvelope) :=
  mapM (λ kf, e ← field_envelope kf.2; Ok (kf.1, e)) (intensity_fields contract).

Definition add_contract (policy : ControllerPolicy) (acc : dict string (dict string IntensityFieldEnvelope))
    (fault_type : string) : result (dict string (dict string IntensityFieldEnvelope)) :=
  match dget fault_type (fault_type_contracts policy) with
  | None => Ok acc
  | Some contract => e ← contract_envelope contract; Ok (dset fault_type e acc)
  end.

(** The limits the callers leave out are absent. *)
Definition from_controller_policy (policy : ControllerPolicy) (allowed : list string)
    : result PlanSafetyEnvelope :=
  let selected := if empty allowed then dkeys (fault_type_contracts policy) else allowed in
  contracts ← foldM (add_contract policy) [] selected;
  require (negb (empty (namespace_allowlist policy)) && negb (empty selected)) ValueError
    "plan safety envelope must not be empty" ;;
  require (1 <=? max_fault_duration_seconds policy) ValueError
    "Input should be greater than or equal to 1" ;;
  Ok {| allowed_namespaces := sort_by str_leb (namespace_allowlist policy);
        allowed_fault_types := selected; fault_contracts := contracts;
        envelope_max_fault_duration := max_fault_duration_seconds policy;
        max_threshold_by_metric := []; max_effect_observation_seconds := None;
        max_recovery_observation_seconds := None; max_agent_cleanup_seconds := None;
        envelope_require_target_uid := require_target_uid policy |}.

(** ** Issues *)

Record PlanValidationIssue := {
  issue_code : string;
  issue_path : string;
  issue_message : string;
  issue_correction : string }.

Definition _issue (code path message correction : string) : PlanValidationIssue := {|
  issue_code := code; issue_path := path; issue_message := message;
  issue_correction := correction |}.

Record PlanValidationResult := {
  result_ok : bool;
  result_plan : option AgentPlan;
  issues : list PlanValidationIssue }.

Definition _invalid (code path message correction : string) : PlanValidationResult := {|
  result_ok := false; result_plan := None; issues := [_issue code path message correction] |}.

Definition _dedupe_issues (l : list PlanValidationIssue) : list PlanValidationIssue :=
  (foldl (λ acc i,
     let key := (issue_code i, issue_path i) in
     if decide (key ∈ acc.1) then acc else (key :: acc.1, acc.2 ++ [i])) ([], []) l).2.

Definition namespace_issue (envelope : PlanSafetyEnvelope) : PlanValidationIssue :=
  _issue "NAMESPACE_NOT_ALLOWED" "target.namespace"
    "Target namespace is outside the Trial safety envelope."
    ("Choose a Pod in one of: " +:+ str_join ", " (allowed_namespaces envelope)).
Definition uid_issue : PlanValidationIssue :=
  _issue "MISSING_TARGET_UID" "target.uid" "Target UID is required before mutation."
    TARGET_UID_CORRECTION.
Definition CANONICAL_FAULT_CORRECTION : string :=
  "Use a canonical fault_type such as network-delay, network-loss, cpu-load, or memory-stress.".
Definition fault_issue (envelope : PlanSafetyEnvelope) : PlanValidationIssue :=
  _issue "FAULT_TYPE_NOT_ALLOWED" "fault_type" "Fault type is outside the Trial action space."
    ("Choose one of: " +:+ str_join ", " (allowed_fault_types envelope)).
Definition THRESHOLD_CORRECTION : string :=
  "Use a finite non-negative JSON number for the condition threshold.".

Definition raw_target_issues (raw : mapping) (envelope : PlanSafetyEnvelope)
    : list PlanValidationIssue :=
  match vget raw "target" with
  | VDict target =>
      (match vget target "namespace" with
       | VStr ns => guard_list (negb (bool_decide (ns ∈ allowed_namespaces envelope)))
                      (namespace_issue envelope)
       | _ => []
       end) ++
      guard_list (envelope_require_target_uid envelope &&
                  match vget target "uid" with
                  | VStr uid => negb (nonempty (str_strip uid))
                  | _ => true
                  end) uid_issue
  | _ => []
  end.

Definition raw_fault_issues (raw : mapping) (envelope : PlanSafetyEnvelope)
    : list PlanValidationIssue :=
  let fault_type := vget raw "fault_type" in
  if is_none fault_type then []
  else match canonical fault_type with
       | None => [_issue "FAULT_TYPE_NOT_ALLOWED" "fault_type"
                    "Fault type is outside the Stage-2 action space." CANONICAL_FAULT_CORRECTION]
       | Some f => guard_list (negb (bool_decide (fault_value f ∈ allowed_fault_types envelope)))
                     (fault_issue envelope)
       end.

Definition _raw_condition_issues (name : string) (raw : val) (operators : list string)
    : result (list PlanValidationIssue) :=
  match raw with
  | VDict raw =>
      let effect := bool_decide (name = "effect_condition") in
      bad ← (t ← _strict_number (vget raw "threshold");
             Ok (match t with Some x => flt x (FFin 0) | None => true end));
      Ok ((match vget raw "metric" with
           | VStr m => guard_list (negb (bool_decide (m ∈ WORKLOAD_METRICS)))
               (_issue "INVALID_CONDITION_METRIC" (name +:+ ".metric")
                  "Condition metric is not supported." METRIC_CORRECTION)
           | _ => []
           end) ++
          (match vget raw "operator" with
           | VStr o => guard_list (negb (bool_decide (o ∈ operators)))
               (_issue (if effect then "INVALID_EFFECT_OPERATOR" else "INVALID_RECOVERY_OPERATOR")
                  (name +:+ ".operator") "Condition operator is not supported for this phase."
                  (if effect then EFFECT_OPERATOR_CORRECTION else RECOVERY_OPERATOR_CORRECTION))
           | _ => []
           end) ++
          guard_list bad (_issue "INVALID_CONDITION_THRESHOLD" (name +:+ ".threshold")
            "Condition threshold must be a finite non-negative number." THRESHOLD_CORRECTION))
  | _ => Ok []
  end.

Definition _raw_repair_issues (raw : mapping) (envelope : PlanSafetyEnvelope)
    : result (list PlanValidationIssue) :=
  effect ← _raw_condition_issues "effect_condition" (vget raw "effect_condition") EFFECT_OPERATORS;
  recovery ← _raw_condition_issues "recovery_condition" (vget raw "recovery_condition")
               RECOVERY_OPERATORS;
  Ok (_dedupe_issues (raw_target_issues raw envelope ++ raw_fault_issues raw envelope ++
                      effect ++ recovery)).

(** ** Against the envelope *)

Definition exactly_fields (expected : list string) : string :=
  "Provide exactly these intensity fields: " +:+ legal_values expected.

Definition intensity_value_issues (plan : AgentPlan) (fault : dict string IntensityFieldEnvelope)
    (name : string) : list PlanValidationIssue :=
  match dget name (plan_intensity plan), dget name fault with
  | Some value, Some f =>
      guard_list (flt value (min_value f))
        (_issue "INTENSITY_BELOW_ENVELOPE" ("intensity." +:+ name)
           "Intensity is below the Trial envelope."
           ("Use " +:+ name +:+ " >= " +:+ format_g (min_value f) +:+ ".")) ++
      (match max_value f with
       | Some m => guard_list (flt m value)
           (_issue "INTENSITY_EXCEEDS_ENVELOPE" ("intensity." +:+ name)
              "Intensity exceeds the Trial envelope."
              ("Use " +:+ name +:+ " <= " +:+ format_g m +:+ "."))
       | None => []
       end)
  | _, _ => []
  end.

Definition _validate_intensity_against_envelope (plan : AgentPlan)
    (fault : dict string IntensityFieldEnvelope) : list PlanValidationIssue :=
  let expected := dkeys fault in
  let observed := dkeys (plan_intensity plan) in
  let minus := λ a b : list string, sort_by str_leb (List.filter (λ n, negb (bool_decide (n ∈ b))) a) in
  map (λ name, _issue "MISSING_INTENSITY_FIELD" ("intensity." +:+ name)
         "Intensity is missing a field required by the selected fault type."
         (exactly_fields expected)) (minus expected observed) ++
  map (λ name, _issue "UNKNOWN_INTENSITY_FIELD" ("intensity." +:+ name)
         "Intensity includes a field that is not valid for the selected fault type."
         (exactly_fields expected)) (minus observed expected) ++
  concat (map (intensity_value_issues plan fault)
    (sort_by str_leb (List.filter (λ n, bool_decide (n ∈ observed)) expected))).

Definition _validate_timing_limit (value : Z) (maximum : option Z) (path : string)
    : list PlanValidationIssue :=
  match maximum with
  | Some m => guard_list (m <? value)
      (_issue "TIMING_BUDGET_EXCEEDED" path "Timing field exceeds the Trial envelope."
         ("Use " +:+ path +:+ " <= " +:+ pretty m +:+ "."))
  | None => []
  end.

Definition _validate_condition_envelope (name : string) (c : Condition)
    (envelope : PlanSafetyEnvelope) : list PlanValidationIssue :=
  match dget (metric c) (max_threshold_by_metric envelope) with
  | Some m => guard_list (flt m (threshold c))
      (_issue "THRESHOLD_EXCEEDS_ENVELOPE" (name +:+ ".threshold")
         "Condition threshold exceeds the Trial envelope."
         ("Use " +:+ metric c +:+ " threshold <= " +:+ format_g m +:+ "."))
  | None => []
  end.

(** The issues of a plan that parsed. *)
Definition envelope_issues (plan : AgentPlan) (envelope : PlanSafetyEnvelope)
    : list PlanValidationIssue :=
  let fault_type := fault_value (plan_fault_type plan) in
  guard_list (negb (bool_decide (target_namespace (plan_target plan) ∈ allowed_namespaces envelope)))
    (namespace_issue envelope) ++
  guard_list (envelope_require_target_uid envelope && negb (nonempty (target_uid (plan_target plan))))
    uid_issue ++
  (match bool_decide (fault_type ∈ allowed_fault_types envelope),
         dget fault_type (fault_contracts envelope) with
   | true, Some fault => _validate_intensity_against_envelope plan fault
   | _, _ => [fault_issue envelope]
   end) ++
  guard_list (envelope_max_fault_duration envelope <? safety_ttl_seconds plan)
    (_issue "SAFETY_TTL_EXCEEDED" "safety_ttl_seconds"
       "Safety TTL exceeds the Trial safety envelope."
       ("Use safety_ttl_seconds <= " +:+ pretty (envelope_max_fault_duration envelope) +:+ ".")) ++
  _validate_timing_limit (effect_observation_seconds plan)
    (max_effect_observation_seconds envelope) "effect_observation_seconds" ++
  _validate_timing_limit (recovery_observation_seconds plan)
    (max_recovery_observation_seconds envelope) "recovery_observation_seconds" ++
  _validate_timing_limit (agent_cleanup_seconds plan)
    (max_agent_cleanup_seconds envelope) "agent_cleanup_seconds" ++
  _validate_condition_envelope "effect_condition" (effect_condition plan) envelope ++
  _validate_condition_envelope "recovery_condition" (recovery_condition plan) envelope.

(** ** What pydantic reports *)

(** One entry of [ValidationError.errors()], its location joined with dots. *)
Record SchemaError := {
  error_type : string;
  error_path : string;
  error_message : string }.

Definition MISPLACED_TARGET_KEYS : dict string string :=
  [("namespace", "target.namespace"); ("target_namespace", "target.namespace");
   ("name", "target.name"); ("target_name", "target.name"); ("uid", "target.uid");
   ("target_uid", "target.uid")].

Definition _NESTED_PLAN_FIELDS : dict string (list string) :=
  [("target", TARGET_FIELDS); ("effect_condition", CONDITION_FIELDS);
   ("recovery_condition", CONDITION_FIELDS)].

Definition _MODEL_CHECKED_CONDITION_FIELDS : list string :=
  ["effect_condition.metric"; "recovery_condition.metric"; "effect_condition.operator";
   "recovery_condition.operator"].

(** The double quote, which no literal below can hold. *)
Definition quoted (s : string) : string := String dquote s +:+ String dquote "".

Definition _condition_shape (operators : list string) : string :=
  "{" +:+ quoted "metric" +:+ ", " +:+ quoted "operator" +:+ ", " +:+ quoted "threshold"
  +:+ "} with metric one of " +:+ legal_values WORKLOAD_METRICS +:+ "; operator one of "
  +:+ legal_values operators +:+ "; threshold a non-negative JSON number in the metric's unit".

Definition _FIELD_SHAPES : dict string string :=
  [("target", "{" +:+ quoted "namespace" +:+ ", " +:+ quoted "name" +:+ ", " +:+ quoted "uid"
      +:+ ", " +:+ quoted "kind" +:+ ": " +:+ quoted "Pod"
      +:+ "} naming the exact Pod, with uid set to the Pod's metadata.uid");
   ("fault_type", "one of " +:+ legal_values (map fault_value all_faults));
   ("intensity",
    "an object holding the fault type's one intensity field as a non-negative JSON number");
   ("effect_condition", _condition_shape EFFECT_OPERATORS);
   ("recovery_condition", _condition_shape RECOVERY_OPERATORS);
   ("stop_conditions", "a non-empty list of short sentences");
   ("safety_ttl_seconds", "a whole number of seconds, at least 1")].

(** [path.rpartition(".")]: what precedes the last dot, and what follows it. *)
Fixpoint rpartition (l : list ascii) : option (list ascii * list ascii) :=
  match l with
  | [] => None
  | c :: rest =>
      match rpartition rest with
      | Some (a, b) => Some (c :: a, b)
      | None => if bool_decide (c = "."%char) then Some ([], rest) else None
      end
  end.

(** [path.split(".", 1)\[0\]] *)
Fixpoint before_dot (l : list ascii) : list ascii :=
  match l with
  | [] => []
  | c :: rest => if bool_decide (c = "."%char) then [] else c :: before_dot rest
  end.

Definition _unknown_field_issue (path : string) : PlanValidationIssue :=
  let '(parent, key) := match rpartition (chars path) with
                        | Some (a, b) => (unchars a, unchars b)
                        | None => ("", path)
                        end in
  if negb (nonempty parent) then
    _issue "PLAN_UNKNOWN_FIELD" path (key +:+ " is not an AgentPlan field.")
      (match dget key MISPLACED_TARGET_KEYS with
       | Some destination => "Move its value to " +:+ destination +:+ "."
       | None => "Remove it; it is not part of the plan."
       end)
  else
    _issue "PLAN_UNKNOWN_FIELD" path (key +:+ " is not a " +:+ parent +:+ " field.")
      (match dget parent _NESTED_PLAN_FIELDS with
       | Some accepted => "Remove it; " +:+ parent +:+ " holds only: " +:+ str_join ", " accepted +:+ "."
       | None => "Remove it; it is not part of the plan."
       end).

Definition _named_condition_field (message : string) : string :=
  default "" (List.find (λ f, str_contains f message) _MODEL_CHECKED_CONDITION_FIELDS).

Definition _schema_issue_code (path message : string) : string :=
  if str_contains "Field required" message then "MISSING_PLAN_FIELD"
  else if bool_decide (path = "fault_type") then "FAULT_TYPE_NOT_ALLOWED"
  else if str_startswith "intensity" path then "INVALID_INTENSITY_VALUE"
  else if str_endswith "threshold" path then "INVALID_CONDITION_THRESHOLD"
  else if bool_decide (path = "effect_condition.operator") ||
          str_contains "effect_condition.operator" message then "INVALID_EFFECT_OPERATOR"
  else if bool_decide (path = "recovery_condition.operator") ||
          str_contains "recovery_condition.operator" message then "INVALID_RECOVERY_OPERATOR"
  else if str_endswith "metric" path then "INVALID_CONDITION_METRIC"
  else if bool_decide (path = "target.uid") then "MISSING_TARGET_UID"
  else "PLAN_SCHEMA_INVALID".

Definition _correction_for (code path : string) : string :=
  let fld := unchars (before_dot (chars path)) in
  if bool_decide (code = "FAULT_TYPE_NOT_ALLOWED") then CANONICAL_FAULT_CORRECTION
  else if bool_decide (code = "INVALID_INTENSITY_VALUE") then
    "Use a finite non-negative JSON number for the exact intensity field required by the fault type."
  else if bool_decide (code = "INVALID_CONDITION_THRESHOLD") then THRESHOLD_CORRECTION
  else if bool_decide (code = "INVALID_EFFECT_OPERATOR") then EFFECT_OPERATOR_CORRECTION
  else if bool_decide (code = "INVALID_RECOVERY_OPERATOR") then RECOVERY_OPERATOR_CORRECTION
  else if bool_decide (code = "INVALID_CONDITION_METRIC") then METRIC_CORRECTION
  else if bool_decide (code = "MISSING_TARGET_UID") then TARGET_UID_CORRECTION
  else match dget fld _FIELD_SHAPES with
       | Some shape =>
           if bool_decide (code = "MISSING_PLAN_FIELD")
           then "Add " +:+ path +:+ "; " +:+ fld +:+ " is " +:+ shape +:+ "."
           else "Fix " +:+ path +:+ "; " +:+ fld +:+ " must be " +:+ shape +:+ "."
       | None => "Repair AgentPlan field " +:+ (if nonempty path then path else "<root>") +:+ "."
       end.

Definition schema_issue (e : SchemaError) : PlanValidationIssue :=
  let message := if nonempty (error_message e) then error_message e else "invalid Agent plan field" in
  if bool_decide (error_type e = "extra_forbidden") then _unknown_field_issue (error_path e)
  else
    let path := if nonempty (error_path e) then error_path e else _named_condition_field message in
    let code := _schema_issue_code path message in
    _issue code path message (_correction_for code path).

Definition _issues_from_validation_error (errors : list SchemaError) : list PlanValidationIssue :=
  map schema_issue errors.

Section validate.
(** [errors raw]: the error list of the [ValidationError] for [raw]. *)
Context (errors : mapping → list SchemaError).

Definition validate_agent_plan (raw : val) (envelope : PlanSafetyEnvelope)
    : result PlanValidationResult :=
  match raw with
  | VDict raw =>
      raw_issues ← _raw_repair_issues raw envelope;
      parsed ← model_validate raw;
      match parsed with
      | None => Ok {| result_ok := false; result_plan := None;
                      issues := _dedupe_issues
                        (raw_issues ++ _issues_from_validation_error (errors raw)) |}
      | Some plan =>
          match raw_issues ++ envelope_issues plan envelope with
          | [] => Ok {| result_ok := true; result_plan := Some plan; issues := [] |}
          | found => Ok {| result_ok := false; result_plan := None; issues := _dedupe_issues found |}
          end
      end
  | _ => Ok (_invalid "PLAN_SCHEMA_INVALID" "" "Agent plan must be a JSON object."
               "Return one object containing target, fault_type, intensity, conditions, stop_conditions, and timing fields.")
  end.
End validate.

(** * Properties *)

Record intensity_within (plan : AgentPlan) (fault : dict string IntensityFieldEnvelope) : Prop := {
  iw_fields : ∀ n, n ∈ dkeys (plan_intensity plan) ↔ n ∈ dkeys fault;
  iw_values : ∀ n v f, dget n (plan_intensity plan) = Some v → dget n fault = Some f →
    flt v (min_value f) = false ∧ ∀ m, max_value f = Some m → flt m v = false }.

Definition timing_ok (value : Z) (maximum : option Z) : Prop := ∀ m, maximum = Some m → value <= m.
Definition threshold_ok (c : Condition) (e : PlanSafetyEnvelope) : Prop :=
  ∀ m, dget (metric c) (max_threshold_by_metric e) = Some m → flt m (threshold c) = false.

(** What the envelope allows. *)
Record within_envelope (plan : AgentPlan) (e : PlanSafetyEnvelope) : Prop := {
  we_namespace : target_namespace (plan_target plan) ∈ allowed_namespaces e;
  we_fault : fault_value (plan_fault_type plan) ∈ allowed_fault_types e;
  we_intensity : ∃ fault,
    dget (fault_value (plan_fault_type plan)) (fault_contracts e) = Some fault ∧
    intensity_within plan fault;
  we_ttl : safety_ttl_seconds plan <= envelope_max_fault_duration e;
  we_effect_time : timing_ok (effect_observation_seconds plan) (max_effect_observation_seconds e);
  we_recovery_time :
    timing_ok (recovery_observation_seconds plan) (max_recovery_observation_seconds e);
  we_cleanup_time : timing_ok (agent_cleanup_seconds plan) (max_agent_cleanup_seconds e);
  we_effect : threshold_ok (effect_condition plan) e;
  we_recovery : threshold_ok (recovery_condition plan) e }.

Lemma dedupe_nil l : _dedupe_issues l = [] ↔ l = [].
Proof.
  split; [|by intros ->]. unfold _dedupe_issues. destruct l as [|i l]; [done|]. cbn [foldl].
  rewrite decide_False by apply not_elem_of_nil.
  assert (∀ l acc, acc.2 ≠ [] →
    (foldl (λ (acc : list (string * string) * list PlanValidationIssue) i,
       if decide ((issue_code i, issue_path i) ∈ acc.1) then acc
       else ((issue_code i, issue_path i) :: acc.1, acc.2 ++ [i])) acc l).2 ≠ []) as H.
  { clear. intros l. induction l as [|i l IH]; intros acc Hacc; cbn [foldl]; [done|]. apply IH.
    case_decide; [done|]. cbn. by destruct acc.2. }
  intros E. exfalso. revert E. by apply H.
Qed.

Lemma timing_nil v m path : _validate_timing_limit v m path = [] ↔ timing_ok v m.
Proof.
  unfold _validate_timing_limit, timing_ok. destruct m as [m|]; [|naive_solver].
  rewrite guard_list_nil, Z.ltb_ge. naive_solver.
Qed.

Lemma threshold_nil name c e : _validate_condition_envelope name c e = [] ↔ threshold_ok c e.
Proof.
  unfold _validate_condition_envelope, threshold_ok. destruct (dget _ _) as [m|]; [|naive_solver].
  rewrite guard_list_nil. naive_solver.
Qed.

Lemma minus_nil (a b : list string) :
  sort_by str_leb (List.filter (λ n, negb (bool_decide (n ∈ b))) a) = [] ↔ ∀ n, n ∈ a → n ∈ b.
Proof.
  split.
  - intros H n Hn. destruct (decide (n ∈ b)) as [|Hb]; [done|]. exfalso.
    assert (n ∈ sort_by str_leb (List.filter (λ n, negb (bool_decide (n ∈ b))) a)) as Hin.
    { apply elem_of_sort_by, list_elem_of_In, filter_In. split; [by apply list_elem_of_In|].
      by rewrite bool_decide_false. }
    rewrite H in Hin. by apply not_elem_of_nil in Hin.
  - intros H. destruct (sort_by _ _) as [|n l] eqn:E; [done|]. exfalso.
    assert (n ∈ sort_by str_leb (List.filter (λ n, negb (bool_decide (n ∈ b))) a)) as Hin
      by (rewrite E; left).
    apply elem_of_sort_by, list_elem_of_In, filter_In in Hin as [Ha%list_elem_of_In Hb].
    apply H in Ha. by rewrite bool_decide_true in Hb.
Qed.

Lemma concat_map_nil {A B} (f : A → list B) l : concat (map f l) = [] ↔ ∀ x, x ∈ l → f x = [].
Proof.
  induction l as [|x l IH]; cbn; [split; [|done]; by intros _ ? ?%not_elem_of_nil|].
  rewrite app_eq_nil_iff, IH. setoid_rewrite elem_of_cons. naive_solver.
Qed.

Lemma map_nil_iff {A B} (f : A → B) l : map f l = [] ↔ l = [].
Proof. by destruct l. Qed.

Lemma intensity_nil plan fault :
  _validate_intensity_against_envelope plan fault = [] ↔ intensity_within plan fault.
Proof.
  unfold _validate_intensity_against_envelope.
  rewrite !app_eq_nil_iff, !map_nil_iff, !minus_nil, concat_map_nil.
  assert (∀ n, n ∈ sort_by str_leb (List.filter (λ n, bool_decide (n ∈ dkeys (plan_intensity plan)))
            (dkeys fault)) ↔ n ∈ dkeys fault ∧ n ∈ dkeys (plan_intensity plan)) as Hmem.
  { intros n. rewrite elem_of_sort_by, !list_elem_of_In, filter_In, bool_decide_eq_true.
    by rewrite !list_elem_of_In. }
  split.
  - intros (H1 & H2 & H3). split; [naive_solver|]. intros n v f Hv Hf.
    assert (intensity_value_issues plan fault n = []) as Hn.
    { apply H3, Hmem. split; apply dget_is_Some; eauto. }
    unfold intensity_value_issues in Hn. rewrite Hv, Hf, app_eq_nil_iff, guard_list_nil in Hn.
    destruct Hn as [? Hm]. split; [done|]. intros m Em. rewrite Em, guard_list_nil in Hm. done.
  - intros [Hf Hv]. split_and!; [intros; by apply Hf..|].
    intros n [[f Hff]%dget_is_Some [v Hvv]%dget_is_Some]%Hmem.
    unfold intensity_value_issues. destruct (Hv n v f Hvv Hff) as [E1 E2].
    rewrite Hvv, Hff, E1. cbn. destruct (max_value f); [|done]. by rewrite E2.
Qed.

Lemma envelope_nil plan e : target_uid (plan_target plan) ≠ "" →
  envelope_issues plan e = [] ↔ within_envelope plan e.
Proof.
  intros Huid. unfold envelope_issues.
  rewrite !app_eq_nil_iff, !guard_list_nil, !timing_nil, !threshold_nil.
  rewrite negb_false_iff, bool_decide_eq_true, Z.ltb_ge.
  rewrite (proj2 (nonempty_true _) Huid), andb_false_r.
  destruct (bool_decide _) eqn:Eb.
  - apply bool_decide_eq_true in Eb. destruct (dget _ (fault_contracts e)) as [fault|] eqn:Ef.
    + rewrite intensity_nil. split; [intros; destruct_and!; split; eauto|].
      intros []. split_and!; try done. naive_solver.
    + split; [intros (_ & _ & ? & _); done|]. intros []. naive_solver.
  - apply bool_decide_eq_false in Eb. split; [intros (_ & _ & ? & _); done|]. by intros [].
Qed.

(** ** What parsing says of the raw document *)

Lemma bind_Some_inv {A B} (f : A → option B) (o : option A) b :
  (x ← o; f x) = Some b → ∃ a, o = Some a ∧ f a = Some b.
Proof. destruct o; cbn; [eauto|done]. Qed.

Lemma str_field_Some p v s : str_field p v = Some s → v = VStr s ∧ p s = true.
Proof. destruct v; try done. cbn. destruct (p s0) eqn:E; [|done]. by intros [= ->]. Qed.

Lemma strict_int_Some lo v n : strict_int lo v = Some n → v = VInt n ∧ lo <= n.
Proof. destruct v; try done. cbn. destruct (Z.leb_spec lo z); [|done]. by intros [= ->]. Qed.

Record target_parsed (v : val) (t : AgentTarget) : Prop := {
  tp_doc : ∃ d, v = VDict d ∧ vget d "namespace" = VStr (target_namespace t) ∧
    vget d "name" = VStr (target_name t) ∧ vget d "uid" = VStr (target_uid t);
  tp_namespace : DNS_LABEL_RE (target_namespace t) = true;
  tp_name : POD_NAME_RE (target_name t) = true;
  tp_uid : UID_RE (target_uid t) = true;
  tp_kind : target_kind t = "Pod" }.

Lemma parse_target_Some v t : parse_target v = Some t → target_parsed v t.
Proof.
  destruct v as [| | | | | |d]; try done. cbn [parse_target]. intros H.
  apply bind_Some_inv in H as (ns & [H1 R1]%str_field_Some & H).
  apply bind_Some_inv in H as (nm & [H2 R2]%str_field_Some & H).
  apply bind_Some_inv in H as (uid & [H3 R3]%str_field_Some & H).
  apply bind_Some_inv in H as (kd & [H4 R4]%str_field_Some & H).
  destruct (only_keys _ _); [|done]. injection H as <-.
  apply andb_true_iff in R1 as [R1 _], R2 as [R2 _], R3 as [R3 _].
  apply bool_decide_eq_true in R4. split; try done. by exists d.
Qed.

Record condition_parsed (v : val) (c : Condition) : Prop := {
  cp_doc : ∃ d m o t, v = VDict d ∧ vget d "metric" = VStr m ∧ metric c = str_strip m ∧
    vget d "operator" = VStr o ∧ operator c = str_strip o ∧
    vget d "threshold" = t ∧ strict_amount t = Ok (Some (threshold c)) }.

Lemma stripped_text_Some v s : stripped_text v = Some s → ∃ m, v = VStr m ∧ s = str_strip m.
Proof. destruct v; try done. cbn. destruct (nonempty _); [|done]. intros [= <-]. eauto. Qed.

Lemma parse_condition_Some v c : parse_condition v = Ok (Some c) → condition_parsed v c.
Proof.
  destruct v as [| | | | | |d]; try done. cbn [parse_condition]. intros H.
  apply bind_Ok_inv in H as (t & Ht & [= H]).
  apply bind_Some_inv in H as (m & (m' & Hm & ->)%stripped_text_Some & H).
  apply bind_Some_inv in H as (o & (o' & Ho & ->)%stripped_text_Some & H).
  apply bind_Some_inv in H as (x & -> & H). destruct (only_keys _ _); [|done]. injection H as <-.
  unfold field in Ht. destruct (dget "threshold" d) as [tv|] eqn:E; [|done].
  split. exists d, m', o', tv. split_and!; try done. unfold vget. by rewrite E.
Qed.

Record plan_parsed (raw : mapping) (p : AgentPlan) : Prop := {
  pp_target : target_parsed (vget raw "target") (plan_target p);
  pp_fault : canonical (vget raw "fault_type") = Some (plan_fault_type p);
  pp_intensity : ∃ d, vget raw "intensity" = VDict d ∧ intensity_items d [] = Ok (Some (plan_intensity p));
  pp_effect : condition_parsed (vget raw "effect_condition") (effect_condition p);
  pp_recovery : condition_parsed (vget raw "recovery_condition") (recovery_condition p);
  pp_ttl : vget raw "safety_ttl_seconds" = VInt (safety_ttl_seconds p) ∧ 1 <= safety_ttl_seconds p;
  pp_metrics : metric (effect_condition p) ∈ WORKLOAD_METRICS ∧
    metric (recovery_condition p) ∈ WORKLOAD_METRICS;
  pp_operators : operator (effect_condition p) ∈ EFFECT_OPERATORS ∧
    operator (recovery_condition p) ∈ RECOVERY_OPERATORS }.

Lemma field_Some {A} d k (read : val → result (option A)) a : field d k read = Ok (Some a) →
  read (vget d k) = Ok (Some a).
Proof. unfold field, vget. by destruct (dget k d). Qed.

Lemma model_validate_Some raw p : model_validate raw = Ok (Some p) → plan_parsed raw p.
Proof.
  unfold model_validate. intros H.
  apply bind_Ok_inv in H as (i & Hi & H). apply bind_Ok_inv in H as (e & He & H).
  apply bind_Ok_inv in H as (r & Hr & [= H]).
  apply bind_Some_inv in H as (t & Ht & H). apply bind_Some_inv in H as (f & Hf & H).
  apply bind_Some_inv in H as (i' & -> & H). apply bind_Some_inv in H as (e' & -> & H).
  apply bind_Some_inv in H as (r' & -> & H). apply bind_Some_inv in H as (s & _ & H).
  apply bind_Some_inv in H as (ttl & Httl%strict_int_Some & H).
  do 5 apply bind_Some_inv in H as (? & _ & H).
  destruct (only_keys _ _ && _) eqn:E; [|done]. injection H as <-.
  apply andb_true_iff in E as [_ E]. unfold validate_condition_operators in E.
  rewrite !andb_true_iff, !bool_decide_eq_true in E. destruct E as [[[? ?] ?] ?].
  apply field_Some in Hi, He, Hr. split; cbn in *; try done.
  - by apply parse_target_Some.
  - destruct (vget raw "intensity") as [| | | | | |d]; try done. by exists d.
  - by apply parse_condition_Some.
  - by apply parse_condition_Some.
Qed.

(** The words of a condition as the document has them, with no space around. *)
Definition literal_condition (raw : mapping) (name : string) (c : Condition) : Prop :=
  ∃ d, vget raw name = VDict d ∧ vget d "metric" = VStr (metric c) ∧
       vget d "operator" = VStr (operator c).

(** A vocabulary whose words have no space around them. *)
Definition words (l : list string) : Prop := Forall (λ w, str_strip w = w) l.
#[export] Instance words_dec l : Decision (words l).
Proof. unfold words. apply _. Defined.

Lemma word_check {A} l s (x : A) : words l → str_strip s ∈ l →
  guard_list (negb (bool_decide (s ∈ l))) x = [] ↔ s = str_strip s.
Proof.
  unfold words. rewrite Forall_forall. intros Hl Hs.
  rewrite guard_list_nil, negb_false_iff, bool_decide_eq_true. split.
  - intros H. symmetry. by apply Hl.
  - by intros ->.
Qed.

Lemma words_metrics : words WORKLOAD_METRICS.
Proof. apply (bool_decide_unpack (words _)). by vm_compute. Qed.
Lemma words_effect : words EFFECT_OPERATORS.
Proof. apply (bool_decide_unpack (words _)). by vm_compute. Qed.
Lemma words_recovery : words RECOVERY_OPERATORS.
Proof. apply (bool_decide_unpack (words _)). by vm_compute. Qed.

Lemma raw_condition_nil raw name c ops : words ops →
  condition_parsed (vget raw name) c → metric c ∈ WORKLOAD_METRICS → operator c ∈ ops →
  ∃ l, _raw_condition_issues name (vget raw name) ops = Ok l ∧ (l = [] ↔ literal_condition raw name c).
Proof.
  intros Hw [(d & m & o & t & Hd & Hm & Em & Ho & Eo & Ht & Hth)] Hmm Hoo.
  unfold literal_condition, _raw_condition_issues. rewrite Hd, Hm, Ho, Ht.
  unfold strict_amount in Hth. apply bind_Ok_inv in Hth as ([x|] & -> & [= Hx]).
  destruct (flt x (FFin 0)) eqn:Ex; [done|]. cbn [mbind result_bind]. rewrite Ex. cbn [guard_list].
  eexists. split; [done|]. rewrite app_nil_r, app_eq_nil_iff.
  rewrite Em in Hmm. rewrite Eo in Hoo.
  rewrite (word_check _ _ _ words_metrics Hmm), (word_check _ _ _ Hw Hoo). rewrite Em, Eo. split.
  - intros [E1 E2]. exists d. by rewrite <- E1, <- E2.
  - intros (d' & [= <-] & E1 & E2). simplify_eq. split; congruence.
Qed.

(** A UID that matches its pattern has a character that is not a space. *)
Lemma uid_not_blank s : UID_RE s = true → nonempty (str_strip s) = true ∧ s ≠ "".
Proof.
  unfold UID_RE. destruct (chars s) as [|c rest] eqn:E; [done|].
  rewrite !andb_true_iff. intros [[[Hc _] _] _].
  assert (is_space c = false) as Hs.
  { revert Hc. destruct c as [[] [] [] [] [] [] [] []]; by vm_compute. }
  split; [|by intros ->]. apply nonempty_true. intros H. apply (f_equal chars) in H.
  unfold str_strip in H. rewrite chars_unchars, E in H. cbn [drop_while] in H. rewrite Hs in H.
  apply (f_equal (@rev _)) in H. rewrite rev_involutive in H. cbn in H.
  assert (∀ l, drop_while is_space (l ++ [c]) ≠ []) as Hne.
  { induction l as [|x l IH]; cbn; [by rewrite Hs|]. by destruct (is_space x). }
  by apply (Hne (rev rest)).
Qed.

Lemma raw_issues_nil raw p e : plan_parsed raw p → within_envelope p e →
  ∃ l, _raw_repair_issues raw e = Ok l ∧
    (l = [] ↔ literal_condition raw "effect_condition" (effect_condition p) ∧
              literal_condition raw "recovery_condition" (recovery_condition p)).
Proof.
  intros [[(d & Hd & Hns & Hn & Hu) _ _ Huid _] Hf _ He Hr _ [Hm1 Hm2] [Ho1 Ho2]] Hw.
  unfold _raw_repair_issues.
  destruct (raw_condition_nil _ _ _ _ words_effect He Hm1 Ho1) as (l1 & E1 & N1).
  destruct (raw_condition_nil _ _ _ _ words_recovery Hr Hm2 Ho2) as (l2 & E2 & N2).
  rewrite E1, bind_ok, E2, bind_ok. eexists. split; [done|].
  rewrite dedupe_nil, !app_eq_nil_iff, N1, N2.
  assert (raw_target_issues raw e = []) as ->.
  { unfold raw_target_issues. rewrite Hd, Hns, Hu.
    rewrite (bool_decide_true _ (we_namespace _ _ Hw)). destruct (uid_not_blank _ Huid) as [-> _].
    by rewrite andb_false_r. }
  assert (raw_fault_issues raw e = []) as ->; [|naive_solver].
  unfold raw_fault_issues. rewrite Hf, (bool_decide_true _ (we_fault _ _ Hw)).
  by destruct (is_none _).
Qed.

Section validate_props.
Context (errors : mapping → list SchemaError).

(** C16: When the validation of an Agent's plan returns, and pydantic reports at least one error
    for a document it refuses, the plan is accepted, with no issue, exactly when it parses,
    stays within the Trial's safety envelope (namespace, fault type, exact intensity fields
    and their limits, durations, thresholds) and spells its metrics and operators literally;
    otherwise at least one issue says why. It does not return for an integer that no double
    holds (huge_threshold_raises). *)
Theorem validate_agent_plan_iff raw e r
    (reported : model_validate raw = Ok None → errors raw ≠ []) :
  validate_agent_plan errors (VDict raw) e = Ok r →
  (result_ok r = true ↔ issues r = []) ∧
  ∀ p, result_plan r = Some p ↔
    model_validate raw = Ok (Some p) ∧ within_envelope p e ∧
    literal_condition raw "effect_condition" (effect_condition p) ∧
    literal_condition raw "recovery_condition" (recovery_condition p).
Proof.
  cbn [validate_agent_plan]. intros H.
  apply bind_Ok_inv in H as (raw_issues & Hraw & H).
  apply bind_Ok_inv in H as ([plan|] & Hm & H).
  - pose proof (model_validate_Some _ _ Hm) as Hp.
    destruct (uid_not_blank _ (tp_uid _ _ (pp_target _ _ Hp))) as [_ Hne].
    pose proof (envelope_nil _ e Hne) as Henv.
    destruct (raw_issues ++ envelope_issues plan e) as [|i l] eqn:E; injection H as <-.
    + split; [done|]. apply app_eq_nil in E as [-> Hw%Henv].
      destruct (raw_issues_nil _ _ _ Hp Hw) as (l & El & Hl). rewrite Hraw in El.
      injection El as <-. intros p. cbn [result_plan]. destruct (proj1 Hl eq_refl). split.
      * intros [= <-]. by rewrite Hm.
      * intros (Hv & _). rewrite Hm in Hv. by injection Hv as <-.
    + split; [split; [discriminate|]; cbn [issues]; intros Hi%(proj1 (dedupe_nil _)); discriminate Hi|].
      intros p. split; [discriminate|]. intros (Hv & Hw & Hlit). rewrite Hm in Hv. injection Hv as <-.
      destruct (raw_issues_nil _ _ _ Hp Hw) as (l' & El & Hl). rewrite Hraw in El. injection El as <-.
      rewrite (proj2 Hl Hlit), (proj2 Henv Hw) in E. discriminate E.
  - injection H as <-. split; [|intros p; rewrite Hm; split; [discriminate|]; intros (? & _); discriminate].
    cbn [result_ok issues]. split; [discriminate|].
    rewrite dedupe_nil. intros [_ Hs]%app_eq_nil. apply map_nil_iff in Hs. by destruct (reported Hm).
Qed.
End validate_props.

Definition sample_target : mapping :=
  [("namespace", VStr "otel-demo"); ("name", VStr "cart-0");
   ("uid", VStr "0a1b2c3d-0000-4000-8000-000000000001")].
Definition sample_plan_document (percent : Z) : mapping :=
  [("target", VDict sample_target); ("fault_type", VStr "CPU 负载");
   ("intensity", VDict [("cpu_percent", VInt percent)]);
   ("effect_condition", VDict [("metric", VStr "target_cpu_cores"); ("operator", VStr "increase_by_at_least");
                               ("threshold", VInt 100)]);
   ("recovery_condition", VDict [("metric", VStr "target_cpu_cores");
                                 ("operator", VStr "within_baseline_delta"); ("threshold", VInt 20)]);
   ("stop_conditions", VList [VStr "errors above 50%"]); ("safety_ttl_seconds", VInt 300);
   ("effect_observation_seconds", VInt 60); ("effect_sustain_seconds", VInt 0);
   ("agent_cleanup_seconds", VInt 60); ("recovery_observation_seconds", VInt 60);
   ("recovery_sustain_seconds", VInt 0)].
Definition sample_envelope : PlanSafetyEnvelope :=
  ok_or {| allowed_namespaces := []; allowed_fault_types := []; fault_contracts := [];
           envelope_max_fault_duration := 0; max_threshold_by_metric := [];
           max_effect_observation_seconds := None; max_recovery_observation_seconds := None;
           max_agent_cleanup_seconds := None; envelope_require_target_uid := true |}
    (from_controller_policy (default_policy ["otel-demo"]) []).

(** An error of the model validator, which pydantic gives no location. *)
Definition sample_errors (raw : mapping) : list SchemaError :=
  [{| error_type := "value_error"; error_path := "";
      error_message := "unsupported effect_condition.operator" |}].

Definition sample_result (raw : mapping) : option (bool * list string) :=
  match validate_agent_plan sample_errors (VDict raw) sample_envelope with
  | Ok r => Some (result_ok r, map issue_code (issues r))
  | Err _ => None
  end.

(** No load at all is a plan, a load above the Controller's limit is not. *)
Example sample_results :
  sample_result (sample_plan_document 80) = Some (true, []) ∧
  sample_result (sample_plan_document 0) = Some (true, []) ∧
  sample_result (sample_plan_document 101) = Some (false, ["INTENSITY_EXCEEDS_ENVELOPE"]).
Proof. vm_compute. done. Qed.

(** An integer threshold that no double holds makes the validation raise, with no issue. *)
Example huge_threshold_raises :
  validate_agent_plan sample_errors
    (VDict (dset "effect_condition" (VDict [("metric", VStr "target_cpu_cores"); ("operator", VStr "increase_by_at_least");
       ("threshold", VInt (2 ^ 1100))]) (sample_plan_document 80))) sample_envelope =
    raise OverflowError "int too large to convert to float".
Proof. vm_compute. reflexivity. Qed.

(** No load is what the Controller itself refuses. *)
Example controller_refuses_no_load : accepts {| unit := "percent" |} (VInt 0) = Ok false.
Proof. vm_compute. done. Qed.

Lemma validate_agent_plan_iff_witness :
  sample_result (sample_plan_document 80) = Some (true, []) ∧
  ∃ p, model_validate (sample_plan_document 80) = Ok (Some p) ∧ within_envelope p sample_envelope.
Proof.
  split; [vm_compute; reflexivity|].
  pose proof (validate_agent_plan_iff sample_errors (sample_plan_document 80) sample_envelope
    _ ltac:(discriminate) (ok_or_eq (_invalid "" "" "" "")
      (validate_agent_plan sample_errors (VDict (sample_plan_document 80)) sample_envelope)
      ltac:(vm_compute; reflexivity))) as [_ H].
  match type of H with ∀ p, result_plan ?r = Some p ↔ _ =>
    destruct (result_plan r) as [p|] eqn:E; [|vm_compute in E; discriminate E] end.
  exists p. destruct (proj1 (H p) eq_refl) as (Hm & Hw & _). by split.
Defined.
