(* ===== verification/SimulatedUserProps.v ===== *)
(** * What the simulated user may approve

    Whatever the model says, an approved plan is one the Trial's envelope allows, and differs
    from the Agent's only in fields the Trial's policy lets the Harness supply. *)

From Stdlib Require Import QArith.
From S2P Require Import Prelude Hoare PyFloat PyVal Safety ConditionPolicy PlanSchema TrialContracts SimulatedUser.

#[local] Open Scope Z_scope.
#[local] Notation unit := Datatypes.unit.

(** What an execution of the document does to the cluster is what the plan says. *)
Record executes (d : mapping) (p : AgentPlan) : Prop := {
  ex_target : vget d "target" = VDict (target_dump (plan_target p));
  ex_fault : vget d "fault_type" = VStr (fault_value (plan_fault_type p));
  ex_intensity : vget d "intensity" = VDict (intensity_dump (plan_intensity p));
  ex_duration : vget d "safety_ttl_seconds" = VInt (safety_ttl_seconds p) }.

(** The fields of a plan that say what is injected, which no condition policy sets. *)
Definition ACTION_FIELDS : list string := ["target"; "fault_type"; "intensity"].
Definition controller_fields (given : option mapping) : Prop :=
  match given with Some g => NoDup (dkeys g) ∧ Forall (λ k, k ∉ dkeys g) ACTION_FIELDS | None => True end.

(** ** Validation *)

Lemma validate_plan_Some errors raw e r p : validate_agent_plan errors (VDict raw) e = Ok r → result_plan r = Some p →
  model_validate raw = Ok (Some p) ∧ within_envelope p e ∧ issues r = [].
Proof.
  cbn [validate_agent_plan]. intros H Hp. apply bind_Ok_inv in H as (raw_issues & Hraw & H).
  apply bind_Ok_inv in H as ([plan|] & Hm & H); [|by injection H as <-].
  destruct (raw_issues ++ envelope_issues plan e) as [|i l] eqn:E; injection H as <-; [|done].
  injection Hp as <-. split; [done|]. split; [|done]. apply app_eq_nil in E as [_ E].
  destruct (uid_not_blank _ (tp_uid _ _ (pp_target _ _ (model_validate_Some _ _ Hm)))) as [_ Hne].
  by apply envelope_nil in E.
Qed.

Lemma validate_ok errors raw e r : validate_agent_plan errors (VDict raw) e = Ok r →
  result_ok r = bool_decide (is_Some (result_plan r)).
Proof.
  cbn [validate_agent_plan]. intros H. apply bind_Ok_inv in H as (raw_issues & _ & H).
  apply bind_Ok_inv in H as ([plan|] & _ & H); [|by injection H as <-].
  destruct (_ ++ _); by injection H as <-.
Qed.

(** ** Lookups in attached and dumped plans *)

Lemma NoDup_dict_update (d e : mapping) : NoDup (dkeys d) → NoDup (dkeys (dict_update d e)).
Proof.
  unfold dict_update. revert d. induction e as [|[k v] e IH]; intros d Hd; [done|]. cbn. apply IH. by apply NoDup_dkeys_dset.
Qed.

Lemma NoDup_without_mode d : NoDup (dkeys d) → NoDup (dkeys (without_mode d)).
Proof.
  unfold without_mode, dkeys. induction d as [|[k v] d IH]; [done|]. cbn. intros [Hk Hd]%NoDup_cons.
  destruct (bool_decide _); cbn; [by apply IH|]. apply NoDup_cons. split; [|by apply IH].
  intros Hin. apply Hk. apply list_elem_of_fmap in Hin as (x & -> & Hx).
  apply list_elem_of_fmap. exists x. split; [done|]. apply list_elem_of_In, filter_In in Hx as [Hx _]. by apply list_elem_of_In.
Qed.

Lemma vget_without_mode k (d : mapping) : k ≠ "recovery_mode" → dget k (without_mode d) = dget k d.
Proof.
  intros Hk. unfold without_mode. induction d as [|[k' v] d IH]; [done|]. cbn [List.filter fst].
  destruct (decide (k' = "recovery_mode")) as [->|Hm]; [rewrite bool_decide_true by done|rewrite bool_decide_false by done];
    cbn; case_decide; naive_solver.
Qed.

Lemma attach_timing_ne o c value k kv : kv.1 ≠ k → dget k (attach_timing o c value kv) = dget k value.
Proof.
  destruct kv as [key v]. cbn. intros Hk. destruct (bool_decide (key = "recovery_mode")); [done|].
  destruct (dget key o); [by apply dget_dset_ne|]. unfold setdefault. destruct (has_key value key); [done|by apply dget_dset_ne].
Qed.

Lemma attach_condition_ne o value k k' : k' ≠ k → dget k (attach_condition o value k') = dget k value.
Proof. intros Hk. unfold attach_condition. repeat case_match; rewrite ?dget_dset_ne by done; done. Qed.

(** What the Controller leaves of a proposal: a field that is neither a condition nor in its policy,
    and, when it was given no policy of its own, a timing field that is there. *)
Lemma attached_field plan o c k : k ∉ CONDITION_NAMES → k ≠ "duration_seconds" → k ≠ "maximum_observation_seconds" →
  k ∉ dkeys CONDITION_POLICY ∨ o = None ∧ is_Some (dget k plan) →
  dget k (_attach_condition_policy plan o c) = dget k plan.
Proof.
  intros [H3 [H4 _]%not_elem_of_cons]%not_elem_of_cons H1 H2 Hk. unfold _attach_condition_policy.
  set (value := foldl (attach_condition _) _ _).
  assert (dget k value = dget k plan) as Hv.
  { unfold value. cbn [foldl]. by rewrite !attach_condition_ne, !dget_ddel_ne by congruence. }
  rewrite <- Hv in *. clearbody value. clear Hv. revert value Hk. generalize CONDITION_POLICY at 1 2.
  intros l. induction l as [|kv l IH]; intros value Hk; [done|]. cbn [foldl].
  assert (dget k (attach_timing (default [] o) c value kv) = dget k value) as E.
  { destruct (decide (kv.1 = k)) as [<-|Hne]; [|by apply attach_timing_ne]. destruct Hk as [Hk|[-> [v Hv]]].
    - destruct Hk. cbn. apply elem_of_cons. by left.
    - destruct kv as [key v']. cbn in *. destruct (bool_decide _); [done|]. unfold setdefault.
      unfold has_key, dmem. by rewrite Hv. }
  rewrite IH; [done|]. rewrite E. destruct Hk as [Hk|Hk]; [left|by right].
  intros Hin. apply Hk. cbn. apply elem_of_cons. by right.
Qed.

(** A lifetime the policy names is the plan's. *)
Lemma attached_ttl plan o c v : dget "safety_ttl_seconds" o = Some v →
  vget (_attach_condition_policy plan (Some o) c) "safety_ttl_seconds" = v.
Proof.
  intros Ho. unfold _attach_condition_policy. cbn [default from_option]. unfold id.
  match goal with |- context [foldl (attach_condition o) ?v ?l] => generalize (foldl (attach_condition o) v l) end.
  intros value. unfold CONDITION_POLICY. cbn [foldl]. unfold vget.
  do 5 (rewrite attach_timing_ne by (cbn; discriminate)).
  unfold attach_timing at 1. rewrite bool_decide_false by discriminate. rewrite Ho. by rewrite dget_dset_eq.
Qed.

Lemma action_field k : k ∈ ACTION_FIELDS → k ∉ dkeys CONDITION_POLICY ∧ k ∉ CONDITION_NAMES ∧ k ≠ "duration_seconds" ∧
  k ≠ "maximum_observation_seconds" ∧ k ≠ "safety_ttl_seconds" ∧ k ≠ "recovery_mode".
Proof.
  unfold ACTION_FIELDS. rewrite !elem_of_cons, elem_of_nil. intros [->|[->|[->|[]]]]; split_and!; try discriminate;
    by apply (bool_decide_unpack _).
Qed.

Lemma dump_action k p cp : controller_fields cp → k ∈ ACTION_FIELDS →
  vget (_dump_execution_plan p cp) k = vget (plan_dump p) k.
Proof.
  intros Hcp Hk. pose proof (action_field k Hk) as Hf.
  destruct Hf as (H1 & H2 & H3 & H4 & H5 & H6). destruct cp as [g|]; cbn [_dump_execution_plan].
  - destruct Hcp as [Hg Ha]. rewrite Forall_forall in Ha. unfold vget.
    rewrite dget_dict_update by (apply NoDup_without_mode, NoDup_dict_update, NoDup_policy).
    rewrite vget_without_mode, dget_dict_update by done.
    by rewrite (proj2 (dget_None k g) (Ha k Hk)), (proj2 (dget_None k CONDITION_POLICY) H1).
  - rewrite policy_get by done. rewrite (bool_decide_false _ H5), (proj2 (dget_None k CONDITION_POLICY) H1).
    by rewrite (bool_decide_false _ H2).
Qed.

(** A plan that was attached and parsed is executed as it was parsed. *)
Lemma dump_executes plan given c p : controller_fields given →
  let cp := dict_update CONDITION_POLICY <$> given in
  plan_parsed (_attach_condition_policy plan cp c) p → executes (_dump_execution_plan p cp) p.
Proof.
  intros Hg cp Hp. assert (Hcp : controller_fields cp).
  { unfold cp. destruct given as [g|]; [|done]. destruct Hg as [Hn Ha]. split; [apply NoDup_dict_update, NoDup_policy|].
    rewrite Forall_forall in Ha |- *. intros k Hk Hin. apply dget_is_Some in Hin as [v Hv].
    rewrite dget_dict_update, (proj2 (dget_None k g) (Ha k Hk)) in Hv by done.
    destruct (action_field k Hk) as [Hc _]. apply Hc, dget_is_Some. eauto. }
  split; try (rewrite dump_action by (done || (unfold ACTION_FIELDS; set_solver)); reflexivity).
  destruct (pp_ttl _ _ Hp) as [Ht _]. unfold cp in *. destruct given as [g|]; cbn [fmap option_fmap option_map] in *.
  - destruct Hg as [Hn _].
    assert (Hv : ∃ v, dget "safety_ttl_seconds" (dict_update CONDITION_POLICY g) = Some v).
    { rewrite dget_dict_update by done. destruct (dget _ g); [eauto|]. by eexists. }
    destruct Hv as [v Hv]. rewrite (attached_ttl _ _ _ _ Hv) in Ht. subst v.
    cbn [_dump_execution_plan]. unfold vget.
    rewrite dget_dict_update by (apply NoDup_without_mode, NoDup_dict_update, NoDup_policy).
    rewrite vget_without_mode, dget_dict_update, Hv by (done || apply NoDup_dict_update, NoDup_policy). done.
  - cbn [_dump_execution_plan]. by rewrite policy_get.
Qed.

(** ** Answers *)

Lemma answer_approved q mode approved cat ap sp m af r su k : vget (answer q mode approved cat ap sp m af r su ++ k) "approved" = approved.
Proof. reflexivity. Qed.
Lemma answer_plan q mode approved cat ap sp m af r su : vget (answer q mode approved cat ap sp m af r su) "approved_plan" = ap.
Proof. reflexivity. Qed.

Lemma answer_keys q mode approved cat ap sp m af r su : NoDup (dkeys (answer q mode approved cat ap sp m af r su)).
Proof. by apply (bool_decide_unpack _). Qed.

Lemma sorted_set_nil l : sorted_set l = [] ↔ l = [].
Proof.
  unfold sorted_set. split; [|by intros ->]. intros H. apply dedup_nil_iff, Permutation_nil.
  rewrite <- H. apply sort_by_Permutation.
Qed.
Lemma elem_of_sorted_set x l : x ∈ sorted_set l ↔ x ∈ l.
Proof. unfold sorted_set. by rewrite elem_of_sort_by, elem_of_dedup. Qed.

Section responder.
Context (model_call : nat → string → mapping → ModelAnswer) (request_size : string → mapping → Z * Z).
Context (clock : nat → Z) (monotonic : nat → pyfloat) (uuid : nat → string).
Context (errors : mapping → list SchemaError).
Context (config : ResponderConfig).

Local Abbreviation reply := (reply model_call request_size clock monotonic uuid errors config).
Local Abbreviation validated := (validated errors config).
Local Abbreviation attach := (attach config).
Local Abbreviation may := (may_supply (rc_policy config)).

(** What the Agent proposed, as the Controller completes it. *)
Definition proposed (question : mapping) : mapping := attach (_plan (vget question "recommendation")).

(** What the Harness changed is what it may supply. *)
Definition authorized (original_raw : mapping) (original : PlanValidationResult) (p : AgentPlan) : Prop :=
  ∀ k, k ∈ _changed_plan_fields (if result_ok original then result_plan original else None) p original original_raw → k ∈ may.

(** An approval comes from a plan that was attached and validated. *)
Record reviewed (question a : mapping) (p : AgentPlan) : Prop := {
  rv_outcome : expected_outcome (rc_policy config) ≠ SAFE_REFUSAL;
  rv_keys : NoDup (dkeys a);
  rv_kind : request_kind_of question ≠ CONVERSATION_REQUEST_KIND;
  rv_plan : vget a "approved_plan" = VDict (_dump_execution_plan p (condition_policy config));
  rv_valid : ∃ raw r, validated (attach raw) = Ok r ∧ result_plan r = Some p;
  rv_changes : ∃ original, validated (proposed question) = Ok original ∧
    (result_plan original = Some p ∨ _has_blocking_issues original = false ∧ authorized (proposed question) original p) }.

Lemma unauthorized_nil changed k : unauthorized config changed = [] → k ∈ changed → k ∈ may.
Proof.
  unfold unauthorized. rewrite sorted_set_nil. intros H Hk. destruct (decide (k ∈ may)) as [|Hm]; [done|]. exfalso.
  assert (k ∈ List.filter (λ k, negb (bool_decide (k ∈ may))) changed) as Hin.
  { apply list_elem_of_In, filter_In. split; [by apply list_elem_of_In|]. by rewrite bool_decide_false. }
  rewrite H in Hin. by apply not_elem_of_nil in Hin.
Qed.

Lemma completed_approves q needs message raw original p s s' a : completed config q needs message raw original p s = (s', Ok a) →
  vget a "approved" = VBool true →
  NoDup (dkeys a) ∧ vget a "approved_plan" = VDict (_dump_execution_plan p (condition_policy config)) ∧
  authorized raw original p.
Proof.
  unfold completed. intros H Ha. run_inv. unfold authorized in *.
  set (changed := _changed_plan_fields _ _ _ _) in *.
  destruct (result_ok original && empty changed && negb needs) eqn:E.
  - apply andb_true_iff in E as [[_ E]%andb_true_iff _]. apply empty_true in E. rewrite E in *.
    run_inv. split; [apply answer_keys|]. split; [apply answer_plan|]. intros k Hk. by apply not_elem_of_nil in Hk.
  - destruct (unauthorized config changed) eqn:Eu; run_inv; [|discriminate Ha].
    split; [apply answer_keys|]. split; [apply answer_plan|]. intros k. by apply unauthorized_nil.
Qed.

Lemma incomplete_never q kind message patch raw r s s' a : incomplete config q kind message patch raw r s = (s', Ok a) →
  vget a "approved" ≠ VBool true.
Proof.
  unfold incomplete. intros H. run_inv. destruct (_ && _) in H; [|by run_inv].
  destruct (unauthorized _ _); run_inv; [|done]. by rewrite answer_approved.
Qed.

Lemma with_model_approves question context q kind needs original s s' a :
  with_model model_call request_size clock monotonic uuid errors config question context q kind needs (proposed question) original s
    = (s', Ok a) →
  vget a "approved" = VBool true → ∃ p raw r,
    NoDup (dkeys a) ∧ vget a "approved_plan" = VDict (_dump_execution_plan p (condition_policy config)) ∧
    validated (attach raw) = Ok r ∧ result_plan r = Some p ∧ authorized (proposed question) original p.
Proof.
  unfold with_model. intros H Ha. run_inv. destruct (negb (nonempty _)) in H; [by run_inv|]. run_inv.
  destruct (_ && _) in H; [by run_inv|].
  match goal with Hv : validated (attach ?raw) = Ok ?r |- _ =>
    destruct (result_plan r) as [p|] eqn:Ep; [|by destruct (incomplete_never _ _ _ _ _ _ _ _ _ ltac:(destruct (result_ok r); exact H) Ha)];
    destruct (result_ok r) eqn:Eo; [|by destruct (incomplete_never _ _ _ _ _ _ _ _ _ H Ha)];
    exists p, raw, r end.
  destruct (completed_approves _ _ _ _ _ _ _ _ _ H Ha) as (? & ? & ?). done.
Qed.

Lemma reply_approves question context s s' a : reply question context s = (s', Ok a) → vget a "approved" = VBool true →
  ∃ p, reviewed question a p.
Proof.
  unfold SimulatedUser.reply. intros H Ha. run_inv.
  match goal with Hv : SimulatedUser.validated _ _ _ = Ok ?r |- _ => rename r into original; fold (proposed question) in Hv; rename Hv into Ho end.
  destruct (bool_decide (expected_outcome _ = _)) eqn:Er.
  { run_inv. revert Ha. unfold _safe_refusal_answer. cbv zeta. destruct (_ && _); done. }
  apply bool_decide_eq_false in Er. destruct (bool_decide (request_kind_of _ = _)) eqn:Ek.
  { unfold _conversation_answer in H. by run_inv. }
  apply bool_decide_eq_false in Ek.
  set (rest := if _has_blocking_issues original then _ else _) in H.
  assert (Hrest : rest s = (s', Ok a) → ∃ p, reviewed question a p).
  { clear H. unfold rest. intros H. destruct (_has_blocking_issues original) eqn:Eb; [by run_inv|].
    destruct (_ && _); [by run_inv|]. destruct (_ && _); [by run_inv|].
    destruct (with_model_approves _ _ _ _ _ _ _ _ _ H Ha) as (p & raw & r & Hn & Hp & Hv & Hr & Hau).
    exists p. split; eauto. }
  clearbody rest. destruct (result_ok original), (result_plan original) as [p|] eqn:Ep; auto.
  destruct (bool_decide _) in H; [auto|]. run_inv. exists p. split; eauto using answer_keys.
Qed.
End responder.

(** ** The Agent's own fields *)

(** What pydantic reports of a field that is absent, and of one that is null. *)
Record pydantic_reports (errors : mapping → list SchemaError) : Prop := {
  missing_reported : ∀ raw k, k ∈ PLAN_FIELDS → dget k raw = None →
    ∃ e, e ∈ errors raw ∧ error_type e = "missing" ∧ error_path e = k ∧ error_message e = "Field required";
  null_reported : ∀ raw k, k ∈ PLAN_FIELDS → dget k raw = Some VNone →
    ∃ e, e ∈ errors raw ∧ error_type e ≠ "extra_forbidden" ∧ error_path e = k ∧
         str_contains "Field required" (error_message e) = false }.

Lemma dedupe_keeps l i : i ∈ l → ∃ j, j ∈ _dedupe_issues l ∧ issue_code j = issue_code i ∧ issue_path j = issue_path i.
Proof.
  unfold _dedupe_issues. set (f := λ acc i, _).
  assert (H : ∀ l acc, (∀ key, key ∈ acc.1 → ∃ j, j ∈ acc.2 ∧ (issue_code j, issue_path j) = key) →
    (∀ j, j ∈ acc.2 → j ∈ (foldl f acc l).2) ∧
    ∀ i, i ∈ l → ∃ j, j ∈ (foldl f acc l).2 ∧ issue_code j = issue_code i ∧ issue_path j = issue_path i).
  { clear. induction l as [|x l IH]; intros acc Hacc; cbn [foldl]; [split; [done|]; by intros i ?%not_elem_of_nil|].
    assert (Hx : (∀ key, key ∈ (f acc x).1 → ∃ j, j ∈ (f acc x).2 ∧ (issue_code j, issue_path j) = key) ∧
      (∀ j, j ∈ acc.2 → j ∈ (f acc x).2) ∧
      ∃ j, j ∈ (f acc x).2 ∧ issue_code j = issue_code x ∧ issue_path j = issue_path x).
    { unfold f. case_decide as Hd; [split; [done|]; split; [done|]; destruct (Hacc _ Hd) as (j & ? & [= ? ?]); eauto|].
      cbn. split; [|split; [set_solver|exists x; set_solver]].
      intros key [->|Hk]%elem_of_cons; [exists x; set_solver|]. destruct (Hacc _ Hk) as (j & ? & ?). exists j. set_solver. }
    destruct Hx as (H1 & H2 & j & H3 & H4). destruct (IH _ H1) as [K1 K2]. split; [auto|].
    intros i [->|Hi]%elem_of_cons; eauto. }
  intros Hi. apply H; [|done]. by intros key ?%not_elem_of_nil.
Qed.

(** A plan that parses has every field. *)
Lemma parsed_fields raw p k : model_validate raw = Ok (Some p) → k ∈ PLAN_FIELDS → vget raw k ≠ VNone.
Proof.
  intros H Hk E. unfold model_validate in H.
  apply bind_Ok_inv in H as (i & Hi & H). apply bind_Ok_inv in H as (ef & He & H). apply bind_Ok_inv in H as (r & Hr & [= H]).
  assert (Hf : ∀ {A} (read : val → result (option A)) a, field raw k read = Ok (Some a) → read VNone = Ok None → False).
  { intros A read a Ha Hn. unfold field, vget in *. destruct (dget k raw); [|done]. cbn in E. subst v. congruence. }
  repeat match type of H with
  | (_ ≫= _) = Some _ => let x := fresh "x" in let Hx := fresh "Hx" in apply bind_Some_inv in H as (x & Hx & H)
  end. subst.
  unfold PLAN_FIELDS in Hk. rewrite !elem_of_cons, elem_of_nil in Hk.
  repeat match goal with Hk : _ ∨ _ |- _ => destruct Hk as [->|Hk] end;
    try (by destruct Hk); try (rewrite E in *; discriminate); eapply Hf; eauto.
Qed.

Lemma other_code path message : str_contains "Field required" message = false → _schema_issue_code path message ≠ "MISSING_PLAN_FIELD".
Proof. unfold _schema_issue_code. intros ->. repeat case_match; discriminate. Qed.

Lemma plan_field_path k : k ∈ PLAN_FIELDS → nonempty k = true ∧ unchars (before_dot (chars k)) = k ∧ k ∈ decision_fields.
Proof.
  unfold PLAN_FIELDS. rewrite !elem_of_cons, elem_of_nil.
  intros Hk. repeat match goal with Hk : _ ∨ _ |- _ => destruct Hk as [->|Hk] end; [..|by destruct Hk];
    (split_and!; [reflexivity..|]; apply (bool_decide_unpack _); vm_compute; exact I).
Qed.

Lemma invalid_plan_issues errors raw e r i : validate_agent_plan errors (VDict raw) e = Ok r → model_validate raw = Ok None →
  i ∈ _issues_from_validation_error (errors raw) → ∃ j, j ∈ issues r ∧ issue_code j = issue_code i ∧ issue_path j = issue_path i.
Proof.
  cbn [validate_agent_plan]. intros H Hm Hi. apply bind_Ok_inv in H as (l & _ & H). rewrite Hm, bind_ok in H.
  injection H as <-. apply dedupe_keeps, elem_of_app. by right.
Qed.

(** A field no issue is about, of a plan that is at most incomplete, is there. *)
Lemma field_given errors raw e r k : pydantic_reports errors → validate_agent_plan errors (VDict raw) e = Ok r →
  _has_blocking_issues r = false → k ∈ PLAN_FIELDS → k ∉ issue_fields (λ _, true) r →
  ∃ v, dget k raw = Some v ∧ v ≠ VNone.
Proof.
  intros [Hmissing Hnull] Hv Hb Hk Hi. destruct (plan_field_path k Hk) as (Hne & Hpath & Hdec).
  destruct (model_validate raw) as [[p|]|x] eqn:Em; swap 2 3.
  { pose proof (parsed_fields _ _ _ Em Hk) as Hf. unfold vget in Hf. destruct (dget k raw) as [v|]; [by exists v|done]. }
  { cbn [validate_agent_plan] in Hv. rewrite Em in Hv. by apply bind_Ok_inv in Hv as (? & _ & ?). }
  destruct (dget k raw) as [v|] eqn:Ek; [exists v; split; [done|]; intros ->|exfalso].
  - destruct (Hnull _ _ Hk Ek) as (x & Hx & Ht & Hp & Hmsg).
    destruct (invalid_plan_issues _ _ _ _ (schema_issue x) Hv Em) as (j & Hj & Hc & _).
    { unfold _issues_from_validation_error. by apply list_elem_of_fmap_2. }
    apply Bool.not_true_iff_false in Hb. destruct Hb. apply existsb_exists. exists j. split; [by apply list_elem_of_In|].
    unfold missing_issue. rewrite bool_decide_false; [done|]. rewrite Hc. unfold schema_issue.
    rewrite (bool_decide_false _ Ht). cbn [issue_code _issue]. apply other_code.
    by destruct (nonempty (error_message x)).
  - destruct (Hmissing _ _ Hk Ek) as (x & Hx & Ht & Hp & Hmsg).
    destruct (invalid_plan_issues _ _ _ _ (schema_issue x) Hv Em) as (j & Hj & _ & Hpj).
    { unfold _issues_from_validation_error. by apply list_elem_of_fmap_2. }
    apply Hi. unfold issue_fields. apply list_elem_of_In, filter_In. split; [|by apply bool_decide_eq_true].
    apply in_map_iff. exists j. split.
    + unfold issue_field. rewrite Hpj. unfold schema_issue. rewrite Ht, Hp, Hne. exact Hpath.
    + apply filter_In. split; [by apply list_elem_of_In|done].
Qed.

(** Python's equality of a field the Agent wrote and the same field of a plan. *)
Definition same_field (k : string) (written final : val) : Prop :=
  py_eq (_canonical_field_for_diff k written) (_canonical_field_for_diff k final) = true.

(** The proposal decided the field: its plan was valid and has it, or its document has it. *)
Definition decided_by_proposal (raw : mapping) (original : PlanValidationResult) (p : AgentPlan) (k : string) : Prop :=
  match result_plan original with
  | Some o => vget (plan_dump o) k = vget (plan_dump p) k ∨ py_eq (vget (plan_dump o) k) (vget (plan_dump p) k) = true
  | None => ∃ v, dget k raw = Some v ∧ v ≠ VNone ∧ same_field k v (vget (plan_dump p) k)
  end.

Lemma canonical_given k v : v ≠ VNone → is_none (_canonical_field_for_diff k v) = false.
Proof.
  unfold _canonical_field_for_diff. intros Hv. destruct (bool_decide _); [destruct (canonical v); [done|by destruct v]|].
  destruct v; try done; repeat case_match; done.
Qed.

Lemma dumped_given k p : k ∈ PLAN_FIELDS → vget (plan_dump p) k ≠ VNone.
Proof.
  unfold PLAN_FIELDS. rewrite !elem_of_cons, elem_of_nil.
  intros Hk. repeat match goal with Hk : _ ∨ _ |- _ => destruct Hk as [->|Hk] end; [..|by destruct Hk]; discriminate.
Qed.

Lemma unchanged_by_agent errors config question original p k :
  pydantic_reports errors → validated errors config (proposed config question) = Ok original →
  _has_blocking_issues original = false → authorized config (proposed config question) original p →
  k ∈ PLAN_FIELDS → k ∉ may_supply (rc_policy config) → decided_by_proposal (proposed config question) original p k.
Proof.
  intros He Hv Hb Ha Hk Hm. unfold decided_by_proposal. specialize (Ha k). unfold validated in Hv.
  assert (Ho : (if result_ok original then result_plan original else None) = result_plan original).
  { rewrite (validate_ok _ _ _ _ Hv). by destruct (result_plan original). }
  rewrite Ho in Ha. destruct (plan_field_path k Hk) as (_ & _ & Hdec).
  destruct (result_plan original) as [o|]; unfold _changed_plan_fields in Ha; cbv zeta in Ha.
  - right. destruct (py_eq _ _) eqn:E; [done|]. exfalso. apply Hm, Ha.
    apply list_elem_of_In, filter_In. split; [by apply list_elem_of_In|]. by rewrite E.
  - set (fields := issue_fields _ _ ++ _) in Ha.
    assert (Hf : k ∉ fields).
    { intros Hin. apply Hm, Ha, elem_of_sorted_set. by destruct fields. }
    unfold fields in Hf. rewrite not_elem_of_app in Hf. destruct Hf as [Hi Hd].
    destruct (field_given _ _ _ _ _ He Hv Hb Hk Hi) as (v & Hget & Hne). exists v. split; [done|]. split; [done|].
    unfold same_field. destruct (py_eq _ _) eqn:E; [done|]. exfalso. apply Hd, list_elem_of_In, filter_In.
    split; [by apply list_elem_of_In|]. rewrite Hget, !canonical_given, E by (done || by apply dumped_given). done.
Qed.

(** ** What an approval guarantees *)

Section approvals.
Context (model_call : nat → string → mapping → ModelAnswer) (request_size : string → mapping → Z * Z).
Context (clock : nat → Z) (monotonic : nat → pyfloat) (uuid : nat → string).
Context (errors : mapping → list SchemaError).
Context (name : string) (timeout : Z) (policy : SimulatedUserPolicy) (user_context : mapping) (given : option mapping).

Local Abbreviation config := (new_config name timeout policy user_context given).
Local Abbreviation reply := (reply model_call request_size clock monotonic uuid errors config).

(** Whatever the model says, a plan the simulated user approves executes exactly the target,
    fault, intensity and duration of a plan within the Trial's safety envelope, and none is
    approved in a Trial that expects a refusal or as an answer to plain conversation. *)
Theorem approvals_within_envelope question context s s' a : controller_fields given →
  reply question context s = (s', Ok a) → vget a "approved" = VBool true →
  expected_outcome policy = EXECUTE_AND_RECOVER ∧ request_kind_of question ≠ CONVERSATION_REQUEST_KIND ∧
  ∃ d p, vget a "approved_plan" = VDict d ∧ executes d p ∧ within_envelope p (envelope policy).
Proof.
  intros Hg H Ha. apply reply_approves in H as (p & [Ho _ Hk Hp (raw & r & Hv & Hr) _]); [|done].
  split; [cbn in Ho; by destruct (expected_outcome policy)|]. split; [done|]. unfold validated, attach in Hv.
  destruct (validate_plan_Some _ _ _ _ _ Hv Hr) as (Hm & Hw & _). eexists _, p. split; [exact Hp|].
  split; [|done]. eapply dump_executes; [done|]. by apply model_validate_Some.
Qed.

End approvals.

(** ** Examples *)

Definition demo_error (type path message : string) : SchemaError :=
  {| error_type := type; error_path := path; error_message := message |}.
(** A library that reports absent and null fields. *)
Definition demo_errors (raw : mapping) : list SchemaError :=
  concat (map (λ k, match dget k raw with
                    | None => [demo_error "missing" k "Field required"]
                    | Some VNone => [demo_error "model_type" k "Input should be a valid dictionary"]
                    | Some _ => []
                    end) PLAN_FIELDS).

Lemma demo_errors_report : pydantic_reports demo_errors.
Proof.
  split; intros raw k Hk Hg; [exists (demo_error "missing" k "Field required")|
    exists (demo_error "model_type" k "Input should be a valid dictionary")];
    (split; [|try done; split_and!; done]);
    (apply list_elem_of_In, in_concat; eexists; split;
     [apply in_map_iff; exists k; rewrite Hg; split; [done|by apply list_elem_of_In]|by left]).
Qed.

Definition demo_policy (level : AutonomyLevel) : SimulatedUserPolicy := {|
  expected_outcome := EXECUTE_AND_RECOVER; decision_policy := CLARIFY_MISSING; prompt_level := level;
  user_allowed_fault_types := ["cpu-load"]; envelope := sample_envelope; may_supply := _may_supply level CLARIFY_MISSING |}.
Definition demo_config (level : AutonomyLevel) (given : option mapping) : ResponderConfig :=
  new_config "platform" 180 (demo_policy level) [] given.
Definition demo_question (plan : mapping) : mapping := [("question_id", VStr "q1"); ("recommendation", VDict plan)].

(** A model that completes the effect condition, whatever it is asked. *)
Definition demo_effect : mapping :=
  [("metric", VStr "target_cpu_cores"); ("operator", VStr "increase_by_at_least"); ("threshold", VInt 100)].
Definition demo_model (n : nat) (operation : string) (context : mapping) : ModelAnswer :=
  Replied (VDict [("message", VStr "effect added"); ("plan", VDict [("effect_condition", VDict demo_effect)])]) None.
Definition demo_reply (level : AutonomyLevel) (given : option mapping) (plan : mapping) : Responder → Responder * result mapping :=
  SimulatedUser.reply demo_model (λ _ _, (0, 0)) (λ _, 0) (λ _, FFin 0) (λ _, "id") demo_errors (demo_config level given)
    (demo_question plan) [].
Definition demo_answer (level : AutonomyLevel) (given : option mapping) (plan : mapping) : option (val * val) :=
  match (demo_reply level given plan new_responder).2 with
  | Ok a => Some (vget a "approved", vget a "reason")
  | Err _ => None
  end.
Definition demo_partial : mapping := ddel "effect_condition" (sample_plan_document 80).

(** A complete plan is confirmed; a missing effect is completed where the policy allows it. *)
Example demo_answers :
  demo_answer L0_COMPLETE_TASK None (sample_plan_document 80) = Some (VBool true, VStr "agent_plan_confirmed") ∧
  demo_answer L1_COMPLETE_EXPERIMENT None demo_partial = Some (VBool true, VStr "harness_supplied_decision") ∧
  demo_answer L0_COMPLETE_TASK None demo_partial =
    Some (VBool false, VStr "simulated_user_not_allowed_to_supply_decision") ∧
  demo_answer L1_COMPLETE_EXPERIMENT None (sample_plan_document 101) = Some (VBool false, VStr "plan_schema_invalid").
Proof. vm_compute. done. Qed.

(** A condition policy that says nothing of the lifetime makes the Harness refuse a plan without one
    when the Trial's cap is below 1200 seconds. *)
Example policy_lifetime_not_capped :
  envelope_max_fault_duration sample_envelope = 1200 ∧
  let capped_policy := {| expected_outcome := EXECUTE_AND_RECOVER; decision_policy := CLARIFY_MISSING;
       prompt_level := L0_COMPLETE_TASK; user_allowed_fault_types := []; may_supply := [];
       envelope := {| allowed_namespaces := allowed_namespaces sample_envelope;
         allowed_fault_types := allowed_fault_types sample_envelope; fault_contracts := fault_contracts sample_envelope;
         envelope_max_fault_duration := 600; max_threshold_by_metric := []; max_effect_observation_seconds := None;
         max_recovery_observation_seconds := None; max_agent_cleanup_seconds := None; envelope_require_target_uid := true |} |} in
  let reason given := match (SimulatedUser.reply demo_model (λ _ _, (0, 0)) (λ _, 0) (λ _, FFin 0) (λ _, "id") demo_errors
      (new_config "platform" 180 capped_policy [] given) (demo_question (ddel "safety_ttl_seconds" (sample_plan_document 80))) []
      new_responder).2 with Ok a => Some (vget a "reason") | Err _ => None end in
  reason None = Some (VStr "agent_plan_confirmed") ∧ reason (Some []) = Some (VStr "plan_schema_invalid").
Proof. vm_compute. done. Qed.

(** The second answer to a plain question is recorded as the third attempt. *)
Example conversation_attempts_skip :
  let ask := SimulatedUser.reply demo_model (λ _ _, (0, 0)) (λ _, 0) (λ _, FFin 0) (λ _, "id") demo_errors
    (demo_config L0_COMPLETE_TASK None) [("question_id", VStr "q1"); ("request_kind", VStr "conversation")] [] in
  map (λ h, vget h "attempt") (history (ask (ask new_responder).1).1) = [VInt 1; VNone; VInt 3; VNone].
Proof. vm_compute. done. Qed.

Definition demo_run (level : AutonomyLevel) (given : option mapping) (plan : mapping) : Responder * mapping :=
  let '(s, r) := demo_reply level given plan new_responder in (s, ok_or [] r).

Lemma approvals_within_envelope_witness :
  demo_answer L1_COMPLETE_EXPERIMENT (Some []) demo_partial = Some (VBool true, VStr "harness_supplied_decision") ∧
  ∃ d p, vget (demo_run L1_COMPLETE_EXPERIMENT (Some []) demo_partial).2 "approved_plan" = VDict d ∧ executes d p ∧
    within_envelope p sample_envelope.
Proof.
  split; [vm_compute; reflexivity|].
  refine (proj2 (proj2 (approvals_within_envelope demo_model (λ _ _, (0, 0)) (λ _, 0) (λ _, FFin 0) (λ _, "id") demo_errors
    "platform" 180 (demo_policy L1_COMPLETE_EXPERIMENT) [] (Some []) (demo_question demo_partial) [] new_responder
    (demo_run L1_COMPLETE_EXPERIMENT (Some []) demo_partial).1 _ _ _ _))).
  - split; [constructor|]. by apply (bool_decide_unpack _).
  - vm_compute. reflexivity.
  - vm_compute. reflexivity.
Defined.

