(* ===== verification/Sha256.v ===== *)
(** * SHA-256 ([hashlib.sha256])

    The standard-library digest the sources derive seeds, rule identities and
    ledger keys from: FIPS 180-4 over 32-bit words held in [Z]. *)

From S2P Require Import Prelude.

#[local] Open Scope Z_scope.

Definition w32 (x : Z) : Z := Z.land x 4294967295.
Definition add32 (x y : Z) : Z := w32 (x + y).
Definition rotr (n x : Z) : Z := w32 (Z.lor (Z.shiftr x n) (Z.shiftl x (32 - n))).
Definition not32 (x : Z) : Z := Z.lxor x 4294967295.

Definition big_sigma0 x := Z.lxor (rotr 2 x) (Z.lxor (rotr 13 x) (rotr 22 x)).
Definition big_sigma1 x := Z.lxor (rotr 6 x) (Z.lxor (rotr 11 x) (rotr 25 x)).
Definition small_sigma0 x := Z.lxor (rotr 7 x) (Z.lxor (rotr 18 x) (Z.shiftr x 3)).
Definition small_sigma1 x := Z.lxor (rotr 17 x) (Z.lxor (rotr 19 x) (Z.shiftr x 10)).
Definition ch x y z := Z.lxor (Z.land x y) (Z.land (not32 x) z).
Definition maj x y z := Z.lxor (Z.land x y) (Z.lxor (Z.land x z) (Z.land y z)).

Definition round_constants : list Z :=
  [1116352408; 1899447441; 3049323471; 3921009573; 961987163; 1508970993; 2453635748; 2870763221;
   3624381080; 310598401; 607225278; 1426881987; 1925078388; 2162078206; 2614888103; 3248222580;
   3835390401; 4022224774; 264347078; 604807628; 770255983; 1249150122; 1555081692; 1996064986;
   2554220882; 2821834349; 2952996808; 3210313671; 3336571891; 3584528711; 113926993; 338241895;
   666307205; 773529912; 1294757372; 1396182291; 1695183700; 1986661051; 2177026350; 2456956037;
   2730485921; 2820302411; 3259730800; 3345764771; 3516065817; 3600352804; 4094571909; 275423344;
   430227734; 506948616; 659060556; 883997877; 958139571; 1322822218; 1537002063; 1747873779;
   1955562222; 2024104815; 2227730452; 2361852424; 2428436474; 2756734187; 3204031479; 3329325298].

Definition initial_state : list Z :=
  [1779033703; 3144134277; 1013904242; 2773480762; 1359893119; 2600822924; 528734635; 1541459225].

(** Big-endian bytes of a word, and words of bytes. *)
Fixpoint be_bytes (n : nat) (x : Z) : list Z :=
  match n with
  | O => []
  | S n' => Z.land (Z.shiftr x (8 * Z.of_nat n')) 255 :: be_bytes n' x
  end.

Definition be_word (bs : list Z) : Z := foldl (λ acc b, 256 * acc + b) 0 bs.

Fixpoint words_of (bs : list Z) : list Z :=
  match bs with
  | a :: b :: c :: d :: rest => be_word [a; b; c; d] :: words_of rest
  | _ => []
  end.

Definition pad_message (msg : list Z) : list Z :=
  let n := Z.of_nat (length msg) in
  let k := (55 - n) mod 64 in
  msg ++ [128] ++ replicate (Z.to_nat k) 0 ++ be_bytes 8 (8 * n).

(** The message schedule, newest word first. *)
Fixpoint extend_schedule (n : nat) (w : list Z) : list Z :=
  match n with
  | O => w
  | S n' =>
      let get i := nth i w 0 in
      let next := add32 (add32 (small_sigma1 (get 1%nat)) (get 6%nat))
                        (add32 (small_sigma0 (get 14%nat)) (get 15%nat)) in
      extend_schedule n' (next :: w)
  end.

Definition sha_round (st : list Z) (kw : Z * Z) : list Z :=
  match st with
  | [a; b; c; d; e; f; g; h] =>
      let t1 := add32 h (add32 (big_sigma1 e) (add32 (ch e f g) (add32 kw.1 kw.2))) in
      let t2 := add32 (big_sigma0 a) (maj a b c) in
      [add32 t1 t2; a; b; c; add32 d t1; e; f; g]
  | _ => st
  end.

Definition compress (st : list Z) (block : list Z) : list Z :=
  let schedule := rev (extend_schedule 48 (rev block)) in
  zip_with add32 st (foldl sha_round st (zip round_constants schedule)).

Fixpoint blocks (n : nat) (ws : list Z) : list (list Z) :=
  match n with
  | O => []
  | S n' => take 16 ws :: blocks n' (drop 16 ws)
  end.

Definition bytes_of (s : string) : list Z := map (λ c, Z.of_N (N_of_ascii c)) (chars s).

(** [hashlib.sha256(s.encode("utf-8")).digest()] *)
Definition digest (s : string) : list Z :=
  let ws := words_of (pad_message (bytes_of s)) in
  let st := foldl compress initial_state (blocks (length ws / 16)%nat ws) in
  flat_map (be_bytes 4) st.

Definition hex_char (n : Z) : ascii :=
  ascii_of_N (if n <? 10 then Z.to_N (48 + n) else Z.to_N (87 + n)).

(** [.hexdigest()] *)
Definition hexdigest (s : string) : string :=
  unchars (flat_map (λ b, [hex_char (b / 16); hex_char (b mod 16)]) (digest s)).

Example sha256_abc :
  hexdigest "abc" = "ba7816bf8f01cfea414140de5dae2223b00361a396177a9cb410ff61f20015ad".
Proof. vm_compute. reflexivity. Qed.
Example sha256_long :
  hexdigest "abcdbcdecdefdefgefghfghighijhijkijkljklmklmnlmnomnopnopq" =
  "248d6a61d20638b8e5c026930c3e6039a33ce45964ff2167f6ecedd419db06c1".
Proof. vm_compute. reflexivity. Qed.

(** The digest of any message is 32 bytes. *)
Lemma length_be_bytes n x : length (be_bytes n x) = n.
Proof. revert x; induction n; simpl; auto. Qed.

Lemma be_bytes_byte n x b : b ∈ be_bytes n x → 0 <= b < 256.
Proof.
  induction n as [|n IH]; simpl; rewrite ?elem_of_nil, ?elem_of_cons; [done|].
  intros [->|H]; [|auto]. change 255 with (Z.ones 8). rewrite Z.land_ones by lia.
  apply Z.mod_pos_bound. lia.
Qed.

Lemma length_sha_round st kw : length (sha_round st kw) = length st.
Proof. do 9 (destruct st as [|? st]; [done|]). done. Qed.

Lemma length_rounds l st : length (foldl sha_round st l) = length st.
Proof. revert st; induction l; intros st; simpl; [done|]. by rewrite IHl, length_sha_round. Qed.

Lemma length_compress st b : length (compress st b) = length st.
Proof. unfold compress. rewrite length_zip_with, length_rounds. lia. Qed.

Lemma length_digest s : length (digest s) = 32%nat.
Proof.
  unfold digest. set (bs := blocks _ _). clearbody bs.
  assert (length (foldl compress initial_state bs) = 8%nat) as H.
  { change 8%nat with (length initial_state). generalize initial_state.
    induction bs; intros st; simpl; [done|]. by rewrite IHbs, length_compress. }
  revert H. generalize (foldl compress initial_state bs). intros st.
  do 9 (destruct st as [|? st]; [done|]). done.
Qed.

Lemma digest_byte s b : b ∈ digest s → 0 <= b < 256.
Proof.
  unfold digest. rewrite list_elem_of_In. intros (x & _ & Hx)%in_flat_map.
  apply list_elem_of_In in Hx. by eapply be_bytes_byte.
Qed.

Lemma be_word_bound bs :
  (∀ b, b ∈ bs → 0 <= b < 256) → 0 <= be_word bs < 256 ^ Z.of_nat (length bs).
Proof.
  unfold be_word. intros H.
  assert (∀ acc n, 0 <= acc < 256 ^ Z.of_nat n →
    0 <= foldl (λ acc b, 256 * acc + b) acc bs < 256 ^ Z.of_nat (n + length bs)) as Hg;
    [|apply (Hg 0 0%nat); lia].
  induction bs as [|b bs IH]; intros acc n Hacc; simpl; [by rewrite Nat.add_0_r|].
  rewrite <- Nat.add_succ_comm. apply IH.
  - intros c Hc. apply H. by apply list_elem_of_further.
  - specialize (H b (list_elem_of_here _ _)).
    rewrite Nat2Z.inj_succ, Z.pow_succ_r by lia. lia.
Qed.
