(* ===== verification/ChaosGates.v ===== *)
(** * The chaos gateway's contracts and gates

    [mcp_servers/chaos_core/contracts.py] and [mcp_servers/chaos_core/gates.py]: the
    configuration of one executor, the records of chaos resources, the action a request
    asks for, the checks of a plan and the documents of the ledger. A [ChaosControlError]
    is an exception whose class is its code; its advice and details, which no code reads,
    are left out. *)

From Stdlib Require Import QArith.
From S2P Require Import Prelude PyFloat PyVal PyTime PyIso PyIsoOrder PyStamp Safety ConditionPolicy PlanSchema.
From S2P Require Import Sha256.

#[local] Open Scope Z_scope.

(** [Safety] calls a field [unit]. *)
Abbreviation void := Datatypes.unit.

(** ** Contracts *)

Definition OWNER_LABEL : string := "benchmark.owner".
Definition OWNER_VALUE : string := "chaos_control".
Definition RUN_ID_LABEL : string := "benchmark.run_id".
Definition TARGET_UID_LABEL : string := "benchmark.target_uid".
Definition NAMESPACE_LABEL : string := "benchmark.namespace".
Definition FAULT_TYPE_LABEL : string := "benchmark.fault_type".
Definition LEDGER_VERSION : Z := 1.
Definition TERMINAL_PHASES : list string :=
  ["absence"; "absent"; "destroyed"; "deleted"; "finished"; "completed"; "succeeded"; "success"].

(** [^cleanup-\[a-z0-9\]\[a-z0-9._-\]{6,120}$] under [fullmatch]. *)
Definition HANDLE_RE (s : string) : bool :=
  str_startswith "cleanup-" s &&
  match drop 8 (chars s) with
  | c :: rest => is_lower_alnum c && forallb (λ c, is_lower_alnum c || one_of "._-" c) rest &&
                 (6 <=? length rest)%nat && (length rest <=? 120)%nat
  | [] => false
  end.

(** [^\[a-z0-9\]\[a-z0-9.-\]{0,251}\[a-z0-9\]$] under [fullmatch]. *)
Definition SAFE_NAME_RE (s : string) : bool :=
  match chars s, rev (chars s) with
  | c :: _ :: _, e :: _ =>
      is_lower_alnum c && is_lower_alnum e &&
      forallb (λ c, is_lower_alnum c || one_of ".-" c) (chars s) && (length (chars s) <=? 253)%nat
  | _, _ => false
  end.

(** [^\[A-Za-z0-9\]\[A-Za-z0-9._:/#@-\]{2,255}$] under [fullmatch]. *)
Definition SAFE_REF_RE (s : string) : bool :=
  match chars s with
  | c :: rest => alnum c && forallb (λ c, alnum c || one_of "._:/#@-" c) rest &&
                 (2 <=? length rest)%nat && (length rest <=? 255)%nat
  | [] => false
  end.

(** [raise ChaosControlError(code, message, ...)] *)
Definition chaos_error (code message : string) : exn := Exn (OtherError code) message.
Definition refuse {A} (code message : string) : result A := raise (OtherError code) message.
Definition demand (b : bool) (code message : string) : result void :=
  require b (OtherError code) message.

(** A path is whether it is configured; the files are the gateway's state. *)
Record RuntimeConfig := {
  execute_enabled : bool;
  config_kubeconfig : option string;
  config_cleanup_kubeconfig : option string;
  config_namespace_allowlist : list string;
  config_controller_token_ref : option string;
  controller_pod_uid : option string;
  controller_pod_namespace : option string;
  controller_pod_name : option string;
  controller_lease_file : bool;
  config_cleanup_handle : option string;
  allowed_fault_types : list string;
  expected_fault : option mapping;
  decision_policy : string;
  user_decision_file : bool;
  baseline_ledger_dir : bool;
  create_uncertainty_variant : option string;
  condition_safety_ttl_seconds : option Z }.

Record ExperimentRecord := {
  rec_name : string;
  rec_namespace : string;
  rec_run_id : string;
  rec_target_name : string;
  rec_target_uid : string;
  rec_fault_type : string;
  rec_phase : string;
  rec_owner : option string;
  rec_labels : dict string string }.

Definition terminal (r : ExperimentRecord) : bool :=
  bool_decide (str_lower (str_strip (rec_phase r)) ∈ TERMINAL_PHASES).
Definition owned (r : ExperimentRecord) : bool := bool_decide (rec_owner r = Some OWNER_VALUE).
Definition running (r : ExperimentRecord) : bool := bool_decide (str_lower (rec_phase r) = "running").

(** What the gateway asks of an executor; a call may change the world and may raise. *)
Record ChaosBackend (W : Type) := {
  list_experiments : string → prog W (list ExperimentRecord);
  backend_get : string → string → string → prog W (option ExperimentRecord);
  get_pod_uid : string → string → string → prog W (option string);
  backend_create : mapping → string → prog W ExperimentRecord;
  delete_experiment : string → string → string → prog W void;
  render_manifest : string → ChaosBladeAction → result mapping;
  prepare_target_fence : string → string → string → string → prog W void;
  clear_target_fence : string → string → string → string → prog W void }.
Arguments list_experiments {W}.
Arguments backend_get {W}.
Arguments get_pod_uid {W}.
Arguments backend_create {W}.
Arguments delete_experiment {W}.
Arguments render_manifest {W}.
Arguments prepare_target_fence {W}.
Arguments clear_target_fence {W}.

(** ** Actions, names and payloads *)

Definition action_labels (run_id namespace target_uid fault_type : string) : dict string string :=
  [(RUN_ID_LABEL, run_id); (TARGET_UID_LABEL, target_uid); (NAMESPACE_LABEL, namespace);
   (FAULT_TYPE_LABEL, fault_type); (OWNER_LABEL, OWNER_VALUE)].

Definition _action (run_id namespace target_name target_uid fault_type : string)
    (duration_seconds : Z) (intensity : mapping) (selector : option (dict string string))
    : ChaosBladeAction := {|
  Safety.run_id := run_id; Safety.namespace := namespace;
  target := {| Safety.target_namespace := namespace; kind := "Pod"; name := target_name;
               uid := target_uid; Safety.selector := selector |};
  Safety.fault_type := fault_type; Safety.duration_seconds := duration_seconds;
  Safety.intensity := intensity;
  labels := action_labels run_id namespace target_uid fault_type |}.

(** [re.sub(r"\[^a-z0-9-\]+", "-", s)] *)
Fixpoint dash_runs (in_run : bool) (l : list ascii) : list ascii :=
  match l with
  | [] => []
  | c :: r =>
      if is_lower_alnum c || bool_decide (c = "-"%char) then c :: dash_runs false r
      else if in_run then dash_runs true r
      else "-"%char :: dash_runs true r
  end.

Definition strip_dashes (l : list ascii) : list ascii :=
  let dash := λ c, bool_decide (c = "-"%char) in
  rev (drop_while dash (rev (drop_while dash l))).

Definition _experiment_name (run_id fault_type : string) : string :=
  let digest := take 10 (chars (Sha256.hexdigest (run_id +:+ ":" +:+ fault_type))) in
  let base := strip_dashes (dash_runs false
                (chars (str_lower ("cc-" +:+ run_id +:+ "-" +:+ fault_type)))) in
  unchars (take 45 base ++ "-"%char :: digest).

Definition label_value (r : ExperimentRecord) (k : string) : val :=
  match dget k (rec_labels r) with Some s => VStr s | None => VNone end.

Definition _record_payload (r : ExperimentRecord) : mapping :=
  [("name", VStr (rec_name r)); ("namespace", VStr (rec_namespace r)); ("run_id", VStr (rec_run_id r));
   ("target_name", VStr (rec_target_name r)); ("target_uid", VStr (rec_target_uid r));
   ("fault_type", VStr (rec_fault_type r)); ("phase", VStr (rec_phase r)); ("owned", VBool (owned r));
   ("terminal", VBool (terminal r));
   ("labels", VDict (map (λ k, (k, label_value r k))
      [RUN_ID_LABEL; TARGET_UID_LABEL; NAMESPACE_LABEL; FAULT_TYPE_LABEL; OWNER_LABEL]))].

Definition _finding_payload (code message : string) : val :=
  VDict [("code", VStr code); ("message", VStr message)].

Definition _policy_payload (policy : ControllerPolicy) : mapping :=
  [("namespace_allowlist", VList (map VStr (sort_by str_leb (namespace_allowlist policy))));
   ("max_concurrent_actions", VInt (max_concurrent_actions policy));
   ("max_fault_duration_seconds", VInt (max_fault_duration_seconds policy));
   ("intensity_limits", VStr "none");
   ("allowed_fault_types", VList (map VStr (sort_by str_leb (dkeys (fault_type_contracts policy)))))].

(** A request to create an experiment, as the tool receives it. *)
Record CreateRequest := {
  q_run_id : string;
  q_namespace : string;
  q_target_name : string;
  q_target_uid : string;
  q_fault_type : string;
  q_duration_seconds : Z;
  q_intensity : mapping;
  q_kubeconfig : string;
  q_controller_token_ref : string;
  q_expected_controller_pod_uid : string;
  q_baseline_gate_token : string;
  q_cleanup_handle : string;
  q_selector : option (dict string string) }.

Definition request_action (q : CreateRequest) : ChaosBladeAction :=
  _action (q_run_id q) (q_namespace q) (q_target_name q) (q_target_uid q) (q_fault_type q)
    (q_duration_seconds q) (q_intensity q) (q_selector q).

Definition _create_ledger_payload (created_at deadline_at : datetime) (name : string)
    (q : CreateRequest) (baseline_token_hash : string) : mapping :=
  [("version", VInt LEDGER_VERSION); ("created_at", VStr (isoformat created_at));
   ("updated_at", VStr (isoformat created_at)); ("state", VStr "pending_apply");
   ("experiment_name", VStr name); ("namespace", VStr (q_namespace q));
   ("run_id", VStr (q_run_id q)); ("target_name", VStr (q_target_name q));
   ("target_uid", VStr (q_target_uid q)); ("fault_type", VStr (q_fault_type q));
   ("duration_seconds", VInt (q_duration_seconds q)); ("intensity", VDict (q_intensity q));
   ("deadline_at", VStr (isoformat deadline_at));
   ("controller_token_ref", VStr (q_controller_token_ref q));
   ("baseline_gate_token_sha256", VStr baseline_token_hash);
   ("cleanup_handle", VStr (q_cleanup_handle q)); ("operation_id", VStr (q_cleanup_handle q))].

(** ** Plans *)

Definition _agent_plan_envelope (config : RuntimeConfig) : result PlanSafetyEnvelope :=
  let policy := default_policy (config_namespace_allowlist config) in
  from_controller_policy policy
    (if empty (allowed_fault_types config) then sort_by str_leb (dkeys (fault_type_contracts policy))
     else sort_by str_leb (allowed_fault_types config)).

(** [plan.setdefault(k, v)] *)
Definition setdefault (plan : mapping) (kv : string * val) : mapping :=
  if dmem kv.1 plan then plan else plan ++ [kv].

Definition fill_policy (plan : mapping) : mapping :=
  foldl setdefault plan (List.filter (λ kv, negb (bool_decide (kv.1 = "recovery_mode"))) CONDITION_POLICY).

Definition drop_policy_fields (plan : mapping) (k : string) : mapping :=
  match vget plan k with
  | VDict condition =>
      dset k (VDict (ddel "minimum_requests" (ddel "threshold_tolerance_ratio" condition))) plan
  | _ => plan
  end.

Definition _agent_plan_input (raw_plan : mapping) : mapping :=
  let plan := omap (λ k, v ← dget k raw_plan; Some (k, v)) PLAN_FIELDS in
  fill_policy (foldl drop_policy_fields plan CONDITION_NAMES).

Definition synthetic_condition (operator : string) : val :=
  VDict [("metric", VStr "target_latency_ms"); ("operator", VStr operator); ("threshold", VInt 0)].

Definition _synthetic_agent_plan (raw_plan : mapping) : mapping :=
  fill_policy (dict_update raw_plan
    [("effect_condition", synthetic_condition "increase_by_at_least");
     ("recovery_condition", synthetic_condition "within_baseline_delta");
     ("stop_conditions", VList [VStr "controller create request schema validation"])]).

(** What a mutation request says of a plan. *)
Definition request_fields (namespace target_name target_uid fault_type : string)
    (duration_seconds intensity : val) : mapping :=
  [("target", VDict [("namespace", VStr namespace); ("name", VStr target_name); ("uid", VStr target_uid)]);
   ("fault_type", VStr fault_type); ("safety_ttl_seconds", duration_seconds); ("intensity", intensity)].

Definition _request_plan_from_approved (approved : mapping) (namespace target_name target_uid
    fault_type : string) (duration_seconds intensity : val) : mapping :=
  dict_update approved
    (request_fields namespace target_name target_uid fault_type duration_seconds intensity).

Definition _assert_controller_owned_plan_fields (raw_plan : mapping) : result void :=
  let mode := vget raw_plan "recovery_mode" in
  let mode_ok := is_none mode || is_str mode RECOVERY_MODE in
  let conditions := omap (λ n, c ← as_map (vget raw_plan n); Some (n, c)) CONDITION_NAMES in
  fields_ok ← mapM (λ nc,
    let tolerance := vget nc.2 "threshold_tolerance_ratio" in
    tolerance_ok ← (if is_none tolerance then Ok true
                    else if bool_decide (nc.1 = "effect_condition")
                         then bad ← bad_tolerance tolerance; Ok (negb bad)
                         else Ok false);
    Ok (negb (has_key nc.2 "minimum_requests") && tolerance_ok)) conditions;
  demand (mode_ok && forallb id fields_ok) "PLAN_SCHEMA_INVALID"
    "Controller-owned plan policy fields were modified.".

(** [PlanSafetyEnvelope] validation of a plan, and what an independent observer asks. *)
Section plan_gates.
Context (errors : mapping → list SchemaError).

Definition execution_parameters_within_envelope (namespace target_name target_uid fault_type : string)
    (duration_seconds intensity : val) (envelope : PlanSafetyEnvelope) : bool :=
  if negb (nonempty namespace && nonempty target_name && nonempty target_uid && nonempty fault_type)
  then false
  else match duration_seconds, intensity with
       | VInt seconds, VDict (_ :: _) =>
           if seconds <? 1 then false
           else match validate_agent_plan errors
                        (VDict (_agent_plan_input (_synthetic_agent_plan
                           (_request_plan_from_approved [] namespace target_name target_uid fault_type
                              duration_seconds intensity)))) envelope with
                | Ok r => result_ok r
                | Err _ => false
                end
       | _, _ => false
       end.

Definition _assert_agent_plan_schema (config : RuntimeConfig) (raw_plan : mapping) (label : string)
    : result AgentPlan :=
  _assert_controller_owned_plan_fields raw_plan ;;
  envelope ← _agent_plan_envelope config;
  r ← validate_agent_plan errors (VDict (_agent_plan_input raw_plan)) envelope;
  match result_ok r, result_plan r with
  | true, Some plan => Ok plan
  | _, _ => refuse "PLAN_SCHEMA_INVALID"
              (label +:+ " does not satisfy the Stage-2 AgentPlan contract.")
  end.

(** [pod-kill] is outside the plan's fault types. *)
Definition _assert_create_request_plan_schema (config : RuntimeConfig) (executor_id : string)
    (q : CreateRequest) : result (option AgentPlan) :=
  if bool_decide (executor_id = "chaos_mesh") && bool_decide (q_fault_type q = "pod-kill") then Ok None
  else Some <$> _assert_agent_plan_schema config
         (_synthetic_agent_plan (request_fields (q_namespace q) (q_target_name q) (q_target_uid q)
            (q_fault_type q) (VInt (q_duration_seconds q)) (VDict (q_intensity q))))
         "mutation request".
End plan_gates.

(** ** Uncertain outcomes *)

Definition _create_uncertainty_variant (value : option string) : result (option string) :=
  match value with
  | None => Ok None
  | Some value =>
      let normalized := str_upper (str_strip value) in
      if negb (nonempty normalized) then Ok None
      else if bool_decide (normalized ∈ ["D6A"; "D6_A"; "D6-A"]) then Ok (Some "D6-A")
      else if bool_decide (normalized ∈ ["D6B"; "D6_B"; "D6-B"]) then Ok (Some "D6-B")
      else refuse "INVALID_OPERATION_UNCERTAINTY_VARIANT"
             "Create outcome uncertainty variant must be D6-A or D6-B."
  end.


Definition _uncertainty_already_injected (ledger : option mapping) : bool :=
  match ledger with Some l => is_true (vget l "uncertainty_injected") | None => false end.

Definition _is_retriable_absent_uncertainty (ledger : option mapping) : bool :=
  match ledger with
  | Some l => is_true (vget l "uncertainty_injected") && is_str (vget l "uncertainty_variant") "D6-A" &&
              is_str (vget l "operation_outcome") "absent" &&
              is_str (vget l "state") "operation_outcome_unknown"
  | None => false
  end.

Definition unknown_outcome : exn :=
  chaos_error "OPERATION_OUTCOME_UNKNOWN"
    "The create request outcome is intentionally hidden for this D6 operation-outcome uncertainty Trial.".

(** ** Ledger documents *)

(** [and] stops at the first difference; a missing key raises when it is reached. *)
Fixpoint all_equal (ledger : mapping) (l : list (string * string)) : result bool :=
  match l with
  | [] => Ok true
  | (s, k) :: l => v ← vitem ledger k; if is_str v s then all_equal ledger l else Ok false
  end.

Definition _record_matches_ledger (r : ExperimentRecord) (ledger : mapping) : result bool :=
  if owned r
  then all_equal ledger [(rec_run_id r, "run_id"); (rec_target_uid r, "target_uid");
                         (rec_namespace r, "namespace"); (rec_name r, "experiment_name")]
  else Ok false.

Definition _validate_resource_name (value field_name : string) : result void :=
  demand (SAFE_NAME_RE value) "INVALID_RESOURCE_NAME"
    (field_name +:+ " must be a Kubernetes DNS-like resource name.").

Definition _parse_datetime (value : val) : option datetime :=
  match value with
  | VStr s => as_utc <$> fromisoformat (spell_zulu s)
  | _ => None
  end.

(** [a > b] of two UTC values. *)
Definition later (a b : datetime) : bool := dt_wall b <? dt_wall a.

Definition class_name (k : exn_kind) : string :=
  match k with
  | ValueError => "ValueError" | TypeError => "TypeError" | KeyError => "KeyError"
  | IndexError => "IndexError" | AttributeError => "AttributeError"
  | RuntimeError => "RuntimeError" | AssertionError => "AssertionError"
  | OverflowError => "OverflowError" | ZeroDivisionError => "ZeroDivisionError"
  | OtherError name => name
  end.

Definition _error_code (e : exn) : string := class_name (exn_class e).

Definition _ledger_executor_id (ledger : mapping) : result string :=
  match vget ledger "executor_id" with
  | VStr s => if nonempty s then Ok s
              else refuse "LEDGER_EXECUTOR_MISSING"
                     "Cleanup ledger has no executor identity; ownership cannot be inferred."
  | _ => refuse "LEDGER_EXECUTOR_MISSING"
           "Cleanup ledger has no executor identity; ownership cannot be inferred."
  end.
