(* ===== verification/ChaosPlan.v ===== *)
(** * The create gate's plan judgement, asked again

    [execution_parameters_within_envelope], which an independent Oracle asks of parameters
    that were executed, against the create gate's own check of a request. *)

From S2P Require Import Prelude PyFloat PyVal PyTime PyIso Safety ConditionPolicy PlanSchema.
From S2P Require Import Sha256 ChaosGates.

#[local] Open Scope Z_scope.

(** ** What an accepted plan says *)

Section accepted.
Context (errors : mapping → list SchemaError).

Lemma validate_accepted raw e r : validate_agent_plan errors (VDict raw) e = Ok r →
  result_ok r = true → ∃ p, result_plan r = Some p ∧ plan_parsed raw p ∧ within_envelope p e.
Proof.
  cbn [validate_agent_plan]. intros (ri & Hraw & H)%bind_Ok_inv.
  apply bind_Ok_inv in H as ([plan|] & Hm & H); [apply model_validate_Some in Hm|by injection H as <-].
  destruct (ri ++ envelope_issues plan e) as [|i l] eqn:E; injection H as <-; [|done].
  intros _. exists plan. split; [done|]. split; [done|].
  apply app_eq_nil in E as [_ E]. apply envelope_nil; [|done].
  by apply uid_not_blank, (tp_uid _ _ (pp_target _ _ Hm)).
Qed.
End accepted.

(** ** Every contract of the Trial's envelope has an intensity field *)

Definition has_fields (contracts : dict string (dict string IntensityFieldEnvelope)) : Prop :=
  ∀ k f, dget k contracts = Some f → f ≠ [].

Lemma mapM_nonempty {A B} (f : A → result B) l k : l ≠ [] → mapM f l = Ok k → k ≠ [].
Proof.
  destruct l as [|x l]; [done|]. intros _. cbn. intros (y & _ & H)%bind_Ok_inv.
  apply bind_Ok_inv in H as (z & _ & [= <-]). done.
Qed.

Lemma default_contract_fields ns k c : dget k (fault_type_contracts (default_policy ns)) = Some c →
  intensity_fields c ≠ [].
Proof. cbn. intros H. repeat case_decide; simplify_eq; done. Qed.

Lemma add_contract_fields ns acc k acc' : has_fields acc →
  add_contract (default_policy ns) acc k = Ok acc' → has_fields acc'.
Proof.
  intros Hacc. unfold add_contract. destruct (dget k _) as [c|] eqn:Ec; [|by intros [= <-]].
  intros (e & He & [= <-])%bind_Ok_inv k' f. rewrite dget_dset. case_decide as E; [|by apply Hacc].
  intros [= <-]. eapply mapM_nonempty; [|exact He]. by eapply default_contract_fields.
Qed.

Lemma add_contracts_fields ns l acc acc' : has_fields acc →
  foldM (add_contract (default_policy ns)) acc l = Ok acc' → has_fields acc'.
Proof.
  revert acc. induction l as [|k l IH]; intros acc Hacc; cbn; [by intros [= <-]|].
  intros (acc1 & H1 & H2)%bind_Ok_inv. eapply IH; [|exact H2]. by eapply add_contract_fields.
Qed.

Lemma envelope_fields config e : _agent_plan_envelope config = Ok e → has_fields (fault_contracts e).
Proof.
  unfold _agent_plan_envelope, from_controller_policy. intros (cs & Hcs & H)%bind_Ok_inv.
  apply bind_Ok_inv in H as ([] & _ & H). apply bind_Ok_inv in H as ([] & _ & [= <-]). cbn.
  eapply add_contracts_fields; [|exact Hcs]. by intros k f.
Qed.

(** ** The two judgements *)

Section oracle.
Context (errors : mapping → list SchemaError).
Context (ns tn u ft : string) (seconds : Z) (d : mapping).

#[local] Abbreviation request := (request_fields ns tn u ft (VInt seconds) (VDict d)).

Lemma synthetic_unguarded : _assert_controller_owned_plan_fields (_synthetic_agent_plan request) = Ok tt.
Proof. reflexivity. Qed.

Lemma request_from_nothing :
  _request_plan_from_approved [] ns tn u ft (VInt seconds) (VDict d) = request.
Proof. reflexivity. Qed.

Definition gate_input : mapping := _agent_plan_input (_synthetic_agent_plan request).

Lemma gate_input_says :
  vget gate_input "target" = VDict [("namespace", VStr ns); ("name", VStr tn); ("uid", VStr u)] ∧
  vget gate_input "fault_type" = VStr ft ∧ vget gate_input "safety_ttl_seconds" = VInt seconds ∧
  vget gate_input "intensity" = VDict d.
Proof. split_and!; vm_compute; reflexivity. Qed.

(** A plan that the gate accepts passes the Oracle's first guards. *)
Lemma accepted_guards config e r : _agent_plan_envelope config = Ok e →
  validate_agent_plan errors (VDict gate_input) e = Ok r → result_ok r = true →
  nonempty ns && nonempty tn && nonempty u && nonempty ft = true ∧ 1 <= seconds ∧ d ≠ [].
Proof.
  intros He Hr Hok. destruct (validate_accepted _ _ _ _ Hr Hok) as (p & _ & Hp & Hw).
  destruct gate_input_says as (G1 & G2 & G3 & G4).
  destruct Hp as [[(doc & Hd & E1 & E2 & E3) R1 R2 R3 _] Hf (i & Hi & Hitems) _ _ [Ht Httl] _ _].
  rewrite G1 in Hd. rewrite G2 in Hf. rewrite G3 in Ht. rewrite G4 in Hi. clear G1 G2 G3 G4.
  injection Hd as <-. injection E1 as E1. injection E2 as E2. injection E3 as E3.
  injection Ht as Ht. injection Hi as <-. split_and!.
  - rewrite !andb_true_iff, !nonempty_true. rewrite <- E1 in R1. rewrite <- E2 in R2. rewrite <- E3 in R3.
    split_and!; by intros ->.
  - lia.
  - intros ->. injection Hitems as Hpi. destruct (we_intensity _ _ Hw) as (fault & Hfc & [Hif _]).
    rewrite <- Hpi in Hif. apply (envelope_fields _ _ He _ _ Hfc). destruct fault as [|[k f] l]; [done|].
    exfalso. apply (not_elem_of_nil k), Hif. by left.
Qed.

(** C13: The Oracle's judgement of executed parameters answers true exactly when the create
    gate's own plan check accepts the same parameters: the two cannot drift. *)
Theorem oracle_is_the_gate config e label : _agent_plan_envelope config = Ok e →
  execution_parameters_within_envelope errors ns tn u ft (VInt seconds) (VDict d) e =
  is_ok (_assert_agent_plan_schema errors config (_synthetic_agent_plan request) label).
Proof.
  intros He. unfold execution_parameters_within_envelope, _assert_agent_plan_schema.
  rewrite request_from_nothing, synthetic_unguarded, bind_ok, He, bind_ok.
  fold gate_input. set (v := validate_agent_plan errors (VDict gate_input) e).
  assert (∀ r, v = Ok r → result_ok r = true → ∃ p, result_plan r = Some p) as Hplan.
  { intros r Hr Hok. destruct (validate_accepted _ _ _ _ Hr Hok) as (p & Ep & _). eauto. }
  assert (∀ r, v = Ok r → result_ok r = true →
    nonempty ns && nonempty tn && nonempty u && nonempty ft = true ∧ 1 <= seconds ∧ d ≠ []) as Hg
    by (intros r; by apply (accepted_guards config)).
  destruct v as [r|x]; [|by repeat case_match].
  rewrite bind_ok. specialize (Hplan r eq_refl). specialize (Hg r eq_refl).
  destruct (result_ok r).
  - destruct (Hplan eq_refl) as [p ->]. destruct (Hg eq_refl) as (-> & Hs & Hd). cbn [negb].
    destruct d; [done|]. by rewrite (proj2 (Z.ltb_ge _ _)) by lia.
  - by repeat case_match.
Qed.
End oracle.

(** ** At a concrete input *)

Definition plan_config : RuntimeConfig := {|
  execute_enabled := true; config_kubeconfig := None; config_cleanup_kubeconfig := None;
  config_namespace_allowlist := ["shop"]; config_controller_token_ref := None;
  controller_pod_uid := None; controller_pod_namespace := None; controller_pod_name := None;
  controller_lease_file := false; config_cleanup_handle := None; allowed_fault_types := [];
  expected_fault := None; decision_policy := "agent_delegated"; user_decision_file := false;
  baseline_ledger_dir := true; create_uncertainty_variant := None; condition_safety_ttl_seconds := None |}.

(** Both accept a delay of 200 ms, and both refuse one of no size at all. *)
Definition sample_uid : string := "9f1c2d3e-0000-4000-8000-000000000001".
Definition judged (d : mapping) : bool :=
  match _agent_plan_envelope plan_config with
  | Ok e => execution_parameters_within_envelope (λ _, []) "shop" "cart-0" sample_uid "network-delay"
              (VInt 120) (VDict d) e
  | Err _ => false
  end.

Lemma oracle_is_the_gate_witness :
  judged [("delay_ms", VInt 200)] = true ∧
  is_ok (_assert_agent_plan_schema (λ _, []) plan_config (_synthetic_agent_plan
    (request_fields "shop" "cart-0" sample_uid "network-delay" (VInt 120) (VDict [("delay_ms", VInt 200)])))
    "mutation request") = true.
Proof.
  destruct (_agent_plan_envelope plan_config) as [e|x] eqn:E; [|vm_compute in E; discriminate E].
  rewrite <- (oracle_is_the_gate (λ _, []) "shop" "cart-0" sample_uid "network-delay" 120
    [("delay_ms", VInt 200)] plan_config e "mutation request" E).
  unfold judged. rewrite E. vm_compute in E. injection E as <-. split; vm_compute; reflexivity.
Defined.

Example empty_intensity_refused : judged [] = false ∧ judged [("delay_ms", VBool true)] = false.
Proof. split; vm_compute; reflexivity. Qed.
