(* ===== verification/ChaosLedger.v ===== *)
(** * The chaos gateway's state and its private files

    [mcp_servers/chaos_core/ledger.py] and the file methods of
    [mcp_servers/chaos_core/service.py]. Executors of one Trial share the cleanup ledger, a
    private directory with one document per cleanup handle; the mutation lock makes each
    locked method one step. A file is what [lstat] and the JSON parser say of it. *)

From S2P Require Import Prelude PyFloat PyVal PyTime PyIso Safety ConditionPolicy PlanSchema.
From S2P Require Import Sha256 ChaosGates.

#[local] Open Scope Z_scope.

(** ** Files and directories *)

(** The parsed text of a regular file ([None]: not JSON); a link's target, when it is one. *)
Inductive node :=
  | File (mode : Z) (text : option val)
  | Link (target : option (option val))
  | Directory
  | Device.

Definition is_file (n : node) : bool :=
  match n with File _ _ | Link (Some _) => true | _ => false end.

(** Whether the path is a directory of its own, and its mode; the files by name without
    [.json]. *)
Record Folder := {
  present : option (bool * Z);
  files : gmap string node }.

Definition in_folder (d : Folder) (k : string) : option node :=
  match present d with Some _ => files d !! k | None => None end.

(** How a write of a private file ends: before or after the file is replaced. *)
Inductive DiskOutcome := Written | NotWritten (e : exn) | WrittenThen (e : exn).

(** ** The gateway *)

(** What mutates the cluster, latest first: a ghost, which no code reads. A creation
    remembers what the ledger held for its handle when it was asked for. *)
Inductive Mutation :=
  | MFence (namespace name uid : string)
  | MUnfence (namespace name uid : string)
  | MCreate (executor handle : string) (manifest : mapping) (entry : option node)
  | MDelete (executor namespace name : string).

Record Gateway (W : Type) := {
  gw_ledger : Folder;
  gw_lock : option node;
  gw_baseline : Folder;
  gw_decision : option node;
  gw_lease : option node;
  gw_clock : nat;
  gw_world : W;
  gw_trace : list Mutation }.
Arguments gw_ledger {W}.
Arguments gw_lock {W}.
Arguments gw_baseline {W}.
Arguments gw_decision {W}.
Arguments gw_lease {W}.
Arguments gw_clock {W}.
Arguments gw_world {W}.
Arguments gw_trace {W}.

Section gateway.
Context {W : Type}.

#[local] Abbreviation gw := (prog (Gateway W)).

Definition set_ledger (d : Folder) (s : Gateway W) : Gateway W := {|
  gw_ledger := d; gw_lock := gw_lock s; gw_baseline := gw_baseline s; gw_decision := gw_decision s;
  gw_lease := gw_lease s; gw_clock := gw_clock s; gw_world := gw_world s; gw_trace := gw_trace s |}.
Definition set_lock (n : node) (s : Gateway W) : Gateway W := {|
  gw_ledger := gw_ledger s; gw_lock := Some n; gw_baseline := gw_baseline s; gw_decision := gw_decision s;
  gw_lease := gw_lease s; gw_clock := gw_clock s; gw_world := gw_world s; gw_trace := gw_trace s |}.
Definition set_baseline (d : Folder) (s : Gateway W) : Gateway W := {|
  gw_ledger := gw_ledger s; gw_lock := gw_lock s; gw_baseline := d; gw_decision := gw_decision s;
  gw_lease := gw_lease s; gw_clock := gw_clock s; gw_world := gw_world s; gw_trace := gw_trace s |}.
Definition tick (s : Gateway W) : Gateway W := {|
  gw_ledger := gw_ledger s; gw_lock := gw_lock s; gw_baseline := gw_baseline s; gw_decision := gw_decision s;
  gw_lease := gw_lease s; gw_clock := S (gw_clock s); gw_world := gw_world s; gw_trace := gw_trace s |}.
Definition set_world (w : W) (s : Gateway W) : Gateway W := {|
  gw_ledger := gw_ledger s; gw_lock := gw_lock s; gw_baseline := gw_baseline s; gw_decision := gw_decision s;
  gw_lease := gw_lease s; gw_clock := gw_clock s; gw_world := w; gw_trace := gw_trace s |}.
Definition record (m : Mutation) (s : Gateway W) : Gateway W := {|
  gw_ledger := gw_ledger s; gw_lock := gw_lock s; gw_baseline := gw_baseline s; gw_decision := gw_decision s;
  gw_lease := gw_lease s; gw_clock := gw_clock s; gw_world := gw_world s; gw_trace := m :: gw_trace s |}.

Definition put_file (k : string) (n : node) (d : Folder) : Folder := {|
  present := present d; files := <[k := n]> (files d) |}.

(** [await self.backend.f(...)] *)
Definition on_backend {A} (op : prog W A) : gw A := λ s,
  let '(w, r) := op (gw_world s) in (set_world w s, r).

(** [utc_now n] is the [n]-th reading of the clock, in microseconds; [disk n] how the
    [n]-th write ends. *)
Context (utc_now : nat → Z) (disk : nat → DiskOutcome).

Definition _now_utc : gw datetime := λ s, (tick s, Ok (utc_of (utc_now (gw_clock s)))).
Definition _now_iso : gw val := t ← _now_utc; mret (VStr (isoformat t)).
Definition disk_outcome : gw DiskOutcome := λ s, (tick s, Ok (disk (gw_clock s))).

(** ** Private directories and files *)

Definition _assert_private_directory (d : Folder) (label : string) : result void :=
  match present d with
  | None => refuse "LEDGER_DIRECTORY_MISSING" (label +:+ " directory does not exist.")
  | Some (real, mode) =>
      demand real "LEDGER_DIRECTORY_UNSAFE"
        (label +:+ " path must be a real directory, not a symlink or special file.") ;;
      demand (mode =? 448) "LEDGER_DIRECTORY_MODE_UNSAFE" (label +:+ " directory must have mode 0700.")
  end.

(** [write]: what a write that ends as [disk] says does to the state. *)
Definition write (put : Gateway W → Gateway W) : gw void :=
  o ← disk_outcome;
  match o with
  | Written => modify put
  | NotWritten e => lift (Err e)
  | WrittenThen e => modify put ;; lift (Err e)
  end.

Definition _ensure_private_ledger_directory : gw void :=
  d ← gets gw_ledger;
  match present d with
  | Some _ => lift (_assert_private_directory d "cleanup ledger")
  | None =>
      write (λ s, set_ledger {| present := Some (true, 448); files := files (gw_ledger s) |} s) ;;
      d ← gets gw_ledger;
      lift (_assert_private_directory d "cleanup ledger")
  end.

(** [os.open] of the lock file with [O_CREAT] and [O_NOFOLLOW], and the check of what it
    opened; 384 is 0600. *)
Definition open_lock : gw void :=
  n ← gets gw_lock;
  match n with
  | None => modify (set_lock (File 384 None))
  | Some (File mode _) =>
      lift (demand (mode =? 384) "LEDGER_LOCK_UNSAFE"
              "The Controller mutation lock is not a private regular file.")
  | Some Device => lift (refuse "LEDGER_LOCK_UNSAFE"
                           "The Controller mutation lock is not a private regular file.")
  | Some (Link _) => lift (raise (OtherError "OSError") "Too many levels of symbolic links")
  | Some Directory => lift (raise (OtherError "IsADirectoryError") "Is a directory")
  end.

(** [async with _ledger_file_lock(self.config.ledger_dir)]: the body runs alone. *)
Definition with_ledger_lock {A} (body : gw A) : gw A :=
  _ensure_private_ledger_directory ;; open_lock ;; body.

Definition _read_private_json_file (n : option node) (label missing_code missing_message : string)
    : result mapping :=
  match n with
  | None => refuse missing_code missing_message
  | Some (File mode text) =>
      demand (mode =? 384) "LEDGER_FILE_MODE_UNSAFE" (label +:+ " must have mode 0600.") ;;
      match text with
      | None => refuse "LEDGER_FILE_UNREADABLE" (label +:+ " is not valid JSON.")
      | Some (VDict payload) => Ok payload
      | Some _ => refuse "LEDGER_FILE_UNREADABLE" (label +:+ " JSON must be an object.")
      end
  | Some _ => refuse "LEDGER_FILE_UNSAFE"
                (label +:+ " must be a regular file, not a symlink or special file.")
  end.

(** ** The cleanup ledger *)

Definition json_file (payload : mapping) : node := File 384 (Some (VDict (sort_mapping payload))).

Definition _write_ledger (cleanup_handle : string) (payload : mapping) : gw void :=
  _ensure_private_ledger_directory ;;
  write (λ s, set_ledger (put_file cleanup_handle (json_file payload) (gw_ledger s)) s).

(** The names of the ledger's files, in the order of their paths. *)
Definition handles (d : Folder) : list string :=
  sort_by (λ a b, str_leb (a +:+ ".json") (b +:+ ".json")) (elements (dom (files d))).

Definition _iter_cleanup_ledger_paths : gw (list string) :=
  d ← gets gw_ledger;
  match present d with
  | None => mret []
  | Some _ => lift (_assert_private_directory d "cleanup ledger") ;; mret (handles d)
  end.

Definition read_entry (cleanup_handle missing_code missing_message : string) : gw mapping :=
  d ← gets gw_ledger;
  lift (_read_private_json_file (in_folder d cleanup_handle) "cleanup ledger entry"
          missing_code missing_message).

Definition _validate_handle (cleanup_handle : string) : result void :=
  demand (HANDLE_RE cleanup_handle) "INVALID_CLEANUP_HANDLE"
    "Cleanup handle must start with cleanup- and contain only safe identifier characters.".

Definition UNKNOWN_HANDLE : string :=
  "This server has no ledger entry for the cleanup handle.".

Definition REQUIRED_FIELDS : list string :=
  ["experiment_name"; "namespace"; "run_id"; "target_uid"; "cleanup_handle"].

Definition _read_ledger (cleanup_handle : string) : gw mapping :=
  lift (_validate_handle cleanup_handle) ;;
  d ← gets gw_ledger;
  lift (demand (bool_decide (is_Some (present d))) "UNKNOWN_CLEANUP_HANDLE" UNKNOWN_HANDLE) ;;
  lift (_assert_private_directory d "cleanup ledger") ;;
  payload ← read_entry cleanup_handle "UNKNOWN_CLEANUP_HANDLE" UNKNOWN_HANDLE;
  lift (demand (forallb (λ k, has_key payload k) REQUIRED_FIELDS) "CORRUPT_LEDGER_ENTRY"
          "The cleanup ledger entry is missing required fields.") ;;
  mret payload.

Definition _read_ledger_for_create (cleanup_handle : string) : gw (option mapping) :=
  lift (_validate_handle cleanup_handle) ;;
  d ← gets gw_ledger;
  match in_folder d cleanup_handle with
  | None => mret None
  | Some _ =>
      lift (_assert_private_directory d "cleanup ledger") ;;
      payload ← read_entry cleanup_handle "UNKNOWN_CLEANUP_HANDLE" UNKNOWN_HANDLE;
      mret (Some payload)
  end.

(** A Trial's user decision, when its file is there. *)
Definition decision_node (config : RuntimeConfig) : gw (option node) :=
  n ← gets gw_decision;
  mret (if user_decision_file config then
          match n with Some n => if is_file n then Some n else None | None => None end
        else None).

Definition read_decision (n : node) : result mapping :=
  _read_private_json_file (Some n) "user decision" "USER_DECISION_REQUIRED"
    "The user decision record is missing or unsafe.".

(** [json.loads(path.read_text())]: no check of the file's mode. *)
Definition node_text (n : node) : option val :=
  match n with File _ t => t | Link (Some t) => t | _ => None end.

End gateway.
