(* ===== verification/ChaosService.v ===== *)
(** * The chaos gateway ([mcp_servers/chaos_core/service.py])

    [ControlledExecutionService]: one executor's workflow over the shared cleanup ledger —
    the gates of a creation, the two uncertain outcomes, status, destruction, and the sweep
    of expired faults. What a call answers is its document; the state is [ChaosLedger]'s. *)

From Stdlib Require Import QArith.
From S2P Require Import Prelude PyFloat PyVal PyTime PyIso Safety ConditionPolicy PlanSchema.
From S2P Require Import Sha256 Hoare ChaosGates ChaosLedger.

#[local] Open Scope Z_scope.

(** One executor. *)
Record Service (W : Type) := {
  config : RuntimeConfig;
  backend : ChaosBackend W;
  executor_id : string }.
Arguments config {W}.
Arguments backend {W}.
Arguments executor_id {W}.

(** ** Plans a request is compared with *)

(** [set(a) != set(b)] *)
Definition same_set (a b : list string) : bool :=
  forallb (λ x, bool_decide (x ∈ b)) a && forallb (λ x, bool_decide (x ∈ a)) b.

Definition deviation (field : string) (approved requested : val) : val :=
  VDict [("field", VStr field); ("approved", approved); ("requested", requested)].

(** The loop over the approved intensity: whether a value is higher, and what is lower. *)
Definition intensity_deviations (approved requested : dict string pyfloat) : bool * list val :=
  foldl (λ acc key,
    match dget key approved, dget key requested with
    | Some a, Some r =>
        if flt a r then (true, acc.2)
        else if flt r a
             then (acc.1, acc.2 ++ [deviation ("intensity." +:+ key) (VFloat a) (VFloat r)])
             else acc
    | _, _ => acc
    end) (false, []) (sort_by str_leb (dkeys approved)).

(** [approved_values.get("target") != requested_values.get("target")] *)
Definition same_target (p q : AgentPlan) : bool :=
  py_eq (VDict (target_dump (plan_target p))) (VDict (target_dump (plan_target q))).

Definition compare_plans (approved requested : AgentPlan) : result (list val) :=
  let '(higher, lower) :=
    if same_set (dkeys (plan_intensity approved)) (dkeys (plan_intensity requested))
    then intensity_deviations (plan_intensity approved) (plan_intensity requested)
    else (true, []) in
  demand (same_target approved requested &&
          bool_decide (plan_fault_type approved = plan_fault_type requested) && negb higher)
    "USER_DECISION_MISMATCH" "The fault request does not match the approved plan." ;;
  Ok (lower ++
      (if safety_ttl_seconds approved =? safety_ttl_seconds requested then []
       else [deviation "duration_seconds" (VInt (safety_ttl_seconds approved))
               (VInt (safety_ttl_seconds requested))])).

(** [approved_plan != requested_plan] of two models: every field. *)
Definition same_plan (p q : AgentPlan) : bool := py_eq (VDict (plan_dump p)) (VDict (plan_dump q)).

Definition approved_request (approved : mapping) (q : CreateRequest) : mapping :=
  _request_plan_from_approved approved (q_namespace q) (q_target_name q) (q_target_uid q)
    (q_fault_type q) (VInt (q_duration_seconds q)) (VDict (q_intensity q)).

Section service.
Context {W : Type} (errors : mapping → list SchemaError) (utc_now : nat → Z)
  (disk : nat → DiskOutcome).
(** [os.kill(pid, 0)]: [None] when the process is there, else the error. *)
Context (kill0 : Z → option exn).
Context (self : Service W).

#[local] Abbreviation cfg := (config self).
#[local] Abbreviation back := (backend self).
#[local] Abbreviation now_iso := (_now_iso utc_now).
#[local] Abbreviation write_ledger := (_write_ledger disk).
#[local] Abbreviation gate := (prog (Gateway W)).

(** ** Gates that read the configuration *)

Definition _validate_namespace (namespace : string) : result void :=
  _validate_resource_name namespace "namespace" ;;
  demand (bool_decide (namespace ∈ config_namespace_allowlist cfg)) "NAMESPACE_NOT_ALLOWED"
    "Namespace is outside the configured chaos control allowlist.".

(** [not a or b != a] of an optional setting [a] and a value [b]. *)
Definition is_configured (setting : option string) (value : string) : bool :=
  match setting with Some s => nonempty s && bool_decide (value = s) | None => false end.

Definition _resolve_cleanup_kubeconfig : result string :=
  match config_cleanup_kubeconfig cfg with
  | Some s => if nonempty s then Ok s
              else refuse "CLEANUP_KUBECONFIG_REQUIRED"
                     "Cleanup requires the server-internal finalizer kubeconfig."
  | None => refuse "CLEANUP_KUBECONFIG_REQUIRED"
              "Cleanup requires the server-internal finalizer kubeconfig."
  end.

Definition _resolve_kubeconfig (kubeconfig : option string) : result string :=
  match config_kubeconfig cfg with
  | Some s =>
      demand (nonempty s) "KUBECONFIG_REQUIRED" "This operation needs an explicit kubeconfig path." ;;
      demand (match kubeconfig with Some k => bool_decide (k = s) | None => true end)
        "EXPLICIT_KUBECONFIG_REQUIRED"
        "Operation requires the explicit primary kubeconfig path configured for this server." ;;
      Ok s
  | None => refuse "KUBECONFIG_REQUIRED" "This operation needs an explicit kubeconfig path."
  end.

(** [not kubeconfig or kubeconfig != self.config.kubeconfig] raises. *)
Definition explicit_kubeconfig (kubeconfig : string) : result void :=
  demand (nonempty kubeconfig && bool_decide (config_kubeconfig cfg = Some kubeconfig))
    "EXPLICIT_KUBECONFIG_REQUIRED" "The explicit kubeconfig path configured for this server is required.".

Definition _assert_fault_type_authorized (fault_type : string) : result void :=
  demand (empty (allowed_fault_types cfg) || bool_decide (fault_type ∈ allowed_fault_types cfg))
    "FAULT_TYPE_NOT_AUTHORIZED"
    "The requested fault type is outside this Trial's Controller-issued capability.".

Definition _assert_condition_safety_ttl (duration_seconds : Z) : result void :=
  demand (match condition_safety_ttl_seconds cfg with
          | Some expected => duration_seconds =? expected
          | None => true
          end) "CONDITION_SAFETY_TTL_MISMATCH"
    "duration_seconds is the condition-driven Trial safety TTL and does not match the Controller policy.".

Definition _assert_destroy_runtime_gates (kubeconfig cleanup_handle : string) : result void :=
  explicit_kubeconfig kubeconfig ;; _validate_handle cleanup_handle.

(** [_mapping_or_raw] of a document is the document. *)
Definition _assert_expected_fault_contract (q : CreateRequest) : result void :=
  match expected_fault cfg with
  | None => Ok tt
  | Some expected =>
      seconds ← py_int (py_or (vget expected "duration_seconds") (VInt 0));
      demand (bool_decide (str_or_empty (vget expected "fault_type") = q_fault_type q) &&
              (q_duration_seconds q =? seconds) &&
              py_eq (VDict (q_intensity q)) (py_or (vget expected "intensity") (VDict [])))
        "FAULT_CONTRACT_MISMATCH"
        "The requested fault does not exactly match this Trial's explicit main_fault contract."
  end.

Definition _assert_create_runtime_gates (q : CreateRequest) (allow_existing_cleanup_handle : bool)
    : gate void :=
  lift (demand (execute_enabled cfg) "EXECUTION_DISABLED" "Chaos creation is disabled by default.") ;;
  lift (explicit_kubeconfig (q_kubeconfig q)) ;;
  lift (_validate_namespace (q_namespace q)) ;;
  lift (demand (is_configured (config_controller_token_ref cfg) (q_controller_token_ref q))
    "CONTROLLER_TOKEN_REF_REQUIRED"
    "Create requires the configured controller token reference, not a raw token.") ;;
  lift (demand (SAFE_REF_RE (q_controller_token_ref q)) "INVALID_CONTROLLER_TOKEN_REF"
    "Controller token reference contains unsupported characters.") ;;
  lift (demand (is_configured (controller_pod_uid cfg) (q_expected_controller_pod_uid q))
    "CONTROLLER_POD_UID_MISMATCH"
    "The request does not match the controller Pod UID injected when this MCP process started.") ;;
  lift (demand (nonempty (q_baseline_gate_token q)) "BASELINE_GATE_REQUIRED"
    "Create requires a baseline gate token proving the healthy baseline completed.") ;;
  lift (_validate_handle (q_cleanup_handle q)) ;;
  d ← gets gw_ledger;
  lift (demand (bool_decide (in_folder d (q_cleanup_handle q) = None) || allow_existing_cleanup_handle)
    "CLEANUP_HANDLE_ALREADY_USED" "The cleanup handle already exists in this server ledger.").

(** [int(payload.get("pid"))], [pid > 1] and [os.kill(pid, 0)], under
    [except (OSError, TypeError, ValueError)]. *)
Definition process_alive (pid : val) : result bool :=
  match py_int pid with
  | Err e => if type_or_value_error e then Ok false else Err e
  | Ok pid =>
      if pid <=? 1 then Ok false
      else if 2147483647 <? pid
           then raise OverflowError "signed integer is greater than maximum"
           else Ok (match kill0 pid with Some _ => false | None => true end)
  end.

Definition opt_str (o : option string) : bool := match o with Some s => nonempty s | None => false end.

Definition _verify_controller_identity (kubeconfig : string) : gate void :=
  if controller_lease_file cfg then
    n ← gets gw_lease;
    payload ← lift (_read_private_json_file n "controller process lease" "CONTROLLER_LEASE_MISSING"
                      "The local Controller process lease is missing or unsafe.");
    alive ← lift (process_alive (vget payload "pid"));
    let identified := bool_decide (controller_pod_uid cfg = Some (str_or_empty (vget payload "controller_id"))) in
    let expires_at := _parse_datetime (vget payload "expires_at") in
    now ← _now_utc utc_now;
    lift (demand (identified && match expires_at with Some t => later t now | None => false end && alive)
      "CONTROLLER_LEASE_INVALID"
      "The local Controller process lease is expired or does not match the configured identity.")
  else match controller_pod_namespace cfg, controller_pod_name cfg with
  | Some ns, Some name =>
      if nonempty ns && nonempty name then
        live_uid ← on_backend (get_pod_uid back ns name kubeconfig);
        lift (demand (bool_decide (live_uid = controller_pod_uid cfg)) "CONTROLLER_LIVE_UID_MISMATCH"
          "The controller Pod UID injected at process start no longer matches the live controller Pod.")
      else mret tt
  | _, _ => mret tt
  end.

(** ** Gates that read the user's decision *)

Definition _approved_plan_if_any : gate (option mapping) :=
  n ← decision_node cfg;
  match n with
  | None => mret None
  | Some n =>
      decision ← lift (read_decision n);
      mret (if is_true (vget decision "approved") then as_map (vget decision "approved_plan") else None)
  end.

Definition _check_against_approved_plan (approved : mapping) (q : CreateRequest) : result (list val) :=
  approved_plan ← _assert_agent_plan_schema errors cfg approved "approved_plan";
  requested_plan ← _assert_agent_plan_schema errors cfg (approved_request approved q) "mutation request";
  compare_plans approved_plan requested_plan.

Definition _assert_not_report_only : gate void :=
  n ← decision_node cfg;
  match n with
  | None => mret tt
  | Some n =>
      match node_text n with
      | None => throw (OtherError "JSONDecodeError") "Expecting value"
      | Some decision =>
          report_only ← lift (attr_get decision "report_only");
          lift (demand (negb (is_true report_only)) "OUTPUT_REPAIR_MUTATION_FORBIDDEN"
            "This turn may only repair the report; no experiment mutation is allowed.")
      end
  end.

Definition check_user_decision (decision : mapping) (q : CreateRequest) : result void :=
  demand (is_true (vget decision "approved")) "USER_DECISION_DENIED"
    "The user did not approve the proposed mutation." ;;
  match vget decision "approved_plan" with
  | VDict approved =>
      approved_plan ← _assert_agent_plan_schema errors cfg approved "approved_plan";
      requested_plan ← _assert_agent_plan_schema errors cfg (approved_request approved q) "mutation request";
      demand (same_plan approved_plan requested_plan) "USER_DECISION_MISMATCH"
        "The mutation request does not match the plan approved by the user."
  | _ => refuse "USER_DECISION_INCOMPLETE"
           "The approved user decision does not contain a complete plan."
  end.

Definition _assert_user_decision (q : CreateRequest) : gate void :=
  _assert_not_report_only ;;
  lift (_assert_create_request_plan_schema errors cfg (executor_id self) q) ;;
  if bool_decide (decision_policy cfg = "agent_delegated") then mret tt
  else
    lift (demand (bool_decide (decision_policy cfg = "clarify_missing")) "INVALID_DECISION_POLICY"
      "The Trial decision policy is not recognized.") ;;
    n ← decision_node cfg;
    match n with
    | None => lift (refuse "USER_DECISION_REQUIRED"
        "Material target, intensity, and stop-budget choices require a user decision before mutation.")
    | Some n => decision ← lift (read_decision n); lift (check_user_decision decision q)
    end.

Definition _reference_plan_gate (q : CreateRequest) (enforce_user_decision : bool)
    : gate (list val) :=
  approved ← _approved_plan_if_any;
  match approved with
  | Some approved => lift (_check_against_approved_plan approved q)
  | None =>
      lift (_assert_expected_fault_contract q) ;;
      when enforce_user_decision (_assert_user_decision q) ;;
      mret []
  end.

(** ** Gates that read the ledgers *)

Definition opt_val (o : option string) : val := match o with Some s => VStr s | None => VNone end.

Definition baseline_payload (d : Folder) (token : string) : result mapping :=
  _assert_private_directory d "baseline ledger" ;;
  _read_private_json_file (in_folder d (hexdigest token)) "baseline ledger capability"
    "BASELINE_TOKEN_NOT_FOUND" "No baseline ledger capability matches the provided token.".

(** Who the capability was issued to, and the target it is bound to. *)
Definition baseline_matches (payload : mapping) (q : CreateRequest) : bool :=
  py_eq (vget payload "passed") (VBool true) && is_str (vget payload "run_id") (q_run_id q) &&
  is_str (vget payload "namespace") (q_namespace q) &&
  py_eq (vget payload "controller_pod_uid") (opt_val (controller_pod_uid cfg)).

Definition baseline_binding_ok (payload : mapping) (q : CreateRequest) : bool :=
  let mode := py_str (py_or (vget payload "target_binding_mode") (VStr "controller_explicit")) in
  let bound_name := vget payload "target_name" in
  let bound_uid := vget payload "target_uid" in
  (bool_decide (mode = "agent_selected") && negb (truthy bound_name) && negb (truthy bound_uid)) ||
  (is_str bound_name (q_target_name q) && is_str bound_uid (q_target_uid q)).

Definition _verify_baseline_gate (q : CreateRequest) : gate mapping :=
  lift (demand (nonempty (q_baseline_gate_token q)) "BASELINE_GATE_REQUIRED"
    "Create requires an opaque baseline gate capability token.") ;;
  lift (demand (baseline_ledger_dir cfg) "BASELINE_LEDGER_REQUIRED"
    "Execution is enabled but no controller-owned baseline ledger directory is configured.") ;;
  d ← gets gw_baseline;
  payload ← lift (baseline_payload d (q_baseline_gate_token q));
  lift (demand (baseline_matches payload q) "BASELINE_LEDGER_MISMATCH"
    "Baseline capability does not match the requested run, target, or controller identity.") ;;
  lift (demand (baseline_binding_ok payload q) "BASELINE_LEDGER_MISMATCH"
    "Baseline capability is already bound to a different target.") ;;
  now ← _now_utc utc_now;
  lift (demand (match _parse_datetime (vget payload "expires_at") with
                | Some t => later t now
                | None => false
                end) "BASELINE_TOKEN_EXPIRED"
    "Baseline capability is missing a valid future expires_at timestamp.") ;;
  mret payload.

Definition _bind_agent_selected_baseline_target (q : CreateRequest) (capability : mapping)
    : gate void :=
  if negb (bool_decide (str_or_empty (vget capability "target_binding_mode") = "agent_selected"))
     || truthy (vget capability "target_name") || truthy (vget capability "target_uid")
  then mret tt
  else
    version ← lift (py_int (py_or (vget capability "binding_version") (VInt 0)));
    at_ ← now_iso;
    let updated := dict_update capability
      [("target_name", VStr (q_target_name q)); ("target_uid", VStr (q_target_uid q));
       ("binding_version", VInt (version + 1)); ("bound_at", at_)] in
    write disk (λ s, set_baseline (put_file (hexdigest (q_baseline_gate_token q)) (json_file updated)
                                     (gw_baseline s)) s).

(** One entry of the ledger, for a scan that says [message] of a file that disappeared. *)
Definition scan_entry (d : Folder) (message handle : string) : result mapping :=
  _read_private_json_file (in_folder d handle) "cleanup ledger entry" "CLEANUP_LEDGER_UNREADABLE" message.

Definition token_unused_by (d : Folder) (token_hash cleanup_handle : string) (_ : void)
    (handle : string) : result void :=
  payload ← scan_entry d
    "A cleanup ledger entry disappeared while checking baseline token replay." handle;
  if is_str (vget payload "cleanup_handle") cleanup_handle then Ok tt
  else demand (negb (is_str (vget payload "baseline_gate_token_sha256") token_hash))
         "BASELINE_TOKEN_REPLAYED"
         "Baseline capability token was already consumed by a prior create attempt.".

Definition _assert_baseline_token_unused (token_hash cleanup_handle : string) : gate void :=
  d ← gets gw_ledger;
  match present d with
  | None => mret tt
  | Some _ =>
      lift (_assert_private_directory d "cleanup ledger") ;;
      lift (foldM (token_unused_by d token_hash cleanup_handle) tt (handles d))
  end.

Definition ACTIVE_STATES : list string :=
  ["active"; "pending"; "pending_apply"; "operation_outcome_unknown"; "cleanup_error"].

Definition no_conflict_with (d : Folder) (run_id : string) (_ : void) (handle : string) : result void :=
  payload ← scan_entry d
    "A cleanup ledger entry disappeared while checking executor ownership." handle;
  if negb (bool_decide (py_str (vget payload "run_id") = run_id)) then Ok tt
  else
    owner ← _ledger_executor_id payload;
    if bool_decide (owner = executor_id self) then Ok tt
    else demand (negb (bool_decide (py_str (vget payload "state") ∈ ACTIVE_STATES)))
           "EXECUTOR_CONFLICT"
           "Another controlled executor already owns an active fault for this Trial.".

Definition _assert_no_other_executor_active (run_id : string) : gate void :=
  paths ← _iter_cleanup_ledger_paths;
  d ← gets gw_ledger;
  lift (foldM (no_conflict_with d run_id) tt paths).

(** ** Mutations *)

(** [_append_mutation]; [list(ledger.get("mutations") or \[\])]. *)
Definition mutation (principal operation : string) (at_ : val) : val :=
  VDict [("principal", VStr principal); ("executor_id", VStr (executor_id self));
         ("operation", VStr operation); ("at", at_)].

Definition _append_mutation (ledger : mapping) (principal operation : string) : gate mapping :=
  mutations ← lift (py_list (py_or (vget ledger "mutations") (VList [])));
  at_ ← now_iso;
  let updated := dset "mutations" (VList (mutations ++ [mutation principal operation at_])) ledger in
  mret (if bool_decide (operation = "DESTROY") && negb (truthy (vget updated "cleanup_principal"))
        then dset "cleanup_principal" (VStr principal) updated else updated).

(** The executor's calls, as the ghost trace remembers them. *)
Definition do_fence (namespace name uid kubeconfig : string) : gate void :=
  modify (record (MFence namespace name uid)) ;;
  on_backend (prepare_target_fence back namespace name uid kubeconfig).
Definition do_unfence (namespace name uid kubeconfig : string) : gate void :=
  modify (record (MUnfence namespace name uid)) ;;
  on_backend (clear_target_fence back namespace name uid kubeconfig).
Definition do_create (handle : string) (manifest : mapping) (kubeconfig : string)
    : gate ExperimentRecord :=
  modify (λ s, record (MCreate (executor_id self) handle manifest (in_folder (gw_ledger s) handle)) s) ;;
  on_backend (backend_create back manifest kubeconfig).
Definition do_delete (namespace name kubeconfig : string) : gate void :=
  modify (record (MDelete (executor_id self) namespace name)) ;;
  on_backend (delete_experiment back namespace name kubeconfig).

Definition live_record (namespace name kubeconfig : string) : gate (option ExperimentRecord) :=
  on_backend (backend_get back namespace name kubeconfig).

(** [str(ledger\[k\])]; the same where the code passes [ledger\[k\]] itself, a string in
    every entry the gateway writes. *)
Definition ledger_str (ledger : mapping) (k : string) : result string :=
  v ← vitem ledger k; Ok (py_str v).

Definition clear_ledger_fence (ledger : mapping) (kubeconfig : string) : gate void :=
  namespace ← lift (ledger_str ledger "namespace");
  name ← lift (ledger_str ledger "target_name");
  uid ← lift (ledger_str ledger "target_uid");
  do_unfence namespace name uid kubeconfig.

Definition _clear_target_fence_if_no_resource (ledger : mapping) (kubeconfig : string) : gate void :=
  namespace ← lift (ledger_str ledger "namespace");
  name ← lift (ledger_str ledger "experiment_name");
  r ← live_record namespace name kubeconfig;
  match r with None => clear_ledger_fence ledger kubeconfig | Some _ => mret tt end.

Definition _delete_and_verify_from_ledger (ledger : mapping) (kubeconfig : string) : gate void :=
  owner ← lift (_ledger_executor_id ledger);
  lift (demand (bool_decide (owner = executor_id self)) "EXECUTOR_MISMATCH"
    "This cleanup handle belongs to a different controlled executor.") ;;
  namespace ← lift (ledger_str ledger "namespace");
  name ← lift (ledger_str ledger "experiment_name");
  existing ← live_record namespace name kubeconfig;
  lift (match existing with
        | None => Ok tt
        | Some r => ours ← _record_matches_ledger r ledger;
                    demand ours "LEDGER_TARGET_MISMATCH"
                      "The live ChaosBlade resource no longer matches this server ledger handle."
        end) ;;
  do_delete namespace name kubeconfig ;;
  after ← live_record namespace name kubeconfig;
  lift (demand (match after with None => true | Some _ => false end) "DESTROY_VERIFY_ABSENCE_FAILED"
    "ChaosBlade delete was issued but the resource is still present.") ;;
  clear_ledger_fence ledger kubeconfig.

(** ** Observing the fault *)

Definition ledger_handle (ledger : mapping) : result string :=
  v ← vitem ledger "cleanup_handle";
  match v with VStr s => Ok s | _ => raise TypeError "expected string or bytes-like object" end.

(** The first sight of a running fault, and the first sight of its absence. *)
Definition fault_window_changes (ledger : mapping) (r : option ExperimentRecord) : gate mapping :=
  match r with
  | Some r =>
      ours ← lift (_record_matches_ledger r ledger);
      if ours && running r && negb (truthy (vget ledger "started_at"))
      then at_ ← now_iso; mret [("started_at", at_); ("ever_active", VBool true)]
      else mret []
  | None =>
      if truthy (vget ledger "ever_active") && negb (truthy (vget ledger "ended_at"))
      then at_ ← now_iso; mret [("ended_at", at_)]
      else mret []
  end.

(** [if not latest.get(key): latest\[key\] = value] *)
Definition fill_missing (latest : mapping) (kv : string * val) : mapping :=
  if truthy (vget latest kv.1) then latest else dset kv.1 kv.2 latest.

Definition _observe_fault_window (ledger : mapping) (r : option ExperimentRecord) : gate mapping :=
  changes ← fault_window_changes ledger r;
  match changes with
  | [] => mret ledger
  | _ =>
      handle ← lift (ledger_handle ledger);
      latest ← _read_ledger handle;
      let latest := foldl fill_missing latest changes in
      write_ledger handle latest ;;
      mret latest
  end.

(** ** Creation *)

(** [create_experiment] of the executor under [except BaseException]: the failure is
    recorded, the fence goes when nothing was created, and the exception goes on. *)
Definition create_or_fail (handle : string) (failed manifest : mapping)
    (kubeconfig cleanup_kubeconfig : string) : gate ExperimentRecord :=
  catch (do_create handle manifest kubeconfig) (λ e,
    at_ ← now_iso;
    let failed_ledger := dict_update failed [("updated_at", at_)] in
    write_ledger handle failed_ledger ;;
    _clear_target_fence_if_no_resource failed_ledger cleanup_kubeconfig ;;
    lift (Err e)).

(** The entry of a created experiment. *)
Definition applied_ledger (ledger : mapping) (r : ExperimentRecord) (handle : string) : gate mapping :=
  started_at ← (if running r then now_iso else mret VNone);
  updated_at ← now_iso;
  mret (dict_update ledger
    [("state", VStr "active"); ("ever_active", VBool (running r)); ("started_at", started_at);
     ("updated_at", updated_at); ("experiment_name", VStr (rec_name r));
     ("operation_id", VStr handle); ("operation_outcome", VStr "applied")]).

Definition injected (variant : string) : mapping :=
  [("uncertainty_injected", VBool true); ("uncertainty_variant", VStr variant)].

Definition ground_truth (handle outcome variant : string) (rest : mapping) : val :=
  VDict ([("operation_id", VStr handle); ("operation_outcome", VStr outcome);
          ("variant", VStr variant)] ++ rest).

Definition absent_outcome (variant handle : string) (ledger : mapping) (cleanup_kubeconfig : string)
    : gate mapping :=
  at_ ← now_iso;
  let updated := dict_update ledger
    ([("state", VStr "operation_outcome_unknown"); ("operation_id", VStr handle);
      ("operation_outcome", VStr "absent")] ++ injected variant ++
     [("ground_truth", ground_truth handle "absent" variant [("created", VBool false)]);
      ("updated_at", at_)]) in
  clear_ledger_fence ledger cleanup_kubeconfig ;;
  updated ← _append_mutation (dset "target_fence_cleared" (VBool true) updated)
              "CONTROLLER_FINALIZER" "FENCE_CLEAR";
  write_ledger handle updated ;;
  lift (Err unknown_outcome).

Definition hidden_creation (variant handle : string) (ledger manifest : mapping)
    (kubeconfig cleanup_kubeconfig : string) : gate mapping :=
  at_ ← now_iso;
  write_ledger handle (dict_update ledger
    ([("state", VStr "pending_apply"); ("operation_id", VStr handle);
      ("operation_outcome", VStr "unknown")] ++ injected variant ++ [("updated_at", at_)])) ;;
  r ← create_or_fail handle (dict_update ledger
        ([("state", VStr "create_failed"); ("operation_id", VStr handle);
          ("operation_outcome", VStr "unknown")] ++ injected variant)) manifest kubeconfig
        cleanup_kubeconfig;
  applied ← applied_ledger ledger r handle;
  write_ledger handle (dict_update applied
    (injected variant ++
     [("ground_truth", ground_truth handle "applied" variant
         [("created", VBool true); ("experiment_name", VStr (rec_name r))])])) ;;
  lift (Err unknown_outcome).

Definition _create_experiment_with_unknown_outcome (variant handle : string)
    (ledger manifest : mapping) (kubeconfig cleanup_kubeconfig : string) : gate mapping :=
  if bool_decide (variant = "D6-A") then absent_outcome variant handle ledger cleanup_kubeconfig
  else if bool_decide (variant = "D6-B")
  then hidden_creation variant handle ledger manifest kubeconfig cleanup_kubeconfig
  else lift (refuse "INVALID_OPERATION_UNCERTAINTY_VARIANT"
               "Create outcome uncertainty variant must be D6-A or D6-B.").

(** The gates before the live target is read. *)
Definition request_gates (q : CreateRequest) (retry : bool)
    : gate (string * list val * mapping) :=
  _assert_create_runtime_gates q retry ;;
  cleanup_kubeconfig ← lift _resolve_cleanup_kubeconfig;
  _verify_controller_identity (q_kubeconfig q) ;;
  lift (_assert_fault_type_authorized (q_fault_type q)) ;;
  lift (_assert_condition_safety_ttl (q_duration_seconds q)) ;;
  lift (_assert_create_request_plan_schema errors cfg (executor_id self) q) ;;
  plan_deviations ← _reference_plan_gate q true;
  baseline_capability ← _verify_baseline_gate q;
  _assert_baseline_token_unused (hexdigest (q_baseline_gate_token q)) (q_cleanup_handle q) ;;
  mret (cleanup_kubeconfig, plan_deviations, baseline_capability).

Definition verify_target (q : CreateRequest) : gate void :=
  current_uid ← on_backend (get_pod_uid back (q_namespace q) (q_target_name q) (q_kubeconfig q));
  match current_uid with
  | None => lift (refuse "TARGET_POD_NOT_FOUND"
                    "The target Pod was not found during server-side identity verification.")
  | Some u => lift (demand (bool_decide (u = q_target_uid q)) "TARGET_UID_MISMATCH"
                      "The target Pod UID no longer matches the request.")
  end.

Definition is_active (r : ExperimentRecord) : bool := negb (terminal r) && owned r.
Definition is_unsafe (r : ExperimentRecord) : bool := negb (terminal r) && negb (owned r).
Definition count (p : ExperimentRecord → bool) (l : list ExperimentRecord) : Z :=
  Z.of_nat (length (List.filter p l)).

Definition active_in (namespace : string) (l : list ExperimentRecord) : Z :=
  count (λ r, bool_decide (rec_namespace r = namespace) && is_active r) l.

(** The safety policy's judgement, with what the executor lists. *)
Definition safety_gate (q : CreateRequest) : gate Z :=
  all_records ← on_backend (list_experiments back (q_kubeconfig q));
  let active_owned_count := active_in (q_namespace q) all_records in
  lift (demand (empty (List.filter is_unsafe all_records)) "UNSAFE_UNOWNED_CHAOSBLADE_PRESENT"
    "A non-terminal ChaosBlade resource not owned by this server already exists in the cluster.") ;;
  r ← lift (validate_action (request_action q) (default_policy (config_namespace_allowlist cfg))
              active_owned_count);
  lift (demand (ok r) "PLAN_REJECTED_BY_SAFETY_POLICY"
    "The requested ChaosBlade action violates the controller safety policy.") ;;
  mret active_owned_count.

(** The entry a creation starts from; a deadline past the year 9999, which raises, is not
    modelled. *)
Definition new_ledger (q : CreateRequest) (name : string) : gate mapping :=
  created_at ← _now_utc utc_now;
  let deadline_at := DateTime (dt_wall created_at + q_duration_seconds q * 1000000) (Some 0) in
  at_ ← now_iso;
  mret (_create_ledger_payload created_at deadline_at name q (hexdigest (q_baseline_gate_token q)) ++
        [("executor_id", VStr (executor_id self));
         ("mutations", VList [mutation "AGENT_MCP" "CREATE" at_])]).

Definition created_answer (q : CreateRequest) (r : ExperimentRecord) (plan_deviations : list val)
    (active_owned_count : Z) : mapping :=
  [("ok", VBool true); ("created", VDict (_record_payload r))] ++
  (if empty plan_deviations then [] else [("plan_deviations", VList plan_deviations)]) ++
  [("operation_id", VStr (q_cleanup_handle q)); ("cleanup_handle", VStr (q_cleanup_handle q));
   ("safety", VDict [("active_owned_count_before_create", VInt active_owned_count);
                     ("unowned_active_count", VInt 0); ("target_uid_verified", VBool true)])].

Definition apply_creation (q : CreateRequest) (ledger manifest : mapping) (cleanup_kubeconfig : string)
    : gate ExperimentRecord :=
  let handle := q_cleanup_handle q in
  write_ledger handle (dict_update ledger [("operation_outcome", VStr "unknown")]) ;;
  r ← create_or_fail handle
        (dict_update ledger [("state", VStr "create_failed"); ("operation_outcome", VStr "unknown")])
        manifest (q_kubeconfig q) cleanup_kubeconfig;
  ledger ← applied_ledger ledger r handle;
  write_ledger handle ledger ;;
  mret r.

Definition _create_experiment_locked (q : CreateRequest) : gate mapping :=
  existing_ledger ← _read_ledger_for_create (q_cleanup_handle q);
  '(cleanup_kubeconfig, plan_deviations, capability) ←
    request_gates q (_is_retriable_absent_uncertainty existing_ledger);
  verify_target q ;;
  _bind_agent_selected_baseline_target q capability ;;
  _assert_no_other_executor_active (q_run_id q) ;;
  active_owned_count ← safety_gate q;
  let name := _experiment_name (q_run_id q) (q_fault_type q) in
  do_fence (q_namespace q) (q_target_name q) (q_target_uid q) (q_kubeconfig q) ;;
  manifest ← lift (render_manifest back name (request_action q));
  ledger ← new_ledger q name;
  variant ← lift (_create_uncertainty_variant (create_uncertainty_variant cfg));
  match variant, _uncertainty_already_injected existing_ledger with
  | Some variant, false =>
      _create_experiment_with_unknown_outcome variant (q_cleanup_handle q) ledger manifest
        (q_kubeconfig q) cleanup_kubeconfig
  | _, _ =>
      r ← apply_creation q ledger manifest cleanup_kubeconfig;
      mret (created_answer q r plan_deviations active_owned_count)
  end.

Definition create_experiment (q : CreateRequest) : gate mapping :=
  with_ledger_lock disk (_create_experiment_locked q).

(** ** Status, destruction, the sweep *)

Definition _assert_operation_identity (operation_id : option string) (cleanup_handle : string)
    : result void :=
  _validate_handle cleanup_handle ;;
  demand (match operation_id with Some o => bool_decide (o = cleanup_handle) | None => true end)
    "OPERATION_ID_MISMATCH" "operation_id must match the Trial-scoped cleanup handle." ;;
  demand (match config_cleanup_handle cfg with
          | Some h => negb (nonempty h) || bool_decide (cleanup_handle = h)
          | None => true
          end) "BOUND_RUNTIME_MISMATCH"
    "cleanup_handle does not match the Controller-bound Trial value.".

(** [dict(v or {})] of a document. *)
Definition or_empty_dict (v : val) : result val :=
  match py_or v (VDict []) with
  | VDict d => Ok (VDict d)
  | v => raise TypeError ("'" +:+ type_name v +:+ "' object is not iterable")
  end.

(** [str(ledger.get(k, default))] *)
Definition get_str (ledger : mapping) (k default : string) : val :=
  VStr (py_str (vget_or ledger k (VStr default))).

Definition matches_opt (r : option ExperimentRecord) (ledger : mapping) : result bool :=
  match r with Some r => _record_matches_ledger r ledger | None => Ok false end.

Definition status_outcome (r : option ExperimentRecord) (matched : bool) : string :=
  match r with None => "absent" | Some _ => if matched then "applied" else "unknown" end.

Definition absent_entry_answer (handle : string) : mapping :=
  [("ok", VBool true); ("read_only", VBool true); ("operation_id", VStr handle);
   ("cleanup_handle", VStr handle); ("operation_outcome", VStr "unknown");
   ("state", VStr "unknown"); ("reason", VStr "cleanup ledger is absent")].

Definition known_entry_status (cleanup_handle kubeconfig : string) (include_ground_truth : bool)
    (ledger : mapping) : gate mapping :=
  namespace ← lift (ledger_str ledger "namespace");
  name ← lift (ledger_str ledger "experiment_name");
  r ← live_record namespace name kubeconfig;
  ledger ← _observe_fault_window ledger r;
  matched ← lift (matches_opt r ledger);
  intensity ← lift (or_empty_dict (vget ledger "intensity"));
  truth ← lift (if include_ground_truth then or_empty_dict (vget ledger "ground_truth") else Ok VNone);
  mret ([("ok", VBool true); ("read_only", VBool true);
         ("operation_id", VStr (py_str (py_or (vget ledger "operation_id") (VStr cleanup_handle))));
         ("cleanup_handle", VStr cleanup_handle); ("run_id", get_str ledger "run_id" "");
         ("namespace", get_str ledger "namespace" "");
         ("experiment_name", get_str ledger "experiment_name" "");
         ("target_uid", get_str ledger "target_uid" ""); ("target_name", get_str ledger "target_name" "");
         ("fault_type", get_str ledger "fault_type" "");
         ("duration_seconds", vget ledger "duration_seconds"); ("intensity", intensity);
         ("state", get_str ledger "state" "unknown");
         ("operation_outcome", VStr (status_outcome r matched));
         ("ledger_operation_outcome", get_str ledger "operation_outcome" "unknown");
         ("started_at", vget ledger "started_at"); ("ended_at", vget ledger "ended_at");
         ("live", VDict [("found", VBool (match r with Some _ => true | None => false end));
                         ("matches_ledger", VBool matched);
                         ("phase", match r with Some r => VStr (rec_phase r) | None => VNone end)])] ++
        (if include_ground_truth then [("ground_truth", truth)] else [])).

Definition operation_status (operation_id : option string) (cleanup_handle : string)
    (kubeconfig : option string) (include_ground_truth : bool) : gate mapping :=
  with_ledger_lock disk (
    kubeconfig ← lift (_resolve_kubeconfig kubeconfig);
    lift (_assert_operation_identity operation_id cleanup_handle) ;;
    ledger ← catch (l ← _read_ledger cleanup_handle; mret (Some l))
               (λ e, if bool_decide (_error_code e = "UNKNOWN_CLEANUP_HANDLE") then mret None
                     else lift (Err e));
    match ledger with
    | None => mret (absent_entry_answer cleanup_handle)
    | Some ledger => known_entry_status cleanup_handle kubeconfig include_ground_truth ledger
    end).

Inductive Principal := AGENT_MCP | CONTROLLER_FALLBACK.
Definition principal_value (p : Principal) : string :=
  match p with AGENT_MCP => "AGENT_MCP" | CONTROLLER_FALLBACK => "CONTROLLER_FALLBACK" end.

(** [{**ledger, "state": state, "ended_at": ledger.get("ended_at") or now, ...}] *)
Definition ended_ledger (ledger : mapping) (state : string) : gate mapping :=
  ended_at ← (if truthy (vget ledger "ended_at") then mret (vget ledger "ended_at") else now_iso);
  updated_at ← now_iso;
  mret (dict_update ledger
    [("state", VStr state); ("ended_at", ended_at); ("cleanup_error", VNone); ("updated_at", updated_at)]).

Definition _destroy_experiment_locked (cleanup_handle kubeconfig : string) (principal : Principal)
    : gate mapping :=
  match principal with AGENT_MCP => _assert_not_report_only | CONTROLLER_FALLBACK => mret tt end ;;
  lift (_assert_destroy_runtime_gates kubeconfig cleanup_handle) ;;
  cleanup_kubeconfig ← lift _resolve_cleanup_kubeconfig;
  ledger ← _read_ledger cleanup_handle;
  namespace ← lift (ledger_str ledger "namespace");
  name ← lift (ledger_str ledger "experiment_name");
  r ← live_record namespace name kubeconfig;
  ledger ← _observe_fault_window ledger r;
  _delete_and_verify_from_ledger ledger cleanup_kubeconfig ;;
  ended ← ended_ledger ledger "destroyed";
  updated ← _append_mutation ended (principal_value principal) "DESTROY";
  write_ledger cleanup_handle updated ;;
  mret [("ok", VBool true); ("destroyed", VStr name); ("namespace", VStr namespace);
        ("verified_absent", VBool true); ("idempotent", VBool true)].

Definition destroy_experiment (cleanup_handle kubeconfig : string) (principal : Principal)
    : gate mapping :=
  with_ledger_lock disk (_destroy_experiment_locked cleanup_handle kubeconfig principal).

(** [except Exception]: a cancellation is not caught. *)
Definition is_exception (e : exn) : bool := negb (bool_decide (_error_code e = "CancelledError")).

Definition attempt {A} (m : gate A) : gate (result A) := λ s,
  match m s with
  | (s', Ok a) => (s', Ok (Ok a))
  | (s', Err e) => if is_exception e then (s', Ok (Err e)) else (s', Err e)
  end.

(** [inspected], [cleaned] and [errors]. *)
Record Sweep := {
  inspected : Z;
  cleaned : list string;
  sweep_errors : list (string * string) }.

Definition inspect (acc : Sweep) : Sweep := {|
  inspected := inspected acc + 1; cleaned := cleaned acc; sweep_errors := sweep_errors acc |}.

(** The [except] clause: the error is reported, and recorded in the entry when it can be. *)
Definition sweep_failed (handle : string) (payload : option mapping) (acc : Sweep) (e : exn)
    : gate Sweep :=
  attempt (match payload with
           | Some payload =>
               if truthy (vget payload "cleanup_handle") then
                 at_ ← now_iso;
                 write_ledger (py_str (vget payload "cleanup_handle"))
                   (dict_update payload [("state", VStr "cleanup_error");
                      ("cleanup_error", VStr (_error_code e)); ("updated_at", at_)])
               else mret tt
           | None => mret tt
           end) ;;
  mret {| inspected := inspected acc; cleaned := cleaned acc;
          sweep_errors := sweep_errors acc ++ [(handle, _error_code e)] |}.

Definition SWEPT_STATES : list string :=
  ["active"; "pending"; "pending_apply"; "create_failed"; "cleanup_error"].

(** Whether the entry is this executor's and may still be active: then its live state is
    observed. *)
Definition sweep_observe (cleanup_kubeconfig : string) (payload : mapping) : gate (option mapping) :=
  owner ← lift (_ledger_executor_id payload);
  if negb (bool_decide (owner = executor_id self)) then mret None
  else if negb (bool_decide (py_str (vget_or payload "state" (VStr "")) ∈ SWEPT_STATES)) then mret None
  else
    namespace ← lift (ledger_str payload "namespace");
    name ← lift (ledger_str payload "experiment_name");
    r ← live_record namespace name cleanup_kubeconfig;
    payload ← _observe_fault_window payload r;
    mret (Some payload).

Definition expired (current_time : datetime) (payload : mapping) : bool :=
  match _parse_datetime (vget payload "deadline_at") with
  | Some deadline_at => negb (later deadline_at current_time)
  | None => false
  end.

Definition sweep_clean (cleanup_kubeconfig : string) (payload : mapping) : gate string :=
  _delete_and_verify_from_ledger payload cleanup_kubeconfig ;;
  ended ← ended_ledger payload "expired_cleaned";
  updated ← _append_mutation ended "TIMER" "DESTROY";
  handle ← lift (ledger_str payload "cleanup_handle");
  write_ledger handle updated ;;
  mret handle.

(** One turn of the loop over the ledger's files. *)
Definition sweep_one (current_time : datetime) (cleanup_kubeconfig : string) (acc : Sweep)
    (handle : string) : gate Sweep :=
  read ← attempt (read_entry handle "CLEANUP_LEDGER_UNREADABLE"
                    "A cleanup ledger entry disappeared while scanning expired leases.");
  match read with
  | Err e => sweep_failed handle None acc e
  | Ok payload =>
      observed ← attempt (sweep_observe cleanup_kubeconfig payload);
      match observed with
      | Err e => sweep_failed handle (Some payload) acc e
      | Ok None => mret acc
      | Ok (Some payload) =>
          if negb (expired current_time payload) then mret acc
          else
            clean ← attempt (sweep_clean cleanup_kubeconfig payload);
            match clean with
            | Err e => sweep_failed handle (Some payload) (inspect acc) e
            | Ok handle =>
                mret {| inspected := inspected acc + 1; cleaned := cleaned acc ++ [handle];
                        sweep_errors := sweep_errors acc |}
            end
      end
  end.

Definition _cleanup_expired_leases_locked (now : option datetime) : gate Sweep :=
  current_time ← (match now with Some t => mret (as_utc t) | None => _now_utc utc_now end);
  cleanup_kubeconfig ← lift _resolve_cleanup_kubeconfig;
  paths ← _iter_cleanup_ledger_paths;
  for_each (sweep_one current_time cleanup_kubeconfig)
    {| inspected := 0; cleaned := []; sweep_errors := [] |} paths.

Definition sweep_answer (acc : Sweep) : mapping :=
  [("ok", VBool (empty (sweep_errors acc))); ("inspected", VInt (inspected acc));
   ("cleaned", VList (map VStr (cleaned acc)));
   ("errors", VList (map (λ e, VDict [("cleanup_handle", VStr e.1); ("code", VStr e.2)])
                       (sweep_errors acc)))].

Definition cleanup_expired_leases (now : option datetime) : gate mapping :=
  with_ledger_lock disk (acc ← _cleanup_expired_leases_locked now; mret (sweep_answer acc)).

Definition recovery_body (cleanup_handle kubeconfig : string) : gate mapping :=
  ledger ← _read_ledger cleanup_handle;
  namespace ← lift (ledger_str ledger "namespace");
  name ← lift (ledger_str ledger "experiment_name");
  r ← live_record namespace name kubeconfig;
  ledger ← _observe_fault_window ledger r;
  namespace ← lift (vitem ledger "namespace");
  name ← lift (vitem ledger "experiment_name");
  seconds ← lift (py_int (py_or (vget ledger "duration_seconds") (VInt 0)));
  intensity ← lift (or_empty_dict (vget ledger "intensity"));
  mret [("ok", VBool true); ("read_only", VBool true); ("cleanup_handle", VStr cleanup_handle);
        ("namespace", namespace); ("experiment_name", name);
        ("resource_absent", VBool (match r with Some _ => false | None => true end));
        ("terminal", VBool (match r with Some r => terminal r | None => true end));
        ("phase", VStr (match r with Some r => rec_phase r | None => "Absent" end));
        ("ledger_state", get_str ledger "state" "unknown"); ("run_id", get_str ledger "run_id" "");
        ("target_name", get_str ledger "target_name" ""); ("target_uid", get_str ledger "target_uid" "");
        ("fault_type", get_str ledger "fault_type" ""); ("duration_seconds", VInt seconds);
        ("intensity", intensity); ("created_at", vget ledger "created_at");
        ("deadline_at", vget ledger "deadline_at"); ("started_at", vget ledger "started_at");
        ("ended_at", vget ledger "ended_at"); ("ever_active", VBool (truthy (vget ledger "ever_active")))].

Definition recovery_status (cleanup_handle : string) (kubeconfig : option string) : gate mapping :=
  with_ledger_lock disk
    (kubeconfig ← lift (_resolve_kubeconfig kubeconfig); recovery_body cleanup_handle kubeconfig).

(** ** Read-only tools *)

Definition validate_plan (q : CreateRequest) : gate mapping :=
  lift (_assert_fault_type_authorized (q_fault_type q)) ;;
  lift (_assert_condition_safety_ttl (q_duration_seconds q)) ;;
  plan_deviations ← _reference_plan_gate q false;
  let policy := default_policy (config_namespace_allowlist cfg) in
  r ← lift (validate_action (request_action q) policy 0);
  mret ([("ok", VBool (ok r)); ("read_only", VBool true)] ++
        (if empty plan_deviations then [] else [("plan_deviations", VList plan_deviations)]) ++
        [("findings", VList (map (λ f, _finding_payload (code f) (message f)) (findings r)));
         ("policy", VDict (_policy_payload policy))]).

Definition inventory_run (namespace : string) (kubeconfig : option string) : gate mapping :=
  kubeconfig ← lift (_resolve_kubeconfig kubeconfig);
  lift (_validate_namespace namespace) ;;
  all_records ← on_backend (list_experiments back kubeconfig);
  let records := List.filter (λ r, bool_decide (rec_namespace r = namespace)) all_records in
  mret [("ok", VBool true); ("read_only", VBool true); ("namespace", VStr namespace);
        ("cluster_scoped", VBool true);
        ("experiments", VList (map (λ r, VDict (_record_payload r))
           (sort_by (λ a b, str_leb (rec_name a) (rec_name b)) records)));
        ("global_chaosblade_count", VInt (Z.of_nat (length all_records)));
        ("global_unsafe_unowned_count", VInt (count is_unsafe all_records));
        ("nonterminal_unowned_count", VInt (count is_unsafe records));
        ("active_owned_count", VInt (count is_active all_records))].

Definition get_experiment (namespace name : string) (kubeconfig : option string) : gate mapping :=
  kubeconfig ← lift (_resolve_kubeconfig kubeconfig);
  lift (_validate_namespace namespace) ;;
  lift (_validate_resource_name name "name") ;;
  r ← live_record namespace name kubeconfig;
  mret [("ok", VBool true); ("read_only", VBool true);
        ("found", VBool (match r with Some _ => true | None => false end));
        ("experiment", match r with Some r => VDict (_record_payload r) | None => VNone end)].

End service.
