(* ===== verification/ChaosEntries.v ===== *)
(** * Entries of the cleanup ledger, and what a gateway program may change

    The view of a ledger document that matters to its safety, the invariant of the ledger
    and of the trace of mutations, the two ways a document may be written, and [quiet]
    programs, which write neither. *)

From S2P Require Import Prelude PyFloat PyVal PyTime PyIso Safety ConditionPolicy PlanSchema.
From S2P Require Import Sha256 Hoare ChaosGates ChaosLedger ChaosService.

#[local] Open Scope Z_scope.

(** ** Entries *)

Record Entry := {
  e_handle : string;
  e_executor : string;
  e_run : string;
  e_token : string;
  e_state : string;
  e_namespace : string;
  e_name : string;
  e_target : string;
  e_uid : string;
  e_deadline : string;
  e_retriable : bool }.

Definition view (p : mapping) : option Entry :=
  h ← as_str (vget p "cleanup_handle"); x ← as_str (vget p "executor_id");
  r ← as_str (vget p "run_id"); t ← as_str (vget p "baseline_gate_token_sha256");
  st ← as_str (vget p "state"); ns ← as_str (vget p "namespace");
  n ← as_str (vget p "experiment_name"); tn ← as_str (vget p "target_name");
  u ← as_str (vget p "target_uid"); d ← as_str (vget p "deadline_at");
  Some {| e_handle := h; e_executor := x; e_run := r; e_token := t; e_state := st;
          e_namespace := ns; e_name := n; e_target := tn; e_uid := u; e_deadline := d;
          e_retriable := _is_retriable_absent_uncertainty (Some p) |}.

Definition file_entry (n : node) : option Entry :=
  match n with File 384 (Some (VDict p)) => view p | _ => None end.

Record viewed (p : mapping) (e : Entry) : Prop := {
  vw_handle : vget p "cleanup_handle" = VStr (e_handle e);
  vw_executor : vget p "executor_id" = VStr (e_executor e);
  vw_run : vget p "run_id" = VStr (e_run e);
  vw_token : vget p "baseline_gate_token_sha256" = VStr (e_token e);
  vw_state : vget p "state" = VStr (e_state e);
  vw_namespace : vget p "namespace" = VStr (e_namespace e);
  vw_name : vget p "experiment_name" = VStr (e_name e);
  vw_target : vget p "target_name" = VStr (e_target e);
  vw_uid : vget p "target_uid" = VStr (e_uid e);
  vw_deadline : vget p "deadline_at" = VStr (e_deadline e);
  vw_retriable : _is_retriable_absent_uncertainty (Some p) = e_retriable e }.

Lemma as_str_Some v s : as_str v = Some s → v = VStr s.
Proof. destruct v; try done. by intros [= ->]. Qed.

Lemma view_Some p e : view p = Some e ↔ viewed p e.
Proof.
  unfold view. split.
  - intros H. do 10 (apply bind_Some in H as (? & ?%as_str_Some & H)). injection H as <-. done.
  - intros []. repeat match goal with H : vget p _ = VStr _ |- _ => rewrite H; clear H end.
    cbn [as_str mbind option_bind]. f_equal. destruct e. cbn in *. by f_equal.
Qed.

(** ** Sorting the keys changes no entry *)

Lemma vget_sort m k : vget (sort_mapping m) k = sort_doc (vget m k).
Proof. unfold vget. rewrite dget_sort_mapping. by destruct (dget k m). Qed.

Lemma is_true_sort v : is_true (sort_doc v) = is_true v.
Proof. by destruct v. Qed.
Lemma is_str_sort v s : is_str (sort_doc v) s = is_str v s.
Proof. by destruct v. Qed.

Lemma viewed_sort p e : viewed p e → viewed (sort_mapping p) e.
Proof.
  intros []. split; try (rewrite vget_sort; repeat match goal with H : vget p _ = _ |- _ => rewrite H; clear H end; done).
  unfold _is_retriable_absent_uncertainty in *. by rewrite !vget_sort, is_true_sort, !is_str_sort.
Qed.

Lemma file_entry_json p e : viewed p e → file_entry (json_file p) = Some e.
Proof. intros H. by apply view_Some, viewed_sort. Qed.

Lemma file_entry_Some n e : file_entry n = Some e → ∃ p, n = File 384 (Some (VDict p)) ∧ viewed p e.
Proof.
  unfold file_entry. intros H. repeat case_match; try done. exists d. split; [done|]. by apply view_Some.
Qed.

Lemma read_private n label code message e : file_entry n = Some e →
  ∃ p, _read_private_json_file (Some n) label code message = Ok p ∧ viewed p e ∧
       n = File 384 (Some (VDict p)).
Proof. intros (p & -> & Hp)%file_entry_Some. by exists p. Qed.

(** ** Updates *)

(** The keys an entry's view reads. *)
Definition VIEW_KEYS : list string :=
  ["cleanup_handle"; "executor_id"; "run_id"; "baseline_gate_token_sha256"; "state"; "namespace";
   "experiment_name"; "target_name"; "target_uid"; "deadline_at"; "uncertainty_injected";
   "uncertainty_variant"; "operation_outcome"].

Definition other_key (k : string) : bool := negb (bool_decide (k ∈ VIEW_KEYS)).

Lemma viewed_ext p p' e : (∀ k, k ∈ VIEW_KEYS → vget p' k = vget p k) → viewed p e → viewed p' e.
Proof.
  intros H []. assert (∀ k, bool_decide (k ∈ VIEW_KEYS) = true → vget p' k = vget p k) as Hk.
  { intros k Hk. apply H. by apply bool_decide_eq_true in Hk. }
  split; try (rewrite Hk by reflexivity; done).
  unfold _is_retriable_absent_uncertainty in *. by rewrite !Hk.
Qed.

Lemma viewed_dset k v p e : other_key k = true → viewed p e → viewed (dset k v p) e.
Proof.
  intros Hk. apply viewed_ext. intros k' Hk'. apply vget_dset_ne. intros ->.
  unfold other_key in Hk. by rewrite bool_decide_true in Hk.
Qed.

Lemma viewed_update l p e : forallb (λ kv, other_key kv.1) l = true → viewed p e →
  viewed (dict_update p l) e.
Proof.
  revert p. induction l as [|[k v] l IH]; intros p; [done|]. cbn [forallb fst].
  rewrite andb_true_iff. intros [Hk Hl] Hp. apply (IH (dset k v p)); [done|]. by apply viewed_dset.
Qed.

(** The entry in a state in which it is not retriable. *)
Definition in_state (e : Entry) (st : string) : Entry := {|
  e_handle := e_handle e; e_executor := e_executor e; e_run := e_run e; e_token := e_token e;
  e_state := st; e_namespace := e_namespace e; e_name := e_name e; e_target := e_target e;
  e_uid := e_uid e; e_deadline := e_deadline e; e_retriable := false |}.

Lemma retriable_state p st : vget p "state" = VStr st → st ≠ "operation_outcome_unknown" →
  _is_retriable_absent_uncertainty (Some p) = false.
Proof.
  intros H Hst. unfold _is_retriable_absent_uncertainty. rewrite H, is_str_VStr, bool_decide_false by done.
  by rewrite !andb_false_r.
Qed.

Lemma viewed_state st p e : st ≠ "operation_outcome_unknown" → viewed p e →
  viewed (dset "state" (VStr st) p) (in_state e st).
Proof.
  intros Hst []. split; try (rewrite vget_dset_ne by done; done); try apply vget_dset_eq.
  apply (retriable_state _ st); [apply vget_dset_eq|done].
Qed.

(** ** The invariant *)

(** States in which a fault of the entry is, or may be, under way. *)
Definition LIVE : list string := ["active"; "pending_apply"; "operation_outcome_unknown"].
Definition live (e : Entry) : Prop := e_state e ∈ LIVE.

Definition creates (h : string) (trace : list Mutation) : nat :=
  length (List.filter (λ m, match m with MCreate _ h' _ _ => bool_decide (h' = h) | _ => false end) trace).

Definition entry_at (fs : gmap string node) (h : string) (e : Entry) : Prop :=
  ∃ n, fs !! h = Some n ∧ file_entry n = Some e.

Record ledger_inv (fs : gmap string node) (trace : list Mutation) : Prop := {
  li_entries : ∀ h n, fs !! h = Some n →
    ∃ e, file_entry n = Some e ∧ e_handle e = h ∧ e_executor e ≠ "" ∧ HANDLE_RE h = true;
  li_tokens : ∀ h h' e e', entry_at fs h e → entry_at fs h' e' → h ≠ h' → e_token e ≠ e_token e';
  li_exclusive : ∀ h h' e e', entry_at fs h e → entry_at fs h' e' → e_run e = e_run e' →
    live e → live e' → e_executor e = e_executor e';
  li_created : ∀ h, (creates h trace ≤ 1)%nat ∧
    ((creates h trace = 1)%nat → ∃ e, entry_at fs h e ∧ e_retriable e = false);
  li_write_ahead : ∀ x h m n, MCreate x h m n ∈ trace →
    ∃ nd e, n = Some nd ∧ file_entry nd = Some e ∧ e_executor e = x ∧ e_handle e = h ∧
            e_state e = "pending_apply" ∧ ∃ e', entry_at fs h e' ∧ e_token e' = e_token e }.

Lemma ledger_inv_empty : ledger_inv ∅ [].
Proof.
  split.
  - intros h n. by rewrite lookup_empty.
  - intros h h' e e' (n & Hn & _). by rewrite lookup_empty in Hn.
  - intros h h' e e' (n & Hn & _). by rewrite lookup_empty in Hn.
  - intros h. cbn. split; [lia|]. intros H; lia.
  - intros x h m n H. by apply not_elem_of_nil in H.
Qed.

Lemma entry_at_inj fs h e e' : entry_at fs h e → entry_at fs h e' → e = e'.
Proof. intros (n & H & He) (n' & H' & He'). congruence. Qed.

Lemma entry_at_insert fs h h' p e e' : viewed p e →
  entry_at (<[h:=json_file p]> fs) h' e' ↔ (h' = h ∧ e' = e) ∨ (h' ≠ h ∧ entry_at fs h' e').
Proof.
  intros Hp. unfold entry_at. destruct (decide (h' = h)) as [->|Hne].
  - rewrite lookup_insert_eq. split.
    + intros (n & [= <-] & Hn). rewrite (file_entry_json _ _ Hp) in Hn. left. naive_solver.
    + intros [[_ ->]|[? _]]; [|done]. exists (json_file p). by rewrite (file_entry_json _ _ Hp).
  - rewrite lookup_insert_ne by done. naive_solver.
Qed.

(** A document that may replace the entry of [h]. *)
Record update_ok (fs : gmap string node) (h : string) (e' : Entry) : Prop := {
  uo_old : ∃ e, entry_at fs h e ∧ e_handle e' = e_handle e ∧ e_executor e' = e_executor e ∧
    e_run e' = e_run e ∧ e_token e' = e_token e ∧ (live e' → live e) ∧
    (e_retriable e' = true → e_retriable e = true) }.

(** A document that may be the first of [h], or take the place of an experiment that is
    known to be absent. *)
Record fresh_ok (fs : gmap string node) (h : string) (e' : Entry) : Prop := {
  fo_handle : e_handle e' = h ∧ HANDLE_RE h = true ∧ e_executor e' ≠ "";
  fo_slot : ∀ e, entry_at fs h e → e_retriable e = true;
  fo_token : ∀ h' e, h' ≠ h → entry_at fs h' e → e_token e ≠ e_token e';
  fo_exclusive : ∀ h' e, entry_at fs h' e → live e → e_run e = e_run e' →
    e_executor e = e_executor e' }.

Lemma creates_elem x h m n tr : MCreate x h m n ∈ tr → creates h tr ≠ 0%nat.
Proof.
  intros Hin. unfold creates. intros H0%nil_length_inv.
  assert (MCreate x h m n ∈ List.filter (λ m, match m with MCreate _ h' _ _ => bool_decide (h' = h) | _ => false end) tr)
    as Hf; [|rewrite H0 in Hf; by apply not_elem_of_nil in Hf].
  apply list_elem_of_In, filter_In. split; [by apply list_elem_of_In|]. by apply bool_decide_eq_true.
Qed.

Lemma ledger_inv_update fs tr h p e : ledger_inv fs tr → viewed p e → update_ok fs h e →
  ledger_inv (<[h:=json_file p]> fs) tr.
Proof.
  intros [H1 H2 H3 H4 H5] Hp [(e0 & He0 & Eh & Ex & Er & Et & El & Erl)].
  destruct He0 as (n0 & Hn0 & Hf0). destruct (H1 _ _ Hn0) as (e1 & Hf1 & Eh1 & Hx1 & Hre).
  rewrite Hf0 in Hf1. injection Hf1 as <-. assert (entry_at fs h e0) as He0 by (by exists n0).
  split.
  - intros h' n. destruct (decide (h' = h)) as [->|Hne].
    + rewrite lookup_insert_eq. intros [= <-]. exists e. rewrite (file_entry_json _ _ Hp).
      rewrite Eh, Ex. done.
    + rewrite lookup_insert_ne by done. apply H1.
  - intros h1 h2 e1 e2. rewrite !(entry_at_insert _ _ _ _ _ _ Hp).
    intros [[-> ->]|[? G1]] [[-> ->]|[? G2]] Hne; rewrite ?Et; eauto.
  - intros h1 h2 e1 e2. rewrite !(entry_at_insert _ _ _ _ _ _ Hp).
    intros [[-> ->]|[? G1]] [[-> ->]|[? G2]]; rewrite ?Er, ?Ex; eauto.
  - intros h'. destruct (H4 h') as [G1 G2]. split; [done|]. intros G. destruct (G2 G) as (e1 & A & B).
    destruct (decide (h' = h)) as [->|Hne].
    + exists e. rewrite (entry_at_insert _ _ _ _ _ _ Hp). split; [by left|].
      rewrite (entry_at_inj _ _ _ _ A He0) in B. destruct (e_retriable e); [|done].
      by rewrite Erl in B.
    + exists e1. rewrite (entry_at_insert _ _ _ _ _ _ Hp). split; [by right|done].
  - intros x h' m n Hin. destruct (H5 _ _ _ _ Hin) as (nd & e1 & -> & G1 & G2 & G3 & G4 & e2 & G5 & G6).
    exists nd, e1. split_and!; try done. destruct (decide (h' = h)) as [->|Hne].
    + exists e. rewrite (entry_at_insert _ _ _ _ _ _ Hp). split; [by left|].
      by rewrite (entry_at_inj _ _ _ _ G5 He0) in G6; rewrite Et.
    + exists e2. rewrite (entry_at_insert _ _ _ _ _ _ Hp). split; [by right|done].
Qed.

Lemma ledger_inv_fresh fs tr h p e : ledger_inv fs tr → viewed p e → fresh_ok fs h e →
  ledger_inv (<[h:=json_file p]> fs) tr ∧ creates h tr = 0%nat.
Proof.
  intros [H1 H2 H3 H4 H5] Hp [(Eh & Hre & Hx) Hslot Htok Hexcl].
  assert (creates h tr = 0%nat) as H0.
  { destruct (H4 h) as [G1 G2]. destruct (creates h tr) as [|[|n]]; [done| |lia].
    destruct (G2 eq_refl) as (e0 & A & B). by rewrite (Hslot _ A) in B. }
  split; [|done]. split.
  - intros h' n. destruct (decide (h' = h)) as [->|Hne].
    + rewrite lookup_insert_eq. intros [= <-]. exists e. by rewrite (file_entry_json _ _ Hp).
    + rewrite lookup_insert_ne by done. apply H1.
  - intros h1 h2 e1 e2. rewrite !(entry_at_insert _ _ _ _ _ _ Hp).
    intros [[-> ->]|[? G1]] [[-> ->]|[? G2]] Hne; eauto. intros E. by apply (Htok _ _ H G2).
  - intros h1 h2 e1 e2. rewrite !(entry_at_insert _ _ _ _ _ _ Hp).
    intros [[-> ->]|[? G1]] [[-> ->]|[? G2]]; eauto. intros. symmetry. eauto.
  - intros h'. destruct (H4 h') as [G1 G2]. split; [done|]. intros G. destruct (G2 G) as (e1 & A & B).
    destruct (decide (h' = h)) as [->|Hne]; [lia|].
    exists e1. rewrite (entry_at_insert _ _ _ _ _ _ Hp). split; [by right|done].
  - intros x h' m n Hin. destruct (H5 _ _ _ _ Hin) as (nd & e1 & -> & G1 & G2 & G3 & G4 & e2 & G5 & G6).
    exists nd, e1. split_and!; try done. exists e2. rewrite (entry_at_insert _ _ _ _ _ _ Hp).
    split; [right|done]. split; [|done]. intros ->. by apply creates_elem in Hin.
Qed.

Lemma creates_other h m tr : (∀ x h' ma n, m ≠ MCreate x h' ma n) → creates h (m :: tr) = creates h tr.
Proof. intros Hm. unfold creates. cbn [List.filter]. destruct m; try done. by destruct (Hm executor handle manifest entry). Qed.

Lemma ledger_inv_other fs tr m : ledger_inv fs tr → (∀ x h ma n, m ≠ MCreate x h ma n) →
  ledger_inv fs (m :: tr).
Proof.
  intros [H1 H2 H3 H4 H5] Hm. split; try done.
  - intros h. by rewrite creates_other.
  - intros x h ma n [E|Hin]%elem_of_cons; [|by eapply H5]. by destruct (Hm x h ma n).
Qed.

Lemma ledger_inv_create fs tr x h ma e : ledger_inv fs tr → creates h tr = 0%nat → entry_at fs h e →
  e_executor e = x → e_state e = "pending_apply" → e_retriable e = false →
  ledger_inv fs (MCreate x h ma (fs !! h) :: tr).
Proof.
  intros [H1 H2 H3 H4 H5] H0 He Hx Hst Hr. split; try done.
  - intros h'. unfold creates. cbn [List.filter]. destruct (bool_decide (h = h')) eqn:E.
    + apply bool_decide_eq_true in E as <-. unfold creates in H0. cbn [length]. rewrite H0.
      split; [lia|]. intros _. by exists e.
    + apply H4.
  - intros x' h' ma' n' [[= -> -> -> ->]|Hin]%elem_of_cons; [|by eapply H5].
    pose proof He as (nd & Hnd & Hf). destruct (H1 _ _ Hnd) as (e' & Hf' & Eh & _).
    exists nd, e. split_and!; try done; [congruence|]. by exists e.
Qed.

(** ** Programs that write neither the ledger nor the trace *)

Section programs.
Context {W : Type}.
#[local] Abbreviation gw := (prog (Gateway W)).
Implicit Types (s : Gateway W) (P : Gateway W → Prop).

Definition ledger_files s : gmap string node := files (gw_ledger s).
Definition private s : Prop := present (gw_ledger s) = Some (true, 448).
Definition frame s := (ledger_files s, gw_trace s, gw_baseline s, gw_decision s, gw_lease s).

Definition quiet {A} (m : gw A) : Prop :=
  ∀ s, frame (m s).1 = frame s ∧ (private s → private (m s).1).

Lemma quietly_bind {A B} (m : gw A) (f : A → gw B) :
  quiet m → (∀ a, quiet (f a)) → quiet (m ≫= f).
Proof.
  intros Hm Hf s. rewrite prog_bind_eq. destruct (Hm s) as [H1 H2]. destruct (m s) as [s' [a|e]]; [|done].
  destruct (Hf a s') as [H3 H4]. cbn [fst] in *. split; [by rewrite H3|auto].
Qed.

Lemma quietly_ret {A} (a : A) : quiet (mret a).
Proof. done. Qed.
Lemma quietly_lift {A} (r : result A) : quiet (lift r).
Proof. done. Qed.
Lemma quiet_gets {A} (f : Gateway W → A) : quiet (gets f).
Proof. done. Qed.
Lemma quiet_throw {A} k msg : quiet (throw (A:=A) k msg).
Proof. done. Qed.
Lemma quiet_backend {A} (op : prog W A) : quiet (on_backend op).
Proof. intros s. unfold on_backend. by destruct (op (gw_world s)). Qed.
Lemma quiet_when b (m : gw void) : quiet m → quiet (when b m).
Proof. intros. by destruct b. Qed.
Lemma quiet_catch {A} (m : gw A) h : quiet m → (∀ e, quiet (h e)) → quiet (catch m h).
Proof.
  intros Hm Hh s. unfold catch. destruct (Hm s) as [H1 H2]. destruct (m s) as [s' [a|e]]; [done|].
  destruct (Hh e s') as [H3 H4]. cbn [fst] in *. split; [by rewrite H3|auto].
Qed.

(** ** Programs whose only mutations of the cluster are not creations *)

Definition harmless (m : Mutation) : Prop := ∀ x h ma n, m ≠ MCreate x h ma n.

Definition mild {A} (m : gw A) : Prop := ∀ s,
  ledger_files (m s).1 = ledger_files s ∧ (private s → private (m s).1) ∧
  ∃ ms, gw_trace (m s).1 = ms ++ gw_trace s ∧ Forall harmless ms.

Lemma quiet_mild {A} (m : gw A) : quiet m → mild m.
Proof.
  intros Hm s. destruct (Hm s) as [H1 H2]. unfold frame in H1. injection H1 as E1 E2 _ _ _.
  split_and!; [done|done|]. by exists [].
Qed.

Lemma mild_bind {A B} (m : gw A) (f : A → gw B) : mild m → (∀ a, mild (f a)) → mild (m ≫= f).
Proof.
  intros Hm Hf s. rewrite prog_bind_eq. destruct (Hm s) as (H1 & H2 & ms & H3 & H4).
  destruct (m s) as [s' [a|e]]; cbn [fst] in *; [|eauto].
  destruct (Hf a s') as (G1 & G2 & ms' & G3 & G4). split_and!; [by rewrite G1|auto|].
  exists (ms' ++ ms). rewrite G3, H3, app_assoc. split; [done|]. by apply Forall_app.
Qed.

Lemma mild_record m : harmless m → mild (modify (record m)).
Proof. intros Hm s. split_and!; [done|done|]. exists [m]. split; [done|]. by constructor. Qed.

(** What mild programs keep. *)
Definition keeps_mild P : Prop := ∀ s s', P s → ledger_files s' = ledger_files s →
  (private s → private s') → (∃ ms, gw_trace s' = ms ++ gw_trace s ∧ Forall harmless ms) → P s'.

Lemma triple_mild {A} (m : gw A) P : mild m → keeps_mild P → triple P m (λ _, P) P.
Proof.
  intros Hm HP s Hs. destruct (Hm s) as (H1 & H2 & H3). specialize (HP _ _ Hs H1 H2 H3).
  by destruct (m s) as [s' [a|e]].
Qed.

(** ... and what its value says, when that does not depend on the later state. *)
Lemma triple_mild_value {A} (m : gw A) P (R : A → Prop) : mild m → keeps_mild P →
  (∀ s s' a, P s → m s = (s', Ok a) → R a) → triple P m (λ a s, P s ∧ R a) P.
Proof.
  intros Hm HP HR s Hs. destruct (Hm s) as (H1 & H2 & H3). specialize (HP _ _ Hs H1 H2 H3).
  destruct (m s) as [s' [a|e]] eqn:E; [|done]. split; [done|]. by eapply HR.
Qed.

Definition Inv s : Prop := private s ∧ ledger_inv (ledger_files s) (gw_trace s).

Lemma ledger_inv_app fs tr ms : ledger_inv fs tr → Forall harmless ms → ledger_inv fs (ms ++ tr).
Proof.
  intros Hi Hms. induction Hms as [|m ms Hm _ IH]; [done|]. by apply ledger_inv_other.
Qed.

Lemma creates_app h ms tr : Forall harmless ms → creates h (ms ++ tr) = creates h tr.
Proof.
  induction 1 as [|m ms Hm _ IH]; [done|]. change ((m :: ms) ++ tr) with (m :: (ms ++ tr)).
  by rewrite creates_other.
Qed.

Lemma keeps_Inv : keeps_mild Inv.
Proof.
  intros s s' [Hp Hi] Ef Hpp (ms & Et & Hms). split; [auto|]. rewrite Ef, Et. by apply ledger_inv_app.
Qed.
Lemma keeps_files (Q : gmap string node → Prop) : keeps_mild (λ s, Q (ledger_files s)).
Proof. intros s s' Hs Ef _ _. by rewrite Ef. Qed.
Lemma keeps_creates h n : keeps_mild (λ s, creates h (gw_trace s) = n).
Proof. intros s s' Hs _ _ (ms & Et & Hms). by rewrite Et, creates_app. Qed.
Lemma keeps_and P Q : keeps_mild P → keeps_mild Q → keeps_mild (λ s, P s ∧ Q s).
Proof. intros HP HQ s s' [H1 H2] E1 E2 E3. split; [by eapply HP|by eapply HQ]. Qed.
Lemma keeps_pure (R : Prop) : keeps_mild (λ _, R).
Proof. by intros s s' Hs. Qed.
End programs.

#[export] Hint Resolve quietly_ret quietly_lift quiet_gets quiet_throw quiet_backend quiet_when : quiet.
#[export] Hint Resolve keeps_Inv keeps_files keeps_creates keeps_and keeps_pure : keeps.

(** [quiet] goes through a program's statements. *)
Ltac quiet_step :=
  first [ solve [auto with quiet] | apply quietly_bind; [|intros ?] | apply quiet_catch; [|intros ?]
        | apply quiet_when | case_match ].
Ltac quiet := repeat quiet_step.

Ltac mild_step :=
  first [ solve [auto with mild] | solve [apply quiet_mild; quiet] | apply mild_bind; [|intros ?]
        | case_match ].
Ltac mild := repeat mild_step.
