(* ===== verification/ChaosInv.v ===== *)
(** * Every method of an executor keeps the ledger's invariant

    Triples for the programs of [ChaosService]: what they read, what they write, and that
    [ledger_inv] holds after them whether they return or raise. *)

From S2P Require Import Prelude PyFloat PyVal PyTime PyIso Safety ConditionPolicy PlanSchema.
From S2P Require Import Sha256 Hoare ChaosGates ChaosLedger ChaosService ChaosEntries.

#[local] Open Scope Z_scope.

Section quiet_statements.
Context {W : Type} (errors : mapping → list SchemaError) (utc_now : nat → Z)
  (kill0 : Z → option exn) (self : Service W).

(** ** Quiet statements *)

Lemma quiet_now_utc : quiet (_now_utc (W:=W) utc_now).
Proof. done. Qed.
Lemma quiet_now_iso : quiet (_now_iso (W:=W) utc_now).
Proof. done. Qed.
Lemma quiet_open_lock : quiet (open_lock (W:=W)).
Proof. unfold open_lock. apply quietly_bind; [done|]. intros n. repeat case_match; done. Qed.

Lemma quiet_read_entry h c m : quiet (read_entry (W:=W) h c m).
Proof. done. Qed.
Lemma quiet_iter : quiet (_iter_cleanup_ledger_paths (W:=W)).
Proof. unfold _iter_cleanup_ledger_paths. quiet. Qed.
#[local] Hint Resolve quiet_now_utc quiet_now_iso quiet_open_lock quiet_read_entry
  quiet_iter : quiet.

Lemma quiet_read_ledger h : quiet (_read_ledger (W:=W) h).
Proof. unfold _read_ledger. quiet. Qed.
Lemma quiet_read_ledger_for_create h : quiet (_read_ledger_for_create (W:=W) h).
Proof. unfold _read_ledger_for_create. quiet. Qed.
Lemma quiet_decision c : quiet (decision_node (W:=W) c).
Proof. unfold decision_node. quiet. Qed.
#[local] Hint Resolve quiet_read_ledger quiet_read_ledger_for_create quiet_decision : quiet.

Lemma quiet_runtime_gates q b : quiet (_assert_create_runtime_gates self q b).
Proof. unfold _assert_create_runtime_gates. quiet. Qed.
Lemma quiet_identity k : quiet (_verify_controller_identity utc_now kill0 self k).
Proof. unfold _verify_controller_identity. quiet. Qed.
Lemma quiet_report_only : quiet (_assert_not_report_only self).
Proof. unfold _assert_not_report_only. quiet. Qed.
#[local] Hint Resolve quiet_runtime_gates quiet_identity quiet_report_only : quiet.

Lemma quiet_reference q b : quiet (_reference_plan_gate errors self q b).
Proof. unfold _reference_plan_gate, _approved_plan_if_any, _assert_user_decision. quiet. Qed.
Lemma quiet_baseline q : quiet (_verify_baseline_gate utc_now self q).
Proof. unfold _verify_baseline_gate. quiet. Qed.
Lemma quiet_unused t h : quiet (_assert_baseline_token_unused (W:=W) t h).
Proof. unfold _assert_baseline_token_unused. quiet. Qed.
Lemma quiet_no_other r : quiet (_assert_no_other_executor_active self r).
Proof. unfold _assert_no_other_executor_active. quiet. Qed.
#[local] Hint Resolve quiet_reference quiet_baseline quiet_unused quiet_no_other : quiet.

Lemma quiet_request_gates q b : quiet (request_gates errors utc_now kill0 self q b).
Proof. unfold request_gates. quiet. Qed.
Lemma quiet_verify_target q : quiet (verify_target self q).
Proof. unfold verify_target. quiet. Qed.
Lemma quiet_safety q : quiet (safety_gate self q).
Proof. unfold safety_gate. quiet. Qed.
Lemma quiet_append l p o : quiet (_append_mutation utc_now self l p o).
Proof. unfold _append_mutation. quiet. Qed.
Lemma quiet_live n m k : quiet (live_record self n m k).
Proof. unfold live_record. quiet. Qed.
Lemma quiet_changes l r : quiet (fault_window_changes (W:=W) utc_now l r).
Proof. unfold fault_window_changes. quiet. Qed.
Lemma quiet_ended l st : quiet (ended_ledger (W:=W) utc_now l st).
Proof. unfold ended_ledger. quiet. Qed.
Lemma quiet_applied l r h : quiet (applied_ledger (W:=W) utc_now l r h).
Proof. unfold applied_ledger. quiet. Qed.
Lemma quiet_new_ledger q n : quiet (new_ledger utc_now self q n).
Proof. unfold new_ledger. quiet. Qed.
#[local] Hint Resolve quiet_request_gates quiet_verify_target quiet_safety quiet_append quiet_live
  quiet_changes quiet_ended quiet_applied quiet_new_ledger : quiet.
End quiet_statements.

#[export] Hint Resolve quiet_now_utc quiet_now_iso quiet_open_lock quiet_read_entry quiet_iter
  quiet_read_ledger quiet_read_ledger_for_create quiet_decision quiet_runtime_gates
  quiet_identity quiet_report_only quiet_reference quiet_baseline quiet_unused quiet_no_other
  quiet_request_gates quiet_verify_target quiet_safety quiet_append quiet_live quiet_changes
  quiet_ended quiet_applied quiet_new_ledger : quiet.

Section service_inv.
Context {W : Type} (errors : mapping → list SchemaError) (utc_now : nat → Z)
  (disk : nat → DiskOutcome) (kill0 : Z → option exn) (self : Service W).
Context (executor_named : executor_id self ≠ "").
#[local] Abbreviation gw := (prog (Gateway W)).
Implicit Types (s : Gateway W).

Lemma quiet_outcome : quiet (disk_outcome (W:=W) disk).
Proof. done. Qed.
Lemma quiet_ensure : quiet (_ensure_private_ledger_directory (W:=W) disk).
Proof.
  intros s. unfold _ensure_private_ledger_directory, write, disk_outcome.
  cbv [mbind prog_bind gets lift modify mret]. destruct (present (gw_ledger s)) as [[r m]|] eqn:E; cbn.
  - by destruct r, (m =? 448).
  - unfold private. rewrite E. by destruct (disk (gw_clock s)).
Qed.

#[local] Hint Resolve quiet_outcome quiet_ensure : quiet.

(** ** Mild statements *)

Lemma mild_fence a b c k : mild (do_fence self a b c k).
Proof. unfold do_fence. apply mild_bind; [by apply mild_record|]. intros _. mild. Qed.
Lemma mild_unfence a b c k : mild (do_unfence self a b c k).
Proof. unfold do_unfence. apply mild_bind; [by apply mild_record|]. intros _. mild. Qed.
Lemma mild_delete a b k : mild (do_delete self a b k).
Proof. unfold do_delete. apply mild_bind; [by apply mild_record|]. intros _. mild. Qed.
#[local] Hint Resolve mild_fence mild_unfence mild_delete : mild.

Lemma mild_clear_fence l k : mild (clear_ledger_fence self l k).
Proof. unfold clear_ledger_fence. mild. Qed.
#[local] Hint Resolve mild_clear_fence : mild.
Lemma mild_clear_if_none l k : mild (_clear_target_fence_if_no_resource self l k).
Proof. unfold _clear_target_fence_if_no_resource. mild. Qed.
Lemma mild_delete_verify l k : mild (_delete_and_verify_from_ledger self l k).
Proof. unfold _delete_and_verify_from_ledger. mild. Qed.

Lemma mild_write (put : Gateway W → Gateway W) :
  (∀ s, ledger_files (put s) = ledger_files s ∧ gw_trace (put s) = gw_trace s ∧
        (private s → private (put s))) → mild (write disk put).
Proof.
  intros Hp. unfold write. apply mild_bind; [apply quiet_mild; auto with quiet|].
  assert (mild (modify put)) as Hm.
  { intros s. destruct (Hp s) as (E1 & E2 & E3). split_and!; [done|done|]. exists []. by rewrite <- E2. }
  intros []; [done|by apply quiet_mild|]. apply mild_bind; [done|]. intros _. by apply quiet_mild.
Qed.

Lemma mild_bind_baseline q c : mild (_bind_agent_selected_baseline_target (W:=W) utc_now disk q c).
Proof.
  unfold _bind_agent_selected_baseline_target. case_match; [mild|].
  apply mild_bind; [mild|]. intros v. apply mild_bind; [mild|]. intros t. by apply mild_write.
Qed.
#[local] Hint Resolve mild_clear_if_none mild_delete_verify mild_bind_baseline : mild.

(** ** Reading and writing entries *)

Definition holds (h : string) (p : mapping) (e : Entry) s : Prop :=
  Inv s ∧ entry_at (ledger_files s) h e ∧ viewed p e.

Lemma keeps_holds h p e : keeps_mild (W:=W) (holds h p e).
Proof.
  apply keeps_and; [apply keeps_Inv|]. apply (keeps_files (λ fs, entry_at fs h e ∧ viewed p e)).
Qed.
#[local] Hint Resolve keeps_holds : keeps.

Lemma in_private s h : private s → in_folder (gw_ledger s) h = ledger_files s !! h.
Proof. unfold private, in_folder. by intros ->. Qed.

Lemma Inv_entry s h n : Inv s → ledger_files s !! h = Some n →
  ∃ e, entry_at (ledger_files s) h e ∧ file_entry n = Some e ∧ e_handle e = h ∧ e_executor e ≠ "" ∧
       HANDLE_RE h = true.
Proof.
  intros [_ Hi] Hn. destruct (li_entries _ _ Hi _ _ Hn) as (e & H1 & H2 & H3 & H4).
  exists e. split_and!; try done. by exists n.
Qed.

Lemma Inv_handle s h e : Inv s → entry_at (ledger_files s) h e →
  e_handle e = h ∧ e_executor e ≠ "" ∧ HANDLE_RE h = true.
Proof.
  intros HI (n & Hn & He). destruct (Inv_entry _ _ _ HI Hn) as (e' & _ & He' & H). congruence.
Qed.

Lemma triple_read_entry h c m :
  triple Inv (read_entry (W:=W) h c m) (λ p s, ∃ e, holds h p e s) Inv.
Proof.
  intros s HI. unfold read_entry. cbv [mbind prog_bind gets lift].
  rewrite in_private by apply HI. destruct (ledger_files s !! h) as [n|] eqn:En; [|exact HI].
  destruct (Inv_entry _ _ _ HI En) as (e & He & Hf & _).
  destruct (read_private n "cleanup ledger entry" c m e Hf) as (p & -> & Hp & _).
  by exists e.
Qed.

Lemma triple_read_ledger h :
  triple Inv (_read_ledger (W:=W) h) (λ p s, ∃ e, holds h p e s) Inv.
Proof.
  unfold _read_ledger. eapply triple_bind; [apply triple_mild; [mild|auto with keeps]|].
  intros []. eapply triple_bind; [by apply (triple_gets _ _ (λ _, Inv))|]. intros d.
  eapply triple_bind; [apply triple_mild; [mild|auto with keeps]|]. intros [].
  eapply triple_bind; [apply triple_mild; [mild|auto with keeps]|]. intros [].
  eapply triple_bind; [apply triple_read_entry|]. intros p.
  intros s (e & Hh). cbv [mbind prog_bind lift].
  destruct (demand _ _ _); [by exists e|apply Hh].
Qed.

(** The ledger and the trace after a write that may fail before or after it is done. *)
Lemma triple_write h p (P Q : Gateway W → Prop) : (∀ s, P s → private s) →
  (∀ s, P s → P (tick s)) →
  (∀ s, P s → Q (set_ledger (put_file h (json_file p) (gw_ledger s)) s)) →
  triple P (_write_ledger disk h p) (λ _, Q) (λ s, P s ∨ Q s).
Proof.
  intros Hpr Ht HQ s Hs. pose proof (Hpr _ Hs) as Hp. unfold private in Hp.
  unfold _write_ledger, _ensure_private_ledger_directory, write, disk_outcome.
  cbv [mbind prog_bind gets lift modify mret]. unfold _assert_private_directory. rewrite Hp. cbn.
  specialize (Ht _ Hs). destruct (disk (gw_clock s)); [by apply HQ|by left|right; by apply HQ].
Qed.

Lemma private_put h n s : private s → private (set_ledger (put_file h n (gw_ledger s)) s).
Proof. done. Qed.

Lemma triple_write_update h p e : viewed p e →
  triple (λ s, Inv s ∧ update_ok (ledger_files s) h e) (_write_ledger disk h p)
    (λ _ s, holds h p e s) Inv.
Proof.
  intros Hp. eapply triple_post;
    [apply (triple_write h p (λ s, Inv s ∧ update_ok (ledger_files s) h e) (holds h p e))|done|].
  - by intros s [[? _] _].
  - done.
  - intros s [[Hpr Hi] Hu]. split_and!; [|by apply (entry_at_insert _ _ _ _ _ _ Hp); left|done].
    split; [done|]. by apply (ledger_inv_update _ _ _ _ _ Hi Hp Hu).
  - intros s [[HI _]|[HI _]]; exact HI.
Qed.

Lemma triple_write_fresh h p e : viewed p e →
  triple (λ s, Inv s ∧ fresh_ok (ledger_files s) h e) (_write_ledger disk h p)
    (λ _ s, holds h p e s ∧ creates h (gw_trace s) = 0%nat) Inv.
Proof.
  intros Hp. eapply triple_post;
    [apply (triple_write h p (λ s, Inv s ∧ fresh_ok (ledger_files s) h e)
              (λ s, holds h p e s ∧ creates h (gw_trace s) = 0%nat))|done|].
  - by intros s [[? _] _].
  - done.
  - intros s [[Hpr Hi] Hu]. destruct (ledger_inv_fresh _ _ _ _ _ Hi Hp Hu) as [Hi' H0].
    split; [|done]. split_and!; [by split|by apply (entry_at_insert _ _ _ _ _ _ Hp); left|done].
  - intros s [[HI _]|[[HI _] _]]; exact HI.
Qed.

(** ** The values the quiet statements compute *)

Lemma value_now_iso (s s' : Gateway W) v : _now_iso utc_now s = (s', Ok v) → ∃ t, v = VStr t.
Proof. cbv [_now_iso _now_utc mbind prog_bind mret prog_ret]. intros [= _ <-]. eauto. Qed.

Lemma changes_other p r (s s' : Gateway W) l : fault_window_changes utc_now p r s = (s', Ok l) →
  forallb (λ kv, other_key kv.1) l = true.
Proof.
  unfold fault_window_changes. destruct r as [r|]; cbv [mbind prog_bind lift mret prog_ret].
  - destruct (_record_matches_ledger r p) as [b|]; [|done].
    destruct (_ && _); [|by intros [= _ <-]]. cbn. by intros [= _ <-].
  - destruct (_ && _); [|by intros [= _ <-]]. cbn. by intros [= _ <-].
Qed.

Lemma viewed_fill l p e : forallb (λ kv, other_key kv.1) l = true → viewed p e →
  viewed (foldl fill_missing p l) e.
Proof.
  revert p. induction l as [|[k v] l IH]; intros p; [done|]. cbn [forallb fst foldl].
  rewrite andb_true_iff. intros [Hk Hl] Hp. apply IH; [done|]. unfold fill_missing.
  case_match; [done|]. by apply viewed_dset.
Qed.

Lemma ended_viewed p e st (s s' : Gateway W) p' : st ≠ "operation_outcome_unknown" → viewed p e →
  ended_ledger utc_now p st s = (s', Ok p') → viewed p' (in_state e st).
Proof.
  intros Hst Hp. unfold ended_ledger. cbv [mbind prog_bind mret prog_ret].
  destruct (truthy _); cbn; intros [= _ <-];
    repeat (apply viewed_dset; [reflexivity|]); by apply viewed_state.
Qed.

Lemma append_viewed p e pr op (s s' : Gateway W) p' : viewed p e →
  _append_mutation utc_now self p pr op s = (s', Ok p') → viewed p' e.
Proof.
  intros Hp. unfold _append_mutation. cbv [mbind prog_bind lift mret prog_ret].
  destruct (py_list _) as [l|]; [|done]. cbn. intros [= _ <-].
  repeat case_match; repeat apply viewed_dset; done.
Qed.

(** An entry that stays itself may be written again, and may leave the live states. *)
Lemma update_self fs h e : entry_at fs h e → update_ok fs h e.
Proof. intros He. split. exists e. by split_and!. Qed.

Lemma update_in_state fs h e st : entry_at fs h e → st ∉ LIVE → update_ok fs h (in_state e st).
Proof. intros He Hst. split. exists e. split_and!; try done. Qed.

(** [skip] runs a statement that keeps the precondition. *)
Ltac skip x := eapply triple_bind; [apply triple_mild; [mild|auto with keeps]|intros x].

Lemma triple_weak {A} (m : gw A) P (E : Gateway W → Prop) : mild m → keeps_mild P →
  (∀ s, P s → E s) → triple P m (λ _, P) E.
Proof.
  intros Hm HP HI. eapply triple_post; [by apply triple_mild|done|exact HI].
Qed.

Lemma holds_Inv h p e s : holds h p e s → Inv s.
Proof. by intros [? _]. Qed.
#[local] Hint Resolve holds_Inv : core.

(** [pass x]: the same when the exception case asks for the invariant only. *)
Ltac pass x := eapply triple_bind; [apply triple_weak; [mild|auto with keeps|eauto]|intros x].

(** ** Observing *)

Lemma holds_handle h p e s : holds h p e s → ledger_handle p = Ok h.
Proof.
  intros (HI & He & Hp). destruct (Inv_handle _ _ _ HI He) as (Eh & _ & _).
  unfold ledger_handle, vitem. pose proof (vw_handle _ _ Hp) as Hv. unfold vget in Hv.
  destruct (dget "cleanup_handle" p) as [v|]; [|done]. cbn in Hv. subst v. cbn. congruence.
Qed.

Lemma holds_str h p e s k : holds h p e s → vget p k ≠ VNone → ∃ v, vitem p k = Ok v ∧ vget p k = v.
Proof. intros _. unfold vget, vitem. destruct (dget k p) as [v|]; [|done]. by exists v. Qed.

Lemma triple_reread h p e :
  triple (holds h p e) (_read_ledger (W:=W) h) (λ p' s, viewed p' e ∧ holds h p e s) (holds h p e).
Proof.
  eapply triple_post; [eapply triple_pre; [|apply triple_and;
    [apply triple_read_ledger|apply (triple_mild _ (holds h p e)); [mild|auto with keeps]]]| |].
  - intros s H. split; [by eapply holds_Inv|exact H].
  - intros p' s [(e' & HI & He' & Hp') H]. split; [|done]. destruct H as (_ & He & _).
    by rewrite (entry_at_inj _ _ _ _ He He').
  - by intros s [_ ?].
Qed.

Lemma triple_rewrite h p p' e : viewed p' e →
  triple (holds h p e) (_write_ledger disk h p') (λ _ s, holds h p e s) (holds h p e).
Proof.
  intros Hp'. eapply triple_post; [apply (triple_write h p' (holds h p e) (holds h p e))|done|].
  - by intros s [[? _] _].
  - done.
  - intros s ([Hpr Hi] & He & Hp). split_and!; [|by apply (entry_at_insert _ _ _ _ _ _ Hp'); left|done].
    split; [done|]. by apply (ledger_inv_update _ _ _ _ _ Hi Hp'), update_self.
  - by intros s [H|H].
Qed.

(** An observation may fill in when the fault began or ended; the entry stays itself,
    whether the observation returns or raises. *)
Lemma triple_observe h p e r :
  triple (holds h p e) (_observe_fault_window utc_now disk p r)
    (λ p' s, viewed p' e ∧ holds h p e s) (holds h p e).
Proof.
  unfold _observe_fault_window. eapply triple_bind.
  { apply (triple_mild_value _ (holds h p e) (λ l, forallb (λ kv, other_key kv.1) l = true));
      [mild|auto with keeps|].
    intros s s' l _. apply changes_other. }
  intros l. destruct l as [|kv l]; [apply triple_ret; intros s [H _]; split; [apply H|done]|].
  eapply (triple_bind _ _ _ (λ h' s, (h' = h ∧ forallb (λ kv, other_key kv.1) (kv :: l) = true) ∧
            holds h p e s)).
  { apply triple_lift; [|by intros s [? _]]. intros s a [Hh Hl] Ea.
    rewrite (holds_handle _ _ _ _ Hh) in Ea. by injection Ea as <-. }
  intros h'. apply triple_pure. intros [-> Hl].
  eapply triple_bind; [apply triple_reread|]. intros p2. cbv zeta. apply triple_pure. intros Hp2.
  set (p3 := foldl fill_missing p2 (kv :: l)).
  assert (viewed p3 e) as Hp3 by by apply viewed_fill.
  eapply triple_bind; [by apply triple_rewrite|]. intros []. by apply triple_ret.
Qed.

(** The observed document takes the place of the first. *)
Lemma holds_viewed h p p' e s : viewed p' e → holds h p e s → holds h p' e s.
Proof. intros Hp' (HI & He & _). by split_and!. Qed.

(** ** Ending an entry *)

Lemma triple_value {A} (m : gw A) P (R : A → Prop) (E : Gateway W → Prop) : mild m →
  keeps_mild P → (∀ s, P s → E s) →
  (∀ s s' a, P s → m s = (s', Ok a) → R a) → triple P m (λ a s, R a ∧ P s) E.
Proof.
  intros Hm HP HI HR. eapply triple_post; [by apply (triple_mild_value m P R)| |exact HI].
  by intros a s [? ?].
Qed.

Lemma triple_write_end h p p' e st : st ∉ LIVE → viewed p' (in_state e st) →
  triple (holds h p e) (_write_ledger disk h p') (λ _ s, holds h p' (in_state e st) s) Inv.
Proof.
  intros Hst Hp'. eapply triple_pre; [|by apply triple_write_update].
  intros s (HI & He & _). split; [done|by apply update_in_state].
Qed.

Lemma not_live st : bool_decide (st ∈ LIVE) = false → st ∉ LIVE.
Proof. apply bool_decide_eq_false. Qed.

Lemma Inv_destroy h k pr :
  triple Inv (_destroy_experiment_locked utc_now disk self h k pr)
    (λ _ s, ∃ e, entry_at (ledger_files s) h e ∧ e_state e = "destroyed" ∧ Inv s) Inv.
Proof.
  unfold _destroy_experiment_locked. pass u. pass u'. pass ck.
  eapply triple_bind; [apply triple_read_ledger|]. intros p. apply triple_exists. intros e.
  pass ns. pass nm. pass r. eapply triple_bind; [eapply triple_post; [apply triple_observe|done|eauto]|].
  intros p'. apply triple_pure. intros Hp'. apply (triple_pre _ _ (holds h p' e)); [intros s; by apply holds_viewed|].
  pass u''.
  eapply (triple_bind _ _ _ (λ ended s, viewed ended (in_state e "destroyed") ∧ holds h p' e s)).
  { apply (triple_value _ (holds h p' e)); [mild|auto with keeps|eauto|].
    intros s s' a (_ & _ & Hp) H. by eapply ended_viewed. }
  intros ended. apply triple_pure. intros Hended.
  eapply (triple_bind _ _ _ (λ u s, viewed u (in_state e "destroyed") ∧ holds h p' e s)).
  { apply (triple_value _ (holds h p' e)); [mild|auto with keeps|eauto|].
    intros s s' a _ H. by eapply append_viewed. }
  intros upd. apply triple_pure. intros Hupd.
  eapply triple_bind; [apply (triple_write_end h p' upd e "destroyed"); [by apply not_live|done]|].
  intros []. apply triple_ret. intros s (HI & He & _). by exists (in_state e "destroyed").
Qed.

(** ** The sweep *)

Lemma triple_attempt {A} (m : gw A) P (Q : A → Gateway W → Prop) E :
  triple P m Q E → triple P (attempt m) (λ r s, match r with Ok a => Q a s | Err _ => E s end) E.
Proof.
  intros H s Hs. specialize (H s Hs). unfold attempt. destruct (m s) as [s' [a|e]]; [done|].
  by destruct (is_exception e).
Qed.

(** The facts of an entry that is held. *)
Lemma triple_held {A} (m : gw A) h p e (Q : A → Gateway W → Prop) E :
  (vget p "cleanup_handle" = VStr h → viewed p e → triple (holds h p e) m Q E) →
  triple (holds h p e) m Q E.
Proof.
  intros H s Hs. pose proof Hs as (HI & He & Hp). destruct (Inv_handle _ _ _ HI He) as (Eh & _ & _).
  apply H; [|done|done]. by rewrite (vw_handle _ _ Hp), Eh.
Qed.

(** The entry, or what it became when it was cleaned. *)
Definition near (h : string) (e : Entry) s : Prop :=
  Inv s ∧ (entry_at (ledger_files s) h e ∨ entry_at (ledger_files s) h (in_state e "expired_cleaned")).

Lemma holds_near h p e s : holds h p e s → near h e s.
Proof. intros (HI & He & _). split; [done|by left]. Qed.
Lemma near_Inv h e s : near h e s → Inv s.
Proof. by intros [? _]. Qed.
Lemma keeps_near h e : keeps_mild (W:=W) (near h e).
Proof.
  apply keeps_and; [apply keeps_Inv|].
  apply (keeps_files (λ fs, entry_at fs h e ∨ entry_at fs h (in_state e "expired_cleaned"))).
Qed.
#[local] Hint Resolve keeps_near : keeps.
#[local] Hint Resolve near_Inv holds_near : core.

Lemma near_handle h e s : near h e s → e_handle e = h.
Proof. intros [HI [He|He]]; by destruct (Inv_handle _ _ _ HI He) as (Eh & _ & _). Qed.

Lemma near_update h e s : near h e s → update_ok (ledger_files s) h (in_state e "cleanup_error").
Proof.
  intros [HI [He|He]]; [by apply update_in_state, not_live|].
  split. exists (in_state e "expired_cleaned"). split_and!; try done.
  intros Hl. by destruct (not_live "cleanup_error" eq_refl Hl).
Qed.

(** The handler writes the entry back as failed. *)
Lemma triple_sweep_failed h p e acc x : viewed p e →
  triple (near h e) (sweep_failed utc_now disk h (Some p) acc x) (λ _, Inv) Inv.
Proof.
  intros Hp. unfold sweep_failed. apply (triple_bind _ _ _ (λ _, Inv)); [|intros r; by apply triple_ret].
  eapply triple_post; [apply (triple_attempt _ _ (λ _, Inv) Inv)| |done]; [|by intros [] s H].
  case_match; [|apply triple_ret; eauto]. pass t.
  set (p' := dict_update p _).
  assert (viewed p' (in_state e "cleanup_error")) as Hp'.
  { do 2 (apply viewed_dset; [reflexivity|]). by apply viewed_state. }
  intros s Hs. rewrite (vw_handle _ _ Hp), (near_handle _ _ _ Hs). cbn [py_str].
  pose proof (triple_write_update h p' _ Hp' s (conj (near_Inv _ _ _ Hs) (near_update _ _ _ Hs))) as Hw.
  destruct (_write_ledger disk h p' s) as [s' [[]|]]; [|exact Hw]. by apply Hw.
Qed.

Lemma sweep_failed_None h acc x :
  triple Inv (sweep_failed (W:=W) utc_now disk h None acc x) (λ _, Inv) Inv.
Proof. by intros s HI. Qed.

Lemma triple_sweep_observe k h p e :
  triple (holds h p e) (sweep_observe utc_now disk self k p)
    (λ r s, match r with Some p' => viewed p' e | None => True end ∧ holds h p e s) (holds h p e).
Proof.
  unfold sweep_observe. skip owner. case_match; [by apply triple_ret|].
  case_match; [by apply triple_ret|]. skip ns. skip nm. skip r.
  eapply triple_bind; [apply triple_observe|]. intros p'. apply triple_pure. intros Hp'.
  by apply triple_ret.
Qed.

Lemma triple_sweep_clean k h p e :
  triple (holds h p e) (sweep_clean utc_now disk self k p)
    (λ h' s, h' = h ∧ Inv s ∧ entry_at (ledger_files s) h (in_state e "expired_cleaned")) (near h e).
Proof.
  unfold sweep_clean. pass u.
  eapply (triple_bind _ _ _ (λ ended s, viewed ended (in_state e "expired_cleaned") ∧ holds h p e s)).
  { apply (triple_value _ (holds h p e)); [mild|auto with keeps|eauto|].
    intros s s' a (_ & _ & Hp) H. by eapply ended_viewed. }
  intros ended. apply triple_pure. intros Hended.
  eapply (triple_bind _ _ _ (λ upd s, viewed upd (in_state e "expired_cleaned") ∧ holds h p e s)).
  { apply (triple_value _ (holds h p e)); [mild|auto with keeps|eauto|].
    intros s s' a _ H. by eapply append_viewed. }
  intros upd. apply triple_pure. intros Hupd. apply triple_held. intros Eh Hp.
  eapply (triple_bind _ _ _ (λ h' s, h' = h ∧ holds h p e s)).
  { apply triple_lift; [|eauto]. unfold ledger_str, vitem. unfold vget in Eh.
    destruct (dget "cleanup_handle" p); [|done]. cbn in Eh. subst. by intros s a Hs [= <-]. }
  intros h'. apply triple_pure. intros ->.
  apply (triple_bind _ _ _ (λ _ s, Inv s ∧ entry_at (ledger_files s) h (in_state e "expired_cleaned")));
    [|intros []; by apply triple_ret].
  eapply triple_post; [apply (triple_write h upd (holds h p e)
      (λ s, Inv s ∧ entry_at (ledger_files s) h (in_state e "expired_cleaned")))|done|].
  - by intros s [[? _] _].
  - done.
  - intros s ([Hpr Hi] & He & _). split; [|by apply (entry_at_insert _ _ _ _ _ _ Hupd); left].
    split; [done|]. by apply (ledger_inv_update _ _ _ _ _ Hi Hupd), update_in_state, not_live.
  - intros s [H|[HI H]]; [eauto|]. split; [done|by right].
Qed.

Lemma Inv_sweep_one t k acc h : triple Inv (sweep_one utc_now disk self t k acc h) (λ _, Inv) Inv.
Proof.
  unfold sweep_one. eapply triple_bind; [apply triple_attempt, triple_read_entry|].
  intros [p|x]; [|apply sweep_failed_None]. apply triple_exists. intros e. apply triple_held. intros Eh Hp.
  eapply triple_bind; [eapply triple_post; [apply triple_attempt, triple_sweep_observe|done|eauto]|].
  intros [[p'|]|x].
  - apply triple_pure. intros Hp'. case_match; [apply triple_ret; eauto|].
    apply (triple_pre _ _ (holds h p' e)); [intros s; by apply holds_viewed|].
    eapply triple_bind; [eapply triple_post; [apply triple_attempt, triple_sweep_clean|done|eauto]|].
    intros [h'|x].
    + apply triple_ret. by intros s (_ & ? & _).
    + by apply triple_sweep_failed.
  - apply triple_pure. intros _. apply triple_ret. eauto.
  - eapply triple_pre; [|by apply triple_sweep_failed]. eauto.
Qed.

Lemma Inv_sweep now : triple Inv (_cleanup_expired_leases_locked utc_now disk self now) (λ _, Inv) Inv.
Proof.
  unfold _cleanup_expired_leases_locked.
  eapply (triple_bind _ _ _ (λ _, Inv)); [destruct now; [by apply triple_ret|by intros s HI]|].
  intros t. pass k. pass paths.
  apply (triple_for_each _ (λ _, Inv)). intros acc h l. apply Inv_sweep_one.
Qed.

(** ** Status *)

Lemma Inv_status h k b p e :
  triple (holds h p e) (known_entry_status utc_now disk self h k b p) (λ _, Inv) Inv.
Proof.
  unfold known_entry_status. pass ns. pass nm. pass r.
  eapply triple_bind; [eapply triple_post; [apply triple_observe|done|eauto]|].
  intros p'. apply triple_pure. intros _.
  eapply triple_post; [apply (triple_weak _ (holds h p e) Inv); [mild|auto with keeps|eauto]| |done].
  intros a s. apply holds_Inv.
Qed.

Lemma Inv_recovery h k :
  triple Inv (k ← lift (_resolve_kubeconfig self k); recovery_body utc_now disk self h k) (λ _, Inv) Inv.
Proof.
  eapply (triple_bind _ _ _ (λ _, Inv)); [by apply triple_lift|]. intros k'. unfold recovery_body.
  eapply triple_bind; [apply triple_read_ledger|]. intros p. apply triple_exists. intros e.
  pass ns. pass nm. pass r. eapply triple_bind; [eapply triple_post; [apply triple_observe|done|eauto]|].
  intros p'. apply triple_pure. intros _.
  eapply triple_post; [apply (triple_weak _ (holds h p e) Inv); [mild|auto with keeps|eauto]| |done].
  intros a s. apply holds_Inv.
Qed.

(** ** Gates on the ledger *)

Lemma foldM_unit {A} (f : void → A → result void) l u : foldM f u l = Ok tt →
  ∀ x, x ∈ l → f tt x = Ok tt.
Proof.
  revert u. induction l as [|y l IH]; intros u H x; [by intros ?%not_elem_of_nil|].
  cbn in H. apply bind_Ok_inv in H as ([] & Hy & H). destruct u.
  intros [->|Hx]%elem_of_cons; [done|]. by eapply IH.
Qed.

Lemma elem_of_handles d h : h ∈ handles d ↔ is_Some (files d !! h).
Proof. unfold handles. by rewrite elem_of_sort_by, elem_of_elements, elem_of_dom. Qed.

Definition at_files (fs : gmap string node) s : Prop := Inv s ∧ ledger_files s = fs.

Lemma keeps_at fs : keeps_mild (W:=W) (at_files fs).
Proof. apply keeps_and; [apply keeps_Inv|]. apply (keeps_files (λ fs', fs' = fs)). Qed.
Lemma at_Inv fs s : at_files fs s → Inv s.
Proof. by intros [? _]. Qed.
#[local] Hint Resolve keeps_at : keeps.
#[local] Hint Resolve at_Inv : core.

(** A scan reads every entry. *)
Lemma scan_reads fs s h e msg : at_files fs s → entry_at fs h e →
  ∃ p, scan_entry (gw_ledger s) msg h = Ok p ∧ viewed p e ∧ h ∈ handles (gw_ledger s) ∧ e_handle e = h.
Proof.
  intros [HI Hf] He. destruct HI as [Hp Hi]. rewrite <- Hf in He.
  destruct (Inv_handle s h e (conj Hp Hi) He) as (Eh & _ & _). destruct He as (n & Hn & He).
  unfold scan_entry. rewrite in_private, Hn by done.
  destruct (read_private n "cleanup ledger entry" "CLEANUP_LEDGER_UNREADABLE" msg e He) as (p & E & Hv & _).
  exists p. split_and!; try done. apply elem_of_handles. by exists n.
Qed.

Lemma unused_fact fs t h :
  triple (at_files fs) (_assert_baseline_token_unused (W:=W) t h)
    (λ _ s, (∀ h' e, h' ≠ h → entry_at fs h' e → e_token e ≠ t) ∧ at_files fs s) Inv.
Proof.
  apply (triple_value _ (at_files fs) (λ _, ∀ h' e, h' ≠ h → entry_at fs h' e → e_token e ≠ t));
    [mild|auto with keeps|eauto|].
  intros s s' [] Hs. pose proof Hs as [[Hp _] _]. unfold private in Hp. unfold _assert_baseline_token_unused.
  cbv [mbind prog_bind gets lift]. rewrite Hp. unfold _assert_private_directory. rewrite Hp. cbn.
  intros [= _ Hfold] h' e Hne He.
  destruct (scan_reads fs s h' e "A cleanup ledger entry disappeared while checking baseline token replay." Hs He)
    as (p & Ep & Hv & Hin & Eh).
  pose proof (foldM_unit _ _ _ Hfold h' Hin) as Hstep. unfold token_unused_by in Hstep.
  rewrite Ep, bind_ok, (vw_handle _ _ Hv), is_str_VStr, (vw_token _ _ Hv), is_str_VStr in Hstep.
  rewrite Eh, bool_decide_false in Hstep by done. apply require_Ok in Hstep.
  by apply negb_true_iff, bool_decide_eq_false in Hstep.
Qed.

Lemma no_other_fact fs r :
  triple (at_files fs) (_assert_no_other_executor_active self r)
    (λ _ s, (∀ h e, entry_at fs h e → live e → e_run e = r → e_executor e = executor_id self) ∧
            at_files fs s) Inv.
Proof.
  apply (triple_value _ (at_files fs) (λ _, ∀ h e, entry_at fs h e → live e → e_run e = r →
           e_executor e = executor_id self)); [mild|auto with keeps|eauto|].
  intros s s' [] Hs. pose proof Hs as [[Hp _] _]. unfold private in Hp.
  unfold _assert_no_other_executor_active, _iter_cleanup_ledger_paths.
  cbv [mbind prog_bind gets lift mret prog_ret]. rewrite Hp. unfold _assert_private_directory. rewrite Hp. cbn.
  intros [= _ Hfold] h e He Hl Hr.
  destruct (scan_reads fs s h e "A cleanup ledger entry disappeared while checking executor ownership." Hs He)
    as (p & Ep & Hv & Hin & Eh).
  pose proof (foldM_unit _ _ _ Hfold h Hin) as Hstep. unfold no_conflict_with in Hstep.
  rewrite Ep, bind_ok, (vw_run _ _ Hv), (vw_state _ _ Hv) in Hstep. cbn [py_str] in Hstep.
  rewrite (bool_decide_true _ Hr) in Hstep. cbn [negb] in Hstep.
  assert (_ledger_executor_id p = Ok (e_executor e)) as Ex.
  { unfold _ledger_executor_id. rewrite (vw_executor _ _ Hv).
    destruct Hs as [HI Hf]. rewrite <- Hf in He. destruct (Inv_handle _ _ _ HI He) as (_ & Hne & _).
    by rewrite (proj2 (nonempty_true _) Hne). }
  rewrite Ex, bind_ok in Hstep. case_bool_decide; [done|].
  apply require_Ok in Hstep. apply negb_true_iff, bool_decide_eq_false in Hstep. destruct Hstep.
  unfold live, LIVE, ACTIVE_STATES in *. rewrite !elem_of_cons in *. tauto.
Qed.

(** What reading the handle's entry for a creation tells. *)
Lemma read_for_create_fact fs h :
  triple (at_files fs) (_read_ledger_for_create (W:=W) h)
    (λ o s, (HANDLE_RE h = true ∧ (∀ p, o = Some p → ∃ e, entry_at fs h e ∧ viewed p e)) ∧
            at_files fs s) Inv.
Proof.
  apply (triple_value _ (at_files fs) (λ o, HANDLE_RE h = true ∧
    ∀ p, o = Some p → ∃ e, entry_at fs h e ∧ viewed p e)); [mild|auto with keeps|eauto|].
  intros s s' o Hs. pose proof Hs as [HI Hf]. pose proof HI as [Hp _]. unfold private in Hp.
  unfold _read_ledger_for_create, _validate_handle, demand.
  cbv [mbind prog_bind gets lift mret prog_ret]. destruct (HANDLE_RE h); [|done]. cbn [require].
  rewrite in_private, Hf by done. destruct (fs !! h) as [n|] eqn:En; [|by intros [= _ <-]].
  unfold _assert_private_directory. rewrite Hp. cbn [demand require].
  assert (ledger_files s !! h = Some n) as En' by by rewrite Hf.
  destruct (Inv_entry _ _ _ HI En') as (e & He & Hfe & _).
  unfold read_entry. cbv [mbind prog_bind gets lift]. rewrite in_private, En' by done.
  destruct (read_private n "cleanup ledger entry" "UNKNOWN_CLEANUP_HANDLE" UNKNOWN_HANDLE e Hfe)
    as (p & Er & Hv & _).
  unfold demand. cbn -[_read_private_json_file]. rewrite Er. intros [= _ <-]. split; [done|].
  intros p' [= <-]. exists e. by rewrite <- Hf.
Qed.

(** The handle is free, or its experiment is known to be absent. *)
Lemma runtime_fact fs q existing :
  triple (at_files fs)
    (_assert_create_runtime_gates self q (_is_retriable_absent_uncertainty existing))
    (λ _ s, (fs !! q_cleanup_handle q = None ∨ _is_retriable_absent_uncertainty existing = true) ∧
            at_files fs s) Inv.
Proof.
  unfold _assert_create_runtime_gates. do 8 (let v := fresh "v" in pass v).
  eapply (triple_bind _ _ _ (λ d s, (in_folder d (q_cleanup_handle q) = fs !! q_cleanup_handle q) ∧
            at_files fs s)).
  { apply triple_gets. intros s [HI Hf]. split; [|by split]. by rewrite in_private, Hf by apply HI. }
  intros d. apply triple_pure. intros ->.
  apply triple_lift; [|by intros s [? _]]. intros s [] Hs Hd. split; [|done].
  apply require_Ok in Hd. apply orb_true_iff in Hd as [Hd%bool_decide_eq_true|Hd]; auto.
Qed.

Record create_facts (fs : gmap string node) (q : CreateRequest) : Prop := {
  cf_handle : HANDLE_RE (q_cleanup_handle q) = true;
  cf_slot : ∀ e, entry_at fs (q_cleanup_handle q) e → e_retriable e = true;
  cf_token : ∀ h' e, h' ≠ q_cleanup_handle q → entry_at fs h' e →
    e_token e ≠ hexdigest (q_baseline_gate_token q) }.

Lemma request_facts fs q existing : HANDLE_RE (q_cleanup_handle q) = true →
  (∀ p, existing = Some p → ∃ e, entry_at fs (q_cleanup_handle q) e ∧ viewed p e) →
  triple (at_files fs) (request_gates errors utc_now kill0 self q (_is_retriable_absent_uncertainty existing))
    (λ _ s, create_facts fs q ∧ at_files fs s) Inv.
Proof.
  intros Hre Hex. unfold request_gates.
  eapply triple_bind; [apply runtime_fact|]. intros u. apply triple_pure. intros Hslot.
  pass ck. pass u1. pass u2. pass u3. pass u4. pass devs. pass cap.
  eapply triple_bind; [apply unused_fact|]. intros u5. apply triple_pure. intros Htok.
  apply triple_ret. intros s Hs. split; [|done]. split; [done| |done].
  intros e He. destruct Hslot as [Hn|Hr].
  - destruct He as (n & Hn' & _). congruence.
  - destruct existing as [p|]; [|done]. destruct (Hex p eq_refl) as (e' & He' & Hv).
    rewrite (entry_at_inj _ _ _ _ He He'). by rewrite <- (vw_retriable _ _ Hv).
Qed.

(** ** Creation *)

(** While an entry is not in the retriable state, any key but these may be set. *)
Definition IDENTITY_KEYS : list string :=
  ["cleanup_handle"; "executor_id"; "run_id"; "baseline_gate_token_sha256"; "state"; "namespace";
   "experiment_name"; "target_name"; "target_uid"; "deadline_at"].

Lemma viewed_settled k v p e : bool_decide (k ∈ IDENTITY_KEYS) = false →
  e_state e ≠ "operation_outcome_unknown" → viewed p e → viewed (dset k v p) e.
Proof.
  intros Hk%bool_decide_eq_false Hst Hp.
  assert (∀ k', bool_decide (k' ∈ IDENTITY_KEYS) = true → vget (dset k v p) k' = vget p k') as Hg.
  { intros k' Hk'%bool_decide_eq_true. apply vget_dset_ne. by intros ->. }
  split; try (rewrite Hg by reflexivity; by destruct Hp).
  rewrite <- (vw_retriable _ _ Hp).
  rewrite (retriable_state p (e_state e)) by (by destruct Hp). apply (retriable_state _ (e_state e)); [|done].
  rewrite Hg by done. by destruct Hp.
Qed.

(** [settle] sets the keys that do not identify an entry. *)
Ltac settle := repeat (apply viewed_settled; [reflexivity|done|]).

Record pending_entry (q : CreateRequest) (e : Entry) : Prop := {
  pe_handle : e_handle e = q_cleanup_handle q;
  pe_executor : e_executor e = executor_id self;
  pe_run : e_run e = q_run_id q;
  pe_token : e_token e = hexdigest (q_baseline_gate_token q);
  pe_state : e_state e = "pending_apply";
  pe_retriable : e_retriable e = false }.

Lemma new_ledger_viewed q n (s s' : Gateway W) p : new_ledger utc_now self q n s = (s', Ok p) →
  ∃ e, viewed p e ∧ pending_entry q e.
Proof.
  unfold new_ledger. cbv [mbind prog_bind mret prog_ret _now_iso _now_utc]. intros [= _ <-].
  set (t := DateTime _ _). eexists {| e_deadline := isoformat t |}. split; [split; reflexivity|].
  split; reflexivity.
Qed.

Definition no_conflict (fs : gmap string node) (q : CreateRequest) : Prop :=
  ∀ h e, entry_at fs h e → live e → e_run e = q_run_id q → e_executor e = executor_id self.

Lemma fresh_from_facts fs q e e' : create_facts fs q → no_conflict fs q → pending_entry q e →
  e_handle e' = e_handle e → e_executor e' = e_executor e → e_run e' = e_run e →
  e_token e' = e_token e → fresh_ok fs (q_cleanup_handle q) e'.
Proof.
  intros [H1 H2 H3] H4 [E1 E2 E3 E4 _ _] G1 G2 G3 G4. split.
  - by rewrite G1, G2, E1, E2.
  - done.
  - rewrite G4, E4. done.
  - rewrite G2, G3, E2, E3. eauto.
Qed.

Lemma triple_catch {A} (m : gw A) P (Q : A → Gateway W → Prop) E E' h :
  triple P m Q E → (∀ x, triple E (h x) Q E') → triple P (catch m h) Q E'.
Proof.
  intros Hm Hh s Hs. specialize (Hm s Hs). unfold catch. destruct (m s) as [s' [a|x]]; [done|].
  by apply Hh.
Qed.

(** The entry is there before the executor is asked. *)
Lemma triple_do_create q p e m k : pending_entry q e →
  triple (λ s, holds (q_cleanup_handle q) p e s ∧ creates (q_cleanup_handle q) (gw_trace s) = 0%nat)
    (do_create self (q_cleanup_handle q) m k) (λ _ s, holds (q_cleanup_handle q) p e s)
    (holds (q_cleanup_handle q) p e).
Proof.
  intros Hpe. unfold do_create. set (h := q_cleanup_handle q).
  apply (triple_bind _ _ _ (λ _ s, holds h p e s)).
  - apply triple_modify. intros s [([Hpr Hi] & He & Hp) H0]. split_and!; try done. split; [done|].
    change (in_folder (gw_ledger s) h) with (in_folder (gw_ledger s) h). cbn.
    rewrite in_private by done. destruct Hpe.
    apply (ledger_inv_create _ _ _ h _ e); try done.
  - intros []. apply triple_mild; [mild|auto with keeps].
Qed.

Lemma triple_create_or_fail q p e failed m k ck : pending_entry q e →
  viewed failed (in_state e "create_failed") →
  triple (λ s, holds (q_cleanup_handle q) p e s ∧ creates (q_cleanup_handle q) (gw_trace s) = 0%nat)
    (create_or_fail utc_now disk self (q_cleanup_handle q) failed m k ck)
    (λ _ s, holds (q_cleanup_handle q) p e s) Inv.
Proof.
  intros Hpe Hf. unfold create_or_fail. eapply triple_catch; [by apply triple_do_create|].
  intros x. pass t. set (f := dict_update failed _).
  assert (viewed f (in_state e "create_failed")) as Hf'.
  { cbn. by apply viewed_dset. }
  eapply triple_bind; [apply (triple_write_end (q_cleanup_handle q) p f e "create_failed"); [by apply not_live|done]|].
  intros []. pass u. apply triple_lift; [done|eauto].
Qed.

Definition applied_entry (e : Entry) (r : ExperimentRecord) : Entry := {|
  e_handle := e_handle e; e_executor := e_executor e; e_run := e_run e; e_token := e_token e;
  e_state := "active"; e_namespace := e_namespace e; e_name := rec_name r; e_target := e_target e;
  e_uid := e_uid e; e_deadline := e_deadline e; e_retriable := false |}.

Lemma viewed_name r p e : viewed p (in_state e "active") →
  viewed (dset "experiment_name" (VStr (rec_name r)) p) (applied_entry e r).
Proof.
  intros []. split; try (rewrite vget_dset_ne by done; done); try apply vget_dset_eq.
  apply (retriable_state _ "active"); [|done]. by rewrite vget_dset_ne.
Qed.

Lemma applied_viewed p e r h (s s' : Gateway W) p' : viewed p e →
  applied_ledger utc_now p r h s = (s', Ok p') → viewed p' (applied_entry e r).
Proof.
  intros Hp. unfold applied_ledger. cbv [mbind prog_bind mret prog_ret].
  destruct (running r); cbn; intros [= _ <-]; settle; apply viewed_name; settle;
    by apply viewed_state.
Qed.

Lemma triple_applied q p l e r : viewed l e → pending_entry q e →
  triple (holds (q_cleanup_handle q) p e) (applied_ledger utc_now l r (q_cleanup_handle q))
    (λ a s, viewed a (applied_entry e r) ∧ holds (q_cleanup_handle q) p e s) Inv.
Proof.
  intros Hl _. apply (triple_value _ (holds (q_cleanup_handle q) p e)); [mild|auto with keeps|eauto|].
  intros s s' a _ H. by eapply applied_viewed.
Qed.

Lemma triple_write_applied q p p' e r : viewed p' (applied_entry e r) → pending_entry q e →
  triple (holds (q_cleanup_handle q) p e) (_write_ledger disk (q_cleanup_handle q) p')
    (λ _ s, holds (q_cleanup_handle q) p' (applied_entry e r) s) Inv.
Proof.
  intros Hp' Hpe. eapply triple_pre; [|by apply triple_write_update].
  intros s (HI & He & _). split; [done|]. split. exists e. split_and!; try done.
  intros _. unfold live. rewrite (pe_state _ _ Hpe). unfold LIVE. rewrite !elem_of_cons. auto.
Qed.

Lemma Inv_apply fs q l e m ck : viewed l e → pending_entry q e → create_facts fs q → no_conflict fs q →
  triple (at_files fs) (apply_creation utc_now disk self q l m ck) (λ _, Inv) Inv.
Proof.
  intros Hl Hpe Hf Hc. unfold apply_creation. pose proof (pe_state _ _ Hpe) as Hst.
  assert (e_state e ≠ "operation_outcome_unknown") as Hne by by rewrite Hst.
  set (l' := dict_update l [("operation_outcome", VStr "unknown")]).
  assert (viewed l' e) as Hl' by by apply viewed_settled.
  eapply (triple_bind _ _ _ (λ _ s, holds (q_cleanup_handle q) l' e s ∧
                                    creates (q_cleanup_handle q) (gw_trace s) = 0%nat)).
  { eapply triple_pre; [|by apply triple_write_fresh]. intros s [HI <-]. split; [done|].
    by eapply fresh_from_facts. }
  intros []. eapply triple_bind; [apply triple_create_or_fail; [done|]|].
  { cbn. apply viewed_settled; [done..|]. by apply viewed_state. }
  intros r. eapply triple_bind; [by apply (triple_applied q l' l e r)|]. intros a. apply triple_pure.
  intros Ha. eapply triple_bind; [by apply triple_write_applied|]. intros []. apply triple_ret. eauto.
Qed.

Lemma in_state_same e st : e_state e = st → e_retriable e = false → in_state e st = e.
Proof. destruct e. cbn. by intros; subst. Qed.

Lemma Inv_hidden fs q v l e m ck : viewed l e → pending_entry q e → create_facts fs q → no_conflict fs q →
  triple (at_files fs) (hidden_creation utc_now disk self v (q_cleanup_handle q) l m (q_kubeconfig q) ck)
    (λ _, Inv) Inv.
Proof.
  intros Hl Hpe Hf Hc. unfold hidden_creation. pose proof (pe_state _ _ Hpe) as Hst.
  assert (e_state e ≠ "operation_outcome_unknown") as Hne by by rewrite Hst.
  pass t. set (l' := dict_update l (_ ++ injected v ++ [("updated_at", t)])).
  assert (viewed l' e) as Hl'.
  { rewrite <- (in_state_same e _ Hst (pe_retriable _ _ Hpe)). unfold l'. cbn. settle.
    by apply viewed_state. }
  eapply (triple_bind _ _ _ (λ _ s, holds (q_cleanup_handle q) l' e s ∧
                                    creates (q_cleanup_handle q) (gw_trace s) = 0%nat)).
  { eapply triple_pre; [|by apply triple_write_fresh]. intros s [HI <-]. split; [done|].
    by eapply fresh_from_facts. }
  intros []. eapply triple_bind; [apply triple_create_or_fail; [done|]|].
  { cbn. settle. by apply viewed_state. }
  intros r. eapply triple_bind; [by apply (triple_applied q l' l e r)|]. intros a. apply triple_pure.
  intros Ha. eapply triple_bind; [apply triple_write_applied; [|done]|].
  { cbn. settle. exact Ha. }
  intros []. apply triple_lift; [done|eauto].
Qed.

(** The entry of an experiment that was never asked for. *)
Definition absent_entry (e : Entry) : Entry := {|
  e_handle := e_handle e; e_executor := e_executor e; e_run := e_run e; e_token := e_token e;
  e_state := "operation_outcome_unknown"; e_namespace := e_namespace e; e_name := e_name e;
  e_target := e_target e; e_uid := e_uid e; e_deadline := e_deadline e; e_retriable := true |}.

Lemma Inv_absent fs q l e ck : viewed l e → pending_entry q e → create_facts fs q → no_conflict fs q →
  triple (at_files fs) (absent_outcome utc_now disk self "D6-A" (q_cleanup_handle q) l ck) (λ _, Inv) Inv.
Proof.
  intros Hl Hpe Hf Hc. unfold absent_outcome. pass t. pass u.
  eapply (triple_bind _ _ _ (λ a s, viewed a (absent_entry e) ∧ at_files fs s)).
  { apply (triple_value _ (at_files fs)); [mild|auto with keeps|eauto|].
    intros s s' a _ H. eapply append_viewed; [|exact H]. destruct Hl.
    split; unfold _is_retriable_absent_uncertainty; cbn [injected app dict_update foldl fst snd];
      repeat first [rewrite vget_dset_eq | rewrite vget_dset_ne by done]; done. }
  intros a. apply triple_pure. intros Ha. apply (triple_bind _ _ _ (λ _, Inv)).
  - eapply triple_pre; [|eapply triple_post; [by apply triple_write_fresh| |done]].
    + intros s [HI <-]. split; [done|]. by eapply (fresh_from_facts _ _ e).
    + intros [] s [Hh _]. by eapply holds_Inv.
  - intros []. by apply triple_lift.
Qed.

Lemma Inv_create q : triple Inv (_create_experiment_locked errors utc_now disk kill0 self q) (λ _, Inv) Inv.
Proof.
  intros s0 H0. set (fs := ledger_files s0).
  enough (triple (at_files fs) (_create_experiment_locked errors utc_now disk kill0 self q) (λ _, Inv) Inv)
    as H by (apply H; by split).
  unfold _create_experiment_locked.
  eapply triple_bind; [apply read_for_create_fact|]. intros existing. apply triple_pure. intros [Hre Hex].
  eapply triple_bind; [by apply request_facts|]. intros [[ck devs] cap]. apply triple_pure. intros Hf.
  pass u. pass u1. eapply triple_bind; [apply no_other_fact|]. intros u2. apply triple_pure. intros Hc.
  pass n. pass u3. pass m.
  eapply (triple_bind _ _ _ (λ l s, (∃ e, viewed l e ∧ pending_entry q e) ∧ at_files fs s)).
  { apply (triple_value _ (at_files fs)); [mild|auto with keeps|eauto|].
    intros s s' l _ H. by eapply new_ledger_viewed. }
  intros l. apply triple_pure. intros (e & Hl & Hpe).
  eapply (triple_bind _ _ _ (λ v s, at_files fs s)); [apply triple_weak; [mild|auto with keeps|eauto]|].
  intros v. assert (triple (at_files fs) (r ← apply_creation utc_now disk self q l m ck;
    mret (created_answer q r devs n)) (λ _, Inv) Inv) as Happly.
  { eapply triple_bind; [by eapply Inv_apply|]. intros r. by apply triple_ret. }
  destruct v as [v|]; [|exact Happly]. destruct (_uncertainty_already_injected existing); [exact Happly|].
  unfold _create_experiment_with_unknown_outcome. case_bool_decide as Ev.
  - rewrite Ev. by eapply Inv_absent.
  - case_match; [by eapply Inv_hidden|]. apply triple_lift; [done|eauto].
Qed.

(** ** The locked methods *)

(** What holds between calls: the ledger's directory may not exist yet. *)
Definition Rest s : Prop := ledger_inv (ledger_files s) (gw_trace s).

Lemma Rest_quiet {A} (m : gw A) : quiet m → triple Rest m (λ _, Rest) Rest.
Proof.
  intros Hm s Hs. destruct (Hm s) as [E _]. unfold frame in E. injection E as E1 E2 _ _ _.
  assert (Rest (m s).1) as H by (unfold Rest; by rewrite E1, E2). by destruct (m s) as [s' []].
Qed.

Lemma ensure_makes_private s s' u : _ensure_private_ledger_directory disk s = (s', Ok u) → private s'.
Proof.
  unfold _ensure_private_ledger_directory, _assert_private_directory, write, disk_outcome, private.
  cbv [mbind prog_bind gets lift modify mret].
  destruct (present (gw_ledger s)) as [[real mode]|] eqn:Ep; cbn.
  - destruct real; [|done]. destruct (Z.eqb_spec mode 448) as [->|]; [|done]. by intros [= <-].
  - destruct (disk (gw_clock s)); try done. by intros [= <-].
Qed.

Lemma ensure_private :
  triple Rest (_ensure_private_ledger_directory disk) (λ _ s, private s ∧ Rest s) Rest.
Proof.
  intros s Hs. destruct (quiet_ensure s) as [E _]. unfold frame in E. injection E as E1 E2 _ _ _.
  assert (Rest (_ensure_private_ledger_directory disk s).1) as HR by (unfold Rest; by rewrite E1, E2).
  destruct (_ensure_private_ledger_directory disk s) as [s' [[]|x]] eqn:Er; [|exact HR].
  split; [by eapply ensure_makes_private|exact HR].
Qed.

Lemma locked {A} (body : gw A) : triple Inv body (λ _, Inv) Inv →
  triple Rest (with_ledger_lock disk body) (λ _, Rest) Rest.
Proof.
  intros Hb. unfold with_ledger_lock. eapply triple_bind; [exact ensure_private|]. intros [].
  eapply (triple_bind _ _ _ (λ _ s, Inv s)).
  - intros s [Hp Hs]. destruct (quiet_open_lock s) as [E Hpp]. unfold frame in E. injection E as E1 E2 _ _ _.
    destruct (open_lock s) as [s' [[]|x]]; cbn [fst] in *; unfold Inv, Rest; rewrite E1, E2; auto.
  - intros []. eapply triple_post; [apply Hb|by intros a s [_ ?]|by intros s [_ ?]].
Qed.

(** A locked method that returns ran its body where the invariant holds, on the same files. *)
Lemma lock_opens {A} (body : gw A) s s' a : Rest s → with_ledger_lock disk body s = (s', Ok a) →
  ∃ s1, Inv s1 ∧ frame s1 = frame s ∧ body s1 = (s', Ok a).
Proof.
  intros HR. unfold with_ledger_lock. rewrite prog_bind_eq.
  pose proof (ensure_private s HR) as He. destruct (quiet_ensure s) as [E1 _].
  destruct (_ensure_private_ledger_directory disk s) as [s1 [[]|]]; [|done]. cbn [fst] in E1.
  rewrite prog_bind_eq. destruct (quiet_open_lock s1) as [E2 Hp2].
  destruct (open_lock s1) as [s2 [[]|]]; [|done]. cbn [fst] in E2, Hp2. intros Hb. exists s2.
  destruct He as [Hpr HR1]. split_and!; [|congruence|done]. split; [auto|].
  unfold frame in E2. injection E2 as Ef Et _ _ _. unfold Rest in HR1. by rewrite Ef, Et.
Qed.
End service_inv.

#[export] Hint Resolve quiet_outcome quiet_ensure : quiet.
#[export] Hint Resolve mild_fence mild_unfence mild_delete mild_clear_fence mild_clear_if_none
  mild_delete_verify mild_bind_baseline : mild.
#[export] Hint Resolve keeps_holds keeps_near keeps_at : keeps.
