(* ===== verification/ChaosDelete.v ===== *)
(** * Deletion

    What a deletion checks before it deletes and before it returns, and which programs ask the
    cluster for nothing. *)

From S2P Require Import Prelude PyFloat PyVal PyTime PyIso Safety ConditionPolicy PlanSchema.
From S2P Require Import Sha256 Hoare ChaosGates ChaosLedger ChaosService ChaosEntries ChaosInv.

#[local] Open Scope Z_scope.

(** ** The record of an entry *)

Record record_of (r : ExperimentRecord) (p : mapping) : Prop := {
  ro_owner : rec_owner r = Some OWNER_VALUE;
  ro_run : vget p "run_id" = VStr (rec_run_id r);
  ro_uid : vget p "target_uid" = VStr (rec_target_uid r);
  ro_namespace : vget p "namespace" = VStr (rec_namespace r);
  ro_name : vget p "experiment_name" = VStr (rec_name r) }.

Lemma all_equal_cons p s k l : all_equal p ((s, k) :: l) = Ok true ↔
  vget p k = VStr s ∧ all_equal p l = Ok true.
Proof.
  cbn [all_equal]. unfold vitem, vget. destruct (dget k p) as [v|]; [|split; [done|by intros [? _]]].
  cbn [opt_or_raise default from_option id]. rewrite bind_ok. cbv beta. destruct (is_str v s) eqn:E.
  - apply is_str_true in E. split; [done|by intros [_ ?]].
  - split; [done|]. intros [H%is_str_true _]. congruence.
Qed.

Lemma record_matches_iff r p : _record_matches_ledger r p = Ok true ↔ record_of r p.
Proof.
  unfold _record_matches_ledger, owned. case_bool_decide as Ho.
  - rewrite !all_equal_cons. split; [by intros (? & ? & ? & ? & _)|by intros []].
  - split; [done|by intros []].
Qed.

(** ** Deletion *)

Section delete.
Context {W : Type} (self : Service W).
Implicit Types (s : Gateway W).

(** The deletion of the experiment [n] of [ns] was asked for from the world [w], as the entry
    allows; reading the live record leaves [w1]. *)
Record delete_allowed (p : mapping) (k ns n : string) (w w1 : W) : Prop := {
  da_executor : vget p "executor_id" = VStr (executor_id self) ∧ executor_id self ≠ "";
  da_namespace : ledger_str p "namespace" = Ok ns;
  da_name : ledger_str p "experiment_name" = Ok n;
  da_record : ∃ found, backend_get (backend self) ns n k w = (w1, Ok found) ∧
    ∀ r, found = Some r → record_of r p }.

(** The executor deleted it and found it absent, and then the fence was taken away. *)
Definition deleted (p : mapping) (k ns n : string) (w1 : W) (tr tr' : list Mutation) : Prop :=
  ∃ w2 w3 tn u, delete_experiment (backend self) ns n k w1 = (w2, Ok tt) ∧
    backend_get (backend self) ns n k w2 = (w3, Ok None) ∧
    ledger_str p "target_name" = Ok tn ∧ ledger_str p "target_uid" = Ok u ∧
    tr' = MUnfence ns tn u :: MDelete (executor_id self) ns n :: tr.

Lemma executor_id_inv p x : _ledger_executor_id p = Ok x → vget p "executor_id" = VStr x ∧ x ≠ "".
Proof.
  unfold _ledger_executor_id. destruct (vget p "executor_id") as [| | | |s| |]; try done.
  destruct (nonempty s) eqn:E; [|done]. intros [= ->]. by apply nonempty_true in E.
Qed.

Lemma clear_fence_run p k ns s s' r : ledger_str p "namespace" = Ok ns →
  clear_ledger_fence self p k s = (s', r) →
  (gw_trace s' = gw_trace s ∧ is_ok r = false) ∨
  ∃ tn u, ledger_str p "target_name" = Ok tn ∧ ledger_str p "target_uid" = Ok u ∧
          gw_trace s' = MUnfence ns tn u :: gw_trace s.
Proof.
  unfold clear_ledger_fence. cbv [mbind prog_bind lift]. intros ->.
  destruct (ledger_str p "target_name") as [tn|]; [|intros [= <- <-]; by left].
  destruct (ledger_str p "target_uid") as [u|]; [|intros [= <- <-]; by left].
  unfold do_unfence, on_backend. cbv [mbind prog_bind modify].
  destruct (clear_target_fence _ _ _ _ _ _) as [w x]. intros [= <- <-]. right. by exists tn, u.
Qed.

(** Every run of a deletion: refused with nothing done, or issued for the entry's own
    experiment and not confirmed, or confirmed. *)
Lemma delete_run p k s s' r : _delete_and_verify_from_ledger self p k s = (s', r) →
  (gw_trace s' = gw_trace s ∧ is_ok r = false) ∨
  ∃ ns n w1, delete_allowed p k ns n (gw_world s) w1 ∧
    ((gw_trace s' = MDelete (executor_id self) ns n :: gw_trace s ∧ is_ok r = false) ∨
     deleted p k ns n w1 (gw_trace s) (gw_trace s')).
Proof.
  unfold _delete_and_verify_from_ledger. rewrite prog_bind_eq. unfold lift at 1.
  destruct (_ledger_executor_id p) as [x|] eqn:Ex; [|intros [= <- <-]; by left].
  apply executor_id_inv in Ex as [Ex Hne]. rewrite prog_bind_eq. unfold lift at 1, demand.
  case_bool_decide as Hx; cbn [require]; [|intros [= <- <-]; by left]. subst x.
  rewrite prog_bind_eq. unfold lift at 1. destruct (ledger_str p "namespace") as [ns|] eqn:Ens;
    [|intros [= <- <-]; by left].
  rewrite prog_bind_eq. unfold lift at 1. destruct (ledger_str p "experiment_name") as [n|] eqn:En;
    [|intros [= <- <-]; by left].
  rewrite prog_bind_eq. unfold live_record at 1, on_backend at 1.
  destruct (backend_get (backend self) ns n k (gw_world s)) as [w1 [found|]] eqn:Eg;
    [|intros [= <- <-]; by left].
  rewrite prog_bind_eq. unfold lift at 1.
  destruct (match found with None => _ | Some r0 => _ end) as [[]|] eqn:Ef; [|intros [= <- <-]; by left].
  assert (delete_allowed p k ns n (gw_world s) w1) as Hal.
  { split; try done. exists found. split; [done|]. intros r0 ->.
    apply bind_Ok_inv in Ef as (b & Em & ->%require_Ok). by apply record_matches_iff. }
  intros Hrun. right. exists ns, n, w1. split; [done|]. revert Hrun.
  unfold do_delete, on_backend. rewrite !prog_bind_eq. cbn [modify gw_world record set_world].
  destruct (delete_experiment _ _ _ _ _) as [w2 [[]|]] eqn:Ed; [|intros [= <- <-]; by left].
  rewrite prog_bind_eq. unfold live_record, on_backend. cbn [gw_world set_world].
  destruct (backend_get (backend self) ns n k w2) as [w3 [[found'|]|]] eqn:Eg';
    try (intros [= <- <-]; by left).
  rewrite prog_bind_eq. cbn [lift demand require].
  intros [[-> ->]|(tn & u & E1 & E2 & ->)]%(clear_fence_run _ _ _ _ _ _ Ens); [by left|right].
  by exists w2, w3, tn, u.
Qed.

(** The deletion of an entry's experiment, as the entry is held. *)
Definition deletes (p : mapping) (e : Entry) (tr tr' : list Mutation) : Prop := ∃ k w w1,
  delete_allowed p k (e_namespace e) (e_name e) w w1 ∧
  deleted p k (e_namespace e) (e_name e) w1 tr tr'.

(** The experiment of the entry is gone: the executor was asked for it and found nothing or the
    entry's own experiment, it was asked to delete it, then found it absent, and then the
    target's fence was taken away. *)
Definition gone (e : Entry) (tr tr' : list Mutation) : Prop := ∃ k w w1 w2 w3,
  delete_experiment (backend self) (e_namespace e) (e_name e) k w1 = (w2, Ok tt) ∧
  backend_get (backend self) (e_namespace e) (e_name e) k w2 = (w3, Ok None) ∧
  (∃ found, backend_get (backend self) (e_namespace e) (e_name e) k w = (w1, Ok found) ∧
     ∀ r, found = Some r → rec_owner r = Some OWNER_VALUE ∧ rec_run_id r = e_run e ∧
       rec_target_uid r = e_uid e ∧ rec_namespace r = e_namespace e ∧ rec_name r = e_name e) ∧
  tr' = MUnfence (e_namespace e) (e_target e) (e_uid e) ::
        MDelete (executor_id self) (e_namespace e) (e_name e) :: tr.

Lemma record_of_entry r p e : viewed p e → record_of r p → rec_owner r = Some OWNER_VALUE ∧
  rec_run_id r = e_run e ∧ rec_target_uid r = e_uid e ∧ rec_namespace r = e_namespace e ∧
  rec_name r = e_name e.
Proof. intros [] []. split_and!; congruence. Qed.

Lemma viewed_str p e : viewed p e → ledger_str p "namespace" = Ok (e_namespace e) ∧
  ledger_str p "experiment_name" = Ok (e_name e) ∧ ledger_str p "target_name" = Ok (e_target e) ∧
  ledger_str p "target_uid" = Ok (e_uid e).
Proof.
  assert (∀ k x, vget p k = VStr x → ledger_str p k = Ok x) as H.
  { intros k x. unfold vget, ledger_str, vitem. destruct (dget k p); [|done]. cbn. by intros ->. }
  intros []. auto.
Qed.

Lemma deletes_gone p e tr tr' : viewed p e → deletes p e tr tr' →
  e_executor e = executor_id self ∧ gone e tr tr'.
Proof.
  intros Hp (k & w & w1 & [[Hx _] _ _ (found & Hg & Hr)] & w2 & w3 & tn & u & Hd & Ha & Etn & Eu & ->).
  destruct (viewed_str p e Hp) as (_ & _ & Etn' & Eu'). split.
  - rewrite (vw_executor _ _ Hp) in Hx. by injection Hx.
  - rewrite Etn in Etn'. rewrite Eu in Eu'. injection Etn' as ->. injection Eu' as ->.
    exists k, w, w1, w2, w3. split_and!; [done|done| |done]. exists found. split; [done|].
    intros r Hf. by apply (record_of_entry _ p), Hr.
Qed.

(** What a deletion of the entry's experiment has asked for: nothing, the deletion, or the deletion
    and, the experiment being gone, the end of the fence. *)
Definition cleaned_up (e : Entry) (tr tr' : list Mutation) : Prop :=
  tr' = tr ∨ tr' = MDelete (executor_id self) (e_namespace e) (e_name e) :: tr ∨ gone e tr tr'.

Lemma delete_outcome p e k s s' r : viewed p e → _delete_and_verify_from_ledger self p k s = (s', r) →
  if is_ok r then deletes p e (gw_trace s) (gw_trace s') else cleaned_up e (gw_trace s) (gw_trace s').
Proof.
  intros Hp E. destruct (viewed_str p e Hp) as (Ens & En & _).
  destruct (delete_run _ _ _ _ _ E) as [[Ht Hr]|(ns & n & w1 & Hal & [[Ht Hr]|Hd])].
  - rewrite Hr. by left.
  - destruct Hal as [Hx Hns Hn _]. rewrite Hns in Ens. rewrite Hn in En.
    injection Ens as ->. injection En as ->. rewrite Hr. by right; left.
  - destruct Hal as [Hx Hns Hn Hrec]. rewrite Hns in Ens. rewrite Hn in En.
    injection Ens as ->. injection En as ->.
    assert (deletes p e (gw_trace s) (gw_trace s')) as Hdel by (exists k, (gw_world s), w1; by split).
    destruct (is_ok r); [done|]. right; right. by apply (deletes_gone p).
Qed.
End delete.

(** ** Programs that mutate nothing in the cluster *)

Section still.
Context {W : Type} (utc_now : nat → Z) (disk : nat → DiskOutcome) (self : Service W).
#[local] Abbreviation gw := (prog (Gateway W)).

Definition still {A} (m : gw A) : Prop := ∀ s, gw_trace (m s).1 = gw_trace s.

Lemma still_bind {A B} (m : gw A) (f : A → gw B) : still m → (∀ a, still (f a)) → still (m ≫= f).
Proof.
  intros Hm Hf s. rewrite prog_bind_eq. specialize (Hm s). destruct (m s) as [s' [a|e]]; [|done].
  cbn in Hm. by rewrite Hf.
Qed.
Lemma still_quiet {A} (m : gw A) : quiet m → still m.
Proof. intros Hm s. destruct (Hm s) as [E _]. unfold frame in E. by injection E. Qed.
Lemma still_write h p : still (_write_ledger (W:=W) disk h p).
Proof.
  apply still_bind; [apply still_quiet; quiet|]. intros []. unfold write.
  apply still_bind; [apply still_quiet; quiet|]. intros []; [done|apply still_quiet; quiet|].
  apply still_bind; [done|]. intros []. apply still_quiet. quiet.
Qed.
Lemma still_observe p r : still (_observe_fault_window (W:=W) utc_now disk p r).
Proof.
  unfold _observe_fault_window. apply still_bind; [apply still_quiet; quiet|]. intros [|kv l]; [done|].
  apply still_bind; [apply still_quiet; quiet|]. intros h. apply still_bind; [apply still_quiet; quiet|].
  intros latest. apply still_bind; [apply still_write|by intros []].
Qed.
End still.
