(* ===== verification/ChaosSweep.v ===== *)
(** * The sweep, entry by entry

    What one turn of the sweep does to its entry, that it leaves the others alone, and what
    the whole loop has done: the entries it cleaned, the errors it reports, and the rest. *)

From S2P Require Import Prelude PyFloat PyVal PyTime PyIso Safety ConditionPolicy PlanSchema.
From S2P Require Import Sha256 Hoare ChaosGates ChaosLedger ChaosService ChaosEntries ChaosInv ChaosDelete.

#[local] Open Scope Z_scope.

(** ** Programs that change no file but one *)

Section one_file.
Context {W : Type} (utc_now : nat → Z) (disk : nat → DiskOutcome).
#[local] Abbreviation gw := (prog (Gateway W)).
Implicit Types (s : Gateway W) (fs : gmap string node).

Definition only {A} (h : string) (m : gw A) : Prop :=
  ∀ s h', h' ≠ h → ledger_files (m s).1 !! h' = ledger_files s !! h'.

Definition others (h : string) fs s : Prop := ∀ h', h' ≠ h → ledger_files s !! h' = fs !! h'.

Lemma only_bind {A B} h (m : gw A) (f : A → gw B) : only h m → (∀ a, only h (f a)) → only h (m ≫= f).
Proof.
  intros Hm Hf s h' Hne. rewrite prog_bind_eq. specialize (Hm s h' Hne).
  destruct (m s) as [s' [a|e]]; cbn [fst] in *; [|done]. by rewrite Hf.
Qed.

Lemma only_mild {A} h (m : gw A) : mild m → only h m.
Proof. intros Hm s h' _. by destruct (Hm s) as [-> _]. Qed.

Lemma only_attempt {A} h (m : gw A) : only h m → only h (attempt m).
Proof.
  intros Hm s h' Hne. specialize (Hm s h' Hne). unfold attempt.
  destruct (m s) as [s' [a|e]]; [done|]. by destruct (is_exception e).
Qed.

Lemma only_write h p : only h (_write_ledger (W:=W) disk h p).
Proof.
  apply only_bind; [apply only_mild; mild|]. intros []. unfold write.
  apply only_bind; [apply only_mild; mild|].
  assert (only h (modify (λ s, set_ledger (put_file h (json_file p) (gw_ledger s)) s))) as Hm.
  { intros s h' Hne. cbn. by rewrite lookup_insert_ne. }
  intros []; [done|apply only_mild; mild|]. apply only_bind; [done|]. intros []. apply only_mild. mild.
Qed.

Lemma handle_of p h : vget p "cleanup_handle" = VStr h →
  ledger_handle p = Ok h ∧ ledger_str p "cleanup_handle" = Ok h.
Proof.
  unfold vget, ledger_handle, ledger_str, vitem. destruct (dget _ p); [|done]. cbn. by intros ->.
Qed.

Lemma only_observe h p r : vget p "cleanup_handle" = VStr h →
  only h (_observe_fault_window utc_now disk p r).
Proof.
  intros [Hh _]%handle_of. unfold _observe_fault_window.
  apply only_bind; [apply only_mild; mild|]. intros [|kv l]; [done|].
  rewrite Hh. match goal with |- only _ (lift (Ok ?a) ≫= ?f) => change (only h (f a)) end. cbv beta.
  apply only_bind; [apply only_mild; mild|]. intros latest.
  apply only_bind; [apply only_write|]. by intros [].
Qed.

(** Programs that change no file but [h] and ask the cluster for nothing, seen from a state where
    the other files are those of [fs] and the trace is [tr]. *)
Definition beside (h : string) fs (tr : list Mutation) s : Prop := others h fs s ∧ gw_trace s = tr.

Lemma triple_only {A} h fs (m : gw A) P Q E : only h m → triple P m Q E →
  triple (λ s, P s ∧ others h fs s) m (λ a s, Q a s ∧ others h fs s) (λ s, E s ∧ others h fs s).
Proof.
  intros Hm Ht s [Hs Ho]. specialize (Ht s Hs). specialize (Hm s).
  assert (others h fs (m s).1) as Ho' by (intros h' Hne; rewrite Hm by done; by apply Ho).
  by destruct (m s) as [s' [a|e]].
Qed.

Lemma triple_beside {A} h fs tr (m : gw A) P Q E : only h m → still m → triple P m Q E →
  triple (λ s, P s ∧ beside h fs tr s) m (λ a s, Q a s ∧ beside h fs tr s) (λ s, E s ∧ beside h fs tr s).
Proof.
  intros Hm Hst Ht s (Hs & Ho & Htr). pose proof (triple_only h fs m P Q E Hm Ht s (conj Hs Ho)) as H.
  specialize (Hst s). unfold beside. destruct (m s) as [s' [a|e]]; cbn [fst] in *; naive_solver congruence.
Qed.

Lemma still_attempt {A} (m : gw A) : still m → still (attempt m).
Proof.
  intros Hm s. specialize (Hm s). unfold attempt. destruct (m s) as [s' [a|e]]; [done|].
  by destruct (is_exception e).
Qed.
End one_file.

(** ** One turn *)

Section turn.
Context {W : Type} (utc_now : nat → Z) (disk : nat → DiskOutcome) (self : Service W).
#[local] Abbreviation gw := (prog (Gateway W)).
Implicit Types (s : Gateway W) (fs : gmap string node).

(** An entry the sweep looks at, one it must clean at [t]. *)
Definition mine (e : Entry) : Prop := e_executor e = executor_id self ∧ e_state e ∈ SWEPT_STATES.
#[local] Instance mine_dec e : Decision (mine e).
Proof. unfold mine. apply _. Defined.
Definition past (t : datetime) (e : Entry) : Prop :=
  ∃ d, _parse_datetime (VStr (e_deadline e)) = Some d ∧ dt_wall d <= dt_wall t.
Definition due (t : datetime) (e : Entry) : Prop := mine e ∧ past t e.

Lemma expired_past t p e : viewed p e → expired t p = true ↔ past t e.
Proof.
  intros Hp. unfold expired, past. rewrite (vw_deadline _ _ Hp).
  destruct (_parse_datetime _) as [d|]; [|split; [done|intros (? & ? & _); done]].
  unfold later. rewrite negb_true_iff, Z.ltb_ge. split; [eauto|]. by intros (? & [= <-] & ?).
Qed.

Lemma executor_of p e : viewed p e → e_executor e ≠ "" → _ledger_executor_id p = Ok (e_executor e).
Proof.
  intros Hp Hne. unfold _ledger_executor_id. rewrite (vw_executor _ _ Hp).
  by rewrite (proj2 (nonempty_true _) Hne).
Qed.

(** What the sweep asks first of a document. *)
Lemma observe_asks k p e : viewed p e → e_executor e ≠ "" →
  (¬ mine e → sweep_observe utc_now disk self k p = mret None) ∧
  (mine e → ∀ s s', sweep_observe utc_now disk self k p s ≠ (s', Ok None)).
Proof.
  intros Hp Hne. unfold sweep_observe. rewrite (executor_of _ _ Hp Hne).
  unfold vget_or. pose proof (vw_state _ _ Hp) as Hst. unfold vget in Hst.
  destruct (dget "state" p) as [v|]; [|done]. cbn in Hst. subst v. cbn [from_option id py_str].
  unfold mine. split.
  - intros Hm. match goal with |- lift (Ok ?a) ≫= ?f = _ => change (f a = mret None) end. cbv beta.
    case_bool_decide; [|done]. cbn [negb]. rewrite bool_decide_false by tauto. done.
  - intros [Hx Hs] s s'. rewrite prog_bind_eq. cbn [lift].
    rewrite (bool_decide_true _ Hx), (bool_decide_true _ Hs). cbn [negb].
    rewrite !prog_bind_eq. unfold lift. destruct (ledger_str p "namespace"); [|done].
    rewrite prog_bind_eq. destruct (ledger_str p "experiment_name"); [|done].
    rewrite prog_bind_eq. destruct (live_record _ _ _ _ _) as [s1 [r|]]; [|done].
    rewrite prog_bind_eq. by destruct (_observe_fault_window _ _ _ _ _) as [s2 [p'|]].
Qed.

(** How a turn over the entry [e] of [h] may end, from a trace [tr]: the entry is left as it is and
    nothing was asked of the cluster; or it is due, its experiment is gone, and its state says so;
    or an error is reported, and at most its own deletion was asked for. *)
Inductive turn (t : datetime) (h : string) (e : Entry) fs tr (acc acc' : Sweep) s : Prop :=
  | turn_foreign : ¬ mine e → acc' = acc → ledger_files s !! h = fs !! h → gw_trace s = tr →
      turn t h e fs tr acc acc' s
  | turn_early : mine e → ¬ past t e → acc' = acc → entry_at (ledger_files s) h e → gw_trace s = tr →
      turn t h e fs tr acc acc' s
  | turn_cleaned : due t e → cleaned acc' = cleaned acc ++ [h] → sweep_errors acc' = sweep_errors acc →
      entry_at (ledger_files s) h (in_state e "expired_cleaned") → gone self e tr (gw_trace s) →
      turn t h e fs tr acc acc' s
  | turn_failed c : mine e → cleaned acc' = cleaned acc → sweep_errors acc' = sweep_errors acc ++ [(h, c)] →
      gw_trace s = tr ∨ due t e ∧ cleaned_up self e tr (gw_trace s) →
      turn t h e fs tr acc acc' s.

Definition before (h : string) (e : Entry) fs s : Prop :=
  Inv s ∧ entry_at (ledger_files s) h e ∧ ledger_files s = fs.

Lemma still_failed h p acc x : still (sweep_failed (W:=W) utc_now disk h p acc x).
Proof.
  unfold sweep_failed. apply still_bind; [|done]. apply still_attempt. case_match; [|done].
  case_match; [|done]. apply still_bind; [apply still_quiet; quiet|]. intros at_. apply still_write.
Qed.

Lemma still_sweep_observe k p : still (sweep_observe utc_now disk self k p).
Proof.
  unfold sweep_observe. apply still_bind; [done|]. intros o. case_match; [done|]. case_match; [done|].
  do 2 (apply still_bind; [done|intros ?]). apply still_bind; [apply still_quiet; quiet|intros ?].
  apply still_bind; [apply still_observe|done].
Qed.

(** What the cleaning of an entry has asked of the cluster, whether or not it returns. *)
Lemma sweep_clean_trace k p e s : viewed p e → let '(s', r) := sweep_clean utc_now disk self k p s in
  if is_ok r then gone self e (gw_trace s) (gw_trace s') else cleaned_up self e (gw_trace s) (gw_trace s').
Proof.
  intros Hp. unfold sweep_clean. rewrite prog_bind_eq.
  destruct (_delete_and_verify_from_ledger self p k s) as [s1 r1] eqn:E.
  pose proof (delete_outcome self p e k s s1 r1 Hp E) as H. destruct r1 as [[]|x]; cbn [is_ok] in H; [|done].
  apply (deletes_gone self p) in H as [_ H]; [|done].
  match goal with |- let '(_, _) := ?m s1 in _ => assert (still m) as Hst end.
  { apply still_bind; [apply still_quiet; quiet|]. intros d. apply still_bind; [apply still_quiet; quiet|].
    intros u. apply still_bind; [done|]. intros h. apply still_bind; [apply still_write|done]. }
  specialize (Hst s1). match goal with |- let '(_, _) := ?m s1 in _ => destruct (m s1) as [s' r] end.
  cbn [fst] in Hst. rewrite Hst. destruct (is_ok r); [done|]. by right; right.
Qed.

Lemma only_failed h p acc x : vget p "cleanup_handle" = VStr h →
  only h (sweep_failed (W:=W) utc_now disk h (Some p) acc x).
Proof.
  intros Hh. unfold sweep_failed. apply only_bind; [|done]. apply only_attempt. rewrite Hh. cbn [py_str].
  case_match; [|done]. apply only_bind; [apply only_mild; mild|]. intros at_. apply only_write.
Qed.

Lemma only_sweep_observe k h p : vget p "cleanup_handle" = VStr h →
  only h (sweep_observe utc_now disk self k p).
Proof.
  intros Hh. unfold sweep_observe. apply only_bind; [apply only_mild; mild|]. intros o.
  case_match; [done|]. case_match; [done|].
  do 3 (apply only_bind; [apply only_mild; mild|intros ?]).
  apply only_bind; [by apply only_observe|done].
Qed.

Lemma only_sweep_clean k h p : vget p "cleanup_handle" = VStr h →
  only h (sweep_clean utc_now disk self k p).
Proof.
  intros [_ Hh]%handle_of. unfold sweep_clean. rewrite Hh.
  do 3 (apply only_bind; [apply only_mild; mild|intros ?]).
  match goal with |- only _ (lift (Ok ?a) ≫= ?f) => change (only h (f a)) end. cbv beta.
  apply only_bind; [apply only_write|done].
Qed.

(** The turn reads its entry. *)
Lemma read_turn h e fs c m :
  triple (before h e fs) (attempt (read_entry (W:=W) h c m))
    (λ r s, ∃ p, r = Ok p ∧ vget p "cleanup_handle" = VStr h ∧ viewed p e ∧ e_executor e ≠ "" ∧
                 before h e fs s) (λ _, True).
Proof.
  intros s (HI & He & Hf). pose proof He as (n & Hn & Hfe).
  destruct (Inv_handle s h e HI He) as (Eh & Hne & _).
  destruct (read_private n "cleanup ledger entry" c m e Hfe) as (p & Er & Hp & _).
  unfold attempt, read_entry. cbv [mbind prog_bind gets lift].
  rewrite in_private by apply HI. rewrite Hn, Er. exists p.
  split_and!; try done. by rewrite (vw_handle _ _ Hp), Eh.
Qed.

Lemma failed_turn h p e fs tr tr' t acc acc0 x : viewed p e → vget p "cleanup_handle" = VStr h → mine e →
  cleaned acc = cleaned acc0 → sweep_errors acc = sweep_errors acc0 →
  tr' = tr ∨ due t e ∧ cleaned_up self e tr tr' →
  triple (λ s, near h e s ∧ beside h fs tr' s) (sweep_failed utc_now disk h (Some p) acc x)
    (λ acc' s, turn t h e fs tr acc0 acc' s ∧ Inv s ∧ others h fs s) (λ _, True).
Proof.
  intros Hp Hh Hm Ec Ee Htr s Hs.
  pose proof (triple_beside h fs tr' _ _ _ _ (only_failed h p acc x Hh) (still_failed h (Some p) acc x)
    (triple_sweep_failed utc_now disk h p e acc x Hp) s Hs) as H.
  destruct (sweep_failed utc_now disk h (Some p) acc x s) as [s' [acc'|]] eqn:E; [|done].
  destruct H as (HI & Ho & Ht). split; [|done]. apply (turn_failed _ _ _ _ _ _ _ _ (_error_code x));
    [done| | |by rewrite Ht]; revert E; unfold sweep_failed; rewrite prog_bind_eq;
    destruct (attempt _ s) as [s1 [r|]]; try done; intros [= _ <-]; cbn; congruence.
Qed.

(** The observation of an entry that is this executor's. *)
Lemma observe_turn k p e h fs tr : viewed p e → vget p "cleanup_handle" = VStr h → e_executor e ≠ "" → mine e →
  triple (λ s, holds h p e s ∧ beside h fs tr s) (attempt (sweep_observe utc_now disk self k p))
    (λ r s, match r with
            | Ok (Some p') => viewed p' e
            | Ok None => False
            | Err _ => True
            end ∧ near h e s ∧ (is_ok r = true → Inv s ∧ entry_at (ledger_files s) h e) ∧ beside h fs tr s)
    (λ _, True).
Proof.
  intros Hp Hh Hne Hm s Hs. destruct (observe_asks k p e Hp Hne) as [_ Hown].
  pose proof (triple_beside h fs tr _ _ _ _ (only_attempt _ _ (only_sweep_observe k h p Hh))
    (still_attempt _ (still_sweep_observe k p))
    (triple_attempt _ _ _ _ (triple_sweep_observe utc_now disk self k h p e)) s Hs) as H.
  unfold attempt in *. destruct (sweep_observe utc_now disk self k p s) as [s1 [[p'|]|x]] eqn:E.
  - destruct H as [[Hp' Hh'] Hb]. split; [done|]. split; [by eapply holds_near|]. split; [|done].
    intros _. by destruct Hh' as (? & ? & _).
  - by destruct (Hown Hm s s1).
  - destruct (is_exception x); [|done]. destruct H as [Hh' Hb]. split; [done|].
    split; [by eapply holds_near|]. by split.
Qed.

(** The cleaning of an entry. *)
Lemma clean_turn k p e h fs tr : viewed p e → vget p "cleanup_handle" = VStr h →
  triple (λ s, holds h p e s ∧ beside h fs tr s) (attempt (sweep_clean utc_now disk self k p))
    (λ r s, others h fs s ∧ match r with
       | Ok h' => h' = h ∧ Inv s ∧ entry_at (ledger_files s) h (in_state e "expired_cleaned") ∧
                  gone self e tr (gw_trace s)
       | Err _ => near h e s ∧ cleaned_up self e tr (gw_trace s)
       end) (λ _, True).
Proof.
  intros Hp Hh s (Hs & Ho & <-). pose proof (triple_only h fs _ _ _ _ (only_attempt _ _ (only_sweep_clean k h p Hh))
    (triple_attempt _ _ _ _ (triple_sweep_clean utc_now disk self k h p e)) s (conj Hs Ho)) as H.
  pose proof (sweep_clean_trace k p e s Hp) as Htr. unfold attempt in *.
  destruct (sweep_clean utc_now disk self k p s) as [s' [h'|x]]; cbn [is_ok] in Htr.
  - destruct H as [(-> & HI & He) Ho']. by split_and!.
  - destruct (is_exception x); [|done]. destruct H as [Hn Ho']. by split_and!.
Qed.

Lemma triple_turn k t acc h e fs tr :
  triple (λ s, before h e fs s ∧ gw_trace s = tr) (sweep_one utc_now disk self t k acc h)
    (λ acc' s, turn t h e fs tr acc acc' s ∧ Inv s ∧ others h fs s) (λ _, True).
Proof.
  unfold sweep_one.
  eapply (triple_bind _ _ _ (λ r s, ∃ p, r = Ok p ∧ vget p "cleanup_handle" = VStr h ∧ viewed p e ∧
    e_executor e ≠ "" ∧ before h e fs s ∧ gw_trace s = tr)).
  { intros s [Hb Ht]. pose proof (read_turn h e fs "CLEANUP_LEDGER_UNREADABLE"
      "A cleanup ledger entry disappeared while scanning expired leases." s Hb) as H.
    match type of H with context [attempt ?m s] => assert (still (attempt m)) as Hst by
      (apply still_attempt, still_quiet; quiet); specialize (Hst s); destruct (attempt m s) as [s' [r|]] end; [|done].
    destruct H as (p & ? & ? & ? & ? & ?). cbn [fst] in Hst. exists p. split_and!; try done. congruence. }
  intros r. apply triple_exists. intros p. apply triple_pure. intros ->. apply triple_pure. intros Hh.
  apply triple_pure. intros Hp. apply triple_pure. intros Hne.
  destruct (decide (mine e)) as [Hm|Hm].
  2:{ destruct (observe_asks k p e Hp Hne) as [Hforeign _]. rewrite Hforeign by done.
      intros s [(HI & He & Hf) Ht]. cbn. split; [|split; [done|by rewrite <- Hf]].
      apply turn_foreign; [done|done|by rewrite Hf|done]. }
  apply (triple_pre _ _ (λ s, holds h p e s ∧ beside h fs tr s)).
  { intros s [(HI & He & Hf) Ht]. split; [by split_and!|]. split; [by rewrite <- Hf|done]. }
  eapply triple_bind; [by apply observe_turn|]. intros [[p'|]|x]; [|by intros s [? _]|].
  - apply triple_pure. intros Hp'. apply (triple_pre _ _ (λ s, holds h p' e s ∧ beside h fs tr s)).
    { intros s (_ & H & Hb). destruct (H eq_refl) as [HI He]. by split. }
    destruct (expired t p') eqn:Ex; cbn [negb].
    2:{ apply triple_ret. intros s ((HI & He & _) & Ho & Ht). split; [|done]. apply turn_early; try done.
        by rewrite <- (expired_past _ p'), Ex. }
    apply (expired_past _ _ _ Hp') in Ex.
    assert (vget p' "cleanup_handle" = VStr h) as Hh'.
    { rewrite (vw_handle _ _ Hp'), <- Hh. by rewrite (vw_handle _ _ Hp). }
    eapply triple_bind; [by apply clean_turn|]. intros [h'|x]; cbn.
    + apply triple_ret. intros s [Ho (-> & HI & He & Hg)]. split; [|done]. by apply turn_cleaned.
    + intros s [Ho [Hn Hc]].
      apply (failed_turn h p' e fs tr (gw_trace s) t (inspect acc) acc x); try done. by right.
  - intros s (_ & Hn & _ & Hb). apply (failed_turn h p e fs tr tr t acc acc x); try done. by left.
Qed.

(** ** The loop *)

(** A mutation for the end of the entry's experiment. *)
Definition ends_entry (e : Entry) (m : Mutation) : Prop :=
  m = MDelete (executor_id self) (e_namespace e) (e_name e) ∨
  m = MUnfence (e_namespace e) (e_target e) (e_uid e).

Lemma gone_mutations e tr tr' : gone self e tr tr' → ∃ new, tr' = new ++ tr ∧ ∀ m, m ∈ new → ends_entry e m.
Proof.
  intros (k & w & w1 & w2 & w3 & _ & _ & _ & ->).
  exists [MUnfence (e_namespace e) (e_target e) (e_uid e); MDelete (executor_id self) (e_namespace e) (e_name e)].
  split; [done|]. intros m [->| ->%list_elem_of_singleton]%elem_of_cons; [by right|by left].
Qed.

Lemma turn_mutations t h e fs tr acc acc' s : turn t h e fs tr acc acc' s →
  ∃ new, gw_trace s = new ++ tr ∧ ∀ m, m ∈ new → due t e ∧ ends_entry e m.
Proof.
  assert (∃ new, tr = new ++ tr ∧ ∀ m, m ∈ new → due t e ∧ ends_entry e m) as Hnone.
  { exists []. split; [done|]. by intros m ?%not_elem_of_nil. }
  assert (∀ tr', due t e → (∃ new, tr' = new ++ tr ∧ ∀ m, m ∈ new → ends_entry e m) →
    ∃ new, tr' = new ++ tr ∧ ∀ m, m ∈ new → due t e ∧ ends_entry e m) as Hdue.
  { intros tr' Hd (new & -> & H). exists new. split; [done|]. by auto. }
  intros [Hm _ _ ->|Hm _ _ _ ->|Hd _ _ _ Hg|c _ _ _ [->|(Hd & [->|[->|Hg]])]]; try done.
  - by apply Hdue, gone_mutations.
  - apply Hdue; [done|]. exists [MDelete (executor_id self) (e_namespace e) (e_name e)]. split; [done|].
    intros m ->%list_elem_of_singleton. by left.
  - by apply Hdue, gone_mutations.
Qed.

(** What a sweep at [t] that cleaned [cl] and reports [errs] has done to the entry of [h], from the
    files [fs] and the trace [tr] to [fs'] and [tr']. *)
Record swept (t : datetime) (h : string) (e : Entry) fs fs' tr tr' (cl : list string)
    (errs : list (string * string)) : Prop := {
  sw_foreign : ¬ mine e → fs' !! h = fs !! h;
  sw_cleaned : h ∈ cl → due t e ∧ entry_at fs' h (in_state e "expired_cleaned") ∧
    ∃ tr1 tr2, gone self e tr1 tr2 ∧ tr `suffix_of` tr1 ∧ tr2 `suffix_of` tr';
  sw_due : due t e → h ∈ cl ∨ ∃ c, (h, c) ∈ errs;
  sw_errors : ∀ c, (h, c) ∈ errs → mine e;
  sw_kept : h ∉ cl → (∀ c, (h, c) ∉ errs) → entry_at fs' h e }.

Lemma swept_other t h e fs fs' tr tr' cl errs cl0 errs0 : (∀ x, x ∈ cl0 → x ≠ h) →
  (∀ x, x ∈ errs0 → x.1 ≠ h) → swept t h e fs fs' tr tr' cl errs →
  swept t h e fs fs' tr tr' (cl0 ++ cl) (errs0 ++ errs).
Proof.
  intros Hc He [H1 H2 H3 H4 H5].
  assert (∀ c, (h, c) ∈ errs0 → False) as He' by (intros c Hin; by apply (He _ Hin)).
  assert (h ∈ cl0 → False) as Hc' by (intros Hin; by apply (Hc _ Hin)).
  split; try done.
  - intros [Hin|Hin]%elem_of_app; [done|auto].
  - intros [Hin|(c & Hin)]%H3; [left; by apply elem_of_app; right|right; exists c; by apply elem_of_app; right].
  - intros c [Hin|Hin]%elem_of_app; [by destruct (He' c)|eauto].
  - intros Hn1 Hn2. apply H5; [by intros ?; apply Hn1, elem_of_app; right|].
    intros c ?. by apply (Hn2 c), elem_of_app; right.
Qed.

(** The turn of [h], followed by turns that leave [h] alone. *)
Lemma swept_turn t h e fs tr s acc acc' fs' tr' cl errs : turn t h e fs tr acc acc' s → entry_at fs h e →
  fs' !! h = ledger_files s !! h → gw_trace s `suffix_of` tr' → h ∉ cl → (∀ c, (h, c) ∉ errs) →
  ∃ cl0 errs0, cleaned acc' = cleaned acc ++ cl0 ∧ sweep_errors acc' = sweep_errors acc ++ errs0 ∧
    (∀ x, x ∈ cl0 → x = h) ∧ (∀ x, x ∈ errs0 → x.1 = h) ∧
    swept t h e fs fs' tr tr' (cl0 ++ cl) (errs0 ++ errs).
Proof.
  intros Ht He Hf Htr Hcl Herr.
  assert (∀ x, entry_at (ledger_files s) h x → entry_at fs' h x) as Hat by (intros x (n & ? & ?); exists n; by rewrite Hf).
  destruct Ht as [Hm -> Hs _|Hm Hp -> Hs _|Hd Hc Hx Hs Hg|c Hm Hc Hx _].
  - exists [], []. rewrite !app_nil_r. split_and!; [done|done|by intros x ?%not_elem_of_nil|by intros x ?%not_elem_of_nil|]. split; try done.
    + by rewrite Hf.
    + by intros [? _].
    + by intros c ?%Herr.
    + intros _ _. destruct He as (n & Hn & ?). exists n. by rewrite Hf, Hs.
  - exists [], []. rewrite !app_nil_r. split_and!; [done|done|by intros x ?%not_elem_of_nil|by intros x ?%not_elem_of_nil|]. split; try done.
    + by intros [_ ?].
    + by intros _ _; apply Hat.
  - exists [h], []. rewrite app_nil_r. split_and!; try done; [by intros x ?%list_elem_of_singleton|
      by intros x ?%not_elem_of_nil|]. pose proof Hd as [Hm _]. split; try done.
    + intros _. split; [done|]. split; [by apply Hat|]. by exists tr, (gw_trace s).
    + by intros _; left; left.
    + by intros []; left.
  - exists [], [(h, c)]. rewrite app_nil_r. split_and!; try done; [by intros x ?%not_elem_of_nil|
      by intros x ->%list_elem_of_singleton|]. split; try done.
    + by intros _; right; exists c; left.
    + intros _ Hno. by destruct (Hno c); left.
Qed.

Lemma swept_from t h e fs fs0 fs' tr tr0 tr' cl errs : fs !! h = fs0 !! h → tr0 `suffix_of` tr →
  swept t h e fs fs' tr tr' cl errs → swept t h e fs0 fs' tr0 tr' cl errs.
Proof.
  intros E Htr [H1 H2 H3 H4 H5]. split; try done; [by rewrite <- E|].
  intros (Hd & He & tr1 & tr2 & Hg & Hs1 & Hs2)%H2. split_and!; [done|done|].
  exists tr1, tr2. split_and!; [done| |done]. by trans tr.
Qed.

(** The mutations of a sweep, each for the end of a due entry of [fs]. *)
Definition sweeps (t : datetime) fs (tr tr' : list Mutation) : Prop := ∃ new, tr' = new ++ tr ∧
  ∀ m, m ∈ new → ∃ h e, entry_at fs h e ∧ due t e ∧ ends_entry e m.

Lemma sweeps_suffix t fs tr tr' : sweeps t fs tr tr' → tr `suffix_of` tr'.
Proof. intros (new & -> & _). by exists new. Qed.

(** A turn over [h], then a loop over entries other than [h]. *)
Lemma sweeps_turn t h e l fs tr acc acc' s tr' : entry_at fs h e → turn t h e fs tr acc acc' s →
  (∀ x, x ∈ l → ledger_files s !! x = fs !! x) →
  (∃ new, tr' = new ++ gw_trace s ∧
     ∀ m, m ∈ new → ∃ x e', x ∈ l ∧ entry_at (ledger_files s) x e' ∧ due t e' ∧ ends_entry e' m) →
  ∃ new, tr' = new ++ tr ∧
     ∀ m, m ∈ new → ∃ x e', x ∈ h :: l ∧ entry_at fs x e' ∧ due t e' ∧ ends_entry e' m.
Proof.
  intros He (n0 & E0 & H0)%turn_mutations Hf (n1 & -> & H1). exists (n1 ++ n0).
  split; [by rewrite E0, app_assoc|]. intros m [(x & e' & Hx & (nd & Hn & Hfe) & Hd & Hm)%H1|[Hd Hm]%H0]%elem_of_app.
  - exists x, e'. split_and!; [by right| |done|done]. exists nd. by rewrite <- Hf.
  - exists h, e. split_and!; [by left|done..].
Qed.

Lemma sweep_loop t k l : NoDup l → ∀ acc s s' acc', Inv s →
  (∀ h, h ∈ l → is_Some (ledger_files s !! h)) →
  for_each (sweep_one utc_now disk self t k) acc l s = (s', Ok acc') →
  (∀ h, h ∉ l → ledger_files s' !! h = ledger_files s !! h) ∧
  (∃ new, gw_trace s' = new ++ gw_trace s ∧
     ∀ m, m ∈ new → ∃ h e, h ∈ l ∧ entry_at (ledger_files s) h e ∧ due t e ∧ ends_entry e m) ∧
  ∃ cl errs, cleaned acc' = cleaned acc ++ cl ∧ sweep_errors acc' = sweep_errors acc ++ errs ∧
    (∀ h, h ∈ cl → h ∈ l) ∧ (∀ x, x ∈ errs → x.1 ∈ l) ∧
    ∀ h e, h ∈ l → entry_at (ledger_files s) h e →
      swept t h e (ledger_files s) (ledger_files s') (gw_trace s) (gw_trace s') cl errs.
Proof.
  induction 1 as [|h l Hnin Hnd IH]; intros acc s s' acc' HI Hl; cbn [for_each].
  { intros [= -> ->]. split_and!; [done|exists []; split; [done|by intros m ?%not_elem_of_nil]|].
    exists [], []. rewrite !app_nil_r.
    split_and!; [done|done|by intros x ?%not_elem_of_nil|by intros x ?%not_elem_of_nil|].
    by intros x e ?%not_elem_of_nil. }
  destruct (Hl h ltac:(left)) as [n Hn]. destruct (Inv_entry _ _ _ HI Hn) as (e & He & _).
  rewrite prog_bind_eq.
  pose proof (triple_turn k t acc h e _ _ s (conj (conj HI (conj He eq_refl)) eq_refl)) as Ht.
  destruct (sweep_one utc_now disk self t k acc h s) as [s1 [acc1|]] eqn:E1; [|done].
  destruct Ht as (Ht & HI1 & Ho). intros Hrun.
  assert (∀ x, x ∈ l → x ≠ h) as Hne by (by intros x Hx ->).
  assert (∀ x, x ∈ l → is_Some (ledger_files s1 !! x)) as Hl1.
  { intros x Hx. rewrite Ho by auto. apply Hl. by right. }
  destruct (IH _ _ _ _ HI1 Hl1 Hrun) as (Hout & Hnew & cl & errs & Ec & Ee & Hcl & Herr & Hall).
  assert (gw_trace s1 `suffix_of` gw_trace s') as Hsuf by (destruct Hnew as (new & -> & _); by exists new).
  assert (gw_trace s `suffix_of` gw_trace s1) as Hsuf0.
  { destruct (turn_mutations _ _ _ _ _ _ _ _ Ht) as (new & -> & _). by exists new. }
  destruct (swept_turn t h e _ _ s1 acc acc1 (ledger_files s') (gw_trace s') cl errs Ht He) as
    (cl0 & errs0 & Ec0 & Ee0 & Hcl0 & Herr0 & Hsw); [by apply Hout|done|by intros ?%Hcl|by intros c ?%Herr|].
  split; [|split].
  { intros x [Hx Hx']%not_elem_of_cons. rewrite Hout by done. by apply Ho. }
  { eapply sweeps_turn; [done|exact Ht| |exact Hnew]. intros x Hx. by apply Ho, Hne. }
  exists (cl0 ++ cl), (errs0 ++ errs). rewrite Ec, Ec0, Ee, Ee0, !app_assoc. split_and!; [done|done| | |].
  - intros x [->%Hcl0|Hx%Hcl]%elem_of_app; [by left|by right].
  - intros x [Hx%Herr0|Hx%Herr]%elem_of_app; [rewrite Hx; by left|by right].
  - intros x e' Hx He'. destruct (decide (x = h)) as [->|Hxh].
    + by rewrite (entry_at_inj _ _ _ _ He' He).
    + apply elem_of_cons in Hx as [->|Hx]; [done|]. apply swept_other.
      * by intros y ->%Hcl0 ->.
      * intros y Hy%Herr0 Hyx. congruence.
      * apply (swept_from _ _ _ (ledger_files s1) _ _ (gw_trace s1)); [by apply Ho|done|]. apply Hall; [done|].
        destruct He' as (n' & Hn' & ?). exists n'. by rewrite Ho.
Qed.

Lemma handles_NoDup d : NoDup (handles d).
Proof. unfold handles. rewrite sort_by_Permutation. apply NoDup_elements. Qed.

(** The sweep under the lock. *)
Lemma sweep_locked now s s' acc : Inv s →
  _cleanup_expired_leases_locked utc_now disk self now s = (s', Ok acc) →
  ∃ t, match now with Some t0 => t = as_utc t0 | None => ∃ n, t = utc_of (utc_now n) end ∧
    sweeps t (ledger_files s) (gw_trace s) (gw_trace s') ∧
    ∀ h e, entry_at (ledger_files s) h e → swept t h e (ledger_files s) (ledger_files s')
      (gw_trace s) (gw_trace s') (cleaned acc) (sweep_errors acc).
Proof.
  intros HI. unfold _cleanup_expired_leases_locked. rewrite prog_bind_eq.
  assert (∃ t s1, (match now with Some t => mret (as_utc t) | None => _now_utc utc_now end) s = (s1, Ok t) ∧
    gw_ledger s1 = gw_ledger s ∧ gw_trace s1 = gw_trace s ∧
    match now with Some t0 => t = as_utc t0 | None => ∃ n, t = utc_of (utc_now n) end)
    as (t & s1 & -> & El & Et & Ht) by (destruct now; eauto 10).
  rewrite prog_bind_eq. unfold lift at 1. destruct (_resolve_cleanup_kubeconfig self) as [k|]; [|done].
  rewrite prog_bind_eq. unfold _iter_cleanup_ledger_paths. rewrite prog_bind_eq. unfold gets. rewrite El.
  assert (Inv s1) as HI1 by (unfold Inv, private, ledger_files in *; by rewrite El, Et).
  pose proof HI as [Hp _]. unfold private in Hp. rewrite Hp.
  rewrite prog_bind_eq. unfold lift, _assert_private_directory. rewrite Hp. cbn.
  intros Hrun. exists t. split; [done|].
  assert (∀ x, x ∈ handles (gw_ledger s) → is_Some (ledger_files s1 !! x)) as Hl.
  { intros x Hx%elem_of_handles. unfold ledger_files. by rewrite El. }
  destruct (sweep_loop t k _ (handles_NoDup _) _ _ _ _ HI1 Hl Hrun) as
    (_ & (new & Etr & Hnew) & cl & errs & -> & -> & _ & _ & Hall).
  rewrite Et in *. assert (ledger_files s1 = ledger_files s) as Els by (unfold ledger_files; by rewrite El).
  rewrite Els in *. split.
  - exists new. split; [done|]. intros m (h & e & _ & H)%Hnew. by exists h, e.
  - intros h e He. cbn. apply Hall; [|done]. destruct He as (n & Hn & _). apply elem_of_handles.
    unfold ledger_files in Hn. eauto.
Qed.
End turn.
