(* ===== verification/ChaosDestroy.v ===== *)
(** * Destruction

    What a destruction that returns has done: to the cluster, to its entry, and to no other. *)

From S2P Require Import Prelude PyFloat PyVal PyTime PyIso Safety ConditionPolicy PlanSchema.
From S2P Require Import Sha256 Hoare ChaosGates ChaosLedger ChaosService ChaosEntries ChaosInv ChaosDelete ChaosSweep.

#[local] Open Scope Z_scope.

(** ** Destruction *)

Section destroy.
Context {W : Type} (utc_now : nat → Z) (disk : nat → DiskOutcome) (self : Service W).
#[local] Abbreviation gw := (prog (Gateway W)).
Implicit Types (s : Gateway W) (fs : gmap string node) (tr : list Mutation).

(** The entry [e] of [h] is held as [p]; the other files and the trace are what they were. *)
Definition held h p e fs tr s : Prop := holds h p e s ∧ others h fs s ∧ gw_trace s = tr.

Lemma held_quiet {A} (m : gw A) h p e fs tr : quiet m →
  triple (held h p e fs tr) m (λ _, held h p e fs tr) (λ _, True).
Proof.
  intros Hm s (Hh & Ho & Ht). pose proof (triple_mild m _ (quiet_mild m Hm) (keeps_holds h p e) s Hh) as Hh'.
  destruct (Hm s) as [E _]. unfold frame in E. injection E as Ef Et _ _ _.
  destruct (m s) as [s' [a|x]]; [|done]. cbn [fst] in *. split; [done|split; [|congruence]].
  intros h' Hne. rewrite Ef. by apply Ho.
Qed.

Lemma held_value {A} (m : gw A) h p e fs tr (R : A → Prop) : quiet m →
  (∀ s s' a, held h p e fs tr s → m s = (s', Ok a) → R a) →
  triple (held h p e fs tr) m (λ a s, R a ∧ held h p e fs tr s) (λ _, True).
Proof.
  intros Hm HR s Hs. pose proof (held_quiet m h p e fs tr Hm s Hs) as Hs'.
  destruct (m s) as [s' [a|x]] eqn:E; [|done]. split; [exact (HR _ _ _ Hs E)|done].
Qed.

Lemma held_observe h p e fs tr r :
  triple (held h p e fs tr) (_observe_fault_window utc_now disk p r)
    (λ p' s, viewed p' e ∧ held h p e fs tr s) (λ _, True).
Proof.
  intros s (Hh & Ho & Ht). pose proof Hh as (HI & He & Hp).
  assert (vget p "cleanup_handle" = VStr h) as Eh.
  { destruct (Inv_handle s h e HI He) as (Eh & _ & _). by rewrite (vw_handle _ _ Hp), Eh. }
  pose proof (triple_only h fs _ _ _ _ (only_observe utc_now disk h p r Eh) (triple_observe utc_now disk h p e r) s
    (conj Hh Ho)) as H. pose proof (still_observe utc_now disk p r s) as Hst.
  destruct (_observe_fault_window utc_now disk p r s) as [s' [p'|x]]; [|done].
  destruct H as [[Hp' Hh'] Ho']. split; [done|]. split; [done|split; [done|]]. cbn in Hst. congruence.
Qed.

(** What a destruction that returns has done. *)
Definition destroyed (h : string) (e : Entry) fs tr s : Prop :=
  e_executor e = executor_id self ∧ entry_at (ledger_files s) h (in_state e "destroyed") ∧
  others h fs s ∧ gone self e tr (gw_trace s).

(** The write at the end of a destruction. *)
Lemma destroy_write h p e fs tr upd : viewed upd (in_state e "destroyed") →
  triple (λ s, holds h p e s ∧ others h fs s ∧ gw_trace s = tr) (_write_ledger disk h upd)
    (λ _ s, entry_at (ledger_files s) h (in_state e "destroyed") ∧ others h fs s ∧ gw_trace s = tr)
    (λ _, True).
Proof.
  intros Hu s (Hh & Ho & Ht).
  pose proof (triple_only h fs _ _ _ _ (only_write disk h upd)
    (triple_write_end disk h p upd e "destroyed" (not_live "destroyed" eq_refl) Hu) s (conj Hh Ho)) as H.
  pose proof (still_write disk h upd s) as Hst.
  destruct (_write_ledger disk h upd s) as [s' [[]|x]]; [|done].
  destruct H as [(_ & He & _) Ho']. split_and!; [done|done|]. cbn in Hst. congruence.
Qed.

(** The end of a destruction, once the experiment is gone. *)
Lemma destroy_end h p e fs tr pr (A : Type) (a : A) :
  triple (held h p e fs tr)
    (ended ← ended_ledger utc_now p "destroyed";
     updated ← _append_mutation utc_now self ended pr "DESTROY";
     _write_ledger disk h updated ;; mret a)
    (λ _ s, entry_at (ledger_files s) h (in_state e "destroyed") ∧ others h fs s ∧ gw_trace s = tr)
    (λ _, True).
Proof.
  eapply triple_bind.
  { apply (held_value _ h p e fs tr (λ d, viewed d (in_state e "destroyed"))); [quiet|].
    intros s s' d ((_ & _ & Hp) & _) H. by eapply ended_viewed. }
  intros d. apply triple_pure. intros Hd. eapply triple_bind.
  { apply (held_value _ h p e fs tr (λ u, viewed u (in_state e "destroyed"))); [quiet|].
    intros s s' u _ H. by eapply append_viewed. }
  intros u. apply triple_pure. intros Hu. eapply triple_bind; [by apply destroy_write|].
  intros []. by apply triple_ret.
Qed.

Lemma before_quiet {A} (m : gw A) h e fs tr : quiet m →
  triple (λ s, before h e fs s ∧ gw_trace s = tr) m (λ _ s, before h e fs s ∧ gw_trace s = tr) (λ _, True).
Proof.
  intros Hm s ((HI & He & Hf) & Ht). pose proof (triple_mild m _ (quiet_mild m Hm) keeps_Inv s HI) as HI'.
  destruct (Hm s) as [E _]. unfold frame in E. injection E as Ef Et _ _ _.
  destruct (m s) as [s' [a|x]]; [|done]. cbn [fst] in *. unfold before. by rewrite Ef, Et.
Qed.

Lemma destroy_read h e fs tr :
  triple (λ s, before h e fs s ∧ gw_trace s = tr) (_read_ledger (W:=W) h)
    (λ p, held h p e fs tr) (λ _, True).
Proof.
  intros s Hs. pose proof (before_quiet _ h e fs tr (quiet_read_ledger utc_now h) s Hs) as Hb.
  pose proof (triple_read_ledger disk h s (proj1 (proj1 Hs))) as Hr.
  destruct (_read_ledger h s) as [s' [p|x]]; [|done].
  destruct Hr as (e' & HI & He' & Hp), Hb as ((_ & He & Hf) & Ht).
  rewrite (entry_at_inj _ _ _ _ He' He) in Hp. split; [by split_and!|split; [by rewrite <- Hf|done]].
Qed.

Lemma destroy_delete h p e fs tr k :
  triple (held h p e fs tr) (_delete_and_verify_from_ledger self p k)
    (λ _ s, ∃ tr', deletes self p e tr tr' ∧ held h p e fs tr' s) (λ _, True).
Proof.
  intros s (Hh & Ho & Ht). pose proof (mild_delete_verify disk self p k) as Hm.
  pose proof (triple_only h fs _ _ _ _ (only_mild h _ Hm) (triple_mild _ _ Hm (keeps_holds h p e)) s
    (conj Hh Ho)) as H.
  destruct (_delete_and_verify_from_ledger self p k s) as [s' [[]|x]] eqn:E; [|done].
  destruct H as [Hh' Ho']. exists (gw_trace s'). split; [|by split].
  destruct (viewed_str p e (proj2 (proj2 Hh))) as (Ens & En & _).
  destruct (delete_run _ _ _ _ _ _ E) as [[_ ?]|(ns & n & w1 & Hal & [[_ ?]|Hd])]; [done|done|].
  destruct Hal as [Hx Hns Hn Hr]. rewrite Hns in Ens. rewrite Hn in En.
  injection Ens as ->. injection En as ->. rewrite <- Ht. exists k, (gw_world s), w1. by split.
Qed.

Lemma destroy_locked h k pr e fs tr :
  triple (λ s, before h e fs s ∧ gw_trace s = tr)
    (_destroy_experiment_locked utc_now disk self h k pr) (λ _, destroyed h e fs tr) (λ _, True).
Proof.
  unfold _destroy_experiment_locked.
  do 3 (eapply triple_bind; [apply before_quiet; quiet|intros ?]).
  eapply triple_bind; [apply destroy_read|]. intros p.
  do 3 (eapply triple_bind; [apply held_quiet; quiet|intros ?]).
  eapply triple_bind; [apply held_observe|]. intros p'. apply triple_pure. intros Hp'.
  apply (triple_pre _ _ (held h p' e fs tr)).
  { intros s ((HI & He & _) & Hrest). by split. }
  eapply triple_bind; [apply destroy_delete|]. intros ?. apply triple_exists. intros tr'.
  apply triple_pure. intros Hd. eapply triple_post; [apply destroy_end| |done].
  intros ans s (He & Ho & Ht). destruct (deletes_gone self p' e tr tr' Hp' Hd) as [Hx Hg].
  split; [done|]. split; [done|]. split; [done|]. by rewrite Ht.
Qed.

(** A handle the ledger does not hold is destroyed by no call. *)
Lemma destroy_unknown h k pr :
  triple (λ s, private s ∧ ledger_files s !! h = None)
    (_destroy_experiment_locked utc_now disk self h k pr) (λ _ _, False) (λ _, True).
Proof.
  assert (∀ A (m : gw A), quiet m → triple (λ s, private s ∧ ledger_files s !! h = None) m
    (λ _ s, private s ∧ ledger_files s !! h = None) (λ _, True)) as Hq.
  { intros A m Hm s [Hp Hn]. destruct (Hm s) as [E Hp']. unfold frame in E. injection E as Ef _ _ _ _.
    destruct (m s) as [s' [a|x]]; [|done]. cbn [fst] in *. rewrite Ef. auto. }
  unfold _destroy_experiment_locked. do 3 (eapply triple_bind; [apply Hq; quiet|intros ?]).
  eapply (triple_bind _ _ _ (λ _ _, False)); [|by intros ans s]. intros s [Hp Hn].
  assert (in_folder (gw_ledger s) h = None) as Hin by by rewrite in_private.
  unfold private in Hp. unfold _read_ledger, read_entry, demand, _assert_private_directory.
  cbv [mbind prog_bind gets lift]. destruct (_validate_handle h) as [[]|]; [|done].
  rewrite Hp. cbn -[in_folder]. by rewrite Hin.
Qed.
End destroy.
