(* ===== verification/ChaosLease.v ===== *)
(** * Leases

    The deadline a creation writes is the one the sweep reads: the entry expires
    [duration_seconds] after it was created, to the microsecond. *)

From S2P Require Import Prelude PyFloat PyVal PyTime PyIso PyIsoOrder PyStamp Safety ConditionPolicy PlanSchema.
From S2P Require Import Sha256 Hoare ChaosGates ChaosLedger ChaosService.

#[local] Open Scope Z_scope.

(** ** The time stamps of the ledger *)

Lemma parse_isoformat t : representable t →
  _parse_datetime (VStr (isoformat (utc_of t))) = Some (utc_of t).
Proof.
  intros Ht. unfold _parse_datetime. rewrite spell_no_zulu by apply no_zulu_isoformat.
  rewrite isoformat_roundtrip by done. cbn. unfold as_utc. cbn. by rewrite Z.sub_0_r.
Qed.

(** ** The lease of a new entry *)

(** [created_at + timedelta(seconds=duration_seconds)], in microseconds. *)
Definition deadline_of (created : Z) (q : CreateRequest) : Z := created + q_duration_seconds q * 1000000.

Section lease.
Context {W : Type} (utc_now : nat → Z) (self : Service W).

(** C14: The deadline a creation writes into the ledger is read back by the sweep to the
    microsecond: the entry counts as expired exactly from its creation plus duration_seconds
    on. *)
Theorem lease_expires q n (s s' : Gateway W) p : new_ledger utc_now self q n s = (s', Ok p) →
  representable (deadline_of (utc_now (gw_clock s)) q) →
  ∃ p', _read_private_json_file (Some (json_file p)) "cleanup ledger entry" "CLEANUP_LEDGER_UNREADABLE" ""
          = Ok p' ∧
    ∀ t, expired t p' = true ↔ deadline_of (utc_now (gw_clock s)) q <= dt_wall t.
Proof.
  unfold new_ledger. cbv [mbind prog_bind mret prog_ret _now_iso _now_utc]. intros [= _ <-] Hr.
  eexists. split; [reflexivity|]. intros t. unfold expired.
  rewrite (vget_sort_str _ _ (isoformat (utc_of (deadline_of (utc_now (gw_clock s)) q)))) by reflexivity.
  rewrite parse_isoformat by done. unfold later. cbn. rewrite negb_true_iff. apply Z.ltb_ge.
Qed.
End lease.

(** ** At a concrete input *)

Definition idle_backend : ChaosBackend Datatypes.unit := {|
  list_experiments := λ _ w, (w, Ok []); backend_get := λ _ _ _ w, (w, Ok None);
  get_pod_uid := λ _ _ _ w, (w, Ok None); backend_create := λ _ _ w, (w, refuse "UNAVAILABLE" "");
  delete_experiment := λ _ _ _ w, (w, Ok tt); render_manifest := λ _ _, Ok [];
  prepare_target_fence := λ _ _ _ _ w, (w, Ok tt); clear_target_fence := λ _ _ _ _ w, (w, Ok tt) |}.

Definition idle_config : RuntimeConfig := {|
  execute_enabled := true; config_kubeconfig := None; config_cleanup_kubeconfig := None;
  config_namespace_allowlist := ["shop"]; config_controller_token_ref := None;
  controller_pod_uid := None; controller_pod_namespace := None; controller_pod_name := None;
  controller_lease_file := false; config_cleanup_handle := None; allowed_fault_types := [];
  expected_fault := None; decision_policy := "agent_delegated"; user_decision_file := false;
  baseline_ledger_dir := true; create_uncertainty_variant := None; condition_safety_ttl_seconds := None |}.

Definition idle_service : Service Datatypes.unit := {|
  config := idle_config; backend := idle_backend; executor_id := "chaosblade" |}.

Definition idle_gateway : Gateway Datatypes.unit := {|
  gw_ledger := {| present := None; files := ∅ |}; gw_lock := None;
  gw_baseline := {| present := None; files := ∅ |}; gw_decision := None; gw_lease := None;
  gw_clock := 0; gw_world := tt; gw_trace := [] |}.

Definition lease_request : CreateRequest := {|
  q_run_id := "run-1"; q_namespace := "shop"; q_target_name := "cart-0";
  q_target_uid := "9f1c2d3e-0000-4000-8000-000000000001"; q_fault_type := "network-delay";
  q_duration_seconds := 120; q_intensity := [("delay_ms", VInt 200)]; q_kubeconfig := "/kube";
  q_controller_token_ref := "ref/one"; q_expected_controller_pod_uid := "controller-1";
  q_baseline_gate_token := "token-1"; q_cleanup_handle := "cleanup-trial-0001"; q_selector := None |}.

(** Two minutes after 2026-01-01, to the microsecond. *)
Lemma lease_expires_witness : ∃ p,
  expired (utc_of 1767225719999999) p = false ∧ expired (utc_of 1767225720000000) p = true.
Proof.
  destruct (new_ledger (λ _, 1767225600000000) idle_service lease_request "cc" idle_gateway) as [s' [p|x]] eqn:E;
    [|vm_compute in E; discriminate E].
  destruct (lease_expires (λ _, 1767225600000000) idle_service lease_request "cc" idle_gateway s' p E) as (p' & _ & H);
    [vm_compute; split; congruence|].
  exists p'. split.
  - apply not_true_iff_false. rewrite H. vm_compute. congruence.
  - apply H. vm_compute. discriminate.
Defined.
