(* ===== verification/ChaosCreate.v ===== *)
(** * The gates of a creation

    What every gate of [create_experiment] checks: what holds of the request, the configuration
    and the files once it has let the request through. *)

From Stdlib Require Import QArith.
From S2P Require Import Prelude PyFloat PyVal PyTime PyIso Safety ConditionPolicy PlanSchema.
From S2P Require Import Sha256 Hoare ChaosGates ChaosLedger ChaosService ChaosEntries ChaosInv.

#[local] Open Scope Z_scope.

Section gates.
Context {W : Type} (errors : mapping → list SchemaError) (utc_now : nat → Z)
  (disk : nat → DiskOutcome) (kill0 : Z → option exn) (self : Service W).
Implicit Types (s : Gateway W).
#[local] Abbreviation gw := (prog (Gateway W)).
#[local] Abbreviation cfg := (config self).
#[local] Abbreviation back := (backend self).

Record runtime_gates (q : CreateRequest) : Prop := {
  rg_enabled : execute_enabled cfg = true;
  rg_kubeconfig : config_kubeconfig cfg = Some (q_kubeconfig q) ∧ q_kubeconfig q ≠ "";
  rg_namespace : q_namespace q ∈ config_namespace_allowlist cfg;
  rg_token_ref : config_controller_token_ref cfg = Some (q_controller_token_ref q) ∧
    SAFE_REF_RE (q_controller_token_ref q) = true;
  rg_pod_uid : controller_pod_uid cfg = Some (q_expected_controller_pod_uid q);
  rg_handle : HANDLE_RE (q_cleanup_handle q) = true }.

(** The user approved a plan the request follows; or the Trial delegates the decision, the request
    is its contract, and the turn is not one that may only repair its report. *)
Definition decision_allows s (q : CreateRequest) : Prop :=
  (∃ n d approved devs, gw_decision s = Some n ∧ read_decision n = Ok d ∧
     vget d "approved" = VBool true ∧ vget d "approved_plan" = VDict approved ∧
     _check_against_approved_plan errors self approved q = Ok devs) ∨
  (decision_policy cfg = "agent_delegated" ∧ _assert_expected_fault_contract self q = Ok tt ∧
   is_ok (_assert_not_report_only self s).2 = true).

(** The Controller is the one this executor was started by: its process lease names it, has not
    expired and its process is alive; or, where the Controller is a Pod, the live Pod has its uid. *)
Definition identity_verified s (q : CreateRequest) : Prop :=
  if controller_lease_file cfg then
    ∃ payload t c,
      _read_private_json_file (gw_lease s) "controller process lease" "CONTROLLER_LEASE_MISSING"
        "The local Controller process lease is missing or unsafe." = Ok payload ∧
      controller_pod_uid cfg = Some (str_or_empty (vget payload "controller_id")) ∧
      _parse_datetime (vget payload "expires_at") = Some t ∧ later t (utc_of (utc_now c)) = true ∧
      process_alive kill0 (vget payload "pid") = Ok true
  else ∀ ns name, controller_pod_namespace cfg = Some ns → controller_pod_name cfg = Some name →
    ns ≠ "" → name ≠ "" →
    ∃ w w', get_pod_uid back ns name (q_kubeconfig q) w = (w', Ok (controller_pod_uid cfg)).

(** The capability [payload] of the baseline was issued to this run, for this target, and is not
    expired. *)
Definition baseline_allows s (q : CreateRequest) (payload : mapping) : Prop :=
  q_baseline_gate_token q ≠ "" ∧ baseline_ledger_dir cfg = true ∧
  baseline_payload (gw_baseline s) (q_baseline_gate_token q) = Ok payload ∧
  baseline_matches self payload q = true ∧ baseline_binding_ok payload q = true ∧
  ∃ t c, _parse_datetime (vget payload "expires_at") = Some t ∧ later t (utc_of (utc_now c)) = true.

(** The handle is new, or its entry is of an attempt that provably created nothing. *)
Definition handle_free s (q : CreateRequest) : Prop := ∀ n, ledger_files s !! q_cleanup_handle q = Some n →
  ∃ payload, _read_private_json_file (Some n) "cleanup ledger entry" "UNKNOWN_CLEANUP_HANDLE" UNKNOWN_HANDLE
      = Ok payload ∧ _is_retriable_absent_uncertainty (Some payload) = true.

(** No entry of another handle has used the capability. *)
Definition token_unused s (q : CreateRequest) : Prop := ∀ h e, entry_at (ledger_files s) h e →
  e_handle e ≠ q_cleanup_handle q → e_token e ≠ hexdigest (q_baseline_gate_token q).

(** No other executor has an entry of the run whose fault is, or may be, under way. *)
Definition no_other_executor s (q : CreateRequest) : Prop := ∀ h e, entry_at (ledger_files s) h e →
  live e → e_run e = q_run_id q → e_executor e = executor_id self.

Record gates_passed (q : CreateRequest) s : Prop := {
  gp_runtime : runtime_gates q;
  gp_handle : handle_free s q;
  gp_identity : identity_verified s q;
  gp_fault : allowed_fault_types cfg = [] ∨ q_fault_type q ∈ allowed_fault_types cfg;
  gp_ttl : ∀ t, condition_safety_ttl_seconds cfg = Some t → q_duration_seconds q = t;
  gp_plan : is_ok (_assert_create_request_plan_schema errors cfg (executor_id self) q) = true;
  gp_decision : decision_allows s q;
  gp_baseline : ∃ payload, baseline_allows s q payload;
  gp_token : token_unused s q;
  gp_target : ∃ w w', get_pod_uid back (q_namespace q) (q_target_name q) (q_kubeconfig q) w =
    (w', Ok (Some (q_target_uid q)));
  gp_others : no_other_executor s q;
  gp_safety : ∃ w w' records contract,
    list_experiments back (q_kubeconfig q) w = (w', Ok records) ∧
    (∀ r, r ∈ records → is_unsafe r = false) ∧
    action_admissible (request_action q) (default_policy (config_namespace_allowlist cfg))
      (active_in (q_namespace q) records) contract }.

(** [unmoved]: the cleanup directory is there, and its files, the trace, the baseline ledger, the
    decision and the lease are what they were. *)
Context (s0 : Gateway W).
Definition unmoved s : Prop := frame s = frame s0 ∧ private s.
Definition untouched s : Prop := gw_trace s = gw_trace s0.

Lemma unmoved_parts s : unmoved s → ledger_files s = ledger_files s0 ∧ gw_trace s = gw_trace s0 ∧
  gw_baseline s = gw_baseline s0 ∧ gw_decision s = gw_decision s0 ∧ gw_lease s = gw_lease s0 ∧ private s.
Proof. intros [E Hp]. unfold frame in E. injection E as E1 E2 E3 E4 E5. by split_and!. Qed.

Lemma gate_fact {A} (m : gw A) (R : A → Prop) : quiet m →
  (∀ s s' a, unmoved s → m s = (s', Ok a) → R a) → triple unmoved m (λ a s, R a ∧ unmoved s) untouched.
Proof.
  intros Hm HR s Hs. destruct (Hm s) as [E Hp]. pose proof Hs as [Es Hps]. rewrite Es in E.
  specialize (Hp Hps). destruct (m s) as [s' [a|x]] eqn:Em; cbn [fst] in *.
  - split; [by eapply HR; [|exact Em]|]. by split.
  - unfold untouched. unfold frame in E. congruence.
Qed.

Lemma ensure_fact :
  triple (λ s, s = s0) (_ensure_private_ledger_directory disk) (λ _, unmoved) untouched.
Proof.
  intros s ->. destruct (quiet_ensure disk s0) as [E _].
  destruct (_ensure_private_ledger_directory disk s0) as [s' [u|x]] eqn:Er; cbn [fst] in E.
  - split; [done|by eapply ensure_makes_private].
  - unfold untouched. unfold frame in E. congruence.
Qed.

Lemma gate_quiet {A} (m : gw A) : quiet m → triple unmoved m (λ _, unmoved) untouched.
Proof.
  intros Hm. eapply triple_post; [by apply (gate_fact m (λ _, True))| |done]. by intros a s [_ ?].
Qed.

Lemma gate_lift {A} (r : result A) : triple unmoved (lift r) (λ a s, r = Ok a ∧ unmoved s) untouched.
Proof. apply gate_fact; [done|]. by intros s s' a _ [= _ ->]. Qed.

(** [learn H] runs a lifted check and names what it says. *)
Ltac learn x H := eapply triple_bind; [apply gate_lift|]; intros x; apply triple_pure; intros H.

Lemma demand_Ok b c m u : demand b c m = Ok u → b = true.
Proof. apply require_Ok. Qed.

Lemma is_configured_Some o v : is_configured o v = true → o = Some v.
Proof.
  unfold is_configured. destruct o as [s|]; [|done]. intros [_ ->%bool_decide_eq_true]%andb_true_iff. done.
Qed.

Lemma runtime_gates_fact q b :
  triple unmoved (_assert_create_runtime_gates self q b)
    (λ _ s, (runtime_gates q ∧ (b = true ∨ ledger_files s0 !! q_cleanup_handle q = None)) ∧ unmoved s)
    untouched.
Proof.
  unfold _assert_create_runtime_gates.
  learn u1 H1. learn u2 H2. learn u3 H3. learn u4 H4. learn u5 H5. learn u6 H6. learn u7 H7. learn u8 H8.
  eapply (triple_bind _ _ _ (λ d s, in_folder d (q_cleanup_handle q) = ledger_files s0 !! q_cleanup_handle q ∧
    unmoved s)).
  { apply triple_gets. intros s Hs. split; [|done]. destruct (unmoved_parts s Hs) as (<- & _ & _ & _ & _ & Hp).
    unfold in_folder. unfold private in Hp. by rewrite Hp. }
  intros d. apply triple_pure. intros Hd.
  eapply triple_post; [apply gate_lift| |done]. intros u s [H9%demand_Ok Hs]. split; [|done].
  apply orb_true_iff in H9. rewrite bool_decide_eq_true, Hd in H9.
  apply demand_Ok in H1, H2, H4, H5, H6, H8. apply andb_true_iff in H2 as [H2 H2'%bool_decide_eq_true].
  apply bind_Ok_inv in H3 as ([] & _ & H3%demand_Ok%bool_decide_eq_true).
  split; [|tauto]. split; try done.
  - split; [done|by apply nonempty_true].
  - split; [by apply is_configured_Some|done].
  - by apply is_configured_Some.
Qed.

(** The entry a creation finds for its handle. *)
Lemma existing_fact h :
  triple unmoved (_read_ledger_for_create (W:=W) h)
    (λ o s, (∀ n, ledger_files s0 !! h = Some n → ∃ p, o = Some p ∧
       _read_private_json_file (Some n) "cleanup ledger entry" "UNKNOWN_CLEANUP_HANDLE" UNKNOWN_HANDLE = Ok p) ∧
       unmoved s) untouched.
Proof.
  apply gate_fact; [quiet|]. intros s s' o Hs. destruct (unmoved_parts s Hs) as (Ef & _ & _ & _ & _ & Hp).
  unfold _read_ledger_for_create, read_entry. cbv [mbind prog_bind gets lift mret prog_ret].
  destruct (_validate_handle h); [|done]. rewrite (in_private s h Hp), Ef.
  destruct (ledger_files s0 !! h) as [n|] eqn:En; [|by intros _ n'].
  destruct (_assert_private_directory _ _); [|done]. rewrite (in_private s h Hp), Ef, En.
  destruct (_read_private_json_file _ _ _ _) as [p|] eqn:E; [|done].
  intros [= _ <-] n' [= <-]. by exists p.
Qed.

Lemma identity_fact q :
  triple unmoved (_verify_controller_identity utc_now kill0 self (q_kubeconfig q))
    (λ _ s, identity_verified s0 q ∧ unmoved s) untouched.
Proof.
  apply gate_fact; [apply quiet_identity|]. intros s s' u Hs.
  destruct (unmoved_parts s Hs) as (_ & _ & _ & _ & El & _).
  unfold _verify_controller_identity, identity_verified. destruct (controller_lease_file cfg).
  - cbv [mbind prog_bind gets lift mret prog_ret]. rewrite El.
    destruct (_read_private_json_file _ _ _ _) as [payload|]; [|done].
    destruct (process_alive _ _) as [alive|] eqn:Ea; [|done]. cbn -[_parse_datetime later].
    intros [= _ H%demand_Ok]. apply andb_true_iff in H as [[H1%bool_decide_eq_true H2]%andb_true_iff ->].
    destruct (_parse_datetime _) as [t|] eqn:Et; [|done]. exists payload, t, (gw_clock s). by split_and!.
  - intros Hrun ns name Ens En Hns Hname. rewrite Ens, En in Hrun.
    rewrite (proj2 (nonempty_true _) Hns), (proj2 (nonempty_true _) Hname) in Hrun. revert Hrun. cbn [andb].
    unfold on_backend. cbv [mbind prog_bind lift].
    destruct (get_pod_uid back ns name _ (gw_world s)) as [w [uid|]] eqn:E; [|done].
    intros [= _ H%demand_Ok%bool_decide_eq_true]. subst uid. by exists (gw_world s), w.
Qed.

(** The scans of the cleanup ledger. *)
Lemma scan_entry_at s msg h e : private s → entry_at (ledger_files s) h e →
  ∃ p, scan_entry (gw_ledger s) msg h = Ok p ∧ viewed p e ∧ h ∈ handles (gw_ledger s).
Proof.
  intros Hp (n & Hn & He). unfold scan_entry. rewrite in_private, Hn by done.
  destruct (read_private n "cleanup ledger entry" "CLEANUP_LEDGER_UNREADABLE" msg e He) as (p & E & Hv & _).
  exists p. split_and!; try done. apply elem_of_handles. by exists n.
Qed.

Lemma token_fact q :
  triple unmoved (_assert_baseline_token_unused (W:=W) (hexdigest (q_baseline_gate_token q)) (q_cleanup_handle q))
    (λ _ s, token_unused s0 q ∧ unmoved s) untouched.
Proof.
  apply gate_fact; [by apply (quiet_unused utc_now)|]. intros s s' u Hs.
  destruct (unmoved_parts s Hs) as (Ef & _ & _ & _ & _ & Hp). unfold _assert_baseline_token_unused.
  cbv [mbind prog_bind gets lift]. pose proof Hp as Hpr. unfold private in Hpr. rewrite Hpr.
  destruct (_assert_private_directory _ _); [|done]. intros [= _ Hfold] h e He Hne. destruct u. rewrite <- Ef in He.
  destruct (scan_entry_at s "A cleanup ledger entry disappeared while checking baseline token replay." h e Hp He)
    as (p & Ep & Hv & Hin).
  pose proof (foldM_unit _ _ _ Hfold h Hin) as Hstep. unfold token_unused_by in Hstep.
  rewrite Ep, bind_ok, (vw_handle _ _ Hv), is_str_VStr, (vw_token _ _ Hv), is_str_VStr in Hstep.
  rewrite bool_decide_false in Hstep by done. apply require_Ok in Hstep.
  by apply negb_true_iff, bool_decide_eq_false in Hstep.
Qed.


Definition decision_of s : option node :=
  if user_decision_file cfg
  then match gw_decision s with Some n => if is_file n then Some n else None | None => None end
  else None.

Lemma decision_of_Some s n : decision_of s = Some n → gw_decision s = Some n.
Proof. unfold decision_of. intros H. repeat case_match; congruence. Qed.

Lemma run_decision s : decision_node cfg s = (s, Ok (decision_of s)).
Proof. done. Qed.

(** Without an approved plan, only a delegated decision lets a request through. *)
Lemma no_plan_no_decision q s s' u :
  (∀ n d, decision_of s = Some n → read_decision n = Ok d →
     is_true (vget d "approved") = true → as_map (vget d "approved_plan") = None) →
  _assert_user_decision errors self q s = (s', Ok u) →
  decision_policy cfg = "agent_delegated" ∧ is_ok (_assert_not_report_only self s).2 = true.
Proof.
  intros Hno. unfold _assert_user_decision. cbv [mbind prog_bind mret prog_ret lift].
  assert (quiet (_assert_not_report_only self)) as Hq by quiet.
  destruct (Hq s) as [E _]. unfold frame in E. injection E as _ _ _ Ed _.
  destruct (_assert_not_report_only self s) as [s1 [[]|]]; [|done]. cbn [fst snd is_ok] in *.
  destruct (_assert_create_request_plan_schema errors cfg (executor_id self) q); [|done].
  case_bool_decide as Hp; [done|]. destruct (demand _ _ _); [|done].
  rewrite run_decision. assert (decision_of s1 = decision_of s) as -> by (unfold decision_of; by rewrite Ed).
  destruct (decision_of s) as [n|]; [|done]. destruct (read_decision n) as [d|] eqn:Er; [|done].
  unfold check_user_decision, demand. specialize (Hno n d eq_refl Er).
  destruct (is_true _); [|done]. cbn [require]. rewrite bind_ok.
  destruct (vget d "approved_plan"); try done. specialize (Hno eq_refl). done.
Qed.

Lemma decision_allows_same s s' q : gw_decision s = gw_decision s' →
  decision_allows s q → decision_allows s' q.
Proof.
  intros E [H|(H1 & H2 & H3)]; [left; by rewrite <- E|]. right. split; [done|split; [done|]].
  revert H3. unfold _assert_not_report_only. rewrite !prog_bind_eq, !run_decision.
  unfold decision_of. rewrite <- E. destruct (if user_decision_file cfg then _ else _) as [n|]; [|done].
  destruct (node_text n) as [d|]; [|done]. rewrite !prog_bind_eq. unfold lift.
  by destruct (attr_get d "report_only").
Qed.

Lemma reference_fact q :
  triple unmoved (_reference_plan_gate errors self q true)
    (λ _ s, decision_allows s0 q ∧ unmoved s) untouched.
Proof.
  apply gate_fact; [quiet|]. intros s s' devs Hs.
  intros Hrun. apply (decision_allows_same s); [by apply unmoved_parts in Hs as (_ & _ & _ & -> & _)|].
  clear Hs. revert Hrun.
  unfold _reference_plan_gate, _approved_plan_if_any. cbv [mbind prog_bind mret prog_ret when].
  rewrite run_decision. unfold lift at 1.
  assert ((∀ n d, decision_of s = Some n → read_decision n = Ok d →
     is_true (vget d "approved") = true → as_map (vget d "approved_plan") = None) →
     (let (s0, r) := lift (_assert_expected_fault_contract self q) s in
      match r with
      | Ok _ => let (s2, r0) := _assert_user_decision errors self q s0 in
                match r0 with Ok _ => (s2, Ok []) | Err e => (s2, Err e) end
      | Err e => (s0, Err e)
      end) = (s', Ok devs) → decision_allows s q) as Hnone.
  { intros Hno. unfold lift. destruct (_assert_expected_fault_contract self q) as [[]|] eqn:Ef; [|done].
    destruct (_assert_user_decision errors self q s) as [s2 [u|]] eqn:Eu; [|done].
    intros _. right. destruct (no_plan_no_decision q s s2 u Hno Eu). by split_and!. }
  destruct (decision_of s) as [n|] eqn:En.
  - destruct (read_decision n) as [d|] eqn:Er; [|done].
    destruct (if is_true (vget d "approved") then as_map (vget d "approved_plan") else None)
      as [approved|] eqn:Ea.
    + unfold lift. intros [= _ Hc]. left. exists n, d, approved, devs. apply decision_of_Some in En.
      destruct (vget d "approved") as [|[]| | | | |]; try done.
      destruct (vget d "approved_plan"); try done. injection Ea as ->. by split_and!.
    + intros H. eapply Hnone; [|exact H]. intros n' d' [= <-] Er' Ht.
      rewrite Er in Er'. injection Er' as <-. by rewrite Ht in Ea.
  - intros H. by eapply Hnone; [|exact H].
Qed.

Lemma baseline_fact q :
  triple unmoved (_verify_baseline_gate utc_now self q)
    (λ payload s, baseline_allows s0 q payload ∧ unmoved s) untouched.
Proof.
  unfold _verify_baseline_gate. learn u1 H1. learn u2 H2.
  eapply (triple_bind _ _ _ (λ d s, d = gw_baseline s0 ∧ unmoved s)).
  { apply triple_gets. intros s Hs. split; [|done]. by apply unmoved_parts in Hs as (_ & _ & -> & _). }
  intros d. apply triple_pure. intros ->. learn payload H3. learn u4 H4. learn u5 H5.
  eapply (triple_bind _ _ _ (λ now s, (∃ c, now = utc_of (utc_now c)) ∧ unmoved s)).
  { apply gate_fact; [apply quiet_now_utc|]. intros s s' now _ [= _ <-]. eauto. }
  intros now. apply triple_pure. intros [c ->]. learn u6 H6. apply triple_ret. intros s Hs.
  apply demand_Ok in H1, H2, H4, H5, H6. apply nonempty_true in H1. split; [|done].
  destruct (_parse_datetime _) as [t|] eqn:Et; [|done]. unfold baseline_allows. eauto 10.
Qed.

Lemma others_fact q : triple (λ s, untouched s ∧ ledger_files s = ledger_files s0 ∧ private s)
  (_assert_no_other_executor_active self (q_run_id q)) (λ _ s, no_other_executor s0 q ∧ untouched s) untouched.
Proof.
  intros s (Ht & Ef & Hp). destruct (quiet_no_other utc_now self (q_run_id q) s) as [E _]. unfold frame in E.
  injection E as _ Et _ _ _. unfold untouched in *.
  destruct (_assert_no_other_executor_active self (q_run_id q) s) as [s' [u|x]] eqn:Erun; cbn [fst] in Et; [|congruence].
  split; [|congruence]. clear Et. revert Erun.
  unfold _assert_no_other_executor_active, _iter_cleanup_ledger_paths.
  cbv [mbind prog_bind gets lift mret prog_ret]. pose proof Hp as Hpr. unfold private in Hpr. rewrite Hpr.
  destruct (_assert_private_directory _ _); [|done]. intros [= _ Hfold] h e He Hl Hr. destruct u.
  rewrite <- Ef in He.
  destruct (scan_entry_at s "A cleanup ledger entry disappeared while checking executor ownership." h e Hp He)
    as (p & Ep & Hv & Hin).
  pose proof (foldM_unit _ _ _ Hfold h Hin) as Hstep. unfold no_conflict_with in Hstep.
  rewrite Ep, bind_ok, (vw_run _ _ Hv), (vw_state _ _ Hv) in Hstep. cbn [py_str] in Hstep.
  rewrite (bool_decide_true _ Hr) in Hstep. cbn [negb] in Hstep.
  apply bind_Ok_inv in Hstep as (x & Hx & Hstep).
  unfold _ledger_executor_id in Hx. rewrite (vw_executor _ _ Hv) in Hx.
  destruct (nonempty (e_executor e)); [|done]. injection Hx as <-. case_bool_decide; [done|].
  apply require_Ok in Hstep. apply negb_true_iff, bool_decide_eq_false in Hstep. destruct Hstep.
  unfold live, LIVE, ACTIVE_STATES in *. rewrite !elem_of_cons in *. tauto.
Qed.

Lemma target_fact q :
  triple unmoved (verify_target self q)
    (λ _ s, (∃ w w', get_pod_uid back (q_namespace q) (q_target_name q) (q_kubeconfig q) w =
       (w', Ok (Some (q_target_uid q)))) ∧ unmoved s) untouched.
Proof.
  apply gate_fact; [quiet|]. intros s s' u _. unfold verify_target, on_backend.
  cbv [mbind prog_bind lift].
  destruct (get_pod_uid back _ _ _ (gw_world s)) as [w [[uid|]|]] eqn:E; try done.
  intros [= _ H%demand_Ok%bool_decide_eq_true]. subst uid. eauto.
Qed.

Lemma safety_fact q :
  triple untouched (safety_gate self q)
    (λ _ s, (∃ w w' records contract,
       list_experiments back (q_kubeconfig q) w = (w', Ok records) ∧
       (∀ r, r ∈ records → is_unsafe r = false) ∧
       action_admissible (request_action q) (default_policy (config_namespace_allowlist cfg))
         (active_in (q_namespace q) records) contract) ∧ untouched s) untouched.
Proof.
  intros s Hs. assert (quiet (safety_gate self q)) as Hq by quiet.
  destruct (Hq s) as [E _]. unfold frame in E. injection E as _ Et _ _ _.
  unfold untouched in *. destruct (safety_gate self q s) as [s' [n|x]] eqn:Er; cbn [fst] in Et; [|congruence].
  split; [|congruence]. revert Er. unfold safety_gate, on_backend. cbv [mbind prog_bind lift mret prog_ret].
  destruct (list_experiments back _ (gw_world s)) as [w [records|]] eqn:El; [|done].
  destruct (demand (empty _) _ _) as [[]|] eqn:Eu; [|done].
  destruct (validate_action _ _ _) as [r|] eqn:Ev; [|done].
  destruct (demand (ok r) _ _) as [[]|] eqn:Eok; [|done]. intros _.
  apply demand_Ok in Eu, Eok. apply (validate_action_ok_iff _ _ _ _ Ev) in Eok as [contract Hc].
  exists (gw_world s), w, records, contract. split_and!; [done| |done].
  intros r' Hr. destruct (is_unsafe r') eqn:Ei; [|done].
  assert (r' ∈ List.filter is_unsafe records) as Hin.
  { apply list_elem_of_In, filter_In. split; [by apply list_elem_of_In|done]. }
  destruct (List.filter is_unsafe records); [by apply not_elem_of_nil in Hin|done].
Qed.

(** What the gates before the live target say. *)
Record request_passed (q : CreateRequest) : Prop := {
  rp_runtime : runtime_gates q;
  rp_handle : handle_free s0 q;
  rp_identity : identity_verified s0 q;
  rp_fault : allowed_fault_types cfg = [] ∨ q_fault_type q ∈ allowed_fault_types cfg;
  rp_ttl : ∀ t, condition_safety_ttl_seconds cfg = Some t → q_duration_seconds q = t;
  rp_plan : is_ok (_assert_create_request_plan_schema errors cfg (executor_id self) q) = true;
  rp_decision : decision_allows s0 q;
  rp_baseline : ∃ payload, baseline_allows s0 q payload;
  rp_token : token_unused s0 q }.

Lemma request_fact q existing :
  (∀ n, ledger_files s0 !! q_cleanup_handle q = Some n → ∃ p, existing = Some p ∧
     _read_private_json_file (Some n) "cleanup ledger entry" "UNKNOWN_CLEANUP_HANDLE" UNKNOWN_HANDLE = Ok p) →
  triple unmoved (request_gates errors utc_now kill0 self q (_is_retriable_absent_uncertainty existing))
    (λ _ s, request_passed q ∧ unmoved s) untouched.
Proof.
  intros Hex. unfold request_gates. eapply triple_bind; [apply runtime_gates_fact|]. intros u1.
  apply triple_pure. intros [H1 H1']. learn ck Hck. eapply triple_bind; [apply identity_fact|]. intros u2.
  apply triple_pure. intros H2. learn u3 H3. learn u4 H4. learn o H5.
  eapply triple_bind; [apply reference_fact|]. intros devs. apply triple_pure. intros H6.
  eapply triple_bind; [apply baseline_fact|]. intros cap. apply triple_pure. intros H7.
  eapply triple_bind; [apply token_fact|]. intros u8. apply triple_pure. intros H8. apply triple_ret.
  intros s Hs. apply demand_Ok in H3, H4. split; try done. split; try done.
  - intros n Hn. destruct (Hex n Hn) as (p & -> & Hp). exists p. split; [done|].
    destruct H1' as [?|H1']; [done|]. by rewrite H1' in Hn.
  - apply orb_true_iff in H3 as [H3|H3%bool_decide_eq_true]; [left|by right].
    by destruct (allowed_fault_types cfg).
  - intros t Ht. rewrite Ht in H4. by apply Z.eqb_eq in H4.
  - by rewrite H5.
  - by exists cap.
Qed.

(** Programs that leave the trace as it is. *)
Lemma bind_baseline_fact q c :
  triple unmoved (_bind_agent_selected_baseline_target utc_now disk q c)
    (λ _ s, untouched s ∧ ledger_files s = ledger_files s0 ∧ private s) untouched.
Proof.
  intros s Hs. destruct (unmoved_parts s Hs) as (Ef & Et & _ & _ & _ & Hp).
  unfold _bind_agent_selected_baseline_target. destruct (_ || _ || _); [done|].
  unfold write, disk_outcome, _now_iso, _now_utc. cbv [mbind prog_bind lift mret prog_ret modify].
  destruct (py_int _); [|done]. by destruct (disk _).
Qed.

Lemma untouched_quiet {A} (m : gw A) : quiet m → triple untouched m (λ _, untouched) untouched.
Proof.
  intros Hm s Hs. destruct (Hm s) as [E _]. unfold frame in E. injection E as _ Et _ _ _.
  unfold untouched in *. destruct (m s) as [s' []]; cbn [fst] in Et; congruence.
Qed.
End gates.
