(* ===== verification/ChaosProps.v ===== *)
(** * What the chaos gateway promises

    The states that executors sharing a cleanup ledger reach, and the theorems on all of
    them; what must hold before a creation touches the cluster, what a deletion checks, what
    the sweep and a destruction leave behind, and how the gates relate to the plan schema. *)

From Stdlib Require Import QArith.
From S2P Require Import Prelude PyFloat PyVal PyTime PyIso Safety ConditionPolicy PlanSchema.
From S2P Require Import Sha256 Hoare ChaosGates ChaosLedger ChaosService ChaosEntries ChaosInv.
From S2P Require Import ChaosDelete ChaosSweep ChaosDestroy ChaosCreate.

#[local] Open Scope Z_scope.

(** ** Reachable states *)

Inductive Call :=
  | CCreate (q : CreateRequest)
  | CDestroy (cleanup_handle kubeconfig : string) (principal : Principal)
  | CSweep (now : option datetime)
  | CStatus (operation_id : option string) (cleanup_handle : string) (kubeconfig : option string)
      (include_ground_truth : bool)
  | CRecovery (cleanup_handle : string) (kubeconfig : option string)
  | CValidate (q : CreateRequest)
  | CInventory (namespace : string) (kubeconfig : option string)
  | CGet (namespace name : string) (kubeconfig : option string).

Section reachable.
Context {W : Type} (errors : mapping → list SchemaError) (utc_now : nat → Z)
  (disk : nat → DiskOutcome) (kill0 : Z → option exn).
Implicit Types (s : Gateway W).

Definition run_call (self : Service W) (c : Call) : prog (Gateway W) mapping :=
  match c with
  | CCreate q => create_experiment errors utc_now disk kill0 self q
  | CDestroy h k p => destroy_experiment utc_now disk self h k p
  | CSweep now => cleanup_expired_leases utc_now disk self now
  | CStatus o h k b => operation_status utc_now disk self o h k b
  | CRecovery h k => recovery_status utc_now disk self h k
  | CValidate q => validate_plan errors self q
  | CInventory ns k => inventory_run self ns k
  | CGet ns n k => get_experiment self ns n k
  end.

(** A tool call of any of the executors that share the ledger, whether it returns or
    raises, or a change of anything else: the cluster, the clock, the baseline ledger, the
    user's decision, the Controller's lease, the lock file. *)
Inductive step (services : list (Service W)) : Gateway W → Gateway W → Prop :=
  | step_call self c s : self ∈ services → executor_id self ≠ "" →
      step services s (run_call self c s).1
  | step_world s s' : gw_ledger s' = gw_ledger s → gw_trace s' = gw_trace s → step services s s'.

Definition fresh_gateway s : Prop := ledger_files s = ∅ ∧ gw_trace s = [].

Definition reachable services s : Prop := ∃ s0, fresh_gateway s0 ∧ rtc (step services) s0 s.

Lemma call_keeps self c : executor_id self ≠ "" → triple Rest (run_call self c) (λ _, Rest) Rest.
Proof.
  intros Hx. destruct c; cbn [run_call].
  - apply locked, Inv_create, Hx.
  - apply locked. eapply triple_post; [apply Inv_destroy| |done]. by intros a s (e & _ & _ & HI).
  - apply locked. eapply triple_bind; [apply Inv_sweep|]. intros acc. by apply triple_ret.
  - apply locked. unfold operation_status.
    eapply (triple_bind _ _ _ (λ _, Inv)); [by apply triple_lift|]. intros k.
    eapply (triple_bind _ _ _ (λ _, Inv)); [by apply triple_lift|]. intros [].
    eapply (triple_bind _ _ _ (λ o s, match o with Some p => ∃ e, holds cleanup_handle p e s | None => Inv s end)).
    { eapply triple_catch.
      - eapply triple_bind; [apply (triple_read_ledger disk)|]. intros p. by apply triple_ret.
      - intros x. case_match; [by apply triple_ret|by apply triple_lift]. }
    intros [p|]; [|by apply triple_ret]. apply triple_exists. intros e. apply Inv_status.
  - apply locked, Inv_recovery.
  - apply Rest_quiet. unfold validate_plan. quiet.
  - apply Rest_quiet. unfold inventory_run. quiet.
  - apply Rest_quiet. unfold get_experiment, live_record. quiet.
Qed.

Lemma reachable_Rest services s : reachable services s → Rest s.
Proof.
  intros (s0 & [Hf Ht] & Hr).
  assert (Rest s0) as H0 by (unfold Rest; rewrite Hf, Ht; apply ledger_inv_empty).
  clear Hf Ht. induction Hr as [s|s1 s2 s3 Hstep _ IH]; [done|]. apply IH. destruct Hstep as [self c s Hin Hx|s s' Hl Ht].
  - pose proof (call_keeps self c Hx s H0) as H. by destruct (run_call self c s) as [s' []].
  - unfold Rest, ledger_files in *. by rewrite Hl, Ht.
Qed.

(** What at most one element of a list is, is at one place. *)
Lemma filter_unique {A} (p : A → bool) l : (length (List.filter p l) <= 1)%nat → ∀ i j x y,
  l !! i = Some x → l !! j = Some y → p x = true → p y = true → i = j.
Proof.
  assert (∀ (l : list A) k z, l !! k = Some z → p z = true → List.filter p l ≠ []) as Hne.
  { intros l' k z Hk Hz E. apply (in_nil (a := z)). rewrite <- E. apply filter_In. split; [|done].
    by eapply list_elem_of_In, list_elem_of_lookup_2. }
  induction l as [|a l IH]; intros Hl [|i] [|j] x y Hi Hj Hx Hy; cbn in *; try done.
  - injection Hi as ->. rewrite Hx in Hl. cbn in Hl. exfalso. apply (Hne _ _ _ Hj Hy), nil_length_inv. lia.
  - injection Hj as ->. rewrite Hy in Hl. cbn in Hl. exfalso. apply (Hne _ _ _ Hi Hx), nil_length_inv. lia.
  - f_equal. apply (IH ltac:(destruct (p a); cbn in *; lia) _ _ _ _ Hi Hj Hx Hy).
Qed.

Lemma creates_unique h tr : (creates h tr <= 1)%nat → ∀ i j x m n x' m' n',
  tr !! i = Some (MCreate x h m n) → tr !! j = Some (MCreate x' h m' n') → i = j.
Proof.
  intros Hc i j x m n x' m' n' Hi Hj. by apply (filter_unique _ _ Hc i j _ _ Hi Hj); apply bool_decide_eq_true.
Qed.

(** The token of the entry a creation was recorded in. *)
Definition creation_token (n : option node) : option string :=
  nd ← n; e ← file_entry nd; Some (e_token e).

(** C3: In every state the executors that share a cleanup ledger can reach through their tool
    calls, failed writes, failing executors and changes of the world included, each cleanup
    handle and each baseline token has paid for at most one creation, and each creation was
    asked for with its own pending entry already in the ledger. *)
Theorem creation_paid_once services s : reachable services s →
  (∀ x h m n, MCreate x h m n ∈ gw_trace s → ∃ nd e, n = Some nd ∧ file_entry nd = Some e ∧
     e_executor e = x ∧ e_handle e = h ∧ e_state e = "pending_apply") ∧
  ∀ i j x h m n x' h' m' n',
    gw_trace s !! i = Some (MCreate x h m n) → gw_trace s !! j = Some (MCreate x' h' m' n') →
    h = h' ∨ creation_token n = creation_token n' → i = j.
Proof.
  intros HR%reachable_Rest. destruct HR as [H1 H2 H3 H4 H5]. split.
  - intros x h m n Hin. destruct (H5 _ _ _ _ Hin) as (nd & e & ? & ? & ? & ? & ? & _). eauto 10.
  - intros i j x h m n x' h' m' n' Hi Hj Heq. assert (h = h') as <-.
    { destruct Heq as [|Heq]; [done|]. destruct (decide (h = h')) as [|Hne]; [done|]. exfalso.
      destruct (H5 _ _ _ _ (list_elem_of_lookup_2 _ _ _ Hi)) as (nd & e & -> & F & _ & _ & _ & e1 & A1 & T1).
      destruct (H5 _ _ _ _ (list_elem_of_lookup_2 _ _ _ Hj)) as (nd' & e' & -> & F' & _ & _ & _ & e2 & A2 & T2).
      unfold creation_token in Heq. cbn in Heq. rewrite F, F' in Heq. cbn in Heq.
      apply (H2 _ _ _ _ A1 A2 Hne). congruence. }
    destruct (H4 h) as [Hc _]. by eapply creates_unique.
Qed.

(** In every reachable state of a shared cleanup ledger, two entries of one Trial that are
    active, about to be applied or of unknown outcome belong to the same executor. *)
Theorem executors_exclusive services s h h' e e' : reachable services s →
  entry_at (ledger_files s) h e → entry_at (ledger_files s) h' e' →
  e_run e = e_run e' → live e → live e' → e_executor e = e_executor e'.
Proof. intros HR%reachable_Rest. apply (li_exclusive _ _ HR). Qed.
End reachable.

(** ** What a creation needs before it touches the cluster *)


(** ** What ends a fault *)

Section ends.
Context {W : Type} (errors : mapping → list SchemaError) (utc_now : nat → Z)
  (disk : nat → DiskOutcome) (kill0 : Z → option exn) (self : Service W).
Implicit Types (s : Gateway W).

(** C15: A deletion is refused with nothing done, or issued for the entry's own experiment,
    owned by this executor and matching the live record, and then either raises or has found
    the experiment absent before it removes the fence. *)
Theorem deletion_checked p k s :
  let '(s', r) := _delete_and_verify_from_ledger self p k s in
  (gw_trace s' = gw_trace s ∧ is_ok r = false) ∨
  ∃ ns n w1, delete_allowed self p k ns n (gw_world s) w1 ∧
    ((gw_trace s' = MDelete (executor_id self) ns n :: gw_trace s ∧ is_ok r = false) ∨
     deleted self p k ns n w1 (gw_trace s) (gw_trace s')).
Proof. destruct (_delete_and_verify_from_ledger self p k s) as [s' r] eqn:E. by apply delete_run in E. Qed.

(** C6: A destruction that returns destroyed an entry of this executor: a live experiment was
    deleted only if it was the entry's own, it was found absent afterwards, the fence was
    removed after that, the entry's state is destroyed, and no other entry changed. *)
Theorem destruction_complete services h k pr s s' a : reachable errors utc_now disk kill0 services s →
  destroy_experiment utc_now disk self h k pr s = (s', Ok a) →
  ∃ e, entry_at (ledger_files s) h e ∧ destroyed self h e (ledger_files s) (gw_trace s) s'.
Proof.
  intros HR%reachable_Rest Hrun.
  destruct (lock_opens disk _ _ _ _ HR Hrun) as (s1 & HI & Ef & Hbody).
  unfold frame in Ef. injection Ef as Ef Et _ _ _. rewrite <- Ef, <- Et.
  destruct (ledger_files s1 !! h) as [n|] eqn:En.
  - destruct (Inv_entry _ _ _ HI En) as (e & He & _). exists e. split; [done|].
    pose proof (destroy_locked utc_now disk self h k pr e _ _ s1 (conj (conj HI (conj He eq_refl)) eq_refl)) as H.
    by rewrite Hbody in H.
  - exfalso. pose proof (destroy_unknown utc_now disk self h k pr s1 (conj (proj1 HI) En)) as H.
    by rewrite Hbody in H.
Qed.

End ends.

(** ** A small world *)

(** The records each executor sees. *)
Definition World : Type := list (string * ExperimentRecord).

Definition seen (x : string) (w : World) : list ExperimentRecord :=
  map snd (List.filter (λ e, bool_decide (e.1 = x)) w).
Definition named (namespace name : string) (r : ExperimentRecord) : bool :=
  bool_decide (rec_namespace r = namespace) && bool_decide (rec_name r = name).

Definition toy_manifest (name : string) (a : ChaosBladeAction) : mapping :=
  [("name", VStr name); ("namespace", VStr (Safety.namespace a)); ("run_id", VStr (Safety.run_id a));
   ("target_name", VStr (Safety.name (target a))); ("target_uid", VStr (uid (target a)));
   ("fault_type", VStr (Safety.fault_type a))].

Definition toy_record (m : mapping) : ExperimentRecord :=
  let get := λ k, match vget m k with VStr s => s | _ => "" end in
  {| rec_name := get "name"; rec_namespace := get "namespace"; rec_run_id := get "run_id";
     rec_target_name := get "target_name"; rec_target_uid := get "target_uid";
     rec_fault_type := get "fault_type"; rec_phase := "Running"; rec_owner := Some OWNER_VALUE;
     rec_labels := [] |}.

(** An executor [x]; when it is [flaky], a creation is made and then reported as failed. *)
Definition toy_backend (x : string) (flaky : bool) : ChaosBackend World := {|
  list_experiments := λ _ w, (w, Ok (seen x w));
  backend_get := λ ns n _ w, (w, Ok (List.find (named ns n) (seen x w)));
  get_pod_uid := λ _ _ _ w, (w, Ok (Some "9f1c2d3e-0000-4000-8000-000000000001"));
  backend_create := λ m _ w,
    ((x, toy_record m) :: w, if flaky then refuse "TIMEOUT" "no answer" else Ok (toy_record m));
  delete_experiment := λ ns n _ w,
    (List.filter (λ e, negb (bool_decide (e.1 = x) && named ns n e.2)) w, Ok tt);
  render_manifest := λ n a, Ok (toy_manifest n a);
  prepare_target_fence := λ _ _ _ _ w, (w, Ok tt);
  clear_target_fence := λ _ _ _ _ w, (w, Ok tt) |}.

Definition toy_config (variant : option string) : RuntimeConfig := {|
  execute_enabled := true; config_kubeconfig := Some "/kube"; config_cleanup_kubeconfig := Some "/finalizer";
  config_namespace_allowlist := ["shop"]; config_controller_token_ref := Some "ref/one";
  controller_pod_uid := Some "controller-1"; controller_pod_namespace := None; controller_pod_name := None;
  controller_lease_file := false; config_cleanup_handle := None; allowed_fault_types := [];
  expected_fault := None; decision_policy := "agent_delegated"; user_decision_file := false;
  baseline_ledger_dir := true; create_uncertainty_variant := variant;
  condition_safety_ttl_seconds := None |}.

Definition toy_service (x : string) (flaky : bool) (variant : option string) : Service World := {|
  config := toy_config variant; backend := toy_backend x flaky; executor_id := x |}.

Definition toy_request (handle token : string) : CreateRequest := {|
  q_run_id := "run-1"; q_namespace := "shop"; q_target_name := "cart-0";
  q_target_uid := "9f1c2d3e-0000-4000-8000-000000000001"; q_fault_type := "network-delay";
  q_duration_seconds := 120; q_intensity := [("delay_ms", VInt 200)]; q_kubeconfig := "/kube";
  q_controller_token_ref := "ref/one"; q_expected_controller_pod_uid := "controller-1";
  q_baseline_gate_token := token; q_cleanup_handle := handle; q_selector := None |}.

Definition toy_capability : node := File 384 (Some (VDict
  [("passed", VBool true); ("run_id", VStr "run-1"); ("namespace", VStr "shop");
   ("controller_pod_uid", VStr "controller-1"); ("target_name", VStr "cart-0");
   ("target_uid", VStr "9f1c2d3e-0000-4000-8000-000000000001");
   ("expires_at", VStr "2030-01-01T00:00:00Z")])).

Definition toy_gateway : Gateway World := {|
  gw_ledger := {| present := None; files := ∅ |}; gw_lock := None;
  gw_baseline := {| present := Some (true, 448);
    files := <[hexdigest "token-1" := toy_capability]> {[hexdigest "token-2" := toy_capability]} |};
  gw_decision := None; gw_lease := None; gw_clock := 0; gw_world := []; gw_trace := [] |}.

Definition no_errors (raw : mapping) : list SchemaError := [].
(** A second passes between two readings; the first is 2026-01-01. *)
Definition toy_clock (n : nat) : Z := 1767225600000000 + Z.of_nat n * 1000000.
Definition toy_disk (n : nat) : DiskOutcome := Written.
Definition toy_kill (pid : Z) : option exn := None.

Definition toy_run (self : Service World) (c : Call) (s : Gateway World) :=
  run_call no_errors toy_clock toy_disk toy_kill self c s.

Definition blade : Service World := toy_service "blade" false None.
Definition HANDLE : string := "cleanup-trial-0001".
Definition created_state : Gateway World := (toy_run blade (CCreate (toy_request HANDLE "token-1")) toy_gateway).1.

Definition HANDLE_2 : string := "cleanup-trial-0002".

(** The first creation's outcome is hidden, nothing being created; the second is made. *)
Definition lost_blade : Service World := toy_service "blade" false (Some "D6-A").
Definition two_entries : Gateway World :=
  (toy_run blade (CCreate (toy_request HANDLE_2 "token-2"))
     (toy_run lost_blade (CCreate (toy_request HANDLE "token-1")) toy_gateway).1).1.

(** What the ledger holds of a handle. *)
Definition ledger_entry (h : string) (s : Gateway World) : option Entry :=
  n ← ledger_files s !! h; file_entry n.

Lemma ledger_entry_at h s e : ledger_entry h s = Some e → entry_at (ledger_files s) h e.
Proof. unfold ledger_entry, entry_at. by intros (n & ? & ?)%bind_Some; exists n. Qed.

Lemma toy_step services self c s s' : self ∈ services → executor_id self ≠ "" →
  reachable no_errors toy_clock toy_disk toy_kill services s → (toy_run self c s).1 = s' →
  reachable no_errors toy_clock toy_disk toy_kill services s'.
Proof.
  intros Hin Hx (s0 & Hf & Hr) <-. exists s0. split; [done|]. eapply rtc_r; [exact Hr|]. by apply step_call.
Qed.

Lemma toy_start services : reachable no_errors toy_clock toy_disk toy_kill services toy_gateway.
Proof. exists toy_gateway. split; [by split|]. apply rtc_refl. Qed.

Lemma created_reachable : reachable no_errors toy_clock toy_disk toy_kill [blade] created_state.
Proof. by apply (toy_step _ blade (CCreate (toy_request HANDLE "token-1")) toy_gateway); [left| |apply toy_start|]. Qed.

Lemma two_reachable : reachable no_errors toy_clock toy_disk toy_kill [lost_blade; blade] two_entries.
Proof.
  apply (toy_step _ blade (CCreate (toy_request HANDLE_2 "token-2"))
    (toy_run lost_blade (CCreate (toy_request HANDLE "token-1")) toy_gateway).1); [by right; left|done| |done].
  by apply (toy_step _ lost_blade (CCreate (toy_request HANDLE "token-1")) toy_gateway); [left| |apply toy_start|].
Qed.

(** ** The theorems at work *)

Lemma creation_paid_once_witness :
  (∃ m nd e, MCreate "blade" HANDLE m (Some nd) ∈ gw_trace created_state ∧
     file_entry nd = Some e ∧ e_state e = "pending_apply") ∧
  ∀ i j x h m n x' h' m' n',
    gw_trace created_state !! i = Some (MCreate x h m n) →
    gw_trace created_state !! j = Some (MCreate x' h' m' n') → h = h' → i = j.
Proof.
  destruct (creation_paid_once _ _ _ _ _ _ created_reachable) as [H1 H2]. split.
  - destruct (gw_trace created_state) as [|[| |x h m n|] tr] eqn:E; try (vm_compute in E; discriminate E).
    assert (x = "blade" ∧ h = HANDLE) as [-> ->] by (vm_compute in E; injection E; intros; subst; by split).
    destruct (H1 "blade" HANDLE m n ltac:(left)) as (nd & e & -> & He & _ & _ & Hs).
    exists m, nd, e. split; [left|by split].
  - intros i j x h m n x' h' m' n' Hi Hj Hh. eapply H2; [exact Hi|exact Hj|by left].
Defined.

Lemma executors_exclusive_witness : ∃ e e',
  ledger_entry HANDLE two_entries = Some e ∧ ledger_entry HANDLE_2 two_entries = Some e' ∧
  e_executor e = e_executor e'.
Proof.
  destruct (ledger_entry HANDLE two_entries) as [e|] eqn:E; [|vm_compute in E; discriminate E].
  destruct (ledger_entry HANDLE_2 two_entries) as [e'|] eqn:E'; [|vm_compute in E'; discriminate E'].
  exists e, e'. split; [reflexivity|]. split; [reflexivity|].
  apply (executors_exclusive _ _ _ _ _ _ HANDLE HANDLE_2 e e' two_reachable);
    [by apply ledger_entry_at|by apply ledger_entry_at| | |];
    vm_compute in E, E'; injection E as <-; injection E' as <-;
    [reflexivity|right; right; left|left].
Defined.


Lemma destruction_complete_witness : ∃ (e : Entry) (s' : Gateway World),
  destroyed blade HANDLE e (ledger_files created_state) (gw_trace created_state) s'.
Proof.
  destruct (toy_run blade (CDestroy HANDLE "/kube" AGENT_MCP) created_state) as [s' [a|x]] eqn:E.
  - destruct (destruction_complete _ _ _ _ blade _ HANDLE "/kube" AGENT_MCP _ s' a created_reachable E) as (e & _ & H).
    by exists e, s'.
  - exfalso. assert (is_ok (toy_run blade (CDestroy HANDLE "/kube" AGENT_MCP) created_state).2 = true) as Hok
      by (vm_compute; reflexivity). by rewrite E in Hok.
Defined.

(** A thousand seconds on, the entry is due. *)
Definition later_on : datetime := utc_of (toy_clock 1000).


Definition answers (r : result mapping) (k : string) : val := match r with Ok a => vget a k | Err _ => VNone end.

Example sweep_cleans :
  answers (toy_run blade (CSweep (Some later_on)) created_state).2 "cleaned" = VList [VStr HANDLE] ∧
  e_state <$> ledger_entry HANDLE (toy_run blade (CSweep (Some later_on)) created_state).1 = Some "expired_cleaned".
Proof. split; vm_compute; reflexivity. Qed.

(** An executor whose creation was made but reported as failed leaves a [create_failed]
    entry, which [_assert_no_other_executor_active] does not look at: another executor
    then creates a second fault of the same Trial. *)
Definition mesh : Service World := toy_service "mesh" true None.
Definition both_live : Gateway World :=
  (toy_run blade (CCreate (toy_request HANDLE_2 "token-2"))
     (toy_run mesh (CCreate (toy_request HANDLE "token-1")) toy_gateway).1).1.

Example two_executors_one_trial :
  map (λ e, (e.1, rec_run_id e.2, terminal e.2)) (gw_world both_live) =
    [("blade", "run-1", false); ("mesh", "run-1", false)] ∧
  (λ e, (e_executor e, e_state e)) <$> ledger_entry HANDLE both_live = Some ("mesh", "create_failed") ∧
  (λ e, (e_executor e, e_state e)) <$> ledger_entry HANDLE_2 both_live = Some ("blade", "active").
Proof. split_and!; vm_compute; reflexivity. Qed.

(** A creation that fails after the fence and before its entry is written leaves the fence,
    and nothing in the ledger to clear it by. *)
Definition misconfigured : Service World := toy_service "blade" false (Some "D7").

Definition stranded : Gateway World * result mapping :=
  toy_run misconfigured (CCreate (toy_request HANDLE "token-1")) toy_gateway.

Example fence_left_behind :
  is_ok stranded.2 = false ∧ ledger_entry HANDLE stranded.1 = None ∧
  gw_trace stranded.1 = [MFence "shop" "cart-0" "9f1c2d3e-0000-4000-8000-000000000001"].
Proof. split_and!; vm_compute; reflexivity. Qed.
