(* ===== verification/RunStore.v ===== *)
(** * The run store ([controller/run_contracts.py], [controller/run_store.py])

    One benchmark run's specification and its row in the control plane's database: phases,
    terminal status, events, the cluster's mutation lease and the workers' leases. A JSON
    column holds the document it encodes; a time column its text, which SQL compares as
    text. Rows of a query without an order come in the order of their insertion. *)

From S2P Require Import Prelude PyFloat PyVal PyTime PyIso PyIsoOrder PyStamp PyJson Sha256.

#[local] Open Scope Z_scope.

(** ** Contracts *)

(** [^\[a-z0-9\]\[a-z0-9._-\]{1,127}$] *)
Definition IDENTIFIER_PATTERN (s : string) : bool :=
  match chars s with
  | c :: rest => is_lower_alnum c && forallb (λ c, is_lower_alnum c || one_of "._-" c) rest &&
                 (1 <=? length rest)%nat && (length rest <=? 127)%nat
  | [] => false
  end.

(** [^\[a-z\]\[a-z0-9_-\]{0,31}$] *)
Definition ALIAS_PATTERN (s : string) : bool :=
  match chars s with
  | c :: rest => is_lower c && forallb (λ c, is_lower_alnum c || one_of "_-" c) rest && (length rest <=? 31)%nat
  | [] => false
  end.

Inductive RunMode := DRY_RUN | EXECUTE.
Inductive AnalysisMode := DETERMINISTIC | MODEL.
Inductive Track := NATIVE | BLADEAI_MODEL.
Definition run_mode_value (m : RunMode) : string := match m with DRY_RUN => "dry_run" | EXECUTE => "execute" end.

Inductive RunPhase :=
  CREATED | SCANNING | MATCHING | DESIGNING | QUALIFYING | AWAITING_APPROVAL | BASELINING | EXECUTING
  | RECOVERING | EVALUATING | SCORING | CLEANING_UP.
#[export] Instance RunPhase_eq_dec : EqDecision RunPhase.
Proof. solve_decision. Defined.

Definition all_phases : list RunPhase :=
  [CREATED; SCANNING; MATCHING; DESIGNING; QUALIFYING; AWAITING_APPROVAL; BASELINING; EXECUTING;
   RECOVERING; EVALUATING; SCORING; CLEANING_UP].

Definition run_phase_value (p : RunPhase) : string :=
  match p with
  | CREATED => "CREATED" | SCANNING => "SCANNING" | MATCHING => "MATCHING" | DESIGNING => "DESIGNING"
  | QUALIFYING => "QUALIFYING" | AWAITING_APPROVAL => "AWAITING_APPROVAL" | BASELINING => "BASELINING"
  | EXECUTING => "EXECUTING" | RECOVERING => "RECOVERING" | EVALUATING => "EVALUATING"
  | SCORING => "SCORING" | CLEANING_UP => "CLEANING_UP"
  end.

Inductive RunTerminalStatus :=
  COMPLETED | FAILED | BLOCKED | RESET_FAILED | ABORTED | CASE_INVALID | NO_EXECUTABLE_EPISODE.
#[export] Instance RunTerminalStatus_eq_dec : EqDecision RunTerminalStatus.
Proof. solve_decision. Defined.

Definition terminal_value (t : RunTerminalStatus) : string :=
  match t with
  | COMPLETED => "COMPLETED" | FAILED => "FAILED" | BLOCKED => "BLOCKED" | RESET_FAILED => "RESET_FAILED"
  | ABORTED => "ABORTED" | CASE_INVALID => "CASE_INVALID" | NO_EXECUTABLE_EPISODE => "NO_EXECUTABLE_EPISODE"
  end.

Definition ALLOWED_PHASE_TRANSITIONS (p : RunPhase) : list RunPhase :=
  match p with
  | CREATED => [SCANNING] | SCANNING => [MATCHING] | MATCHING => [DESIGNING] | DESIGNING => [QUALIFYING]
  | QUALIFYING => [AWAITING_APPROVAL; BASELINING] | AWAITING_APPROVAL => [BASELINING]
  | BASELINING => [EXECUTING] | EXECUTING => [RECOVERING] | RECOVERING => [EVALUATING]
  | EVALUATING => [SCORING] | SCORING => [] | CLEANING_UP => []
  end.

Record ScanScope := {
  application : string; scan_namespace : string; source_lock_id : string;
  evidence_roots : list string; include_live_runtime : bool }.

Record HarnessSelection := { harness_id : string; model_alias : string; track : Track }.

Record ProgressionPolicy := {
  profile_id : string; max_levels : Z; retry_budget_per_level : Z; total_retry_budget : Z }.

Record ScoringPolicy := { policy_id : string; allow_provisional_efficiency : bool }.

Record RunSpec := {
  spec_request_id : string; requester : string; spec_mode : RunMode; analysis_mode : AnalysisMode;
  scan : ScanScope; harness : HarnessSelection; progression : ProgressionPolicy;
  scoring : ScoringPolicy; auto_approve : bool }.

Definition unique (l : list string) : bool := (length (remove_dups l) =? length l)%nat.

Definition scan_ok (s : ScanScope) : bool :=
  IDENTIFIER_PATTERN (application s) && IDENTIFIER_PATTERN (scan_namespace s) &&
  IDENTIFIER_PATTERN (source_lock_id s) && (length (evidence_roots s) <=? 12)%nat &&
  unique (evidence_roots s) && forallb ALIAS_PATTERN (evidence_roots s).

Definition harness_ok (h : HarnessSelection) : bool :=
  IDENTIFIER_PATTERN (harness_id h) && IDENTIFIER_PATTERN (model_alias h).

Definition progression_ok (p : ProgressionPolicy) : bool :=
  IDENTIFIER_PATTERN (profile_id p) && (1 <=? max_levels p) && (max_levels p <=? 8) &&
  (0 <=? retry_budget_per_level p) && (retry_budget_per_level p <=? 3) &&
  (0 <=? total_retry_budget p) && (total_retry_budget p <=? 24) &&
  (max_levels p * retry_budget_per_level p <=? total_retry_budget p).

Definition spec_ok (s : RunSpec) : bool :=
  IDENTIFIER_PATTERN (spec_request_id s) && IDENTIFIER_PATTERN (requester s) && scan_ok (scan s) &&
  harness_ok (harness s) && progression_ok (progression s) && IDENTIFIER_PATTERN (policy_id (scoring s)).

(** [spec.model_dump(mode="json")] *)
Definition scan_dump (s : ScanScope) : Json := JObj
  [("application", JStr (application s)); ("namespace", JStr (scan_namespace s));
   ("source_lock_id", JStr (source_lock_id s)); ("evidence_roots", JList (map JStr (evidence_roots s)));
   ("include_live_runtime", JBool (include_live_runtime s))].
Definition harness_dump (h : HarnessSelection) : Json := JObj
  [("harness_id", JStr (harness_id h)); ("model_alias", JStr (model_alias h));
   ("track", JStr (match track h with NATIVE => "native" | BLADEAI_MODEL => "bladeai-model" end))].
Definition progression_dump (p : ProgressionPolicy) : Json := JObj
  [("profile_id", JStr (profile_id p)); ("max_levels", JInt (max_levels p));
   ("retry_budget_per_level", JInt (retry_budget_per_level p)); ("total_retry_budget", JInt (total_retry_budget p))].
Definition scoring_dump (s : ScoringPolicy) : Json := JObj
  [("policy_id", JStr (policy_id s)); ("allow_provisional_efficiency", JBool (allow_provisional_efficiency s))].
Definition spec_dump (s : RunSpec) : Json := JObj
  [("schema_version", JStr "run-spec.v1"); ("request_id", JStr (spec_request_id s));
   ("requester", JStr (requester s)); ("mode", JStr (run_mode_value (spec_mode s)));
   ("analysis_mode", JStr (match analysis_mode s with DETERMINISTIC => "deterministic" | MODEL => "model" end));
   ("scan", scan_dump (scan s)); ("harness", harness_dump (harness s));
   ("progression", progression_dump (progression s)); ("scoring", scoring_dump (scoring s));
   ("auto_approve", JBool (auto_approve s))].

Definition _canonical_spec (s : RunSpec) : string := dumps_sorted (spec_dump s).
Definition spec_digest (s : RunSpec) : string := hexdigest (_canonical_spec s).

(** ** The database *)

Record RunRow := {
  rr_id : string; rr_spec : RunSpec; rr_digest : string; rr_phase : RunPhase;
  rr_terminal : option RunTerminalStatus; rr_desired : option RunTerminalStatus; rr_abort : bool;
  rr_revision : Z; rr_created_at : string; rr_updated_at : string; rr_last_error : option string }.

Record EventRow := {
  ev_id : string; ev_run : string; ev_sequence : Z; ev_type : string; ev_phase : RunPhase;
  ev_terminal : option RunTerminalStatus; ev_occurred_at : string; ev_detail : val }.

Record MutationRow := { ml_run : string; ml_acquired_at : string; ml_heartbeat_at : string; ml_expires_at : string }.

Record WorkerRow := { wl_worker : string; wl_acquired_at : string; wl_heartbeat_at : string; wl_expires_at : string }.

Record RunDB := {
  runs : list RunRow;
  run_events : list EventRow;
  mutation_lease : option MutationRow;
  worker_leases : gmap string WorkerRow }.

Definition with_runs (f : list RunRow → list RunRow) (d : RunDB) : RunDB := {|
  runs := f (runs d); run_events := run_events d; mutation_lease := mutation_lease d;
  worker_leases := worker_leases d |}.
Definition with_event (e : EventRow) (d : RunDB) : RunDB := {|
  runs := runs d; run_events := run_events d ++ [e]; mutation_lease := mutation_lease d;
  worker_leases := worker_leases d |}.
Definition with_mutation (l : option MutationRow) (d : RunDB) : RunDB := {|
  runs := runs d; run_events := run_events d; mutation_lease := l; worker_leases := worker_leases d |}.
Definition with_workers (f : gmap string WorkerRow → gmap string WorkerRow) (d : RunDB) : RunDB := {|
  runs := runs d; run_events := run_events d; mutation_lease := mutation_lease d;
  worker_leases := f (worker_leases d) |}.

Definition run_at (run_id : string) (d : RunDB) : option RunRow :=
  List.find (λ r, bool_decide (rr_id r = run_id)) (runs d).

(** [UPDATE runs SET ... WHERE run_id = ?] *)
Definition update_run (run_id : string) (f : RunRow → RunRow) (d : RunDB) : RunDB :=
  with_runs (map (λ r, if bool_decide (rr_id r = run_id) then f r else r)) d.

Definition events_of (run_id : string) (d : RunDB) : list EventRow :=
  List.filter (λ e, bool_decide (ev_run e = run_id)) (run_events d).

(** What an update of a run's row may set. *)
Definition set_phase (p : RunPhase) (desired : option RunTerminalStatus) (abort : bool) (now : string)
    (r : RunRow) : RunRow := {|
  rr_id := rr_id r; rr_spec := rr_spec r; rr_digest := rr_digest r; rr_phase := p;
  rr_terminal := rr_terminal r; rr_desired := desired; rr_abort := abort; rr_revision := rr_revision r + 1;
  rr_created_at := rr_created_at r; rr_updated_at := now; rr_last_error := rr_last_error r |}.
Definition set_updated (abort : bool) (now : string) (r : RunRow) : RunRow := {|
  rr_id := rr_id r; rr_spec := rr_spec r; rr_digest := rr_digest r; rr_phase := rr_phase r;
  rr_terminal := rr_terminal r; rr_desired := rr_desired r; rr_abort := abort; rr_revision := rr_revision r;
  rr_created_at := rr_created_at r; rr_updated_at := now; rr_last_error := rr_last_error r |}.
Definition set_terminal (t : RunTerminalStatus) (error : option string) (now : string) (r : RunRow) : RunRow := {|
  rr_id := rr_id r; rr_spec := rr_spec r; rr_digest := rr_digest r; rr_phase := rr_phase r;
  rr_terminal := Some t; rr_desired := rr_desired r; rr_abort := rr_abort r; rr_revision := rr_revision r + 1;
  rr_created_at := rr_created_at r; rr_updated_at := now; rr_last_error := error |}.

(** ** Records *)

Record RunRecord := {
  rec_run_id : string; rec_spec : RunSpec; rec_spec_sha256 : string; rec_phase : RunPhase;
  rec_terminal_status : option RunTerminalStatus; rec_desired_terminal_status : option RunTerminalStatus;
  rec_abort_requested : bool; rec_revision : Z; rec_created_at : datetime; rec_updated_at : datetime;
  rec_last_error : option string }.

Record RunEvent := {
  re_event_id : string; re_run_id : string; re_sequence : Z; re_event_type : string; re_phase : RunPhase;
  re_terminal_status : option RunTerminalStatus; re_occurred_at : datetime; re_detail : val }.

Record MutationLease := {
  mut_run_id : string; mut_acquired_at : datetime; mut_heartbeat_at : datetime; mut_expires_at : datetime }.

Record WorkerLease := {
  wrk_run_id : string; wrk_worker_id : string; wrk_acquired_at : datetime; wrk_heartbeat_at : datetime;
  wrk_expires_at : datetime }.

Definition is_terminal (r : RunRecord) : bool := bool_decide (is_Some (rec_terminal_status r)).

Definition _record (r : RunRow) : result RunRecord :=
  require (spec_ok (rr_spec r)) ValueError "validation error for RunSpec" ;;
  created ← parsed (rr_created_at r);
  updated ← parsed (rr_updated_at r);
  require (0 <=? rr_revision r) ValueError "Input should be greater than or equal to 0" ;;
  Ok {| rec_run_id := rr_id r; rec_spec := rr_spec r; rec_spec_sha256 := rr_digest r; rec_phase := rr_phase r;
        rec_terminal_status := rr_terminal r; rec_desired_terminal_status := rr_desired r;
        rec_abort_requested := rr_abort r; rec_revision := rr_revision r; rec_created_at := created;
        rec_updated_at := updated;
        rec_last_error := e ← rr_last_error r; if nonempty e then Some e else None |}.

Definition _event (e : EventRow) : result RunEvent :=
  occurred ← parsed (ev_occurred_at e);
  require (1 <=? ev_sequence e) ValueError "Input should be greater than or equal to 1" ;;
  Ok {| re_event_id := ev_id e; re_run_id := ev_run e; re_sequence := ev_sequence e;
        re_event_type := ev_type e; re_phase := ev_phase e; re_terminal_status := ev_terminal e;
        re_occurred_at := occurred; re_detail := ev_detail e |}.

(** [a > b] of two datetimes *)
Definition dt_gt (a b : datetime) : result bool :=
  match dt_sub a b with
  | Ok d => Ok (0 <? d)
  | Err _ => raise TypeError "can't compare offset-naive and offset-aware datetimes"
  end.

(** ** The store *)

(** [store_ticks] counts the readings of the clock, of [uuid4] and of SQLite's answers. *)
Record Store := { store_db : RunDB; store_ticks : nat }.

Definition RunNotFoundError : exn_kind := OtherError "RunNotFoundError".
Definition TransitionError : exn_kind := OtherError "TransitionError".
Definition LeaseConflictError : exn_kind := OtherError "LeaseConflictError".

Section store.
(** The [n]-th reading of the clock and [uuid4]; whether SQLite starts or commits the
    transaction when asked. *)
Context (utc_now : nat → Z) (uuid : nat → string) (sqlite : nat → option exn).

#[local] Abbreviation st := (prog Store).

Definition ticked (s : Store) : Store := {| store_db := store_db s; store_ticks := S (store_ticks s) |}.

Definition _utc_now : st datetime := λ s, (ticked s, Ok (utc_of (utc_now (store_ticks s)))).
Definition uuid4 : st string := λ s, (ticked s, Ok (uuid (store_ticks s))).
Definition sqlite_answer : st unit := λ s,
  (ticked s, match sqlite (store_ticks s) with Some e => Err e | None => Ok tt end).

Definition update_db (f : RunDB → RunDB) : st unit :=
  modify (λ s, {| store_db := f (store_db s); store_ticks := store_ticks s |}).
Definition read_db {A} (f : RunDB → A) : st A := gets (λ s, f (store_db s)).

(** [_write]: an exception in the body or of the commit rolls back. *)
Definition _write {A} (body : st A) : st A := λ s,
  match (sqlite_answer ;; a ← body; sqlite_answer ;; mret a) s with
  | (s', Ok a) => (s', Ok a)
  | (s', Err e) => ({| store_db := store_db s; store_ticks := store_ticks s' |}, Err e)
  end.

(** [_as_utc(now or _utc_now())] *)
Definition current (now : option datetime) : st datetime :=
  match now with Some t => lift (dt_in_range (as_utc t)) | None => _utc_now end.

Definition _require_row (run_id : string) : st RunRow :=
  o ← read_db (run_at run_id);
  lift (opt_or_raise o RunNotFoundError ("run not found: " +:+ run_id)).

(** [COALESCE(MAX(sequence), 0) + 1] *)
Definition next_sequence (run_id : string) (d : RunDB) : Z :=
  foldr Z.max 0 (map ev_sequence (events_of run_id d)) + 1.

Definition _append_event (run_id event_type : string) (phase : RunPhase)
    (terminal : option RunTerminalStatus) (detail : mapping) (occurred_at : datetime) : st unit :=
  sequence ← read_db (next_sequence run_id);
  id ← uuid4;
  clash ← read_db (λ d, existsb (λ e, bool_decide (ev_id e = id)) (run_events d));
  lift (require (negb clash) IntegrityError "UNIQUE constraint failed: run_events.event_id") ;;
  update_db (with_event {|
    ev_id := id; ev_run := run_id; ev_sequence := sequence; ev_type := event_type; ev_phase := phase;
    ev_terminal := terminal; ev_occurred_at := isoformat occurred_at;
    ev_detail := VDict (sort_mapping detail) |}).

(** One statement on a connection that only reads. *)
Definition reading {A} (f : RunDB → A) : st A := sqlite_answer ;; read_db f.

Definition row_record (run_id : string) : st RunRecord := row ← _require_row run_id; lift (_record row).

Definition create_or_get (run_id : string) (spec : RunSpec) : st (RunRecord * bool) :=
  let digest := spec_digest spec in
  now ← _utc_now;
  _write (
    existing ← read_db (λ d, List.find (λ r, bool_decide (spec_request_id (rr_spec r) = spec_request_id spec)) (runs d));
    match existing with
    | Some row =>
        lift (require (bool_decide (rr_digest row = digest)) ValueError
                "idempotency key request_id already exists with a different RunSpec") ;;
        record ← lift (_record row);
        mret (record, false)
    | None =>
        clash ← read_db (run_at run_id);
        lift (require (bool_decide (clash = None)) IntegrityError "UNIQUE constraint failed: runs.run_id") ;;
        update_db (with_runs (λ l, l ++ [{|
          rr_id := run_id; rr_spec := spec; rr_digest := digest; rr_phase := CREATED; rr_terminal := None;
          rr_desired := None; rr_abort := false; rr_revision := 0; rr_created_at := isoformat now;
          rr_updated_at := isoformat now; rr_last_error := None |}])) ;;
        _append_event run_id "RUN_CREATED" CREATED None [("mode", VStr (run_mode_value (spec_mode spec)))] now ;;
        record ← row_record run_id;
        mret (record, true)
    end).

Definition get (run_id : string) : st RunRecord :=
  o ← reading (run_at run_id);
  row ← lift (opt_or_raise o RunNotFoundError ("run not found: " +:+ run_id));
  lift (_record row).

Definition list_runs (limit : Z) : st (list RunRecord) :=
  rows ← reading (λ d,
    let rows := sort_by (λ a b, str_leb (rr_created_at b) (rr_created_at a)) (runs d) in
    if limit <? 0 then rows else take (Z.to_nat limit) rows);
  lift (mapM _record rows).

Definition list_events (run_id : string) (after_sequence : Z) : st (list RunEvent) :=
  get run_id ;;
  rows ← reading (λ d, sort_by (λ a b, ev_sequence a <=? ev_sequence b)
    (List.filter (λ e, after_sequence <? ev_sequence e) (events_of run_id d)));
  lift (mapM _event rows).

(** [^\[A-Z\]\[A-Z0-9_\]{2,63}$] *)
Definition event_type_ok (s : string) : bool :=
  match chars s with
  | c :: rest => is_upper c && forallb (λ c, is_upper c || is_digit c || one_of "_" c) rest &&
                 (2 <=? length rest)%nat && (length rest <=? 63)%nat
  | [] => false
  end.

Definition append_event (run_id event_type : string) (detail : mapping) : st RunRecord :=
  lift (require (event_type_ok event_type) ValueError "event_type must be an uppercase stable identifier") ;;
  now ← _utc_now;
  _write (
    row ← _require_row run_id;
    _append_event run_id event_type (rr_phase row) (rr_terminal row) detail now ;;
    update_db (update_run run_id (λ r, set_updated (rr_abort r) (isoformat now) r)) ;;
    row_record run_id).

Definition transition (run_id : string) (next_phase : RunPhase) (detail : option mapping) : st RunRecord :=
  now ← _utc_now;
  _write (
    row ← _require_row run_id;
    lift (require (bool_decide (rr_terminal row = None)) TransitionError "terminal run cannot transition") ;;
    lift (require (bool_decide (next_phase ∈ ALLOWED_PHASE_TRANSITIONS (rr_phase row))) TransitionError
            ("cannot transition from " +:+ run_phase_value (rr_phase row) +:+ " to " +:+ run_phase_value next_phase)) ;;
    update_db (update_run run_id (λ r, set_phase next_phase (rr_desired r) (rr_abort r) (isoformat now) r)) ;;
    _append_event run_id "PHASE_TRANSITIONED" next_phase None (default [] detail) now ;;
    row_record run_id).

Definition request_cleanup (run_id : string) (terminal_status : RunTerminalStatus) (reason : string)
    (abort_requested : bool) : st RunRecord :=
  now ← _utc_now;
  _write (
    row ← _require_row run_id;
    if bool_decide (rr_terminal row ≠ None) then lift (_record row)
    else if bool_decide (rr_phase row = CLEANING_UP) then
      lift (require (bool_decide (rr_desired row = Some terminal_status)) TransitionError
              "cleanup already requested with a different terminal status") ;;
      when (abort_requested && negb (rr_abort row))
        (update_db (update_run run_id (set_updated true (isoformat now)))) ;;
      row_record run_id
    else
      update_db (update_run run_id
        (set_phase CLEANING_UP (Some terminal_status) (abort_requested || rr_abort row) (isoformat now))) ;;
      _append_event run_id (if abort_requested then "ABORT_REQUESTED" else "CLEANUP_REQUESTED") CLEANING_UP None
        [("reason", VStr reason); ("desired_terminal_status", VStr (terminal_value terminal_status))] now ;;
      row_record run_id).

Definition finish_cleanup (run_id : string) (verified : bool) (detail : option mapping) : st RunRecord :=
  now ← _utc_now;
  _write (
    row ← _require_row run_id;
    if bool_decide (rr_terminal row ≠ None) then lift (_record row)
    else
      lift (require (bool_decide (rr_phase row = CLEANING_UP)) TransitionError
              "terminal status can only be set after cleanup was requested") ;;
      desired ← lift (opt_or_raise (rr_desired row) TransitionError "cleanup has no desired terminal status");
      let terminal := if verified then desired else RESET_FAILED in
      let last_error := if verified then None else Some "cleanup verification failed" in
      update_db (update_run run_id (set_terminal terminal last_error (isoformat now))) ;;
      _append_event run_id "RUN_TERMINATED" CLEANING_UP (Some terminal)
        (dict_update [("cleanup_verified", VBool verified)] (default [] detail)) now ;;
      update_db (λ d, with_mutation (l ← mutation_lease d; if bool_decide (ml_run l = run_id) then None else Some l) d) ;;
      row_record run_id).

Definition acquire_mutation_lease (run_id : string) (ttl_seconds : Z) (now : option datetime) : st MutationLease :=
  lift (require ((5 <=? ttl_seconds) && (ttl_seconds <=? 600)) ValueError
          "mutation lease ttl_seconds must be between 5 and 600") ;;
  current_time ← current now;
  expires_at ← lift (plus_seconds current_time ttl_seconds);
  _write (
    run ← _require_row run_id;
    lift (require (bool_decide (rr_terminal run = None)) LeaseConflictError
            "terminal run cannot acquire mutation lease") ;;
    row ← read_db mutation_lease;
    acquired_at ← lift (
      match row with
      | Some l =>
          expiry ← parsed (ml_expires_at l);
          live ← dt_gt expiry current_time;
          require (negb (bool_decide (ml_run l ≠ run_id) && live)) LeaseConflictError
            ("mutation lease is held by " +:+ ml_run l) ;;
          if bool_decide (ml_run l = run_id) && live then parsed (ml_acquired_at l) else Ok current_time
      | None => Ok current_time
      end);
    update_db (with_mutation (Some {|
      ml_run := run_id; ml_acquired_at := isoformat acquired_at; ml_heartbeat_at := isoformat current_time;
      ml_expires_at := isoformat expires_at |})) ;;
    _append_event run_id "MUTATION_LEASE_ACQUIRED" (rr_phase run) None
      [("expires_at", VStr (isoformat expires_at))] current_time ;;
    mret {| mut_run_id := run_id; mut_acquired_at := acquired_at; mut_heartbeat_at := current_time;
            mut_expires_at := expires_at |}).

Definition get_mutation_lease : st (option MutationLease) :=
  row ← reading mutation_lease;
  match row with
  | None => mret None
  | Some l =>
      acquired ← lift (parsed (ml_acquired_at l));
      heartbeat ← lift (parsed (ml_heartbeat_at l));
      expires ← lift (parsed (ml_expires_at l));
      mret (Some {| mut_run_id := ml_run l; mut_acquired_at := acquired; mut_heartbeat_at := heartbeat;
                    mut_expires_at := expires |})
  end.

Definition release_mutation_lease (run_id : string) : st bool :=
  now ← _utc_now;
  _write (
    run ← _require_row run_id;
    row ← read_db mutation_lease;
    if bool_decide (ml_run <$> row = Some run_id) then
      update_db (with_mutation None) ;;
      _append_event run_id "MUTATION_LEASE_RELEASED" (rr_phase run) (rr_terminal run) [] now ;;
      mret true
    else mret false).

(** [^\[a-z0-9\]\[a-z0-9._-\]{2,63}$] *)
Definition worker_id_ok (s : string) : bool :=
  match chars s with
  | c :: rest => is_lower_alnum c && forallb (λ c, is_lower_alnum c || one_of "._-" c) rest &&
                 (2 <=? length rest)%nat && (length rest <=? 63)%nat
  | [] => false
  end.

(** The query of [claim_next_run]: the oldest unfinished run in one of the phases that
    nobody leases. *)
Definition claimable (phases : list RunPhase) (d : RunDB) (r : RunRow) : bool :=
  bool_decide (rr_terminal r = None) && bool_decide (worker_leases d !! rr_id r = None) &&
  bool_decide (rr_phase r ∈ phases).
Definition next_claim (phases : list RunPhase) (d : RunDB) : option RunRow :=
  head (sort_by (λ a b, str_leb (rr_created_at a) (rr_created_at b)) (List.filter (claimable phases d) (runs d))).

Definition claim_next_run (worker_id : string) (phases : option (list RunPhase)) (ttl_seconds : Z)
    (now : option datetime) : st (option WorkerLease) :=
  lift (require (worker_id_ok worker_id) ValueError "worker_id must be a stable safe identifier") ;;
  lift (require ((30 <=? ttl_seconds) && (ttl_seconds <=? 3600)) ValueError
          "worker lease ttl_seconds must be between 30 and 3600") ;;
  current_time ← current now;
  expires_at ← lift (plus_seconds current_time ttl_seconds);
  let selected_phases := match phases with Some (p :: l) => p :: l | _ => all_phases end in
  lift (require (negb (bool_decide (selected_phases = []))) ValueError "worker claim phases cannot be empty") ;;
  _write (
    update_db (with_workers (filter (λ kv, str_leb (wl_expires_at kv.2) (isoformat current_time) = false))) ;;
    o ← read_db (next_claim selected_phases);
    match o with
    | None => mret None
    | Some row =>
        update_db (with_workers <[rr_id row := {|
          wl_worker := worker_id; wl_acquired_at := isoformat current_time;
          wl_heartbeat_at := isoformat current_time; wl_expires_at := isoformat expires_at |}]>) ;;
        _append_event (rr_id row) "WORKER_CLAIMED" (rr_phase row) None
          [("worker_id", VStr worker_id); ("expires_at", VStr (isoformat expires_at))] current_time ;;
        mret (Some {| wrk_run_id := rr_id row; wrk_worker_id := worker_id; wrk_acquired_at := current_time;
                      wrk_heartbeat_at := current_time; wrk_expires_at := expires_at |})
    end).

Definition renew_worker_lease (run_id worker_id : string) (ttl_seconds : Z) (now : option datetime) : st WorkerLease :=
  current_time ← current now;
  expires_at ← lift (plus_seconds current_time ttl_seconds);
  _write (
    o ← read_db (λ d, worker_leases d !! run_id);
    row ← lift (match o with
                | Some l => require (bool_decide (wl_worker l = worker_id)) LeaseConflictError
                              "worker does not own this run lease" ;; Ok l
                | None => raise LeaseConflictError "worker does not own this run lease"
                end);
    expiry ← lift (parsed (wl_expires_at row));
    live ← lift (dt_gt expiry current_time);
    lift (require live LeaseConflictError "worker lease has expired") ;;
    update_db (with_workers <[run_id := {|
      wl_worker := worker_id; wl_acquired_at := wl_acquired_at row; wl_heartbeat_at := isoformat current_time;
      wl_expires_at := isoformat expires_at |}]>) ;;
    acquired ← lift (parsed (wl_acquired_at row));
    mret {| wrk_run_id := run_id; wrk_worker_id := worker_id; wrk_acquired_at := acquired;
            wrk_heartbeat_at := current_time; wrk_expires_at := expires_at |}).

Definition release_worker_lease (run_id worker_id : string) : st bool :=
  _write (
    _require_row run_id ;;
    o ← read_db (λ d, worker_leases d !! run_id);
    if bool_decide (wl_worker <$> o = Some worker_id) then update_db (with_workers (delete run_id)) ;; mret true
    else mret false).
End store.
