(* ===== verification/RunStoreInv.v ===== *)
(** * What the run store commits

    Every call of the run store either raises and leaves the database as it was, or commits
    one of a few changes; those changes keep the invariant of the database. *)

From S2P Require Import Prelude Hoare PyFloat PyVal PyTime PyIso PyIsoOrder PyStamp PyJson Sha256 RunStore.

#[local] Open Scope Z_scope.

(** ** Calls *)

Inductive RunOp :=
  | OpCreate (run_id : string) (spec : RunSpec)
  | OpGet (run_id : string)
  | OpListRuns (limit : Z)
  | OpListEvents (run_id : string) (after : Z)
  | OpAppend (run_id event_type : string) (detail : mapping)
  | OpTransition (run_id : string) (next : RunPhase) (detail : option mapping)
  | OpCleanup (run_id : string) (status : RunTerminalStatus) (reason : string) (abort : bool)
  | OpFinish (run_id : string) (verified : bool) (detail : option mapping)
  | OpAcquire (run_id : string) (ttl : Z) (now : option datetime)
  | OpGetLease
  | OpRelease (run_id : string)
  | OpClaim (worker_id : string) (phases : option (list RunPhase)) (ttl : Z) (now : option datetime)
  | OpRenew (run_id worker_id : string) (ttl : Z) (now : option datetime)
  | OpReleaseWorker (run_id worker_id : string).

Section ops.
Context (utc_now : nat → Z) (uuid : nat → string) (sqlite : nat → option exn).

Definition quietly {A} (m : prog Store A) : prog Store unit := m ;; mret tt.

Definition run_op (op : RunOp) : prog Store unit :=
  match op with
  | OpCreate id spec => quietly (create_or_get utc_now uuid sqlite id spec)
  | OpGet id => quietly (get sqlite id)
  | OpListRuns limit => quietly (list_runs sqlite limit)
  | OpListEvents id after => quietly (list_events sqlite id after)
  | OpAppend id type detail => quietly (append_event utc_now uuid sqlite id type detail)
  | OpTransition id next detail => quietly (transition utc_now uuid sqlite id next detail)
  | OpCleanup id status reason abort => quietly (request_cleanup utc_now uuid sqlite id status reason abort)
  | OpFinish id verified detail => quietly (finish_cleanup utc_now uuid sqlite id verified detail)
  | OpAcquire id ttl now => quietly (acquire_mutation_lease utc_now uuid sqlite id ttl now)
  | OpGetLease => quietly (get_mutation_lease sqlite)
  | OpRelease id => quietly (release_mutation_lease utc_now uuid sqlite id)
  | OpClaim worker phases ttl now => quietly (claim_next_run utc_now uuid sqlite worker phases ttl now)
  | OpRenew id worker ttl now => quietly (renew_worker_lease utc_now sqlite id worker ttl now)
  | OpReleaseWorker id worker => quietly (release_worker_lease sqlite id worker)
  end.

(** The store between two calls, from an empty database. *)
Inductive reach : Store → Prop :=
  | reach_empty ticks : reach {|
      store_db := {| runs := []; run_events := []; mutation_lease := None; worker_leases := ∅ |};
      store_ticks := ticks |}
  | reach_op s op : reach s → reach (run_op op s).1.
End ops.

(** ** What one row's update may change *)

Definition same_run (r r' : RunRow) : Prop :=
  rr_id r' = rr_id r ∧ rr_spec r' = rr_spec r ∧ rr_digest r' = rr_digest r ∧ rr_created_at r' = rr_created_at r.

Inductive row_step (r r' : RunRow) : Prop :=
  | row_touched : rr_phase r' = rr_phase r → rr_terminal r' = rr_terminal r → rr_desired r' = rr_desired r →
      rr_abort r' = rr_abort r ∨ rr_terminal r = None → rr_revision r' = rr_revision r → row_step r r'
  | row_advanced : rr_terminal r = None → rr_terminal r' = None → rr_phase r' ∈ ALLOWED_PHASE_TRANSITIONS (rr_phase r) →
      rr_desired r' = rr_desired r → rr_revision r' = rr_revision r + 1 → row_step r r'
  | row_cleaning t : rr_terminal r = None → rr_terminal r' = None → rr_phase r ≠ CLEANING_UP → rr_phase r' = CLEANING_UP →
      rr_desired r' = Some t → rr_revision r' = rr_revision r + 1 → row_step r r'
  | row_ended t t' : rr_terminal r = None → rr_phase r = CLEANING_UP → rr_phase r' = CLEANING_UP →
      rr_desired r = Some t → rr_desired r' = Some t → rr_terminal r' = Some t' → t' = t ∨ t' = RESET_FAILED →
      rr_revision r' = rr_revision r + 1 → row_step r r'.

Lemma dt_gt_utc a b : utc_time a → utc_time b → dt_gt a b = Ok (dt_wall b <? dt_wall a).
Proof.
  intros (x & _ & ->) (y & _ & ->). unfold dt_gt. cbn. f_equal. rewrite !Z.sub_0_r. destruct (Z.ltb_spec y x); [apply Z.ltb_lt|apply Z.ltb_ge]; lia.
Qed.

(** ** The database's invariant *)

(** One event after another of the same run: the run's phase and terminal status. *)
Definition event_step (p : RunPhase) (t : option RunTerminalStatus) (p' : RunPhase) (t' : option RunTerminalStatus) : Prop :=
  (p' = p ∧ t' = t) ∨
  (t = None ∧ t' = None ∧ (p' ∈ ALLOWED_PHASE_TRANSITIONS p ∨ p ≠ CLEANING_UP ∧ p' = CLEANING_UP)) ∨
  (t = None ∧ is_Some t' ∧ p = CLEANING_UP ∧ p' = CLEANING_UP).

(** The events of a run tell its history up to its present phase and terminal status. *)
Inductive history : list EventRow → RunPhase → option RunTerminalStatus → Prop :=
  | history_created e : ev_type e = "RUN_CREATED" → ev_sequence e = 1 → ev_phase e = CREATED → ev_terminal e = None →
      history [e] CREATED None
  | history_next es p t e : history es p t → ev_sequence e = Z.of_nat (length es) + 1 →
      event_step p t (ev_phase e) (ev_terminal e) → history (es ++ [e]) (ev_phase e) (ev_terminal e).

Record row_ok (r : RunRow) : Prop := {
  ro_spec : spec_ok (rr_spec r) = true;
  ro_digest : rr_digest r = spec_digest (rr_spec r);
  ro_revision : 0 <= rr_revision r;
  ro_created : stamp (rr_created_at r);
  ro_updated : stamp (rr_updated_at r);
  ro_desired : is_Some (rr_desired r) ↔ rr_phase r = CLEANING_UP;
  ro_terminal : ∀ t, rr_terminal r = Some t → rr_phase r = CLEANING_UP ∧ (rr_desired r = Some t ∨ t = RESET_FAILED) }.

Definition request_of (r : RunRow) : string := spec_request_id (rr_spec r).

Record run_inv (d : RunDB) : Prop := {
  ri_ids : NoDup (map rr_id (runs d));
  ri_requests : NoDup (map request_of (runs d));
  ri_events : NoDup (map ev_id (run_events d));
  ri_rows r : r ∈ runs d → row_ok r ∧ history (events_of (rr_id r) d) (rr_phase r) (rr_terminal r);
  ri_orphans e : e ∈ run_events d → is_Some (run_at (ev_run e) d) ∧ stamp (ev_occurred_at e);
  ri_mutation l : mutation_lease d = Some l → (∃ r, run_at (ml_run l) d = Some r ∧ rr_terminal r = None) ∧
    stamp (ml_acquired_at l) ∧ stamp (ml_heartbeat_at l) ∧ stamp (ml_expires_at l);
  ri_workers k l : worker_leases d !! k = Some l → is_Some (run_at k d) ∧
    stamp (wl_acquired_at l) ∧ stamp (wl_heartbeat_at l) ∧ stamp (wl_expires_at l) }.

(** ** Changes *)

(** What a call at the instant [τ] may do to the mutation lease ... *)
Definition mutation_change (op : RunOp) (τ : Z) (l l' : option MutationRow) : Prop :=
  match op with
  | OpAcquire id ttl _ =>
      (∃ acquired, stamp acquired ∧ l' = Some {|
         ml_run := id; ml_acquired_at := acquired; ml_heartbeat_at := isoformat (utc_of τ);
         ml_expires_at := isoformat (utc_of (τ + ttl * 1000000)) |}) ∧ 5 <= ttl <= 600 ∧
      representable (τ + ttl * 1000000) ∧
      ∀ l0, l = Some l0 → ml_run l0 = id ∨ instant (ml_expires_at l0) <= τ
  | OpRelease id => l' = None ∧ ml_run <$> l = Some id
  | OpFinish id _ _ => l' = (l0 ← l; if bool_decide (ml_run l0 = id) then None else Some l0)
  | _ => l' = l
  end.

Definition new_lease (worker : string) (τ ttl : Z) : WorkerRow := {|
  wl_worker := worker; wl_acquired_at := isoformat (utc_of τ); wl_heartbeat_at := isoformat (utc_of τ);
  wl_expires_at := isoformat (utc_of (τ + ttl * 1000000)) |}.

Definition live_leases (τ : Z) : gmap string WorkerRow → gmap string WorkerRow :=
  filter (λ kv, str_leb (wl_expires_at kv.2) (isoformat (utc_of τ)) = false).

(** ... and to the workers' leases; [run] is the run whose event the call appends. *)
Definition worker_change (op : RunOp) (τ : Z) (run : option string) (w w' : gmap string WorkerRow) : Prop :=
  match op with
  | OpClaim worker _ ttl _ =>
      30 <= ttl <= 3600 ∧ representable (τ + ttl * 1000000) ∧
      match run with
      | Some k => live_leases τ w !! k = None ∧ w' = <[k := new_lease worker τ ttl]> (live_leases τ w)
      | None => w' = live_leases τ w
      end
  | OpRenew id worker ttl _ => ∃ l, w !! id = Some l ∧ wl_worker l = worker ∧ τ < instant (wl_expires_at l) ∧
      representable (τ + ttl * 1000000) ∧
      w' = <[id := {| wl_worker := worker; wl_acquired_at := wl_acquired_at l;
                      wl_heartbeat_at := isoformat (utc_of τ);
                      wl_expires_at := isoformat (utc_of (τ + ttl * 1000000)) |}]> w
  | OpReleaseWorker id worker => wl_worker <$> w !! id = Some worker ∧ w' = delete id w
  | _ => w' = w
  end.

Definition new_row (run_id : string) (spec : RunSpec) (τ : Z) : RunRow := {|
  rr_id := run_id; rr_spec := spec; rr_digest := spec_digest spec; rr_phase := CREATED; rr_terminal := None;
  rr_desired := None; rr_abort := false; rr_revision := 0; rr_created_at := isoformat (utc_of τ);
  rr_updated_at := isoformat (utc_of τ); rr_last_error := None |}.

Record logged (d : RunDB) (id : string) (r : RunRow) (τ : Z) (e : EventRow) : Prop := {
  lg_run : ev_run e = id;
  lg_sequence : ev_sequence e = next_sequence id d;
  lg_phase : ev_phase e = rr_phase r;
  lg_terminal : ev_terminal e = rr_terminal r;
  lg_time : ev_occurred_at e = isoformat (utc_of τ);
  lg_fresh : ev_id e ∉ map ev_id (run_events d) }.

(** The run a call is about. *)
Definition op_about (op : RunOp) (id : string) : Prop :=
  match op with
  | OpCreate i _ | OpAppend i _ _ | OpTransition i _ _ | OpCleanup i _ _ _ | OpFinish i _ _ | OpAcquire i _ _ | OpRelease i =>
      id = i
  | OpClaim _ _ _ _ => True
  | _ => False
  end.

(** What a call that returns may commit. *)
Inductive commit (op : RunOp) (τ : Z) (d : RunDB) : RunDB → Prop :=
  | commit_nothing : commit op τ d d
  | commit_created id spec e : op = OpCreate id spec → spec_ok spec = true → run_at id d = None →
      (∀ r, r ∈ runs d → request_of r ≠ spec_request_id spec) → representable τ →
      logged d id (new_row id spec τ) τ e → ev_type e = "RUN_CREATED" →
      commit op τ d (with_event e (with_runs (λ l, l ++ [new_row id spec τ]) d))
  | commit_flagged id r : op_about op id → run_at id d = Some r → rr_terminal r = None → representable τ →
      commit op τ d (update_run id (set_updated true (isoformat (utc_of τ))) d)
  | commit_logged id r f e m w : op_about op id → run_at id d = Some r → (∀ x, same_run x (f x)) → row_step r (f r) →
      rr_updated_at (f r) = rr_updated_at r ∨ rr_updated_at (f r) = isoformat (utc_of τ) → representable τ →
      logged d id (f r) τ e → mutation_change op τ (mutation_lease d) m →
      (∀ l, m = Some l → ml_run l = id → rr_terminal (f r) = None) →
      (∀ l, m = Some l → mutation_lease d = Some l ∨ ml_run l = id) →
      worker_change op τ (Some id) (worker_leases d) w →
      commit op τ d (with_event e (with_workers (λ _, w) (with_mutation m (update_run id f d))))
  | commit_workers w : representable τ → worker_change op τ None (worker_leases d) w →
      commit op τ d (with_workers (λ _, w) d).

(** ** Rows and events of a database *)

Lemma run_at_elem id d r : run_at id d = Some r → r ∈ runs d ∧ rr_id r = id.
Proof.
  unfold run_at. intros H. apply find_some in H as [H1 H2%bool_decide_eq_true]. split; [by apply list_elem_of_In|done].
Qed.

Lemma run_at_None id d : run_at id d = None ↔ id ∉ map rr_id (runs d).
Proof.
  unfold run_at. split.
  - intros H Hin. apply list_elem_of_fmap in Hin as (r & -> & Hr%list_elem_of_In).
    pose proof (find_none _ _ H _ Hr) as Hf. by rewrite bool_decide_eq_false in Hf.
  - intros H. destruct (List.find _ _) as [r|] eqn:E; [|done]. apply find_some in E as [E1 E2%bool_decide_eq_true].
    exfalso. apply H. subst. apply list_elem_of_fmap. exists r. split; [done|]. by apply list_elem_of_In.
Qed.

Lemma find_unique (l : list RunRow) r : NoDup (map rr_id l) → r ∈ l →
  List.find (λ x, bool_decide (rr_id x = rr_id r)) l = Some r.
Proof.
  induction l as [|x l IH]; cbn; intros Hn Hr; [by apply not_elem_of_nil in Hr|].
  apply NoDup_cons in Hn as [Hx Hn]. apply elem_of_cons in Hr as [->|Hr]; [by rewrite bool_decide_true|].
  rewrite bool_decide_false; [by apply IH|]. intros E. apply Hx. rewrite E. apply list_elem_of_fmap. eauto.
Qed.

Lemma run_at_unique d r : NoDup (map rr_id (runs d)) → r ∈ runs d → run_at (rr_id r) d = Some r.
Proof. apply find_unique. Qed.

Lemma run_at_update k id f d : (∀ x, rr_id (f x) = rr_id x) →
  run_at k (update_run id f d) = (λ r, if bool_decide (rr_id r = id) then f r else r) <$> run_at k d.
Proof.
  intros Hf. unfold run_at, update_run. cbn. induction (runs d) as [|x l IH]; [done|]. cbn.
  assert (rr_id (if bool_decide (rr_id x = id) then f x else x) = rr_id x) as -> by (case_match; [apply Hf|done]).
  case_match; [done|apply IH].
Qed.

Lemma ids_update {A} (key : RunRow → A) id f d : (∀ x, key (f x) = key x) →
  map key (runs (update_run id f d)) = map key (runs d).
Proof. intros Hf. cbn. rewrite map_map. apply map_ext. intros x. case_match; [apply Hf|done]. Qed.

Lemma events_of_with_event k e d :
  events_of k (with_event e d) = if bool_decide (ev_run e = k) then events_of k d ++ [e] else events_of k d.
Proof.
  unfold events_of. cbn. rewrite List.filter_app. cbn. case_match; [done|by rewrite app_nil_r].
Qed.

Lemma history_length es p t : history es p t → map ev_sequence es = seqZ 1 (Z.of_nat (length es)).
Proof.
  induction 1 as [e _ Hs _ _|es p t e Hh IH Hs Hstep]; [cbn; by rewrite Hs|].
  rewrite map_app, IH, length_app. cbn [map length]. rewrite Nat2Z.inj_add, seqZ_app by lia. f_equal.
  rewrite Hs. unfold seqZ. change (Z.to_nat (Z.of_nat 1)) with 1%nat. cbn [seq]. cbv [fmap list_fmap map]. f_equal. lia.
Qed.

Lemma foldr_max_seqZ (n : nat) a : 0 <= a → foldr Z.max 0 (seqZ a (Z.of_nat n)) = if bool_decide (n = 0%nat) then 0 else a + Z.of_nat n - 1.
Proof.
  revert a. induction n as [|n IH]; intros a Ha; [done|]. rewrite seqZ_cons by lia. cbn [foldr].
  replace (Z.pred (Z.of_nat (S n))) with (Z.of_nat n) by lia. rewrite IH by lia.
  rewrite (bool_decide_false (S n = 0%nat)) by done. case_bool_decide; lia.
Qed.

Lemma next_sequence_history id d p t : history (events_of id d) p t →
  next_sequence id d = Z.of_nat (length (events_of id d)) + 1.
Proof.
  intros H. unfold next_sequence. rewrite (history_length _ _ _ H), foldr_max_seqZ by lia. case_bool_decide; lia.
Qed.

Lemma row_step_event r r' : row_step r r' →
  event_step (rr_phase r) (rr_terminal r) (rr_phase r') (rr_terminal r').
Proof.
  unfold event_step. intros [|?? H|? ?? H|? ? ????? H]; [left; done|right; left..|right; right].
  - auto.
  - auto.
  - rewrite H. eauto.
Qed.

Lemma no_transition_cleans p : CLEANING_UP ∉ ALLOWED_PHASE_TRANSITIONS p.
Proof. apply (bool_decide_unpack _). by destruct p; vm_compute. Qed.

Lemma row_step_ok r r' τ : row_ok r → same_run r r' → row_step r r' → representable τ →
  rr_updated_at r' = rr_updated_at r ∨ rr_updated_at r' = isoformat (utc_of τ) → row_ok r'.
Proof.
  intros [] (_ & Es & Ed & Ec) Hs Hτ Hu.
  assert (stamp (rr_updated_at r')) as Hup by (destruct Hu as [->| ->]; [done|apply stamp_isoformat; by exists τ]).
  destruct Hs as [Hp Ht Hd _ Hr|Ht Ht' Hp Hd Hr|t Ht Ht' Hp Hp' Hd Hr|t t' Ht Hp Hp' Hd Hd' Ht' Hor Hr];
    split; rewrite ?Es, ?Ed, ?Ec, ?Hr; try done; try lia.
  - by rewrite Hd, Hp.
  - intros t. rewrite Ht, Hp, Hd. auto.
  - rewrite Hd, ro_desired0. split; [intros E; rewrite E in Hp; by apply not_elem_of_nil in Hp|].
    intros E. rewrite E in Hp. by apply no_transition_cleans in Hp.
  - intros t. by rewrite Ht'.
  - intros t0. by rewrite Ht'.
  - intros t0. rewrite Ht', Hp', Hd'. intros [= <-]. split; [done|]. by destruct Hor as [->| ->]; auto.
Qed.

Lemma same_run_id f : (∀ x, same_run x (f x)) → ∀ x, rr_id (f x) = rr_id x.
Proof. intros H x. apply H. Qed.

Lemma update_elem id f d r' : r' ∈ runs (update_run id f d) →
  ∃ r, r ∈ runs d ∧ r' = (if bool_decide (rr_id r = id) then f r else r).
Proof. cbn. intros (r & -> & Hr)%list_elem_of_fmap. eauto. Qed.

Lemma run_at_runs k d d' : runs d' = runs d → run_at k d' = run_at k d.
Proof. unfold run_at. by intros ->. Qed.

Definition mutation_ok (d : RunDB) (l : MutationRow) : Prop :=
  (∃ r, run_at (ml_run l) d = Some r ∧ rr_terminal r = None) ∧
  stamp (ml_acquired_at l) ∧ stamp (ml_heartbeat_at l) ∧ stamp (ml_expires_at l).

Definition worker_ok (d : RunDB) (k : string) (l : WorkerRow) : Prop :=
  is_Some (run_at k d) ∧ stamp (wl_acquired_at l) ∧ stamp (wl_heartbeat_at l) ∧ stamp (wl_expires_at l).

(** The rows, the events and the leases after an update of one run's row. *)
Lemma changed_inv d d' id r f τ : run_inv d → run_at id d = Some r → runs d' = runs (update_run id f d) →
  (∀ x, same_run x (f x)) → row_step r (f r) →
  rr_updated_at (f r) = rr_updated_at r ∨ rr_updated_at (f r) = isoformat (utc_of τ) → representable τ →
  NoDup (map ev_id (run_events d')) → (∀ k, k ≠ id → events_of k d' = events_of k d) →
  history (events_of id d') (rr_phase (f r)) (rr_terminal (f r)) →
  (∀ e, e ∈ run_events d' → is_Some (run_at (ev_run e) d) ∧ stamp (ev_occurred_at e)) →
  (∀ l, mutation_lease d' = Some l → mutation_ok d' l) →
  (∀ k l, worker_leases d' !! k = Some l → worker_ok d k l) → run_inv d'.
Proof.
  intros [] Hr Eruns Hf Hstep Hup Hτ Hev Hother Hh Horph Hm Hw.
  pose proof (run_at_elem _ _ _ Hr) as [Hin <-].
  assert (∀ k, is_Some (run_at k d') ↔ is_Some (run_at k d)) as Hsome.
  { intros k. rewrite (run_at_runs k _ _ Eruns), run_at_update by apply (same_run_id _ Hf). apply fmap_is_Some. }
  split; rewrite ?Eruns; [..|intros k l H; destruct (Hw k l H) as (H1 & H2); by rewrite Hsome].
  - by rewrite (ids_update rr_id) by (intros; apply Hf).
  - rewrite (ids_update request_of); [done|]. intros x. unfold request_of. by destruct (Hf x) as (_ & -> & _).
  - done.
  - intros r' (r0 & Hr0 & ->)%update_elem. destruct (ri_rows0 r0 Hr0) as [Hok Ho]. case_bool_decide as E.
    + assert (r0 = r) as -> by (pose proof (run_at_unique _ _ ri_ids0 Hr0) as E0; rewrite E in E0; congruence).
      split; [by eapply row_step_ok|]. by destruct (Hf r) as (-> & _).
    + by rewrite Hother.
  - intros e He. rewrite Hsome. auto.
  - exact Hm.
Qed.

Lemma mutation_changed_ok op τ d d' id r f m : run_inv d → run_at id d = Some r → (∀ x, rr_id (f x) = rr_id x) →
  runs d' = runs (update_run id f d) → mutation_change op τ (mutation_lease d) m → representable τ →
  (∀ l, m = Some l → ml_run l = id → rr_terminal (f r) = None) →
  (∀ l, m = Some l → mutation_lease d = Some l ∨ ml_run l = id) →
  ∀ l, m = Some l → mutation_ok d' l.
Proof.
  intros Hd Hr Hf Eruns Hm Hτ Hterm Hold l ->. split.
  - specialize (Hterm l eq_refl). rewrite (run_at_runs _ _ _ Eruns), run_at_update by done.
    destruct (Hold l eq_refl) as [Hl|Hl].
    + destruct (ri_mutation d Hd l Hl) as [(r0 & Hr0 & Ht) _]. rewrite Hr0. cbn. eexists; split; [done|].
      pose proof (run_at_elem _ _ _ Hr0) as [_ E]. case_bool_decide as E'; [|done].
      assert (r0 = r) as -> by congruence. apply Hterm. congruence.
    + rewrite Hl, Hr. cbn. eexists; split; [done|]. pose proof (run_at_elem _ _ _ Hr) as [_ E].
      rewrite bool_decide_true by done. auto.
  - assert (mutation_lease d = Some l → stamp (ml_acquired_at l) ∧ stamp (ml_heartbeat_at l) ∧ stamp (ml_expires_at l))
      as Hkeep by (intros Hl; by destruct (ri_mutation d Hd l Hl)).
    destruct op; cbn in Hm; try (by apply Hkeep; symmetry).
    + destruct (mutation_lease d) as [l0|]; [|done]. cbn in Hm. case_bool_decide; [done|]. injection Hm as ->. by apply Hkeep.
    + destruct Hm as ((a & Ha & [= ->]) & _ & Hx & _). cbn. split_and!; [done|apply stamp_utc; done..].
    + by destruct Hm.
Qed.

Lemma worker_changed_ok op τ d o w : run_inv d → worker_change op τ o (worker_leases d) w → representable τ →
  (∀ k, o = Some k → is_Some (run_at k d)) → ∀ k l, w !! k = Some l → worker_ok d k l.
Proof.
  intros Hd Hw Hτ Ho.
  assert (∀ k l, worker_leases d !! k = Some l → worker_ok d k l) as Hkeep by apply (ri_workers d Hd).
  destruct op; cbn in Hw; try (by rewrite Hw).
  - destruct Hw as (_ & Hx & Hw). assert (∀ k l, live_leases τ (worker_leases d) !! k = Some l → worker_ok d k l) as Hl.
    { intros k l [H _]%map_lookup_filter_Some. by apply Hkeep. }
    destruct o as [k0|]; [|by subst]. destruct Hw as [_ ->]. intros k l.
    destruct (decide (k = k0)) as [->|Hne]; [|rewrite lookup_insert_ne by done; apply Hl].
    rewrite lookup_insert_eq. intros [= <-]. split; [by apply Ho|]. cbn. split_and!; by apply stamp_utc.
  - destruct Hw as (l0 & Hl0 & _ & _ & Hx & ->). intros k l.
    destruct (decide (k = run_id)) as [->|Hne]; [|rewrite lookup_insert_ne by done; apply Hkeep].
    rewrite lookup_insert_eq. intros [= <-]. destruct (Hkeep _ _ Hl0) as (H1 & H2 & H3 & H4).
    split_and!; cbn; [done..| |]; by apply stamp_utc.
  - destruct Hw as [_ ->]. intros k l [_ H]%lookup_delete_Some. by apply Hkeep.
Qed.

Lemma logged_events d d' id r τ e : run_inv d → run_events d' = run_events d ++ [e] → logged d id r τ e →
  representable τ → is_Some (run_at id d) →
  NoDup (map ev_id (run_events d')) ∧ (∀ k, k ≠ id → events_of k d' = events_of k d) ∧
  events_of id d' = events_of id d ++ [e] ∧
  (∀ x, x ∈ run_events d' → is_Some (run_at (ev_run x) d) ∧ stamp (ev_occurred_at x)).
Proof.
  intros [] Eev [] Hτ Hid. unfold events_of. rewrite Eev, map_app, !List.filter_app. cbn. split_and!.
  - apply NoDup_app. split_and!; [done| |apply NoDup_singleton]. intros x Hx ->%list_elem_of_singleton. done.
  - intros k Hk. rewrite List.filter_app. cbn. rewrite bool_decide_false by congruence. by rewrite app_nil_r.
  - by rewrite bool_decide_true.
  - intros x [Hx| ->%list_elem_of_singleton]%elem_of_app; [auto|].
    rewrite lg_run0, lg_time0. split; [done|by apply stamp_utc].
Qed.

Lemma logged_history d id r r' τ e : run_inv d → run_at id d = Some r → logged d id r' τ e →
  event_step (rr_phase r) (rr_terminal r) (rr_phase r') (rr_terminal r') →
  history (events_of id d ++ [e]) (rr_phase r') (rr_terminal r').
Proof.
  intros [] Hr [] Hs. pose proof (run_at_elem _ _ _ Hr) as [Hin <-]. destruct (ri_rows0 r Hin) as [_ Hh].
  rewrite <- lg_phase0, <- lg_terminal0. eapply history_next; [exact Hh| |by rewrite lg_phase0, lg_terminal0].
  by rewrite lg_sequence0, (next_sequence_history _ _ _ _ Hh).
Qed.

Lemma run_at_new d id r e : rr_id r = id → run_at id d = None → ∀ k,
  run_at k (with_event e (with_runs (λ l, l ++ [r]) d)) = if bool_decide (k = id) then Some r else run_at k d.
Proof.
  intros Hid Hnone k. unfold run_at in *. cbn. revert Hnone. induction (runs d) as [|x l IH]; cbn.
  - rewrite Hid. intros _. by case_bool_decide as E1; case_bool_decide as E2; congruence.
  - intros H. destruct (bool_decide (rr_id x = id)) eqn:E; [done|]. apply bool_decide_eq_false in E.
    destruct (bool_decide (rr_id x = k)) eqn:E1; [|by apply IH]. apply bool_decide_eq_true in E1.
    by rewrite bool_decide_false by congruence.
Qed.

Lemma created_inv d id spec τ e : run_inv d → spec_ok spec = true → run_at id d = None →
  (∀ r, r ∈ runs d → request_of r ≠ spec_request_id spec) → representable τ →
  logged d id (new_row id spec τ) τ e → ev_type e = "RUN_CREATED" →
  run_inv (with_event e (with_runs (λ l, l ++ [new_row id spec τ]) d)).
Proof.
  intros Hd Hok Hnone Hreq Hτ Hl Ht. pose proof Hd as []. pose proof Hl as [].
  assert (events_of id d = []) as Hnil.
  { unfold events_of. destruct (List.filter _ _) as [|x l] eqn:E; [done|].
    assert (In x (x :: l)) as Hx by (by left). rewrite <- E, filter_In in Hx. destruct Hx as [Hx Hx'%bool_decide_eq_true].
    apply list_elem_of_In in Hx. destruct (ri_orphans0 x Hx) as [[r Hr] _]. by rewrite Hx', Hnone in Hr. }
  pose proof (run_at_new d id (new_row id spec τ) e eq_refl Hnone) as Hat.
  assert (∀ k, is_Some (run_at k d) → is_Some (run_at k (with_event e (with_runs (λ l, l ++ [new_row id spec τ]) d)))) as Hsome.
  { intros k Hk. rewrite Hat. case_match; [by eexists|done]. }
  split; cbn [runs run_events mutation_lease worker_leases with_event with_runs]; rewrite ?map_app.
  - apply NoDup_app. split_and!; [done| |apply NoDup_singleton]. intros x Hx ->%list_elem_of_singleton. by apply run_at_None in Hnone.
  - apply NoDup_app. split_and!; [done| |apply NoDup_singleton].
    intros x (r & -> & Hr)%list_elem_of_fmap Hx%list_elem_of_singleton. by apply (Hreq r).
  - apply NoDup_app. split_and!; [done| |apply NoDup_singleton]. intros x Hx ->%list_elem_of_singleton. done.
  - intros r [Hr| ->%list_elem_of_singleton]%elem_of_app.
    + destruct (ri_rows0 r Hr) as [H1 H2]. split; [done|]. rewrite events_of_with_event, bool_decide_false; [done|].
      rewrite lg_run0. intros E. by rewrite E, run_at_unique in Hnone.
    + split.
      * split; cbn; try done; by apply stamp_utc.
      * cbn [new_row rr_id rr_phase rr_terminal]. rewrite events_of_with_event, bool_decide_true by done. change (events_of id (with_runs _ d)) with (events_of id d).
        rewrite Hnil. cbn. apply history_created; try done. rewrite lg_sequence0. unfold next_sequence. by rewrite Hnil.
  - intros x [Hx| ->%list_elem_of_singleton]%elem_of_app; [destruct (ri_orphans0 x Hx); auto|].
    rewrite lg_run0, lg_time0, Hat, bool_decide_true by done. split; [done|by apply stamp_utc].
  - intros l Hml. destruct (ri_mutation0 l Hml) as [(r & Hr & Ht') Hs]. split; [|done].
    rewrite Hat. rewrite bool_decide_false by congruence. eauto.
  - intros k l Hk. destruct (ri_workers0 k l Hk) as [H1 H2]. auto.
Qed.

Lemma commit_inv op τ d d' : run_inv d → commit op τ d d' → run_inv d'.
Proof.
  intros Hd [|id spec e -> Hok Hnone Hreq Hτ Hl Ht|id r _ Hr Ht Hτ|id r f e m w _ Hr Hf Hs Hup Hτ Hl Hm Hterm Hold Hw|w Hτ Hw].
  - done.
  - by apply created_inv.
  - pose proof (run_at_elem _ _ _ Hr) as [Hin Eid]. pose proof Hd as [].
    eapply (changed_inv d _ id r (set_updated true (isoformat (utc_of τ))) τ); try done.
    + by apply row_touched; auto.
    + by right.
    + subst id. by apply (ri_rows0 r).
    + intros l Hml. destruct (ri_mutation0 l Hml) as [(r0 & Hr0 & Ht0) H2]. split; [|done].
      rewrite run_at_update, Hr0 by done. cbn. eexists; split; [done|]. by case_match.
  - destruct (logged_events d (with_event e (with_workers (λ _, w) (with_mutation m (update_run id f d)))) id (f r) τ e)
      as (H1 & H2 & H3 & H4); [done..|by rewrite Hr|].
    eapply (changed_inv d _ id r f τ); try done.
    + rewrite H3. eapply logged_history; [done..|by apply row_step_event].
    + intros l Hml. eapply (mutation_changed_ok op τ d _ id r f m); try done. apply (same_run_id _ Hf).
    + apply (worker_changed_ok op τ d (Some id) w); [done..|]. intros k [= <-]. by rewrite Hr.
  - pose proof Hd as []. split; try done. by apply (worker_changed_ok op τ d None w).
Qed.

(** ** Statements that returned *)

Section statements.
Context (utc_now : nat → Z) (uuid : nat → string) (sqlite : nat → option exn).
Context (clock_ok : ∀ n, representable (utc_now n)).

(** The instant of a call. *)
Definition time_of (now : option datetime) (s : Store) : Z :=
  match now with Some t => dt_wall (as_utc t) | None => utc_now (store_ticks s) end.

Definition op_time (op : RunOp) : Store → Z :=
  match op with
  | OpAcquire _ _ now | OpClaim _ _ _ now | OpRenew _ _ _ now => time_of now
  | OpReleaseWorker _ _ => time_of None
  | _ => time_of None
  end.

Lemma utc_now_Ok s s' t : _utc_now utc_now s = (s', Ok t) → t = utc_of (time_of None s) ∧ store_db s' = store_db s.
Proof. by intros [= <- <-]. Qed.

Lemma current_Ok now s s' t : current utc_now now s = (s', Ok t) →
  store_db s' = store_db s ∧ t = utc_of (time_of now s) ∧ representable (time_of now s).
Proof.
  unfold current, time_of. destruct now as [n|].
  - intros [H ->]%lift_Ok_inv. pose proof (in_range_utc _ _ (as_utc_is_utc n) H) as (w & Hw & ->).
    unfold dt_in_range in H. case_match; [|done]. injection H as H. by rewrite H.
  - intros [-> Hs]%utc_now_Ok. split_and!; [done|done|]. apply clock_ok.
Qed.

Lemma plus_seconds_Ok τ n t : plus_seconds (utc_of τ) n = Ok t → t = utc_of (τ + n * 1000000) ∧ representable (τ + n * 1000000).
Proof.
  unfold plus_seconds, dt_in_range. cbn. case_match eqn:E; [|done]. intros [= <-].
  apply andb_true_iff in E as [?%Z.leb_le ?%Z.ltb_lt]. by unfold representable.
Qed.

Lemma read_db_Ok {A} (f : RunDB → A) s s' a : read_db f s = (s', Ok a) → a = f (store_db s) ∧ s' = s.
Proof. by intros [= <- <-]. Qed.

Lemma update_db_Ok f s s' u : update_db f s = (s', Ok u) → store_db s' = f (store_db s).
Proof. by intros [= <- <-]. Qed.

Lemma require_row_Ok id s s' r : _require_row id s = (s', Ok r) → run_at id (store_db s) = Some r ∧ s' = s.
Proof. unfold _require_row. intros H. run_inv. apply read_db_Ok in Ha as [<- ->]. done. Qed.

Lemma record_spec r x : _record r = Ok x → spec_ok (rr_spec r) = true.
Proof. unfold _record. intros H. inv_ok. done. Qed.

Lemma row_record_Ok id s s' x : row_record id s = (s', Ok x) →
  s' = s ∧ ∃ r, run_at id (store_db s) = Some r ∧ _record r = Ok x.
Proof. unfold row_record. intros H. run_inv. apply require_row_Ok in Ha as [Hr ->]. eauto. Qed.

Lemma append_event_Ok id type p t detail at' s s' u r τ :
  _append_event uuid id type p t detail at' s = (s', Ok u) → at' = utc_of τ → rr_phase r = p → rr_terminal r = t →
  ∃ e, store_db s' = with_event e (store_db s) ∧ logged (store_db s) id r τ e ∧ ev_type e = type.
Proof.
  unfold _append_event. intros H -> <- <-. run_inv. apply read_db_Ok in Ha as [-> ->].
  unfold uuid4 in Ha0. injection Ha0 as <- <-. apply read_db_Ok in Ha1 as [-> ->].
  rewrite (update_db_Ok _ _ _ _ H). eexists. split; [reflexivity|]. split; [|done]. split; cbn; try done.
  apply negb_true_iff, not_true_iff_false in Ha2. intros Hin. apply Ha2, existsb_exists.
  apply list_elem_of_fmap in Hin as (e & E & He%list_elem_of_In). exists e. split; [done|]. by apply bool_decide_eq_true.
Qed.

Lemma write_Ok {A} (body : prog Store A) s s' a : _write sqlite body s = (s', Ok a) →
  ∃ s0 s1, store_db s0 = store_db s ∧ body s0 = (s1, Ok a) ∧ store_db s' = store_db s1.
Proof.
  unfold _write. destruct ((sqlite_answer sqlite ≫= _) s) as [s2 [b|e]] eqn:E; [|done]. intros [= -> ->].
  run_inv. unfold sqlite_answer in Ha, Ha1. injection Ha as <- _. injection Ha1 as <- _. by exists (ticked s), s1.
Qed.

(** ** Calls that raised *)

Definition atomic {A} (m : prog Store A) : Prop := ∀ s s' e, m s = (s', Err e) → store_db s' = store_db s.

Lemma atomic_write {A} (body : prog Store A) : atomic (_write sqlite body).
Proof. intros s s' e. unfold _write. destruct ((sqlite_answer sqlite ≫= _) s) as [s1 [a|e1]]; [done|]. intros H. by injection H as <-. Qed.

Lemma atomic_lift {A} (r : result A) : atomic (lift (S:=Store) r).
Proof. intros s s' e. by intros [= <- _]. Qed.

(** A statement that leaves the database as it is. *)
Definition reads {A} (m : prog Store A) : Prop := ∀ s, store_db (m s).1 = store_db s.

Lemma reads_lift {A} (r : result A) : reads (lift (S:=Store) r).
Proof. done. Qed.
Lemma reads_now : reads (_utc_now utc_now).
Proof. done. Qed.
Lemma reads_current now : reads (current utc_now now).
Proof. by destruct now. Qed.
Lemma reads_reading {A} (f : RunDB → A) : reads (reading sqlite f).
Proof. intros s. unfold reading, sqlite_answer. rewrite prog_bind_eq. by destruct (sqlite (store_ticks s)). Qed.
Lemma reads_ret {A} (a : A) : reads (mret (M := prog Store) a).
Proof. done. Qed.

Lemma reads_bind {A B} (m : prog Store A) (f : A → prog Store B) : reads m → (∀ a, reads (f a)) → reads (m ≫= f).
Proof.
  intros Hm Hf s. rewrite prog_bind_eq. specialize (Hm s). destruct (m s) as [s1 [a|e]]; [|done].
  cbn in Hm. by rewrite Hf.
Qed.

Lemma reads_atomic {A} (m : prog Store A) : reads m → atomic m.
Proof. intros H s s' e E. specialize (H s). by rewrite E in H. Qed.

Lemma atomic_bind {A B} (m : prog Store A) (f : A → prog Store B) : reads m → (∀ a, atomic (f a)) → atomic (m ≫= f).
Proof.
  intros Hm Hf s s' e. rewrite prog_bind_eq. specialize (Hm s). destruct (m s) as [s1 [a|e1]]; cbn in Hm.
  - intros H. rewrite <- Hm. by eapply Hf.
  - by intros [= <- _].
Qed.

Lemma atomic_quietly {A} (m : prog Store A) : atomic m → atomic (quietly m).
Proof.
  intros Hm s s' e. unfold quietly. rewrite prog_bind_eq. destruct (m s) as [s1 [a|e1]] eqn:E; [done|].
  intros [= <- <-]. by eapply Hm.
Qed.
End statements.

#[export] Hint Resolve atomic_write atomic_lift reads_lift reads_now reads_current reads_reading reads_ret reads_bind
  reads_atomic atomic_bind atomic_quietly : atomic.

Section settle.
Context (utc_now : nat → Z) (uuid : nat → string) (sqlite : nat → option exn).

Lemma reads_get id : reads (get sqlite id).
Proof. unfold get. auto 10 with atomic. Qed.
Lemma reads_get_lease : reads (get_mutation_lease sqlite).
Proof. unfold get_mutation_lease. apply reads_bind; [auto with atomic|]. intros [l|]; auto 10 with atomic. Qed.
Lemma reads_list_events id after : reads (list_events sqlite id after).
Proof. unfold list_events. apply reads_bind; [apply reads_get|]. auto 10 with atomic. Qed.
#[local] Hint Resolve reads_get reads_get_lease reads_list_events : atomic.

(** A call that raises leaves the database as it was. *)
Lemma run_op_atomic op : atomic (run_op utc_now uuid sqlite op).
Proof.
  destruct op; apply atomic_quietly;
    unfold create_or_get, list_runs, append_event, transition, request_cleanup, finish_cleanup,
      acquire_mutation_lease, release_mutation_lease, claim_next_run, renew_worker_lease, release_worker_lease;
    auto 12 with atomic.
Qed.
End settle.

(** ** Calls that returned *)

(** [stmts] reads what the statements of a program that returned did. *)
Ltac stmts :=
  repeat first
  [ progress run_inv
  | match goal with
    | H : quietly _ _ = (_, Ok _) |- _ => unfold quietly in H
    | H : read_db _ _ = (_, Ok _) |- _ => apply read_db_Ok in H as [? ->]
    | H : _require_row _ _ = (_, Ok _) |- _ => apply require_row_Ok in H as [? ->]
    | H : row_record _ _ = (_, Ok _) |- _ => apply row_record_Ok in H as (-> & ? & ? & ?)
    | H : update_db _ _ = (_, Ok _) |- _ => apply update_db_Ok in H
    | H : _utc_now _ _ = (_, Ok _) |- _ => apply utc_now_Ok in H as [-> H]
    | H : _write _ _ _ = (_, Ok _) |- _ =>
        let s := fresh "s" in let s1 := fresh "s" in let Hs := fresh "Hs" in let Hs1 := fresh "Hs" in
        apply write_Ok in H as (s & s1 & Hs & H & Hs1)
    | H : ?a = ?b |- _ => is_var a; subst a
    end ].

(** Every store is named by what its database is. *)
Ltac stores :=
  repeat match goal with
  | H : () = () |- _ => clear H
  | H : store_db ?x = _ |- _ => rewrite H in *; clear H
  end.

(** [logs r e He]: the event [e] that was appended, which tells the row [r]. *)
Ltac logs r e He :=
  repeat match goal with H : bool_decide _ = true |- _ => apply bool_decide_eq_true in H end;
  match goal with H : _append_event _ _ _ _ _ _ _ _ = (_, Ok _) |- _ =>
    eapply (append_event_Ok _ _ _ _ _ _ _ _ _ _ r) in H as (e & H & He & _); [|done..]
  end; stores.

Lemma logged_same d d' id r τ e : logged d id r τ e → run_events d' = run_events d → logged d' id r τ e.
Proof. intros [] E. split; [done|..|by rewrite E]; try done. rewrite lg_sequence0. unfold next_sequence, events_of. by rewrite E. Qed.

Lemma update_run_same id d : update_run id (λ r, r) d = d.
Proof.
  destruct d as [l es m w]. unfold update_run, with_runs. cbn. f_equal.
  rewrite <- (map_id l) at 2. apply map_ext. intros r. by case_match.
Qed.

Lemma with_same d : with_workers (λ _, worker_leases d) (with_mutation (mutation_lease d) d) = d.
Proof. by destruct d. Qed.

Section commits.
Context (utc_now : nat → Z) (uuid : nat → string) (sqlite : nat → option exn).
Context (clock_ok : ∀ n, representable (utc_now n)).

#[local] Abbreviation commits op s s' := (commit op (op_time utc_now op s) (store_db s) (store_db s')).

Lemma create_commits id spec s s' u : run_op utc_now uuid sqlite (OpCreate id spec) s = (s', Ok u) →
  commits (OpCreate id spec) s s'.
Proof.
  cbn [run_op]. unfold create_or_get. intros H. stmts. destruct (List.find _ _) as [row|] eqn:Ef in Ha; stmts.
  - stores. apply commit_nothing.
  - apply bool_decide_eq_true in Ha2.
    eapply (append_event_Ok _ _ _ _ _ _ _ _ _ _ (new_row id spec (time_of utc_now None s))) in Ha4 as (e & He & Hl & Ht);
      [|done..].
    stores. assert (spec_ok spec = true) as Hok.
    { match goal with H : run_at id _ = Some ?x, H' : _record ?x = _ |- _ =>
        rewrite (run_at_new (store_db s) id (new_row id spec (time_of utc_now None s)) e eq_refl) in H by done;
        rewrite bool_decide_true in H by done; injection H as <-; by apply record_spec in H' end. }
    eapply commit_created; [done|done|done| |apply clock_ok|by eapply logged_same|exact Ht].
    intros r Hr%list_elem_of_In E. pose proof (find_none _ _ Ef r Hr) as Hn. by apply bool_decide_eq_false in Hn.
Qed.

Lemma commit_logged_eq op τ d d' id r f e m w :
  d' = with_event e (with_workers (λ _, w) (with_mutation m (update_run id f d))) → op_about op id → run_at id d = Some r →
  (∀ x, same_run x (f x)) → row_step r (f r) →
  rr_updated_at (f r) = rr_updated_at r ∨ rr_updated_at (f r) = isoformat (utc_of τ) → representable τ →
  logged d id (f r) τ e → mutation_change op τ (mutation_lease d) m →
  (∀ l, m = Some l → ml_run l = id → rr_terminal (f r) = None) →
  (∀ l, m = Some l → mutation_lease d = Some l ∨ ml_run l = id) →
  worker_change op τ (Some id) (worker_leases d) w → commit op τ d d'.
Proof. intros ->. apply commit_logged. Qed.

(** A call that appends an event of a run whose row it may update, and leaves the leases. *)
Lemma logged_commit op τ d d' id r f e : d' = with_event e (update_run id f d) → op_about op id → run_at id d = Some r →
  (∀ x, same_run x (f x)) → row_step r (f r) →
  rr_updated_at (f r) = rr_updated_at r ∨ rr_updated_at (f r) = isoformat (utc_of τ) → representable τ →
  logged d id (f r) τ e → mutation_change op τ (mutation_lease d) (mutation_lease d) →
  worker_change op τ (Some id) (worker_leases d) (worker_leases d) →
  rr_terminal (f r) = rr_terminal r → run_inv d → commit op τ d d'.
Proof.
  intros -> Hop Hr Hf Hs Hup Hτ Hl Hm Hw Ht Hd.
  assert (update_run id f d = with_workers (λ _, worker_leases d) (with_mutation (mutation_lease d) (update_run id f d)))
    as -> by (by destruct d).
  eapply commit_logged; try done; [|auto].
  intros l Hml E. destruct (ri_mutation d Hd l Hml) as [(r0 & Hr0 & Ht0) _]. rewrite Ht. congruence.
Qed.

Lemma append_commits id type detail s s' u : run_inv (store_db s) →
  run_op utc_now uuid sqlite (OpAppend id type detail) s = (s', Ok u) → commits (OpAppend id type detail) s s'.
Proof.
  cbn [run_op]. unfold append_event. intros Hd H. stmts. set (now := isoformat _) in *.
  logs (set_updated (rr_abort a0) now a0) e He.
  eapply (logged_commit _ _ _ _ _ a0 (λ r, set_updated (rr_abort r) now r)); try done; [..|apply clock_ok].
  - by apply row_touched; auto.
  - by right.
Qed.

Lemma transition_commits id next detail s s' u : run_inv (store_db s) →
  run_op utc_now uuid sqlite (OpTransition id next detail) s = (s', Ok u) → commits (OpTransition id next detail) s s'.
Proof.
  cbn [run_op]. unfold transition. intros Hd H. stmts. set (now := isoformat _) in *.
  logs (set_phase next (rr_desired a0) (rr_abort a0) now a0) e He.
  eapply (logged_commit _ _ _ _ _ a0 (λ r, set_phase next (rr_desired r) (rr_abort r) now r)); try done; [| |apply clock_ok|].
  - by apply row_advanced.
  - by right.
  - by eapply logged_same.
Qed.

Lemma cleanup_commits id status reason abort s s' u : run_inv (store_db s) →
  run_op utc_now uuid sqlite (OpCleanup id status reason abort) s = (s', Ok u) →
  commits (OpCleanup id status reason abort) s s'.
Proof.
  cbn [run_op]. unfold request_cleanup. intros Hd H. stmts. set (now := isoformat _) in *.
  case_bool_decide as Et; stmts; [stores; apply commit_nothing|].
  case_bool_decide as Ep; stmts.
  - match goal with H : when _ _ _ = _ |- _ => apply when_Ok_inv in H as [[_ H]|[_ ->]] end; stmts; stores; [|apply commit_nothing].
    eapply commit_flagged; [done|done|done|apply clock_ok].
  - set (f := set_phase CLEANING_UP (Some status) (abort || rr_abort a0) now) in *. logs (f a0) e He.
    eapply (logged_commit _ _ _ _ _ a0 f); try done; [| |apply clock_ok|].
    + by eapply (row_cleaning _ _ status).
    + by right.
    + by eapply logged_same.
Qed.

Lemma finish_commits id verified detail s s' u : run_inv (store_db s) →
  run_op utc_now uuid sqlite (OpFinish id verified detail) s = (s', Ok u) → commits (OpFinish id verified detail) s s'.
Proof.
  cbn [run_op]. unfold finish_cleanup. intros Hd H. stmts. set (now := isoformat _) in *.
  case_bool_decide as Et; stmts; [stores; apply commit_nothing|].
  set (t := if verified then _ else RESET_FAILED) in *. set (error := if verified then None else _) in *.
  set (f := set_terminal t error now) in *. logs (f a0) e He.
  set (m := l ← mutation_lease (store_db s); if bool_decide (ml_run l = id) then None else Some l).
  eapply (commit_logged_eq _ _ _ _ id a0 f e m (worker_leases (store_db s))); try done; [| |apply clock_ok| | |].
  - eapply row_ended; try done. subst t. by destruct verified; auto.
  - by right.
  - by eapply logged_same.
  - subst m. intros l. destruct (mutation_lease _) as [l0|]; [|done]. cbn. case_bool_decide; [done|]. intros [= ->]. done.
  - subst m. intros l. destruct (mutation_lease _) as [l0|]; [|done]. cbn. case_bool_decide; [done|]. auto.
Qed.

(** What [acquire_mutation_lease] makes of the lease it finds. *)
Definition lease_start (id : string) (now : datetime) (o : option MutationRow) : result datetime :=
  match o with
  | Some l =>
      expiry ← parsed (ml_expires_at l);
      live ← dt_gt expiry now;
      require (negb (bool_decide (ml_run l ≠ id) && live)) LeaseConflictError
        ("mutation lease is held by " +:+ ml_run l) ;;
      if bool_decide (ml_run l = id) && live then parsed (ml_acquired_at l) else Ok now
  | None => Ok now
  end.

Lemma lease_start_eq id τ d l : run_inv d → representable τ → mutation_lease d = Some l →
  lease_start id (utc_of τ) (Some l) =
    if bool_decide (ml_run l = id)
    then if τ <? instant (ml_expires_at l) then parsed (ml_acquired_at l) else Ok (utc_of τ)
    else if τ <? instant (ml_expires_at l)
    then raise LeaseConflictError ("mutation lease is held by " +:+ ml_run l) else Ok (utc_of τ).
Proof.
  intros Hd Hτ Hl. destruct (ri_mutation d Hd l Hl) as (_ & Ha & _ & He).
  apply parsed_stamp in He as (e & Hte & He & Ee). unfold lease_start. rewrite He, bind_ok.
  rewrite (dt_gt_utc e (utc_of τ)) by (done || by eexists). rewrite bind_ok. rewrite Ee, instant_isoformat by done.
  cbn [dt_wall utc_of]. destruct (decide (ml_run l = id)) as [E|E].
  - rewrite !(bool_decide_true (ml_run l = id)), bool_decide_false by (done || auto). by destruct (τ <? dt_wall e).
  - rewrite !(bool_decide_false (ml_run l = id)), bool_decide_true by done. by destruct (τ <? dt_wall e).
Qed.

Lemma lease_start_Ok id τ d a : run_inv d → representable τ → lease_start id (utc_of τ) (mutation_lease d) = Ok a →
  utc_time a ∧ ∀ l, mutation_lease d = Some l → ml_run l = id ∨ instant (ml_expires_at l) <= τ.
Proof.
  intros Hd Hτ H. assert (utc_time (utc_of τ)) as Hnow by by exists τ.
  destruct (mutation_lease d) as [l|] eqn:El; [|by injection H as <-].
  rewrite (lease_start_eq id τ d l Hd Hτ El) in H.
  destruct (ri_mutation d Hd l El) as (_ & (t & Ht & E) & _).
  destruct (Z.ltb_spec τ (instant (ml_expires_at l))); case_bool_decide; try done.
  - rewrite E, parsed_isoformat in H by done. injection H as <-. split; [done|]. intros ? [= <-]. auto.
  - injection H as <-. split; [done|]. intros ? [= <-]. auto.
  - injection H as <-. split; [done|]. intros ? [= <-]. auto.
Qed.

Lemma acquire_commits id ttl now s s' u : run_inv (store_db s) →
  run_op utc_now uuid sqlite (OpAcquire id ttl now) s = (s', Ok u) → commits (OpAcquire id ttl now) s s'.
Proof.
  cbn [run_op]. unfold acquire_mutation_lease. intros Hd H. stmts.
  match goal with H : current _ _ _ = _ |- _ => apply (current_Ok _ clock_ok) in H as (Hs2 & -> & Hτ) end.
  match goal with H : plus_seconds _ _ = _ |- _ => apply plus_seconds_Ok in H as [-> Hx] end.
  match goal with H : _ = Ok ?x |- _ => change (lease_start id (utc_of (time_of utc_now now s)) (mutation_lease (store_db s1)) = Ok x) in H;
    rename H into Hstart; rename x into acquired end.
  logs a0 e He. apply lease_start_Ok in Hstart as [Hacq Hfree]; [|done..].
  eapply (commit_logged_eq _ _ _ _ id a0 (λ r, r) e); try exact Hτ; try done.
  - rewrite update_run_same. reflexivity.
  - by apply row_touched; auto.
  - auto.
  - by eapply logged_same.
  - split_and!; [|lia..|done|done]. eexists. split; [by apply stamp_isoformat|reflexivity].
  - intros l [= <-]. auto.
Qed.

Lemma release_commits id s s' u : run_inv (store_db s) →
  run_op utc_now uuid sqlite (OpRelease id) s = (s', Ok u) → commits (OpRelease id) s s'.
Proof.
  cbn [run_op]. unfold release_mutation_lease. intros Hd H. stmts.
  case_bool_decide as Em; stmts; [|stores; apply commit_nothing]. logs a0 e He.
  eapply (commit_logged_eq _ _ _ _ id a0 (λ r, r) e None (worker_leases (store_db s))); try apply clock_ok; try done.
  - rewrite update_run_same. by destruct (store_db s).
  - by apply row_touched; auto.
  - auto.
  - by eapply logged_same.
Qed.

Lemma next_claim_elem phases d r : next_claim phases d = Some r → r ∈ runs d ∧ claimable phases d r = true.
Proof.
  unfold next_claim. intros H. apply head_Some_elem_of in H. apply elem_of_sort_by in H.
  by apply list_elem_of_In, filter_In in H as [H%list_elem_of_In ?].
Qed.

Lemma claim_commits worker phases ttl now s s' u : run_inv (store_db s) →
  run_op utc_now uuid sqlite (OpClaim worker phases ttl now) s = (s', Ok u) → commits (OpClaim worker phases ttl now) s s'.
Proof.
  cbn [run_op]. unfold claim_next_run. intros Hd H. stmts.
  match goal with H : current _ _ _ = _ |- _ => apply (current_Ok _ clock_ok) in H as (Hs2 & -> & Hτ) end.
  match goal with H : plus_seconds _ _ = _ |- _ => apply plus_seconds_Ok in H as [-> Hx] end.
  match goal with H : match ?o with Some _ => _ | None => _ end _ = _ |- _ => destruct o as [row|] eqn:Hrow end; stmts.
  - destruct (next_claim_elem _ _ _ Hrow) as [Hin Hc].
    unfold claimable in Hc. rewrite !andb_true_iff, !bool_decide_eq_true in Hc. destruct Hc as [[Hterm Hfree] _].
    logs row e He.
    eapply (commit_logged_eq _ _ _ _ (rr_id row) row (λ r, r) e (mutation_lease (store_db s))
      (<[rr_id row := new_lease worker (time_of utc_now now s) ttl]> (live_leases (time_of utc_now now s) (worker_leases (store_db s)))));
      try exact Hτ; try done.
    + rewrite update_run_same. by destruct (store_db s).
    + by apply run_at_unique; [apply (ri_ids _ Hd)|].
    + by apply row_touched; auto.
    + auto.
    + by eapply logged_same.
    + auto.
    + split_and!; [lia..|done|done|reflexivity].
  - stores. apply commit_workers; [done|]. split_and!; [lia..|done|reflexivity].
Qed.

Lemma renew_commits id worker ttl now s s' u : run_inv (store_db s) →
  run_op utc_now uuid sqlite (OpRenew id worker ttl now) s = (s', Ok u) → commits (OpRenew id worker ttl now) s s'.
Proof.
  cbn [run_op]. unfold renew_worker_lease. intros Hd H. stmts.
  match goal with H : current _ _ _ = _ |- _ => apply (current_Ok _ clock_ok) in H as (Hs2 & -> & Hτ) end.
  match goal with H : plus_seconds _ _ = _ |- _ => apply plus_seconds_Ok in H as [-> Hx] end.
  match goal with H : match ?o with Some _ => _ | None => _ end = _ |- _ => destruct o as [l|] eqn:Hl end; stmts.
  stores. destruct (ri_workers _ Hd _ _ Hl) as (_ & _ & _ & (t & Ht & Et)).
  match goal with H : bool_decide _ = true |- _ => apply bool_decide_eq_true in H as <- end.
  rewrite Et, parsed_isoformat in Ha4 by done. injection Ha4 as <-.
  rewrite dt_gt_utc in Ha5 by (done || (by exists (time_of utc_now now s))). injection Ha5 as Hlt%Z.ltb_lt.
  apply commit_workers; [done|]. exists a3. rewrite Et, instant_isoformat by done. done.
Qed.

Lemma release_worker_commits id worker s s' u : run_inv (store_db s) →
  run_op utc_now uuid sqlite (OpReleaseWorker id worker) s = (s', Ok u) → commits (OpReleaseWorker id worker) s s'.
Proof.
  cbn [run_op]. unfold release_worker_lease. intros Hd H. stmts. case_bool_decide as Ew; stmts; stores; [|apply commit_nothing].
  apply commit_workers; [apply clock_ok|]. done.
Qed.

Lemma reads_commit {A} op (m : prog Store A) s s' u : reads m → quietly m s = (s', Ok u) → commits op s s'.
Proof.
  intros Hm H. stmts. specialize (Hm s). match goal with H : m s = _ |- _ => rewrite H in Hm end.
  cbn in Hm. rewrite Hm. apply commit_nothing.
Qed.

(** Every call that returns commits what [commit] says. *)
Lemma run_op_commits op s s' u : run_inv (store_db s) → run_op utc_now uuid sqlite op s = (s', Ok u) → commits op s s'.
Proof.
  intros Hd H. destruct op;
    first [ by eapply create_commits | by eapply append_commits | by eapply transition_commits
          | by eapply cleanup_commits | by eapply finish_commits | by eapply acquire_commits
          | by eapply release_commits | by eapply claim_commits | by eapply renew_commits
          | by eapply release_worker_commits | eapply reads_commit; [|exact H] ].
  - apply reads_get.
  - unfold list_runs. auto with atomic.
  - apply reads_list_events.
  - apply reads_get_lease.
Qed.

Lemma run_op_cases op s : run_inv (store_db s) → commits op s (run_op utc_now uuid sqlite op s).1.
Proof.
  intros Hd. destruct (run_op utc_now uuid sqlite op s) as [s' [u|e]] eqn:E; cbn.
  - by eapply run_op_commits.
  - apply run_op_atomic in E. rewrite E. apply commit_nothing.
Qed.

Lemma empty_run_inv : run_inv {| runs := []; run_events := []; mutation_lease := None; worker_leases := ∅ |}.
Proof.
  split; cbn; try (by constructor); try by intros.
  all: by intros ? ?%not_elem_of_nil.
Qed.

Lemma run_reach_inv s : reach utc_now uuid sqlite s → run_inv (store_db s).
Proof.
  induction 1 as [ticks|s op _ IH]; [apply empty_run_inv|].
  eapply commit_inv; [exact IH|]. by apply run_op_cases.
Qed.
End commits.
