(* ===== verification/RunStoreProps.v ===== *)
(** * What the run store promises

    Theorems on every database the run store can reach, whatever it is asked and whatever
    SQLite answers. *)

From S2P Require Import Prelude Hoare PyFloat PyVal PyTime PyIso PyIsoOrder PyStamp PyJson Sha256 RunStore RunStoreInv.

#[local] Open Scope Z_scope.

(** ** Specifications and their texts *)

Lemma sort_keys_strings l : map sort_keys (map JStr l) = map JStr l.
Proof. rewrite map_map. by apply map_ext. Qed.

Lemma spec_dump_injective s t : sort_keys (spec_dump s) = sort_keys (spec_dump t) → s = t.
Proof.
  destruct s as [? ? m a [? ? ? l ?] [? ? k] [? ? ? ?] [? ?] ?], t as [? ? m' a' [? ? ? l' ?] [? ? k'] [? ? ? ?] [? ?] ?].
  unfold spec_dump, scan_dump. cbn [scan evidence_roots sort_keys map fst snd]. rewrite !sort_keys_strings. intros H.
  assert (map JStr l = map JStr l' → l = l') as Hl by (apply (list_fmap_eq_inj JStr); by intros ? ? [=]).
  revert Hl H. generalize (map JStr l) (map JStr l'). intros L L' Hl H. vm_compute in H.
  injection H. intros. subst. assert (l = l') as -> by auto. f_equal; try (by f_equal; destruct k, k').
  - by destruct m, m'.
  - by destruct a, a'.
Qed.

(** Two run specifications have the same canonical text exactly when they are the same. *)
Theorem canonical_spec_injective s t : _canonical_spec s = _canonical_spec t ↔ s = t.
Proof.
  unfold _canonical_spec. split; [|by intros ->]. intros H%dumps_sorted_injective. by apply spec_dump_injective.
Qed.

(** ** Reading rows *)

Definition record_of (r : RunRow) : RunRecord := {|
  rec_run_id := rr_id r; rec_spec := rr_spec r; rec_spec_sha256 := rr_digest r; rec_phase := rr_phase r;
  rec_terminal_status := rr_terminal r; rec_desired_terminal_status := rr_desired r;
  rec_abort_requested := rr_abort r; rec_revision := rr_revision r;
  rec_created_at := utc_of (instant (rr_created_at r)); rec_updated_at := utc_of (instant (rr_updated_at r));
  rec_last_error := e ← rr_last_error r; if nonempty e then Some e else None |}.

Lemma parsed_instant text : stamp text → parsed text = Ok (utc_of (instant text)).
Proof. intros (t & Ht & ->). rewrite instant_isoformat, parsed_isoformat by done. by destruct Ht as (w & _ & ->). Qed.

Lemma record_row r : row_ok r → _record r = Ok (record_of r).
Proof.
  intros []. unfold _record. rewrite ro_spec, require_true, bind_ok, !parsed_instant, !bind_ok by done.
  by rewrite (proj2 (Z.leb_le _ _) ro_revision), require_true, bind_ok.
Qed.

Lemma NoDup_map_inj {A B} (f : A → B) l x y : NoDup (map f l) → x ∈ l → y ∈ l → f x = f y → x = y.
Proof.
  induction l as [|a l IH]; cbn; [by intros _ ?%not_elem_of_nil|]. intros [Ha Hn]%NoDup_cons.
  assert (∀ z, z ∈ l → f z ≠ f a) as Hne.
  { intros z Hz E. apply Ha. rewrite <- E. apply list_elem_of_fmap. eauto. }
  intros [->|Hx]%elem_of_cons [->|Hy]%elem_of_cons E; [done| | |by apply IH].
  - by destruct (Hne y Hy).
  - by destruct (Hne x Hx).
Qed.

(** A run that has ended keeps its row, the time of its last event aside. *)
Definition frozen (r r' : RunRow) : Prop :=
  same_run r r' ∧ rr_phase r' = rr_phase r ∧ rr_terminal r' = rr_terminal r ∧ rr_desired r' = rr_desired r ∧
  rr_abort r' = rr_abort r ∧ rr_revision r' = rr_revision r.

Lemma commit_frozen op τ d d' id r : commit op τ d d' → run_at id d = Some r → rr_terminal r ≠ None →
  ∃ r', run_at id d' = Some r' ∧ frozen r r'.
Proof.
  intros Hc Hr Ht. assert (frozen r r) as Hrefl by done.
  destruct Hc as [|id' spec e -> Hok Hnone Hreq Hτ Hl He|id' r0 _ Hr0 Ht0 Hτ|id' r0 f e m w _ Hr0 Hf Hs Hup Hτ Hl Hm Hterm Hold Hw|w Hτ Hw].
  - eauto.
  - rewrite (run_at_new d _ (new_row id' spec τ) e eq_refl Hnone). case_bool_decide as E; [cbn in E; rewrite E in Hr; by rewrite Hnone in Hr|eauto].
  - rewrite run_at_update, Hr by done. cbn. eexists; split; [done|]. case_bool_decide as E; [|done].
    pose proof (run_at_elem _ _ _ Hr) as [_ <-]. rewrite E in Hr. congruence.
  - change (∃ r', run_at id (update_run id' f d) = Some r' ∧ frozen r r').
    rewrite run_at_update, Hr by apply (same_run_id _ Hf). cbn. eexists; split; [done|].
    case_bool_decide as E; [|done]. pose proof (run_at_elem _ _ _ Hr) as [_ Eid].
    assert (r0 = r) as -> by (rewrite <- Eid, E in Hr; congruence).
    destruct Hs as [? ? ? [?|?]| | |]; try congruence. split; [apply Hf|done].
  - eauto.
Qed.

Lemma commit_worker_leases op τ d d' : commit op τ d d' →
  worker_leases d' = worker_leases d ∨
  representable τ ∧ ∃ o, worker_change op τ o (worker_leases d) (worker_leases d').
Proof.
  intros [|id' spec e -> Hok Hnone Hreq Hτ Hlg He|id' r0 _ Hr0 Ht0 Hτ|id' r0 f e m w _ Hr0 Hf Hs Hup Hτ Hlg Hm Hterm Hold Hw|w Hτ Hw];
    auto; right; (split; [done|]); [by exists (Some id')|by exists None].
Qed.

(** A run that [claim_next_run] may hand out at the instant [τ]. *)
Definition eligible (τ : Z) (phases : list RunPhase) (d : RunDB) (r : RunRow) : Prop :=
  rr_terminal r = None ∧ rr_phase r ∈ phases ∧
  ∀ l, worker_leases d !! rr_id r = Some l → instant (wl_expires_at l) <= τ.

Definition selected (phases : option (list RunPhase)) : list RunPhase :=
  match phases with Some (p :: l) => p :: l | _ => all_phases end.

Lemma claimable_eligible τ phases d r : run_inv d → representable τ →
  claimable phases (with_workers (live_leases τ) d) r = true ↔ eligible τ phases d r.
Proof.
  intros Hd Hτ. unfold claimable, eligible. rewrite !andb_true_iff, !bool_decide_eq_true. cbn.
  assert (live_leases τ (worker_leases d) !! rr_id r = None ↔
    ∀ l, worker_leases d !! rr_id r = Some l → instant (wl_expires_at l) <= τ) as ->; [|naive_solver].
  unfold live_leases. rewrite map_lookup_filter_None. split.
  - intros [H|H] l Hl; [congruence|]. specialize (H l Hl). cbn in H. apply not_false_is_true in H.
    destruct (ri_workers d Hd _ l Hl) as (_ & _ & _ & He).
    rewrite str_leb_stamps, instant_isoformat in H by (done || (by apply stamp_utc) || (by exists τ)). by apply Z.leb_le.
  - intros H. right. intros l Hl. cbn. specialize (H l Hl). destruct (ri_workers d Hd _ l Hl) as (_ & _ & _ & He).
    rewrite str_leb_stamps, instant_isoformat by (done || (by apply stamp_utc) || (by exists τ)).
    change (dt_wall (utc_of τ)) with τ. by rewrite (proj2 (Z.leb_le _ _) H).
Qed.

Lemma next_claim_oldest τ phases d : run_inv d → representable τ →
  match next_claim phases (with_workers (live_leases τ) d) with
  | Some r => r ∈ runs d ∧ eligible τ phases d r ∧
      ∀ r', r' ∈ runs d → eligible τ phases d r' → instant (rr_created_at r) <= instant (rr_created_at r')
  | None => ∀ r, r ∈ runs d → ¬ eligible τ phases d r
  end.
Proof.
  intros Hd Hτ. unfold next_claim. set (c := claimable _ _).
  assert (∀ r, r ∈ List.filter c (runs d) ↔ r ∈ runs d ∧ eligible τ phases d r) as Hin.
  { intros r. rewrite list_elem_of_In, filter_In, <- list_elem_of_In. unfold c. by rewrite (claimable_eligible τ). }
  destruct (head _) as [r|] eqn:E.
  - apply (head_sort_by _ (λ r, instant (rr_created_at r))) in E as [Hr Hmin].
    + apply Hin in Hr as [Hr He]. split_and!; [done|done|]. intros r' Hr' He'. apply Hmin, Hin. done.
    + intros x y [Hx _]%Hin [Hy _]%Hin. destruct (ri_rows d Hd x Hx) as [[] _], (ri_rows d Hd y Hy) as [[] _].
      by apply str_leb_stamps.
  - intros r Hr He. assert (r ∈ List.filter c (runs d)) as H by by apply Hin.
    destruct (sort_by _ _) eqn:Es in E; [|done].
    match type of Es with sort_by ?leb ?l = _ => change (r ∈ l) in H; apply (elem_of_sort_by leb) in H end.
    rewrite Es in H. by apply not_elem_of_nil in H.
Qed.

Section promises.
Context (utc_now : nat → Z) (uuid : nat → string) (sqlite : nat → option exn).

#[local] Abbreviation do op s := (run_op utc_now uuid sqlite op s).
#[local] Abbreviation reachable := (reach utc_now uuid sqlite).

(** A call of the run store that raises, whatever the reason, leaves the database as it was. *)
Theorem failed_calls_change_nothing op s s' e : do op s = (s', Err e) → store_db s' = store_db s.
Proof. apply run_op_atomic. Qed.

Section clock.
Context (clock_ok : ∀ n, representable (utc_now n)).

(** C17: In every database the run store can reach, whatever it is asked and whatever SQLite
    answers, each run has its own id and request, the digest of its specification, and
    events numbered from 1 that tell a legal history from CREATED to its present phase and
    terminal status. *)
Theorem run_histories s r : reachable s → r ∈ runs (store_db s) →
  history (events_of (rr_id r) (store_db s)) (rr_phase r) (rr_terminal r) ∧
  map ev_sequence (events_of (rr_id r) (store_db s)) = seqZ 1 (Z.of_nat (length (events_of (rr_id r) (store_db s)))) ∧
  rr_digest r = spec_digest (rr_spec r) ∧
  (∀ r', r' ∈ runs (store_db s) → rr_id r' = rr_id r ∨ request_of r' = request_of r → r' = r).
Proof.
  intros H%(run_reach_inv _ _ _ clock_ok) Hr. pose proof H as []. destruct (ri_rows r Hr) as [[] Hh].
  split_and!; [done|by eapply history_length|done|]. intros r' Hr' [E|E].
  - by apply (NoDup_map_inj rr_id (runs (store_db s))).
  - by apply (NoDup_map_inj request_of (runs (store_db s))).
Qed.

(** A run that has ended is in CLEANING_UP, ended as was asked or with RESET_FAILED, holds no
    mutation lease, and no later call changes its row but for the time of its last event. *)
Theorem ended_runs_frozen s op id r : reachable s → run_at id (store_db s) = Some r → rr_terminal r ≠ None →
  rr_phase r = CLEANING_UP ∧ (rr_desired r = rr_terminal r ∨ rr_terminal r = Some RESET_FAILED) ∧
  (∀ l, mutation_lease (store_db s) = Some l → ml_run l ≠ id) ∧
  ∃ r', run_at id (store_db (do op s).1) = Some r' ∧ frozen r r'.
Proof.
  intros H%(run_reach_inv _ _ _ clock_ok) Hr Ht. pose proof H as [].
  pose proof (run_at_elem _ _ _ Hr) as [Hin Hid]. destruct (ri_rows r Hin) as [[] _].
  destruct (rr_terminal r) as [t|] eqn:E; [|done]. destruct (ro_terminal t eq_refl) as [Hp Hd].
  split_and!; [done|by destruct Hd as [->| ->]; auto| |].
  - intros l Hl E'. destruct (ri_mutation l Hl) as [(r0 & Hr0 & Ht0) _]. congruence.
  - eapply commit_frozen; [by apply run_op_cases|done|congruence].
Qed.

(** C18: While a run holds the cluster's mutation lease no call takes it away: it stays, or
    another run acquires it after its expiry, or the run itself releases it or ends. *)
Theorem mutation_lease_exclusive s op l : reachable s → mutation_lease (store_db s) = Some l →
  let l' := mutation_lease (store_db (do op s).1) in
  l' = Some l ∨
  (∃ id ttl now, op = OpAcquire id ttl now ∧ ml_run <$> l' = Some id ∧
     (id = ml_run l ∨ instant (ml_expires_at l) <= op_time utc_now op s)) ∨
  (l' = None ∧ (op = OpRelease (ml_run l) ∨ ∃ verified detail, op = OpFinish (ml_run l) verified detail)).
Proof.
  intros H%(run_reach_inv _ _ _ clock_ok) Hl. cbn zeta.
  pose proof (run_op_cases _ uuid sqlite clock_ok op s H) as Hc. revert Hc.
  generalize (store_db (do op s).1). intros d' Hc.
  destruct Hc as [|id' spec e -> Hok Hnone Hreq Hτ Hlg He|id' r0 _ Hr0 Ht0 Hτ|id' r0 f e m w _ Hr0 Hf Hs Hup Hτ Hlg Hm Hterm Hold Hw|w Hτ Hw];
    auto.
  cbn. rewrite Hl in Hm. destruct op; cbn in Hm; auto.
  - subst m. case_bool_decide as E; [|auto]. right. right. subst. eauto.
  - right. left. destruct Hm as ((a & _ & ->) & _ & _ & Hfree). destruct (Hfree l eq_refl) as [E|E]; eauto 10.
  - destruct Hm as [-> [= ->]]. auto.
Qed.

(** While a worker's lease of a run lives no call takes it away: it stays, its worker renews it
    before it expires, a claim after its expiry drops it, or its worker releases it. *)
Theorem worker_lease_exclusive s op k l : reachable s → worker_leases (store_db s) !! k = Some l →
  let l' := worker_leases (store_db (do op s).1) !! k in
  l' = Some l ∨
  (∃ ttl now, op = OpRenew k (wl_worker l) ttl now ∧ op_time utc_now op s < instant (wl_expires_at l) ∧
     ∃ m, l' = Some m ∧ wl_worker m = wl_worker l) ∨
  (∃ worker phases ttl now, op = OpClaim worker phases ttl now ∧ instant (wl_expires_at l) <= op_time utc_now op s) ∨
  (l' = None ∧ op = OpReleaseWorker k (wl_worker l)).
Proof.
  intros H%(run_reach_inv _ _ _ clock_ok) Hl. cbn zeta.
  pose proof (run_op_cases _ uuid sqlite clock_ok op s H) as Hc. revert Hc.
  generalize (store_db (do op s).1). intros d' Hc.
  destruct (commit_worker_leases _ _ _ _ Hc) as [->|(Hτ & o & Hw)]; [by auto|].
  destruct op; cbn in Hw; rewrite ?Hw; auto.
  - destruct (ri_workers _ H k l Hl) as (_ & _ & _ & He).
    destruct (decide (str_leb (wl_expires_at l) (isoformat (utc_of (time_of utc_now now s))) = false)) as [E|E].
    + left. assert (live_leases (time_of utc_now now s) (worker_leases (store_db s)) !! k = Some l) as Hlive
        by (by apply map_lookup_filter_Some).
      destruct Hw as (_ & _ & Hw). destruct o as [k'|]; [|by rewrite Hw]. destruct Hw as [Hfree ->].
      rewrite lookup_insert_ne; [done|congruence].
    + right. right. left. apply not_false_is_true in E. rewrite str_leb_stamps in E; [|done|by apply stamp_utc].
      rewrite instant_isoformat in E by (by exists (time_of utc_now now s)). apply Z.leb_le in E. eauto 10.
  - destruct Hw as (l0 & Hl0 & <- & Hlt & _ & ->). destruct (decide (k = run_id)) as [->|Hne].
    + right. left. assert (l0 = l) as -> by congruence. rewrite lookup_insert_eq. eauto 10.
    + left. by rewrite lookup_insert_ne.
  - destruct Hw as [Ho ->]. destruct (decide (k = run_id)) as [->|Hne].
    + right. right. right. rewrite Hl in Ho. injection Ho as <-. by rewrite lookup_delete_eq.
    + left. by rewrite lookup_delete_ne.
Qed.

(** A claim hands out the oldest run that has not ended, is in one of the phases and whose
    lease, if any, has expired, and leases it; it hands out none only when there is none.
    Times are compared as texts, which order like the instants. *)
Theorem claim_hands_out_oldest s s' worker phases ttl now o : reachable s →
  claim_next_run utc_now uuid sqlite worker phases ttl now s = (s', Ok o) →
  let τ := time_of utc_now now s in
  match o with
  | Some lease => ∃ r, r ∈ runs (store_db s) ∧ eligible τ (selected phases) (store_db s) r ∧
      (∀ r', r' ∈ runs (store_db s) → eligible τ (selected phases) (store_db s) r' →
         instant (rr_created_at r) <= instant (rr_created_at r')) ∧
      wrk_run_id lease = rr_id r ∧ wrk_worker_id lease = worker ∧ wrk_expires_at lease = utc_of (τ + ttl * 1000000) ∧
      worker_leases (store_db s') !! rr_id r = Some (new_lease worker τ ttl)
  | None => ∀ r, r ∈ runs (store_db s) → ¬ eligible τ (selected phases) (store_db s) r
  end.
Proof.
  intros Hd%(run_reach_inv _ _ _ clock_ok) H. cbn zeta. unfold claim_next_run in H. fold (selected phases) in H. stmts.
  match goal with H : current _ _ _ = _ |- _ => apply (current_Ok _ clock_ok) in H as (Hs2 & -> & Hτ) end.
  match goal with H : plus_seconds _ _ = _ |- _ => apply plus_seconds_Ok in H as [-> Hx] end.
  pose proof (next_claim_oldest (time_of utc_now now s) (selected phases) (store_db s) Hd Hτ) as Hn.
  match goal with H : match ?o with Some _ => _ | None => _ end _ = _ |- _ => destruct o as [row|] eqn:Hrow end; stmts.
  - destruct (next_claim_elem _ _ _ Hrow) as [Hin Hc].
    unfold claimable in Hc. rewrite !andb_true_iff, !bool_decide_eq_true in Hc. destruct Hc as [[Hterm Hfree] _].
    logs row e He. change (filter _) with (live_leases (time_of utc_now now s)) in Hrow. rewrite Hrow in Hn.
    destruct Hn as (H1 & H2 & H3). exists row. split_and!; try done. cbn. by rewrite lookup_insert_eq.
  - stores. change (filter _) with (live_leases (time_of utc_now now s)) in Hrow. by rewrite Hrow in Hn.
Qed.

(** ** When SQLite answers *)

Context (sqlite_ok : ∀ n, sqlite n = None).

Lemma write_run {A} (body : prog Store A) s s1 a : body (ticked s) = (s1, Ok a) → _write sqlite body s = (ticked s1, Ok a).
Proof.
  intros H. unfold _write. rewrite prog_bind_eq. unfold sqlite_answer at 1. rewrite sqlite_ok.
  rewrite prog_bind_eq, H, prog_bind_eq. unfold sqlite_answer. by rewrite sqlite_ok.
Qed.

Lemma write_run_err {A} (body : prog Store A) s s1 e : body (ticked s) = (s1, Err e) →
  _write sqlite body s = ({| store_db := store_db s; store_ticks := store_ticks s1 |}, Err e).
Proof.
  intros H. unfold _write. rewrite prog_bind_eq. unfold sqlite_answer at 1. rewrite sqlite_ok.
  by rewrite prog_bind_eq, H.
Qed.

Lemma require_row_run id s r : run_at id (store_db s) = Some r → _require_row id s = (s, Ok r).
Proof. intros H. unfold _require_row. rewrite prog_bind_eq. cbn. by rewrite H. Qed.

Lemma row_record_run id s r : run_at id (store_db s) = Some r → row_ok r → row_record id s = (s, Ok (record_of r)).
Proof. intros H Hr. unfold row_record. rewrite (run_ok _ _ _ _ _ (require_row_run _ _ _ H)). unfold lift. by rewrite record_row. Qed.

(** [uuid4] has yet to give the identifiers of the database's events. *)
Definition fresh (s : Store) : Prop := ∀ n, (store_ticks s <= n)%nat → uuid n ∉ map ev_id (run_events (store_db s)).

Lemma append_run id type p t detail at' s r τ : fresh s → at' = utc_of τ → rr_phase r = p → rr_terminal r = t →
  ∃ e, _append_event uuid id type p t detail at' s =
    ({| store_db := with_event e (store_db s); store_ticks := S (store_ticks s) |}, Ok ()) ∧ ev_id e = uuid (store_ticks s).
Proof.
  intros Hf -> <- <-. unfold _append_event. rewrite prog_bind_eq. cbn. rewrite prog_bind_eq. cbn. rewrite prog_bind_eq. cbn.
  rewrite prog_bind_eq. match goal with |- context [lift (require (negb ?b) _ _)] => assert (b = false) as -> end.
  { apply not_true_iff_false. intros (e & He & E%bool_decide_eq_true)%existsb_exists.
    apply (Hf (store_ticks s)); [done|]. rewrite <- E. apply list_elem_of_fmap. exists e. by rewrite list_elem_of_In. }
  cbn. eexists. split; [reflexivity|done].
Qed.

Lemma finish_run s id r t verified detail : run_inv (store_db s) → fresh s → run_at id (store_db s) = Some r →
  rr_terminal r = None → rr_phase r = CLEANING_UP → rr_desired r = Some t →
  ∃ s' x r', finish_cleanup utc_now uuid sqlite id verified detail s = (s', Ok x) ∧
    run_at id (store_db s') = Some r' ∧ rr_terminal r' = Some (if verified then t else RESET_FAILED).
Proof.
  intros Hd Hf Hr Ht Hp Hdes. pose proof (run_at_elem _ _ _ Hr) as [Hin Hid]. destruct (ri_rows _ Hd r Hin) as [Hrow _].
  set (terminal := if verified then t else RESET_FAILED).
  set (now := utc_of (utc_now (store_ticks s))).
  set (error := if verified then None else Some "cleanup verification failed").
  set (f := set_terminal terminal error (isoformat now)).
  assert (row_ok (f r)) as Hok.
  { eapply (row_step_ok r (f r) (utc_now (store_ticks s))); [done|done| |done|by right].
    eapply (row_ended r (f r) t terminal); try done. subst terminal. destruct verified; auto. }
  set (s1 := {| store_db := update_run id f (store_db s); store_ticks := S (S (store_ticks s)) |}).
  assert (fresh s1) as Hf1 by (intros n Hn; apply Hf; cbn in Hn; lia).
  destruct (append_run id "RUN_TERMINATED" CLEANING_UP (Some terminal)
    (dict_update [("cleanup_verified", VBool verified)] (default [] detail)) now s1 (f r) (utc_now (store_ticks s)))
    as (e & He & _); [done..|].
  set (m := λ d, with_mutation (l ← mutation_lease d; if bool_decide (ml_run l = id) then None else Some l) d).
  set (s2 := {| store_db := m (with_event e (store_db s1)); store_ticks := S (store_ticks s1) |}).
  assert (run_at id (store_db s2) = Some (f r)) as Hr2.
  { change (run_at id (update_run id f (store_db s)) = Some (f r)). rewrite run_at_update, Hr by done. cbn.
    by rewrite bool_decide_true. }
  exists (ticked s2), (record_of (f r)), (f r). split_and!; [|exact Hr2|done].
  unfold finish_cleanup. rewrite (run_ok _ _ s (ticked s) now eq_refl). apply write_run.
  rewrite (run_ok _ _ (ticked (ticked s)) _ _ (require_row_run id (ticked (ticked s)) r Hr)).
  rewrite bool_decide_false by (by intros []). rewrite (run_lift _ ()) by by rewrite Hp.
  rewrite (run_lift _ t) by by rewrite Hdes. cbv zeta. fold terminal error f.
  erewrite (run_ok _ _ _ s1 ()) by reflexivity. rewrite (run_ok _ _ _ _ _ He).
  erewrite (run_ok _ _ _ s2 ()) by reflexivity. by apply row_record_run.
Qed.

Lemma cleanup_run s id r status reason : run_inv (store_db s) → fresh s → run_at id (store_db s) = Some r →
  rr_terminal r = None → rr_phase r ≠ CLEANING_UP →
  ∃ s' x r', request_cleanup utc_now uuid sqlite id status reason false s = (s', Ok x) ∧
    run_at id (store_db s') = Some r' ∧ rr_terminal r' = None ∧ rr_phase r' = CLEANING_UP ∧ rr_desired r' = Some status ∧
    (Inj (=) (=) uuid → fresh s').
Proof.
  intros Hd Hf Hr Ht Hp. pose proof (run_at_elem _ _ _ Hr) as [Hin Hid]. destruct (ri_rows _ Hd r Hin) as [Hrow _].
  set (now := utc_of (utc_now (store_ticks s))).
  set (f := set_phase CLEANING_UP (Some status) (false || rr_abort r) (isoformat now)).
  assert (row_ok (f r)) as Hok.
  { eapply (row_step_ok r (f r) (utc_now (store_ticks s))); [done|done| |done|by right].
    by eapply (row_cleaning r (f r) status). }
  set (s1 := {| store_db := update_run id f (store_db s); store_ticks := S (S (store_ticks s)) |}).
  assert (fresh s1) as Hf1 by (intros n Hn; apply Hf; cbn in Hn; lia).
  destruct (append_run id "CLEANUP_REQUESTED" CLEANING_UP None
    [("reason", VStr reason); ("desired_terminal_status", VStr (terminal_value status))] now s1 (f r)
    (utc_now (store_ticks s))) as (e & He & Hid'); [done..|].
  set (s2 := {| store_db := with_event e (store_db s1); store_ticks := S (store_ticks s1) |}).
  assert (run_at id (store_db s2) = Some (f r)) as Hr2.
  { change (run_at id (update_run id f (store_db s)) = Some (f r)). rewrite run_at_update, Hr by done. cbn.
    by rewrite bool_decide_true. }
  exists (ticked s2), (record_of (f r)), (f r). split_and!; try done.
  - unfold request_cleanup. rewrite (run_ok _ _ s (ticked s) now eq_refl). apply write_run.
    rewrite (run_ok _ _ (ticked (ticked s)) _ _ (require_row_run id (ticked (ticked s)) r Hr)).
    rewrite bool_decide_false by (by intros []). rewrite bool_decide_false by done. fold f.
    erewrite (run_ok _ _ _ s1 ()) by reflexivity. rewrite (run_ok _ _ _ _ _ He). by apply row_record_run.
  - intros Hinj n Hn. cbn in Hn |- *. rewrite map_app, elem_of_app. intros [H|E%list_elem_of_singleton].
    + apply (Hf n); [lia|done].
    + rewrite Hid' in E. apply Hinj in E. cbn in E. lia.
Qed.

(** Asked again, [request_cleanup] changes nothing, whether it agrees or not. *)
Lemma cleanup_again s id r status reason : run_inv (store_db s) → run_at id (store_db s) = Some r →
  rr_terminal r = None → rr_phase r = CLEANING_UP →
  let s' := (request_cleanup utc_now uuid sqlite id status reason false s).1 in
  store_db s' = store_db s ∧ (store_ticks s <= store_ticks s')%nat.
Proof.
  intros Hd Hr Ht Hp. cbv zeta. pose proof (run_at_elem _ _ _ Hr) as [Hin _]. destruct (ri_rows _ Hd r Hin) as [Hrow _].
  unfold request_cleanup. rewrite (run_ok _ _ s (ticked s) (utc_of (utc_now (store_ticks s))) eq_refl).
  destruct (decide (rr_desired r = Some status)) as [E|E].
  - rewrite (write_run _ (ticked s) (ticked (ticked s)) (record_of r)); [cbn; split; [reflexivity|lia]|].
    rewrite (run_ok _ _ (ticked (ticked s)) _ _ (require_row_run id (ticked (ticked s)) r Hr)).
    rewrite bool_decide_false by (by intros []). rewrite bool_decide_true by done.
    rewrite (run_lift _ ()) by by rewrite bool_decide_true. rewrite run_when by done. by apply row_record_run.
  - erewrite (write_run_err _ (ticked s) (ticked (ticked s))); [cbn; split; [reflexivity|lia]|].
    rewrite (run_ok _ _ (ticked (ticked s)) _ _ (require_row_run id (ticked (ticked s)) r Hr)).
    rewrite bool_decide_false by (by intros []). rewrite bool_decide_true by done.
    by rewrite (bool_decide_false _ E).
Qed.

Lemma op_frozen op s id r : reachable s → run_at id (store_db s) = Some r → rr_terminal r ≠ None →
  ∃ r', run_at id (store_db (do op s).1) = Some r' ∧ frozen r r'.
Proof. intros Hs. eapply commit_frozen, run_op_cases; [done|by eapply run_reach_inv]. Qed.

(** The run is being cleaned up after a request for it. *)
Lemma cleanup_requested s id r status reason : run_inv (store_db s) → fresh s → Inj (=) (=) uuid →
  run_at id (store_db s) = Some r → rr_terminal r = None →
  let s1 := (do (OpCleanup id status reason false) s).1 in
  ∃ r1, run_at id (store_db s1) = Some r1 ∧ rr_terminal r1 = None ∧ rr_phase r1 = CLEANING_UP ∧
    rr_desired r1 = Some (default status (rr_desired r)) ∧ fresh s1.
Proof.
  intros Hd Hf Hinj Hr Ht. cbv zeta. cbn [run_op].
  pose proof (run_at_elem _ _ _ Hr) as [Hin _]. destruct (ri_rows _ Hd r Hin) as [[] _].
  assert (∀ A (m : prog Store A), (quietly m s).1 = (m s).1) as Hq.
  { intros A m. unfold quietly. rewrite prog_bind_eq. by destruct (m s) as [? []]. }
  rewrite Hq. destruct (decide (rr_phase r = CLEANING_UP)) as [Hp|Hp].
  - destruct (cleanup_again s id r status reason Hd Hr Ht Hp) as [E Hn]. destruct (_ s).1 as [d n] eqn:Es.
    cbn in E, Hn |- *. subst d. exists r. split_and!; [done..| |].
    + apply ro_desired in Hp as [t ->]. done.
    + intros k Hk. apply Hf. cbn in Hk. lia.
  - destruct (cleanup_run s id r status reason Hd Hf Hr Ht Hp) as (s1 & x & r1 & Es & H1 & H2 & H3 & H4 & H5).
    rewrite Es. exists r1. split_and!; [done..| |by apply H5].
    rewrite H4. destruct (rr_desired r) as [t|] eqn:E; [|done]. exfalso. by apply Hp, ro_desired.
Qed.

(** C19: From every reachable database, when SQLite answers, asking for a run's clean-up and
    finishing it ends the run: with the status first asked for when the clean-up is
    verified, with RESET_FAILED when not, and an ended run keeps its status. *)
Theorem cleanup_ends_run s id r status reason verified detail : reachable s → fresh s → Inj (=) (=) uuid →
  run_at id (store_db s) = Some r →
  let s1 := (do (OpCleanup id status reason false) s).1 in
  let s2 := (do (OpFinish id verified detail) s1).1 in
  ∃ r', run_at id (store_db s2) = Some r' ∧
    rr_terminal r' = Some (match rr_terminal r, rr_desired r with
                           | Some t, _ => t
                           | None, Some t => if verified then t else RESET_FAILED
                           | None, None => if verified then status else RESET_FAILED
                           end).
Proof.
  intros Hre Hf Hinj Hr. cbv zeta. pose proof (run_reach_inv _ _ _ clock_ok s Hre) as Hd.
  set (s1 := (do (OpCleanup id status reason false) s).1).
  assert (reachable s1) as Hre1 by by apply reach_op.
  pose proof (run_at_elem _ _ _ Hr) as [Hin Hid]. destruct (ri_rows _ Hd r Hin) as [[] _].
  destruct (rr_terminal r) as [t|] eqn:Et.
  - destruct (op_frozen (OpCleanup id status reason false) s id r Hre Hr ltac:(congruence)) as (r1 & Hr1 & Hz1).
    destruct Hz1 as (_ & _ & E1 & _).
    destruct (op_frozen (OpFinish id verified detail) s1 id r1 Hre1 Hr1 ltac:(congruence)) as (r2 & Hr2 & Hz2).
    exists r2. split; [done|]. destruct Hz2 as (_ & _ & E2 & _). congruence.
  - destruct (cleanup_requested s id r status reason Hd Hf Hinj Hr Et) as (r1 & Hr1 & Ht1 & Hp1 & Hd1 & Hf1).
    destruct (finish_run s1 id r1 _ verified detail (run_reach_inv _ _ _ clock_ok s1 Hre1) Hf1 Hr1 Ht1 Hp1 Hd1)
      as (s2 & x & r2 & Hfin & Hr2 & Ht2).
    exists r2. cbn [run_op]. unfold quietly. rewrite (run_ok _ _ _ _ _ Hfin). split; [done|]. rewrite Ht2.
    by destruct (rr_desired r).
Qed.

(** Every stored run can be read back. *)
Theorem get_reads_back s id : reachable s →
  (get sqlite id s).2 = match run_at id (store_db s) with
                        | Some r => Ok (record_of r)
                        | None => raise RunNotFoundError ("run not found: " +:+ id)
                        end.
Proof.
  intros H%(run_reach_inv _ _ _ clock_ok). unfold get, reading, sqlite_answer. rewrite !prog_bind_eq, sqlite_ok. cbn.
  destruct (run_at id (store_db s)) as [r|] eqn:E; cbn; [|done]. apply record_row.
  apply run_at_elem in E as [E _]. by destruct (ri_rows _ H r E).
Qed.

(** Creating a run for a request that has one changes nothing: the same specification returns
    the run, another one raises ValueError. *)
Theorem creation_idempotent s id spec r : reachable s → r ∈ runs (store_db s) → request_of r = spec_request_id spec →
  let '(s', x) := create_or_get utc_now uuid sqlite id spec s in
  store_db s' = store_db s ∧
  x = if bool_decide (spec_digest (rr_spec r) = spec_digest spec) then Ok (record_of r, false)
      else raise ValueError "idempotency key request_id already exists with a different RunSpec".
Proof.
  intros Hs%(run_reach_inv _ _ _ clock_ok) Hin Hreq. pose proof Hs as []. destruct (ri_rows r Hin) as [Hrow _].
  assert (List.find (λ x, bool_decide (spec_request_id (rr_spec x) = spec_request_id spec)) (runs (store_db s)) = Some r) as Hf.
  { destruct (List.find _ _) as [r'|] eqn:E.
    - apply find_some in E as [E1%list_elem_of_In E2%bool_decide_eq_true]. f_equal.
      apply (NoDup_map_inj request_of (runs (store_db s))); [done..|]. unfold request_of in *. congruence.
    - apply list_elem_of_In in Hin. pose proof (find_none _ _ E r Hin) as Hn. apply bool_decide_eq_false in Hn. done. }
  unfold create_or_get. rewrite (run_ok _ _ s (ticked s) (utc_of (utc_now (store_ticks s))) eq_refl).
  assert (rr_digest r = spec_digest (rr_spec r)) as <- by apply Hrow.
  destruct (decide (rr_digest r = spec_digest spec)) as [E|E].
  - rewrite bool_decide_true by done. rewrite (write_run _ (ticked s) (ticked (ticked s)) (record_of r, false)); [cbn; split; reflexivity|].
    erewrite (run_ok _ _ _ (ticked (ticked s)) (Some r)) by (cbn; by rewrite <- Hf).
    cbv beta iota. rewrite (run_lift _ ()) by by rewrite bool_decide_true.
    by rewrite (run_lift _ (record_of r)) by by apply record_row.
  - rewrite bool_decide_false by done. erewrite (write_run_err _ (ticked s) (ticked (ticked s))); [cbn; split; reflexivity|].
    erewrite (run_ok _ _ _ (ticked (ticked s)) (Some r)) by (cbn; by rewrite <- Hf).
    cbv beta iota. by rewrite (bool_decide_false (rr_digest r = spec_digest spec)).
Qed.
End clock.
End promises.

(** ** A store with a run that waits, one that holds leases and one that has ended *)

Definition demo_clock (n : nat) : Z := 1767225600000000 + Z.of_nat n mod 1000 * 1000000.
Definition demo_uuid (n : nat) : string := "event-" +:+ pretty n.
Definition demo_sqlite (n : nat) : option exn := None.

Lemma demo_clock_ok n : representable (demo_clock n).
Proof. unfold representable, demo_clock. pose proof (Z.mod_pos_bound (Z.of_nat n) 1000). lia. Qed.

Lemma demo_uuid_inj : Inj (=) (=) demo_uuid.
Proof. intros m n E. unfold demo_uuid in E. apply (inj (String.app "event-")) in E. by apply (inj pretty) in E. Qed.

Definition demo_spec (request : string) : RunSpec := {|
  spec_request_id := request; requester := "operator"; spec_mode := DRY_RUN; analysis_mode := MODEL;
  scan := {| application := "hotel"; scan_namespace := "hotel-01"; source_lock_id := "lock-1"; evidence_roots := ["logs"];
             include_live_runtime := true |};
  harness := {| harness_id := "harness"; model_alias := "model-a"; track := NATIVE |};
  progression := {| profile_id := "profile"; max_levels := 3; retry_budget_per_level := 1; total_retry_budget := 3 |};
  scoring := {| policy_id := "episode-score-v1"; allow_provisional_efficiency := true |}; auto_approve := false |}.

Definition demo_run (ops : list RunOp) : Store :=
  foldl (λ s op, (run_op demo_clock demo_uuid demo_sqlite op s).1)
    {| store_db := {| runs := []; run_events := []; mutation_lease := None; worker_leases := ∅ |}; store_ticks := 0 |} ops.

Lemma demo_run_reach ops : reach demo_clock demo_uuid demo_sqlite (demo_run ops).
Proof.
  unfold demo_run. generalize (reach_empty demo_clock demo_uuid demo_sqlite 0). generalize (Build_Store (Build_RunDB [] [] None ∅) 0).
  induction ops as [|op ops IH]; intros s Hs; [done|]. cbn [foldl]. by apply IH, reach_op.
Qed.

Definition demo_store : Store := Eval vm_compute in
  demo_run [OpCreate "run-a" (demo_spec "request-a"); OpCreate "run-b" (demo_spec "request-b");
            OpAcquire "run-a" 60 None; OpClaim "worker-1" None 60 None;
            OpTransition "run-a" SCANNING None; OpCleanup "run-b" BLOCKED "gate" false; OpFinish "run-b" true None].

Lemma demo_reach : reach demo_clock demo_uuid demo_sqlite demo_store.
Proof.
  replace demo_store with (demo_run [OpCreate "run-a" (demo_spec "request-a"); OpCreate "run-b" (demo_spec "request-b");
            OpAcquire "run-a" 60 None; OpClaim "worker-1" None 60 None;
            OpTransition "run-a" SCANNING None; OpCleanup "run-b" BLOCKED "gate" false; OpFinish "run-b" true None]);
    [apply demo_run_reach|vm_compute; reflexivity].
Qed.

Definition demo_row (id : string) : RunRow := default (new_row "" (demo_spec "") 0) (run_at id (store_db demo_store)).

Lemma demo_rows : run_at "run-a" (store_db demo_store) = Some (demo_row "run-a") ∧
  run_at "run-b" (store_db demo_store) = Some (demo_row "run-b").
Proof. split; vm_compute; reflexivity. Qed.

Lemma failed_calls_change_nothing_witness :
  store_db (run_op demo_clock demo_uuid demo_sqlite (OpTransition "run-a" EXECUTING None) demo_store).1 = store_db demo_store.
Proof.
  destruct (run_op demo_clock demo_uuid demo_sqlite (OpTransition "run-a" EXECUTING None) demo_store) as [s' x] eqn:E.
  assert (∃ e, x = Err e) as [e ->] by (vm_compute in E; injection E as <- <-; eauto).
  exact (failed_calls_change_nothing _ _ _ _ _ _ _ E).
Defined.

Lemma run_histories_witness :
  history (events_of "run-b" (store_db demo_store)) CLEANING_UP (Some BLOCKED).
Proof.
  destruct (run_histories demo_clock demo_uuid demo_sqlite demo_clock_ok demo_store (demo_row "run-b") demo_reach) as [H _].
  - vm_compute. right. left.
  - exact H.
Defined.

Lemma ended_runs_frozen_witness :
  ∃ r', run_at "run-b" (store_db (run_op demo_clock demo_uuid demo_sqlite (OpAppend "run-b" "LATE_EVENT" []) demo_store).1) = Some r' ∧
    frozen (demo_row "run-b") r'.
Proof.
  apply (ended_runs_frozen demo_clock demo_uuid demo_sqlite demo_clock_ok demo_store _ _ _ demo_reach).
  - vm_compute. reflexivity.
  - vm_compute. discriminate.
Defined.

Definition demo_lease : MutationRow := default (Build_MutationRow "" "" "" "") (mutation_lease (store_db demo_store)).
Definition demo_worker : WorkerRow := default (new_lease "" 0 0) (worker_leases (store_db demo_store) !! "run-a").

Lemma mutation_lease_exclusive_witness :
  mutation_lease (store_db (run_op demo_clock demo_uuid demo_sqlite (OpRelease "run-b") demo_store).1) = Some demo_lease.
Proof.
  destruct (mutation_lease_exclusive demo_clock demo_uuid demo_sqlite demo_clock_ok demo_store (OpRelease "run-b") demo_lease
    demo_reach) as [H|[H|H]].
  - vm_compute. reflexivity.
  - exact H.
  - destruct H as (? & ? & ? & [=] & _).
  - destruct H as (_ & [H|(? & ? & [=])]). vm_compute in H. discriminate H.
Defined.

Lemma worker_lease_exclusive_witness :
  worker_leases (store_db (run_op demo_clock demo_uuid demo_sqlite (OpReleaseWorker "run-a" "worker-2") demo_store).1) !! "run-a" =
    Some demo_worker.
Proof.
  destruct (worker_lease_exclusive demo_clock demo_uuid demo_sqlite demo_clock_ok demo_store (OpReleaseWorker "run-a" "worker-2")
    "run-a" demo_worker demo_reach) as [H|[H|[H|H]]].
  - vm_compute. reflexivity.
  - exact H.
  - destruct H as (? & ? & [=] & _).
  - destruct H as (? & ? & ? & ? & [=] & _).
  - destruct H as [_ H]. vm_compute in H. discriminate H.
Defined.

Definition demo_later : datetime := utc_of 1767229200000000.

Lemma claim_hands_out_oldest_witness :
  ∃ r, r ∈ runs (store_db demo_store) ∧ eligible 1767229200000000 all_phases (store_db demo_store) r ∧ rr_id r = "run-a".
Proof.
  destruct (claim_next_run demo_clock demo_uuid demo_sqlite "worker-2" None 60 (Some demo_later) demo_store) as [s' x] eqn:E.
  assert (∃ l, x = Ok (Some l) ∧ wrk_run_id l = "run-a") as (l & -> & Hl)
    by (vm_compute in E; injection E as <- <-; eauto).
  destruct (claim_hands_out_oldest demo_clock demo_uuid demo_sqlite demo_clock_ok _ _ _ _ _ _ _ demo_reach E)
    as (r & H1 & H2 & _ & H4 & _).
  exists r. split; [exact H1|]. split; [exact H2|]. rewrite <- H4. exact Hl.
Defined.

Lemma demo_ids : forallb (λ x, existsb (λ m, bool_decide (x = demo_uuid m)) (seq 0 (store_ticks demo_store)))
  (map ev_id (run_events (store_db demo_store))) = true.
Proof. vm_compute. reflexivity. Qed.

Lemma demo_fresh : fresh demo_uuid demo_store.
Proof.
  intros n Hn Hin. pose proof demo_ids as H. rewrite forallb_True in H. apply H in Hin.
  apply existsb_True in Hin as (m & Hm%elem_of_seq & E%bool_decide_eq_true). apply demo_uuid_inj in E. lia.
Qed.

Lemma cleanup_ends_run_witness :
  let s1 := (run_op demo_clock demo_uuid demo_sqlite (OpCleanup "run-a" FAILED "gave up" false) demo_store).1 in
  ∃ r', run_at "run-a" (store_db (run_op demo_clock demo_uuid demo_sqlite (OpFinish "run-a" false None) s1).1) = Some r' ∧
    rr_terminal r' = Some RESET_FAILED.
Proof.
  destruct (cleanup_ends_run demo_clock demo_uuid demo_sqlite demo_clock_ok (λ _, eq_refl) demo_store "run-a" (demo_row "run-a")
    FAILED "gave up" false None demo_reach demo_fresh demo_uuid_inj) as (r' & H1 & H2).
  - vm_compute. reflexivity.
  - exists r'. split; [exact H1|exact H2].
Defined.

Lemma get_reads_back_witness : (get demo_sqlite "run-c" demo_store).2 = raise RunNotFoundError "run not found: run-c".
Proof. rewrite (get_reads_back demo_clock demo_uuid demo_sqlite demo_clock_ok (λ _, eq_refl) demo_store "run-c" demo_reach). reflexivity. Defined.

Lemma creation_idempotent_witness :
  store_db (create_or_get demo_clock demo_uuid demo_sqlite "run-z" (demo_spec "request-b") demo_store).1 = store_db demo_store.
Proof.
  pose proof (creation_idempotent demo_clock demo_uuid demo_sqlite demo_clock_ok (λ _, eq_refl) demo_store "run-z" (demo_spec "request-b")
    (demo_row "run-b") demo_reach) as H.
  destruct (create_or_get _ _ _ _ _ _) as [s' x]. apply H.
  - vm_compute. right. left.
  - reflexivity.
Defined.

(** The phases [claim_next_run] is given are never empty when it looks at them, so its last
    check of its arguments decides nothing: no phases means every phase. *)
Example no_phases_is_every_phase s worker ttl now :
  claim_next_run demo_clock demo_uuid demo_sqlite worker (Some []) ttl now s =
  claim_next_run demo_clock demo_uuid demo_sqlite worker None ttl now s.
Proof. reflexivity. Qed.

(** A lease may be renewed for longer than it may be claimed for. *)
Example renewal_unbounded :
  is_ok (renew_worker_lease demo_clock demo_sqlite "run-a" "worker-1" 86400 None demo_store).2 = true ∧
  is_ok (claim_next_run demo_clock demo_uuid demo_sqlite "worker-1" None 86400 None demo_store).2 = false.
Proof. split; vm_compute; reflexivity. Qed.
