(* ===== verification/RunService.v ===== *)
(** * The control service ([controller/run_service.py])

    The facade over the run store that keeps a journal of every run: its specification, its
    present state, its events and the JSON artifacts recorded for it. A file holds the
    document its text encodes; there are no symbolic links below the journal's root. *)

From S2P Require Import Prelude Hoare PyFloat PyVal PyTime PyIso PyStamp PyJson Sha256 RunStore.

#[local] Open Scope Z_scope.

(** ** Texts *)

(** [^run-\[0-9\]{8}t\[0-9\]{6}z-\[a-f0-9\]{8}$] *)
Definition hex_lower (c : ascii) : bool := is_digit c || Prelude.in_range "a" "f" c.

Definition RUN_ID_RE (s : string) : bool :=
  let l := chars s in
  bool_decide (length l = 29%nat) && bool_decide (take 4 l = chars "run-") &&
  forallb is_digit (take 8 (drop 4 l)) && bool_decide (take 1 (drop 12 l) = chars "t") &&
  forallb is_digit (take 6 (drop 13 l)) && bool_decide (take 2 (drop 19 l) = chars "z-") &&
  forallb hex_lower (drop 21 l).

(** [datetime.now(UTC).strftime("%Y%m%dt%H%M%Sz")] *)
Definition run_timestamp (t : Z) : string :=
  let secs := t / 1000000 in
  let sod := secs mod 86400 in
  let '(y, m, d) := civil_of_days (secs / 86400) in
  pretty y +:+ pad 2 m +:+ pad 2 d +:+ "t" +:+ pad 2 (sod / 3600) +:+ pad 2 (sod / 60 mod 60) +:+ pad 2 (sod mod 60) +:+ "z".

Definition newline (level : nat) : list ascii := ascii_of_N 10 :: replicate (2 * level) " "%char.

Fixpoint commas_with (sep : list ascii) (items : list (list ascii)) : list ascii :=
  match items with
  | [] => []
  | [x] => x
  | x :: rest => x ++ ","%char :: sep ++ commas_with sep rest
  end.

(** [json.dumps(payload, ensure_ascii=False, indent=2, sort_keys=True)] *)
Fixpoint indented (level : nat) (j : Json) : list ascii :=
  match j with
  | JList (_ :: _ as l) =>
      "["%char :: newline (S level) ++
      commas_with (newline (S level)) (map (indented (S level)) l) ++ newline level ++ ["]"%char]
  | JObj (_ :: _ as l) =>
      "{"%char :: newline (S level) ++
      commas_with (newline (S level)) (map (λ kv : string * Json, quoted kv.1 ++ chars ": " ++ indented (S level) kv.2) l) ++
      newline level ++ ["}"%char]
  | _ => text_of j
  end.

Definition dumps_indented (j : Json) : string := unchars (indented 0 (sort_keys j) ++ [ascii_of_N 10]).

(** ** Files *)

Inductive Artifact :=
  | JsonDoc (j : Json)
  | StateDoc (r : RunRecord)
  | EventsDoc (l : list RunEvent).

(** A run's directory: files and directories by the parts of their paths. *)
Record RunDir := { rd_files : gmap (list string) Artifact; rd_dirs : gset (list string) }.
Definition empty_dir : RunDir := {| rd_files := ∅; rd_dirs := ∅ |}.

Definition with_file (path : list string) (a : Artifact) (d : RunDir) : RunDir :=
  {| rd_files := <[path := a]> (rd_files d); rd_dirs := rd_dirs d |}.
Definition with_dirs (l : list (list string)) (d : RunDir) : RunDir :=
  {| rd_files := rd_files d; rd_dirs := rd_dirs d ∪ list_to_set l |}.

(** The text of a file, compared with the text of a document. *)
Definition holds_json (a : Artifact) (j : Json) : bool :=
  match a with JsonDoc k => bool_decide (indented 0 (sort_keys k) = indented 0 (sort_keys j)) | _ => false end.

(** The proper prefixes of a path, but the empty one: the directories it needs. *)
Fixpoint parents (path : list string) : list (list string) :=
  match path with
  | x :: rest => match rest with [] => [] | _ => [x] :: map (cons x) (parents rest) end
  | [] => []
  end.

Record Service := { svc_store : Store; svc_journal : gmap string RunDir; svc_ticks : nat }.

Definition OSError : exn_kind := OtherError "OSError".

(** [str.split("/")] without the empty and the [.] parts. *)
Fixpoint path_parts_from (acc : list ascii) (l : list ascii) : list string :=
  let part := unchars (rev acc) in
  let keep (rest : list string) := if nonempty part && negb (bool_decide (part = ".")) then part :: rest else rest in
  match l with
  | [] => keep []
  | c :: rest => if Ascii.eqb c "/" then keep (path_parts_from [] rest) else path_parts_from (c :: acc) rest
  end.
Definition path_parts (s : string) : list string := path_parts_from [] (chars s).

(** [^\[a-z0-9\]\[a-z0-9._/-\]{0,180}\.json$] *)
Definition artifact_ref_ok (s : string) : bool :=
  match chars s with
  | c :: rest =>
      let middle := take (length rest - 5) rest in
      is_lower_alnum c && (5 <=? length rest)%nat && (length middle <=? 180)%nat &&
      forallb (λ c, is_lower_alnum c || one_of "._/-" c) middle &&
      bool_decide (drop (length rest - 5) rest = chars ".json")
  | [] => false
  end.

Section service.
(** The run store's clock, identifiers and database; the service's clock and the hexadecimal
    digits of its [uuid4]; whether the disk does what it is asked. *)
Context (utc_now : nat → Z) (uuid : nat → string) (sqlite : nat → option exn).
Context (wall_clock : nat → Z) (hex8 : nat → string) (disk : nat → option exn).

#[local] Abbreviation svc := (prog Service).

Definition on_store {A} (m : prog Store A) : svc A := λ s,
  let '(st, r) := m (svc_store s) in
  ({| svc_store := st; svc_journal := svc_journal s; svc_ticks := svc_ticks s |}, r).

Definition svc_ticked (s : Service) : Service :=
  {| svc_store := svc_store s; svc_journal := svc_journal s; svc_ticks := S (svc_ticks s) |}.
Definition now_utc : svc Z := λ s, (svc_ticked s, Ok (wall_clock (svc_ticks s))).
Definition uuid_hex8 : svc string := λ s, (svc_ticked s, Ok (hex8 (svc_ticks s))).
Definition disk_answer : svc unit := λ s,
  (svc_ticked s, match disk (svc_ticks s) with Some e => Err e | None => Ok () end).

Definition dir_of (run_id : string) (s : Service) : RunDir := default empty_dir (svc_journal s !! run_id).
Definition change_dir (run_id : string) (f : RunDir → RunDir) : svc unit := modify (λ s,
  {| svc_store := svc_store s; svc_journal := <[run_id := f (dir_of run_id s)]> (svc_journal s); svc_ticks := svc_ticks s |}).

(** [path.parent.mkdir(parents=True, exist_ok=True)] *)
Definition mkdir_parents (run_id : string) (path : list string) : svc unit :=
  disk_answer ;;
  d ← gets (dir_of run_id);
  lift (require (forallb (λ p, bool_decide (rd_files d !! p = None)) (parents path)) OSError "File exists") ;;
  change_dir run_id (with_dirs (parents path)).

(** [_atomic_write]: a temporary file, then [os.replace]. *)
Definition _atomic_write (run_id : string) (path : list string) (a : Artifact) : svc unit :=
  disk_answer ;;
  d ← gets (dir_of run_id);
  lift (require (negb (bool_decide (path ∈ rd_dirs d))) OSError "Is a directory") ;;
  change_dir run_id (with_file path a).

Definition sync (record : RunRecord) (events : list RunEvent) : svc unit :=
  let run_id := rec_run_id record in
  lift (require (RUN_ID_RE run_id) ValueError "invalid generated run_id") ;;
  mkdir_parents run_id ["run-spec.json"] ;;
  let spec := spec_dump (rec_spec record) in
  d ← gets (dir_of run_id);
  lift (require (negb (bool_decide (["run-spec.json"] ∈ rd_dirs d))) OSError "Is a directory") ;;
  match rd_files d !! ["run-spec.json"] with
  | Some a => lift (require (holds_json a spec) RuntimeError "immutable run-spec artifact differs from stored RunSpec")
  | None => _atomic_write run_id ["run-spec.json"] (JsonDoc spec)
  end ;;
  _atomic_write run_id ["run-state.json"] (StateDoc record) ;;
  _atomic_write run_id ["events.jsonl"] (EventsDoc events).

Definition _resolve_artifact (run_id artifact_ref : string) : result (list string) :=
  require (RUN_ID_RE run_id) ValueError "invalid generated run_id" ;;
  require (artifact_ref_ok artifact_ref) ValueError "artifact_ref must be a safe relative JSON path" ;;
  require (negb (bool_decide (".." ∈ path_parts artifact_ref))) ValueError "artifact_ref cannot traverse directories" ;;
  Ok (path_parts artifact_ref).

Definition write_json_artifact (run_id artifact_ref : string) (payload : Json) : svc string :=
  destination ← lift (_resolve_artifact run_id artifact_ref);
  mkdir_parents run_id destination ;;
  _atomic_write run_id destination (JsonDoc payload) ;;
  mret (hexdigest (dumps_indented payload)).

Definition read_artifact (run_id artifact_ref : string) : svc (option Artifact) :=
  destination ← lift (_resolve_artifact run_id artifact_ref);
  gets (λ s, rd_files (dir_of run_id s) !! destination).

(** ** The facade *)

Definition _sync (record : RunRecord) : svc RunRecord :=
  events ← on_store (list_events sqlite (rec_run_id record) 0);
  sync record events ;;
  mret record.

Definition create_run (spec : RunSpec) : svc RunRecord :=
  now ← now_utc;
  hex ← uuid_hex8;
  let candidate_run_id := "run-" +:+ run_timestamp now +:+ "-" +:+ hex in
  created ← on_store (create_or_get utc_now uuid sqlite candidate_run_id spec);
  _sync created.1.

Definition get_run (run_id : string) : svc RunRecord := on_store (get sqlite run_id).
Definition svc_list_runs (limit : Z) : svc (list RunRecord) := on_store (list_runs sqlite limit).
Definition svc_list_events (run_id : string) (after_sequence : Z) : svc (list RunEvent) :=
  on_store (list_events sqlite run_id after_sequence).

Definition advance (run_id : string) (next_phase : RunPhase) (detail : option mapping) : svc RunRecord :=
  record ← on_store (transition utc_now uuid sqlite run_id next_phase detail);
  _sync record.

Definition svc_request_cleanup (run_id : string) (terminal_status : RunTerminalStatus) (reason : string) : svc RunRecord :=
  record ← on_store (request_cleanup utc_now uuid sqlite run_id terminal_status reason false);
  _sync record.

Definition request_abort (run_id : string) (reason : string) : svc RunRecord :=
  record ← on_store (request_cleanup utc_now uuid sqlite run_id ABORTED reason true);
  _sync record.

Definition approve_run (run_id : string) : svc RunRecord :=
  record ← on_store (get sqlite run_id);
  lift (require (bool_decide (rec_phase record = AWAITING_APPROVAL)) ValueError "run is not awaiting approval") ;;
  advance run_id BASELINING (Some [("approval", VStr "operator-approved")]).

Definition svc_finish_cleanup (run_id : string) (verified : bool) (detail : option mapping) : svc RunRecord :=
  record ← on_store (finish_cleanup utc_now uuid sqlite run_id verified detail);
  _sync record.

Definition svc_acquire_mutation_lease (run_id : string) (ttl_seconds : Z) (now : option datetime) : svc MutationLease :=
  lease ← on_store (acquire_mutation_lease utc_now uuid sqlite run_id ttl_seconds now);
  record ← on_store (get sqlite run_id);
  _sync record ;;
  mret lease.

Definition svc_release_mutation_lease (run_id : string) : svc bool :=
  released ← on_store (release_mutation_lease utc_now uuid sqlite run_id);
  if released : bool then
    record ← on_store (get sqlite run_id);
    _sync record ;;
    mret true
  else mret false.

Definition svc_claim_next_run (worker_id : string) (phases : option (list RunPhase)) (ttl_seconds : Z)
    (now : option datetime) : svc (option WorkerLease) :=
  lease ← on_store (claim_next_run utc_now uuid sqlite worker_id phases ttl_seconds now);
  match lease with
  | Some l =>
      record ← on_store (get sqlite (wrk_run_id l));
      _sync record ;;
      mret (Some l)
  | None => mret None
  end.

Definition svc_renew_worker_lease (run_id worker_id : string) (ttl_seconds : Z) (now : option datetime) : svc WorkerLease :=
  on_store (renew_worker_lease utc_now sqlite run_id worker_id ttl_seconds now).
Definition svc_release_worker_lease (run_id worker_id : string) : svc bool :=
  on_store (release_worker_lease sqlite run_id worker_id).

(** The event that says this document is already recorded. *)
Definition records (event_type artifact_ref digest : string) (e : RunEvent) : bool :=
  bool_decide (re_event_type e = event_type) &&
  match re_detail e with
  | VDict m => is_str (vget m "artifact_ref") artifact_ref && is_str (vget m "sha256") digest
  | _ => false
  end.

Definition record_json_artifact (run_id artifact_ref : string) (payload : Json) (event_type : string) : svc RunRecord :=
  on_store (get sqlite run_id) ;;
  digest ← write_json_artifact run_id artifact_ref payload;
  events ← on_store (list_events sqlite run_id 0);
  if existsb (records event_type artifact_ref digest) events then
    record ← on_store (get sqlite run_id);
    _sync record
  else
    record ← on_store (append_event utc_now uuid sqlite run_id event_type
      [("artifact_ref", VStr artifact_ref); ("sha256", VStr digest)]);
    _sync record.

Definition read_json_artifact (run_id artifact_ref : string) : svc (option Artifact) :=
  on_store (get sqlite run_id) ;;
  read_artifact run_id artifact_ref.
End service.
