(* ===== verification/RunServiceProps.v ===== *)
(** * What the control service promises

    The journal of a run mirrors its rows in the store after every call that returns. *)

From S2P Require Import Prelude Hoare PyFloat PyVal PyTime PyIso PyIsoOrder PyStamp PyJson Sha256 RunStore RunStoreInv RunStoreProps RunService.

#[local] Open Scope Z_scope.

(** ** What the store's calls return *)

(** The record a call returns is the run's row. *)
Definition returns_row {A} (m : prog Store A) (id_of : A → string) (rec_of : A → RunRecord) : Prop :=
  ∀ s s' x, m s = (s', Ok x) → ∃ r, run_at (id_of x) (store_db s') = Some r ∧ _record r = Ok (rec_of x).

Section returns.
Context (utc_now : nat → Z) (uuid : nat → string) (sqlite : nat → option exn).
Context (id : string).

#[local] Abbreviation row_of m := (returns_row m (λ _, id) (λ x, x)).

Lemma row_of_bind {A} (m : prog Store A) (f : A → prog Store RunRecord) : (∀ a, row_of (f a)) → row_of (m ≫= f).
Proof. intros Hf s s' x H. run_inv. by eapply Hf. Qed.

Lemma row_of_record : row_of (row_record id).
Proof. intros s s' x H. apply row_record_Ok in H as (-> & r & H1 & H2). eauto. Qed.

Lemma row_of_write (m : prog Store RunRecord) : row_of m → row_of (_write sqlite m).
Proof. intros Hm s s' x H. apply write_Ok in H as (s0 & s1 & _ & H & ->). by eapply Hm. Qed.

(** A run that has ended is returned as it is. *)
Lemma row_of_ended (f : RunRow → prog Store RunRecord) : (∀ r, row_of (f r)) →
  row_of (row ← _require_row id; if bool_decide (rr_terminal row ≠ None) then lift (_record row) else f row).
Proof.
  intros Hf s s' x H. run_inv. match goal with H : _require_row _ _ = _ |- _ => apply require_row_Ok in H as [Hr ->] end.
  case_bool_decide; [|by eapply Hf]. run_inv. eauto.
Qed.

Lemma row_of_get : row_of (get sqlite id).
Proof.
  intros s s' x H. pose proof (reads_get sqlite id s) as E. rewrite H in E. cbn in E. rewrite E.
  unfold get, reading in H. run_inv.
  match goal with H : read_db _ _ = _ |- _ => apply read_db_Ok in H as [Ea ->] end.
  rewrite <- E, <- Ea. eauto.
Qed.

Lemma row_of_transition next detail : row_of (transition utc_now uuid sqlite id next detail).
Proof. unfold transition. repeat first [apply row_of_record | apply row_of_write | apply row_of_bind; intros ?]. Qed.

Lemma row_of_append type detail : row_of (append_event utc_now uuid sqlite id type detail).
Proof. unfold append_event. repeat first [apply row_of_record | apply row_of_write | apply row_of_bind; intros ?]. Qed.

Lemma row_of_cleanup status reason abort : row_of (request_cleanup utc_now uuid sqlite id status reason abort).
Proof.
  unfold request_cleanup. apply row_of_bind. intros now. apply row_of_write, row_of_ended. intros r. case_bool_decide;
    repeat first [apply row_of_record | apply row_of_bind; intros ?].
Qed.

Lemma row_of_finish verified detail : row_of (finish_cleanup utc_now uuid sqlite id verified detail).
Proof.
  unfold finish_cleanup. apply row_of_bind. intros now. apply row_of_write, row_of_ended. intros r.
  repeat first [apply row_of_record | apply row_of_bind; intros ?].
Qed.

Lemma record_id r x : _record r = Ok x → rec_run_id x = rr_id r.
Proof. unfold _record. intros H. inv_ok. done. Qed.

Lemma row_of_create spec s s' x : run_inv (store_db s) → create_or_get utc_now uuid sqlite id spec s = (s', Ok x) →
  ∃ r, run_at (rec_run_id x.1) (store_db s') = Some r ∧ _record r = Ok x.1.
Proof.
  intros Hd H. unfold create_or_get in H. stmts.
  match type of H with (match ?o with Some _ => _ | None => _ end) _ = _ => destruct o as [row|] eqn:Ef end; stmts.
  - stores. exists row. cbn. match goal with H : _record row = _ |- _ => rewrite (record_id _ _ H) end. split; [|done].
    apply run_at_unique; [apply (ri_ids _ Hd)|].
    apply find_some in Ef as [Ef _]. by apply list_elem_of_In.
  - stores. cbn. match goal with H : run_at id _ = Some ?r, H' : _record ?r = _ |- _ =>
      exists r; rewrite (record_id _ _ H'); pose proof (run_at_elem _ _ _ H) as [_ ->] end. done.
Qed.
End returns.

(** ** The journal *)

Definition files_of (s : Service) (id : string) : gmap (list string) Artifact := rd_files (dir_of id s).

(** The journal of a run is what the store holds of it. *)
Definition mirrors (s : Service) (id : string) : Prop :=
  ∃ r es spec, run_at id (store_db (svc_store s)) = Some r ∧
    mapM _event (events_of id (store_db (svc_store s))) = Ok es ∧
    files_of s id !! ["run-spec.json"] = Some spec ∧ holds_json spec (spec_dump (rr_spec r)) = true ∧
    files_of s id !! ["run-state.json"] = Some (StateDoc (record_of r)) ∧
    files_of s id !! ["events.jsonl"] = Some (EventsDoc es).

Section journal.
Context (utc_now : nat → Z) (uuid : nat → string) (sqlite : nat → option exn).
Context (disk : nat → option exn).

Lemma on_store_Ok {A} (m : prog Store A) s s' a : on_store m s = (s', Ok a) →
  m (svc_store s) = (svc_store s', Ok a) ∧ svc_journal s' = svc_journal s.
Proof. unfold on_store. destruct (m (svc_store s)) as [st r]. by intros [= <- ->]. Qed.

Lemma disk_answer_Ok s s' u : disk_answer disk s = (s', Ok u) → svc_store s' = svc_store s ∧ svc_journal s' = svc_journal s.
Proof. by intros [= <- _]. Qed.

Lemma change_dir_Ok id f s s' u : change_dir id f s = (s', Ok u) →
  svc_store s' = svc_store s ∧ dir_of id s' = f (dir_of id s) ∧ ∀ k, k ≠ id → svc_journal s' !! k = svc_journal s !! k.
Proof.
  intros [= <- _]. split_and!; [done| |].
  - unfold dir_of at 1. cbn. by rewrite lookup_insert_eq.
  - intros k Hk. cbn. by rewrite lookup_insert_ne.
Qed.

(** What a change of one run's directory leaves as it is. *)
Definition elsewhere (id : string) (s s' : Service) : Prop :=
  svc_store s' = svc_store s ∧ ∀ k, k ≠ id → svc_journal s' !! k = svc_journal s !! k.

Lemma elsewhere_trans id s1 s2 s3 : elsewhere id s1 s2 → elsewhere id s2 s3 → elsewhere id s1 s3.
Proof. intros [E1 H1] [E2 H2]. split; [congruence|]. intros k Hk. by rewrite H2, H1. Qed.

Lemma dir_same id s s' : svc_journal s' = svc_journal s → dir_of id s' = dir_of id s.
Proof. unfold dir_of. by intros ->. Qed.


Lemma atomic_write_Ok id path a s s' u : _atomic_write disk id path a s = (s', Ok u) →
  elsewhere id s s' ∧ files_of s' id = <[path := a]> (files_of s id).
Proof.
  unfold _atomic_write. intros H. run_inv.
  match goal with H : disk_answer _ _ = _ |- _ => apply disk_answer_Ok in H as [E1 E2] end.
  match goal with H : gets _ _ = _ |- _ => apply gets_Ok in H as [-> ->] end.
  apply change_dir_Ok in H as (E3 & E4 & E5). split; [split; [congruence|intros k Hk; rewrite E5 by done; by rewrite E2]|].
  unfold files_of. rewrite E4, (dir_same id _ _ E2). done.
Qed.

Lemma mkdir_Ok id path s s' u : mkdir_parents disk id path s = (s', Ok u) → elsewhere id s s' ∧ files_of s' id = files_of s id.
Proof.
  unfold mkdir_parents. intros H. run_inv.
  match goal with H : disk_answer _ _ = _ |- _ => apply disk_answer_Ok in H as [E1 E2] end.
  match goal with H : gets _ _ = _ |- _ => apply gets_Ok in H as [-> ->] end.
  apply change_dir_Ok in H as (E3 & E4 & E5). split; [split; [congruence|intros k Hk; rewrite E5 by done; by rewrite E2]|].
  unfold files_of. rewrite E4, (dir_same id _ _ E2). done.
Qed.

Lemma holds_json_refl j : holds_json (JsonDoc j) j = true.
Proof. by apply bool_decide_eq_true. Qed.

Lemma sync_Ok record events s s' u : sync disk record events s = (s', Ok u) →
  elsewhere (rec_run_id record) s s' ∧
  ∃ spec, files_of s' (rec_run_id record) !! ["run-spec.json"] = Some spec ∧ holds_json spec (spec_dump (rec_spec record)) = true ∧
    files_of s' (rec_run_id record) !! ["run-state.json"] = Some (StateDoc record) ∧
    files_of s' (rec_run_id record) !! ["events.jsonl"] = Some (EventsDoc events).
Proof.
  set (id := rec_run_id record). unfold sync. fold id. intros H. run_inv.
  match goal with H : mkdir_parents _ _ _ _ = _ |- _ => apply mkdir_Ok in H as [L0 F0] end.
  match goal with H : gets _ _ = _ |- _ => apply gets_Ok in H as [-> ->] end.
  match goal with H : match ?o with Some _ => _ | None => _ end _ = (?t, _) |- _ =>
    assert (∃ spec s3, elsewhere id s s3 ∧ t = s3 ∧ files_of s3 id !! ["run-spec.json"] = Some spec ∧
      holds_json spec (spec_dump (rec_spec record)) = true) as (spec & s3 & L1 & -> & Hspec & Hholds);
    [destruct o as [a|] eqn:Ea; run_inv|]
  end.
  - eauto 10.
  - match goal with H : _atomic_write _ _ ["run-spec.json"] _ _ = _ |- _ => apply atomic_write_Ok in H as [L1 F1] end.
    eexists _, _. split; [by eapply elsewhere_trans|]. split; [done|]. rewrite F1, lookup_insert_eq. split; [done|apply holds_json_refl].
  - match goal with H : _atomic_write _ _ ["run-state.json"] _ _ = _ |- _ => apply atomic_write_Ok in H as [L2 F2] end.
    match goal with H : _atomic_write _ _ ["events.jsonl"] _ _ = _ |- _ => apply atomic_write_Ok in H as [L3 F3] end.
    split; [by eapply elsewhere_trans, elsewhere_trans|]. exists spec. rewrite F3, F2.
    by rewrite !lookup_insert_ne, !lookup_insert_eq, ?lookup_insert_ne by done.
Qed.

Lemma sort_by_numbered (l : list EventRow) a : map ev_sequence l = seqZ a (Z.of_nat (length l)) →
  sort_by (λ x y, ev_sequence x <=? ev_sequence y) l = l.
Proof.
  revert a. induction l as [|x l IH]; intros a; [done|]. cbn [map length]. rewrite seqZ_cons by lia. intros [= Hx Hl].
  replace (Z.pred (Z.of_nat (S (length l)))) with (Z.of_nat (length l)) in Hl by lia.
  cbn [sort_by foldr]. fold (sort_by (λ x y, ev_sequence x <=? ev_sequence y) l). rewrite (IH _ Hl).
  destruct l as [|y l]; [done|]. cbn [insert_by]. cbn [map length] in Hl. rewrite seqZ_cons in Hl by lia.
  injection Hl as Hy _. by rewrite (proj2 (Z.leb_le _ _)) by lia.
Qed.

Lemma filter_numbered (l : list EventRow) n : map ev_sequence l = seqZ 1 n → List.filter (λ e, 0 <? ev_sequence e) l = l.
Proof.
  intros H. assert (∀ e, e ∈ l → 0 < ev_sequence e) as Hpos.
  { intros e He. assert (ev_sequence e ∈ map ev_sequence l) as Hin by (apply list_elem_of_fmap; eauto).
    rewrite H in Hin. apply elem_of_seqZ in Hin. lia. }
  clear H. induction l as [|x l IH]; [done|]. cbn. rewrite (proj2 (Z.ltb_lt _ _)) by (apply Hpos; by left).
  rewrite IH; [done|]. intros e He. apply Hpos. by right.
Qed.

Lemma list_events_Ok id st st' es r : run_inv (store_db st) → run_at id (store_db st) = Some r →
  list_events sqlite id 0 st = (st', Ok es) → store_db st' = store_db st ∧ mapM _event (events_of id (store_db st)) = Ok es.
Proof.
  intros Hd Hr H. pose proof (reads_list_events sqlite id 0 st) as E. rewrite H in E. cbn in E. split; [done|].
  unfold list_events, reading in H. run_inv.
  match goal with H : read_db _ _ = _ |- _ => apply read_db_Ok in H as [-> ->] end.
  rewrite <- E. apply run_at_elem in Hr as [Hin <-]. destruct (ri_rows _ Hd r Hin) as [_ Hh].
  rewrite E in H |- *. by rewrite (filter_numbered _ _ (history_length _ _ _ Hh)), (sort_by_numbered _ _ (history_length _ _ _ Hh)) in H.
Qed.

(** What [_sync] leaves: the run's journal mirrors the store, the rest is as it was. *)
Definition synced (id : string) (s s' : Service) : Prop :=
  store_db (svc_store s') = store_db (svc_store s) ∧ mirrors s' id ∧ ∀ k, k ≠ id → svc_journal s' !! k = svc_journal s !! k.

Lemma _sync_Ok s s' record x r : run_inv (store_db (svc_store s)) →
  run_at (rec_run_id record) (store_db (svc_store s)) = Some r → _record r = Ok record →
  _sync sqlite disk record s = (s', Ok x) → synced (rec_run_id record) s s'.
Proof.
  intros Hd Hr Hrec H. unfold _sync in H. run_inv.
  match goal with H : on_store _ _ = _ |- _ => apply on_store_Ok in H as [H Ej] end.
  match goal with H : list_events _ _ _ _ = _ |- _ => apply (list_events_Ok _ _ _ _ r) in H as [E Hes]; [|done..] end.
  match goal with H : sync _ _ _ _ = _ |- _ => apply sync_Ok in H as [[E1 E2] (spec & F1 & F2 & F3 & F4)] end.
  split_and!; [congruence| |intros k Hk; rewrite E2 by done; by rewrite Ej].
  pose proof (run_at_elem _ _ _ Hr) as [Hin _]. destruct (ri_rows _ Hd r Hin) as [Hok _].
  rewrite (record_row r Hok) in Hrec. injection Hrec as <-.
  eexists r, _, spec. rewrite E1, E. split_and!; done.
Qed.
End journal.

(** ** Calls of the service *)

Inductive SvcOp :=
  | SCreate (spec : RunSpec)
  | SAdvance (run_id : string) (next : RunPhase) (detail : option mapping)
  | SCleanup (run_id : string) (status : RunTerminalStatus) (reason : string)
  | SAbort (run_id : string) (reason : string)
  | SApprove (run_id : string)
  | SFinish (run_id : string) (verified : bool) (detail : option mapping)
  | SAcquire (run_id : string) (ttl : Z) (now : option datetime)
  | SRelease (run_id : string)
  | SClaim (worker_id : string) (phases : option (list RunPhase)) (ttl : Z) (now : option datetime)
  | SRenew (run_id worker_id : string) (ttl : Z) (now : option datetime)
  | SReleaseWorker (run_id worker_id : string)
  | SArtifact (run_id artifact_ref : string) (payload : Json) (event_type : string).

Definition done_with {A} (m : prog Service A) : prog Service unit := m ;; mret ().

Section service_ops.
Context (utc_now : nat → Z) (uuid : nat → string) (sqlite : nat → option exn).
Context (wall_clock : nat → Z) (hex8 : nat → string) (disk : nat → option exn).

Definition svc_op (op : SvcOp) : prog Service unit :=
  match op with
  | SCreate spec => done_with (create_run utc_now uuid sqlite wall_clock hex8 disk spec)
  | SAdvance id next detail => done_with (advance utc_now uuid sqlite disk id next detail)
  | SCleanup id status reason => done_with (svc_request_cleanup utc_now uuid sqlite disk id status reason)
  | SAbort id reason => done_with (request_abort utc_now uuid sqlite disk id reason)
  | SApprove id => done_with (approve_run utc_now uuid sqlite disk id)
  | SFinish id verified detail => done_with (svc_finish_cleanup utc_now uuid sqlite disk id verified detail)
  | SAcquire id ttl now => done_with (svc_acquire_mutation_lease utc_now uuid sqlite disk id ttl now)
  | SRelease id => done_with (svc_release_mutation_lease utc_now uuid sqlite disk id)
  | SClaim worker phases ttl now => done_with (svc_claim_next_run utc_now uuid sqlite disk worker phases ttl now)
  | SRenew id worker ttl now => done_with (svc_renew_worker_lease utc_now sqlite id worker ttl now)
  | SReleaseWorker id worker => done_with (svc_release_worker_lease sqlite id worker)
  | SArtifact id ref payload type => done_with (record_json_artifact utc_now uuid sqlite disk id ref payload type)
  end.

(** The service after calls that all returned, from an empty store and an empty journal. *)
Inductive svc_reach : Service → Prop :=
  | svc_reach_empty ticks ticks' : svc_reach {|
      svc_store := {| store_db := {| runs := []; run_events := []; mutation_lease := None; worker_leases := ∅ |};
                      store_ticks := ticks |};
      svc_journal := ∅; svc_ticks := ticks' |}
  | svc_reach_op s op s' : svc_reach s → svc_op op s = (s', Ok ()) → svc_reach s'.

#[local] Abbreviation db s := (store_db (svc_store s)).

(** A run of which neither the store nor the journal changed. *)
Definition same_rows (d d' : RunDB) (k : string) : Prop := run_at k d' = run_at k d ∧ events_of k d' = events_of k d.
Definition kept (s s' : Service) (k : string) : Prop :=
  same_rows (db s) (db s') k ∧ svc_journal s' !! k = svc_journal s !! k.

Lemma kept_mirrors s s' k : kept s s' k → mirrors s k → mirrors s' k.
Proof.
  intros [[E1 E2] E3] (r & es & spec & H). exists r, es, spec. unfold files_of, dir_of in *. by rewrite E1, E2, E3.
Qed.

Lemma commit_same_rows op τ d d' k : commit op τ d d' → (∀ id, op_about op id → id ≠ k) → same_rows d d' k.
Proof.
  intros [|id' spec e -> Hok Hnone Hreq Hτ Hl He|id' r0 Hop Hr0 Ht0 Hτ|id' r0 f e m w Hop Hr0 Hf Hs Hup Hτ Hl Hm Hterm Hold Hw|w Hτ Hw] Hk.
  - done.
  - assert (id' ≠ k) as Hne by by apply Hk. split.
    + by rewrite (run_at_new d _ (new_row id' spec τ) e eq_refl Hnone), bool_decide_false.
    + by rewrite events_of_with_event, (lg_run _ _ _ _ _ Hl), bool_decide_false.
  - assert (id' ≠ k) as Hne by by apply Hk. split; [|done]. rewrite run_at_update by done.
    destruct (run_at k d) as [r|] eqn:E; [|done]. apply run_at_elem in E as [_ <-]. cbn. by rewrite bool_decide_false.
  - assert (id' ≠ k) as Hne by by apply Hk. split.
    + change (run_at k (update_run id' f d) = run_at k d). rewrite run_at_update by apply (same_run_id _ Hf).
      destruct (run_at k d) as [r|] eqn:E; [|done]. apply run_at_elem in E as [_ <-]. cbn. by rewrite bool_decide_false.
    + by rewrite events_of_with_event, (lg_run _ _ _ _ _ Hl), bool_decide_false.
  - done.
Qed.

Context (clock_ok : ∀ n, representable (utc_now n)).

(** A store's call leaves the runs it is not about. *)
Lemma store_call_about {A} OP (m : prog Store A) st st' a : run_inv (store_db st) →
  run_op utc_now uuid sqlite OP = quietly m → m st = (st', Ok a) →
  run_inv (store_db st') ∧ ∀ k, (∀ id, op_about OP id → id ≠ k) → same_rows (store_db st) (store_db st') k.
Proof.
  intros Hd Hop H. assert (run_op utc_now uuid sqlite OP st = (st', Ok ())) as Hrun.
  { rewrite Hop. unfold quietly. by rewrite (run_ok _ _ _ _ _ H). }
  pose proof (run_op_commits _ _ _ clock_ok _ _ _ _ Hd Hrun) as Hc. split; [by eapply commit_inv|].
  intros k Hk. by eapply commit_same_rows.
Qed.

Lemma store_call {A} OP (m : prog Store A) st st' a id : run_inv (store_db st) →
  run_op utc_now uuid sqlite OP = quietly m → (∀ k, op_about OP k → k = id) → m st = (st', Ok a) →
  run_inv (store_db st') ∧ ∀ k, k ≠ id → same_rows (store_db st) (store_db st') k.
Proof.
  intros Hd Hop Habout H. destruct (store_call_about OP m _ _ _ Hd Hop H) as [H1 H2]. split; [done|].
  intros k Hk. apply H2. intros i Hi E. apply Hk. rewrite <- E. by apply Habout.
Qed.

(** The outcome of a call that ends with [_sync] of a run. *)
Definition settled (s s' : Service) (id : string) : Prop :=
  run_inv (db s') ∧ mirrors s' id ∧ ∀ k, k ≠ id → kept s s' k.

Lemma call_then_sync s s1 s' id record x r : run_inv (db s1) → (∀ k, k ≠ id → same_rows (db s) (db s1) k) →
  (∀ k, k ≠ id → svc_journal s1 !! k = svc_journal s !! k) →
  run_at id (db s1) = Some r → _record r = Ok record → _sync sqlite disk record s1 = (s', Ok x) → settled s s' id.
Proof.
  intros Hd Hrows Hj Hr Hrec H. pose proof (run_at_elem _ _ _ Hr) as [_ Hid].
  assert (rec_run_id record = id) as Eid by (by rewrite (record_id _ _ Hrec)).
  apply (_sync_Ok sqlite disk s1 s' record x r) in H as (E1 & E2 & E3); [|done|by rewrite Eid|done].
  rewrite Eid in *. split_and!; [by rewrite E1|done|]. intros k Hk. split; [rewrite E1; by apply Hrows|].
  rewrite E3 by done. by apply Hj.
Qed.

Lemma record_call OP (m : prog Store RunRecord) id s s' x : run_inv (db s) → run_op utc_now uuid sqlite OP = quietly m →
  (∀ k, op_about OP k → k = id) → returns_row m (λ _, id) (λ x, x) →
  (record ← on_store m; _sync sqlite disk record) s = (s', Ok x) → settled s s' id.
Proof.
  intros Hd Hop Habout Hrow H. run_inv. match goal with H : on_store _ _ = _ |- _ => apply on_store_Ok in H as [Hm Hj] end.
  destruct (store_call OP m _ _ _ id Hd Hop Habout Hm) as [Hd1 Hrows]. destruct (Hrow _ _ _ Hm) as (r & Hr & Hrec).
  eapply (call_then_sync s); try done. by rewrite Hj.
Qed.

Lemma get_then_sync s s1 s' id x : run_inv (db s1) → (∀ k, k ≠ id → same_rows (db s) (db s1) k) →
  (∀ k, k ≠ id → svc_journal s1 !! k = svc_journal s !! k) →
  (record ← on_store (get sqlite id); _sync sqlite disk record) s1 = (s', Ok x) → settled s s' id.
Proof.
  intros Hd Hrows Hj H. run_inv. match goal with H : on_store _ _ = _ |- _ => apply on_store_Ok in H as [Hm Hj1] end.
  pose proof (reads_get sqlite id (svc_store s1)) as E. rewrite Hm in E. cbn in E.
  destruct (row_of_get sqlite id _ _ _ Hm) as (r & Hr & Hrec).
  match goal with H : _sync _ _ _ ?s2 = _ |- _ => eapply (call_then_sync s s2) end; try done; [by rewrite E|by rewrite E|by rewrite Hj1].
Qed.

(** The claimed run is the only one that [claim_next_run] touches. *)
Lemma claim_rows worker phases ttl now st st' o : run_inv (store_db st) →
  claim_next_run utc_now uuid sqlite worker phases ttl now st = (st', Ok o) →
  run_inv (store_db st') ∧
  ∀ k, (∀ l, o = Some l → k ≠ wrk_run_id l) → same_rows (store_db st) (store_db st') k.
Proof.
  intros Hd H. destruct (store_call_about (OpClaim worker phases ttl now) _ _ _ _ Hd eq_refl H) as [Hd' _].
  split; [done|]. intros k Hk. unfold claim_next_run in H. stmts.
  match goal with H : current _ _ _ = _ |- _ => apply (current_Ok _ clock_ok) in H as (Hs2 & -> & Hτ) end.
  match goal with H : plus_seconds _ _ = _ |- _ => apply plus_seconds_Ok in H as [-> Hx] end.
  match goal with H : match ?o with Some _ => _ | None => _ end _ = _ |- _ => destruct o as [row|] eqn:Hrow end; stmts.
  - destruct (next_claim_elem _ _ _ Hrow) as [Hin Hc].
    unfold claimable in Hc. rewrite !andb_true_iff, !bool_decide_eq_true in Hc. destruct Hc as [[Hterm Hfree] _].
    logs row e He. split; [done|]. rewrite events_of_with_event, (lg_run _ _ _ _ _ He), bool_decide_false; [done|].
    intros E. by apply (Hk _ eq_refl).
  - by stores.
Qed.

Lemma create_cases id spec st st' x : create_or_get utc_now uuid sqlite id spec st = (st', Ok x) →
  store_db st' = store_db st ∨ rec_run_id x.1 = id.
Proof.
  intros H. unfold create_or_get in H. stmts.
  match type of H with (match ?o with Some _ => _ | None => _ end) _ = _ => destruct o as [row|] eqn:Ef end; stmts.
  - left. by stores.
  - right. match goal with H : run_at id _ = Some ?r, H' : _record ?r = _ |- _ =>
      cbn; rewrite (record_id _ _ H'); by apply run_at_elem in H as [_ H] end.
Qed.

Lemma settle_create spec s s' x : run_inv (db s) →
  create_run utc_now uuid sqlite wall_clock hex8 disk spec s = (s', Ok x) → ∃ id, settled s s' id.
Proof.
  intros Hd H. unfold create_run in H. run_inv.
  match goal with H : now_utc _ _ = _ |- _ => injection H as <- <- end.
  match goal with H : uuid_hex8 _ _ = _ |- _ => injection H as <- <- end.
  match goal with H : on_store _ _ = _ |- _ => apply on_store_Ok in H as [Hm Hj] end. cbn in Hm.
  set (id := "run-" +:+ _) in Hm. destruct (row_of_create _ _ _ _ _ _ _ _ Hd Hm) as (r & Hr & Hrec).
  destruct (store_call (OpCreate id spec) _ _ _ _ id Hd eq_refl ltac:(done) Hm) as [Hd1 Hrows].
  match goal with H : _sync _ _ (fst ?x) _ = _ |- _ => exists (rec_run_id x.1) end.
  eapply (call_then_sync s); try done; [|by rewrite Hj].
  intros k Hk. destruct (create_cases _ _ _ _ _ Hm) as [E|E]; [by rewrite E|apply Hrows; congruence].
Qed.

Lemma settle_approve id s s' x : run_inv (db s) → approve_run utc_now uuid sqlite disk id s = (s', Ok x) → settled s s' id.
Proof.
  intros Hd H. unfold approve_run in H. run_inv. match goal with H : on_store _ _ = _ |- _ => apply on_store_Ok in H as [Hm Hj] end.
  pose proof (reads_get sqlite id (svc_store s)) as E. rewrite Hm in E. cbn in E.
  match goal with H : advance _ _ _ _ _ _ _ ?s1 = _ |- _ =>
    destruct (record_call (OpTransition id BASELINING (Some [("approval", VStr "operator-approved")])) _ id s1 s' x
      ltac:(by rewrite E) eq_refl ltac:(done) (row_of_transition _ _ _ _ _ _) H) as (H1 & H2 & H3) end.
  split_and!; [done|done|]. intros k Hk. destruct (H3 k Hk) as [Hrow Hjk]. split; [by rewrite <- E|by rewrite Hjk, Hj].
Qed.

Lemma settle_acquire id ttl now s s' x : run_inv (db s) →
  svc_acquire_mutation_lease utc_now uuid sqlite disk id ttl now s = (s', Ok x) → settled s s' id.
Proof.
  intros Hd H. unfold svc_acquire_mutation_lease in H. run_inv.
  match goal with H : on_store (acquire_mutation_lease _ _ _ _ _ _) _ = _ |- _ => apply on_store_Ok in H as [Hm Hj] end.
  destruct (store_call (OpAcquire id ttl now) _ _ _ _ id Hd eq_refl ltac:(done) Hm) as [Hd1 Hrows].
  match goal with H1 : on_store (get _ _) ?s1 = (?s2, Ok ?a), H2 : _sync _ _ ?a ?s2 = (_, Ok ?y) |- _ =>
    eapply (get_then_sync s s1 _ id y); [done|done|by rewrite Hj|rewrite (run_ok _ _ _ _ _ H1); exact H2] end.
Qed.

Lemma release_false id st st' : release_mutation_lease utc_now uuid sqlite id st = (st', Ok false) → store_db st' = store_db st.
Proof.
  intros H. unfold release_mutation_lease in H. stmts. case_bool_decide; stmts; [done|]. by stores.
Qed.

Lemma settle_release id s s' x : run_inv (db s) → svc_release_mutation_lease utc_now uuid sqlite disk id s = (s', Ok x) →
  (∃ k, settled s s' k) ∨ run_inv (db s') ∧ ∀ k, kept s s' k.
Proof.
  intros Hd H. unfold svc_release_mutation_lease in H. run_inv.
  match goal with H : on_store _ _ = _ |- _ => apply on_store_Ok in H as [Hm Hj] end.
  destruct (store_call (OpRelease id) _ _ _ _ id Hd eq_refl ltac:(done) Hm) as [Hd1 Hrows].
  match goal with H : (if ?b then _ else _) _ = _ |- _ => destruct b eqn:Eb; run_inv end.
  - left. exists id. match goal with H1 : on_store (get _ _) ?s1 = (?s2, Ok ?a), H2 : _sync _ _ ?a ?s2 = (_, Ok ?y) |- _ =>
      eapply (get_then_sync s s1 _ id y); [done|done|by rewrite Hj|rewrite (run_ok _ _ _ _ _ H1); exact H2] end.
  - right. split; [done|]. intros k. unfold kept, same_rows. rewrite Hj, (release_false _ _ _ Hm). done.
Qed.

Lemma settle_claim worker phases ttl now s s' x : run_inv (db s) →
  svc_claim_next_run utc_now uuid sqlite disk worker phases ttl now s = (s', Ok x) →
  (∃ k, settled s s' k) ∨ run_inv (db s') ∧ ∀ k, kept s s' k.
Proof.
  intros Hd H. unfold svc_claim_next_run in H. run_inv.
  match goal with H : on_store _ _ = _ |- _ => apply on_store_Ok in H as [Hm Hj] end.
  destruct (claim_rows _ _ _ _ _ _ _ Hd Hm) as [Hd1 Hrows].
  match goal with H : match ?o with Some _ => _ | None => _ end _ = _ |- _ => destruct o as [l|] eqn:Eo; run_inv end.
  - left. exists (wrk_run_id l). match goal with H1 : on_store (get _ _) ?s1 = (?s2, Ok ?a), H2 : _sync _ _ ?a ?s2 = (_, Ok ?y) |- _ =>
      eapply (get_then_sync s s1 _ _ y); [done| |by rewrite Hj|rewrite (run_ok _ _ _ _ _ H1); exact H2] end.
    intros k Hk. apply Hrows. by intros ? [= <-].
  - right. split; [done|]. intros k. split; [by apply Hrows|by rewrite Hj].
Qed.

(** A call about the workers' leases touches no run. *)
Lemma settle_quiet {A} OP (m : prog Store A) s s' x : run_inv (db s) → run_op utc_now uuid sqlite OP = quietly m →
  (∀ k, ¬ op_about OP k) → on_store m s = (s', Ok x) → run_inv (db s') ∧ ∀ k, kept s s' k.
Proof.
  intros Hd Hop Hno H. apply on_store_Ok in H as [Hm Hj].
  destruct (store_call_about OP m _ _ _ Hd Hop Hm) as [Hd1 Hrows]. split; [done|].
  intros k. split; [|by rewrite Hj]. apply Hrows. intros id Hid. by destruct (Hno id).
Qed.

Lemma write_json_Ok id ref payload s s' x : write_json_artifact disk id ref payload s = (s', Ok x) → elsewhere id s s'.
Proof.
  unfold write_json_artifact. intros H. run_inv.
  match goal with H : mkdir_parents _ _ _ _ = _ |- _ => apply mkdir_Ok in H as [L1 _] end.
  match goal with H : _atomic_write _ _ _ _ _ = _ |- _ => apply atomic_write_Ok in H as [L2 _] end.
  by eapply elsewhere_trans.
Qed.

Lemma settle_artifact id ref payload type s s' x : run_inv (db s) →
  record_json_artifact utc_now uuid sqlite disk id ref payload type s = (s', Ok x) → settled s s' id.
Proof.
  intros Hd H. unfold record_json_artifact in H. run_inv.
  match goal with H : on_store (get _ _) s = _ |- _ => apply on_store_Ok in H as [Hm1 Hj1] end.
  match goal with H : write_json_artifact _ _ _ _ _ = _ |- _ => apply write_json_Ok in H as [E2 Hj2] end.
  match goal with H : on_store (list_events _ _ _) _ = _ |- _ => apply on_store_Ok in H as [Hm3 Hj3] end.
  pose proof (reads_get sqlite id (svc_store s)) as E1. rewrite Hm1 in E1. cbn in E1.
  match type of Hm3 with _ = (svc_store ?s3, _) =>
    assert (db s3 = db s) as E3; [|assert (∀ k, k ≠ id → svc_journal s3 !! k = svc_journal s !! k) as J3] end.
  { match type of Hm3 with list_events _ _ _ ?st = _ => pose proof (reads_list_events sqlite id 0 st) as E3 end.
    rewrite Hm3 in E3. cbn in E3. rewrite E3, E2. exact E1. }
  { intros k Hk. rewrite Hj3, Hj2 by done. by rewrite Hj1. }
  case_match; run_inv.
  - eapply (get_then_sync s s2 s' id x); [by rewrite E3|by rewrite E3|done|].
    match goal with H : on_store (get _ _) s2 = _ |- _ => rewrite (run_ok _ _ _ _ _ H) end. done.
  - destruct (record_call (OpAppend id type [("artifact_ref", VStr ref); ("sha256", VStr a0)])
      (append_event utc_now uuid sqlite id type [("artifact_ref", VStr ref); ("sha256", VStr a0)]) id s2 s' x) as (H1 & H2 & H3);
      [by rewrite E3|reflexivity|done|apply row_of_append| |].
    { match goal with H : on_store (append_event _ _ _ _ _ _) s2 = _ |- _ => rewrite (run_ok _ _ _ _ _ H) end. done. }
    split_and!; [done|done|]. intros k Hk. destruct (H3 k Hk) as [Hrow Hjk]. split; [by rewrite <- E3|by rewrite Hjk, J3].
Qed.

(** ** Every call that returns *)

Lemma svc_step op s s' : run_inv (db s) → svc_op op s = (s', Ok ()) →
  run_inv (db s') ∧ ∃ o, (∀ id, o = Some id → mirrors s' id) ∧ ∀ k, o ≠ Some k → kept s s' k.
Proof.
  intros Hd H.
  assert ((∃ id, settled s s' id) ∨ run_inv (db s') ∧ ∀ k, kept s s' k) as [(id & H1 & H2 & H3)|[H1 H2]].
  2:{ split; [done|]. exists (Some id). split; [by intros ? [= <-]|]. intros k Hk. apply H3. congruence. }
  2:{ split; [done|]. by exists None. }
  destruct op; cbn [svc_op] in H; unfold done_with in H; run_inv.
  - left. by eapply settle_create.
  - left. exists run_id. eapply (record_call (OpTransition _ _ _)); try done. apply row_of_transition.
  - left. exists run_id. eapply (record_call (OpCleanup _ _ _ _)); try done. apply row_of_cleanup.
  - left. exists run_id. eapply (record_call (OpCleanup _ _ _ _)); try done. apply row_of_cleanup.
  - left. exists run_id. by eapply settle_approve.
  - left. exists run_id. eapply (record_call (OpFinish _ _ _)); try done. apply row_of_finish.
  - left. exists run_id. by eapply settle_acquire.
  - by eapply settle_release.
  - by eapply settle_claim.
  - right. eapply (settle_quiet (OpRenew run_id worker_id ttl now)); [done|reflexivity|intros k []|eassumption].
  - right. eapply (settle_quiet (OpReleaseWorker run_id worker_id)); [done|reflexivity|intros k []|eassumption].
  - left. exists run_id. by eapply settle_artifact.
Qed.

Lemma journal_invariant s : svc_reach s → run_inv (db s) ∧ ∀ k, is_Some (run_at k (db s)) → mirrors s k.
Proof.
  intros H. induction H as [ticks ticks'|s op s' _ [Hd IH] Hop].
  - split; [by apply empty_run_inv|]. intros k [r Hr]. done.
  - destruct (svc_step _ _ _ Hd Hop) as (Hd' & o & Ho & Hkept). split; [done|]. intros k Hk.
    destruct (decide (o = Some k)) as [->|Hne]; [by apply Ho|]. specialize (Hkept k Hne).
    eapply kept_mirrors; [done|]. apply IH. destruct Hkept as [[<- _] _]. done.
Qed.

End service_ops.

(** ** Identifiers and paths *)

Lemma run_id_shape a b h : length a = 8%nat → length b = 6%nat → length h = 8%nat →
  forallb is_digit a = true → forallb is_digit b = true → forallb hex_lower h = true →
  RUN_ID_RE (unchars (chars "run-" ++ a ++ chars "t" ++ b ++ chars "z-" ++ h)) = true.
Proof.
  intros Ha Hb Hh. unfold RUN_ID_RE. rewrite chars_unchars.
  do 8 (destruct a as [|? a]; [done|]; cbn in Ha). destruct a; [|done].
  do 6 (destruct b as [|? b]; [done|]; cbn in Hb). destruct b; [|done].
  do 8 (destruct h as [|? h]; [done|]; cbn in Hh). destruct h; [|done].
  intros Hda Hdb Hdh. cbn [app chars list_ascii_of_string take drop length]. rewrite Hda, Hdb, Hdh. reflexivity.
Qed.

Lemma years_four_digits : forallb (λ y, bool_decide (pretty y = pad 4 y)) (seqZ 1000 9000) = true.
Proof. vm_compute. reflexivity. Qed.

Lemma year_four_digits y : 1000 <= y <= 9999 → pretty y = pad 4 y.
Proof.
  intros Hy. pose proof years_four_digits as H. rewrite forallb_True in H.
  assert (y ∈ seqZ 1000 9000) as Hin by (apply elem_of_seqZ; lia). by apply H, bool_decide_eq_true in Hin.
Qed.

Lemma pad_forallb (w : nat) n : 0 <= n < 10 ^ Z.of_nat w → (1 <= w)%nat →
  length (chars (pad w n)) = w ∧ forallb is_digit (chars (pad w n)) = true.
Proof. intros Hn Hw. destruct (pad_chars w n Hn Hw) as [H1 H2]. split; [done|]. apply forallb_True. by apply Forall_forall. Qed.

(** The ids the service generates are those its journal accepts. *)
Theorem generated_run_ids_valid t hex : representable t → 1000 <= f_year (fields t) →
  length (chars hex) = 8%nat → forallb hex_lower (chars hex) = true →
  RUN_ID_RE ("run-" +:+ run_timestamp t +:+ "-" +:+ hex) = true.
Proof.
  intros Ht Hy Hl Hh. pose proof (fields_valid t Ht) as []. revert Hy fo_year fo_month fo_day fo_hour fo_minute fo_second.
  unfold run_timestamp, fields, day_of. destruct (civil_of_days _) as [[y m] d].
  cbn [f_year f_month f_day f_hour f_minute f_second]. intros Hy H1 H2 H3 H4 H5 H6.
  pose proof (days_small _ _ _ (proj2 H3)). rewrite year_four_digits by lia.
  destruct (pad_forallb 4 y), (pad_forallb 2 m), (pad_forallb 2 d), (pad_forallb 2 (t / 1000000 mod 86400 / 3600)),
    (pad_forallb 2 (t / 1000000 mod 86400 / 60 mod 60)), (pad_forallb 2 (t / 1000000 mod 86400 mod 60)); try lia.
  match goal with |- RUN_ID_RE ?s = true => rewrite <- (unchars_chars s) end.
  rewrite !chars_app.
  pose proof (run_id_shape (chars (pad 4 y) ++ chars (pad 2 m) ++ chars (pad 2 d))
    (chars (pad 2 (t / 1000000 mod 86400 / 3600)) ++ chars (pad 2 (t / 1000000 mod 86400 / 60 mod 60)) ++
     chars (pad 2 (t / 1000000 mod 86400 mod 60))) (chars hex)) as Hshape.
  rewrite !length_app, !forallb_app in Hshape. repeat rewrite <- app_assoc in Hshape. repeat rewrite <- app_assoc.
  apply Hshape; repeat match goal with H : _ = true |- _ => rewrite H end; done || lia.
Qed.

Lemma generated_run_ids_valid_witness : RUN_ID_RE "run-20260101t000000z-0123abcd" = true.
Proof.
  apply (generated_run_ids_valid 1767225600000000 "0123abcd"); [unfold representable; lia|vm_compute; discriminate|done|done].
Defined.

(** The parts of a path are names: no separator, not empty, not the directory itself. *)
Definition name_part (s : string) : Prop := s ≠ "" ∧ s ≠ "." ∧ "/"%char ∉ chars s.

Lemma path_parts_names acc l : "/"%char ∉ acc → Forall name_part (path_parts_from acc l).
Proof.
  assert (∀ acc rest, "/"%char ∉ acc → Forall name_part rest →
    Forall name_part (if nonempty (unchars (rev acc)) && negb (bool_decide (unchars (rev acc) = ".")) then unchars (rev acc) :: rest else rest))
    as Hkeep.
  { intros a rest Ha Hr. destruct (_ && _) eqn:E; [|done]. apply andb_true_iff in E as [E1%nonempty_true E2%negb_true_iff].
    apply bool_decide_eq_false in E2. constructor; [|done]. split_and!; [done|done|]. rewrite chars_unchars.
    rewrite list_elem_of_In, <- in_rev, <- list_elem_of_In. done. }
  revert acc. induction l as [|c l IH]; intros acc Hacc; cbn [path_parts_from].
  - apply Hkeep; [done|constructor].
  - destruct (Ascii.eqb c "/") eqn:E.
    + apply Hkeep; [done|]. apply IH. by apply not_elem_of_nil.
    + apply IH. apply Ascii.eqb_neq in E. rewrite elem_of_cons. intros [?|?]; [congruence|done].
Qed.

Lemma path_parts_json acc l : path_parts_from acc (l ++ chars ".json") ≠ [].
Proof.
  revert acc. induction l as [|c l IH]; intros acc.
  - cbn. assert (chars (unchars (rev acc ++ chars ".json")) = rev acc ++ chars ".json") as E by apply chars_unchars.
    assert (∀ t, length (chars t) = 0%nat ∨ length (chars t) = 1%nat → t ≠ unchars (rev acc ++ chars ".json")) as Hne.
    { intros t Ht ->. rewrite E, length_app in Ht. cbn in Ht. lia. }
    repeat rewrite <- app_assoc. change (rev acc ++ _) with (rev acc ++ chars ".json").
    rewrite (proj2 (nonempty_true _)), bool_decide_false; [done| |].
    + intros Hx. symmetry in Hx. revert Hx. apply Hne. by right.
    + intros Hx. symmetry in Hx. revert Hx. apply Hne. by left.
  - cbn [app path_parts_from]. destruct (Ascii.eqb c "/"); [|apply IH]. case_match; [done|apply IH].
Qed.

(** An accepted artifact reference names a path below the run's directory, through names only. *)
Theorem artifacts_confined run_id ref path : _resolve_artifact run_id ref = Ok path →
  RUN_ID_RE run_id = true ∧ path ≠ [] ∧ Forall (λ part, name_part part ∧ part ≠ "..") path.
Proof.
  unfold _resolve_artifact. intros H. inv_ok.
  match goal with H : negb _ = true |- _ => apply negb_true_iff, bool_decide_eq_false in H; rename H into Hdots end.
  match goal with H : artifact_ref_ok _ = true |- _ => rename H into Href end.
  split_and!; [done| |].
  - unfold path_parts. unfold artifact_ref_ok in Href. destruct (chars ref) as [|c rest]; [done|].
    rewrite !andb_true_iff in Href. destruct Href as [_ Hj%bool_decide_eq_true].
    rewrite <- (take_drop (length rest - 5) rest), Hj. apply (path_parts_json [] (c :: take (length rest - 5) rest)).
  - assert (Forall name_part (path_parts ref)) as Hn by (apply path_parts_names, not_elem_of_nil).
    apply Forall_forall. intros part Hp. split; [by eapply Forall_forall in Hn|]. intros ->. done.
Qed.

Lemma artifacts_confined_witness : Forall (λ part, name_part part ∧ part ≠ "..") ["stage"; "report.json"].
Proof.
  apply (artifacts_confined "run-20260101t000000z-0123abcd" "stage/./report.json"). vm_compute. reflexivity.
Defined.

(** ** Approval *)

Section approval.
Context (utc_now : nat → Z) (uuid : nat → string) (sqlite : nat → option exn) (disk : nat → option exn).
Context (clock_ok : ∀ n, representable (utc_now n)).

Lemma transition_Ok id next detail st st' x : transition utc_now uuid sqlite id next detail st = (st', Ok x) →
  ∃ r r', run_at id (store_db st) = Some r ∧ rr_terminal r = None ∧ next ∈ ALLOWED_PHASE_TRANSITIONS (rr_phase r) ∧
    run_at id (store_db st') = Some r' ∧ rr_phase r' = next ∧ _record r' = Ok x.
Proof.
  intros H. unfold transition in H. stmts. set (now := isoformat _) in *.
  logs (set_phase next (rr_desired a) (rr_abort a) now a) e He.
  match goal with H : run_at id (with_event _ (update_run _ ?f _)) = Some ?r |- _ =>
    change (run_at id (update_run id f (store_db st)) = Some r) in H; rewrite run_at_update in H by done;
    match goal with H0 : run_at id (store_db st) = Some _ |- _ =>
      pose proof (run_at_elem _ _ _ H0) as [_ Hid]; pose proof H as Hr'; rewrite H0 in H end;
    cbn in H; rewrite bool_decide_true in H by done; injection H as <- end.
  exists a, (set_phase next (rr_desired a) (rr_abort a) now a). split_and!; try done.
  change (run_at id (update_run id (λ r, set_phase next (rr_desired r) (rr_abort r) now r) (store_db st)) = Some (set_phase next (rr_desired a) (rr_abort a) now a)).
  rewrite run_at_update by done. exact Hr'.
Qed.

Lemma _sync_returns s s' record x : _sync sqlite disk record s = (s', Ok x) → x = record ∧ store_db (svc_store s') = store_db (svc_store s).
Proof.
  unfold _sync. intros H. run_inv.
  match goal with H : on_store (list_events _ _ _) _ = _ |- _ => apply on_store_Ok in H as [Hm Hj] end.
  match goal with H : sync _ _ _ _ = _ |- _ => apply sync_Ok in H as [[E _] _] end. split; [done|]. rewrite E.
  match type of Hm with list_events _ ?id _ ?st = _ => pose proof (reads_list_events sqlite id 0 st) as E' end.
  by rewrite Hm in E'.
Qed.

(** An approval that returns found the run waiting for it and moved it to BASELINING; for any
    other run it changes nothing. *)
Theorem approval_gated s s' id x : run_inv (store_db (svc_store s)) →
  approve_run utc_now uuid sqlite disk id s = (s', x) →
  match x with
  | Ok record => (∃ r, run_at id (store_db (svc_store s)) = Some r ∧ rr_phase r = AWAITING_APPROVAL ∧ rr_terminal r = None) ∧
      rec_run_id record = id ∧ rec_phase record = BASELINING ∧
      ∃ r', run_at id (store_db (svc_store s')) = Some r' ∧ rr_phase r' = BASELINING
  | Err _ => (∀ r, run_at id (store_db (svc_store s)) = Some r → rr_phase r ≠ AWAITING_APPROVAL) →
      store_db (svc_store s') = store_db (svc_store s)
  end.
Proof.
  intros Hd H. destruct x as [record|e].
  - unfold approve_run, advance in H. run_inv.
    match goal with H : on_store (get _ _) _ = _ |- _ => apply on_store_Ok in H as [Hg _] end.
    match goal with H : on_store (transition _ _ _ _ _ _) _ = _ |- _ => apply on_store_Ok in H as [Ht _] end.
    match goal with H : _sync _ _ _ _ = _ |- _ => apply _sync_returns in H as [-> E] end.
    apply transition_Ok in Ht as (r & r' & H1 & H2 & H3 & H4 & H5 & H6).
    pose proof (reads_get sqlite id (svc_store s)) as Eg. rewrite Hg in Eg. cbn in Eg. rewrite Eg in H1.
    destruct (row_of_get sqlite id _ _ _ Hg) as (r0 & H0 & Hrec). rewrite Eg in H0. assert (r0 = r) as -> by congruence.
    pose proof (run_at_elem _ _ _ H1) as [Hin _]. destruct (ri_rows _ Hd r Hin) as [Hok _].
    rewrite (record_row r Hok) in Hrec. injection Hrec as <-.
    match goal with H : bool_decide (rec_phase _ = _) = true |- _ => apply bool_decide_eq_true in H; cbn in H end.
    split; [eauto|]. pose proof (run_at_elem _ _ _ H4) as [_ Hid'].
    split; [by rewrite (record_id _ _ H6)|]. split; [|rewrite E; eauto].
    revert H6. unfold _record. intros H6. inv_ok. done.
  - intros Hno. unfold approve_run in H. rewrite prog_bind_eq in H.
    pose proof (reads_get sqlite id (svc_store s)) as Eg. unfold on_store at 1 in H.
    destruct (get sqlite id (svc_store s)) as [st [record|e']] eqn:Hg; cbn in Eg; [|by injection H as <-].
    destruct (row_of_get sqlite id _ _ _ Hg) as (r & H0 & Hrec). rewrite Eg in H0.
    pose proof (run_at_elem _ _ _ H0) as [Hin _]. destruct (ri_rows _ Hd r Hin) as [Hok _].
    rewrite (record_row r Hok) in Hrec. injection Hrec as <-. rewrite prog_bind_eq in H. cbn [rec_phase record_of] in H.
    rewrite bool_decide_false in H by auto. by injection H as <-.
Qed.
End approval.

(** ** A run through the service *)

Definition demo_hex (n : nat) : string := "0123abcd".

Definition demo_service (ops : list SvcOp) : Service :=
  foldl (λ s op, (svc_op demo_clock demo_uuid demo_sqlite demo_clock demo_hex demo_sqlite op s).1)
    {| svc_store := {| store_db := {| runs := []; run_events := []; mutation_lease := None; worker_leases := ∅ |};
                       store_ticks := 0 |}; svc_journal := ∅; svc_ticks := 0 |} ops.

Definition demo_run_id : string := "run-20260101t000000z-0123abcd".

Definition demo_created : Service := Eval vm_compute in demo_service [SCreate (demo_spec "request-a")].

Lemma demo_created_reach : svc_reach demo_clock demo_uuid demo_sqlite demo_clock demo_hex demo_sqlite demo_created.
Proof.
  apply (svc_reach_op _ _ _ _ _ _ (demo_service []) (SCreate (demo_spec "request-a"))); [apply svc_reach_empty|].
  vm_compute. reflexivity.
Qed.

Lemma approval_gated_witness :
  store_db (svc_store (approve_run demo_clock demo_uuid demo_sqlite demo_sqlite demo_run_id demo_created).1) =
  store_db (svc_store demo_created).
Proof.
  destruct (approve_run demo_clock demo_uuid demo_sqlite demo_sqlite demo_run_id demo_created) as [s' x] eqn:E.
  pose proof (approval_gated demo_clock demo_uuid demo_sqlite demo_sqlite demo_created s' demo_run_id x
    (proj1 (journal_invariant _ _ _ _ _ _ demo_clock_ok _ demo_created_reach)) E) as H.
  assert (∃ e, x = Err e) as [e ->] by (vm_compute in E; injection E as _ <-; eauto).
  apply H. intros r Hr. vm_compute in Hr. injection Hr as <-. discriminate.
Defined.

(** An artifact may be named like the specification the journal guards: recorded once, it
    stops every later call on the run, though the store has already moved on. *)
Definition demo_blocked : Service := Eval vm_compute in
  demo_service [SCreate (demo_spec "request-a"); SArtifact demo_run_id "run-spec.json" (JObj []) "SPEC_REPORT"].

Example spec_artifact_blocks_run :
  let '(s', x) := svc_op demo_clock demo_uuid demo_sqlite demo_clock demo_hex demo_sqlite
    (SAdvance demo_run_id SCANNING None) demo_blocked in
  x = raise RuntimeError "immutable run-spec artifact differs from stored RunSpec" ∧
  (rr_phase <$> run_at demo_run_id (store_db (svc_store s'))) = Some SCANNING.
Proof. vm_compute. done. Qed.
