(* ===== verification/RunServiceOverlap.v ===== *)
(** * The control service on several threads

    The service holds no lock between its calls of the store and its writes of the journal: the
    heartbeat of a run's lease, its workflow and the handlers of the API overlap. Whatever the
    order of their steps, and whatever fails, the journal holds nothing the store did not commit;
    it may be behind ([stale_journal]), until a call that nothing overlaps. *)

From S2P Require Import Prelude Hoare PyFloat PyVal PyTime PyIso PyStamp PyJson Sha256 RunStore RunStoreInv RunStoreProps RunService RunServiceProps.

#[local] Open Scope Z_scope.

#[local] Abbreviation db s := (store_db (svc_store s)).

Definition SPEC : list string := ["run-spec.json"].
Definition STATE : list string := ["run-state.json"].
Definition EVENTS : list string := ["events.jsonl"].

Section overlap.
Context (utc_now : nat → Z) (uuid : nat → string) (sqlite : nat → option exn).
Context (wall_clock : nat → Z) (hex8 : nat → string) (disk : nat → option exn).

(** The record was, or is, the row of its run in one of the databases. *)
Definition was (past : list RunDB) (record : RunRecord) : Prop :=
  ∃ d r, d ∈ past ∧ run_at (rec_run_id record) d = Some r ∧ _record r = Ok record.
(** The events were, or are, those of the run. *)
Definition were (past : list RunDB) (id : string) (es : list RunEvent) : Prop :=
  ∃ d, d ∈ past ∧ is_Some (run_at id d) ∧ mapM _event (events_of id d) = Ok es.

(** The databases there have been, the last first, and the present. Every call of the store is
    one transaction; a thread writes to the journal what it read before, at any time, and each
    of the three files is replaced at once. *)
Inductive overlapped : list RunDB → Service → Prop :=
  | ol_empty ticks ticks' d : d = {| runs := []; run_events := []; mutation_lease := None; worker_leases := ∅ |} →
      overlapped [d] {| svc_store := {| store_db := d; store_ticks := ticks |}; svc_journal := ∅; svc_ticks := ticks' |}
  | ol_store op past s : overlapped past s →
      overlapped (db (on_store (run_op utc_now uuid sqlite op) s).1 :: past) (on_store (run_op utc_now uuid sqlite op) s).1
  (** reads, clocks, directories *)
  | ol_beside past s s' : overlapped past s → db s' = db s → (∀ id, files_of s' id = files_of s id) → overlapped past s'
  | ol_spec record past s : overlapped past s → was past record →
      overlapped past (_atomic_write disk (rec_run_id record) SPEC (JsonDoc (spec_dump (rec_spec record))) s).1
  | ol_state record past s : overlapped past s → was past record →
      overlapped past (_atomic_write disk (rec_run_id record) STATE (StateDoc record) s).1
  | ol_events id es past s : overlapped past s → were past id es →
      overlapped past (_atomic_write disk id EVENTS (EventsDoc es) s).1
  | ol_artifact id path payload past s : overlapped past s → path ≠ SPEC → path ≠ STATE → path ≠ EVENTS →
      overlapped past (_atomic_write disk id path (JsonDoc payload) s).1.

(** ** The journal is never ahead *)

(** A run keeps its specification and its events. *)
Definition later (d d' : RunDB) : Prop := ∀ id r, run_at id d = Some r →
  ∃ r' new, run_at id d' = Some r' ∧ rr_spec r' = rr_spec r ∧ events_of id d' = events_of id d ++ new.
#[export] Instance later_preorder : PreOrder later.
Proof.
  split; [intros d id r Hr; exists r, []; by rewrite app_nil_r|]. intros d1 d2 d3 H1 H2 id r Hr.
  destruct (H1 _ _ Hr) as (r2 & n2 & Hr2 & E2 & F2). destruct (H2 _ _ Hr2) as (r3 & n3 & Hr3 & E3 & F3).
  exists r3, (n2 ++ n3). rewrite F3, F2, app_assoc. split_and!; [done|congruence|done].
Qed.

Lemma commit_later op τ d d' : commit op τ d d' → later d d'.
Proof.
  intros [|id' spec e -> Hok Hnone Hreq Hτ Hl He|id' r0 Hop Hr0 Ht0 Hτ|id' r0 f e m w Hop Hr0 Hf Hs Hup Hτ Hl Hm Hterm Hold Hw|w Hτ Hw] id r Hr.
  - exists r, []. by rewrite app_nil_r.
  - assert (id ≠ id') as Hne by congruence. exists r, [].
    rewrite (run_at_new d _ (new_row id' spec τ) e eq_refl Hnone), bool_decide_false by done.
    rewrite events_of_with_event, (lg_run _ _ _ _ _ Hl), bool_decide_false by done. by rewrite app_nil_r.
  - exists (if bool_decide (rr_id r = id') then set_updated true (isoformat (utc_of τ)) r else r), [].
    rewrite run_at_update, Hr by done. rewrite app_nil_r. split_and!; [done|by case_bool_decide|done].
  - exists (if bool_decide (rr_id r = id') then f r else r), (if bool_decide (ev_run e = id) then [e] else []).
    change (run_at id (with_event e (with_workers (λ _, w) (with_mutation m (update_run id' f d))))) with (run_at id (update_run id' f d)).
    rewrite run_at_update, Hr by apply (same_run_id _ Hf). rewrite events_of_with_event.
    split_and!; [done|case_bool_decide; [apply Hf|done]|]. case_bool_decide; [done|by rewrite app_nil_r].
  - exists r, []. by rewrite app_nil_r.
Qed.

(** What the three files of a run hold, if they are there. *)
Record never_ahead (past : list RunDB) (s : Service) (id : string) : Prop := {
  na_spec : ∀ a, files_of s id !! SPEC = Some a → ∃ r, run_at id (db s) = Some r ∧ a = JsonDoc (spec_dump (rr_spec r));
  na_state : ∀ a, files_of s id !! STATE = Some a → ∃ d r, d ∈ past ∧ run_at id d = Some r ∧ a = StateDoc (record_of r);
  na_events : ∀ a, files_of s id !! EVENTS = Some a → is_Some (run_at id (db s)) ∧
    ∃ n es, a = EventsDoc es ∧ mapM _event (take n (events_of id (db s))) = Ok es }.

Record overlap_inv (past : list RunDB) (s : Service) : Prop := {
  ol_now : db s ∈ past;
  ol_past : ∀ d, d ∈ past → run_inv d ∧ later d (db s);
  ol_files : ∀ id, never_ahead past s id }.

Context (clock_ok : ∀ n, representable (utc_now n)).

Lemma never_ahead_same past s s' id : never_ahead past s id → db s' = db s → files_of s' id = files_of s id → never_ahead past s' id.
Proof. intros [H1 H2 H3] E F. by split; rewrite ?E, ?F. Qed.

Lemma store_overlap op past s : overlap_inv past s →
  overlap_inv (db (on_store (run_op utc_now uuid sqlite op) s).1 :: past) (on_store (run_op utc_now uuid sqlite op) s).1.
Proof.
  intros [H1 H2 H3]. destruct (H2 _ H1) as [Hd _].
  pose proof (run_op_cases utc_now uuid sqlite clock_ok op (svc_store s) Hd) as Hc.
  set (s' := (on_store _ s).1).
  assert (svc_store s' = (run_op utc_now uuid sqlite op (svc_store s)).1) as Edb by (unfold s', on_store; by destruct (run_op _ _ _ _ _)).
  assert (svc_journal s' = svc_journal s) as Ej by (unfold s', on_store; by destruct (run_op _ _ _ _ _)).
  rewrite <- Edb in Hc. pose proof (commit_later _ _ _ _ Hc) as Hl. split; [by left| |].
  - intros d [->|Hin]%elem_of_cons; [split; [by eapply commit_inv|done]|]. destruct (H2 _ Hin) as [? ?]. split; [done|]. by etrans.
  - intros id. destruct (H3 id) as [F1 F2 F3].
    assert (files_of s' id = files_of s id) as E by (unfold files_of, dir_of; by rewrite Ej). split; rewrite E.
    + intros a Ha. destruct (F1 _ Ha) as (r & Hr & ->). destruct (Hl _ _ Hr) as (r' & n & Hr' & <- & _). eauto.
    + intros a Ha. destruct (F2 _ Ha) as (d & r & Hin & ? & ?). exists d, r. split; [by right|done].
    + intros a Ha. destruct (F3 _ Ha) as ([r Hr] & n & es & -> & Hes). destruct (Hl _ _ Hr) as (r' & new & Hr' & _ & ->).
      split; [by eexists|]. exists (n `min` length (events_of id (db s)))%nat, es. split; [done|].
      rewrite take_app_le by lia. by rewrite <- take_take, (take_ge (events_of id (db s)) (length _)) by lia.
Qed.

(** One file of one run is replaced, or nothing is. *)
Lemma write_files id path a s :
  db (_atomic_write disk id path a s).1 = db s ∧
  ((∀ k, files_of (_atomic_write disk id path a s).1 k = files_of s k) ∨
   ∀ k, files_of (_atomic_write disk id path a s).1 k = if decide (k = id) then <[path := a]> (files_of s id) else files_of s k).
Proof.
  unfold _atomic_write. rewrite prog_bind_eq. unfold disk_answer.
  destruct (disk (svc_ticks s)) as [e|]; [split; [done|left; done]|]. cbv beta iota. rewrite prog_bind_eq. cbn [gets].
  rewrite prog_bind_eq. unfold lift. destruct (require _ _ _); [|split; [done|left; done]].
  cbn [change_dir modify fst]. split; [done|]. right. intros k. unfold files_of, dir_of. cbn [svc_journal].
  case_decide as Hk; [subst; by rewrite lookup_insert_eq|by rewrite lookup_insert_ne].
Qed.

Lemma write_overlap id path a past s : overlap_inv past s →
  (path = SPEC → ∃ r, run_at id (db s) = Some r ∧ a = JsonDoc (spec_dump (rr_spec r))) →
  (path = STATE → ∃ d r, d ∈ past ∧ run_at id d = Some r ∧ a = StateDoc (record_of r)) →
  (path = EVENTS → is_Some (run_at id (db s)) ∧ ∃ n es, a = EventsDoc es ∧ mapM _event (take n (events_of id (db s))) = Ok es) →
  overlap_inv past (_atomic_write disk id path a s).1.
Proof.
  intros [H1 H2 H3] Hs Ht He. destruct (write_files id path a s) as [E F]. split; [by rewrite E|intros d Hd; rewrite E; by apply H2|].
  intros k. destruct F as [F|F]; [eapply never_ahead_same; [apply H3|done|apply F]|].
  specialize (F k). case_decide as Hk; [subst k|by eapply never_ahead_same; [apply H3|..]].
  destruct (H3 id) as [F1 F2 F3]. split; rewrite ?E, F; intros b; rewrite lookup_insert; case_decide as Hp; auto; intros [= <-]; auto.
Qed.

Lemma was_row past s record : overlap_inv past s → was past record →
  ∃ d r, d ∈ past ∧ run_at (rec_run_id record) d = Some r ∧ record = record_of r ∧ later d (db s).
Proof.
  intros Hi (d & r & Hin & Hr & Hrec). destruct (ol_past _ _ Hi _ Hin) as [Hd Hl]. exists d, r.
  pose proof (run_at_elem _ _ _ Hr) as [Hel _]. destruct (ri_rows _ Hd r Hel) as [Hok _].
  rewrite (record_row r Hok) in Hrec. injection Hrec as <-. done.
Qed.

Lemma overlapped_inv past s : overlapped past s → overlap_inv past s.
Proof.
  induction 1 as [ticks ticks' d ->|op past s _ IH|past s s' _ IH E F|record past s _ IH Hw|record past s _ IH Hw|id es past s _ IH Hw|
    id path payload past s _ IH N1 N2 N3].
  - split; [by left| |].
    + intros d ->%list_elem_of_singleton. split; [apply empty_run_inv|reflexivity].
    + intros id. split; intros a; unfold files_of, dir_of; cbn; by rewrite lookup_empty.
  - by apply store_overlap.
  - destruct IH as [H1 H2 H3]. split; [by rewrite E|intros d Hd; rewrite E; by apply H2|]. intros id. by eapply never_ahead_same.
  - destruct (was_row _ _ _ IH Hw) as (d & r & Hin & Hr & -> & Hl). apply write_overlap; [done| |done|done].
    intros _. destruct (Hl _ _ Hr) as (r' & n & Hr' & Es & _). exists r'. by rewrite Es.
  - destruct (was_row _ _ _ IH Hw) as (d & r & Hin & Hr & -> & Hl). apply write_overlap; [done|done| |done]. intros _. by exists d, r.
  - destruct Hw as (d & Hin & [r Hr] & Hes). destruct (ol_past _ _ IH _ Hin) as [_ Hl]. destruct (Hl _ _ Hr) as (r' & new & Hr' & _ & Ev).
    apply write_overlap; [done|done|done|]. intros _. split; [by eexists|]. exists (length (events_of id d)), es. split; [done|].
    by rewrite Ev, take_app_length.
  - by apply write_overlap.
Qed.

(** ** The calls, one at a time, are among the interleavings *)

Definition reached (s : Service) : Prop := ∃ past, overlapped past s.
#[local] Abbreviation keeps m := (triple reached m (λ _, reached) reached).

Lemma beside_triple {A} (m : prog Service A) past : (∀ s, db (m s).1 = db s ∧ ∀ id, files_of (m s).1 id = files_of s id) →
  triple (overlapped past) m (λ _, overlapped past) (overlapped past).
Proof. intros Hm s Hs. destruct (Hm s) as [E F]. destruct (m s) as [s' [a|e]]; by eapply ol_beside. Qed.
Lemma beside_keeps {A} (m : prog Service A) : (∀ s, db (m s).1 = db s ∧ ∀ id, files_of (m s).1 id = files_of s id) → keeps m.
Proof. intros Hm s [past Hs]. pose proof (beside_triple m past Hm s Hs) as Ht. destruct (m s) as [s' [a|e]]; by exists past. Qed.
Lemma mkdir_beside id path s : db (mkdir_parents disk id path s).1 = db s ∧
  ∀ k, files_of (mkdir_parents disk id path s).1 k = files_of s k.
Proof.
  unfold mkdir_parents. rewrite prog_bind_eq. unfold disk_answer. destruct (disk (svc_ticks s)) as [e|]; [done|]. cbv beta iota.
  rewrite prog_bind_eq. cbn [gets]. rewrite prog_bind_eq. unfold lift. destruct (require _ _ _); [|done].
  cbn [change_dir modify fst]. split; [done|]. intros k. unfold files_of, dir_of. cbn [svc_journal].
  destruct (decide (k = id)) as [->|]; [by rewrite lookup_insert_eq|by rewrite lookup_insert_ne].
Qed.
Lemma file_triple id path a past : (∀ s, overlapped past s → overlapped past (_atomic_write disk id path a s).1) →
  triple (overlapped past) (_atomic_write disk id path a) (λ _, overlapped past) (overlapped past).
Proof. intros Hw s Hs. specialize (Hw s Hs). by destruct (_atomic_write _ _ _ _ s) as [s' [u|e]]. Qed.

Lemma sync_triple record events past : was past record → were past (rec_run_id record) events →
  triple (overlapped past) (sync disk record events) (λ _, overlapped past) (overlapped past).
Proof.
  intros Hw Hes. unfold sync. cbv zeta.
  eapply triple_bind; [by apply beside_triple|]. intros ?. eapply triple_bind; [apply beside_triple, mkdir_beside|]. intros ?.
  eapply triple_bind; [by apply beside_triple|]. intros d. eapply triple_bind; [by apply beside_triple|]. intros ?.
  eapply triple_bind with (Q := λ _, overlapped past).
  { destruct (_ !! _); [by apply beside_triple|]. apply file_triple. intros s Hs. by apply (ol_spec record). }
  intros ?. eapply triple_bind; [apply file_triple; intros s Hs; by apply (ol_state record)|]. intros ?.
  apply file_triple. intros s Hs. by apply ol_events.
Qed.

Lemma _sync_triple record : triple (λ s, ∃ past, overlapped past s ∧ was past record) (_sync sqlite disk record) (λ _, reached) reached.
Proof.
  apply triple_exists. intros past. unfold _sync.
  eapply triple_bind with (Q := λ es s, (was past record ∧ were past (rec_run_id record) es) ∧ overlapped past s).
  - intros s [Hs Hw]. pose proof (overlapped_inv _ _ Hs) as Hi. destruct (ol_past _ _ Hi _ (ol_now _ _ Hi)) as [Hd _].
    destruct (was_row _ _ _ Hi Hw) as (d & r & _ & Hr & _ & Hl). destruct (Hl _ _ Hr) as (r' & n & Hr' & _).
    pose proof (reads_list_events sqlite (rec_run_id record) 0 (svc_store s)) as E. unfold on_store.
    destruct (list_events sqlite (rec_run_id record) 0 (svc_store s)) as [st [es|e]] eqn:El; cbn in E.
    + destruct (list_events_Ok _ _ _ _ _ _ Hd Hr' El) as [_ Hes]. split; [split; [done|]|by eapply ol_beside].
      exists (db s). split; [apply Hi|]. split; [by eexists|done].
    + exists past. by eapply ol_beside.
  - intros es. apply triple_pure. intros [Hw Hes]. eapply triple_bind with (Q := λ _, overlapped past).
    + eapply triple_post; [by apply sync_triple|done|]. intros s Hs. by exists past.
    + intros ?. apply triple_ret. intros s Hs. by exists past.
Qed.

(** A call of the store, and what it returned if it returns the row of a run. *)
Lemma store_triple {A} op (m : prog Store A) : run_op utc_now uuid sqlite op = quietly m →
  triple reached (on_store m) (λ x s, ∃ past, overlapped past s ∧
    ∀ rec, (∀ st st', run_inv (store_db st) → m st = (st', Ok x) →
      ∃ r, run_at (rec_run_id rec) (store_db st') = Some r ∧ _record r = Ok rec) → was past rec) reached.
Proof.
  intros Hop s [past Hs]. pose proof (ol_store op past s Hs) as Hn. pose proof (overlapped_inv _ _ Hs) as Hi.
  destruct (ol_past _ _ Hi _ (ol_now _ _ Hi)) as [Hd _].
  assert (E : (on_store (run_op utc_now uuid sqlite op) s).1 = (on_store m s).1).
  { rewrite Hop. unfold on_store, quietly. rewrite prog_bind_eq. by destruct (m (svc_store s)) as [st [x|e]]. }
  rewrite E in Hn. unfold on_store in *. destruct (m (svc_store s)) as [st [x|e]] eqn:Em; cbn [fst svc_store] in Hn.
  - exists (store_db st :: past). split; [exact Hn|]. intros rec Hrow. destruct (Hrow _ _ Hd Em) as (r & Hr & Hrec).
    exists (store_db st), r. split; [by left|done].
  - by exists (store_db st :: past).
Qed.
Lemma store_keeps {A} op (m : prog Store A) : run_op utc_now uuid sqlite op = quietly m → keeps (on_store m).
Proof. intros Hop. eapply triple_post; [by apply (store_triple op)| |done]. intros x s (past & Hs & _). by exists past. Qed.
Lemma record_keeps {A} op (m : prog Store RunRecord) id (f : RunRecord → prog Service A) : run_op utc_now uuid sqlite op = quietly m →
  returns_row m (λ _, id) (λ x, x) → (∀ x, triple (λ s, ∃ past, overlapped past s ∧ was past x) (f x) (λ _, reached) reached) →
  keeps (record ← on_store m; f record).
Proof.
  intros Hop Hrow Hf. eapply triple_bind; [by apply (store_triple op)|]. intros x. eapply triple_pre; [|apply Hf].
  intros s (past & Hs & Hw). exists past. split; [done|]. apply Hw. intros st st' _ Em. destruct (Hrow _ _ _ Em) as (r & Hr & Hrec).
  exists r. by rewrite (record_id _ _ Hrec), (proj2 (run_at_elem _ _ _ Hr)).
Qed.
Lemma sync_then {A} record (f : RunRecord → prog Service A) : (∀ x, keeps (f x)) →
  triple (λ s, ∃ past, overlapped past s ∧ was past record) (x ← _sync sqlite disk record; f x) (λ _, reached) reached.
Proof. intros Hf. eapply triple_bind; [apply _sync_triple|exact Hf]. Qed.
Lemma ret_keeps {A} (a : A) : keeps (mret a).
Proof. by apply triple_ret. Qed.
Lemma get_sync_keeps id : keeps (record ← on_store (get sqlite id); _sync sqlite disk record).
Proof. eapply (record_keeps (OpGet id)); [done|apply row_of_get|apply _sync_triple]. Qed.

(** An artifact that is not one of the journal's own files. *)
Definition own_files_spared (op : SvcOp) : Prop :=
  match op with SArtifact _ ref _ _ => path_parts ref ≠ SPEC ∧ path_parts ref ≠ STATE ∧ path_parts ref ≠ EVENTS | _ => True end.

Lemma artifact_keeps id ref payload type : own_files_spared (SArtifact id ref payload type) →
  keeps (record_json_artifact utc_now uuid sqlite disk id ref payload type).
Proof.
  intros (N1 & N2 & N3). unfold record_json_artifact. eapply triple_bind; [by apply (store_keeps (OpGet id))|]. intros ?.
  eapply triple_bind with (Q := λ _, reached).
  { unfold write_json_artifact. eapply triple_bind with (Q := λ path s, path = path_parts ref ∧ reached s).
    - apply triple_lift; [|done]. intros s path Hs Hp. split; [|done]. unfold _resolve_artifact in Hp. by inv_ok.
    - intros path. apply triple_pure. intros ->. eapply triple_bind; [apply beside_keeps, mkdir_beside|]. intros ?.
      eapply triple_bind with (Q := λ _, reached); [|intros ?; apply ret_keeps]. intros s [past Hs].
      pose proof (ol_artifact id _ payload _ _ Hs N1 N2 N3) as Hn. destruct (_atomic_write _ _ _ _ s) as [s' [u|e]]; by exists past. }
  intros digest. eapply triple_bind; [by apply (store_keeps (OpListEvents id 0))|]. intros events. destruct (existsb _ _); [apply get_sync_keeps|].
  eapply (record_keeps (OpAppend id type _)); [done|apply row_of_append|apply _sync_triple].
Qed.

Lemma svc_op_reached op s : reached s → own_files_spared op →
  reached (svc_op utc_now uuid sqlite wall_clock hex8 disk op s).1.
Proof.
  intros Hs Hown. assert (H : keeps (svc_op utc_now uuid sqlite wall_clock hex8 disk op)).
  2:{ specialize (H s Hs). by destruct (svc_op _ _ _ _ _ _ op s) as [s' [u|e]]. }
  clear Hs. destruct op as [spec|id next detail|id status reason|id reason|id|id verified detail|id ttl now|id|worker phases ttl now|id worker ttl now|id worker|id ref payload type];
    cbn [svc_op]; unfold done_with; (eapply triple_bind with (Q := λ _, reached); [|intros ?; apply ret_keeps]).
  - unfold create_run. eapply triple_bind; [by apply beside_keeps|]. intros now. eapply triple_bind; [by apply beside_keeps|]. intros hex. cbv zeta.
    set (id := "run-" +:+ _). eapply triple_bind; [by apply (store_triple (OpCreate id spec))|]. intros x. eapply triple_pre; [|apply _sync_triple].
    intros s' (past & Hs & Hw). exists past. split; [done|]. apply Hw. intros st st' Hd Em. exact (row_of_create _ _ _ _ _ _ _ _ Hd Em).
  - eapply (record_keeps (OpTransition _ _ _)); [done|apply row_of_transition|apply _sync_triple].
  - eapply (record_keeps (OpCleanup _ _ _ _)); [done|apply row_of_cleanup|apply _sync_triple].
  - eapply (record_keeps (OpCleanup _ _ _ _)); [done|apply row_of_cleanup|apply _sync_triple].
  - unfold approve_run. eapply triple_bind; [by apply (store_keeps (OpGet id))|]. intros record. eapply triple_bind; [by apply beside_keeps|]. intros ?.
    eapply (record_keeps (OpTransition _ _ _)); [done|apply row_of_transition|apply _sync_triple].
  - eapply (record_keeps (OpFinish _ _ _)); [done|apply row_of_finish|apply _sync_triple].
  - unfold svc_acquire_mutation_lease. eapply triple_bind; [by apply (store_keeps (OpAcquire id ttl now))|]. intros lease.
    eapply (record_keeps (OpGet id)); [done|apply row_of_get|]. intros x. apply sync_then. intros ?. apply ret_keeps.
  - unfold svc_release_mutation_lease. eapply triple_bind; [by apply (store_keeps (OpRelease id))|]. intros []; [|apply ret_keeps].
    eapply (record_keeps (OpGet id)); [done|apply row_of_get|]. intros x. apply sync_then. intros ?. apply ret_keeps.
  - unfold svc_claim_next_run. eapply triple_bind; [by apply (store_keeps (OpClaim worker phases ttl now))|]. intros [l|]; [|apply ret_keeps].
    eapply (record_keeps (OpGet _)); [done|apply row_of_get|]. intros x. apply sync_then. intros ?. apply ret_keeps.
  - by apply (store_keeps (OpRenew id worker ttl now)).
  - by apply (store_keeps (OpReleaseWorker id worker)).
  - by apply artifact_keeps.
Qed.

End overlap.

(** ** A heartbeat that is overtaken *)

#[local] Abbreviation demo_overlapped := (overlapped demo_clock demo_uuid demo_sqlite demo_sqlite).
Definition demo_row (s : Service) : RunRow := default (new_row "" (demo_spec "") 0) (run_at demo_run_id (db s)).
Definition writes_state (r : RunRecord) (s : Service) : Service := (_atomic_write demo_sqlite demo_run_id STATE (StateDoc r) s).1.
Definition writes_events (es : list RunEvent) (s : Service) : Service := (_atomic_write demo_sqlite demo_run_id EVENTS (EventsDoc es) s).1.

(** The heartbeat has read the new run and its events; the workflow advances the run and writes
    the journal; the heartbeat writes what it read. *)
Definition old_events : list RunEvent := Eval vm_compute in ok_or [] (mapM _event (events_of demo_run_id (db demo_created))).
Definition advanced : Service := Eval vm_compute in
  (on_store (run_op demo_clock demo_uuid demo_sqlite (OpTransition demo_run_id SCANNING None)) demo_created).1.
Definition new_events : list RunEvent := Eval vm_compute in ok_or [] (mapM _event (events_of demo_run_id (db advanced))).
Definition stale : Service := Eval vm_compute in
  writes_events old_events (writes_state (record_of (demo_row demo_created))
    (writes_events new_events (writes_state (record_of (demo_row advanced)) advanced))).

Example stale_journal :
  rr_phase <$> run_at demo_run_id (db stale) = Some SCANNING ∧ length (events_of demo_run_id (db stale)) = 2%nat ∧
  files_of stale demo_run_id !! STATE = Some (StateDoc (record_of (demo_row demo_created))) ∧
  files_of stale demo_run_id !! EVENTS = Some (EventsDoc old_events) ∧ length old_events = 1%nat ∧
  rec_phase (record_of (demo_row demo_created)) = CREATED.
Proof. vm_compute. done. Qed.

Lemma stale_overlapped : ∃ past, demo_overlapped past stale.
Proof.
  assert (H0 : ∃ past, demo_overlapped past demo_created).
  { assert (H := svc_op_reached demo_clock demo_uuid demo_sqlite demo_clock demo_hex demo_sqlite demo_clock_ok (SCreate (demo_spec "request-a"))
      (demo_service []) (ex_intro _ _ (ol_empty _ _ _ _ 0 0 _ eq_refl)) I). exact H. }
  destruct H0 as [past H0]. pose proof (overlapped_inv _ _ _ _ demo_clock_ok _ _ H0) as Hi. pose proof (ol_now _ _ Hi) as Hin.
  pose proof (ol_store _ _ _ _ (OpTransition demo_run_id SCANNING None) _ _ H0) as H1.
  set (d1 := db demo_created) in *. change (on_store _ demo_created).1 with advanced in H1. set (d2 := db advanced) in *.
  exists (d2 :: past).
  assert (Hold : was (d2 :: past) (record_of (demo_row demo_created))).
  { exists d1, (demo_row demo_created). split; [by right|]. split; vm_compute; reflexivity. }
  assert (Hnew : was (d2 :: past) (record_of (demo_row advanced))).
  { exists d2, (demo_row advanced). split; [by left|]. split; vm_compute; reflexivity. }
  assert (Eold : were (d2 :: past) demo_run_id old_events).
  { exists d1. split; [by right|]. split; [eexists|]; vm_compute; reflexivity. }
  assert (Enew : were (d2 :: past) demo_run_id new_events).
  { exists d2. split; [by left|]. split; [eexists|]; vm_compute; reflexivity. }
  assert (stale = writes_events old_events (writes_state (record_of (demo_row demo_created))
    (writes_events new_events (writes_state (record_of (demo_row advanced)) advanced)))) as -> by (vm_compute; reflexivity).
  apply (ol_events _ _ _ _ demo_run_id old_events); [|exact Eold]. apply (ol_state _ _ _ _ (record_of (demo_row demo_created))); [|exact Hold].
  apply (ol_events _ _ _ _ demo_run_id new_events); [|exact Enew]. by apply (ol_state _ _ _ _ (record_of (demo_row advanced))).
Qed.

(** The next call that nothing overlaps writes what the store has. *)
Definition matched : Service * result unit := Eval vm_compute in
  svc_op demo_clock demo_uuid demo_sqlite demo_clock demo_hex demo_sqlite (SAdvance demo_run_id MATCHING None) stale.
Lemma matched_Ok : svc_op demo_clock demo_uuid demo_sqlite demo_clock demo_hex demo_sqlite (SAdvance demo_run_id MATCHING None) stale = (matched.1, Ok ()).
Proof. vm_compute. reflexivity. Qed.

