(* ===== verification/PlatformLedger.v ===== *)
(** * The platform's event ledger and notice queue ([stage2_service/platform_ledger.py],
      [stage2_service/notices.py])

    The evidence of a Trial: an append-only list of events, and a queue of notices that are
    leased to a reader and count as delivered only when the reader acknowledges them. A JSON
    column holds the document it encodes; a time column its text. *)

From S2P Require Import Prelude PyFloat PyVal PyTime PyIso PyIsoOrder PyStamp.

#[local] Open Scope Z_scope.

Definition DEFAULT_LEDGER_NAME : string := "platform-ledger.sqlite3".
Definition _MAX_QUERY_LIMIT : Z := 10000.

(** ** Rows *)

Record PlatformEvent := {
  pe_sequence : Z; pe_trial : string; pe_type : string; pe_occurred_at : string; pe_recorded_at : string;
  pe_payload : mapping }.

Record Notice := {
  nt_id : Z; nt_trial : string; nt_type : string; nt_enqueued_at : string; nt_payload : mapping; nt_key : string;
  nt_delivered_at : option string; nt_claimed_until : option string; nt_claimed_by : option string }.

(** A row of [notices]: a notice and the id of its latest delivery. *)
Record NoticeRow := { nr_notice : Notice; nr_latest : option string }.

(** A row of [notice_deliveries]. *)
Record DeliveryRow := {
  dr_id : string; dr_notice : Z; dr_claimed_at : string; dr_deadline : string; dr_attempt : Z;
  dr_claimed_by : option string; dr_delivered_at : option string }.

Record NoticeDelivery := {
  nd_id : string; nd_notice : Notice; nd_claimed_at : string; nd_deadline : string; nd_attempt : Z;
  nd_claimed_by : option string }.

(** [as_dict] *)
Definition event_dict (e : PlatformEvent) : mapping :=
  [("sequence", VInt (pe_sequence e)); ("trial_id", VStr (pe_trial e)); ("event_type", VStr (pe_type e));
   ("occurred_at", VStr (pe_occurred_at e)); ("recorded_at", VStr (pe_recorded_at e));
   ("payload", VDict (pe_payload e))].
Definition notice_dict (n : Notice) : mapping :=
  [("notice_id", VInt (nt_id n)); ("trial_id", VStr (nt_trial n)); ("notice_type", VStr (nt_type n));
   ("enqueued_at", VStr (nt_enqueued_at n)); ("payload", VDict (nt_payload n)); ("idempotency_key", VStr (nt_key n));
   ("delivered_at", opt_str (nt_delivered_at n)); ("claimed_until", opt_str (nt_claimed_until n));
   ("claimed_by", opt_str (nt_claimed_by n))].
Definition delivery_dict (d : NoticeDelivery) : mapping :=
  [("delivery_id", VStr (nd_id d)); ("notice", VDict (notice_dict (nd_notice d)));
   ("claimed_at", VStr (nd_claimed_at d)); ("claim_deadline_at", VStr (nd_deadline d));
   ("attempt", VInt (nd_attempt d)); ("claimed_by", opt_str (nd_claimed_by d))].

(** The three tables, and the last number [AUTOINCREMENT] gave in the first two. *)
Record LedgerDB := {
  events : list PlatformEvent; last_sequence : Z;
  notices : list NoticeRow; last_notice : Z;
  deliveries : list DeliveryRow }.

Definition empty_ledger : LedgerDB :=
  {| events := []; last_sequence := 0; notices := []; last_notice := 0; deliveries := [] |}.

(** [INSERT INTO platform_events] *)
Definition insert_event (trial type occurred recorded : string) (payload : mapping) (d : LedgerDB) : LedgerDB := {|
  events := events d ++ [{| pe_sequence := last_sequence d + 1; pe_trial := trial; pe_type := type;
                            pe_occurred_at := occurred; pe_recorded_at := recorded; pe_payload := payload |}];
  last_sequence := last_sequence d + 1; notices := notices d; last_notice := last_notice d;
  deliveries := deliveries d |}.

(** [INSERT INTO notices] *)
Definition insert_notice (trial type enqueued key : string) (payload : mapping) (d : LedgerDB) : LedgerDB := {|
  events := events d; last_sequence := last_sequence d;
  notices := notices d ++ [{| nr_notice := {|
      nt_id := last_notice d + 1; nt_trial := trial; nt_type := type; nt_enqueued_at := enqueued;
      nt_payload := payload; nt_key := key; nt_delivered_at := None; nt_claimed_until := None;
      nt_claimed_by := None |}; nr_latest := None |}];
  last_notice := last_notice d + 1; deliveries := deliveries d |}.

Definition insert_delivery (r : DeliveryRow) (d : LedgerDB) : LedgerDB := {|
  events := events d; last_sequence := last_sequence d; notices := notices d; last_notice := last_notice d;
  deliveries := deliveries d ++ [r] |}.

(** [UPDATE notices SET ... WHERE notice_id = ?] *)
Definition update_notice (id : Z) (f : NoticeRow → NoticeRow) (d : LedgerDB) : LedgerDB := {|
  events := events d; last_sequence := last_sequence d;
  notices := map (λ r, if bool_decide (nt_id (nr_notice r) = id) then f r else r) (notices d);
  last_notice := last_notice d; deliveries := deliveries d |}.

(** [UPDATE notice_deliveries SET ... WHERE delivery_id = ?] *)
Definition update_delivery (id : string) (f : DeliveryRow → DeliveryRow) (d : LedgerDB) : LedgerDB := {|
  events := events d; last_sequence := last_sequence d; notices := notices d; last_notice := last_notice d;
  deliveries := map (λ r, if bool_decide (dr_id r = id) then f r else r) (deliveries d) |}.

Definition set_claim (deadline : string) (by_ : option string) (delivery_id : string) (r : NoticeRow) : NoticeRow :=
  let n := nr_notice r in {|
  nr_notice := {| nt_id := nt_id n; nt_trial := nt_trial n; nt_type := nt_type n; nt_enqueued_at := nt_enqueued_at n;
                  nt_payload := nt_payload n; nt_key := nt_key n; nt_delivered_at := nt_delivered_at n;
                  nt_claimed_until := Some deadline; nt_claimed_by := by_ |};
  nr_latest := Some delivery_id |}.

Definition set_delivered (at_ : string) (r : NoticeRow) : NoticeRow :=
  let n := nr_notice r in {|
  nr_notice := {| nt_id := nt_id n; nt_trial := nt_trial n; nt_type := nt_type n; nt_enqueued_at := nt_enqueued_at n;
                  nt_payload := nt_payload n; nt_key := nt_key n; nt_delivered_at := Some at_;
                  nt_claimed_until := nt_claimed_until n; nt_claimed_by := nt_claimed_by n |};
  nr_latest := nr_latest r |}.

Definition set_acknowledged (at_ : string) (r : DeliveryRow) : DeliveryRow := {|
  dr_id := dr_id r; dr_notice := dr_notice r; dr_claimed_at := dr_claimed_at r; dr_deadline := dr_deadline r;
  dr_attempt := dr_attempt r; dr_claimed_by := dr_claimed_by r; dr_delivered_at := Some at_ |}.

Definition notice_at (id : Z) (d : LedgerDB) : option NoticeRow :=
  List.find (λ r, bool_decide (nt_id (nr_notice r) = id)) (notices d).
Definition delivery_at (id : string) (d : LedgerDB) : option DeliveryRow :=
  List.find (λ r, bool_decide (dr_id r = id)) (deliveries d).
Definition notice_keyed (trial key : string) (d : LedgerDB) : option NoticeRow :=
  List.find (λ r, bool_decide (nt_trial (nr_notice r) = trial) && bool_decide (nt_key (nr_notice r) = key)) (notices d).
Definition attempts (id : Z) (d : LedgerDB) : Z :=
  Z.of_nat (count (λ r, bool_decide (dr_notice r = id)) (deliveries d)).

(** ** Arguments *)

Definition _required_text (name value : string) : result string :=
  let text := str_strip value in
  require (nonempty text) ValueError (name +:+ " is required") ;; Ok text.

Definition _non_negative_int (name : string) (value : Z) : result Z :=
  require (negb (value <? 0)) ValueError (name +:+ " must be non-negative") ;; Ok value.

Definition _limit (value : Z) : result Z :=
  require (negb ((value <? 1) || (_MAX_QUERY_LIMIT <? value))) ValueError
    ("limit must be between 1 and " +:+ pretty _MAX_QUERY_LIMIT) ;; Ok value.

(** [json.loads(_payload_json(payload))] *)
Definition _payload_json (payload : mapping) : mapping := sort_mapping payload.

(** A time argument: [str | datetime]. *)
Inductive Stamp := Text (text : string) | Time (t : datetime).

Definition _timestamp_datetime (value : Stamp) : result datetime :=
  match value with
  | Time t => dt_in_range (as_utc t)
  | Text s =>
      text ← _required_text "timestamp" s;
      t ← parsed (spell_zulu text);
      dt_in_range (as_utc t)
  end.

Definition _timestamp_text (value : Stamp) : result string := t ← _timestamp_datetime value; Ok (isoformat t).

(** [value or ...]: an empty text is false, a [datetime] true. *)
Definition given (value : option Stamp) : option Stamp :=
  match value with Some (Text "") => None | _ => value end.

(** What [__init__] asks of the file name. *)
Definition database_name_ok (name : string) : bool :=
  negb (existsb (λ c, bool_decide (c = "/"%char)) (chars name)) && nonempty name && negb (bool_decide (name = ".")) &&
  (str_endswith ".sqlite" name || str_endswith ".sqlite3" name || str_endswith ".db" name).

(** SQLite stores integers of 64 bits. *)
Definition sqlite_int (z : Z) : result Z :=
  require ((- 2 ^ 63 <=? z) && (z <? 2 ^ 63)) OverflowError "Python int too large to convert to SQLite INTEGER" ;; Ok z.

(** ** The ledger *)

(** [ld_ticks] counts the readings of the clock, of [uuid4] and the answers of SQLite and of
    the file system. *)
Record Ledger := { ld_db : LedgerDB; ld_ticks : nat }.

Section ledger.
(** The [n]-th reading of the clock and [uuid4().hex]; whether SQLite opens, starts or commits
    a transaction when asked, and whether [os.chmod] of the database raises. *)
Context (utc_now : nat → Z) (uuid : nat → string) (sqlite chmod : nat → option exn).

#[local] Abbreviation st := (prog Ledger).

Definition tick (s : Ledger) : Ledger := {| ld_db := ld_db s; ld_ticks := S (ld_ticks s) |}.
Definition answer (o : nat → option exn) : st unit := λ s,
  (tick s, match o (ld_ticks s) with Some e => Err e | None => Ok tt end).
Definition now_utc : st datetime := λ s, (tick s, Ok (utc_of (utc_now (ld_ticks s)))).
Definition uuid4_hex : st string := λ s, (tick s, Ok (uuid (ld_ticks s))).
Definition read {A} (f : LedgerDB → A) : st A := gets (λ s, f (ld_db s)).
Definition write (f : LedgerDB → LedgerDB) : st unit :=
  modify (λ s, {| ld_db := f (ld_db s); ld_ticks := ld_ticks s |}).

Definition _utc_now : st string := t ← now_utc; mret (isoformat t).
Definition _chmod_sqlite_files : st unit := answer chmod.

(** [with self._connect(): BEGIN IMMEDIATE ... COMMIT]: what raises, or is rolled back,
    writes nothing. *)
Definition transaction {A} (body : st A) : st A := λ s,
  match (answer sqlite ;; a ← body; answer sqlite ;; mret a) s with
  | (s', Ok a) => (s', Ok a)
  | (s', Err e) => ({| ld_db := ld_db s; ld_ticks := ld_ticks s' |}, Err e)
  end.

(** One statement of a connection without a transaction. *)
Definition statement {A} (f : LedgerDB → A) : st A := answer sqlite ;; read f.

(** [now or datetime.now(timezone.utc)], as UTC *)
Definition current_datetime (now : option Stamp) : st datetime :=
  match given now with Some v => lift (_timestamp_datetime v) | None => now_utc end.
Definition current_text (now : option Stamp) : st string := t ← current_datetime now; mret (isoformat t).

Definition optional_text (name : string) (value : option string) : result (option string) :=
  match value with Some v => Some <$> _required_text name v | None => Ok None end.

(** A filter on [trial_id], when there is one. *)
Definition of_trial (trial : option string) (t : string) : bool :=
  match trial with Some x => bool_decide (t = x) | None => true end.

Definition append (trial_id event_type : string) (occurred_at : Stamp) (payload : mapping) : st PlatformEvent :=
  trial_id ← lift (_required_text "trial_id" trial_id);
  event_type ← lift (_required_text "event_type" event_type);
  occurred ← lift (_timestamp_text occurred_at);
  let payload := _payload_json payload in
  event ← transaction (
    recorded ← _utc_now;
    write (insert_event trial_id event_type occurred recorded payload) ;;
    sequence ← read last_sequence;
    mret {| pe_sequence := sequence; pe_trial := trial_id; pe_type := event_type; pe_occurred_at := occurred;
            pe_recorded_at := recorded; pe_payload := payload |});
  _chmod_sqlite_files ;;
  mret event.

Definition selected (after : Z) (trial : option string) (e : PlatformEvent) : bool :=
  (after <? pe_sequence e) && of_trial trial (pe_trial e).
Definition page (after limit : Z) (trial : option string) (d : LedgerDB) : list PlatformEvent :=
  take (Z.to_nat limit) (sort_by (λ a b, pe_sequence a <=? pe_sequence b) (List.filter (selected after trial) (events d))).

Definition query (after_sequence limit : Z) (trial_id : option string) : st (list PlatformEvent) :=
  after_sequence ← lift (_non_negative_int "after_sequence" after_sequence);
  limit ← lift (_limit limit);
  trial ← lift (optional_text "trial_id" trial_id);
  answer sqlite ;;
  lift (sqlite_int after_sequence) ;;
  read (page after_sequence limit trial).

Definition query_dicts (after_sequence limit : Z) (trial_id : option string) : st (list mapping) :=
  rows ← query after_sequence limit trial_id; mret (map event_dict rows).

(** The documents of the lines. *)
Definition export_jsonl_rows (after_sequence limit : Z) (trial_id : option string) : st (list mapping) :=
  rows ← query after_sequence limit trial_id; mret (map (λ e, sort_mapping (event_dict e)) rows).

(** The insertion of [enqueue_notice], a transaction of its own: between it and the lookup
    before it another connection may write. *)
Definition enqueue_insert (trial_id notice_type key enqueued_at : string) (payload : mapping) : st Notice :=
  transaction (
    clash ← read (notice_keyed trial_id key);
    lift (require (bool_decide (clash = None)) IntegrityError
            "UNIQUE constraint failed: notices.trial_id, notices.idempotency_key") ;;
    write (insert_notice trial_id notice_type enqueued_at key payload)) ;;
  notice_id ← read last_notice;
  row ← statement (notice_at notice_id);
  _chmod_sqlite_files ;;
  lift (nr_notice <$> opt_or_raise row TypeError "'NoneType' object is not subscriptable").

Definition enqueue_notice (trial_id notice_type : string) (payload : mapping) (idempotency_key : option string) : st Notice :=
  trial_id ← lift (_required_text "trial_id" trial_id);
  notice_type ← lift (_required_text "notice_type" notice_type);
  key ← (match idempotency_key with
         | Some k => if nonempty k then mret k else uuid4_hex
         | None => uuid4_hex
         end);
  key ← lift (_required_text "idempotency_key" key);
  let payload := _payload_json payload in
  enqueued_at ← _utc_now;
  existing ← statement (notice_keyed trial_id key);
  match existing with
  | Some row =>
      let notice := nr_notice row in
      lift (require (negb (negb (bool_decide (nt_type notice = notice_type)) ||
                           negb (py_eq (VDict (nt_payload notice)) (VDict payload))))
              ValueError "idempotent notice replay changed notice content") ;;
      mret notice
  | None => enqueue_insert trial_id notice_type key enqueued_at payload
  end.

(** [delivered_at IS NULL AND (claimed_until IS NULL OR claimed_until <= ?)] *)
Definition unclaimed (now : string) (n : Notice) : bool :=
  match nt_claimed_until n with Some t => str_leb t now | None => true end.
Definition undelivered (n : Notice) : bool := bool_decide (nt_delivered_at n = None).
Definition available (now : string) (trial : option string) (n : Notice) : bool :=
  undelivered n && unclaimed now n && of_trial trial (nt_trial n).
Definition by_id (l : list Notice) : list Notice := sort_by (λ a b, nt_id a <=? nt_id b) l.
Definition all_notices (d : LedgerDB) : list Notice := map nr_notice (notices d).

Definition pending_notices (trial_id : option string) (include_claimed : bool) (now : option Stamp) (limit : Z) : st (list Notice) :=
  limit ← lift (_limit limit);
  current ← current_text now;
  trial ← lift (optional_text "trial_id" trial_id);
  statement (λ d, take (Z.to_nat limit) (by_id (List.filter
    (λ n, undelivered n && (include_claimed || unclaimed current n) && of_trial trial (nt_trial n)) (all_notices d)))).

(** The query of [claim_notice]. *)
Definition next_notice (now : string) (trial : option string) (d : LedgerDB) : option Notice :=
  head (by_id (List.filter (available now trial) (all_notices d))).

Definition claim_notice (trial_id claimed_by : option string) (lease_seconds : Z) (now : option Stamp) : st (option NoticeDelivery) :=
  lift (require (negb (lease_seconds <=? 0)) ValueError "lease_seconds must be positive") ;;
  current ← current_datetime now;
  let claimed_at := isoformat current in
  deadline ← lift (plus_seconds current lease_seconds);
  let deadline := isoformat deadline in
  trial ← lift (optional_text "trial_id" trial_id);
  claimed ← transaction (
    row ← read (next_notice claimed_at trial);
    match row with
    | None => mret None
    | Some notice =>
        let notice_id := nt_id notice in
        earlier ← read (attempts notice_id);
        delivery_id ← uuid4_hex;
        clash ← read (delivery_at delivery_id);
        lift (require (bool_decide (dr_notice <$> clash = None)) IntegrityError
                "UNIQUE constraint failed: notice_deliveries.delivery_id") ;;
        write (insert_delivery {|
          dr_id := delivery_id; dr_notice := notice_id; dr_claimed_at := claimed_at; dr_deadline := deadline;
          dr_attempt := earlier + 1; dr_claimed_by := claimed_by; dr_delivered_at := None |}) ;;
        write (update_notice notice_id (set_claim deadline claimed_by delivery_id)) ;;
        notice_row ← read (notice_at notice_id);
        notice ← lift (nr_notice <$> opt_or_raise notice_row TypeError "'NoneType' object is not subscriptable");
        mret (Some {| nd_id := delivery_id; nd_notice := notice; nd_claimed_at := claimed_at; nd_deadline := deadline;
                      nd_attempt := earlier + 1; nd_claimed_by := claimed_by |})
    end);
  match claimed with
  | None => mret None
  | Some delivery => _chmod_sqlite_files ;; mret (Some delivery)
  end.

(** [d JOIN n ON n.notice_id = d.notice_id WHERE d.delivery_id = ? AND (? IS NULL OR n.trial_id = ?)] *)
Definition joined (delivery_id : string) (trial : option string) (d : LedgerDB) : option (DeliveryRow * NoticeRow) :=
  r ← delivery_at delivery_id d;
  n ← notice_at (dr_notice r) d;
  if of_trial trial (nt_trial (nr_notice n)) then Some (r, n) else None.

Definition deliver_notice (delivery_id : string) (trial_id : option string) (delivered_at : option Stamp)
    (delivery_path : string) : st Notice :=
  delivery_id ← lift (_required_text "delivery_id" delivery_id);
  timestamp ← current_text delivered_at;
  notice ← transaction (
    found ← read (joined delivery_id trial_id);
    '(delivery, _) ← lift (opt_or_raise found KeyError delivery_id);
    let notice_id := dr_notice delivery in
    when (bool_decide (dr_delivered_at delivery = None))
      (write (update_delivery delivery_id (set_acknowledged timestamp))) ;;
    existing ← read (notice_at notice_id);
    existing ← lift (opt_or_raise existing KeyError delivery_id);
    when (undelivered (nr_notice existing)) (
      write (update_notice notice_id (set_delivered timestamp)) ;;
      recorded ← _utc_now;
      write (insert_event (nt_trial (nr_notice existing)) "NOTICE_DELIVERED" timestamp recorded
        (_payload_json [("delivery_id", VStr delivery_id); ("notice_id", VInt notice_id);
                        ("notice_type", VStr (nt_type (nr_notice existing))); ("path", VStr delivery_path)]))) ;;
    notice_row ← read (notice_at notice_id);
    lift (nr_notice <$> opt_or_raise notice_row TypeError "'NoneType' object is not subscriptable"));
  _chmod_sqlite_files ;;
  mret notice.

(** ** Its readers ([notices.py]) *)

Definition offered (d : NoticeDelivery) : mapping :=
  [("delivery_id", VStr (nd_id d)); ("attempt", VInt (nd_attempt d));
   ("notice", VDict [("notice_id", VInt (nt_id (nd_notice d))); ("notice_type", VStr (nt_type (nd_notice d)));
                     ("enqueued_at", VStr (nt_enqueued_at (nd_notice d))); ("payload", VDict (nt_payload (nd_notice d)))])].

(** The loop of [claim_notices], [n] rounds of it. *)
Fixpoint claim_rounds (n : nat) (trial_id : string) (path : string) (lease : Z) (output : list mapping) : st (list mapping) :=
  match n with
  | O => mret output
  | S n' =>
      delivery ← claim_notice (Some trial_id) (Some path) lease None;
      match delivery with
      | None => mret output
      | Some d => claim_rounds n' trial_id path lease (output ++ [offered d])
      end
  end.
Definition claim_notices (trial_id path : string) (limit : Z) : st (list mapping) :=
  claim_rounds (Z.to_nat limit) trial_id path 60 [].

Definition attach_notices (result : val) (trial_id : string) : st val :=
  match result with
  | VDict d =>
      match vget d "ok" with
      | VBool true =>
          notices ← claim_notices trial_id "in_band" 10;
          mret (if empty notices then result else VDict (dset "controller_notices" (VList (map VDict notices)) d))
      | _ => mret result
      end
  | _ => mret result
  end.

(** [except KeyError: continue] *)
Definition or_unknown (m : st unit) : st unit :=
  catch m (λ e, match exn_class e with KeyError => mret tt | _ => lift (Err e) end).

Fixpoint acknowledge_items (items : list val) (trial_id path : string) (received_at : datetime) : st unit :=
  match items with
  | [] => mret tt
  | item :: rest =>
      (match as_map item with
       | Some d => match vget d "delivery_id" with
                   | VStr id => or_unknown (deliver_notice id (Some trial_id) (Some (Time received_at)) path ;; mret tt)
                   | _ => mret tt
                   end
       | None => mret tt
       end) ;;
      acknowledge_items rest trial_id path received_at
  end.

Fixpoint acknowledge_fields (fields : list (string * string)) (payload : mapping) (trial_id : string)
    (received_at : datetime) : st unit :=
  match fields with
  | [] => mret tt
  | (field, path) :: rest =>
      (match vget payload field with
       | VList items => acknowledge_items items trial_id path received_at
       | _ => mret tt
       end) ;;
      acknowledge_fields rest payload trial_id received_at
  end.
Definition acknowledge_received_notices (payload : mapping) (trial_id : string) (received_at : datetime) : st unit :=
  acknowledge_fields [("controller_notices", "in_band"); ("notices", "poll")] payload trial_id received_at.

(** The [while] loop of [all_trial_events]; [None] when the fuel runs out. *)
Fixpoint read_pages (fuel : nat) (trial_id : string) (events : list mapping) (cursor : Z) : st (option (list mapping)) :=
  match fuel with
  | O => mret None
  | S fuel =>
      rows ← query cursor 500 (Some trial_id);
      match last rows with
      | None => mret (Some events)
      | Some e => read_pages fuel trial_id (events ++ map event_dict rows) (pe_sequence e)
      end
  end.
Definition all_trial_events (fuel : nat) (trial_id : string) : st (option (list mapping)) :=
  read_pages fuel trial_id [] 0.
End ledger.
