(* ===== verification/PlatformLedgerInv.v ===== *)
(** * What the platform ledger commits

    Every call of the ledger leaves the tables as they were or commits one of a few changes,
    whether it returns or raises; those changes keep the invariant of the tables. *)

From S2P Require Import Prelude Hoare PyFloat PyVal PyTime PyIso PyIsoOrder PyStamp PlatformLedger.

#[local] Open Scope Z_scope.

(** ** Calls *)

(** [OpInsert] is the second half of an [enqueue_notice] whose lookup ran before other calls
    did; its texts come from the first half. *)
Inductive LedgerOp :=
  | OpAppend (trial type : string) (occurred : Stamp) (payload : mapping)
  | OpQuery (after limit : Z) (trial : option string)
  | OpEnqueue (trial type : string) (payload : mapping) (key : option string)
  | OpInsert (trial type key enqueued : string) (payload : mapping)
  | OpPending (trial : option string) (include_claimed : bool) (now : option Stamp) (limit : Z)
  | OpClaim (trial by_ : option string) (lease : Z) (now : option Stamp)
  | OpDeliver (delivery : string) (trial : option string) (at_ : option Stamp) (path : string).

Section ops.
Context (utc_now : nat → Z) (uuid : nat → string) (sqlite chmod : nat → option exn).

Definition silently {A} (m : prog Ledger A) : prog Ledger unit := m ;; mret tt.

Definition ledger_op (op : LedgerOp) : prog Ledger unit :=
  match op with
  | OpAppend trial type occurred payload => silently (append utc_now sqlite chmod trial type occurred payload)
  | OpQuery after limit trial => silently (query sqlite after limit trial)
  | OpEnqueue trial type payload key => silently (enqueue_notice utc_now uuid sqlite chmod trial type payload key)
  | OpInsert trial type key enqueued payload => silently (enqueue_insert sqlite chmod trial type key enqueued payload)
  | OpPending trial include now limit => silently (pending_notices utc_now sqlite trial include now limit)
  | OpClaim trial by_ lease now => silently (claim_notice utc_now uuid sqlite chmod trial by_ lease now)
  | OpDeliver delivery trial at_ path => silently (deliver_notice utc_now sqlite chmod delivery trial at_ path)
  end.

(** The ledger between two calls, from an empty database; the calls are [allowed] ones. *)
Inductive ledger_reach (allowed : LedgerOp → Prop) : Ledger → Prop :=
  | ledger_reach_empty ticks : ledger_reach allowed {| ld_db := empty_ledger; ld_ticks := ticks |}
  | ledger_reach_op s op : ledger_reach allowed s → allowed op → ledger_reach allowed (ledger_op op s).1.
End ops.

Definition any_op (op : LedgerOp) : Prop := True.

(** ** The invariant *)

Definition deliveries_of (id : Z) (d : LedgerDB) : list DeliveryRow :=
  List.filter (λ r, bool_decide (dr_notice r = id)) (deliveries d).

Record row_inv (d : LedgerDB) (row : NoticeRow) : Prop := {
  rw_until : nt_claimed_until (nr_notice row) = dr_deadline <$> last (deliveries_of (nt_id (nr_notice row)) d);
  rw_latest : nr_latest row = dr_id <$> last (deliveries_of (nt_id (nr_notice row)) d);
  rw_attempts : map dr_attempt (deliveries_of (nt_id (nr_notice row)) d) =
    seqZ 1 (Z.of_nat (length (deliveries_of (nt_id (nr_notice row)) d)));
  rw_delivered : nt_delivered_at (nr_notice row) = None ↔
    ∀ r, r ∈ deliveries_of (nt_id (nr_notice row)) d → dr_delivered_at r = None }.

Record ledger_inv (d : LedgerDB) : Prop := {
  li_sequences : map pe_sequence (events d) = seqZ 1 (last_sequence d);
  li_last_sequence : last_sequence d = Z.of_nat (length (events d));
  li_ids : map nt_id (all_notices d) = seqZ 1 (last_notice d);
  li_last_notice : last_notice d = Z.of_nat (length (notices d));
  li_keys : NoDup (map (λ n, (nt_trial n, nt_key n)) (all_notices d));
  li_deliveries : NoDup (map dr_id (deliveries d));
  li_stamps r : r ∈ deliveries d → is_Some (notice_at (dr_notice r) d) ∧ stamp (dr_claimed_at r) ∧ stamp (dr_deadline r) ∧
    instant (dr_claimed_at r) < instant (dr_deadline r);
  li_rows row : row ∈ notices d → row_inv d row }.

(** ** Changes *)

(** The instant a claim takes for the present. *)
Definition claim_time (utc_now : nat → Z) (now : option Stamp) (s : Ledger) (τ : Z) : Prop :=
  match given now with
  | Some v => _timestamp_datetime v = Ok (utc_of τ)
  | None => τ = utc_now (ld_ticks s)
  end.

Definition claimed (row : NoticeRow) (id : string) (τ lease : Z) (by_ : option string) (d : LedgerDB) : LedgerDB :=
  let n := nt_id (nr_notice row) in
  let deadline := isoformat (utc_of (τ + lease * 1000000)) in
  update_notice n (set_claim deadline by_ id) (insert_delivery {|
    dr_id := id; dr_notice := n; dr_claimed_at := isoformat (utc_of τ); dr_deadline := deadline;
    dr_attempt := attempts n d + 1; dr_claimed_by := by_; dr_delivered_at := None |} d).

Definition acknowledged (r : DeliveryRow) (at_ : string) (d : LedgerDB) : LedgerDB :=
  if bool_decide (dr_delivered_at r = None) then update_delivery (dr_id r) (set_acknowledged at_) d else d.

Definition receipt (id : string) (row : NoticeRow) (path : string) : mapping :=
  _payload_json [("delivery_id", VStr id); ("notice_id", VInt (nt_id (nr_notice row)));
                 ("notice_type", VStr (nt_type (nr_notice row))); ("path", VStr path)].

Inductive ledger_commit (utc_now : nat → Z) (op : LedgerOp) (s : Ledger) : LedgerDB → Prop :=
  | commit_same : ledger_commit utc_now op s (ld_db s)
  | commit_event trial type occurred recorded payload raw_trial raw_type raw_occurred raw_payload :
      op = OpAppend raw_trial raw_type raw_occurred raw_payload → type = str_strip raw_type →
      ledger_commit utc_now op s (insert_event trial type occurred recorded payload (ld_db s))
  | commit_notice trial type enqueued key payload : notice_keyed trial key (ld_db s) = None →
      ledger_commit utc_now op s (insert_notice trial type enqueued key payload (ld_db s))
  | commit_claim row id τ trial by_ lease now : op = OpClaim trial by_ lease now → claim_time utc_now now s τ →
      row ∈ notices (ld_db s) → undelivered (nr_notice row) = true →
      unclaimed (isoformat (utc_of τ)) (nr_notice row) = true →
      delivery_at id (ld_db s) = None → representable τ → representable (τ + lease * 1000000) → 0 < lease →
      ledger_commit utc_now op s (claimed row id τ lease by_ (ld_db s))
  | commit_receipt row r at_ recorded path : r ∈ deliveries (ld_db s) → row ∈ notices (ld_db s) →
      dr_notice r = nt_id (nr_notice row) → undelivered (nr_notice row) = true →
      ledger_commit utc_now op s
        (insert_event (nt_trial (nr_notice row)) "NOTICE_DELIVERED" at_ recorded (receipt (dr_id r) row path)
          (update_notice (dr_notice r) (set_delivered at_) (acknowledged r at_ (ld_db s))))
  | commit_again row r at_ : r ∈ deliveries (ld_db s) → row ∈ notices (ld_db s) →
      dr_notice r = nt_id (nr_notice row) → undelivered (nr_notice row) = false →
      ledger_commit utc_now op s (acknowledged r at_ (ld_db s)).

(** ** Rows *)

Lemma find_Some_elem {A} (p : A → bool) l x : List.find p l = Some x → x ∈ l ∧ p x = true.
Proof. intros [H1%list_elem_of_In H2]%find_some. done. Qed.

Lemma find_None_elem {A} (p : A → bool) l x : List.find p l = None → x ∈ l → p x = false.
Proof. intros H Hx%list_elem_of_In. by apply (find_none _ _ H). Qed.

Lemma find_app_first {A} (p : A → bool) l k x : List.find p l = Some x → List.find p (l ++ k) = Some x.
Proof. induction l as [|y l IH]; cbn; [done|]. by destruct (p y). Qed.

Lemma find_key {A K} `{EqDecision K} (key : A → K) l x : NoDup (map key l) → x ∈ l →
  List.find (λ y, bool_decide (key y = key x)) l = Some x.
Proof.
  induction l as [|y l IH]; cbn; intros Hn Hx; [by apply not_elem_of_nil in Hx|].
  apply NoDup_cons in Hn as [Hy Hn]. apply elem_of_cons in Hx as [->|Hx]; [by rewrite bool_decide_true|].
  rewrite bool_decide_false; [by apply IH|]. intros E. apply Hy. rewrite E. apply list_elem_of_fmap. eauto.
Qed.

Lemma filter_map_key {A} (p : A → bool) (f : A → A) (g : A → bool) l : (∀ x, p (f x) = p x) →
  List.filter p (map (λ x, if g x then f x else x) l) = map (λ x, if g x then f x else x) (List.filter p l).
Proof.
  intros Hf. induction l as [|x l IH]; [done|]. cbn. destruct (g x) eqn:E; rewrite ?Hf; destruct (p x); cbn; rewrite ?E, IH; done.
Qed.

Section inv.
Context (d : LedgerDB) (Hd : ledger_inv d).

Lemma ids_NoDup : NoDup (map (λ r, nt_id (nr_notice r)) (notices d)).
Proof. pose proof (li_ids d Hd) as H. unfold all_notices in H. rewrite map_map in H. rewrite H. apply NoDup_seqZ. Qed.

Lemma notice_at_elem row : row ∈ notices d → notice_at (nt_id (nr_notice row)) d = Some row.
Proof. apply (find_key (λ r, nt_id (nr_notice r))), ids_NoDup. Qed.

Lemma notice_at_Some id row : notice_at id d = Some row → row ∈ notices d ∧ nt_id (nr_notice row) = id.
Proof. intros [H1 H2%bool_decide_eq_true]%find_Some_elem. done. Qed.

Lemma delivery_at_elem r : r ∈ deliveries d → delivery_at (dr_id r) d = Some r.
Proof. apply (find_key dr_id), (li_deliveries d Hd). Qed.

Lemma delivery_at_Some id r : delivery_at id d = Some r → r ∈ deliveries d ∧ dr_id r = id.
Proof. intros [H1 H2%bool_decide_eq_true]%find_Some_elem. done. Qed.

Lemma delivery_at_None id : delivery_at id d = None → id ∉ map dr_id (deliveries d).
Proof.
  intros H (r & -> & Hr)%list_elem_of_fmap. apply (find_None_elem _ _ r) in H; [|done].
  cbv beta in H. by rewrite bool_decide_true in H.
Qed.

Lemma deliveries_of_elem id r : r ∈ deliveries_of id d ↔ r ∈ deliveries d ∧ dr_notice r = id.
Proof.
  unfold deliveries_of. rewrite !list_elem_of_In, filter_In, bool_decide_eq_true. done.
Qed.

Lemma attempts_length id : attempts id d = Z.of_nat (length (deliveries_of id d)).
Proof. reflexivity. Qed.

(** A notice was claimed until an instant. *)
Lemma claimed_until_stamp row t : row ∈ notices d → nt_claimed_until (nr_notice row) = Some t → stamp t.
Proof.
  intros Hrow Ht. destruct (li_rows d Hd row Hrow) as [Hu _ _ _]. rewrite Ht in Hu.
  destruct (last (deliveries_of _ d)) as [r|] eqn:E; [|done]. injection Hu as ->.
  apply last_Some_elem_of, deliveries_of_elem in E as [E _]. by apply (li_stamps d Hd r E).
Qed.
End inv.

(** ** Changes keep the invariant *)

Lemma seqZ_snoc m n : 0 <= n → seqZ m (n + 1) = seqZ m n ++ [m + n].
Proof. intros. by rewrite seqZ_app by lia. Qed.

Lemma row_inv_same d d' row : deliveries d' = deliveries d → row_inv d row → row_inv d' row.
Proof. intros E []. unfold deliveries_of in *. split; unfold deliveries_of; by rewrite E. Qed.

Lemma notice_at_same d d' id : map (λ r, nt_id (nr_notice r)) (notices d') = map (λ r, nt_id (nr_notice r)) (notices d) →
  is_Some (notice_at id d) → is_Some (notice_at id d').
Proof.
  intros E [row [Hin Hid%bool_decide_eq_true]%find_Some_elem]. unfold notice_at.
  destruct (List.find _ (notices d')) as [row'|] eqn:F; [by eexists|].
  assert (id ∈ map (λ r, nt_id (nr_notice r)) (notices d')) as (row' & Hr & Hin')%list_elem_of_fmap.
  { rewrite E. apply list_elem_of_fmap. eauto. }
  apply (find_None_elem _ _ row') in F; [|done]. apply bool_decide_eq_false in F. congruence.
Qed.

Lemma event_inv d trial type occurred recorded payload : ledger_inv d →
  ledger_inv (insert_event trial type occurred recorded payload d).
Proof.
  intros []. split; try done.
  - cbn. rewrite map_app, li_sequences0, seqZ_snoc by lia. cbn. by rewrite (Z.add_comm 1).
  - cbn. rewrite length_app, li_last_sequence0. cbn. lia.
  - intros row Hrow. by apply (row_inv_same d), li_rows0.
Qed.

(** Updating a notice's claim or receipt keeps its number and its key. *)
Definition keeps_identity (f : NoticeRow → NoticeRow) : Prop := ∀ r,
  nt_id (nr_notice (f r)) = nt_id (nr_notice r) ∧ nt_trial (nr_notice (f r)) = nt_trial (nr_notice r) ∧
  nt_key (nr_notice (f r)) = nt_key (nr_notice r).

Lemma map_update {A} (key : NoticeRow → A) id f d : (∀ r, key (f r) = key r) →
  map key (notices (update_notice id f d)) = map key (notices d).
Proof. intros Hf. cbn. rewrite map_map. apply map_ext. intros r. case_match; [apply Hf|done]. Qed.

Lemma elem_update_notice id f d row : row ∈ notices (update_notice id f d) →
  ∃ row0, row0 ∈ notices d ∧ row = (if bool_decide (nt_id (nr_notice row0) = id) then f row0 else row0).
Proof. cbn. intros (row0 & -> & Hrow)%list_elem_of_fmap. eauto. Qed.

Lemma update_notice_inv d id f : keeps_identity f → ledger_inv d →
  (∀ row, row ∈ notices d → nt_id (nr_notice row) = id → row_inv d (f row)) → ledger_inv (update_notice id f d).
Proof.
  intros Hf [] Hrow. split; try done.
  - unfold all_notices in *. rewrite map_map in *. rewrite map_update; [done|]. intros r. apply Hf.
  - cbn. by rewrite length_map.
  - unfold all_notices in *. rewrite map_map in *. rewrite map_update; [done|]. intros r. by destruct (Hf r) as (_ & -> & ->).
  - intros r Hr. destruct (li_stamps0 r Hr) as (Hn & Hs). split; [|done]. eapply notice_at_same; [|exact Hn].
    apply map_update. intros x. apply Hf.
  - intros row (row0 & Hrow0 & ->)%elem_update_notice. apply (row_inv_same d); [reflexivity|].
    case_bool_decide; [by apply Hrow|by apply li_rows0].
Qed.

Lemma notice_inv d trial type enqueued key payload : ledger_inv d → notice_keyed trial key d = None →
  ledger_inv (insert_notice trial type enqueued key payload d).
Proof.
  intros Hd Hkey. pose proof Hd as []. split; try done.
  - cbn. unfold all_notices in *. cbn. rewrite map_app, map_app, li_ids0, seqZ_snoc by lia. cbn. by rewrite (Z.add_comm 1).
  - cbn. rewrite length_app, li_last_notice0. cbn. lia.
  - unfold all_notices in *. cbn. rewrite !map_app. cbn. apply NoDup_app. split_and!; [done| |apply NoDup_singleton].
    intros x (n & -> & (row & -> & Hrow)%list_elem_of_fmap)%list_elem_of_fmap [= E1 E2]%list_elem_of_singleton.
    apply (find_None_elem _ _ row) in Hkey; [|done]. cbv beta in Hkey. by rewrite !bool_decide_true in Hkey.
  - intros r Hr. destruct (li_stamps0 r Hr) as ([row Hrow] & Hs). split; [|done]. exists row.
    unfold notice_at in *. cbn. by apply find_app_first.
  - intros row [Hrow| ->%list_elem_of_singleton]%elem_of_app; [by apply (row_inv_same d), li_rows0|].
    assert (deliveries_of (last_notice d + 1) d = []) as Hnil.
    { destruct (deliveries_of _ d) as [|r l] eqn:E; [done|]. exfalso.
      assert (r ∈ deliveries_of (last_notice d + 1) d) as [Hr Hid]%deliveries_of_elem by (rewrite E; apply list_elem_of_here).
      destruct (li_stamps0 r Hr) as ([row Hrow] & _). apply (notice_at_Some d) in Hrow as [Hrow Hrid].
      assert (last_notice d + 1 ∈ map nt_id (all_notices d)) as Hin.
      { rewrite <- Hid, <- Hrid. unfold all_notices. rewrite map_map. apply list_elem_of_fmap. eauto. }
      rewrite li_ids0 in Hin. apply elem_of_seqZ in Hin. lia. }
    split; cbn; unfold deliveries_of in *; cbn; rewrite Hnil; [done..|]. split; [|done]. by intros _ r ?%not_elem_of_nil.
Qed.

Lemma deliveries_of_insert id r d : deliveries_of id (insert_delivery r d) =
  deliveries_of id d ++ (if bool_decide (dr_notice r = id) then [r] else []).
Proof. unfold deliveries_of. cbn. rewrite List.filter_app. cbn. by case_match. Qed.

Lemma claimed_inv d row id τ lease by_ : ledger_inv d → row ∈ notices d → undelivered (nr_notice row) = true →
  delivery_at id d = None → representable τ → representable (τ + lease * 1000000) → 0 < lease →
  ledger_inv (claimed row id τ lease by_ d).
Proof.
  intros Hd Hrow Hu Hid Hτ Hx Hl. pose proof Hd as []. unfold claimed. set (n := nt_id (nr_notice row)).
  set (r := Build_DeliveryRow _ _ _ _ _ _ _). set (d1 := insert_delivery r d).
  assert (∀ k, deliveries_of k d1 = deliveries_of k d ++ (if bool_decide (n = k) then [r] else [])) as Hof
    by (intros k; apply deliveries_of_insert).
  (* Every row but the claimed one is as [row_inv] wants it in [d1]. *)
  assert (∀ x, x ∈ notices d → nt_id (nr_notice x) = n → row_inv d1 (set_claim (dr_deadline r) by_ id x)) as Hset.
  { intros x Hin Hxn. assert (x = row) as -> by (pose proof (notice_at_elem d Hd x Hin) as H1;
      pose proof (notice_at_elem d Hd row Hrow) as H2; subst n; rewrite Hxn in H1; congruence).
    destruct (li_rows0 row Hrow). fold n in rw_attempts0, rw_delivered0. split;
      cbn [set_claim nr_notice nt_id nt_claimed_until nr_latest nt_delivered_at]; fold n; rewrite Hof, (bool_decide_true (n = n)) by done.
    - by rewrite last_snoc.
    - by rewrite last_snoc.
    - rewrite map_app, rw_attempts0, length_app. cbn. rewrite Nat2Z.inj_add. cbn. rewrite seqZ_snoc by lia.
      rewrite attempts_length. by rewrite (Z.add_comm 1).
    - unfold undelivered in Hu. apply bool_decide_eq_true in Hu. split; [|done]. intros _ y [Hy| ->%list_elem_of_singleton]%elem_of_app; [|done].
      by apply rw_delivered0. }
  assert (∀ x, x ∈ notices d → nt_id (nr_notice x) ≠ n → row_inv d1 x) as Hother.
  { intros x Hin Hxn. destruct (li_rows0 x Hin). split; rewrite Hof, bool_decide_false, app_nil_r; congruence || done. }
  split; try done.
  - unfold all_notices in *. rewrite map_map in *. by rewrite map_update.
  - cbn. by rewrite length_map.
  - unfold all_notices in *. rewrite map_map in *. by rewrite map_update.
  - cbn. rewrite map_app. apply NoDup_app. split_and!; [done| |apply NoDup_singleton].
    intros x Hin ->%list_elem_of_singleton. cbn in Hin. by apply (delivery_at_None d) in Hid.
  - intros y Hy. assert (is_Some (notice_at (dr_notice y) d) ∧ stamp (dr_claimed_at y) ∧ stamp (dr_deadline y) ∧
      instant (dr_claimed_at y) < instant (dr_deadline y)) as [Hn Hs].
    { cbn in Hy. apply elem_of_app in Hy as [Hy| ->%list_elem_of_singleton]; [by apply li_stamps0|]. cbn. fold n.
      rewrite !instant_utc by done. split_and!; [|by apply stamp_utc..|lia]. exists row. by apply (notice_at_elem d Hd). }
    split; [|done]. apply (notice_at_same d1); [by apply map_update|exact Hn].
  - intros x (x0 & Hx0 & ->)%elem_update_notice. apply (row_inv_same d1); [reflexivity|].
    case_bool_decide as E; [by apply Hset|by apply Hother].
Qed.

Lemma deliveries_of_update id k f d : (∀ r, dr_notice (f r) = dr_notice r) →
  deliveries_of k (update_delivery id f d) = map (λ r, if bool_decide (dr_id r = id) then f r else r) (deliveries_of k d).
Proof.
  intros Hf. unfold deliveries_of, update_delivery. cbn.
  rewrite (filter_map_key (λ r, bool_decide (dr_notice r = k)) f (λ r, bool_decide (dr_id r = id))); [done|].
  intros x. by rewrite Hf.
Qed.

(** An acknowledged delivery is one whose receipt is known; nothing else changes. *)
Lemma acknowledged_facts d r at_ : ledger_inv d → r ∈ deliveries d →
  events (acknowledged r at_ d) = events d ∧ last_sequence (acknowledged r at_ d) = last_sequence d ∧
  notices (acknowledged r at_ d) = notices d ∧ last_notice (acknowledged r at_ d) = last_notice d ∧
  ∃ g, deliveries (acknowledged r at_ d) = map g (deliveries d) ∧
    (∀ k, deliveries_of k (acknowledged r at_ d) = map g (deliveries_of k d)) ∧
    (∀ x, dr_id (g x) = dr_id x ∧ dr_notice (g x) = dr_notice x ∧ dr_claimed_at (g x) = dr_claimed_at x ∧
       dr_deadline (g x) = dr_deadline x ∧ dr_attempt (g x) = dr_attempt x) ∧
    (∀ x, x ∈ deliveries d → dr_notice x ≠ dr_notice r → g x = x) ∧ dr_delivered_at (g r) ≠ None.
Proof.
  intros Hd Hr. unfold acknowledged. case_bool_decide as E.
  - split_and!; [done..|]. exists (λ x, if bool_decide (dr_id x = dr_id r) then set_acknowledged at_ x else x).
    split_and!; [done|intros k; by apply deliveries_of_update| | |].
    + intros x. by case_bool_decide.
    + intros x Hx Hn. rewrite bool_decide_false; [done|]. intros Hid. apply Hn.
      pose proof (delivery_at_elem d Hd x Hx) as H1. rewrite Hid, (delivery_at_elem d Hd r Hr) in H1. congruence.
    + by rewrite bool_decide_true.
  - split_and!; [done..|]. exists id. rewrite map_id. split_and!; try done. intros k. by rewrite map_id.
Qed.

Lemma map_key_id {A B} (key : A → B) (g : A → A) l : (∀ x, key (g x) = key x) → map key (map g l) = map key l.
Proof. intros Hg. rewrite map_map. by apply map_ext. Qed.

Lemma last_map_key {A B} (key : A → B) (g : A → A) l : (∀ x, key (g x) = key x) → key <$> last (map g l) = key <$> last l.
Proof. intros Hg. rewrite fmap_last. destruct (last l); cbn; by rewrite ?Hg. Qed.

(** Acknowledging a delivery of a notice whose row says it was delivered. *)
Lemma acknowledged_inv d r at_ f row : ledger_inv d → r ∈ deliveries d → row ∈ notices d →
  dr_notice r = nt_id (nr_notice row) → keeps_identity f →
  (nt_claimed_until (nr_notice (f row)) = nt_claimed_until (nr_notice row) ∧ nr_latest (f row) = nr_latest row ∧
   nt_delivered_at (nr_notice (f row)) ≠ None) →
  ledger_inv (update_notice (dr_notice r) f (acknowledged r at_ d)).
Proof.
  intros Hd Hr Hrow Hrn Hf (Hfu & Hfl & Hfd). pose proof Hd as [].
  destruct (acknowledged_facts d r at_ Hd Hr) as (Ee & Es & En & El & g & Eg & Ek & Hg & Hg' & Hgr).
  set (a := acknowledged r at_ d) in *.
  assert (∀ x x', nt_id (nr_notice x') = nt_id (nr_notice x) → nt_claimed_until (nr_notice x') = nt_claimed_until (nr_notice x) →
    nr_latest x' = nr_latest x → row_inv d x →
    (nt_delivered_at (nr_notice x') = None ↔ ∀ y, y ∈ map g (deliveries_of (nt_id (nr_notice x)) d) → dr_delivered_at y = None) →
    row_inv a x') as Hrows.
  { intros x x' E1 E2 E3 [] Hdel. split; rewrite E1, ?E2, ?E3, Ek.
    - rewrite last_map_key; [done|]. intros y. apply Hg.
    - rewrite last_map_key; [done|]. intros y. apply Hg.
    - rewrite map_key_id, length_map; [done|]. intros y. apply Hg.
    - done. }
  split.
  - cbn. by rewrite Ee, Es.
  - cbn. by rewrite Ee, Es.
  - unfold all_notices in *. rewrite map_map in *. rewrite map_update, En; [cbn; by rewrite El|]. intros y. apply Hf.
  - cbn. by rewrite length_map, En, El.
  - unfold all_notices in *. rewrite map_map in *. rewrite map_update, En; [done|]. intros y. by destruct (Hf y) as (_ & -> & ->).
  - cbn. rewrite Eg, map_key_id; [done|]. intros y. apply Hg.
  - cbn [update_notice deliveries]. rewrite Eg. intros y (y0 & -> & Hy)%list_elem_of_fmap. destruct (Hg y0) as (_ & -> & -> & -> & _).
    destruct (li_stamps0 y0 Hy) as (Hn & Hs). split; [|done]. eapply notice_at_same; [|exact Hn].
    rewrite map_update, En; [done|]. intros x. apply Hf.
  - intros x (x0 & Hx0 & ->)%(elem_update_notice (dr_notice r) f a). rewrite En in Hx0.
    apply (row_inv_same a); [reflexivity|]. case_bool_decide as E.
    + assert (x0 = row) as -> by (pose proof (notice_at_elem d Hd x0 Hx0) as H1;
        rewrite E, Hrn, (notice_at_elem d Hd row Hrow) in H1; congruence).
      apply (Hrows row); [apply Hf|done..|by apply li_rows0|]. split; [done|]. intros H. destruct Hgr. apply H.
      apply list_elem_of_fmap. exists r. split; [done|]. apply deliveries_of_elem. by split.
    + apply (Hrows x0); [done..|by apply li_rows0|]. destruct (li_rows0 x0 Hx0). rewrite rw_delivered0.
      assert (map g (deliveries_of (nt_id (nr_notice x0)) d) = deliveries_of (nt_id (nr_notice x0)) d) as ->; [|done].
      rewrite <- (map_id (deliveries_of _ d)) at 2. apply map_ext_in. intros y Hy%list_elem_of_In.
      apply deliveries_of_elem in Hy as [Hy Hyn]. apply Hg'; [done|]. congruence.
Qed.

Lemma update_notice_id id d : update_notice id (λ r, r) d = d.
Proof.
  destruct d as [e l n k dl]. unfold update_notice. cbn. f_equal. rewrite <- (map_id n) at 2. apply map_ext.
  intros r. by case_match.
Qed.

Lemma undelivered_false n : undelivered n = false ↔ nt_delivered_at n ≠ None.
Proof. unfold undelivered. by rewrite bool_decide_eq_false. Qed.

Lemma commit_ledger_inv utc_now op s d' : ledger_inv (ld_db s) → ledger_commit utc_now op s d' → ledger_inv d'.
Proof.
  intros Hd [ | | |row id τ trial by_ lease now _ _ Hrow Hu _ Hid Hτ Hx Hl|row r at_ recorded path Hr Hrow Hn _|row r at_ Hr Hrow Hn Hu].
  - done.
  - by apply event_inv.
  - by apply notice_inv.
  - by apply claimed_inv.
  - apply event_inv. by eapply acknowledged_inv.
  - rewrite <- (update_notice_id (dr_notice r)). eapply acknowledged_inv; try done.
    split_and!; [done..|]. by apply undelivered_false.
Qed.

Lemma empty_ledger_inv : ledger_inv empty_ledger.
Proof.
  split; cbn; try done; try by constructor.
  all: by intros ? ?%not_elem_of_nil.
Qed.

(** ** Where a program leaves the tables *)

Lemma transaction_eq {A} sqlite (body : prog Ledger A) s : transaction sqlite body s =
  match sqlite (ld_ticks s) with
  | Some e => (tick s, Err e)
  | None =>
      match body (tick s) with
      | (s2, Ok a) => match sqlite (ld_ticks s2) with
                      | Some e => ({| ld_db := ld_db s; ld_ticks := S (ld_ticks s2) |}, Err e)
                      | None => (tick s2, Ok a)
                      end
      | (s2, Err e) => ({| ld_db := ld_db s; ld_ticks := ld_ticks s2 |}, Err e)
      end
  end.
Proof.
  unfold transaction. rewrite prog_bind_eq. unfold answer at 1. destruct (sqlite (ld_ticks s)); [done|].
  rewrite prog_bind_eq. destruct (body (tick s)) as [s2 [a|e]]; [|done]. rewrite prog_bind_eq. unfold answer.
  by destruct (sqlite (ld_ticks s2)).
Qed.

Definition ends {A} (m : prog Ledger A) (s : Ledger) (C : LedgerDB → Prop) : Prop := C (ld_db (m s).1).

Definition looks {A} (m : prog Ledger A) : Prop := ∀ s, ld_db (m s).1 = ld_db s.

Create HintDb looks.

Section ends.
Context (utc_now : nat → Z) (uuid : nat → string) (sqlite : nat → option exn).
Context {A B : Type}.
Implicit Types (C : LedgerDB → Prop) (f : A → prog Ledger B).

Lemma ends_looks (m : prog Ledger A) s C : looks m → C (ld_db s) → ends m s C.
Proof. unfold ends. by intros ->. Qed.

Lemma ends_bind (m : prog Ledger A) f s C :
  (∀ s1 a, m s = (s1, Ok a) → ends (f a) s1 C) → (∀ s1 e, m s = (s1, Err e) → C (ld_db s1)) → ends (m ≫= f) s C.
Proof. unfold ends. rewrite prog_bind_eq. intros H1 H2. destruct (m s) as [s1 [a|e]] eqn:E; [by apply H1|by eapply H2]. Qed.

Lemma ends_lift r f s C : (∀ a, r = Ok a → ends (f a) s C) → C (ld_db s) → ends (lift r ≫= f) s C.
Proof. intros H1 H2. apply ends_bind; unfold lift; [by intros ? ? [= <- E]; apply H1|by intros ? ? [= <- _]]. Qed.

Lemma ends_looks_bind (m : prog Ledger A) f s C : looks m → (∀ s1 a, ld_db s1 = ld_db s → ends (f a) s1 C) →
  C (ld_db s) → ends (m ≫= f) s C.
Proof.
  intros Hm H1 H2. pose proof (Hm s) as Hs. apply ends_bind; intros s1 x E; rewrite E in Hs; cbn in Hs.
  - by apply H1.
  - by rewrite Hs.
Qed.

Lemma ends_transaction (body : prog Ledger A) f s C :
  (∀ s1 a, body (tick s) = (s1, Ok a) → ends (f a) (tick s1) C) → C (ld_db s) →
  ends (transaction sqlite body ≫= f) s C.
Proof.
  intros H1 H2. apply ends_bind; rewrite transaction_eq; intros s1 x; destruct (sqlite (ld_ticks s)); try done;
    try (by intros [= <- _]); destruct (body (tick s)) as [s2 [a|e]] eqn:E; try destruct (sqlite (ld_ticks s2)); try done.
  { intros [= <- <-]. by apply H1. }
  all: by intros [= <- _].
Qed.

Lemma looks_bind (m : prog Ledger A) f : looks m → (∀ a, looks (f a)) → looks (m ≫= f).
Proof. intros Hm Hf s. rewrite prog_bind_eq. specialize (Hm s). destruct (m s) as [s1 [a|e]]; [|done]. by rewrite Hf. Qed.
End ends.

Lemma looks_lift {A} (r : result A) : looks (lift r).
Proof. done. Qed.
Lemma looks_ret {A} (a : A) : looks (mret a).
Proof. done. Qed.
Lemma looks_read {A} (f : LedgerDB → A) : looks (read f).
Proof. done. Qed.
Lemma looks_answer o : looks (answer o).
Proof. done. Qed.
Lemma looks_now utc_now : looks (now_utc utc_now).
Proof. done. Qed.
Lemma looks_uuid uuid : looks (uuid4_hex uuid).
Proof. done. Qed.
#[export] Hint Resolve looks_bind looks_lift looks_ret looks_read looks_answer looks_now looks_uuid : looks.

Lemma looks_utc_now utc_now : looks (_utc_now utc_now).
Proof. unfold _utc_now. auto with looks. Qed.
Lemma looks_chmod chmod : looks (_chmod_sqlite_files chmod).
Proof. unfold _chmod_sqlite_files. auto with looks. Qed.
Lemma looks_statement {A} sqlite (f : LedgerDB → A) : looks (statement sqlite f).
Proof. unfold statement. auto with looks. Qed.
Lemma looks_current utc_now now : looks (current_datetime utc_now now).
Proof. unfold current_datetime. destruct (given now); auto with looks. Qed.
#[export] Hint Resolve looks_utc_now looks_chmod looks_statement looks_current : looks.
Lemma looks_current_text utc_now now : looks (current_text utc_now now).
Proof. unfold current_text. auto with looks. Qed.
#[export] Hint Resolve looks_current_text : looks.

Lemma looks_query sqlite after limit trial : looks (query sqlite after limit trial).
Proof. unfold query. auto 10 with looks. Qed.
Lemma looks_pending utc_now sqlite trial include now limit : looks (pending_notices utc_now sqlite trial include now limit).
Proof. unfold pending_notices. auto 10 with looks. Qed.

Lemma ends_silently {A} (m : prog Ledger A) s C : ends m s C → ends (silently m) s C.
Proof. unfold ends, silently. rewrite prog_bind_eq. by destruct (m s) as [s1 [a|e]]. Qed.

(** ** Statements that returned *)

Lemma read_Ok {A} (f : LedgerDB → A) s s' a : read f s = (s', Ok a) → s' = s ∧ a = f (ld_db s).
Proof. by intros [= <- <-]. Qed.
Lemma ledger_write_Ok f s s' u : write f s = (s', Ok u) → s' = {| ld_db := f (ld_db s); ld_ticks := ld_ticks s |}.
Proof. by intros [= <- _]. Qed.
Lemma ledger_now_Ok utc_now s s' t : _utc_now utc_now s = (s', Ok t) → s' = tick s ∧ t = isoformat (utc_of (utc_now (ld_ticks s))).
Proof. unfold _utc_now. rewrite prog_bind_eq. cbn. by intros [= <- <-]. Qed.
Lemma uuid_Ok uuid s s' x : uuid4_hex uuid s = (s', Ok x) → s' = tick s ∧ x = uuid (ld_ticks s).
Proof. by intros [= <- <-]. Qed.

(** [lstmts] opens every hypothesis that says a statement of the ledger returned. *)
Ltac lstmts :=
  repeat (run_inv; match goal with
  | H : read _ _ = (_, Ok _) |- _ => apply read_Ok in H as [-> H]; try subst
  | H : write _ _ = (_, Ok _) |- _ => apply ledger_write_Ok in H as ->
  | H : _utc_now _ _ = (_, Ok _) |- _ => apply ledger_now_Ok in H as [-> H]
  | H : uuid4_hex _ _ = (_, Ok _) |- _ => apply uuid_Ok in H as [-> H]
  end); run_inv.

(** A query of one Trial answers with events of the ledger. *)
Lemma query_found sqlite limit trial s s' found : query sqlite 0 limit (Some trial) s = (s', Ok found) →
  ∀ e, e ∈ found → e ∈ events (ld_db s) ∧ pe_trial e = str_strip trial.
Proof.
  intros Eq. pose proof (looks_query sqlite 0 limit (Some trial) s) as Hl. rewrite Eq in Hl.
  unfold query in Eq. run_inv. unfold answer in *. repeat match goal with H : (_, _) = (_, _) |- _ => injection H as <- ? end.
  unfold optional_text, _required_text, read, gets in *. cbv zeta in *. inv_ok.
  assert (a1 = Some (str_strip trial)) as ->.
  { destruct (nonempty _) in Ha1; [|done]. by injection Ha1 as <-. }
  injection Eq as <- <-. cbn in Hl. intros e He. unfold page in He. apply elem_of_take in He as (i & He & _).
  apply list_elem_of_lookup_2, elem_of_sort_by, list_elem_of_In, filter_In in He as [He Hsel].
  unfold selected, of_trial in Hsel. apply andb_true_iff in Hsel as [_ Hsel%bool_decide_eq_true].
  cbn in He. split; [by apply list_elem_of_In|done].
Qed.

(** What [append] does when it returns, and what it may have done when it raises. *)
Lemma append_effect utc_now sqlite chmod trial type occurred payload s :
  let grown s' e := events (ld_db s') = events (ld_db s) ++ [e] ∧ pe_trial e = str_strip trial ∧
    pe_type e = str_strip type ∧ pe_payload e = _payload_json payload in
  match append utc_now sqlite chmod trial type occurred payload s with
  | (s', Ok e) => grown s' e
  | (s', Err _) => ld_db s' = ld_db s ∨ ∃ e, grown s' e
  end.
Proof.
  cbv zeta. unfold append. destruct (_required_text "trial_id" trial) as [trial'|] eqn:E1; [|by left].
  erewrite run_lift by done. destruct (_required_text "event_type" type) as [type'|] eqn:E2; [|by left].
  erewrite run_lift by done. destruct (_timestamp_text occurred) as [at_|]; [|by left]. erewrite run_lift by done.
  assert (trial' = str_strip trial ∧ type' = str_strip type) as [-> ->].
  { unfold _required_text in *. cbv zeta in *. inv_ok. auto. }
  rewrite prog_bind_eq, transaction_eq. destruct (sqlite (ld_ticks s)); [by left|].
  rewrite prog_bind_eq. destruct (_utc_now utc_now (tick s)) as [s1 [recorded|]] eqn:Eu; [|by left].
  apply ledger_now_Ok in Eu as [-> _]. unfold write, modify, read, gets. rewrite !prog_bind_eq. cbn [ld_db ld_ticks tick mret prog_ret].
  destruct (sqlite _); [by left|]. rewrite prog_bind_eq.
  unfold _chmod_sqlite_files, answer. cbn [ld_ticks]. destruct (chmod _); [right|]; cbn; eauto.
Qed.

Section commits.
Context (utc_now : nat → Z) (uuid : nat → string) (sqlite chmod : nat → option exn).
Context (clock_ok : ∀ n, representable (utc_now n)).

#[local] Abbreviation commits op s := (ends (ledger_op utc_now uuid sqlite chmod op) s (ledger_commit utc_now op s)).

Lemma append_ends trial type occurred payload s : commits (OpAppend trial type occurred payload) s.
Proof.
  apply ends_silently. unfold append. apply ends_lift; [|constructor]. intros trial' Ht.
  apply ends_lift; [|constructor]. intros type' Htype. apply ends_lift; [|constructor]. intros occurred' _. cbv zeta.
  apply ends_transaction; [|constructor]. intros s1 e H. lstmts.
  apply ends_looks; [auto with looks|]. cbn. unfold _required_text in Htype. cbv zeta in Htype. inv_ok.
  by eapply commit_event.
Qed.

Lemma insert_ends op trial type key enqueued payload s s0 : ld_db s0 = ld_db s →
  ends (enqueue_insert sqlite chmod trial type key enqueued payload) s0 (ledger_commit utc_now op s).
Proof.
  intros Es. unfold enqueue_insert. apply ends_transaction; [|rewrite Es; constructor].
  intros s1 u H. lstmts.
  match goal with H : bool_decide _ = true |- _ => apply bool_decide_eq_true in H as Hnone end.
  apply ends_looks; [auto 10 with looks|]. cbn in *. rewrite Es in *. by apply commit_notice.
Qed.

Lemma enqueue_ends trial type payload key s : commits (OpEnqueue trial type payload key) s.
Proof.
  apply ends_silently. unfold enqueue_notice. do 2 (apply ends_lift; [|constructor]; intros ? _).
  apply ends_looks_bind; [destruct key as [k|]; [destruct (nonempty k)|]; auto with looks| |constructor].
  intros s1 key' E1. apply ends_lift; [|rewrite E1; constructor]. intros key'' _. cbv zeta.
  apply ends_looks_bind; [auto with looks| |rewrite E1; constructor]. intros s2 at_ E2.
  apply ends_looks_bind; [auto with looks| |rewrite E2, E1; constructor]. intros s3 [row|] E3.
  - apply ends_looks; [auto with looks|]. rewrite E3, E2, E1. constructor.
  - apply insert_ends. congruence.
Qed.

(** The time a claim or a receipt is given. *)
Lemma current_datetime_Ok now s s1 t : current_datetime utc_now now s = (s1, Ok t) →
  ∃ τ, t = utc_of τ ∧ representable τ ∧ claim_time utc_now now s τ ∧ ld_db s1 = ld_db s.
Proof.
  unfold current_datetime, claim_time. destruct (given now) as [v|].
  - intros [Ht ->]%lift_Ok_inv. assert (∃ τ, representable τ ∧ t = utc_of τ) as (τ & Hτ & ->).
    { unfold _timestamp_datetime in Ht. destruct v; inv_ok; eapply in_range_utc; try done; apply as_utc_is_utc. }
    eauto.
  - intros [= <- <-]. eauto 10.
Qed.

Lemma next_notice_row now trial d n : next_notice now trial d = Some n →
  ∃ row, row ∈ notices d ∧ nr_notice row = n ∧ available now trial n = true.
Proof.
  unfold next_notice, by_id. intros H%head_Some_elem_of. apply elem_of_sort_by in H.
  apply list_elem_of_In, filter_In in H as [H%list_elem_of_In Ha].
  unfold all_notices in H. apply list_elem_of_fmap in H as (row & -> & Hrow). eauto.
Qed.

Lemma plus_seconds_of τ lease t : plus_seconds (utc_of τ) lease = Ok t →
  t = utc_of (τ + lease * 1000000) ∧ representable (τ + lease * 1000000).
Proof.
  unfold plus_seconds, dt_in_range. cbn. case_match eqn:E; [|done]. intros [= <-]. split; [done|].
  apply andb_true_iff in E as [?%Z.leb_le ?%Z.ltb_lt]. by unfold representable.
Qed.

Lemma claim_ends trial by_ lease now s : ledger_inv (ld_db s) → commits (OpClaim trial by_ lease now) s.
Proof.
  intros Hd. apply ends_silently. unfold claim_notice. apply ends_lift; [|constructor].
  intros [] Hl%require_Ok%negb_true_iff%Z.leb_gt. apply ends_bind; [|].
  2:{ intros s1 e H. pose proof (looks_current utc_now now s) as E. rewrite H in E. cbn in E. rewrite E. constructor. }
  intros s1 t (τ & -> & Hτ & Htime & E1)%current_datetime_Ok. cbv zeta.
  apply ends_lift; [|rewrite E1; constructor]. intros deadline [-> Hx]%plus_seconds_of.
  apply ends_lift; [|rewrite E1; constructor]. intros trial' _.
  apply ends_transaction; [|rewrite E1; constructor]. intros s2 o H. lstmts. cbn [ld_db tick] in H.
  destruct (next_notice (isoformat (utc_of τ)) trial' (ld_db s1)) as [n|] eqn:En; lstmts.
  2:{ apply ends_looks; [auto with looks|]. cbn. rewrite E1. constructor. }
  apply ends_looks; [auto with looks|]. apply next_notice_row in En as (row & Hrow & <- & Ha).
  unfold available in Ha. rewrite !andb_true_iff in Ha. destruct Ha as [[Hu Hc] _].
  match goal with H : bool_decide (_ <$> _ = None) = true |- _ => apply bool_decide_eq_true, fmap_None in H as Hid end.
  cbn in *. rewrite E1 in *. by eapply (commit_claim _ _ _ row).
Qed.

Lemma joined_rows id trial d r row : joined id trial d = Some (r, row) →
  r ∈ deliveries d ∧ dr_id r = id ∧ notice_at (dr_notice r) d = Some row ∧ row ∈ notices d ∧
  nt_id (nr_notice row) = dr_notice r ∧ of_trial trial (nt_trial (nr_notice row)) = true.
Proof.
  unfold joined. destruct (delivery_at id d) as [r'|] eqn:Er; [|done]. cbn.
  destruct (notice_at (dr_notice r') d) as [n|] eqn:En; [|done]. cbn. case_match eqn:Et; [|done]. intros [= -> ->].
  apply (delivery_at_Some d) in Er as [Hr Hid]. pose proof En as [Hn Hnid]%(notice_at_Some d). done.
Qed.

(** [deliver_notice]'s transaction. *)
Definition deliver_body (id : string) (trial : option string) (timestamp path : string) : prog Ledger Notice :=
  found ← read (joined id trial);
  '(delivery, _) ← lift (opt_or_raise found KeyError id);
  when (bool_decide (dr_delivered_at delivery = None)) (write (update_delivery id (set_acknowledged timestamp))) ;;
  existing ← read (notice_at (dr_notice delivery));
  existing ← lift (opt_or_raise existing KeyError id);
  when (undelivered (nr_notice existing)) (
    write (update_notice (dr_notice delivery) (set_delivered timestamp)) ;;
    recorded ← _utc_now utc_now;
    write (insert_event (nt_trial (nr_notice existing)) "NOTICE_DELIVERED" timestamp recorded
      (_payload_json [("delivery_id", VStr id); ("notice_id", VInt (dr_notice delivery));
                      ("notice_type", VStr (nt_type (nr_notice existing))); ("path", VStr path)]))) ;;
  notice_row ← read (notice_at (dr_notice delivery));
  lift (nr_notice <$> opt_or_raise notice_row TypeError "'NoneType' object is not subscriptable").

Lemma deliver_body_Ok id trial timestamp path s s' n : deliver_body id trial timestamp path s = (s', Ok n) →
  ∃ r row, joined id trial (ld_db s) = Some (r, row) ∧
    nr_notice <$> notice_at (dr_notice r) (ld_db s') = Some n ∧
    ld_db s' = (if undelivered (nr_notice row)
      then insert_event (nt_trial (nr_notice row)) "NOTICE_DELIVERED" timestamp (isoformat (utc_of (utc_now (ld_ticks s))))
             (receipt id row path) (update_notice (dr_notice r) (set_delivered timestamp) (acknowledged r timestamp (ld_db s)))
      else acknowledged r timestamp (ld_db s)) ∧
    ld_ticks s' = (if undelivered (nr_notice row) then S (ld_ticks s) else ld_ticks s).
Proof.
  unfold deliver_body. intros H. lstmts. destruct (joined id trial (ld_db s)) as [[r row]|] eqn:Ej; [|done].
  injection Ha0 as <-. pose proof (joined_rows _ _ _ _ _ Ej) as (Hr & Hid & Hat & Hrow & Hn & _). lstmts.
  assert (ld_db s0 = acknowledged r timestamp (ld_db s) ∧ ld_ticks s0 = ld_ticks s) as [E0 Et0].
  { unfold acknowledged. apply when_Ok_inv in Ha as [(E & Ha)|[E ->]]; rewrite E; [|done].
    by rewrite (ledger_write_Ok _ _ _ _ Ha). }
  assert (a1 = row) as ->.
  { rewrite E0 in Ha0. unfold notice_at in Ha0, Hat. unfold acknowledged in Ha0.
    destruct (bool_decide _); cbn in Ha0; congruence. }
  exists r, row. split; [done|]. split; [by destruct (notice_at _ (ld_db s3)); cbn in *; congruence|].
  apply when_Ok_inv in Ha2 as [(E & Ha2)|[E ->]]; rewrite E; [|done]. lstmts. cbn [ld_db ld_ticks tick].
  unfold receipt. rewrite E0, Et0, Hn. split; [|done].
  match goal with E : ?t = isoformat _ |- context [?t] => rewrite E end. cbn [ld_ticks]. by rewrite Et0.
Qed.

Lemma deliver_ends delivery trial at_ path s : ledger_inv (ld_db s) → commits (OpDeliver delivery trial at_ path) s.
Proof.
  intros Hd. apply ends_silently. unfold deliver_notice. apply ends_lift; [|constructor]. intros id _.
  apply ends_looks_bind; [auto with looks| |constructor]. intros s1 timestamp E1.
  apply ends_transaction; [|rewrite E1; constructor]. intros s2 n H. apply ends_looks; [auto with looks|].
  apply deliver_body_Ok in H as (r & row & Hj & _ & E & _).
  change (ld_db (tick s2)) with (ld_db s2). rewrite E. change (ld_db (tick s1)) with (ld_db s1) in *. rewrite E1 in *.
  apply joined_rows in Hj as (Hr & <- & _ & Hrow & Hn & _).
  destruct (undelivered (nr_notice row)) eqn:Hu; [by eapply commit_receipt|by eapply commit_again].
Qed.

(** Every call leaves the tables as [ledger_commit] says. *)
Lemma ledger_op_commits op s : ledger_inv (ld_db s) →
  ledger_commit utc_now op s (ld_db (ledger_op utc_now uuid sqlite chmod op s).1).
Proof.
  intros Hd. destruct op.
  - apply append_ends.
  - apply ends_silently, ends_looks; [apply looks_query|constructor].
  - apply enqueue_ends.
  - by apply ends_silently, insert_ends.
  - apply ends_silently, ends_looks; [apply looks_pending|constructor].
  - by apply claim_ends.
  - by apply deliver_ends.
Qed.

Lemma ledger_reach_inv allowed s : ledger_reach utc_now uuid sqlite chmod allowed s → ledger_inv (ld_db s).
Proof.
  induction 1 as [ticks|s op _ IH _]; [apply empty_ledger_inv|].
  eapply commit_ledger_inv; [exact IH|]. by apply ledger_op_commits.
Qed.
End commits.
