(* ===== verification/PlatformLedgerProps.v ===== *)
(** * What the platform ledger promises

    Theorems on every ledger that can be reached, whatever it is asked and whatever SQLite
    and the file system answer. *)

From S2P Require Import Prelude Hoare PyFloat PyVal PyTime PyIso PyIsoOrder PyStamp PlatformLedger PlatformLedgerInv.

#[local] Open Scope Z_scope.

(** ** One change *)

(** Rows of [d'] are the rows of [d], one of them updated, or one appended. *)
Lemma update_notice_elem id f d row : row ∈ notices d → nt_id (nr_notice row) ≠ id → row ∈ notices (update_notice id f d).
Proof.
  intros Hrow Hid. cbn. apply list_elem_of_fmap. exists row. split; [|done]. by rewrite bool_decide_false.
Qed.

Lemma update_notice_updated id f d row : row ∈ notices d → nt_id (nr_notice row) = id → f row ∈ notices (update_notice id f d).
Proof.
  intros Hrow Hid. cbn. apply list_elem_of_fmap. exists row. split; [|done]. by rewrite bool_decide_true.
Qed.

Lemma same_row d row row' : ledger_inv d → row ∈ notices d → row' ∈ notices d →
  nt_id (nr_notice row) = nt_id (nr_notice row') → row = row'.
Proof.
  intros Hd H1 H2 E. apply (notice_at_elem d Hd) in H1. apply (notice_at_elem d Hd) in H2. rewrite E in H1. congruence.
Qed.

Lemma acknowledged_notices r at_ d : notices (acknowledged r at_ d) = notices d.
Proof. unfold acknowledged. by case_bool_decide. Qed.
Lemma acknowledged_events r at_ d : events (acknowledged r at_ d) = events d.
Proof. unfold acknowledged. by case_bool_decide. Qed.

(** What a call may do to one notice's row. *)
Inductive row_change (utc_now : nat → Z) (op : LedgerOp) (s : Ledger) (row : NoticeRow) : NoticeRow → Prop :=
  | row_kept : row_change utc_now op s row row
  | row_claimed τ id trial by_ lease now : op = OpClaim trial by_ lease now → claim_time utc_now now s τ →
      undelivered (nr_notice row) = true → unclaimed (isoformat (utc_of τ)) (nr_notice row) = true → representable τ →
      row_change utc_now op s row (set_claim (isoformat (utc_of (τ + lease * 1000000))) by_ id row)
  | row_delivered at_ : undelivered (nr_notice row) = true →
      row_change utc_now op s row (set_delivered at_ row).

Lemma commit_row utc_now op s d' row : ledger_inv (ld_db s) → ledger_commit utc_now op s d' → row ∈ notices (ld_db s) →
  ∃ row', row' ∈ notices d' ∧ row_change utc_now op s row row'.
Proof.
  intros Hd Hc Hrow.
  destruct Hc as [ | | |row0 id τ trial by_ lease now Hop Hτ Hrow0 Hu Hun _ Hr _ _|row0 r at_ recorded path _ Hrow0 Hn Hu|row0 r at_ _ _ _ _].
  - exists row. split; [done|constructor].
  - exists row. split; [done|constructor].
  - exists row. split; [cbn; apply elem_of_app; by left|constructor].
  - destruct (decide (nt_id (nr_notice row) = nt_id (nr_notice row0))) as [E|E].
    + apply (same_row _ _ _ Hd Hrow Hrow0) in E as ->. eexists. split; [by apply update_notice_updated|]. by eapply row_claimed.
    + exists row. split; [by apply update_notice_elem|constructor].
  - destruct (decide (nt_id (nr_notice row) = nt_id (nr_notice row0))) as [E|E].
    + apply (same_row _ _ _ Hd Hrow Hrow0) in E as ->. eexists. split; [|by apply row_delivered]. cbn [insert_event notices].
      apply update_notice_updated; [by rewrite acknowledged_notices|done].
    + exists row. split; [|constructor]. cbn [insert_event notices]. apply update_notice_elem; [by rewrite acknowledged_notices|congruence].
  - exists row. rewrite acknowledged_notices. split; [done|constructor].
Qed.

(** The rows after a call come from rows before it or are new. *)
Lemma commit_row_back utc_now op s d' row' : ledger_inv (ld_db s) → ledger_commit utc_now op s d' → row' ∈ notices d' →
  (∃ row, row ∈ notices (ld_db s) ∧ row_change utc_now op s row row') ∨
  (nt_id (nr_notice row') = last_notice (ld_db s) + 1 ∧ undelivered (nr_notice row') = true ∧
   events d' = events (ld_db s)).
Proof.
  intros Hd Hc.
  destruct Hc as [ | | |row0 id τ trial by_ lease now Hop Hτ Hrow0 Hu Hun _ Hr _ _|row0 r at_ recorded path _ Hrow0 Hn Hu|row0 r at_ _ _ _ _];
    intros Hrow'; try (left; exists row'; split; [done|constructor]).
  - apply elem_of_app in Hrow' as [Hin|E%list_elem_of_singleton]; [left; exists row'; split; [done|constructor]|right; by subst row'].
  - left. apply elem_update_notice in Hrow' as (row & Hrow & ->). exists row. split; [done|]. case_bool_decide as E; [|constructor].
    apply (same_row _ _ _ Hd Hrow Hrow0) in E as ->. by eapply row_claimed.
  - left. apply (elem_update_notice (dr_notice r)) in Hrow' as (row & Hrow & ->). rewrite acknowledged_notices in Hrow.
    exists row. split; [done|]. case_bool_decide as E; [|constructor]. rewrite Hn in E.
    apply (same_row _ _ _ Hd Hrow Hrow0) in E as ->. by apply row_delivered.
  - left. rewrite acknowledged_notices in Hrow'. exists row'. split; [done|constructor].
Qed.

Section promises.
Context (utc_now : nat → Z) (uuid : nat → string) (sqlite chmod : nat → option exn).
Context (clock_ok : ∀ n, representable (utc_now n)).

#[local] Abbreviation reachable := (ledger_reach utc_now uuid sqlite chmod any_op).
#[local] Abbreviation after op s := ((ledger_op utc_now uuid sqlite chmod op s).1).

Lemma commits_of op s : ledger_inv (ld_db s) → ledger_commit utc_now op s (ld_db (after op s)).
Proof. by apply ledger_op_commits. Qed.

(** A call appends at most one event, and events are numbered from 1 without gaps. *)
Theorem events_append_only s op : reachable s →
  (∃ new, events (ld_db (after op s)) = events (ld_db s) ++ new ∧ (length new <= 1)%nat) ∧
  map pe_sequence (events (ld_db (after op s))) = seqZ 1 (Z.of_nat (length (events (ld_db (after op s))))).
Proof.
  intros Hd%(ledger_reach_inv _ _ _ _ clock_ok). pose proof (commits_of op s Hd) as Hc. split.
  - destruct Hc; rewrite ?acknowledged_events; try (exists []; rewrite app_nil_r; split; [done|cbn; lia]).
    + eexists [_]. split; [done|cbn; lia].
    + exists [Build_PlatformEvent (last_sequence (acknowledged r at_ (ld_db s)) + 1) (nt_trial (nr_notice row)) "NOTICE_DELIVERED" at_
        recorded (receipt (dr_id r) row path)]. split; [|cbn; lia]. cbn [insert_event events update_notice]. by rewrite acknowledged_events.
  - apply (commit_ledger_inv _ _ _ _ Hd) in Hc as []. by rewrite li_sequences, li_last_sequence.
Qed.

(** No call changes a delivered notice. *)
Theorem delivered_notice_final s op row : reachable s → row ∈ notices (ld_db s) →
  nt_delivered_at (nr_notice row) ≠ None → row ∈ notices (ld_db (after op s)).
Proof.
  intros Hd%(ledger_reach_inv _ _ _ _ clock_ok) Hrow Hdel%undelivered_false.
  destruct (commit_row _ _ _ _ row Hd (commits_of op s Hd) Hrow) as (row' & Hrow' & Hc).
  destruct Hc; [done|congruence..].
Qed.

(** A claim of a notice stays as it is through every call but a claim made at or after its
    deadline: two readers never hold a live claim of one notice. *)
Theorem claim_kept s op row t : reachable s → row ∈ notices (ld_db s) → nt_claimed_until (nr_notice row) = Some t →
  ∃ row', row' ∈ notices (ld_db (after op s)) ∧ nt_id (nr_notice row') = nt_id (nr_notice row) ∧
    ((nt_claimed_until (nr_notice row') = Some t ∧ nr_latest row' = nr_latest row) ∨
     ∃ trial by_ lease now τ, op = OpClaim trial by_ lease now ∧ claim_time utc_now now s τ ∧ instant t <= τ ∧
       nt_delivered_at (nr_notice row) = None).
Proof.
  intros Hd%(ledger_reach_inv _ _ _ _ clock_ok) Hrow Ht.
  destruct (commit_row _ _ _ _ row Hd (commits_of op s Hd) Hrow) as (row' & Hrow' & Hc).
  exists row'. split; [done|]. destruct Hc as [|τ id trial by_ lease now Hop Hτ Hu Hun Hr|at_ _]; [by auto| |by auto].
  split; [done|]. right. exists trial, by_, lease, now, τ. split_and!; [done..| |by apply bool_decide_eq_true in Hu].
  unfold unclaimed in Hun. rewrite Ht in Hun. pose proof (claimed_until_stamp _ Hd row t Hrow Ht) as Hst.
  rewrite str_leb_stamps, instant_utc in Hun by (done || by apply stamp_utc). by apply Z.leb_le in Hun.
Qed.

(** ** Receipts *)

(** Nobody but [deliver_notice] records receipts. *)
Definition no_forgery (op : LedgerOp) : Prop :=
  match op with OpAppend _ type _ _ => str_strip type ≠ "NOTICE_DELIVERED" | _ => True end.

Definition is_receipt (e : PlatformEvent) : bool := bool_decide (pe_type e = "NOTICE_DELIVERED").
Definition about (id : Z) (e : PlatformEvent) : bool :=
  match vget (pe_payload e) "notice_id" with VInt z => z =? id | _ => false end.
Definition receipts_of (id : Z) (d : LedgerDB) : list PlatformEvent :=
  List.filter (λ e, is_receipt e && about id e) (events d).

(** A notice that was delivered has one receipt, for one of its deliveries; another has none. *)
Definition receipt_ok (d : LedgerDB) (row : NoticeRow) : Prop :=
  if undelivered (nr_notice row) then receipts_of (nt_id (nr_notice row)) d = []
  else ∃ e r path, receipts_of (nt_id (nr_notice row)) d = [e] ∧ pe_trial e = nt_trial (nr_notice row) ∧
    nt_delivered_at (nr_notice row) = Some (pe_occurred_at e) ∧ r ∈ deliveries d ∧
    dr_notice r = nt_id (nr_notice row) ∧ pe_payload e = receipt (dr_id r) row path.

Definition receipts_inv (d : LedgerDB) : Prop :=
  (∀ row, row ∈ notices d → receipt_ok d row) ∧
  ∀ id e, e ∈ receipts_of id d → ∃ row, row ∈ notices d ∧ nt_id (nr_notice row) = id.

Lemma receipt_about id row path e k : pe_payload e = receipt id row path →
  about k e = (nt_id (nr_notice row) =? k).
Proof. unfold about, receipt, _payload_json, vget. intros ->. by rewrite dget_sort_mapping. Qed.

Lemma receipts_insert id trial type occurred recorded payload d :
  receipts_of id (insert_event trial type occurred recorded payload d) = receipts_of id d ++
    List.filter (λ e, is_receipt e && about id e) [{| pe_sequence := last_sequence d + 1; pe_trial := trial; pe_type := type;
                            pe_occurred_at := occurred; pe_recorded_at := recorded; pe_payload := payload |}].
Proof. unfold receipts_of. cbn [insert_event events]. apply List.filter_app. Qed.

Lemma receipts_same id d d' : events d' = events d → receipts_of id d' = receipts_of id d.
Proof. unfold receipts_of. by intros ->. Qed.

(** A call that records no receipt. *)
Lemma receipts_kept utc op s d' : ledger_inv (ld_db s) → receipts_inv (ld_db s) → ledger_commit utc op s d' →
  (∀ id, receipts_of id d' = receipts_of id (ld_db s)) →
  (∀ row row', row_change utc op s row row' → row' ∈ notices d' → row ∈ notices (ld_db s) →
     undelivered (nr_notice row') = undelivered (nr_notice row)) →
  (∀ r, r ∈ deliveries (ld_db s) → ∃ r', r' ∈ deliveries d' ∧ dr_id r' = dr_id r ∧ dr_notice r' = dr_notice r) →
  receipts_inv d'.
Proof.
  intros Hd [Hok Hex] Hc He Hu Hdel. split.
  - intros row' Hrow'. destruct (commit_row_back _ _ _ _ row' Hd Hc Hrow') as [(row & Hrow & Hch)|(Hid & Hun & _)].
    + specialize (Hok row Hrow). unfold receipt_ok in *. rewrite (Hu row row' Hch Hrow' Hrow).
      assert (nt_id (nr_notice row') = nt_id (nr_notice row) ∧ nt_trial (nr_notice row') = nt_trial (nr_notice row) ∧
        nt_type (nr_notice row') = nt_type (nr_notice row) ∧
        (undelivered (nr_notice row) = false → nt_delivered_at (nr_notice row') = nt_delivered_at (nr_notice row))) as (Enum & Etr & Et & Edel)
        by (destruct Hch; split_and!; try done; congruence).
      rewrite Enum, Etr, He. destruct (undelivered (nr_notice row)) eqn:E; [done|].
      destruct Hok as (e & r & path & H1 & H2 & H3 & H4 & H5 & H6). destruct (Hdel r H4) as (r' & Hr' & Eid & En).
      exists e, r', path. rewrite Edel by done. split_and!; try done; [congruence|]. rewrite H6, Eid. unfold receipt. by rewrite Et, Enum.
    + unfold receipt_ok. rewrite Hun, He. destruct (receipts_of _ _) as [|e l] eqn:E; [done|]. exfalso.
      destruct (Hex (nt_id (nr_notice row')) e) as (row & Hrow & Hi); [rewrite E; apply list_elem_of_here|].
      assert (nt_id (nr_notice row) ∈ map nt_id (all_notices (ld_db s))) as Hin.
      { unfold all_notices. rewrite map_map. apply list_elem_of_fmap. eauto. }
      rewrite (li_ids _ Hd) in Hin. apply elem_of_seqZ in Hin. lia.
  - intros id e Hin. rewrite He in Hin. destruct (Hex id e Hin) as (row & Hrow & <-).
    destruct (commit_row _ _ _ _ row Hd Hc Hrow) as (row' & Hrow' & Hch). exists row'. split; [done|]. by destruct Hch.
Qed.

Lemma acknowledged_deliveries r at_ d r0 : ledger_inv d → r ∈ deliveries d → r0 ∈ deliveries d →
  ∃ r', r' ∈ deliveries (acknowledged r at_ d) ∧ dr_id r' = dr_id r0 ∧ dr_notice r' = dr_notice r0.
Proof.
  intros Hd Hr Hr0. destruct (acknowledged_facts d r at_ Hd Hr) as (_ & _ & _ & _ & g & -> & _ & Hg & _).
  exists (g r0). split; [apply list_elem_of_fmap; eauto|]. by destruct (Hg r0) as (-> & -> & _).
Qed.

(** The call that delivers a notice records its receipt. *)
Lemma receipts_recorded op s row r at_ recorded path : ledger_inv (ld_db s) → receipts_inv (ld_db s) →
  r ∈ deliveries (ld_db s) → row ∈ notices (ld_db s) → dr_notice r = nt_id (nr_notice row) → undelivered (nr_notice row) = true →
  let d' := insert_event (nt_trial (nr_notice row)) "NOTICE_DELIVERED" at_ recorded (receipt (dr_id r) row path)
    (update_notice (dr_notice r) (set_delivered at_) (acknowledged r at_ (ld_db s))) in
  ledger_commit utc_now op s d' → receipts_inv d'.
Proof.
  cbv zeta.
  intros Hd [Hok Hex] Hrr Hrow Hn Hu Hc. split.
  - intros row' Hrow'. cbn [insert_event notices] in Hrow'.
    apply (elem_update_notice (dr_notice r)) in Hrow' as (x & Hx & ->). rewrite acknowledged_notices in Hx.
    specialize (Hok x Hx). unfold receipt_ok in *. case_bool_decide as E.
    + rewrite Hn in E. apply (same_row _ _ _ Hd Hx Hrow) in E as ->. rewrite Hu in Hok. cbn [set_delivered nr_notice nt_id nt_trial nt_delivered_at].
      unfold undelivered at 1. cbn [nt_delivered_at]. rewrite bool_decide_false by done.
      destruct (acknowledged_deliveries r at_ (ld_db s) r Hd Hrr Hrr) as (r' & Hr' & Eid & En).
      eexists _, r', path. rewrite receipts_insert, (receipts_same _ (ld_db s)) by apply acknowledged_events. rewrite Hok.
      cbn [app List.filter]. unfold is_receipt at 1. cbn [pe_type]. rewrite bool_decide_true by done.
      erewrite receipt_about by reflexivity. rewrite Z.eqb_refl. cbn [andb]. split_and!; try done; [congruence|].
      cbn [pe_payload]. by rewrite Eid.
    + rewrite receipts_insert, (receipts_same _ (ld_db s)) by apply acknowledged_events.
      cbn [app List.filter]. erewrite receipt_about by reflexivity. rewrite (proj2 (Z.eqb_neq _ _)) by congruence.
      rewrite andb_false_r, app_nil_r. destruct (undelivered (nr_notice x)); [done|].
      destruct Hok as (e & r0 & path0 & H1 & H2 & H3 & H4 & H5 & H6).
      destruct (acknowledged_deliveries r at_ (ld_db s) r0 Hd Hrr H4) as (r' & Hr' & Eid & En).
      exists e, r', path0. split_and!; try done; [congruence|]. by rewrite H6, Eid.
  - intros id e. rewrite receipts_insert, (receipts_same _ (ld_db s)) by apply acknowledged_events.
    intros [Hin|Hin]%elem_of_app.
    + destruct (Hex id e Hin) as (x & Hx & <-). destruct (commit_row _ _ _ _ x Hd Hc Hx) as (x' & Hx' & Hch).
      exists x'. split; [done|]. by destruct Hch.
    + destruct (commit_row _ _ _ _ row Hd Hc Hrow) as (x' & Hx' & Hch). exists x'. split; [done|].
      assert (nt_id (nr_notice x') = nt_id (nr_notice row)) as -> by by destruct Hch.
      apply list_elem_of_In, filter_In in Hin as [Hin Ha]. destruct Hin as [<-|[]].
      apply andb_true_iff in Ha as [_ Ha]. erewrite receipt_about in Ha by reflexivity. by apply Z.eqb_eq in Ha.
Qed.

Lemma commit_receipts op s d' : no_forgery op → ledger_inv (ld_db s) → receipts_inv (ld_db s) →
  ledger_commit utc_now op s d' → receipts_inv d'.
Proof.
  intros Hop Hd Hr Hc. pose proof Hc as Hc0.
  destruct Hc as [ |trial type occurred recorded payload rt ry ro rp Eop Ety| |row id τ trial by_ lease now Eop _ Hrow Hu _ _ _ _ _
    |row r at_ recorded path Hrr Hrow Hn Hu|row r at_ Hrr Hrow Hn Hu].
  - done.
  - eapply receipts_kept; [done..| | |by eauto].
    + intros id. rewrite receipts_insert. cbn. unfold is_receipt. cbn. subst op. cbn in Hop.
      rewrite bool_decide_false by congruence. by rewrite app_nil_r.
    + intros x x' Hch Hin Hx. destruct Hch; [done|done|]. cbn in Hin. by rewrite (same_row _ _ _ Hd Hin Hx eq_refl).
  - eapply receipts_kept; [done..| |by eauto]. intros x x' Hch Hin Hx. destruct Hch as [|τ id tr by_ l nw -> |]; [done|done|].
    cbn in Hin. apply elem_of_app in Hin as [Hin|E%list_elem_of_singleton]; [by rewrite (same_row _ _ _ Hd Hin Hx eq_refl)|].
    apply (f_equal (λ r, nt_delivered_at (nr_notice r))) in E. done.
  - eapply receipts_kept; [done..| |].
    + intros x x' Hch Hin Hx. destruct Hch as [| |at_ Hux]; [done|done|]. exfalso. apply elem_update_notice in Hin as (y & Hy & E).
      unfold undelivered in Hu, Hux. apply bool_decide_eq_true in Hu, Hux.
      apply (f_equal (λ r, nt_delivered_at (nr_notice r))) in E as E'. apply (f_equal (λ r, nt_id (nr_notice r))) in E.
      assert (y = x) as -> by (apply (same_row _ _ _ Hd); [done..|]; revert E; cbn; by case_bool_decide).
      revert E'. cbn. case_bool_decide; cbn; congruence.
    + intros r0 Hr0. exists r0. split; [|done]. cbn. apply elem_of_app. by left.
  - by eapply receipts_recorded.
  - eapply receipts_kept; [done..| | |].
    + intros id. by apply receipts_same, acknowledged_events.
    + intros x x' Hch Hin Hx. rewrite acknowledged_notices in Hin. destruct Hch; [done|done|]. by rewrite (same_row _ _ _ Hd Hin Hx eq_refl).
    + intros r0 Hr0. by apply acknowledged_deliveries.
Qed.

(** C22: In every ledger that can be reached without forged receipts, a delivered notice has
    exactly one NOTICE_DELIVERED event, of its own Trial, naming one of its deliveries and
    its time, and an undelivered notice has none. *)
Theorem one_receipt_per_delivery s row : ledger_reach utc_now uuid sqlite chmod no_forgery s → row ∈ notices (ld_db s) →
  receipt_ok (ld_db s) row.
Proof.
  intros Hs Hrow. cut (receipts_inv (ld_db s)); [by intros [H _]; apply H|]. clear row Hrow.
  induction Hs as [ticks|s op Hs IH Hop]; [split; [by intros ? ?%not_elem_of_nil|by intros ? ? ?%not_elem_of_nil]|].
  pose proof (ledger_reach_inv _ _ _ _ clock_ok _ _ Hs) as Hd.
  eapply commit_receipts; [exact Hop|exact Hd|exact IH|by apply commits_of].
Qed.

(** ** Claims *)

(** The notice could be handed out at the instant [τ]. *)
Definition waiting (trial : option string) (τ : Z) (row : NoticeRow) : Prop :=
  nt_delivered_at (nr_notice row) = None ∧ of_trial trial (nt_trial (nr_notice row)) = true ∧
  ∀ t, nt_claimed_until (nr_notice row) = Some t → instant t <= τ.

Lemma available_waiting d row trial τ : ledger_inv d → row ∈ notices d → representable τ →
  available (isoformat (utc_of τ)) trial (nr_notice row) = true ↔ waiting trial τ row.
Proof.
  intros Hd Hrow Hτ. unfold available, waiting, undelivered, unclaimed.
  rewrite !andb_true_iff, bool_decide_eq_true. destruct (nt_claimed_until (nr_notice row)) as [t|] eqn:Et.
  - rewrite str_leb_stamps, instant_utc by (done || (by apply stamp_utc) || by eapply claimed_until_stamp).
    rewrite Z.leb_le. naive_solver.
  - naive_solver.
Qed.

Lemma head_None_nil {A} (l : list A) : head l = None → l = [].
Proof. by destruct l. Qed.

(** The query of a claim. *)
Lemma next_notice_spec d trial τ : ledger_inv d → representable τ →
  match next_notice (isoformat (utc_of τ)) trial d with
  | Some n => ∃ row, row ∈ notices d ∧ nr_notice row = n ∧ waiting trial τ row ∧
      ∀ other, other ∈ notices d → waiting trial τ other → nt_id n <= nt_id (nr_notice other)
  | None => ∀ row, row ∈ notices d → ¬ waiting trial τ row
  end.
Proof.
  intros Hd Hτ. assert (∀ row, row ∈ notices d → waiting trial τ row →
    nr_notice row ∈ List.filter (available (isoformat (utc_of τ)) trial) (all_notices d)) as Hin.
  { intros row Hrow Hw%(available_waiting _ _ _ _ Hd Hrow Hτ). apply list_elem_of_In, filter_In.
    split; [|done]. apply list_elem_of_In, list_elem_of_fmap. eauto. }
  destruct (next_notice _ trial d) as [n|] eqn:E.
  - pose proof (next_notice_row _ _ _ _ E) as (row & Hrow & <- & Ha). exists row. split_and!; [done..|by apply (available_waiting d)|].
    intros other Ho Hw. unfold next_notice, by_id in E.
    apply (head_sort_by _ nt_id) in E as [_ E]; [by apply E, Hin|done].
  - intros row Hrow Hw. specialize (Hin row Hrow Hw). unfold next_notice, by_id in E. apply head_None_nil in E.
    rewrite <- (elem_of_sort_by (λ a b, nt_id a <=? nt_id b)), E in Hin. by apply not_elem_of_nil in Hin.
Qed.

Lemma claimed_notice row id τ lease by_ d : ledger_inv d → row ∈ notices d →
  notice_at (nt_id (nr_notice row)) (claimed row id τ lease by_ d) =
  Some (set_claim (isoformat (utc_of (τ + lease * 1000000))) by_ id row).
Proof.
  intros Hd Hrow. unfold notice_at, claimed. cbn [update_notice notices insert_delivery].
  pose proof (ids_NoDup d Hd) as Hn. revert Hrow Hn. induction (notices d) as [|x l IH]; cbn; [by intros ?%not_elem_of_nil|].
  intros [<-|Hrow]%elem_of_cons [Hx Hn]%NoDup_cons.
  - rewrite (bool_decide_true (nt_id (nr_notice row) = nt_id (nr_notice row))) by done. cbn. by rewrite bool_decide_true.
  - assert (nt_id (nr_notice x) ≠ nt_id (nr_notice row)) as Hne.
    { intros E. apply Hx. rewrite E. apply list_elem_of_fmap. eauto. }
    rewrite (bool_decide_false _ Hne), (bool_decide_false _ Hne). by apply IH.
Qed.

Lemma claim_Ok trial by_ lease now s s' o : ledger_inv (ld_db s) →
  claim_notice utc_now uuid sqlite chmod trial by_ lease now s = (s', Ok o) →
  ∃ τ trial', optional_text "trial_id" trial = Ok trial' ∧ claim_time utc_now now s τ ∧ representable τ ∧ 0 < lease ∧
    match o with
    | None => ld_db s' = ld_db s ∧ ∀ row, row ∈ notices (ld_db s) → ¬ waiting trial' τ row
    | Some d => ∃ row, row ∈ notices (ld_db s) ∧ waiting trial' τ row ∧
        (∀ other, other ∈ notices (ld_db s) → waiting trial' τ other → nt_id (nr_notice row) <= nt_id (nr_notice other)) ∧
        nd_deadline d = isoformat (utc_of (τ + lease * 1000000)) ∧ representable (τ + lease * 1000000) ∧
        nd_notice d = nr_notice (set_claim (nd_deadline d) by_ (nd_id d) row) ∧
        nd_attempt d = attempts (nt_id (nr_notice row)) (ld_db s) + 1 ∧ ld_db s' = claimed row (nd_id d) τ lease by_ (ld_db s)
    end.
Proof.
  intros Hd. unfold claim_notice. intros H. run_inv.
  match goal with H : negb _ = true |- _ => apply negb_true_iff, Z.leb_gt in H as Hlease end.
  match goal with H : current_datetime _ _ _ = _ |- _ => apply (current_datetime_Ok utc_now clock_ok) in H as (τ & -> & Hτ & Htime & E1) end.
  match goal with H : plus_seconds _ _ = _ |- _ => apply plus_seconds_of in H as [-> Hx] end.
  match goal with H : optional_text _ _ = Ok ?t |- _ => exists τ, t end. split_and!; [done..|].
  match goal with H : transaction _ _ _ = _ |- _ => rewrite transaction_eq in H; destruct (sqlite _); [done|];
    match type of H with context [match ?b with _ => _ end] => destruct b as [s9 [x|e]] eqn:Hbody end; [|done];
    destruct (sqlite (ld_ticks s9)); [done|]; injection H as <- <- end.
  lstmts. change (ld_db (tick s1)) with (ld_db s1) in Hbody. rewrite E1 in Hbody.
  pose proof (next_notice_spec (ld_db s) a2 τ Hd Hτ) as Hspec. destruct (next_notice _ a2 (ld_db s)) as [n|].
  - destruct Hspec as (row & Hrow & <- & Hw & Hmin). lstmts.
    match goal with H : _chmod_sqlite_files _ ?x = _ |- _ => pose proof (looks_chmod chmod x) as Ec; rewrite H in Ec; clear H end.
    cbn [ld_db tick fst] in *. rewrite E1 in *.
    match goal with H : nr_notice <$> _ = Ok ?m |- _ =>
      change (nr_notice <$> opt_or_raise (notice_at (nt_id (nr_notice row)) (claimed row a0 τ lease by_ (ld_db s)))
        TypeError "'NoneType' object is not subscriptable" = Ok m) in H;
      rewrite (claimed_notice row a0 τ lease by_ (ld_db s) Hd Hrow) in H;
      change (Ok (nr_notice (set_claim (isoformat (utc_of (τ + lease * 1000000))) by_ a0 row)) = Ok m) in H;
      injection H as <- end.
    exists row. cbn [nd_deadline nd_notice nd_id nd_attempt]. by split_and!.
  - lstmts. by split.
Qed.

(** A claim hands out the oldest notice that waits, with the next attempt number and the lease's
    deadline, and none only when none waits. *)
Theorem claim_hands_out_oldest_notice trial by_ lease now s s' o : reachable s →
  claim_notice utc_now uuid sqlite chmod trial by_ lease now s = (s', Ok o) →
  ∃ τ trial', optional_text "trial_id" trial = Ok trial' ∧ claim_time utc_now now s τ ∧
    match o with
    | None => ld_db s' = ld_db s ∧ ∀ row, row ∈ notices (ld_db s) → ¬ waiting trial' τ row
    | Some d => ∃ row row', row ∈ notices (ld_db s) ∧ row' ∈ notices (ld_db s') ∧
        nd_notice d = nr_notice row' ∧ nt_id (nr_notice row') = nt_id (nr_notice row) ∧ waiting trial' τ row ∧
        (∀ other, other ∈ notices (ld_db s) → waiting trial' τ other → nt_id (nr_notice row) <= nt_id (nr_notice other)) ∧
        nd_attempt d = attempts (nt_id (nr_notice row)) (ld_db s) + 1 ∧
        nt_claimed_until (nr_notice row') = Some (nd_deadline d) ∧ instant (nd_deadline d) = τ + lease * 1000000
    end.
Proof.
  intros Hd%(ledger_reach_inv _ _ _ _ clock_ok) H.
  destruct (claim_Ok _ _ _ _ _ _ _ Hd H) as (τ & trial' & Ht & Hτ & _ & _ & Ho). exists τ, trial'. split_and!; [done..|].
  destruct o as [d|]; [|done]. destruct Ho as (row & Hrow & Hw & Hmin & Edl & Hx & En & Ea & Edb).
  exists row, (set_claim (nd_deadline d) by_ (nd_id d) row). rewrite Edb. split_and!; try done.
  - rewrite Edl. by apply update_notice_updated.
  - by rewrite Edl, instant_utc.
Qed.

(** ** Every waiting notice is offered *)

Section offers.
Context (sqlite_ok : ∀ n, sqlite n = None) (chmod_ok : ∀ n, chmod n = None) (uuid_inj : Inj (=) (=) uuid).

(** The ids [uuid4] will give are new. *)
Definition fresh_ids (s : Ledger) : Prop := ∀ r k, r ∈ deliveries (ld_db s) → (ld_ticks s <= k)%nat → dr_id r ≠ uuid k.

Lemma answer_ok o : (∀ n, o n = None) → ∀ s, answer o s = (tick s, Ok ()).
Proof. intros H s. unfold answer. by rewrite H. Qed.

Lemma transaction_run {A} (body : prog Ledger A) s s1 a : body (tick s) = (s1, Ok a) →
  transaction sqlite body s = (tick s1, Ok a).
Proof. intros H. by rewrite transaction_eq, sqlite_ok, H, sqlite_ok. Qed.

Lemma claim_returns trial by_ lease s : ledger_inv (ld_db s) → fresh_ids s → 0 < lease →
  representable (utc_now (ld_ticks s) + lease * 1000000) → (∃ t, optional_text "trial_id" trial = Ok t) →
  ∃ s' o, claim_notice utc_now uuid sqlite chmod trial by_ lease None s = (s', Ok o) ∧
    (ld_ticks s < ld_ticks s' <= ld_ticks s + 5)%nat ∧ fresh_ids s'.
Proof.
  intros Hd Hf Hl Hx [trial' Ht]. unfold claim_notice. rewrite (run_lift _ ()).
  2:{ by rewrite (proj2 (Z.leb_gt _ _)). }
  set (τ := utc_now (ld_ticks s)) in *. erewrite (run_ok _ _ _ (tick s) (utc_of τ)) by reflexivity. cbv zeta.
  rewrite (run_lift _ (utc_of (τ + lease * 1000000))).
  2:{ unfold plus_seconds, dt_in_range. cbn. unfold representable in Hx.
      by rewrite (proj2 (Z.leb_le _ _)), (proj2 (Z.ltb_lt _ _)) by lia. }
  rewrite (run_lift _ trial') by done.
  destruct (next_notice (isoformat (utc_of τ)) trial' (ld_db s)) as [n|] eqn:En.
  - apply next_notice_row in En as En'. destruct En' as (row & Hrow & <- & _).
    set (id := uuid (ld_ticks (tick (tick s)))).
    assert (delivery_at id (ld_db s) = None) as Hid.
    { destruct (delivery_at id (ld_db s)) as [r|] eqn:E; [|done]. apply (delivery_at_Some (ld_db s)) in E as [Hr E].
      exfalso. apply (Hf r (ld_ticks (tick (tick s)))); [done|cbn; lia|done]. }
    set (s3 := {| ld_db := claimed row id τ lease by_ (ld_db s); ld_ticks := ld_ticks (tick (tick (tick s))) |}).
    erewrite (run_ok _ _ (tick s) (tick s3)).
    2:{ apply transaction_run. erewrite (run_ok _ _ _ _ (Some (nr_notice row))) by (cbn; by rewrite <- En). cbv beta iota zeta.
        erewrite (run_ok _ _ _ (tick (tick s)) (attempts (nt_id (nr_notice row)) (ld_db s))) by reflexivity.
        erewrite (run_ok _ _ _ (tick (tick (tick s))) id) by reflexivity.
        erewrite (run_ok _ _ _ _ None) by (cbn; by rewrite <- Hid).
        rewrite (run_lift _ ()) by reflexivity.
        erewrite (run_ok _ _ _ _ ()) by reflexivity. erewrite (run_ok _ _ _ s3 ()) by reflexivity.
        erewrite (run_ok _ _ _ s3) by (unfold read, gets; cbn [ld_db s3]; rewrite (claimed_notice row id τ lease by_ (ld_db s) Hd Hrow); reflexivity).
        rewrite (run_lift _ (nr_notice (set_claim (isoformat (utc_of (τ + lease * 1000000))) by_ id row))) by reflexivity.
        reflexivity. }
    cbv beta iota. unfold _chmod_sqlite_files.
    erewrite (run_ok _ _ _ _ ()) by (by apply answer_ok). eexists _, _. split; [reflexivity|]. cbn. split; [lia|].
    intros r k Hr Hk. cbn in Hr. apply elem_of_app in Hr as [Hr|E%list_elem_of_singleton].
    + apply Hf; [done|]. cbn in Hk. lia.
    + rewrite E. cbn. intros Ei%(inj uuid). cbn in *. lia.
  - erewrite (run_ok _ _ (tick s)).
    2:{ apply transaction_run. erewrite (run_ok _ _ _ _ None); [reflexivity|]. cbn. by rewrite <- En. }
    eexists _, _. split; [reflexivity|]. cbn. split; [lia|]. intros r k Hr Hk. apply Hf; [done|]. cbn in Hk. lia.
Qed.

(** The document offers a notice. *)
Definition offers (o : mapping) (id : Z) : Prop :=
  ∃ n, vget o "notice" = VDict n ∧ vget n "notice_id" = VInt id.

Lemma offered_offers d : offers (offered d) (nt_id (nd_notice d)).
Proof. eexists. by split. Qed.

Context (trial : string) (trial_ok : _required_text "trial_id" trial = Ok trial).
(** From its [n0]-th reading to the [n1]-th the clock stays within one lease. *)
Context (n0 n1 : nat) (t0 : Z) (window : ∀ n, (n0 <= n < n1)%nat → t0 <= utc_now n < t0 + 60000000).
Context (range : ∀ n, representable (utc_now n + 60 * 1000000)).

Lemma trial_given : optional_text "trial_id" (Some trial) = Ok (Some trial).
Proof. unfold optional_text. by rewrite trial_ok. Qed.

Lemma waiting_later τ τ' row : waiting (Some trial) τ row → τ <= τ' → waiting (Some trial) τ' row.
Proof. intros (H1 & H2 & H3) Hle. split_and!; [done..|]. intros t Ht. specialize (H3 t Ht). lia. Qed.

(** The notices claimed by the present rounds. *)
Definition held (ids : list Z) (d : LedgerDB) : Prop :=
  NoDup ids ∧ ∀ i, i ∈ ids → ∃ row t, row ∈ notices d ∧ nt_id (nr_notice row) = i ∧
    nt_claimed_until (nr_notice row) = Some t ∧ t0 + 60000000 <= instant t.

Lemma held_all ids d row : held ids d → (length (notices d) <= length ids)%nat → row ∈ notices d → nt_id (nr_notice row) ∈ ids.
Proof.
  intros [Hn Hi] Hl Hrow. assert (ids ⊆+ map (λ r, nt_id (nr_notice r)) (notices d)) as Hs.
  { apply NoDup_submseteq; [done|]. intros i (x & t & Hx & <- & _)%Hi. apply list_elem_of_fmap. eauto. }
  apply submseteq_length_Permutation in Hs; [|by rewrite length_map]. rewrite Hs. apply list_elem_of_fmap. eauto.
Qed.

Lemma claim_inv by_ lease now s s' o : ledger_inv (ld_db s) →
  claim_notice utc_now uuid sqlite chmod (Some trial) by_ lease now s = (s', Ok o) → ledger_inv (ld_db s').
Proof.
  intros Hd H. pose proof (commits_of (OpClaim (Some trial) by_ lease now) s Hd) as Hc.
  apply (commit_ledger_inv _ _ _ _ Hd) in Hc. cbn [ledger_op] in Hc. unfold silently in Hc.
  by rewrite prog_bind_eq, H in Hc.
Qed.

Lemma claim_holds ids s row id τ by_ : ledger_inv (ld_db s) → held ids (ld_db s) → row ∈ notices (ld_db s) →
  waiting (Some trial) τ row → t0 <= τ < t0 + 60000000 → representable (τ + 60 * 1000000) →
  held (nt_id (nr_notice row) :: ids) (claimed row id τ 60 by_ (ld_db s)).
Proof.
  intros Hd [Hn Hi] Hrow (_ & _ & Hw) Hτ Hx. assert (nt_id (nr_notice row) ∉ ids) as Hnew.
  { intros (x & t & Hx' & E & Ht & Hlt)%Hi. apply (same_row _ _ _ Hd Hx' Hrow) in E as ->. specialize (Hw t Ht). lia. }
  split; [by constructor|]. intros i [->|Hin]%elem_of_cons.
  - eexists _, _. split; [by apply update_notice_updated|]. split_and!; [done..|].
    rewrite instant_utc by done. lia.
  - pose proof Hin as (x & t & Hx' & E & Ht & Hlt)%Hi. exists x, t. split_and!; [|done..].
    apply update_notice_elem; [done|]. rewrite E. by intros ->.
Qed.

Lemma rounds_offer path n : ∀ s output ids, ledger_inv (ld_db s) → fresh_ids s → (n0 <= ld_ticks s ∧ ld_ticks s + 5 * n <= n1)%nat →
  held ids (ld_db s) → (length (notices (ld_db s)) <= n + length ids)%nat →
  ∃ s' out, claim_rounds utc_now uuid sqlite chmod n trial path 60 output s = (s', Ok (output ++ out)) ∧
    ∀ row, row ∈ notices (ld_db s) → waiting (Some trial) t0 row → nt_id (nr_notice row) ∉ ids →
      ∃ o, o ∈ out ∧ offers o (nt_id (nr_notice row)).
Proof.
  induction n as [|n IH]; intros s output ids Hd Hf Ht Hh Hlen.
  { exists s, []. rewrite app_nil_r. split; [done|]. intros row Hrow _ []. by eapply held_all. }
  cbn [claim_rounds].
  destruct (claim_returns (Some trial) (Some path) 60 s Hd Hf) as (s1 & o & Hc & Ht1 & Hf1);
    [lia|apply range|by eexists; apply trial_given|].
  rewrite (run_ok _ _ _ _ _ Hc). pose proof (claim_Ok _ _ _ _ _ _ _ Hd Hc) as (τ & trial' & Etr & Hct & Hτ & _ & Ho).
  rewrite trial_given in Etr. injection Etr as <-. pose proof (window (ld_ticks s) ltac:(lia)) as Hwin.
  change (τ = utc_now (ld_ticks s)) in Hct. rewrite <- Hct in Hwin.
  destruct o as [d|].
  - destruct Ho as (row & Hrow & Hw & _ & Edl & Hx & En & _ & Edb).
    destruct (IH s1 (output ++ [offered d]) (nt_id (nr_notice row) :: ids)) as (s' & out & Hr & Hout).
    + by eapply claim_inv.
    + done.
    + lia.
    + rewrite Edb. by apply claim_holds.
    + rewrite Edb. cbn. rewrite length_map. lia.
    + exists s', (offered d :: out). rewrite Hr, <- app_assoc. split; [done|]. intros x Hx' Hwx Hid.
      destruct (decide (nt_id (nr_notice x) = nt_id (nr_notice row))) as [E|E].
      * exists (offered d). split; [by left|]. pose proof (offered_offers d) as Hoff. rewrite En in Hoff. by rewrite E.
      * destruct (Hout x) as (o & Hin & Hoff); [rewrite Edb; by apply update_notice_elem|done|by rewrite not_elem_of_cons|].
        exists o. split; [by right|done].
  - destruct Ho as [_ Hnone]. exists s1, []. rewrite app_nil_r. split; [done|]. intros row Hrow Hw _.
    destruct (Hnone row Hrow). eapply waiting_later; [exact Hw|lia].
Qed.

(** C23: When SQLite answers and the clock stays within one lease, claim_notices with a limit of
    at least the number of notices returns, and every undelivered notice of the Trial that
    nobody holds is among those it offers. *)
Theorem waiting_notices_offered s path limit : reachable s → fresh_ids s →
  (n0 <= ld_ticks s ∧ ld_ticks s + 5 * Z.to_nat limit <= n1)%nat →
  Z.of_nat (length (notices (ld_db s))) <= limit →
  ∃ s' output, claim_notices utc_now uuid sqlite chmod trial path limit s = (s', Ok output) ∧
    ∀ row, row ∈ notices (ld_db s) → waiting (Some trial) t0 row → ∃ o, o ∈ output ∧ offers o (nt_id (nr_notice row)).
Proof.
  intros Hd%(ledger_reach_inv _ _ _ _ clock_ok) Hf Ht Hl.
  destruct (rounds_offer path (Z.to_nat limit) s [] [] Hd Hf Ht) as (s' & out & Hr & Hout).
  - split; [constructor|]. by intros ? ?%not_elem_of_nil.
  - cbn. lia.
  - exists s', out. split; [exact Hr|]. intros row Hrow Hw. apply Hout; [done..|]. apply not_elem_of_nil.
Qed.
End offers.

(** ** Reading every event *)

Lemma map_sequence_filter (p : PlatformEvent → bool) l :
  StronglySorted (λ a b, pe_sequence a < pe_sequence b) l →
  StronglySorted (λ a b, pe_sequence a < pe_sequence b) (List.filter p l).
Proof.
  induction 1 as [|x l Hs IH Hx]; [constructor|]. cbn. destruct (p x); [|done]. constructor; [done|].
  apply Forall_forall. intros y Hy. rewrite Forall_forall in Hx. apply Hx.
  apply list_elem_of_In, filter_In in Hy as [Hy _]. by apply list_elem_of_In.
Qed.

Lemma numbered_sorted (l : list PlatformEvent) a : map pe_sequence l = seqZ a (Z.of_nat (length l)) →
  StronglySorted (λ x y, pe_sequence x < pe_sequence y) l ∧ Forall (λ x, a <= pe_sequence x) l.
Proof.
  revert a. induction l as [|x l IH]; intros a; [by repeat constructor|]. cbn [map length]. rewrite seqZ_cons by lia.
  intros [= Hx Hl]. replace (Z.pred (Z.of_nat (S (length l)))) with (Z.of_nat (length l)) in Hl by lia.
  destruct (IH _ Hl) as [Hs Hf]. split; constructor; try done; try lia.
  - eapply Forall_impl; [exact Hf|]. cbn. lia.
  - eapply Forall_impl; [exact Hf|]. cbn. lia.
Qed.

Lemma sorted_app {A} (R : A → A → Prop) l k : StronglySorted R (l ++ k) →
  StronglySorted R k ∧ ∀ x y, x ∈ l → y ∈ k → R x y.
Proof.
  induction l as [|a l IH]; cbn; intros H; [split; [done|by intros ? ? ?%not_elem_of_nil]|].
  apply StronglySorted_inv in H as [Hs Ha]. destruct (IH Hs) as [Hk Hlk]. split; [done|].
  intros x y [->|Hx]%elem_of_cons Hy; [|by apply Hlk]. rewrite Forall_forall in Ha. apply Ha, elem_of_app. by right.
Qed.

Definition trial_events (trial : string) (d : LedgerDB) : list PlatformEvent :=
  List.filter (λ e, bool_decide (pe_trial e = trial)) (events d).

Lemma filter_filter {A} (p q : A → bool) l : List.filter p (List.filter q l) = List.filter (λ x, p x && q x) l.
Proof.
  induction l as [|x l IH]; [done|]. cbn. destruct (q x); cbn; [|by rewrite andb_false_r, IH].
  rewrite andb_true_r. destruct (p x); by rewrite IH.
Qed.

Lemma filter_all {A} (p : A → bool) l : (∀ x, x ∈ l → p x = true) → List.filter p l = l.
Proof. induction l as [|x l IH]; [done|]. intros H. cbn. rewrite H by by left. rewrite IH; [done|]. intros. apply H. by right. Qed.
Lemma filter_none {A} (p : A → bool) l : (∀ x, x ∈ l → p x = false) → List.filter p l = [].
Proof. induction l as [|x l IH]; [done|]. intros H. cbn. rewrite H by by left. apply IH. intros. apply H. by right. Qed.

Lemma events_numbered d : ledger_inv d →
  StronglySorted (λ x y, pe_sequence x < pe_sequence y) (events d) ∧ ∀ e, e ∈ events d → 1 <= pe_sequence e <= last_sequence d.
Proof.
  intros Hd. pose proof (li_sequences d Hd) as Hs. split.
  - rewrite (li_last_sequence d Hd) in Hs. by apply (numbered_sorted _ 1).
  - intros e He. assert (pe_sequence e ∈ map pe_sequence (events d)) as Hin by (apply list_elem_of_fmap; eauto).
    rewrite Hs in Hin. apply elem_of_seqZ in Hin. lia.
Qed.

Lemma trial_events_sorted trial d : ledger_inv d →
  StronglySorted (λ x y, pe_sequence x < pe_sequence y) (trial_events trial d).
Proof. intros Hd. apply map_sequence_filter. by apply events_numbered. Qed.

(** A page is the first of the events that come after the cursor. *)
Lemma page_rest trial d done rest cursor limit : ledger_inv d → trial_events trial d = done ++ rest →
  (∀ x, x ∈ done → pe_sequence x <= cursor) → (∀ x, x ∈ rest → cursor < pe_sequence x) →
  page cursor limit (Some trial) d = take (Z.to_nat limit) rest.
Proof.
  intros Hd Et Hdone Hrest. unfold page. f_equal.
  assert (List.filter (selected cursor (Some trial)) (events d) = rest) as ->.
  { unfold selected. rewrite <- (filter_filter (λ e, cursor <? pe_sequence e)). cbn [of_trial]. fold (trial_events trial d).
    rewrite Et, List.filter_app, filter_none, filter_all; [done|..]; intros x Hx; [apply Z.ltb_lt|apply Z.ltb_ge]; auto. }
  pose proof (trial_events_sorted trial d Hd) as Hs. rewrite Et in Hs.
  apply sorted_app in Hs as [Hs _]. apply sort_by_sorted, StronglySorted_Sorted.
  clear Et Hrest. induction Hs as [|x l Hs IH Hx]; constructor; [done|]. eapply Forall_impl; [exact Hx|]. cbn. intros y Hy.
  apply Z.leb_le. lia.
Qed.

Section paging.
Context (sqlite_ok : ∀ n, sqlite n = None).
Context (trial : string) (trial_ok : _required_text "trial_id" trial = Ok trial).

Lemma query_runs s cursor limit : 0 <= cursor < 2 ^ 63 → 1 <= limit <= _MAX_QUERY_LIMIT →
  query sqlite cursor limit (Some trial) s = (tick s, Ok (page cursor limit (Some trial) (ld_db s))).
Proof.
  intros Hc Hl. unfold query. rewrite (run_lift _ cursor).
  2:{ unfold _non_negative_int. by rewrite (proj2 (Z.ltb_ge _ _)) by lia. }
  rewrite (run_lift _ limit).
  2:{ unfold _limit. by rewrite (proj2 (Z.ltb_ge _ _)), (proj2 (Z.ltb_ge _ _)) by lia. }
  rewrite (run_lift _ (Some trial)) by (unfold optional_text; by rewrite trial_ok).
  erewrite (run_ok _ _ _ (tick s) ()) by (unfold answer; by rewrite sqlite_ok).
  rewrite (run_lift _ cursor); [done|]. unfold sqlite_int. by rewrite (proj2 (Z.leb_le _ _)), (proj2 (Z.ltb_lt _ _)) by lia.
Qed.

Lemma read_pages_all fuel : ∀ s done rest cursor, ledger_inv (ld_db s) → last_sequence (ld_db s) < 2 ^ 63 → 
  trial_events trial (ld_db s) = done ++ rest → (∀ x, x ∈ done → pe_sequence x <= cursor) →
  (∀ x, x ∈ rest → cursor < pe_sequence x) → 0 <= cursor < 2 ^ 63 → (length rest < fuel)%nat →
  ∃ s', read_pages sqlite fuel trial (map event_dict done) cursor s =
    (s', Ok (Some (map event_dict (trial_events trial (ld_db s))))) ∧ ld_db s' = ld_db s.
Proof.
  induction fuel as [|fuel IH]; intros s done rest cursor Hd Hmax Et Hdone Hrest Hc Hfuel; [lia|]. cbn [read_pages].
  assert (1 <= 500 <= _MAX_QUERY_LIMIT) as Hl by (unfold _MAX_QUERY_LIMIT; lia).
  rewrite (run_ok _ _ _ _ _ (query_runs s cursor 500 Hc Hl)), (page_rest _ _ done rest) by done.
  destruct (last (take (Z.to_nat 500) rest)) as [e|] eqn:Elast.
  - apply last_Some in Elast as [l El]. pose proof (trial_events_sorted trial (ld_db s) Hd) as Hs.
    rewrite Et in Hs. rewrite <- (take_drop (Z.to_nat 500) rest), El in Hs, Hrest, Et.
    assert (length rest = length l + 1 + length (drop (Z.to_nat 500) rest))%nat as Elen.
    { rewrite <- (take_drop (Z.to_nat 500) rest) at 1. rewrite length_app, El, length_app. done. }
    rewrite El. set (rest' := drop (Z.to_nat 500) rest) in *. clearbody rest'. clear El.
    apply sorted_app in Hs as [Hs _]. pose proof (sorted_app _ _ _ Hs) as [_ Hlt].
    rewrite <- app_assoc in Hs. apply sorted_app in Hs as [_ Hle].
    assert (e ∈ events (ld_db s)) as He%(proj2 (events_numbered _ Hd)).
    { assert (e ∈ trial_events trial (ld_db s)) as Hin by (rewrite Et; set_solver).
      by apply list_elem_of_In, filter_In in Hin as [Hin%list_elem_of_In _]. }
    specialize (IH (tick s) (done ++ l ++ [e]) rest' (pe_sequence e)).
    destruct IH as (s' & Hr & Edb); try done; [| | |lia|lia|].
    + cbn. by rewrite <- !app_assoc in *.
    + intros x [Hx|[Hx| ->%list_elem_of_singleton]%elem_of_app]%elem_of_app; [|apply Z.lt_le_incl, Hle; set_solver|lia].
      specialize (Hdone x Hx). specialize (Hrest e ltac:(set_solver)). lia.
    + intros x Hx. apply Hlt; set_solver.
    + exists s'. rewrite map_app in Hr. by rewrite Hr.
  - apply last_None in Elast. assert (rest = []) as ->. { destruct rest; [done|]. by change (Z.to_nat 500) with 500%nat in Elast. }
    rewrite app_nil_r in Et. exists (tick s). by rewrite Et.
Qed.

(** all_trial_events ends within one page more than there are events and returns every event of
    the Trial, in order and once. *)
Theorem all_events_read s : reachable s → last_sequence (ld_db s) < 2 ^ 63 →
  ∃ s', all_trial_events sqlite (S (length (events (ld_db s)))) trial s =
    (s', Ok (Some (map event_dict (trial_events trial (ld_db s))))) ∧ ld_db s' = ld_db s.
Proof.
  intros Hd%(ledger_reach_inv _ _ _ _ clock_ok) Hmax. unfold all_trial_events.
  apply (read_pages_all _ s [] (trial_events trial (ld_db s)) 0 Hd Hmax); [done|by intros ? ?%not_elem_of_nil| |lia|].
  - intros x Hx. apply list_elem_of_In, filter_In in Hx as [Hx%list_elem_of_In _].
    apply (proj2 (events_numbered _ Hd)) in Hx. lia.
  - unfold trial_events. pose proof (filter_length_le (λ e, bool_decide (pe_trial e = trial)) (events (ld_db s))). lia.
Qed.
End paging.

(** ** Enqueuing *)

Lemma keyed_new trial type at_ key payload d : ledger_inv d → notice_keyed trial key d = None →
  notice_at (last_notice d + 1) (insert_notice trial type at_ key payload d) =
  notice_keyed trial key (insert_notice trial type at_ key payload d) ∧
  is_Some (notice_keyed trial key (insert_notice trial type at_ key payload d)).
Proof.
  intros Hd Hk. unfold notice_at, notice_keyed in *. cbn [insert_notice notices].
  assert (∀ r, r ∈ notices d → nt_id (nr_notice r) ≠ last_notice d + 1) as Hid.
  { intros r Hr E. assert (nt_id (nr_notice r) ∈ map nt_id (all_notices d)) as Hin.
    { unfold all_notices. rewrite map_map. apply list_elem_of_fmap. eauto. }
    rewrite (li_ids d Hd) in Hin. apply elem_of_seqZ in Hin. lia. }
  revert Hk Hid. generalize (last_notice d). intros m. induction (notices d) as [|x l IH]; intros Hk Hid.
  - cbn. rewrite !bool_decide_true by done. by split.
  - cbn in Hk |- *. rewrite (bool_decide_false (nt_id (nr_notice x) = _)) by (apply Hid; by left).
    destruct (bool_decide _ && bool_decide _); [done|]. apply IH; [done|]. intros r Hr. apply Hid. by right.
Qed.

(** Enqueuing under a key that is taken returns the notice there, or raises when the content
    differs, and changes nothing; under a new key it stores one notice. *)
Theorem enqueue_once trial type payload key s :
  (∀ n, sqlite n = None) → (∀ n, chmod n = None) → reachable s →
  _required_text "trial_id" trial = Ok trial → _required_text "notice_type" type = Ok type →
  _required_text "idempotency_key" key = Ok key →
  let (s', r) := enqueue_notice utc_now uuid sqlite chmod trial type payload (Some key) s in
  match notice_keyed trial key (ld_db s) with
  | Some row =>
      ld_db s' = ld_db s ∧
      r = if bool_decide (nt_type (nr_notice row) = type) &&
             py_eq (VDict (nt_payload (nr_notice row))) (VDict (_payload_json payload))
          then Ok (nr_notice row) else raise ValueError "idempotent notice replay changed notice content"
  | None => ∃ at_ row, ld_db s' = insert_notice trial type at_ key (_payload_json payload) (ld_db s) ∧
      notice_keyed trial key (ld_db s') = Some row ∧ r = Ok (nr_notice row)
  end.
Proof.
  intros Hsql Hch Hd%(ledger_reach_inv _ _ _ _ clock_ok) Ht Hty Hk.
  unfold enqueue_notice. rewrite (run_lift _ _ _ _ Ht), (run_lift _ _ _ _ Hty).
  assert (nonempty key = true) as ->. { unfold _required_text in Hk. cbv zeta in Hk. inv_ok. congruence. }
  rewrite run_ret, (run_lift _ _ _ _ Hk). cbv zeta.
  erewrite (run_ok _ _ s (tick s)) by reflexivity.
  erewrite (run_ok _ _ _ (tick (tick s)) (notice_keyed trial key (ld_db s)))
    by (unfold statement; rewrite prog_bind_eq; unfold answer; by rewrite Hsql).
  destruct (notice_keyed trial key (ld_db s)) as [row|] eqn:Ek.
  - rewrite prog_bind_eq. unfold lift, require. rewrite negb_orb, !negb_involutive.
    by destruct (bool_decide _ && py_eq _ _).
  - set (at_ := isoformat (utc_of (utc_now (ld_ticks s)))).
    destruct (keyed_new trial type at_ key (_payload_json payload) (ld_db s) Hd Ek) as [Eat [row Erow]].
    set (d' := insert_notice trial type at_ key (_payload_json payload) (ld_db s)) in *.
    set (s3 := {| ld_db := d'; ld_ticks := ld_ticks (tick (tick (tick s))) |}).
    unfold enqueue_insert. erewrite (run_ok _ _ _ (tick s3) ()).
    2:{ apply transaction_run; [done|]. erewrite (run_ok _ _ _ _ None) by (cbn; by rewrite <- Ek).
        rewrite (run_lift _ ()) by reflexivity. reflexivity. }
    erewrite (run_ok _ _ _ _ (last_notice (ld_db s) + 1)) by reflexivity.
    erewrite (run_ok _ _ _ (tick (tick s3)) (Some row)).
    2:{ unfold statement. rewrite prog_bind_eq. unfold answer. rewrite Hsql. unfold read, gets.
        change (ld_db (tick (tick s3))) with d'. by rewrite Eat, Erow. }
    unfold _chmod_sqlite_files. erewrite (run_ok _ _ _ _ ()) by (unfold answer; by rewrite Hch).
    exists at_, row. by split_and!.
Qed.
End promises.

(** ** A ledger in use *)

Definition demo_now (n : nat) : Z := 1767225600000000 + Z.of_nat n mod 50 * 1000000.
Definition demo_id (n : nat) : string := "id-" +:+ pretty n.
Definition demo_answer (n : nat) : option exn := None.

Lemma demo_now_window n : 1767225600000000 <= demo_now n < 1767225600000000 + 60000000.
Proof. unfold demo_now. pose proof (Z.mod_pos_bound (Z.of_nat n) 50). lia. Qed.
Lemma demo_now_ok n : representable (demo_now n).
Proof. unfold representable. pose proof (demo_now_window n). lia. Qed.
Lemma demo_now_lease n : representable (demo_now n + 60 * 1000000).
Proof. unfold representable. pose proof (demo_now_window n). lia. Qed.
Lemma demo_id_inj : Inj (=) (=) demo_id.
Proof. intros m n E. unfold demo_id in E. apply (inj (String.app "id-")) in E. by apply (inj pretty) in E. Qed.

Definition demo_ops (ops : list LedgerOp) : Ledger :=
  foldl (λ s op, (ledger_op demo_now demo_id demo_answer demo_answer op s).1)
    {| ld_db := empty_ledger; ld_ticks := 0 |} ops.

Lemma demo_ops_reach (allowed : LedgerOp → Prop) ops : Forall allowed ops →
  ledger_reach demo_now demo_id demo_answer demo_answer allowed (demo_ops ops).
Proof.
  unfold demo_ops. generalize (ledger_reach_empty demo_now demo_id demo_answer demo_answer allowed 0).
  generalize (Build_Ledger empty_ledger 0). induction ops as [|op ops IH]; intros s Hs; [done|].
  intros [Hop Hops]%Forall_cons. cbn [foldl]. apply IH; [by apply ledger_reach_op|done].
Qed.

(** One notice delivered, one claimed, one waiting. *)
Definition demo_calls : list LedgerOp :=
  [OpAppend "t1" "TRIAL_STARTED" (Time (utc_of 1767225600000000)) []; OpEnqueue "t1" "FACT" [] (Some "k1");
   OpEnqueue "t1" "FACT" [] (Some "k2"); OpEnqueue "t1" "FACT" [] (Some "k3"); OpClaim (Some "t1") None 60 None;
   OpDeliver "id-24" None None "poll"; OpClaim (Some "t1") None 60 None].
Definition demo_ledger : Ledger := Eval vm_compute in demo_ops demo_calls.

Lemma demo_ledger_reach (allowed : LedgerOp → Prop) : Forall allowed demo_calls →
  ledger_reach demo_now demo_id demo_answer demo_answer allowed demo_ledger.
Proof. intros H. assert (demo_ledger = demo_ops demo_calls) as -> by (vm_compute; reflexivity). by apply demo_ops_reach. Qed.

Lemma demo_reach_any : ledger_reach demo_now demo_id demo_answer demo_answer any_op demo_ledger.
Proof. apply demo_ledger_reach. by repeat constructor. Qed.

Definition demo_row (k : nat) : NoticeRow := nth k (notices (ld_db demo_ledger))
  {| nr_notice := {| nt_id := 0; nt_trial := ""; nt_type := ""; nt_enqueued_at := ""; nt_payload := []; nt_key := "";
                     nt_delivered_at := None; nt_claimed_until := None; nt_claimed_by := None |}; nr_latest := None |}.

Lemma demo_row_in k : (k < 3)%nat → demo_row k ∈ notices (ld_db demo_ledger).
Proof. intros Hk. apply list_elem_of_In, nth_In. exact Hk. Qed.

Lemma demo_fresh_ids : fresh_ids demo_id demo_ledger.
Proof.
  assert (∀ j k, dr_id j = demo_id 24 ∨ dr_id j = demo_id 34 → (37 <= k)%nat → dr_id j ≠ demo_id k) as H.
  { intros j k [-> | ->] Hk E; apply demo_id_inj in E; lia. }
  intros r k Hr Hk. apply H; [|exact Hk]. apply list_elem_of_In in Hr. destruct Hr as [<-|[<-|[]]]; [left|right]; vm_compute; reflexivity.
Qed.

Lemma events_append_only_witness : map pe_sequence (events (ld_db (ledger_op demo_now demo_id demo_answer demo_answer
  (OpDeliver "id-34" None None "poll") demo_ledger).1)) = [1; 2; 3].
Proof.
  rewrite (proj2 (events_append_only _ _ _ _ demo_now_ok demo_ledger (OpDeliver "id-34" None None "poll") demo_reach_any)).
  vm_compute. reflexivity.
Defined.

Lemma delivered_notice_final_witness : demo_row 0 ∈ notices (ld_db (ledger_op demo_now demo_id demo_answer demo_answer
  (OpClaim None None 60 (Some (Text "2030-01-01"))) demo_ledger).1).
Proof.
  apply (delivered_notice_final _ _ _ _ demo_now_ok _ _ _ demo_reach_any); [apply demo_row_in; lia|vm_compute; discriminate].
Defined.

Lemma claim_kept_witness : ∃ row', row' ∈ notices (ld_db (ledger_op demo_now demo_id demo_answer demo_answer
  (OpClaim None None 60 None) demo_ledger).1) ∧ nt_id (nr_notice row') = 2.
Proof.
  destruct (claim_kept _ _ _ _ demo_now_ok demo_ledger (OpClaim None None 60 None) (demo_row 1)
    "2026-01-01T00:01:32+00:00" demo_reach_any) as (row' & H1 & H2 & _).
  - apply demo_row_in. lia.
  - vm_compute. reflexivity.
  - exists row'. split; [exact H1|exact H2].
Defined.

Lemma one_receipt_per_delivery_witness : receipt_ok (ld_db demo_ledger) (demo_row 0) ∧ undelivered (nr_notice (demo_row 0)) = false.
Proof.
  split; [|vm_compute; reflexivity]. apply (one_receipt_per_delivery demo_now demo_id demo_answer demo_answer demo_now_ok).
  - apply demo_ledger_reach. repeat constructor. vm_compute. discriminate.
  - apply demo_row_in. lia.
Defined.

Lemma claim_hands_out_oldest_notice_witness : ∃ s' d,
  claim_notice demo_now demo_id demo_answer demo_answer None None 60 None demo_ledger = (s', Ok (Some d)) ∧
  nt_id (nd_notice d) = 3 ∧ instant (nd_deadline d) = demo_now 37 + 60 * 1000000.
Proof.
  destruct (claim_notice demo_now demo_id demo_answer demo_answer None None 60 None demo_ledger) as [s' r] eqn:E.
  pose proof E as E0. vm_compute in E0. destruct r as [[d|]|e]; [|discriminate E0|discriminate E0].
  destruct (claim_hands_out_oldest_notice _ _ _ _ demo_now_ok _ _ _ _ _ _ _ demo_reach_any E)
    as (τ & trial & _ & Hτ & row & row' & _ & _ & _ & _ & _ & _ & _ & _ & Hd).
  exists s', d. split; [reflexivity|]. split; [|rewrite Hd; f_equal; exact Hτ]. injection E0 as _ <-. reflexivity.
Defined.

Lemma waiting_notices_offered_witness : ∃ s' output,
  claim_notices demo_now demo_id demo_answer demo_answer "t1" "poll" 3 demo_ledger = (s', Ok output) ∧
  ∃ o, o ∈ output ∧ offers o 3.
Proof.
  destruct (waiting_notices_offered demo_now demo_id demo_answer demo_answer demo_now_ok (λ n, eq_refl) (λ n, eq_refl)
    demo_id_inj "t1" eq_refl 37 52 1767225600000000 (λ n _, demo_now_window n) demo_now_lease demo_ledger "poll" 3
    demo_reach_any demo_fresh_ids) as (s' & output & Hr & Ho).
  - vm_compute. lia.
  - vm_compute. discriminate.
  - exists s', output. split; [exact Hr|]. apply (Ho (demo_row 2)); [apply demo_row_in; lia|].
    split; [vm_compute; reflexivity|]. split; [vm_compute; reflexivity|]. intros t Ht. vm_compute in Ht. discriminate Ht.
Defined.

Lemma all_events_read_witness : ∃ s' events', all_trial_events demo_answer 3 "t1" demo_ledger = (s', Ok (Some events')) ∧
  length events' = 2%nat.
Proof.
  destruct (all_events_read demo_now demo_id demo_answer demo_answer demo_now_ok (λ n, eq_refl) "t1" eq_refl demo_ledger
    demo_reach_any) as (s' & Hr & _); [vm_compute; reflexivity|].
  eexists s', _. split; [exact Hr|]. vm_compute. reflexivity.
Defined.

Lemma enqueue_once_witness :
  ld_db (enqueue_notice demo_now demo_id demo_answer demo_answer "t1" "FACT" [] (Some "k3") demo_ledger).1 = ld_db demo_ledger.
Proof.
  pose proof (enqueue_once demo_now demo_id demo_answer demo_answer demo_now_ok "t1" "FACT" [] "k3" demo_ledger
    (λ n, eq_refl) (λ n, eq_refl) demo_reach_any eq_refl eq_refl eq_refl) as H.
  destruct (enqueue_notice _ _ _ _ _ _ _ _ demo_ledger) as [s' r].
  assert (is_Some (notice_keyed "t1" "k3" (ld_db demo_ledger))) as [row Hrow] by (vm_compute; eexists; reflexivity).
  rewrite Hrow in H. apply H.
Defined.

(** The first half of an [enqueue_notice] that another one overtakes: its insertion raises. *)
Example enqueue_race :
  (ledger_op demo_now demo_id demo_answer demo_answer (OpInsert "t1" "FACT" "k3" "2026-01-01T00:00:00+00:00" [])
    demo_ledger).2 = raise IntegrityError "UNIQUE constraint failed: notices.trial_id, notices.idempotency_key".
Proof. vm_compute. reflexivity. Qed.

(** A delivery id of blanks in a tool result raises: the notices after it are not acknowledged. *)
Example blank_delivery_id_raises :
  let payload := [("notices", VList [VDict [("delivery_id", VStr " ")]; VDict [("delivery_id", VStr "id-34")]])] in
  let '(s', r) := acknowledge_received_notices demo_now demo_answer demo_answer payload "t1" (utc_of 1767225600000000) demo_ledger in
  r = raise ValueError "delivery_id is required" ∧ ld_db s' = ld_db demo_ledger.
Proof. vm_compute. done. Qed.
