(* ===== verification/CapabilityPolicy.v ===== *)
(** * The tool policy of a Trial ([stage2_service/capability_policy.py])

    Which servers and tools of the control plane an Agent may use: one document in a private
    file, changed by the Controller under a lock, each change recorded in the platform's
    ledger, and read by the servers at every call. Reading back what was written gives the
    document (JSON and pydantic are the libraries'); the file system may refuse any step. *)

From S2P Require Import Prelude PyFloat PyVal PyTime PyIso PyStamp PlatformLedger.

#[local] Open Scope Z_scope.

(** ** Documents ([stage2_service/contracts.py]) *)

Inductive ServerState := Enabled | Disabled | Decoy.
Inductive ToolState := ToolEnabled | ToolDisabled | ToolDecoy | ToolRevoked.
Inductive UncertaintyVariant := NOT_APPLIED | APPLIED_RESPONSE_HIDDEN.

#[export] Instance ServerState_eq_dec : EqDecision ServerState.
Proof. solve_decision. Defined.
#[export] Instance ToolState_eq_dec : EqDecision ToolState.
Proof. solve_decision. Defined.

Record ToolPolicy := { tp_state : option ToolState; tp_reason : option string }.

Record ServerPolicy := {
  sp_server_name : string;
  sp_state : ServerState;
  sp_reason : option string;
  sp_tools : dict string ToolPolicy;
  sp_unavailable_until : option datetime;
  sp_variant : option UncertaintyVariant }.

Record PermissionProfile := { profile_id : string; mcp_servers : list string }.

Record CapabilityPolicyDocument := {
  cp_trial_id : string;
  cp_sequence : Z;
  cp_source : string;
  cp_since : datetime;
  cp_servers : dict string ServerPolicy }.

Definition server_state_value (s : ServerState) : string :=
  match s with Enabled => "enabled" | Disabled => "disabled" | Decoy => "decoy" end.
Definition tool_state_value (s : ToolState) : string :=
  match s with ToolEnabled => "enabled" | ToolDisabled => "disabled" | ToolDecoy => "decoy" | ToolRevoked => "revoked" end.

(** [re.search(r"^\[a-z0-9\]\[a-z0-9._-\]{1,127}$", s)], in pydantic's engine, whose [$] is
    the end of the text *)
Definition identifier (s : string) : bool :=
  match chars s with
  | c :: rest => is_lower_alnum c && forallb (λ c, is_lower_alnum c || one_of "._-" c) rest &&
                 (1 <=? Z.of_nat (length rest)) && (Z.of_nat (length rest) <=? 127)
  | [] => false
  end.

Definition length_ok (least most : Z) (s : string) : bool :=
  (least <=? Z.of_nat (String.length s)) && (Z.of_nat (String.length s) <=? most).
Definition reason_ok (r : option string) : bool := match r with Some s => length_ok 0 500 s | None => true end.

(** What pydantic checks when a policy is built. *)
Definition tool_ok (t : ToolPolicy) : bool := reason_ok (tp_reason t).
Definition server_ok (p : ServerPolicy) : bool :=
  identifier (sp_server_name p) && reason_ok (sp_reason p) && forallb (λ kv, tool_ok kv.2) (sp_tools p).
Definition validation (b : bool) : result unit := require b ValueError "validation error".

Definition new_server (name : string) : ServerPolicy :=
  {| sp_server_name := name; sp_state := Enabled; sp_reason := None; sp_tools := []; sp_unavailable_until := None;
     sp_variant := None |}.
Definition new_tool : ToolPolicy := {| tp_state := None; tp_reason := None |}.

(** [CapabilityPolicyDocument(...)], [validate_server_keys] included *)
Definition build_document (trial_id : string) (sequence : Z) (source : string) (since : datetime)
    (servers : dict string ServerPolicy) : result CapabilityPolicyDocument :=
  validation (length_ok 1 160 trial_id && (1 <=? sequence) && length_ok 1 120 source &&
              forallb (λ kv, server_ok kv.2) servers) ;;
  require (forallb (λ kv, String.eqb kv.1 (sp_server_name kv.2)) servers) ValueError
    "server policy key must match server_name" ;;
  Ok {| cp_trial_id := trial_id; cp_sequence := sequence; cp_source := source; cp_since := since; cp_servers := servers |}.

Definition server_policy (d : CapabilityPolicyDocument) (server_name : string) : option ServerPolicy :=
  dget server_name (cp_servers d).
Definition tool_policy (d : CapabilityPolicyDocument) (server_name tool_name : string) : option ToolPolicy :=
  match server_policy d server_name with Some s => dget tool_name (sp_tools s) | None => None end.

(** ** Reading a policy *)

Definition is_channel_unavailable (policy : ServerPolicy) (now : datetime) : result bool :=
  match sp_unavailable_until policy with
  | None => Ok false
  | Some unavailable_until =>
      left ← dt_sub (as_utc unavailable_until) (as_utc now);
      Ok (0 <? left)
  end.

Definition of_server_state (s : ServerState) : ToolState :=
  match s with Enabled => ToolEnabled | Disabled => ToolDisabled | Decoy => ToolDecoy end.

Definition effective_tool_state (policy : option ServerPolicy) (tool_name : string) : ToolState :=
  match policy with
  | None => ToolDisabled
  | Some server =>
      match dget tool_name (sp_tools server) with
      | Some {| tp_state := Some state |} => state
      | _ => of_server_state (sp_state server)
      end
  end.

Definition PROTECTED_HARNESS_CHANNEL : string := "harness_channel".
Definition CapabilityPolicyError : exn_kind := OtherError "CapabilityPolicyError".

Definition absolute_path (p : string) : bool := match chars p with c :: _ => bool_decide (c = "/"%char) | [] => false end.

(** [policy_file_from_env] and [platform_ledger_root_from_env] *)
Definition path_from_env (name : string) (values : dict string string) : result (option string) :=
  match dget name values with
  | None => Ok None
  | Some raw =>
      if negb (nonempty (str_strip raw)) then Ok None
      else require (absolute_path raw) CapabilityPolicyError (name +:+ " must be absolute") ;; Ok (Some raw)
  end.
Definition policy_file_from_env : dict string string → result (option string) := path_from_env "RESBENCH_MCP_POLICY_FILE".
Definition platform_ledger_root_from_env : dict string string → result (option string) :=
  path_from_env "RESBENCH_PLATFORM_LEDGER_ROOT".

(** ** The registry *)

(** [r_file] is the document in the policy file, [r_ledger] the ledger if the registry has
    one; [r_ticks] counts the file system's answers and the readings of the clock. *)
Record Registry := { r_file : option CapabilityPolicyDocument; r_ledger : option Ledger; r_ticks : nat }.

Section registry.
(** Whether the [n]-th step on the file system raises, the [n]-th reading of the clock, and
    the parameters of the ledger. *)
Context (io : nat → option exn) (clock : nat → Z).
Context (utc_now : nat → Z) (uuid : nat → string) (sqlite chmod : nat → option exn).

#[local] Abbreviation st := (prog Registry).

Definition ticked (s : Registry) : Registry := {| r_file := r_file s; r_ledger := r_ledger s; r_ticks := S (r_ticks s) |}.
Definition io_step : st unit := λ s,
  (ticked s, match io (r_ticks s) with Some e => Err e | None => Ok tt end).
(** A step whose failure is reported as a [CapabilityPolicyError]. *)
Definition guarded_step (message : string) : st unit := λ s,
  (ticked s, match io (r_ticks s) with Some _ => raise CapabilityPolicyError message | None => Ok tt end).
Definition _utc_now_datetime : st datetime := λ s, (ticked s, Ok (utc_of (clock (r_ticks s)))).

(** The symbolic links and the name are checked, then the directory is made private and a
    temporary file written; [os.replace]; then the mode and the directory are synced. *)
Definition _write_policy_document (document : CapabilityPolicyDocument) : st unit :=
  guarded_step "MCP policy file name is invalid" ;;
  io_step ;;
  modify (λ s, {| r_file := Some document; r_ledger := r_ledger s; r_ticks := r_ticks s |}) ;;
  io_step.

Definition _read_policy_document : st CapabilityPolicyDocument :=
  guarded_step "configured MCP policy file must be 0600" ;;
  found ← gets r_file;
  document ← lift (opt_or_raise found CapabilityPolicyError "configured MCP policy file is missing");
  guarded_step "configured MCP policy file is invalid" ;;
  mret document.

(** Opening and locking may fail, and so may what [finally] does. *)
Definition and_unlock {A} (body : st A) : st A := finally body io_step.
Definition _locked {A} (body : st A) : st A := io_step ;; and_unlock body.

Definition _record (document : CapabilityPolicyDocument) (event_type : string) (payload : mapping) : st unit := λ s,
  match r_ledger s with
  | None => (s, Ok tt)
  | Some ledger =>
      let (ledger', r) := append utc_now sqlite chmod (cp_trial_id document) event_type (Time (cp_since document))
                            (dict_update [("sequence", VInt (cp_sequence document))] payload) ledger in
      ({| r_file := r_file s; r_ledger := Some ledger'; r_ticks := r_ticks s |}, (λ _, tt) <$> r)
  end.

Definition _reject_harness_channel (server_name : string) : result unit :=
  require (negb (String.eqb server_name PROTECTED_HARNESS_CHANNEL)) CapabilityPolicyError
    "harness_channel policy is not mutable".

(** [_next_document] *)
Definition _next_document (current : CapabilityPolicyDocument) (servers : dict string ServerPolicy) (source : string)
    : st CapabilityPolicyDocument :=
  since ← _utc_now_datetime;
  lift (build_document (cp_trial_id current) (cp_sequence current + 1) source since servers).

Definition initialize (trial_id : string) (profile : PermissionProfile) (source : string) : st CapabilityPolicyDocument :=
  lift (require (negb (existsb (String.eqb PROTECTED_HARNESS_CHANNEL) (mcp_servers profile))) CapabilityPolicyError
          "harness_channel policy is not mutable") ;;
  lift (validation (forallb identifier (mcp_servers profile))) ;;
  let servers := fold_left (λ d name, dset name (new_server name) d) (mcp_servers profile) [] in
  since ← _utc_now_datetime;
  document ← lift (build_document trial_id 1 source since servers);
  _locked (_write_policy_document document) ;;
  _record document "POLICY_APPLIED" [("source", VStr source)] ;;
  mret document.

(** The fields a call of [set_server] gives. *)
Definition updated_server (existing : ServerPolicy) (state : option ServerState) (until : option datetime)
    (variant : option UncertaintyVariant) (reason : option string) : ServerPolicy :=
  {| sp_server_name := sp_server_name existing;
     sp_state := default (sp_state existing) state;
     sp_reason := match reason with Some r => Some r | None => sp_reason existing end;
     sp_tools := sp_tools existing;
     sp_unavailable_until := match until with Some t => Some t | None => sp_unavailable_until existing end;
     sp_variant := match variant with Some v => Some v | None => sp_variant existing end |}.

Definition set_server (server_name : string) (state : option ServerState) (channel_unavailable_until : option datetime)
    (variant : option UncertaintyVariant) (reason : option string) (source : string) : st CapabilityPolicyDocument :=
  lift (_reject_harness_channel server_name) ;;
  updated ← _locked (
    current ← _read_policy_document;
    existing ← lift (match server_policy current server_name with
                     | Some p => Ok p
                     | None => validation (identifier server_name) ;; Ok (new_server server_name)
                     end);
    let server := updated_server existing state channel_unavailable_until variant reason in
    lift (validation (server_ok server)) ;;
    updated ← _next_document current (dset server_name server (cp_servers current)) source;
    _write_policy_document updated ;;
    mret updated);
  new_state ← lift (opt_or_raise (sp_state <$> server_policy updated server_name) KeyError server_name);
  _record updated "POLICY_APPLIED"
    [("source", VStr source); ("server", VStr server_name); ("state", VStr (server_state_value new_state))] ;;
  mret updated.

Definition with_tool (server : ServerPolicy) (tool_name : string) (tool : ToolPolicy) : ServerPolicy :=
  {| sp_server_name := sp_server_name server; sp_state := sp_state server; sp_reason := sp_reason server;
     sp_tools := dset tool_name tool (sp_tools server); sp_unavailable_until := sp_unavailable_until server;
     sp_variant := sp_variant server |}.

Definition set_tool (server_name tool_name : string) (state : option ToolState) (reason : option string) (source : string)
    : st CapabilityPolicyDocument :=
  lift (_reject_harness_channel server_name) ;;
  updated ← _locked (
    current ← _read_policy_document;
    existing_server ← lift (match server_policy current server_name with
                            | Some p => Ok p
                            | None => validation (identifier server_name) ;; Ok (new_server server_name)
                            end);
    let existing_tool := default new_tool (dget tool_name (sp_tools existing_server)) in
    let tool := {| tp_state := state;
                   tp_reason := match reason with Some r => Some r | None => tp_reason existing_tool end |} in
    lift (validation (tool_ok tool)) ;;
    let server := with_tool existing_server tool_name tool in
    lift (validation (server_ok server)) ;;
    updated ← _next_document current (dset server_name server (cp_servers current)) source;
    _write_policy_document updated ;;
    mret updated);
  _record updated "POLICY_APPLIED"
    [("source", VStr source); ("server", VStr server_name); ("tool", VStr tool_name);
     ("state", from_option (λ t, VStr (tool_state_value t)) VNone state)] ;;
  mret updated.

Definition restore (snapshot : CapabilityPolicyDocument) (source : string) : st CapabilityPolicyDocument :=
  lift (require (negb (dmem PROTECTED_HARNESS_CHANNEL (cp_servers snapshot))) CapabilityPolicyError
          "harness_channel policy is not mutable") ;;
  restored ← _locked (
    current ← _read_policy_document;
    restored ← _next_document current (cp_servers snapshot) source;
    _write_policy_document restored ;;
    mret restored);
  _record restored "POLICY_RESTORED" [("source", VStr source)] ;;
  mret restored.

Definition snapshot : st CapabilityPolicyDocument := _read_policy_document.

(** [write_policy_file], which neither locks nor records *)
Definition write_policy_file (trial_id : string) (servers : dict string ServerPolicy) (sequence : Z) (source : string)
    (since : option datetime) : st CapabilityPolicyDocument :=
  since ← (match since with Some t => mret t | None => _utc_now_datetime end);
  document ← lift (build_document trial_id sequence source since servers);
  _write_policy_document document ;;
  mret document.
End registry.
