(* ===== verification/CapabilityPolicyProps.v ===== *)
(** * What the registry of tool policies promises

    Every call changes the policy file at once or not at all, by one document with the next
    number, which the ledger records; the Harness channel is never in it; setting one tool
    changes that tool. *)

From S2P Require Import Prelude Hoare PyFloat PyVal PyTime PyIso PyStamp PlatformLedger PlatformLedgerInv CapabilityPolicy.

#[local] Open Scope Z_scope.

(** ** What a call may change *)

Inductive RegistryOp :=
  | Initialize (trial_id : string) (profile : PermissionProfile) (source : string)
  | SetServer (name : string) (state : option ServerState) (until : option datetime) (variant : option UncertaintyVariant)
      (reason : option string) (source : string)
  | SetTool (server tool : string) (state : option ToolState) (reason : option string) (source : string)
  | Restore (snapshot : CapabilityPolicyDocument) (source : string).

(** The server a call starts from. *)
Definition server_or_new (name : string) (servers : dict string ServerPolicy) : ServerPolicy :=
  default (new_server name) (dget name servers).

Definition set_tool_of (existing : ServerPolicy) (tool : string) (state : option ToolState) (reason : option string) : ServerPolicy :=
  with_tool existing tool
    {| tp_state := state;
       tp_reason := match reason with
                    | Some r => Some r
                    | None => tp_reason (default new_tool (dget tool (sp_tools existing)))
                    end |}.

(** The servers a call leaves. *)
Definition servers_after (op : RegistryOp) (servers : dict string ServerPolicy) : dict string ServerPolicy :=
  match op with
  | Initialize _ profile _ => fold_left (λ d name, dset name (new_server name) d) (mcp_servers profile) []
  | SetServer name state until variant reason _ =>
      dset name (updated_server (server_or_new name servers) state until variant reason) servers
  | SetTool server tool state reason _ => dset server (set_tool_of (server_or_new server servers) tool state reason) servers
  | Restore snapshot _ => cp_servers snapshot
  end.

Definition well_formed (d : CapabilityPolicyDocument) : bool :=
  forallb (λ kv, server_ok kv.2) (cp_servers d) && forallb (λ kv, String.eqb kv.1 (sp_server_name kv.2)) (cp_servers d) &&
  (1 <=? cp_sequence d).

(** The document that replaces the one in the file. *)
Definition follows (op : RegistryOp) (before : option CapabilityPolicyDocument) (d : CapabilityPolicyDocument) : Prop :=
  well_formed d = true ∧
  match op with
  | Initialize trial_id _ _ => cp_trial_id d = trial_id ∧ cp_sequence d = 1 ∧ cp_servers d = servers_after op []
  | _ => ∃ current, before = Some current ∧ cp_trial_id d = cp_trial_id current ∧
           cp_sequence d = cp_sequence current + 1 ∧ cp_servers d = servers_after op (cp_servers current)
  end.

(** The names a call mentions do not include the protected channel. *)
Definition spares_channel (op : RegistryOp) : Prop :=
  match op with
  | Initialize _ profile _ => PROTECTED_HARNESS_CHANNEL ∉ mcp_servers profile
  | SetServer name _ _ _ _ _ | SetTool name _ _ _ _ => name ≠ PROTECTED_HARNESS_CHANNEL
  | Restore snapshot _ => PROTECTED_HARNESS_CHANNEL ∉ dkeys (cp_servers snapshot)
  end.

#[export] Instance spares_channel_dec op : Decision (spares_channel op).
Proof. destruct op; cbn; apply _. Defined.

(** The ledger, if there is one, has got the event of the document. *)
Definition recorded (d : CapabilityPolicyDocument) (event_type : string) (before after : option Ledger) : Prop :=
  match before with
  | None => after = None
  | Some l => ∃ l' e payload, after = Some l' ∧ events (ld_db l') = events (ld_db l) ++ [e] ∧ pe_type e = event_type ∧
      pe_payload e = _payload_json (dict_update [("sequence", VInt (cp_sequence d))] payload)
  end.
Definition event_of (op : RegistryOp) : string := match op with Restore _ _ => "POLICY_RESTORED" | _ => "POLICY_APPLIED" end.

Section registry.
Context (io : nat → option exn) (clock : nat → Z).
Context (utc_now : nat → Z) (sqlite chmod : nat → option exn).

#[local] Abbreviation st := (prog Registry).

Definition registry_op (op : RegistryOp) : st CapabilityPolicyDocument :=
  match op with
  | Initialize trial_id profile source => initialize io clock utc_now sqlite chmod trial_id profile source
  | SetServer name state until variant reason source =>
      set_server io clock utc_now sqlite chmod name state until variant reason source
  | SetTool server tool state reason source => set_tool io clock utc_now sqlite chmod server tool state reason source
  | Restore snapshot source => restore io clock utc_now sqlite chmod snapshot source
  end.

(** ** Steps *)

(** The file is as it was, or holds a document with [P]; the ledger is as it was. *)
Definition unchanged (f : option CapabilityPolicyDocument) (l : option Ledger) (s : Registry) : Prop :=
  r_file s = f ∧ r_ledger s = l.
Definition written (P : CapabilityPolicyDocument → Prop) (l : option Ledger) (d : CapabilityPolicyDocument) (s : Registry) : Prop :=
  P d ∧ r_file s = Some d ∧ r_ledger s = l.
Definition torn (P : CapabilityPolicyDocument → Prop) (f : option CapabilityPolicyDocument) (s : Registry) : Prop :=
  r_file s = f ∨ ∃ d, P d ∧ r_file s = Some d.

Lemma unchanged_torn P f l s : unchanged f l s → torn P f s.
Proof. intros []. by left. Qed.
Lemma written_torn P f l d s : written P l d s → torn P f s.
Proof. intros (? & ? & ?). right. eauto. Qed.
#[local] Hint Resolve unchanged_torn written_torn : core.

(** Steps that only tick. *)
Definition ticks {A} (p : st A) : Prop := ∀ s, r_file (p s).1 = r_file s ∧ r_ledger (p s).1 = r_ledger s.

Lemma ticks_triple {A} (p : st A) f l : ticks p → triple (unchanged f l) p (λ _, unchanged f l) (unchanged f l).
Proof. intros Hp s [H1 H2]. destruct (Hp s) as [H3 H4]. destruct (p s) as [s' []]; cbn in *; split; congruence. Qed.
Lemma ticks_io : ticks (io_step io).
Proof. done. Qed.
Lemma ticks_guarded message : ticks (guarded_step io message).
Proof. done. Qed.
Lemma ticks_clock : ticks (_utc_now_datetime clock).
Proof. done. Qed.
#[local] Hint Resolve ticks_io ticks_guarded ticks_clock : core.

Lemma ticks_then {A B} (p : st A) (f : A → st B) file l Q (E : Registry → Prop) : ticks p →
  (∀ s, unchanged file l s → E s) → (∀ a, triple (unchanged file l) (f a) Q E) → triple (unchanged file l) (p ≫= f) Q E.
Proof.
  intros Hp HE Hf. eapply triple_bind; [|intros a; apply Hf].
  eapply triple_post; [by apply ticks_triple|done|exact HE].
Qed.

Lemma lift_then {A B} (r : result A) (f : A → st B) P Q (E : Registry → Prop) : (∀ s, P s → E s) →
  (∀ a, r = Ok a → triple P (f a) Q E) → triple P (lift r ≫= f) Q E.
Proof. intros HE Hf s Hs. destruct r as [a|e]; [by apply (Hf a)|by apply HE]. Qed.

Lemma write_triple P f l d : P d →
  triple (unchanged f l) (_write_policy_document io d) (λ _, written P l d) (torn P f).
Proof.
  intros HP. unfold _write_policy_document. do 2 (apply ticks_then; [done|eauto|intros ?]).
  intros s [_ Hl]. unfold modify, io_step. rewrite prog_bind_eq. cbv beta iota.
  destruct (io _); [|done]. right. by exists d.
Qed.

Lemma read_triple f l : triple (unchanged f l) (_read_policy_document io)
  (λ d s, f = Some d ∧ unchanged f l s) (unchanged f l).
Proof.
  unfold _read_policy_document. apply ticks_then; [done..|]. intros ?.
  eapply triple_bind with (Q := λ found s, found = f ∧ unchanged f l s); [by intros s [? ?]|].
  intros found. apply triple_pure. intros ->. apply lift_then; [done|]. intros d [= ->]%opt_or_raise_Ok.
  eapply triple_bind; [by apply ticks_triple|]. intros ?. apply triple_ret. done.
Qed.

Lemma locked_triple P f l (body : st CapabilityPolicyDocument) :
  triple (unchanged f l) body (written P l) (torn P f) →
  triple (unchanged f l) (_locked io body) (written P l) (torn P f).
Proof.
  intros Hb. unfold _locked. apply ticks_then; [done|eauto|]. intros ? s Hs. specialize (Hb s Hs). unfold and_unlock, finally.
  destruct (body s) as [s' [d|e]]; unfold io_step; destruct (io _); try done.
  destruct Hb as (? & ? & ?). right. by exists d.
Qed.

Lemma record_triple P f l event_type payload d : str_strip event_type = event_type →
  triple (written P l d) (_record utc_now sqlite chmod d event_type payload)
    (λ _ s, P d ∧ r_file s = Some d ∧ recorded d event_type l (r_ledger s)) (torn P f).
Proof.
  intros Hstrip s (HP & Hf & Hl). unfold _record, recorded. rewrite Hl. destruct l as [l|]; [|done].
  pose proof (append_effect utc_now sqlite chmod (cp_trial_id d) event_type (Time (cp_since d))
    (dict_update [("sequence", VInt (cp_sequence d))] payload) l) as Ha. cbv zeta in Ha.
  destruct (append _ _ _ _ _ _ _ l) as [l' [e|x]]; cbn.
  - split; [done|]. split; [done|]. destruct Ha as (E1 & _ & E2 & E3).
    exists l', e, payload. rewrite E2. done.
  - right. by exists d.
Qed.

(** ** The calls *)

(** What a call has done when it returns [d]. *)
Definition recorded_change (op : RegistryOp) (f : option CapabilityPolicyDocument) (l : option Ledger)
    (d : CapabilityPolicyDocument) (s : Registry) : Prop :=
  follows op f d ∧ r_file s = Some d ∧ recorded d (event_of op) l (r_ledger s).

Lemma build_Ok trial sequence source since servers d : build_document trial sequence source since servers = Ok d →
  well_formed d = true ∧ cp_trial_id d = trial ∧ cp_sequence d = sequence ∧ cp_servers d = servers.
Proof.
  unfold build_document, validation, well_formed. intros H. inv_ok. cbn.
  match goal with H : _ && _ = true |- _ => rewrite !andb_true_iff in H; destruct H as [[[_ Hs] _] Hv] end.
  rewrite Hs, Hv. split_and!; try done. by rewrite !andb_true_iff.
Qed.

(** A new document is written under the lock. *)
Lemma next_triple op f l current servers source : f = Some current → servers = servers_after op (cp_servers current) →
  (∀ d, follows op f d ↔ well_formed d = true ∧ ∃ current, f = Some current ∧ cp_trial_id d = cp_trial_id current ∧
     cp_sequence d = cp_sequence current + 1 ∧ cp_servers d = servers_after op (cp_servers current)) →
  triple (unchanged f l)
    (updated ← _next_document clock current servers source; _write_policy_document io updated ;; mret updated)
    (written (follows op f) l) (torn (follows op f) f).
Proof.
  intros Hf Hservers Hop. unfold _next_document.
  eapply triple_bind with (Q := λ d s, follows op f d ∧ unchanged f l s).
  - apply ticks_then; [done|eauto|]. intros since.
    apply triple_lift; [|eauto]. intros s d Hs (Hw & Ht & Hq & Hv)%build_Ok. split; [|done].
    apply Hop. split; [done|]. exists current. rewrite Hv. auto.
  - intros d. apply triple_pure. intros Hd. eapply triple_bind; [by apply (write_triple (follows op f))|].
    intros ?. by apply triple_ret.
Qed.

(** The rest of a call, once the lock is free. *)
Lemma recorded_triple op f l payload d : str_strip (event_of op) = event_of op →
  triple (written (follows op f) l d) (_record utc_now sqlite chmod d (event_of op) payload ;; mret d)
    (recorded_change op f l) (torn (follows op f) f).
Proof. intros He. eapply triple_bind; [by apply record_triple|]. intros ?. by apply triple_ret. Qed.

Lemma existing_server name servers p :
  match dget name servers with
  | Some p => Ok p
  | None => validation (identifier name) ;; Ok (new_server name)
  end = Ok p → p = server_or_new name servers.
Proof. unfold server_or_new, validation. destruct (dget name servers); intros H; inv_ok; done. Qed.

Lemma registry_op_triple op f l : triple (unchanged f l) (registry_op op) (recorded_change op f l) (torn (follows op f) f).
Proof.
  destruct op as [trial profile source|name state until variant reason source|name tool state reason source|snap source];
    cbn [registry_op].
  - unfold initialize. apply lift_then; [eauto|]. intros _ _. apply lift_then; [eauto|]. intros _ _. cbv zeta.
    apply ticks_then; [done|eauto|]. intros since. apply lift_then; [eauto|].
    intros d (Hw & Ht & Hq & Hv)%build_Ok.
    eapply triple_bind with (Q := λ _, written (follows (Initialize trial profile source) f) l d);
      [|intros ?; by apply (recorded_triple (Initialize trial profile source))].
    unfold _locked. apply ticks_then; [done|eauto|]. intros ? s Hs.
    pose proof (write_triple (follows (Initialize trial profile source) f) f l d) as Hwr. specialize (Hwr (conj Hw (conj Ht (conj Hq Hv))) s Hs).
    unfold and_unlock, finally. destruct (_write_policy_document io d s) as [s' [u|e]]; unfold io_step; destruct (io _); try done.
    destruct Hwr as (? & ? & ?). right. by exists d.
  - unfold set_server. set (op := SetServer name state until variant reason source).
    apply lift_then; [eauto|]. intros _ _.
    eapply triple_bind with (Q := written (follows op f) l).
    + apply locked_triple. eapply triple_bind with (Q := λ d s, f = Some d ∧ unchanged f l s).
      { eapply triple_post; [apply read_triple|done|eauto]. }
      intros current. apply triple_pure. intros Hf. apply lift_then; [eauto|].
      intros existing He%existing_server. cbv zeta. apply lift_then; [eauto|]. intros _ _.
      apply next_triple; [done|by subst existing|done].
    + intros d. apply lift_then; [eauto|]. intros new_state _. by apply (recorded_triple op).
  - unfold set_tool. set (op := SetTool name tool state reason source).
    apply lift_then; [eauto|]. intros _ _.
    eapply triple_bind with (Q := written (follows op f) l).
    + apply locked_triple. eapply triple_bind with (Q := λ d s, f = Some d ∧ unchanged f l s).
      { eapply triple_post; [apply read_triple|done|eauto]. }
      intros current. apply triple_pure. intros Hf. apply lift_then; [eauto|].
      intros existing He%existing_server. cbv zeta. do 2 (apply lift_then; [eauto|]; intros _ _).
      apply next_triple; [done|by subst existing|done].
    + intros d. by apply (recorded_triple op).
  - unfold restore. set (op := Restore snap source). apply lift_then; [eauto|]. intros _ _.
    eapply triple_bind with (Q := written (follows op f) l).
    + apply locked_triple. eapply triple_bind with (Q := λ d s, f = Some d ∧ unchanged f l s).
      { eapply triple_post; [apply read_triple|done|eauto]. }
      intros current. apply triple_pure. intros Hf. by apply next_triple.
    + intros d. by apply (recorded_triple op).
Qed.

(** A call that names the protected channel changes nothing. *)
Lemma channel_refused op s : ¬ spares_channel op → r_file (registry_op op s).1 = r_file s ∧
  ∀ d, (registry_op op s).2 ≠ Ok d.
Proof.
  intros H. destruct op as [trial profile source|name state until variant reason source|name tool state reason source|snap source];
    cbn in H |- *.
  - unfold initialize, require. destruct (existsb _ _) eqn:E; [by split|]. destruct H. intros Hin.
    apply Bool.not_true_iff_false in E. destruct E. apply existsb_exists. exists PROTECTED_HARNESS_CHANNEL.
    rewrite String.eqb_refl. by rewrite <- list_elem_of_In.
  - apply dec_stable in H as ->. by split.
  - apply dec_stable in H as ->. by split.
  - unfold restore, require. destruct (dmem _ _) eqn:E; [by split|]. destruct H. intros Hin.
    apply bool_decide_eq_false in E. destruct E. by apply dget_is_Some.
Qed.

(** C30: Whatever the file system, the clock and the ledger answer, a call that returns has
    replaced the policy file by a well-formed document with the next sequence number (1 when
    the policy is initialized) and exactly the servers the call asks for, and recorded it; a
    call that raises has left the file as it was or replaced it by that document; a call
    that names the Harness channel leaves the file as it was. *)
Theorem policy_changes_atomic op s :
  let (s', r) := registry_op op s in
  match r with
  | Ok d => spares_channel op ∧ follows op (r_file s) d ∧ r_file s' = Some d ∧
      recorded d (event_of op) (r_ledger s) (r_ledger s')
  | Err _ => r_file s' = r_file s ∨ spares_channel op ∧ ∃ d, follows op (r_file s) d ∧ r_file s' = Some d
  end.
Proof.
  pose proof (registry_op_triple op (r_file s) (r_ledger s) s (conj eq_refl eq_refl)) as Ht.
  destruct (decide (spares_channel op)) as [Hc|Hc].
  - destruct (registry_op op s) as [s' [d|e]]; [|destruct Ht as [|]; auto].
    destruct Ht as (? & ? & ?). auto.
  - destruct (channel_refused op s Hc) as [Hf Hr]. destruct (registry_op op s) as [s' [d|e]]; [by destruct (Hr d)|by left].
Qed.

(** ** Histories *)

(** What can become of a registry without a policy file, whatever its ledger gets from others. *)
Inductive policy_reach : Registry → Prop :=
  | policy_new l n : policy_reach {| r_file := None; r_ledger := l; r_ticks := n |}
  | policy_op op s : policy_reach s → policy_reach (registry_op op s).1
  | policy_ledger s l : policy_reach s → policy_reach {| r_file := r_file s; r_ledger := l; r_ticks := r_ticks s |}.

Lemma servers_spared op servers : spares_channel op → dget PROTECTED_HARNESS_CHANNEL servers = None →
  dget PROTECTED_HARNESS_CHANNEL (servers_after op servers) = None.
Proof.
  destruct op as [trial profile source|name state until variant reason source|name tool state reason source|snap source];
    cbn [spares_channel servers_after]; intros Hc Hn; [|by rewrite dget_dset_ne by done..|by apply dget_None].
  assert (Hf : ∀ l d, PROTECTED_HARNESS_CHANNEL ∉ l → dget PROTECTED_HARNESS_CHANNEL d = None →
    dget PROTECTED_HARNESS_CHANNEL (fold_left (λ d name, dset name (new_server name) d) l d) = None).
  { induction l as [|x l IH]; intros d Hl Hd; [done|]. apply not_elem_of_cons in Hl as [Hx Hl].
    apply (IH _ Hl). by rewrite dget_dset_ne. }
  by apply Hf.
Qed.

(** In every reachable registry the policy document is well formed and the Harness channel is
    not in it. *)
Theorem channel_never_in_policy s d : policy_reach s → r_file s = Some d →
  well_formed d = true ∧ server_policy d PROTECTED_HARNESS_CHANNEL = None.
Proof.
  intros Hs. revert d. induction Hs as [l n|op s Hs IH|s l Hs IH]; intros d Hd; [done| |by apply IH].
  pose proof (registry_op_triple op _ _ s (conj eq_refl eq_refl)) as Ha.
  destruct (decide (spares_channel op)) as [Hc|Hc];
    [|destruct (channel_refused op s Hc) as [Hf _]; apply IH; cbn in Hd; congruence].
  destruct (registry_op op s) as [s' r]. cbn in Hd.
  assert (Hstep : follows op (r_file s) d →
    well_formed d = true ∧ server_policy d PROTECTED_HARNESS_CHANNEL = None).
  { intros [Hw Hf]. split; [done|]. unfold server_policy. destruct op.
    1: destruct Hf as (_ & _ & ->); by apply servers_spared.
    all: destruct Hf as (current & Hcur & _ & _ & ->); apply servers_spared; [done|]; by apply (IH current). }
  destruct r as [d'|e].
  - destruct Ha as (Hf & Hfile & _). rewrite Hfile in Hd. injection Hd as ->. auto.
  - destruct Ha as [Ha|(d' & Hf & Ha)]; [apply IH; congruence|]. rewrite Ha in Hd. injection Hd as ->. auto.
Qed.

(** Setting a tool's state gives that tool the state, or its server's when none is named, and
    leaves every other tool of a server in the policy, and every other server, with the
    state it had; a server that was not in the policy comes in enabled. *)
Theorem set_tool_exact server tool state reason source s :
  match (registry_op (SetTool server tool state reason source) s).2 with
  | Ok d => ∃ current, r_file s = Some current ∧ ∀ server' tool',
      effective_tool_state (server_policy d server') tool' =
        if decide (server' = server) then
          if decide (tool' = tool) then
            default (of_server_state (sp_state (server_or_new server (cp_servers current)))) state
          else effective_tool_state (Some (server_or_new server (cp_servers current))) tool'
        else effective_tool_state (server_policy current server') tool'
  | Err _ => True
  end.
Proof.
  pose proof (registry_op_triple (SetTool server tool state reason source) _ _ s (conj eq_refl eq_refl)) as Ha.
  destruct (registry_op _ s) as [s' [d|e]]; [|done]. destruct Ha as ((_ & current & Hcur & _ & _ & Hs) & _).
  exists current. split; [done|]. intros server' tool'. unfold server_policy. rewrite Hs. cbn [servers_after].
  rewrite dget_dset. case_decide as Hserver; [|done]. cbn [effective_tool_state set_tool_of with_tool sp_tools sp_state].
  rewrite dget_dset. case_decide as Htool; [|done]. by destruct state.
Qed.
End registry.

(** ** Examples *)

Section examples.
Definition demo_profile : PermissionProfile := {| profile_id := "p1"; mcp_servers := ["telemetry_ro"; "chaos_control"] |}.
Definition demo_op : RegistryOp → Registry → Registry * result CapabilityPolicyDocument :=
  registry_op (λ _, None) (λ n, Z.of_nat n) (λ n, Z.of_nat n) (λ _, None) (λ _, None).
Definition demo_new : Registry :=
  (demo_op (Initialize "trial-1" demo_profile "controller")
     {| r_file := None; r_ledger := Some {| ld_db := empty_ledger; ld_ticks := 0 |}; r_ticks := 0 |}).1.
Definition demo_state (s : Registry) (server tool : string) : option ToolState :=
  (λ d, effective_tool_state (server_policy d server) tool) <$> r_file s.

(** A server the Trial was not given is disabled; disabling one of its tools enables the others. *)
Example set_tool_opens_server :
  demo_state demo_new "source_ro" "read" = Some ToolDisabled ∧
  demo_state (demo_op (SetTool "source_ro" "search" (Some ToolDisabled) None "disturbance") demo_new).1 "source_ro" "read"
    = Some ToolEnabled.
Proof. vm_compute. done. Qed.

Lemma channel_never_in_policy_witness : ∃ d, r_file demo_new = Some d ∧
  well_formed d = true ∧ server_policy d PROTECTED_HARNESS_CHANNEL = None.
Proof.
  eexists. split; [vm_compute; reflexivity|].
  apply (channel_never_in_policy (λ _, None) (λ n, Z.of_nat n) (λ n, Z.of_nat n) (λ _, None) (λ _, None) demo_new);
    [|vm_compute; reflexivity].
  apply policy_op, policy_new.
Defined.
End examples.
