(* ===== verification/HarnessChannel.v ===== *)
(** * The Harness channel ([mcp_servers/harness_channel/])

    What an Agent can ask of the Harness during a Trial: a hint when a disturbance took its
    tools away, the confirmation of a plan, a place for its result, and notices. The Trial's
    ledger says what happened, the policy document what is disabled now; a responder answers
    for the user. Text is ASCII where it is stripped, folded or measured. *)

From S2P Require Import Prelude PyFloat PyVal PyTime PyIso PlanSchema TrialContracts SimulatedUser PlatformLedger CapabilityPolicy.

#[local] Notation unit := Datatypes.unit.

#[local] Open Scope Z_scope.

(** ** The responder *)

(** What the channel needs of a simulated user: [reply], its model's name, and the
    diagnostic of the timeout the last [reply] raised. *)
Class UserResponder (R : Type) := {
  responder_reply : mapping → mapping → prog R mapping;
  responder_model : option string;
  timeout_diagnostic : R → mapping }.

(** ** Hints ([hints.py]) *)

Definition NEUTRAL_NO_INFORMATION : string := "当前没有可提供的信息。".
Definition D7_A_DEFAULT : string := "可以使用 Coroot 查询本次实验的指标、Trace 或日志。".
Definition D7_A_TELEMETRY : string := "可以使用 Prometheus、Jaeger 或 Loki 查询本次实验的指标、Trace 或日志。".
Definition D7_B : string := "请检查其他已授权的观测工具，也可以编写代码获取、组合和分析证据。".
Definition D8_A_DEFAULT : string := "可以使用 Chaos Mesh，请提出与原方案等价的注入方案，经确认后执行。".
Definition D8_A_CHAOSBLADE : string := "可以使用 ChaosBlade，请提出与原方案等价的注入方案，经确认后执行。".
Definition D8_B : string := "请寻找其他已授权的注入方法，也可以编写代码实现；执行方案需经过 Harness 确认。".

Definition _normalize (value : option string) : string :=
  unchars (map (λ c, if bool_decide (c = "_"%char) then "-"%char else c) (chars (str_upper (str_strip (default "" value))))).

Definition render_hint (case_id variant disabled_server : string) : option string :=
  let case := _normalize (Some case_id) in
  let side := _normalize (Some variant) in
  let is_ a b := bool_decide (case = a) && bool_decide (side = b) in
  if is_ "D7" "A" then Some (if bool_decide (disabled_server = "coroot_ro") then D7_A_TELEMETRY else D7_A_DEFAULT)
  else if is_ "D7" "B" then Some D7_B
  else if is_ "D8" "A" then
    Some (if bool_decide (disabled_server = "chaos_mesh_control") then D8_A_CHAOSBLADE else D8_A_DEFAULT)
  else if is_ "D8" "B" then Some D8_B
  else None.

(** ** Configuration and state *)

Definition OBSERVATION_SERVERS : list string := ["telemetry_ro"; "coroot_ro"].
Definition INJECTION_SERVERS : list string := ["chaos_control"; "chaos_mesh_control"].
Definition DISABLE_EVENTS : list string := ["TOOL_CALL_DENIED_DISABLED"; "DECOY_INVOKED"].
Definition CONFIRM_COMPLETION_ATTEMPTS : nat := 2.
Definition HarnessChannelError : exn_kind := OtherError "HarnessChannelError".

Record HarnessChannelConfig := {
  hc_trial_id : string;
  hc_policy_file : bool;                (* whether one is configured *)
  hc_case_id : option string;
  hc_variant : option string;
  hc_notice_claim_lease_seconds : Z }.

(** The consultation state's file: its JSON, or a text that is not JSON. *)
Inductive StateFile := Absent | Corrupt | Json (payload : val).

(** The channel's files, what reading the policy file gives at present, the ledger and the
    responder. [hc_ticks] counts the answers of the file system, of the clock and [uuid4]. *)
Record Channel (R : Type) := {
  hc_consult_state : StateFile;
  hc_decision : option mapping;
  hc_result : option mapping;
  hc_policy : result CapabilityPolicyDocument;
  hc_ledger : Ledger;
  hc_responder : R;
  hc_ticks : nat }.
Arguments hc_consult_state {R}. Arguments hc_decision {R}. Arguments hc_result {R}. Arguments hc_policy {R}.
Arguments hc_ledger {R}. Arguments hc_responder {R}. Arguments hc_ticks {R}.

(** ** Confirmations that fail *)

(** The first place of a text in another, and what precedes it. *)
Fixpoint before_text (word l : list ascii) : option nat :=
  if is_prefix word l then Some 0%nat
  else match l with [] => None | _ :: rest => S <$> before_text word rest end.

Definition SECRET_MARKERS : list string := ["Bearer "; "api_key="; "token="; "password="; "secret="].

Fixpoint redact_first (markers : list string) (text : string) : string :=
  match markers with
  | [] => text
  | marker :: rest =>
      match before_text (chars (str_lower marker)) (chars (str_lower text)) with
      | Some index => unchars (take index (chars text)) +:+ marker +:+ "<redacted>"
      | None => redact_first rest text
      end
  end.

Definition one_line (value : string) : string :=
  str_strip (unchars (map (λ c, if bool_decide (c = ascii_of_N 13 ∨ c = ascii_of_N 10) then " "%char else c) (chars value))).

Definition _safe_detail (value : string) : string := unchars (take 300 (chars (redact_first SECRET_MARKERS (one_line value)))).

Definition is_timeout (e : exn) : bool := bool_decide (exn_class e = OtherError "HarnessModelTimeout").
Definition is_conversation_error (e : exn) : bool := bool_decide (exn_class e = OtherError "ConversationError") || is_timeout e.

Definition TIMEOUT_DIAGNOSTIC_KEYS : list string :=
  ["attempt"; "request_id"; "upstream_request_id"; "started_at"; "ended_at"; "duration_ms"; "timeout_seconds";
   "timeout_layer"; "model"; "input_characters"; "input_bytes"].

Record ConfirmationFailure := { cf_error_code : string; cf_message : string; cf_diagnostic : mapping }.

Definition _confirmation_failure (e : exn) (timeout : mapping) : ConfirmationFailure :=
  let message := let m := _safe_detail (exn_msg e) in if nonempty m then m else exn_type_name e in
  let diagnostic := [("error_type", VStr (exn_type_name e))] in
  if is_timeout e then
    {| cf_error_code := "HARNESS_MODEL_TIMEOUT";
       cf_message := "Harness model timed out during confirmation: " +:+ message;
       cf_diagnostic := dict_update diagnostic
         (List.filter (λ kv, bool_decide (kv.1 ∈ TIMEOUT_DIAGNOSTIC_KEYS) && negb (is_none kv.2)) timeout) |}
  else if is_conversation_error e then
    {| cf_error_code := "HARNESS_MODEL_COMPLETION_FAILED";
       cf_message := "Harness model completion failed during confirmation: " +:+ message; cf_diagnostic := diagnostic |}
  else
    {| cf_error_code := "HARNESS_CONFIRM_INTERNAL_ERROR"; cf_message := "Harness confirmation failed: " +:+ message;
       cf_diagnostic := diagnostic |}.

Definition _confirmation_denial_code (answer : mapping) : string :=
  let reason := str_strip (str_or_empty (vget answer "reason")) in
  if bool_decide (reason = "plan_schema_invalid") then "PLAN_SCHEMA_INVALID"
  else if bool_decide (reason ∈ ["simulated_user_not_allowed_to_supply_decision"; "simulated_user_policy_violation"])
       then "HARNESS_POLICY_REJECTED"
  else if bool_decide (reason = "safe_refusal_expected") then "EXPECTED_SAFE_REFUSAL"
  else "CONTROLLER_REJECTED".

Definition _bounded_limit (value : Z) : Z := if value <? 1 then 1 else if 50 <? value then 50 else value.

(** An error of the result's JSON schema. *)
Record SchemaViolation := { sv_path : list string; sv_message : string; sv_validator : string }.
Definition schema_error (v : SchemaViolation) : mapping :=
  let path := str_join "." (sv_path v) in
  [("path", VStr (if nonempty path then path else "<root>")); ("message", VStr (sv_message v));
   ("validator", VStr (sv_validator v))].

(** ** The service *)

Section service.
Context {R : Type} `{!UserResponder R}.
(** Whether the [n]-th step on the file system raises, the clock and [uuid4]. *)
Context (io : nat → option exn) (clock : nat → Z) (fresh : nat → string).
(** The parameters of the ledger. *)
Context (utc_now : nat → Z) (uuid : nat → string) (sqlite chmod : nat → option exn).
(** What [jsonschema] finds wrong with a result, in the order of the paths. *)
Context (iter_errors : mapping → list SchemaViolation).
Context (config : HarnessChannelConfig).

#[local] Abbreviation st := (prog (Channel R)).

Definition ticked (s : Channel R) : Channel R := {|
  hc_consult_state := hc_consult_state s; hc_decision := hc_decision s; hc_result := hc_result s; hc_policy := hc_policy s;
  hc_ledger := hc_ledger s; hc_responder := hc_responder s; hc_ticks := S (hc_ticks s) |}.
Definition io_step : st unit := λ s, (ticked s, match io (hc_ticks s) with Some e => Err e | None => Ok tt end).
Definition now : st datetime := λ s, (ticked s, Ok (utc_of (clock (hc_ticks s)))).
Definition uuid4_hex : st string := λ s, (ticked s, Ok (fresh (hc_ticks s))).
Definition _utc_now : st string := t ← now; mret (isoformat t).

Definition on_ledger {A} (m : prog Ledger A) : st A := λ s,
  let (l, r) := m (hc_ledger s) in
  ({| hc_consult_state := hc_consult_state s; hc_decision := hc_decision s; hc_result := hc_result s; hc_policy := hc_policy s;
      hc_ledger := l; hc_responder := hc_responder s; hc_ticks := hc_ticks s |}, r).
Definition on_responder {A} (m : prog R A) : st A := λ s,
  let (x, r) := m (hc_responder s) in
  ({| hc_consult_state := hc_consult_state s; hc_decision := hc_decision s; hc_result := hc_result s; hc_policy := hc_policy s;
      hc_ledger := hc_ledger s; hc_responder := x; hc_ticks := hc_ticks s |}, r).

Definition set_consult_state (payload : mapping) (s : Channel R) : Channel R := {|
  hc_consult_state := Json (VDict payload); hc_decision := hc_decision s; hc_result := hc_result s; hc_policy := hc_policy s;
  hc_ledger := hc_ledger s; hc_responder := hc_responder s; hc_ticks := hc_ticks s |}.
Definition set_decision (payload : mapping) (s : Channel R) : Channel R := {|
  hc_consult_state := hc_consult_state s; hc_decision := Some payload; hc_result := hc_result s; hc_policy := hc_policy s;
  hc_ledger := hc_ledger s; hc_responder := hc_responder s; hc_ticks := hc_ticks s |}.
Definition set_result (payload : mapping) (s : Channel R) : Channel R := {|
  hc_consult_state := hc_consult_state s; hc_decision := hc_decision s; hc_result := Some payload; hc_policy := hc_policy s;
  hc_ledger := hc_ledger s; hc_responder := hc_responder s; hc_ticks := hc_ticks s |}.

(** The directory is made private and a temporary file written; [os.replace]; the mode. *)
Definition _atomic_json (set : Channel R → Channel R) : st unit := io_step ;; modify set ;; io_step.

(** Opening and locking may fail, and so may unlocking. *)
Definition and_unlock {A} (body : st A) : st A := finally body io_step.
Definition _locked {A} (body : st A) : st A := io_step ;; and_unlock body.

Definition _append (event_type : string) (payload : mapping) : st unit :=
  t ← now;
  on_ledger (append utc_now sqlite chmod (hc_trial_id config) event_type (Time t) payload) ;;
  mret tt.

Definition trial_events : st (list PlatformEvent) := on_ledger (query sqlite 0 10000 (Some (hc_trial_id config))).

(** *** Consultation *)

(** The server an event says a disturbance disabled. *)
Definition disturbed_server (e : PlatformEvent) : result (list string) :=
  if negb (bool_decide (pe_type e = "POLICY_APPLIED")) || negb (is_str (vget (pe_payload e) "source") "disturbance") then Ok []
  else match vget (pe_payload e) "server" with
       | VStr server =>
           off ← in_str_set (vget (pe_payload e) "state") ["disabled"; "decoy"];
           Ok (guard_list off server)
       | _ => Ok []
       end.

Definition switched_off (p : ServerPolicy) : bool :=
  match sp_state p with Disabled | Decoy => true | Enabled => false end ||
  existsb (λ kv, match tp_state kv.2 with Some (ToolDisabled | ToolDecoy) => true | _ => false end) (sp_tools p).

Definition current_disabled (d : CapabilityPolicyDocument) : list string :=
  (List.filter (λ kv, switched_off kv.2) (cp_servers d)).*1.

Definition _disturbance_disabled_servers : st (list string) :=
  events ← trial_events;
  found ← lift (mapM disturbed_server events);
  policy ← gets hc_policy;
  mret (if hc_policy_file config then
          match policy with
          | Ok document =>
              if bool_decide (cp_trial_id document = hc_trial_id config)
              then List.filter (λ x, bool_decide (x ∈ current_disabled document)) (concat found)
              else []
          | Err _ => []
          end
        else []).

Definition denied_server (e : PlatformEvent) : list string :=
  if bool_decide (pe_type e ∈ DISABLE_EVENTS)
  then match vget (pe_payload e) "server" with VStr server => [server] | _ => [] end
  else [].
Definition _denied_servers : st (list string) :=
  events ← trial_events; mret (concat (map denied_server events)).

Definition expected_servers : list string :=
  if bool_decide (_normalize (hc_case_id config) = "D7") then OBSERVATION_SERVERS
  else if bool_decide (_normalize (hc_case_id config) = "D8") then INJECTION_SERVERS
  else [].

(** The server whose loss makes a hint due, if there is one. *)
Definition _consult_eligibility : st (option string) :=
  disabled ← _disturbance_disabled_servers;
  denied ← _denied_servers;
  let eligible := sort_by str_leb (dedup (List.filter (λ x, bool_decide (x ∈ denied)) disabled)) in
  mret (head (List.filter (λ x, bool_decide (x ∈ expected_servers)) eligible)).

Definition _decline_consult (question reason : string) : st mapping :=
  _append "CONSULT_DECLINED"
    [("reason", VStr reason); ("question", VStr question); ("message", VStr NEUTRAL_NO_INFORMATION)] ;;
  mret [("ok", VBool true); ("message", VStr NEUTRAL_NO_INFORMATION); ("hint_delivered", VBool false)].

Definition _consult_state : st mapping :=
  file ← gets hc_consult_state;
  lift (match file with
        | Absent => Ok []
        | Corrupt => raise HarnessChannelError "consultation state is corrupt"
        | Json (VDict payload) =>
            require (is_str (vget payload "trial_id") (hc_trial_id config)) HarnessChannelError
              "consultation state belongs to a different Trial" ;; Ok payload
        | Json _ => raise HarnessChannelError "consultation state belongs to a different Trial"
        end).

Definition deliver_hint (disabled_server hint : string) : st mapping :=
  delivered_at ← _utc_now;
  _atomic_json (set_consult_state
    [("schema_version", VStr "stage2-harness-consult-state.v1"); ("trial_id", VStr (hc_trial_id config));
     ("hint_delivered", VBool true); ("delivered_at", VStr delivered_at); ("case_id", opt_str (hc_case_id config));
     ("variant", opt_str (hc_variant config)); ("disabled_server", VStr disabled_server)]) ;;
  _append "HINT_DELIVERED"
    [("case_id", opt_str (hc_case_id config)); ("variant", opt_str (hc_variant config));
     ("disabled_server", VStr disabled_server); ("hint", VStr hint); ("help_counted", VBool true)] ;;
  mret [("ok", VBool true); ("message", VStr hint); ("hint_delivered", VBool true)].

Definition _consult (question : val) : st mapping :=
  let question_text := str_strip (str_or_empty question) in
  _append "CONSULT_REQUESTED"
    [("question", VStr question_text); ("question_length", VInt (Z.of_nat (String.length question_text)))] ;;
  state ← _consult_state;
  if truthy (vget state "hint_delivered") then _decline_consult question_text "hint_already_delivered"
  else
    eligible ← _consult_eligibility;
    match eligible with
    | None => _decline_consult question_text "no_causal_disturbance_denial"
    | Some disabled_server =>
        match render_hint (default "" (hc_case_id config)) (default "" (hc_variant config)) disabled_server with
        | None => _decline_consult question_text "unsupported_case_variant"
        | Some hint => deliver_hint disabled_server hint
        end
    end.

Definition consult (question : val) : st mapping := _locked (_consult question).

(** *** Confirmation *)

Definition reply_context : mapping :=
  [("source", VStr "harness_channel"); ("trial_id", VStr (hc_trial_id config)); ("case_id", opt_str (hc_case_id config));
   ("variant", opt_str (hc_variant config))].

(** [n] attempts are left, the present one has the number [attempt]. *)
Fixpoint reply_attempts (n : nat) (attempt : Z) (question raw_plan : mapping) : st mapping :=
  match n with
  | O => throw HarnessChannelError "Harness confirmation made no attempt"
  | S n' =>
      catch (on_responder (responder_reply question reply_context)) (λ e,
        diagnostic ← gets (λ s, timeout_diagnostic (hc_responder s));
        let failure := _confirmation_failure e diagnostic in
        if is_conversation_error e && negb (is_timeout e) && (attempt <? Z.of_nat CONFIRM_COMPLETION_ATTEMPTS) then
          _append "CONFIRM_RETRIED"
            [("attempt", VInt attempt); ("error_code", VStr (cf_error_code failure)); ("message", VStr (cf_message failure));
             ("responder_model", opt_str responder_model)] ;;
          reply_attempts n' (attempt + 1) question raw_plan
        else
          _append "CONFIRM_FAILED"
            [("plan", VDict raw_plan); ("attempts", VInt attempt); ("responder_model", opt_str responder_model);
             ("error_code", VStr (cf_error_code failure)); ("message", VStr (cf_message failure));
             ("diagnostic", VDict (cf_diagnostic failure))] ;;
          throw HarnessChannelError (cf_message failure))
  end.
Definition _reply_with_retry : mapping → mapping → st mapping := reply_attempts CONFIRM_COMPLETION_ATTEMPTS 1.

(** [answer.get("approved") is True and ...] *)
Definition answer_allows (answer : mapping) : result bool :=
  if is_true (vget answer "approved") && truthy (vget answer "approved_plan")
  then in_str_set (vget answer "answer_mode") ["approve_recommendation"; "custom"]
  else Ok false.

(** What is done about an answer that allows the plan. *)
Definition record_decision (answer : mapping) (assisted : bool) : st unit :=
  submitted_at ← _utc_now;
  _atomic_json (set_decision
    (dset "submitted_at" (VStr submitted_at) (dict_update [("schema_version", VStr "stage2-user-decision.v1")] answer))) ;;
  when assisted (
    plan ← lift (vitem answer "approved_plan");
    _append "PLAN_ASSISTANCE_DELIVERED"
      [("approved_plan", plan); ("affected_nodes", vget_or answer "affected_nodes" (VList [])); ("answer_mode", VStr "custom")]).

Definition confirm (plan : mapping) : st mapping :=
  id ← uuid4_hex;
  let question := [("question_id", VStr ("harness-confirm-" +:+ id)); ("version", VInt 1);
                   ("request_kind", VStr "confirmation"); ("recommendation", VDict plan)] in
  _append "CONFIRM_REQUESTED" [("plan", VDict plan)] ;;
  answer ← _reply_with_retry question plan;
  allowed ← lift (answer_allows answer);
  let assisted := allowed && is_true (vget answer "decision_supplied") in
  let error_code := if allowed then VNone else VStr (_confirmation_denial_code answer) in
  when allowed (record_decision answer assisted) ;;
  _append (if allowed then "CONFIRM_GRANTED" else "CONFIRM_DENIED")
    [("allowed", VBool allowed); ("error_code", error_code); ("reason", vget answer "reason");
     ("answer_mode", vget answer "answer_mode"); ("approved_plan", vget answer "approved_plan");
     ("responder_model", opt_str responder_model)] ;;
  mret [("ok", VBool true); ("allowed", VBool allowed); ("error_code", error_code); ("reason", vget answer "reason");
        ("message", vget answer "message"); ("approved_plan", vget answer "approved_plan"); ("assisted", VBool assisted);
        ("affected_nodes", vget_or answer "affected_nodes" (VList []))].

(** *** Results and notices *)

Definition _submit_result (candidate : mapping) : st mapping :=
  let errors := VList (map (λ v, VDict (schema_error v)) (iter_errors candidate)) in
  let valid := empty (iter_errors candidate) in
  when valid (_atomic_json (set_result candidate)) ;;
  _append "RESULT_SUBMITTED" [("valid", VBool valid); ("errors", errors); ("stored", VBool valid)] ;;
  mret [("ok", VBool valid); ("valid", VBool valid); ("errors", errors)].
Definition submit_result (candidate : mapping) : st mapping := _locked (_submit_result candidate).

(** One id of [ack_ids]: acknowledged, or an error the ledger's [KeyError] stands for. *)
Definition acknowledge_id (acc : list mapping * list mapping) (delivery_id : string) : prog Ledger (list mapping * list mapping) :=
  catch
    (notice ← deliver_notice utc_now sqlite chmod delivery_id (Some (hc_trial_id config)) None "poll";
     mret (acc.1 ++ [[("delivery_id", VStr delivery_id); ("notice_id", VInt (nt_id notice))]], acc.2))
    (λ e, match exn_class e with
          | KeyError => mret (acc.1, acc.2 ++ [[("delivery_id", VStr delivery_id); ("error", VStr "UNKNOWN_DELIVERY_ID")]])
          | _ => lift (Err e)
          end).
Fixpoint acknowledge_ids (ids : list string) (acc : list mapping * list mapping) : prog Ledger (list mapping * list mapping) :=
  match ids with
  | [] => mret acc
  | id :: rest => acc ← acknowledge_id acc id; acknowledge_ids rest acc
  end.

Definition poll_notices (ack_ids : list string) (limit : Z) : st mapping :=
  acks ← on_ledger (acknowledge_ids ack_ids ([], []));
  deliveries ← on_ledger (claim_rounds utc_now uuid sqlite chmod (Z.to_nat (_bounded_limit limit)) (hc_trial_id config)
                            "harness_channel.poll" (hc_notice_claim_lease_seconds config) []);
  mret [("ok", VBool true); ("notices", VList (map VDict deliveries)); ("acknowledged", VList (map VDict acks.1));
        ("ack_errors", VList (map VDict acks.2))].
End service.

(** ** The simulated user as the responder *)

(** [_default_responder]'s policy, from the limits in the channel's configuration *)
Definition _default_policy (namespace : string) (max_fault_seconds max_observation_seconds : Z) (allowed_fault_types : list string)
    (outcome : ExpectedOutcome) (decision : DecisionPolicy) (level : AutonomyLevel) : result SimulatedUserPolicy :=
  from_limits namespace max_fault_seconds max_observation_seconds allowed_fault_types outcome decision level None.

(** The model of a channel without one. *)
Definition _model_unavailable (n : nat) (operation : string) (context : mapping) : ModelAnswer :=
  Raised (Exn HarnessChannelError "harness_confirm requires a complete compliant plan") ["HarnessChannelError"] None.

(** A timeout's diagnostic is the record of the request, the last item of the history. *)
Definition simulated_user (model_call : nat → string → mapping → ModelAnswer) (request_size : string → mapping → Z * Z)
    (clock : nat → Z) (monotonic : nat → pyfloat) (uuid : nat → string) (errors : mapping → list SchemaError)
    (config : ResponderConfig) : UserResponder Responder := {|
  responder_reply := reply model_call request_size clock monotonic uuid errors config;
  responder_model := Some (model_name config);
  timeout_diagnostic := λ s, default [] (last (history s)) |}.
