(* ===== verification/HarnessChannelProps.v ===== *)
(** * What the Harness channel promises

    A Trial gets one hint at most, and only when a disturbance took a tool away that the Agent
    then asked for; a decision is written only for a plan the responder approved; with the
    simulated user, only for one within the Trial's envelope. *)

From Stdlib Require Import QArith.
From S2P Require Import Prelude Hoare PyFloat PyVal PyTime PyIso PlanSchema PlatformLedger PlatformLedgerInv CapabilityPolicy.
From S2P Require Import TrialContracts SimulatedUser SimulatedUserProps HarnessChannel.

#[local] Open Scope Z_scope.
#[local] Notation unit := Datatypes.unit.

Section channel.
Context {R : Type} `{!UserResponder R}.
Context (io : nat → option exn) (clock : nat → Z) (fresh : nat → string).
Context (utc_now : nat → Z) (uuid : nat → string) (sqlite chmod : nat → option exn).
Context (iter_errors : mapping → list SchemaViolation).
Context (config : HarnessChannelConfig).

#[local] Abbreviation st := (prog (Channel R)).
#[local] Abbreviation consult := (consult (R := R) io clock utc_now sqlite chmod config).
#[local] Abbreviation confirm := (confirm (R := R) io clock fresh utc_now sqlite chmod config).
#[local] Abbreviation _append := (_append (R := R) clock utc_now sqlite chmod config).

(** What has been recorded. *)
Definition seen (s : Channel R) : list PlatformEvent := events (ld_db (hc_ledger s)).
(** The Trial's name as the ledger has it. *)
Definition this_trial : string := str_strip (hc_trial_id config).

(** The files and the policy of a state, and its events. *)
Record stands (cs : StateFile) (dec res : option mapping) (pol : result CapabilityPolicyDocument)
    (evs : list PlatformEvent) (s : Channel R) : Prop := {
  st_consult : hc_consult_state s = cs;
  st_decision : hc_decision s = dec;
  st_result : hc_result s = res;
  st_policy : hc_policy s = pol;
  st_seen : seen s = evs }.

Lemma stands_self s : stands (hc_consult_state s) (hc_decision s) (hc_result s) (hc_policy s) (seen s) s.
Proof. done. Qed.

(** ** Steps *)

(** Steps that change none of it. *)
Definition silent {A} (m : st A) : Prop := ∀ cs dec res pol evs,
  triple (stands cs dec res pol evs) m (λ _, stands cs dec res pol evs) (stands cs dec res pol evs).

Lemma silent_io : silent (io_step io).
Proof. intros cs dec res pol evs s [????]. unfold io_step. by destruct (io _). Qed.
Lemma silent_now : silent (HarnessChannel.now clock).
Proof. by intros cs dec res pol evs s [????]. Qed.
Lemma silent_utc_now : silent (HarnessChannel._utc_now clock).
Proof. by intros cs dec res pol evs s [????]. Qed.
Lemma silent_uuid : silent (HarnessChannel.uuid4_hex fresh).
Proof. by intros cs dec res pol evs s [????]. Qed.
Lemma silent_lift {A} (r : result A) : silent (lift r).
Proof. intros cs dec res pol evs s Hs. by destruct r. Qed.
Lemma silent_ret {A} (a : A) : silent (mret a).
Proof. by intros cs dec res pol evs s Hs. Qed.
Lemma silent_gets {A} (f : Channel R → A) : silent (gets f).
Proof. by intros cs dec res pol evs s Hs. Qed.
Lemma silent_responder {A} (m : prog R A) : silent (on_responder m).
Proof. intros cs dec res pol evs s [????]. unfold on_responder. destruct (m _) as [x [a|e]]; by split. Qed.

Lemma silent_then {A B} (m : st A) (f : A → st B) cs dec res pol evs Q (E : Channel R → Prop) : silent m →
  (∀ s, stands cs dec res pol evs s → E s) → (∀ a, triple (stands cs dec res pol evs) (f a) Q E) →
  triple (stands cs dec res pol evs) (m ≫= f) Q E.
Proof.
  intros Hm HE Hf. eapply triple_bind; [|intros a; apply Hf]. eapply triple_post; [apply Hm|done|exact HE].
Qed.

(** An event of this Trial. *)
Record event_of (event_type : string) (payload : mapping) (e : PlatformEvent) : Prop := {
  ev_trial : pe_trial e = this_trial;
  ev_type : pe_type e = str_strip event_type;
  ev_payload : pe_payload e = _payload_json payload }.

(** The events are [evs], or one more of the type. *)
Definition maybe_logged (event_type : string) (payload : mapping) (evs : list PlatformEvent) (now : list PlatformEvent) : Prop :=
  now = evs ∨ ∃ e, event_of event_type payload e ∧ now = evs ++ [e].

Lemma append_triple event_type payload cs dec res pol evs : triple (stands cs dec res pol evs) (_append event_type payload)
  (λ _ s, ∃ e, event_of event_type payload e ∧ stands cs dec res pol (evs ++ [e]) s)
  (λ s, ∃ now, maybe_logged event_type payload evs now ∧ stands cs dec res pol now s).
Proof.
  unfold HarnessChannel._append. apply silent_then; [apply silent_now|intros s Hs; exists evs; split; [by left|done]|].
  intros t s [????]. unfold on_ledger. rewrite prog_bind_eq.
  pose proof (append_effect utc_now sqlite chmod (hc_trial_id config) event_type (Time t) payload (hc_ledger s)) as Ha.
  cbv zeta in Ha. destruct (append _ _ _ _ _ _ _ (hc_ledger s)) as [l [e|x]].
  - destruct Ha as (E1 & E2 & E3 & E4). exists e. split; [by split|]. split; try done. unfold seen in *. cbn. congruence.
  - destruct Ha as [Ha|(e & E1 & E2 & E3 & E4)].
    + exists evs. split; [by left|]. split; try done. unfold seen in *. cbn. congruence.
    + exists (evs ++ [e]). split; [right; exists e; by split|]. split; try done. unfold seen in *. cbn. congruence.
Qed.

(** A file that is replaced at once. *)
Lemma atomic_triple set cs dec res pol evs cs' dec' res' :
  (∀ s, stands cs dec res pol evs s → stands cs' dec' res' pol evs (set s)) →
  triple (stands cs dec res pol evs) (_atomic_json io set) (λ _, stands cs' dec' res' pol evs)
    (λ s, stands cs dec res pol evs s ∨ stands cs' dec' res' pol evs s).
Proof.
  intros Hset. unfold _atomic_json. apply silent_then; [apply silent_io|by left|]. intros _.
  eapply triple_bind with (Q := λ _, stands cs' dec' res' pol evs); [by apply triple_modify|]. intros _.
  eapply triple_post; [apply silent_io|done|by right].
Qed.

(** What a call establishes in either case survives taking and releasing the lock. *)
Lemma channel_locked_triple {A} (body : st A) P (Q : A → Channel R → Prop) (E : Channel R → Prop) cs dec res pol evs :
  P = stands cs dec res pol evs → triple P body Q E → (∀ s, P s → E s) → (∀ a s, Q a s → E s) →
  (∀ s, E s → E (ticked s)) → (∀ a s, Q a s → Q a (ticked s)) → triple P (_locked io body) Q E.
Proof.
  intros -> Hb HP HQ HE HT. unfold _locked. apply silent_then; [apply silent_io|done|]. intros _ s Hs. specialize (Hb s Hs).
  unfold and_unlock, finally, io_step. destruct (body s) as [s' [a|e]]; destruct (io _); eauto.
Qed.

(** ** Consultation *)

(** The consultation file says a hint was delivered. *)
Definition delivered (cs : StateFile) : Prop :=
  ∃ payload, cs = Json (VDict payload) ∧ vget payload "trial_id" = VStr (hc_trial_id config) ∧
             truthy (vget payload "hint_delivered") = true.

Lemma query_events cs dec res pol evs : triple (stands cs dec res pol evs) (trial_events sqlite config)
  (λ found s, (∀ e, e ∈ found → e ∈ evs ∧ pe_trial e = this_trial) ∧ stands cs dec res pol evs s)
  (stands cs dec res pol evs).
Proof.
  intros s [????]. unfold trial_events, on_ledger. pose proof (looks_query sqlite 0 10000 (Some (hc_trial_id config)) (hc_ledger s)) as Hl.
  destruct (query _ _ _ _ (hc_ledger s)) as [l [found|e]] eqn:Eq; [|split; try done; unfold seen in *; cbn in *; congruence].
  split; [|split; try done; unfold seen in *; cbn in *; congruence].
  intros e He. unfold seen in *. subst evs. by eapply query_found.
Qed.

Lemma in_str_set_str v l : in_str_set v l = Ok true → ∃ s, v = VStr s ∧ s ∈ l.
Proof.
  unfold in_str_set. intros H. apply bind_Ok_inv in H as (u & _ & [= H]). by apply in_str_list_true.
Qed.

(** What an event says of a server. *)
Definition disturbs (server : string) (e : PlatformEvent) : Prop :=
  pe_trial e = this_trial ∧ pe_type e = "POLICY_APPLIED" ∧ vget (pe_payload e) "source" = VStr "disturbance" ∧
  vget (pe_payload e) "server" = VStr server ∧ ∃ v, vget (pe_payload e) "state" = VStr v ∧ v ∈ ["disabled"; "decoy"].
Definition denies (server : string) (e : PlatformEvent) : Prop :=
  pe_trial e = this_trial ∧ pe_type e ∈ DISABLE_EVENTS ∧ vget (pe_payload e) "server" = VStr server.

Lemma disturbed_server_in e found server : pe_trial e = this_trial → disturbed_server e = Ok found → server ∈ found →
  disturbs server e.
Proof.
  unfold disturbed_server. intros Ht. destruct (bool_decide (pe_type e = _)) eqn:E1; cbn [negb orb];
    [|by intros [= <-] ?%not_elem_of_nil].
  destruct (is_str _ _) eqn:E2; cbn [negb]; [|by intros [= <-] ?%not_elem_of_nil].
  apply bool_decide_eq_true in E1. apply is_str_true in E2. unfold disturbs.
  destruct (vget (pe_payload e) "server") as [| | | |name| |]; try by intros [= <-] ?%not_elem_of_nil.
  intros H Hin. apply bind_Ok_inv in H as (off & Hoff & [= <-]). destruct off; [|by apply not_elem_of_nil in Hin].
  apply list_elem_of_singleton in Hin as ->. apply in_str_set_str in Hoff. auto.
Qed.

Lemma denied_server_in e server : pe_trial e = this_trial → server ∈ denied_server e → denies server e.
Proof.
  unfold denied_server. intros Ht. destruct (bool_decide _) eqn:E; [|by intros ?%not_elem_of_nil]. apply bool_decide_eq_true in E.
  unfold denies. destruct (vget _ _) as [| | | |name| |]; try by intros ?%not_elem_of_nil. by intros ->%list_elem_of_singleton.
Qed.

Lemma mapM_concat_in {A B} (f : A → result (list B)) l found x : mapM f l = Ok found → x ∈ concat found →
  ∃ a r, a ∈ l ∧ f a = Ok r ∧ x ∈ r.
Proof.
  revert found. induction l as [|a l IH]; intros found H Hx; cbn in H.
  - injection H as <-. by apply not_elem_of_nil in Hx.
  - apply bind_Ok_inv in H as (r & Hr & H). apply bind_Ok_inv in H as (rs & Hrs & [= <-]).
    cbn in Hx. apply elem_of_app in Hx as [Hx|Hx]; [exists a, r; split; [left|done]|].
    destruct (IH _ Hrs Hx) as (a' & r' & ? & ? & ?). exists a', r'. split; [by right|done].
Qed.

Lemma elem_of_filter_in (server : string) (l k : list string) :
  server ∈ List.filter (λ x, bool_decide (x ∈ k)) l ↔ server ∈ l ∧ server ∈ k.
Proof. by rewrite !list_elem_of_In, filter_In, bool_decide_eq_true, list_elem_of_In. Qed.

(** A server that is switched off now, as a disturbance left it. *)
Definition off_by_disturbance (pol : result CapabilityPolicyDocument) (evs : list PlatformEvent) (server : string) : Prop :=
  hc_policy_file config = true ∧ (∃ e, e ∈ evs ∧ disturbs server e) ∧
  ∃ d, pol = Ok d ∧ cp_trial_id d = hc_trial_id config ∧ server ∈ current_disabled d.

Lemma disabled_triple cs dec res pol evs :
  triple (stands cs dec res pol evs) (_disturbance_disabled_servers sqlite config)
    (λ disabled s, (∀ server, server ∈ disabled → off_by_disturbance pol evs server) ∧ stands cs dec res pol evs s)
    (stands cs dec res pol evs).
Proof.
  unfold _disturbance_disabled_servers. eapply triple_bind; [apply query_events|]. intros found. apply triple_pure. intros Hfound s Hs.
  destruct (mapM disturbed_server found) as [servers|x] eqn:Em; [|done]. erewrite run_lift by done.
  rewrite prog_bind_eq. cbn [gets]. rewrite (st_policy _ _ _ _ _ _ Hs). split; [|done].
  destruct (hc_policy_file config) eqn:Ec; [|by intros server ?%not_elem_of_nil].
  destruct pol as [d|]; [|by intros server ?%not_elem_of_nil].
  destruct (bool_decide _) eqn:Et; [|by intros server ?%not_elem_of_nil]. apply bool_decide_eq_true in Et.
  intros server [Hin Hd]%elem_of_filter_in. split; [done|]. split; [|by exists d].
  destruct (mapM_concat_in _ _ _ _ Em Hin) as (e & r & He & Hr & Hx). destruct (Hfound e He) as [Hev Ht].
  exists e. split; [done|]. by eapply disturbed_server_in.
Qed.

Lemma denied_triple cs dec res pol evs : triple (stands cs dec res pol evs) (_denied_servers sqlite config)
  (λ denied s, (∀ server, server ∈ denied → ∃ e, e ∈ evs ∧ denies server e) ∧ stands cs dec res pol evs s)
  (stands cs dec res pol evs).
Proof.
  unfold _denied_servers. eapply triple_bind; [apply query_events|]. intros found. apply triple_pure. intros Hfound.
  apply triple_ret. intros s Hs. split; [|done]. intros server Hin. apply list_elem_of_In, in_concat in Hin as (l & Hl & Hin).
  apply in_map_iff in Hl as (e & <- & He). apply list_elem_of_In in He, Hin. destruct (Hfound e He) as [Hev Ht].
  exists e. split; [done|]. by apply denied_server_in.
Qed.

(** A server whose loss makes a hint due: a disturbance of this Trial switched it off, a call of it
    was denied, and the Trial's policy has it switched off at present. *)
Definition hint_due (server : string) (pol : result CapabilityPolicyDocument) (evs : list PlatformEvent) : Prop :=
  server ∈ expected_servers config ∧ off_by_disturbance pol evs server ∧ ∃ e, e ∈ evs ∧ denies server e.

Lemma eligibility_triple cs dec res pol evs : triple (stands cs dec res pol evs) (_consult_eligibility sqlite config)
  (λ found s, (∀ server, found = Some server → hint_due server pol evs) ∧ stands cs dec res pol evs s)
  (stands cs dec res pol evs).
Proof.
  unfold _consult_eligibility. eapply triple_bind; [apply disabled_triple|]. intros disabled. apply triple_pure. intros Hdis.
  eapply triple_bind; [apply denied_triple|]. intros denied. apply triple_pure. intros Hden. apply triple_ret. intros s Hs.
  split; [|done]. intros server Hhead. apply head_Some_elem_of in Hhead. apply elem_of_filter_in in Hhead as [Hin Hexp].
  apply elem_of_sort_by, elem_of_dedup, elem_of_filter_in in Hin as [H1 H2]. split; [done|]. auto.
Qed.

(** Events that are not hints; and a consultation that gave one. *)
Definition plain (new : list PlatformEvent) : Prop := Forall (λ e, pe_type e ≠ "HINT_DELIVERED") new.
Definition hint_pair (new : list PlatformEvent) : Prop := ∃ asked given,
  new = [asked; given] ∧ pe_trial asked = this_trial ∧ pe_type asked = "CONSULT_REQUESTED" ∧
  pe_trial given = this_trial ∧ pe_type given = "HINT_DELIVERED".

Lemma event_plain event_type payload e : event_of event_type payload e → str_strip event_type ≠ "HINT_DELIVERED" → plain [e].
Proof. intros [_ Ht _] Hne. apply Forall_singleton. congruence. Qed.

Lemma hint_due_before server pol evs e : pe_type e = "CONSULT_REQUESTED" → hint_due server pol (evs ++ [e]) → hint_due server pol evs.
Proof.
  intros Ht (H1 & (H2 & (d & Hd & Hd') & H3) & (n & Hn & Hn')). split; [done|].
  assert (∀ x, x ∈ evs ++ [e] → pe_type x ≠ pe_type e → x ∈ evs) as Hin.
  { intros x [Hx|Hx]%elem_of_app; [done|]. by apply list_elem_of_singleton in Hx as ->. }
  split; [split; [done|]; split; [|done]; exists d; split; [|done]|exists n; split; [|done]]; apply Hin; try done; rewrite Ht.
  - destruct Hd' as (_ & -> & _). discriminate.
  - destruct Hn' as (_ & Hn' & _). intros E. rewrite E in Hn'. revert Hn'. by apply (bool_decide_unpack (_ ∉ _)).
Qed.

Section consultation.
Context (cs : StateFile) (dec res : option mapping) (pol : result CapabilityPolicyDocument) (evs : list PlatformEvent).

(** Nothing but the record of the consultation. *)
Definition asked_only (s : Channel R) : Prop := ∃ new, plain new ∧ stands cs dec res pol (evs ++ new) s.
(** The consultation file was written for a hint that was due; [given] says its event is there too. *)
Definition hinted (given : list PlatformEvent → Prop) (s : Channel R) : Prop := ∃ server cs' new,
  hint_due server pol evs ∧ ¬ delivered cs ∧ delivered cs' ∧ given new ∧ stands cs' dec res pol (evs ++ new) s.

Definition consulted (a : mapping) (s : Channel R) : Prop :=
  vget a "hint_delivered" = VBool false ∧ asked_only s ∨ vget a "hint_delivered" = VBool true ∧ hinted hint_pair s.
Definition consult_failed (s : Channel R) : Prop := asked_only s ∨ hinted (λ new, plain new ∨ hint_pair new) s.

Lemma decline_triple question reason asked : plain [asked] →
  triple (stands cs dec res pol (evs ++ [asked])) (_decline_consult clock utc_now sqlite chmod config question reason)
    consulted consult_failed.
Proof.
  intros Hp. unfold _decline_consult. eapply triple_bind.
  - eapply triple_post; [apply append_triple|intros ? s Hs; exact Hs|].
    intros s (now & [->|(e & He & ->)] & Hs); left; [by exists [asked]|].
    exists [asked; e]. split; [|by rewrite <- app_assoc in Hs]. apply Forall_app_2 with (l1 := [asked]); [done|].
    by eapply event_plain.
  - intros ? s (e & He & Hs). left. split; [done|]. exists [asked; e].
    split; [|by rewrite <- app_assoc in Hs]. apply Forall_app_2 with (l1 := [asked]); [done|]. by eapply event_plain.
Qed.

Lemma deliver_triple server hint asked : hint_due server pol evs → ¬ delivered cs → event_of "CONSULT_REQUESTED" asked.1 asked.2 →
  triple (stands cs dec res pol (evs ++ [asked.2])) (deliver_hint io clock utc_now sqlite chmod config server hint)
    consulted consult_failed.
Proof.
  intros Hdue Hnot Hev. pose proof (event_plain _ _ _ Hev ltac:(discriminate)) as Hp. destruct asked as [payload asked]. cbn in *.
  unfold deliver_hint. apply silent_then; [apply silent_utc_now|intros s Hs; left; by exists [asked]|]. intros at_.
  match goal with |- context [set_consult_state ?p] => set (file := p); assert (Hfile : delivered (Json (VDict file))) by by exists file end.
  eapply triple_bind.
  - eapply triple_post; [apply (atomic_triple _ cs dec res pol _ (Json (VDict file)) dec res); by intros s [????]|intros ? s Hs; exact Hs|].
    intros s [Hs|Hs]; [left; by exists [asked]|]. right. exists server, (Json (VDict file)), [asked]. auto 10.
  - intros []. eapply triple_bind.
    + eapply triple_post; [apply append_triple|intros ? s Hs; exact Hs|].
      intros s (now & Hnow & Hs). right. exists server, (Json (VDict file)).
      destruct Hnow as [->|(e & [Ht Hty _] & ->)]; [exists [asked]; auto 10|]. rewrite <- app_assoc in Hs. exists [asked; e].
      split_and!; try done. right. exists asked, e. by destruct Hev.
    + intros ? s (e & [Ht Hty _] & Hs). right. split; [done|]. rewrite <- app_assoc in Hs.
      exists server, (Json (VDict file)), [asked; e]. split_and!; try done. exists asked, e. by destruct Hev.
Qed.

Lemma consult_state_triple evs' : triple (stands cs dec res pol evs') (_consult_state config)
  (λ state s, (truthy (vget state "hint_delivered") = false → ¬ delivered cs) ∧ stands cs dec res pol evs' s)
  (stands cs dec res pol evs').
Proof.
  intros s Hs. unfold _consult_state. rewrite prog_bind_eq. cbn [gets]. rewrite (st_consult _ _ _ _ _ _ Hs).
  unfold delivered. destruct cs as [| |[| | | | | |payload]]; cbn [lift]; try done.
  - split; [|done]. by intros _ (? & [=] & _).
  - destruct (is_str _ _); [|done]. split; [|done]. intros Hf (p & [= <-] & _ & Ht). congruence.
Qed.

Lemma consult_triple question : triple (stands cs dec res pol evs) (consult question) consulted consult_failed.
Proof.
  assert (Hnone : ∀ s, stands cs dec res pol evs s → consult_failed s).
  { intros s Hs. left. exists []. split; [constructor|]. by rewrite app_nil_r. }
  assert (Htick : ∀ cs' evs' s, stands cs' dec res pol evs' s → stands cs' dec res pol evs' (ticked s)) by by intros ??? [????].
  eapply channel_locked_triple; [reflexivity| |exact Hnone|..].
  - unfold _consult. cbv zeta. eapply triple_bind.
    { eapply triple_post; [apply append_triple|intros ? s Hs; exact Hs|].
      intros s (now & [->|(e & He & ->)] & Hs); [by apply Hnone|]. left. exists [e]. split; [|done]. by eapply event_plain. }
    intros []. apply triple_exists. intros asked. apply triple_pure. intros Hasked.
    pose proof (event_plain _ _ _ Hasked ltac:(discriminate)) as Hp.
    assert (Hfail : ∀ s, stands cs dec res pol (evs ++ [asked]) s → consult_failed s) by (intros s Hs; left; by exists [asked]).
    eapply triple_bind; [eapply triple_post; [apply consult_state_triple|intros ? s Hs; exact Hs|exact Hfail]|].
    intros state. apply triple_pure. intros Hstate. destruct (truthy _); [by apply decline_triple|].
    eapply triple_bind; [eapply triple_post; [apply eligibility_triple|intros ? s Hs; exact Hs|exact Hfail]|].
    intros eligible. apply triple_pure. intros Hdue. destruct eligible as [server|]; [|by apply decline_triple].
    destruct (render_hint _ _ _) as [hint|]; [|by apply decline_triple].
    eapply (deliver_triple server hint (_, asked)); [|auto|exact Hasked].
    eapply hint_due_before; [|by apply Hdue]. apply (ev_type _ _ _ Hasked).
  - intros a s [[_ H]|[_ (server & cs' & new & ? & ? & ? & ? & ?)]]; [by left|]. right. exists server, cs', new. auto 10.
  - intros s [(new & ? & ?)|(server & cs' & new & ? & ? & ? & ? & ?)]; [left; exists new; auto|right; exists server, cs', new; auto 10].
  - intros a s [[Ha (new & ? & ?)]|[Ha (server & cs' & new & ? & ? & ? & ? & ?)]]; [left; split; [done|]; exists new; auto|].
    right. split; [done|]. exists server, cs', new. auto 10.
Qed.
End consultation.

(** C28: A consultation gives a hint only when none was given, a disturbance of this Trial
    switched off a server the case is about, the server is still off in the Trial's policy
    and the Agent was denied a call of it; the hint is then in the consultation file and
    recorded with the request. One that declines leaves the file alone and records no hint;
    one that fails did the same, or failed while a hint that was due was being recorded. It
    never changes the decision or the result. *)
Theorem consult_gated question s :
  let (s', r) := consult question s in
  hc_decision s' = hc_decision s ∧ hc_result s' = hc_result s ∧
  match r with
  | Ok a =>
      vget a "hint_delivered" = VBool false ∧ hc_consult_state s' = hc_consult_state s ∧
        (∃ new, plain new ∧ seen s' = seen s ++ new) ∨
      vget a "hint_delivered" = VBool true ∧ ¬ delivered (hc_consult_state s) ∧ delivered (hc_consult_state s') ∧
        (∃ server, hint_due server (hc_policy s) (seen s)) ∧ ∃ new, hint_pair new ∧ seen s' = seen s ++ new
  | Err _ =>
      hc_consult_state s' = hc_consult_state s ∧ (∃ new, plain new ∧ seen s' = seen s ++ new) ∨
      ¬ delivered (hc_consult_state s) ∧ delivered (hc_consult_state s') ∧
        (∃ server, hint_due server (hc_policy s) (seen s)) ∧ ∃ new, (plain new ∨ hint_pair new) ∧ seen s' = seen s ++ new
  end.
Proof.
  pose proof (consult_triple _ _ _ _ _ question s (stands_self s)) as H. destruct (consult question s) as [s' [a|e]].
  - destruct H as [[Ha (new & ? & [])]|[Ha (server & cs' & new & ? & ? & ? & ? & [])]]; (split; [done|]; split; [done|]).
    + left. eauto.
    + right. subst cs'. eauto 10.
  - destruct H as [(new & ? & [])|(server & cs' & new & ? & ? & ? & ? & [])]; (split; [done|]; split; [done|]).
    + left. eauto.
    + right. subst cs'. eauto 10.
Qed.

(** ** Confirmation *)

(** The question a confirmation asks, whatever its id. *)
Definition asks_about (plan question : mapping) : Prop :=
  vget question "request_kind" = VStr "confirmation" ∧ vget question "recommendation" = VDict plan.
(** An answer the responder gave to it. *)
Definition answered (plan answer : mapping) : Prop := ∃ question x x',
  asks_about plan question ∧ responder_reply question (reply_context config) x = (x', Ok answer).

Definition types (l : list PlatformEvent) : list string := map pe_type l.

Lemma types_plain new : "HINT_DELIVERED" ∉ types new → plain new.
Proof.
  intros H. apply Forall_forall. intros e He Ht. apply H. unfold types. rewrite <- Ht. by apply list_elem_of_fmap_2.
Qed.

Section confirmation.
Context (cs : StateFile) (dec res : option mapping) (pol : result CapabilityPolicyDocument) (evs : list PlatformEvent).
Context (plan : mapping).

(** The events added so far are of these types. *)
Definition added (dec' : option mapping) (l : list string) (s : Channel R) : Prop := ∃ new,
  types new = l ∧ stands cs dec' res pol (evs ++ new) s.

Lemma append_added dec' l event_type payload : str_strip event_type = event_type → triple (added dec' l) (_append event_type payload)
  (λ _, added dec' (l ++ [event_type])) (λ s, added dec' l s ∨ added dec' (l ++ [event_type]) s).
Proof.
  intros Hstrip. apply triple_exists. intros new. apply triple_pure. intros Hl.
  assert (Hgrow : ∀ e s, event_of event_type payload e → stands cs dec' res pol ((evs ++ new) ++ [e]) s → added dec' (l ++ [event_type]) s).
  { intros e s [_ Ht _] Hs. exists (new ++ [e]). split; [|by rewrite app_assoc]. unfold types in *. rewrite map_app, Hl. cbn. congruence. }
  eapply triple_post; [apply append_triple|..].
  - intros ? s (e & He & Hs). eauto.
  - intros s (now & [->|(e & He & ->)] & Hs); [left; by exists new|right; eauto].
Qed.

Lemma added_silent {A} dec' l (m : st A) : silent m → triple (added dec' l) m (λ _, added dec' l) (added dec' l).
Proof.
  intros Hm. apply triple_exists. intros new. apply triple_pure. intros Hl.
  eapply triple_post; [apply Hm|intros ? s Hs; by exists new|intros s Hs; by exists new].
Qed.
Lemma added_then {A B} dec' l (m : st A) (f : A → st B) Q (E : Channel R → Prop) : silent m → (∀ s, added dec' l s → E s) →
  (∀ a, triple (added dec' l) (f a) Q E) → triple (added dec' l) (m ≫= f) Q E.
Proof.
  intros Hm HE Hf. eapply triple_bind; [|intros a; apply Hf]. eapply triple_post; [by apply added_silent|done|exact HE].
Qed.

Lemma added_lift {A B} dec' l (r : result A) (f : A → st B) Q (E : Channel R → Prop) : (∀ s, added dec' l s → E s) →
  (∀ a, r = Ok a → triple (added dec' l) (f a) Q E) → triple (added dec' l) (lift r ≫= f) Q E.
Proof. intros HE Hf s Hs. destruct r as [a|e]; [by apply (Hf a)|by apply HE]. Qed.

(** What was recorded before an answer: the request, and at most one retry. *)
Definition requested (l : list string) : Prop := l = ["CONFIRM_REQUESTED"] ∨ l = ["CONFIRM_REQUESTED"; "CONFIRM_RETRIED"].

Lemma requested_plain l : requested l → "HINT_DELIVERED" ∉ l.
Proof. intros [-> | ->]; by apply (bool_decide_unpack _). Qed.

(** The calls that raise before anything is decided. *)
Definition undecided (s : Channel R) : Prop := ∃ l, added dec l s ∧
  (l = [] ∨ requested l ∨ ∃ l', requested l' ∧ l = l' ++ ["CONFIRM_FAILED"]).

Lemma reply_triple n attempt question l : asks_about plan question → (Z.of_nat n = 3 - attempt) →
  l = (if attempt =? 1 then ["CONFIRM_REQUESTED"] else ["CONFIRM_REQUESTED"; "CONFIRM_RETRIED"]) → attempt = 1 ∨ attempt = 2 →
  triple (added dec l) (reply_attempts clock utc_now sqlite chmod config n attempt question plan)
    (λ a s, answered plan a ∧ ∃ l', requested l' ∧ added dec l' s) undecided.
Proof.
  intros Hq. revert attempt l. induction n as [|n IH]; intros attempt l Hn Hl Hat; [lia|]. cbn [reply_attempts].
  assert (Hreq : requested l) by (destruct Hat as [-> | ->]; [left|right]; exact Hl).
  intros s Hs. unfold catch, on_responder.
  destruct (responder_reply question (reply_context config) (hc_responder s)) as [x [a|e]] eqn:Er.
  - split; [by exists question, (hc_responder s), x|]. exists l. split; [done|]. destruct Hs as (new & ? & [????]). by exists new.
  - set (s1 := Build_Channel _ _ _ _ _ _ _ _). assert (Hs1 : added dec l s1) by by destruct Hs as (new & ? & [????]); exists new.
    clearbody s1. revert s1 Hs1. change (triple (added dec l)
      (diagnostic ← gets (λ s, timeout_diagnostic (hc_responder s));
       let failure := _confirmation_failure e diagnostic in
       if is_conversation_error e && negb (is_timeout e) && (attempt <? Z.of_nat CONFIRM_COMPLETION_ATTEMPTS) then
         _append "CONFIRM_RETRIED"
           [("attempt", VInt attempt); ("error_code", VStr (cf_error_code failure)); ("message", VStr (cf_message failure));
            ("responder_model", opt_str responder_model)] ;;
         reply_attempts clock utc_now sqlite chmod config n (attempt + 1) question plan
       else
         _append "CONFIRM_FAILED"
           [("plan", VDict plan); ("attempts", VInt attempt); ("responder_model", opt_str responder_model);
            ("error_code", VStr (cf_error_code failure)); ("message", VStr (cf_message failure));
            ("diagnostic", VDict (cf_diagnostic failure))] ;;
         throw HarnessChannelError (cf_message failure))
      (λ a s, answered plan a ∧ ∃ l', requested l' ∧ added dec l' s) undecided).
    apply added_then; [apply silent_gets|intros s1 Hs1; exists l; auto|]. intros diagnostic. cbv zeta.
    destruct (_ && _) eqn:Eretry.
    + apply andb_true_iff in Eretry as [_ Elt]. apply Z.ltb_lt in Elt. unfold CONFIRM_COMPLETION_ATTEMPTS in Elt.
      assert (attempt = 1) as -> by lia. cbn in Hl. subst l.
      eapply triple_bind; [eapply triple_post; [by apply append_added|intros ? s1 Hs1; exact Hs1|]|].
      * intros s1 [Hs1|Hs1]; eexists; (split; [exact Hs1|]); right; left; [by left|by right].
      * intros []. apply IH; [lia|done|by right].
    + eapply triple_bind; [eapply triple_post; [by apply append_added|intros ? s1 Hs1; exact Hs1|]|].
      * intros s1 [Hs1|Hs1]; eexists; (split; [exact Hs1|]); right; [by left|right; by exists l].
      * intros []. apply triple_throw. intros s1 Hs1. eexists. split; [exact Hs1|]. right. right. by exists l.
Qed.

(** The decision an answer becomes. *)
Definition decision_of (answer : mapping) (submitted_at : string) : mapping :=
  dset "submitted_at" (VStr submitted_at) (dict_update [("schema_version", VStr "stage2-user-decision.v1")] answer).
Definition assistance (answer : mapping) : list string :=
  guard_list (is_true (vget answer "decision_supplied")) "PLAN_ASSISTANCE_DELIVERED".

Definition granted (answer a : mapping) (l : list string) (s : Channel R) : Prop :=
  answer_allows answer = Ok true ∧ vget a "allowed" = VBool true ∧ vget a "approved_plan" = vget answer "approved_plan" ∧
  ∃ at_, added (Some (decision_of answer at_)) (l ++ assistance answer ++ ["CONFIRM_GRANTED"]) s.
Definition denied (answer a : mapping) (l : list string) (s : Channel R) : Prop :=
  answer_allows answer = Ok false ∧ vget a "allowed" = VBool false ∧ added dec (l ++ ["CONFIRM_DENIED"]) s.
Definition confirmed (a : mapping) (s : Channel R) : Prop := ∃ answer l,
  answered plan answer ∧ requested l ∧ (granted answer a l s ∨ denied answer a l s).
(** A call that raises: nothing was decided, or the decision is the one that was to be granted. *)
Definition confirm_failed (s : Channel R) : Prop :=
  undecided s ∨ (∃ l, requested l ∧ added dec (l ++ ["CONFIRM_DENIED"]) s) ∨
  ∃ answer at_ l, answered plan answer ∧ answer_allows answer = Ok true ∧ "HINT_DELIVERED" ∉ l ∧
    added (Some (decision_of answer at_)) l s.

Lemma after_request l k : requested l → "HINT_DELIVERED" ∉ k → "HINT_DELIVERED" ∉ l ++ k.
Proof. intros Hl Hk. apply not_elem_of_app. split; [by apply requested_plain|done]. Qed.
Lemma assistance_plain answer k : "HINT_DELIVERED" ∉ k → "HINT_DELIVERED" ∉ assistance answer ++ k.
Proof.
  intros Hk. apply not_elem_of_app. split; [|done]. unfold assistance. destruct (is_true _); [|by apply not_elem_of_nil].
  by apply (bool_decide_unpack _).
Qed.

Lemma record_decision_triple answer l : answered plan answer → answer_allows answer = Ok true → requested l →
  triple (added dec l) (record_decision io clock utc_now sqlite chmod config answer (is_true (vget answer "decision_supplied")))
    (λ _ s, ∃ at_, added (Some (decision_of answer at_)) (l ++ assistance answer) s) confirm_failed.
Proof.
  intros Ha Hal Hl. assert (Hpre : ∀ s, added dec l s → confirm_failed s) by (intros s Hs; left; exists l; auto).
  assert (Hpost : ∀ at_ k s, "HINT_DELIVERED" ∉ k → added (Some (decision_of answer at_)) (l ++ k) s → confirm_failed s)
    by (intros at_ k s Hk Hs; right; right; exists answer, at_, (l ++ k); auto using after_request).
  assert (Hnil : ∀ at_ s, added (Some (decision_of answer at_)) l s → confirm_failed s)
    by (intros at_ s Hs; apply (Hpost at_ []); [apply not_elem_of_nil|by rewrite app_nil_r]).
  unfold record_decision. apply added_then; [apply silent_utc_now|exact Hpre|]. intros at_.
  eapply triple_bind with (Q := λ _, added (Some (decision_of answer at_)) l).
  - apply triple_exists. intros new. apply triple_pure. intros Hnew.
    eapply triple_post; [apply (atomic_triple _ cs dec res pol _ cs (Some (decision_of answer at_)) res); by intros s [????]|..].
    + intros ? s Hs. by exists new.
    + intros s [Hs|Hs]; [apply Hpre; by exists new|apply (Hnil at_); by exists new].
  - intros []. unfold assistance, when. destruct (is_true _); cbn [guard_list].
    + apply added_lift; [apply Hnil|]. intros v _.
      eapply triple_post; [by apply append_added|intros ? s Hs; by exists at_|].
      intros s [Hs|Hs]; [by eapply Hnil|]. eapply (Hpost at_ [_]); [|exact Hs]. by apply (bool_decide_unpack _).
    + apply triple_ret. intros s Hs. exists at_. by rewrite app_nil_r.
Qed.

Lemma confirm_triple : triple (stands cs dec res pol evs) (confirm plan) confirmed confirm_failed.
Proof.
  eapply triple_pre with (P' := added dec []); [intros s Hs; exists []; by rewrite app_nil_r|]. unfold HarnessChannel.confirm.
  apply added_then; [apply silent_uuid|intros s Hs; left; exists []; auto|]. intros id. cbv zeta.
  assert (Hund : ∀ s, undecided s → confirm_failed s) by by left.
  eapply triple_bind; [eapply triple_post; [by apply append_added|intros ? s Hs; exact Hs|]|].
  { intros s [Hs|Hs]; apply Hund; eexists; (split; [exact Hs|]); [by left|right; left; by left]. }
  intros []. cbn [app]. eapply triple_bind.
  { eapply triple_post; [apply (reply_triple _ 1); [by split|done|done|by left]|intros ? s Hs; exact Hs|exact Hund]. }
  intros answer. apply triple_pure. intros Ha. apply triple_exists. intros l. apply triple_pure. intros Hl.
  assert (Hpre : ∀ s, added dec l s → confirm_failed s) by (intros s Hs; left; exists l; auto).
  apply added_lift; [exact Hpre|]. intros allowed Hal. destruct allowed; cbn [when andb].
  - eapply triple_bind; [by apply record_decision_triple|]. intros [].
    apply triple_exists. intros at_. eapply triple_bind.
    + eapply triple_post; [by apply append_added|intros ? s Hs; exact Hs|].
      intros s [Hs|Hs]; right; right; eexists answer, at_, _; (split; [done|]; split; [done|]; split; [|exact Hs]).
      * rewrite <- (app_nil_r (assistance answer)). by apply after_request, assistance_plain, not_elem_of_nil.
      * rewrite <- app_assoc. apply after_request, assistance_plain; [done|]. by apply (bool_decide_unpack _).
    + intros []. apply triple_ret. intros s Hs. exists answer, l. split; [done|]. split; [done|]. left.
      split_and!; try done. exists at_. by rewrite app_assoc.
  - eapply triple_bind with (Q := λ _, added dec l); [by apply triple_ret|]. intros []. eapply triple_bind.
    + eapply triple_post; [by apply append_added|intros ? s Hs; exact Hs|]. intros s [Hs|Hs]; [auto|]. right. left. exists l. auto.
    + intros []. apply triple_ret. intros s Hs. exists answer, l. split; [done|]. split; [done|]. by right.
Qed.
End confirmation.

(** A confirmation writes the decision only from an answer the responder gave to this plan and
    that allows it. When it returns, it granted the plan, the decision written, or denied
    it, the decision as it was, and recorded the request, at most one retry, the assistance
    if there was any, and the verdict, in this order; it touches neither the consultation
    file nor the result, also when it fails. *)
Theorem confirm_gated plan s :
  let (s', r) := confirm plan s in
  ∃ new, seen s' = seen s ++ new ∧ hc_consult_state s' = hc_consult_state s ∧ hc_result s' = hc_result s ∧
  (hc_decision s' = hc_decision s ∨ ∃ answer at_, answered plan answer ∧ answer_allows answer = Ok true ∧
     hc_decision s' = Some (decision_of answer at_)) ∧
  match r with
  | Ok a => ∃ answer asked, answered plan answer ∧ requested asked ∧
      (answer_allows answer = Ok true ∧ vget a "allowed" = VBool true ∧
         vget a "approved_plan" = vget answer "approved_plan" ∧
         (∃ at_, hc_decision s' = Some (decision_of answer at_)) ∧
         types new = asked ++ assistance answer ++ ["CONFIRM_GRANTED"] ∨
       answer_allows answer = Ok false ∧ vget a "allowed" = VBool false ∧ hc_decision s' = hc_decision s ∧
         types new = asked ++ ["CONFIRM_DENIED"])
  | Err _ => True
  end.
Proof.
  pose proof (confirm_triple _ _ _ _ _ plan s (stands_self s)) as H. destruct (confirm plan s) as [s' [a|e]].
  - destruct H as (answer & l & Ha & Hl & [(Hal & Ht & Hp & at_ & new & Hnew & [])|(Hal & Ht & new & Hnew & [])]);
      exists new; (split; [done|]; split; [done|]; split; [done|]).
    + split; [eauto 10|]. exists answer, l. split; [done|]. split; [done|]. left. eauto 10.
    + split; [by left|]. exists answer, l. split; [done|]. split; [done|]. by right.
  - destruct H as [(l & (new & Hnew & []) & _)|[(l & _ & (new & Hnew & []))|(answer & at_ & l & Ha & Hal & _ & (new & Hnew & []))]];
      exists new; eauto 10.
Qed.

(** ** Results and notices *)

(** Only the result's file and events that are no hints. *)
Definition no_hint (cs : StateFile) (dec : option mapping) (pol : result CapabilityPolicyDocument) (evs : list PlatformEvent)
    (s : Channel R) : Prop := ∃ res new, plain new ∧ stands cs dec res pol (evs ++ new) s.

Lemma append_no_hint event_type payload cs dec pol evs : str_strip event_type ≠ "HINT_DELIVERED" →
  triple (no_hint cs dec pol evs) (_append event_type payload) (λ _, no_hint cs dec pol evs) (no_hint cs dec pol evs).
Proof.
  intros Hne. apply triple_exists. intros res. apply triple_exists. intros new. apply triple_pure. intros Hp.
  assert (Hgrow : ∀ e s, event_of event_type payload e → stands cs dec res pol ((evs ++ new) ++ [e]) s → no_hint cs dec pol evs s).
  { intros e s He Hs. exists res, (new ++ [e]). split; [|by rewrite app_assoc]. apply Forall_app. split; [done|by eapply event_plain]. }
  eapply triple_post; [apply append_triple|intros ? s (e & ? & ?); eauto|].
  intros s (now & [->|(e & He & ->)] & Hs); [by exists res, new|eauto].
Qed.

Lemma submit_triple candidate cs dec res pol evs : triple (stands cs dec res pol evs)
  (submit_result io clock utc_now sqlite chmod iter_errors config candidate) (λ _, no_hint cs dec pol evs) (no_hint cs dec pol evs).
Proof.
  assert (Hpre : ∀ res' s, stands cs dec res' pol evs s → no_hint cs dec pol evs s).
  { intros res' s Hs. exists res', []. split; [constructor|by rewrite app_nil_r]. }
  assert (Htick : ∀ s, no_hint cs dec pol evs s → no_hint cs dec pol evs (ticked s))
    by by intros s (res' & new & Hp & [????]); exists res', new.
  unfold submit_result. eapply channel_locked_triple; [reflexivity| |apply Hpre|done|done|intros ? s; apply Htick].
  unfold _submit_result. cbv zeta. eapply triple_bind with (Q := λ _, no_hint cs dec pol evs).
  - unfold when. destruct (empty _); [|apply triple_ret; exact (Hpre res)].
    eapply triple_post; [apply (atomic_triple _ cs dec res pol evs cs dec (Some candidate)); by intros s [????]|intros ? s; apply Hpre|].
    intros s [Hs|Hs]; by eapply Hpre.
  - intros []. eapply triple_bind; [by apply append_no_hint|]. intros []. by apply triple_ret.
Qed.

(** Ledger programs that record no hint. *)
Definition hintless {A} (m : prog Ledger A) : Prop := ∀ l, ∃ new, plain new ∧ events (ld_db (m l).1) = events (ld_db l) ++ new.

Lemma hintless_looks {A} (m : prog Ledger A) : looks m → hintless m.
Proof. intros Hm l. exists []. split; [constructor|]. by rewrite Hm, app_nil_r. Qed.
Lemma hintless_bind {A B} (m : prog Ledger A) (f : A → prog Ledger B) : hintless m → (∀ a, hintless (f a)) → hintless (m ≫= f).
Proof.
  intros Hm Hf l. rewrite prog_bind_eq. destruct (Hm l) as (new & Hp & E). destruct (m l) as [l1 [a|e]]; [|by exists new].
  destruct (Hf a l1) as (new' & Hp' & E'). exists (new ++ new'). split; [by apply Forall_app|]. cbn in E. by rewrite E', E, app_assoc.
Qed.
Lemma hintless_catch {A} (m : prog Ledger A) h : hintless m → (∀ e, hintless (h e)) → hintless (catch m h).
Proof.
  intros Hm Hh l. unfold catch. destruct (Hm l) as (new & Hp & E). destruct (m l) as [l1 [a|e]]; [by exists new|].
  destruct (Hh e l1) as (new' & Hp' & E'). exists (new ++ new'). split; [by apply Forall_app|]. cbn in E. by rewrite E', E, app_assoc.
Qed.
Lemma hintless_write f new : plain new → (∀ d, events (f d) = events d ++ new) → hintless (write f).
Proof. intros Hp Hf l. exists new. split; [done|]. apply Hf. Qed.
Lemma hintless_quiet_write f : (∀ d, events (f d) = events d) → hintless (write f).
Proof. intros Hf. apply (hintless_write f []); [constructor|]. intros d. by rewrite Hf, app_nil_r. Qed.
Lemma hintless_event trial type at_ recorded payload : type ≠ "HINT_DELIVERED" → hintless (write (insert_event trial type at_ recorded payload)).
Proof. intros Hne l. eexists. split; [|reflexivity]. by apply Forall_singleton. Qed.
Lemma hintless_transaction {A} (body : prog Ledger A) : hintless body → hintless (transaction sqlite body).
Proof.
  intros Hb l. rewrite transaction_eq. assert (∃ new, plain new ∧ events (ld_db l) = events (ld_db l) ++ new)
    by (exists []; split; [constructor|by rewrite app_nil_r]).
  destruct (sqlite _); [done|]. destruct (Hb (PlatformLedger.tick l)) as (new & Hp & E). destruct (body _) as [l1 [a|e]]; [|done].
  destruct (sqlite _); [done|]. by exists new.
Qed.

Create HintDb hintless.
#[local] Hint Resolve hintless_bind hintless_catch hintless_transaction hintless_quiet_write : hintless.
#[local] Hint Extern 2 (hintless (write (insert_event _ _ _ _ _))) => by apply hintless_event : hintless.
#[local] Hint Extern 1 (hintless (lift _)) => apply hintless_looks, looks_lift : hintless.
#[local] Hint Extern 1 (hintless (mret _)) => apply hintless_looks, looks_ret : hintless.
#[local] Hint Extern 1 (hintless (read _)) => apply hintless_looks, looks_read : hintless.
#[local] Hint Extern 1 (hintless (current_text _ _)) => apply hintless_looks, looks_current_text : hintless.
#[local] Hint Extern 1 (hintless (current_datetime _ _)) => apply hintless_looks, looks_current : hintless.
#[local] Hint Extern 1 (hintless (PlatformLedger._utc_now _)) => apply hintless_looks, looks_utc_now : hintless.
#[local] Hint Extern 1 (hintless (PlatformLedger.uuid4_hex _)) => apply hintless_looks, looks_uuid : hintless.
#[local] Hint Extern 1 (hintless (_chmod_sqlite_files _)) => apply hintless_looks, looks_chmod : hintless.

Lemma hintless_when b (m : prog Ledger unit) : hintless m → hintless (when b m).
Proof. intros. unfold when. destruct b; auto with hintless. Qed.
#[local] Hint Resolve hintless_when : hintless.

Lemma hintless_deliver id trial at_ path : hintless (deliver_notice utc_now sqlite chmod id trial at_ path).
Proof.
  unfold deliver_notice. repeat (apply hintless_bind; [auto with hintless|intros ?]); [|auto with hintless].
  apply hintless_transaction. apply hintless_bind; [auto with hintless|intros found].
  apply hintless_bind; [auto with hintless|intros [delivery row]]. cbv zeta.
  repeat (apply hintless_bind; [auto 10 with hintless|intros ?]); auto with hintless.
Qed.

Lemma hintless_claim trial by_ lease at_ : hintless (claim_notice utc_now uuid sqlite chmod trial by_ lease at_).
Proof.
  unfold claim_notice. do 2 (apply hintless_bind; [auto with hintless|intros ?]). cbv zeta.
  do 2 (apply hintless_bind; [auto with hintless|intros ?]). apply hintless_bind.
  - apply hintless_transaction, hintless_bind; [auto with hintless|]. intros [notice|]; [|auto with hintless].
    repeat (apply hintless_bind; [auto 10 with hintless|intros ?]); auto with hintless.
  - intros [d|]; [|auto with hintless]. apply hintless_bind; auto with hintless.
Qed.

Lemma hintless_rounds n trial path lease output : hintless (claim_rounds utc_now uuid sqlite chmod n trial path lease output).
Proof.
  revert output. induction n as [|n IH]; intros output; cbn [claim_rounds]; [auto with hintless|].
  apply hintless_bind; [apply hintless_claim|]. intros [d|]; auto with hintless.
Qed.

Lemma hintless_acknowledge ids acc : hintless (acknowledge_ids utc_now sqlite chmod config ids acc).
Proof.
  revert acc. induction ids as [|id ids IH]; intros acc; cbn [acknowledge_ids]; [auto with hintless|].
  apply hintless_bind; [|auto]. unfold acknowledge_id. apply hintless_catch.
  - apply hintless_bind; [apply hintless_deliver|auto with hintless].
  - intros e. destruct (exn_class e); auto with hintless.
Qed.

Lemma on_ledger_triple {A} (m : prog Ledger A) cs dec pol evs : hintless m →
  triple (no_hint cs dec pol evs) (on_ledger m) (λ _, no_hint cs dec pol evs) (no_hint cs dec pol evs).
Proof.
  intros Hm s (res & new & Hp & [E1 E2 E3 E4 E5]). unfold on_ledger. destruct (Hm (hc_ledger s)) as (new' & Hp' & E).
  destruct (m (hc_ledger s)) as [l r].
  assert (no_hint cs dec pol evs {| hc_consult_state := hc_consult_state s; hc_decision := hc_decision s; hc_result := hc_result s;
    hc_policy := hc_policy s; hc_ledger := l; hc_responder := hc_responder s; hc_ticks := hc_ticks s |}).
  { exists res, (new ++ new'). split; [by apply Forall_app|]. split; try done. unfold seen in *. cbn in *. by rewrite E, E5, app_assoc. }
  by destruct r.
Qed.

Lemma poll_triple ids limit cs dec pol evs : triple (no_hint cs dec pol evs)
  (poll_notices utc_now uuid sqlite chmod config ids limit) (λ _, no_hint cs dec pol evs) (no_hint cs dec pol evs).
Proof.
  unfold poll_notices. eapply triple_bind; [by apply on_ledger_triple, hintless_acknowledge|]. intros acks.
  eapply triple_bind; [by apply on_ledger_triple, hintless_rounds|]. intros deliveries. by apply triple_ret.
Qed.

(** ** Histories *)

Inductive ChannelOp :=
  | Consult (question : val)
  | Confirm (plan : mapping)
  | SubmitResult (candidate : mapping)
  | PollNotices (ack_ids : list string) (limit : Z).

Definition channel_op (op : ChannelOp) : st mapping :=
  match op with
  | Consult question => consult question
  | Confirm plan => confirm plan
  | SubmitResult candidate => submit_result io clock utc_now sqlite chmod iter_errors config candidate
  | PollNotices ids limit => poll_notices utc_now uuid sqlite chmod config ids limit
  end.

(** What other processes do between two calls: the policy, the responder, the decision file and the
    ledger change, but they forge no hint and leave the consultation's file alone. *)
Record others (s s' : Channel R) : Prop := {
  ot_consult : hc_consult_state s' = hc_consult_state s;
  ot_seen : ∃ new, plain new ∧ seen s' = seen s ++ new }.

Inductive channel_reach : Channel R → Prop :=
  | channel_start s : hc_consult_state s = Absent → plain (seen s) → channel_reach s
  | channel_call op s : channel_reach s → channel_reach (channel_op op s).1
  | channel_others s s' : channel_reach s → others s s' → channel_reach s'.

Definition is_hint (e : PlatformEvent) : bool := bool_decide (pe_type e = "HINT_DELIVERED").
Definition hints (l : list PlatformEvent) : nat := count is_hint l.

Lemma hints_plain new : plain new → hints new = 0%nat.
Proof. intros H. apply count_zero. intros e He. unfold plain in H. rewrite Forall_forall in H. apply bool_decide_eq_false. auto. Qed.
Lemma hints_pair new : hint_pair new → hints new = 1%nat.
Proof.
  intros (a & g & -> & _ & Ha & _ & Hg). unfold hints. rewrite !count_cons. unfold is_hint. rewrite Ha, Hg. reflexivity.
Qed.

(** The decision that a call writes: none, or an answer that allows the plan of a confirmation. *)
Definition decision_written (op : ChannelOp) (s s' : Channel R) : Prop := hc_decision s' = hc_decision s ∨
  ∃ plan answer at_, op = Confirm plan ∧ answered plan answer ∧ answer_allows answer = Ok true ∧
    hc_decision s' = Some (decision_of answer at_).

(** A hint that was recorded is in the file. *)
Record channel_inv (s : Channel R) : Prop := {
  ci_once : (hints (seen s) <= 1)%nat;
  ci_file : hints (seen s) = 1%nat → delivered (hc_consult_state s) }.

Lemma channel_inv_plain s s' new : channel_inv s → hc_consult_state s' = hc_consult_state s → plain new →
  seen s' = seen s ++ new → channel_inv s'.
Proof.
  intros [H1 H2] Hc Hp Hs. split.
  - unfold hints in *. rewrite Hs, count_app. fold (hints new). rewrite (hints_plain _ Hp). unfold hints in *. lia.
  - rewrite Hc, Hs. unfold hints. rewrite count_app. fold (hints new). rewrite (hints_plain _ Hp), Nat.add_0_r. exact H2.
Qed.

(** What a call does to the hints and to the decision. *)
Definition lawful_call (op : ChannelOp) (s s' : Channel R) : Prop :=
  (channel_inv s → channel_inv s') ∧ decision_written op s s'.

Lemma consult_lawful question s : lawful_call (Consult question) s (consult question s).1.
Proof.
  pose proof (consult_triple _ _ _ _ _ question s (stands_self s)) as H.
  assert (Hmain : ∀ s', (∃ new, plain new ∧ stands (hc_consult_state s) (hc_decision s) (hc_result s) (hc_policy s) (seen s ++ new) s') ∨
    (∃ server cs' new, hint_due server (hc_policy s) (seen s) ∧ ¬ delivered (hc_consult_state s) ∧ delivered cs' ∧
       (plain new ∨ hint_pair new) ∧ stands cs' (hc_decision s) (hc_result s) (hc_policy s) (seen s ++ new) s') →
    lawful_call (Consult question) s s').
  { intros s' [(new & Hp & [])|(server & cs' & new & _ & Hnot & Hdel & Hnew & [Ecs Edec _ _ Eseen])];
      (split; [|by left]); intros Hinv; [by eapply channel_inv_plain|].
    destruct Hinv as [H1 H2]. assert (hints (seen s) = 0%nat) as Hz.
    { destruct (hints (seen s)) as [|[|]]; [done| |lia]. by destruct (Hnot (H2 eq_refl)). }
    assert (hints (seen s') = hints new) as Hh by (rewrite Eseen; unfold hints in *; rewrite count_app; lia).
    split; [|intros _; by rewrite Ecs]. rewrite Hh.
    destruct Hnew as [Hp|Hp]; [rewrite hints_plain by done|rewrite hints_pair by done]; lia. }
  destruct (consult question s) as [s' [a|e]]; apply Hmain.
  - destruct H as [[_ ?]|[_ (server & cs' & new & ? & ? & ? & ? & ?)]]; [by left|]. right. exists server, cs', new. auto 10.
  - exact H.
Qed.

Lemma confirm_lawful plan s : lawful_call (Confirm plan) s (confirm plan s).1.
Proof.
  pose proof (confirm_triple _ _ _ _ _ plan s (stands_self s)) as H.
  assert (Hkeep : ∀ l s', "HINT_DELIVERED" ∉ l →
    added (hc_consult_state s) (hc_result s) (hc_policy s) (seen s) (hc_decision s) l s' → lawful_call (Confirm plan) s s').
  { intros l s' Hl (new & <- & []). split; [|by left]. intros Hinv. eapply channel_inv_plain; eauto using types_plain. }
  assert (Hset : ∀ answer at_ l s', answered plan answer → answer_allows answer = Ok true → "HINT_DELIVERED" ∉ l →
    added (hc_consult_state s) (hc_result s) (hc_policy s) (seen s) (Some (decision_of answer at_)) l s' →
    lawful_call (Confirm plan) s s').
  { intros answer at_ l s' Ha Hal Hl (new & <- & [Ecs Edec _ _ Eseen]). split.
    - intros Hinv. eapply channel_inv_plain; eauto using types_plain.
    - right. by exists plan, answer, at_. }
  assert (Hfixed : ∀ l t, requested l → t ∈ ["CONFIRM_GRANTED"; "CONFIRM_DENIED"; "CONFIRM_FAILED"] → "HINT_DELIVERED" ∉ l ++ [t]).
  { intros l t Hl Ht. apply after_request; [done|]. intros <-%list_elem_of_singleton. revert Ht. by apply (bool_decide_unpack (_ ∉ _)). }
  destruct (confirm plan s) as [s' [a|e]].
  - destruct H as (answer & l & Ha & Hl & [(Hal & _ & _ & at_ & Hs)|(_ & _ & Hs)]).
    + eapply Hset; [done|done| |exact Hs]. apply after_request, assistance_plain; [done|]. by apply (bool_decide_unpack _).
    + eapply Hkeep; [|exact Hs]. apply Hfixed; [done|]. by apply (bool_decide_unpack _).
  - destruct H as [(l & Hs & Hl)|[(l & Hl & Hs)|(answer & at_ & l & Ha & Hal & Hl & Hs)]].
    + eapply Hkeep; [|exact Hs]. destruct Hl as [->|[Hl|(l' & Hl & ->)]]; [apply not_elem_of_nil|by apply requested_plain|].
      apply Hfixed; [done|]. by apply (bool_decide_unpack _).
    + eapply Hkeep; [|exact Hs]. apply Hfixed; [done|]. by apply (bool_decide_unpack _).
    + by eapply Hset.
Qed.

Lemma no_hint_lawful op s s' : no_hint (hc_consult_state s) (hc_decision s) (hc_policy s) (seen s) s' → lawful_call op s s'.
Proof. intros (res & new & Hp & []). split; [|by left]. intros Hinv. by eapply channel_inv_plain. Qed.

Lemma stands_no_hint s : no_hint (hc_consult_state s) (hc_decision s) (hc_policy s) (seen s) s.
Proof. exists (hc_result s), []. split; [constructor|]. by rewrite app_nil_r. Qed.

Lemma channel_op_lawful op s : lawful_call op s (channel_op op s).1.
Proof.
  destruct op as [question|plan|candidate|ids limit]; cbn [channel_op]; [by apply consult_lawful|by apply confirm_lawful|..].
  - pose proof (submit_triple candidate _ _ _ _ _ s (stands_self s)) as H.
    destruct (submit_result _ _ _ _ _ _ _ _ s) as [s' [a|e]]; by apply no_hint_lawful.
  - pose proof (poll_triple ids limit _ _ _ _ s (stands_no_hint s)) as H.
    destruct (poll_notices _ _ _ _ _ _ _ s) as [s' [a|e]]; by apply no_hint_lawful.
Qed.

Lemma channel_reach_inv s : channel_reach s → channel_inv s.
Proof.
  induction 1 as [s Hc Hp|op s _ IH|s s' _ IH [Hc (new & Hp & Hs)]].
  - split; rewrite ?hints_plain by done; [lia|done].
  - by apply (channel_op_lawful op s).
  - by eapply channel_inv_plain.
Qed.

(** C27: In every state the channel can reach, failed writes and the other processes of the
    Trial included, at most one hint was recorded as delivered, and when one was the
    consultation file says so. *)
Theorem hint_delivered_once s : channel_reach s →
  (hints (seen s) <= 1)%nat ∧ (hints (seen s) = 1%nat → delivered (hc_consult_state s)).
Proof. intros H. destruct (channel_reach_inv s H). done. Qed.

Lemma decision_lookup answer at_ k : NoDup (dkeys answer) → k ∈ ["approved"; "approved_plan"; "answer_mode"] →
  vget (decision_of answer at_) k = vget answer k.
Proof.
  intros Hn Hk. unfold decision_of, vget. rewrite dget_dset_ne, dget_dict_update by (done || (intros ->; revert Hk; by apply (bool_decide_unpack (_ ∉ _)))).
  destruct (dget k answer); [done|]. cbn [dget]. rewrite decide_False; [done|]. intros ->. revert Hk. by apply (bool_decide_unpack (_ ∉ _)).
Qed.

(** ** Responders that approve only admissible plans *)

Class LawfulResponder (admissible : mapping → Prop) := lawful question context x x' a :
  responder_reply question context x = (x', Ok a) → vget a "approved" = VBool true →
  NoDup (dkeys a) ∧ ∃ d, vget a "approved_plan" = VDict d ∧ admissible d.

Lemma written_decision_admissible `{!LawfulResponder admissible} op s :
  hc_decision (channel_op op s).1 = hc_decision s ∨
  ∃ asked d plan, op = Confirm asked ∧ hc_decision (channel_op op s).1 = Some d ∧
    vget d "approved" = VBool true ∧ vget d "approved_plan" = VDict plan ∧ admissible plan.
Proof.
  destruct (proj2 (channel_op_lawful op s)) as [|(asked & answer & at_ & -> & Ha & Hal & Hd)]; [by left|right].
  destruct Ha as (question & x & x' & _ & Hreply). unfold answer_allows in Hal.
  destruct (vget answer "approved") as [|[]| | | | |] eqn:Eap; try done.
  destruct (lawful _ _ _ _ _ Hreply Eap) as (Hn & p & Hp & Hadm).
  exists asked, (decision_of answer at_), p.
  rewrite !decision_lookup by (done || by apply (bool_decide_unpack _)). by split_and!.
Qed.
End channel.

(** ** The channel with the simulated user *)

Section simulated.
Context (model_call : nat → string → mapping → ModelAnswer) (request_size : string → mapping → Z * Z).
Context (user_clock : nat → Z) (monotonic : nat → pyfloat) (user_uuid : nat → string) (errors : mapping → list SchemaError).
Context (name : string) (timeout : Z) (policy : SimulatedUserPolicy) (user_context : mapping) (given : option mapping).

Local Abbreviation user :=
  (simulated_user model_call request_size user_clock monotonic user_uuid errors (new_config name timeout policy user_context given)).

(** The Trial expects an execution, and the document executes a plan within its envelope. *)
Definition executes_within (d : mapping) : Prop :=
  expected_outcome policy = EXECUTE_AND_RECOVER ∧ ∃ p, executes d p ∧ within_envelope p (envelope policy).

Lemma simulated_user_lawful : controller_fields given → @LawfulResponder Responder user executes_within.
Proof.
  intros Hg question context x x' a H Ha.
  pose proof (reply_approves _ _ _ _ _ _ _ _ _ _ _ _ H Ha) as (p0 & Hr). split; [apply (rv_keys _ _ _ _ _ Hr)|].
  destruct (approvals_within_envelope _ _ _ _ _ _ _ _ _ _ _ _ _ _ _ _ Hg H Ha) as (Ho & _ & d & p & Hd & He & Hw).
  exists d. split; [done|]. split; [done|]. by exists p.
Qed.

(** C26: From any state, whatever the model, the file system, the clocks and the ledger do, a
    call of the Harness channel changes the decision file only when it is a confirmation,
    only to one that says approved, only in a Trial that expects an execution, and only to a
    plan that executes exactly the target, fault, intensity and duration of a plan within
    the Trial's safety envelope; the Controller's policy document is taken to name none of
    the fields target, fault_type and intensity. The Controller's process writes the same
    file too (harness_runtime.py); this is not about its writes. *)
Theorem decisions_within_envelope io clock fresh utc_now uuid sqlite chmod iter_errors config op s :
  controller_fields given →
  let s' := (@channel_op Responder user io clock fresh utc_now uuid sqlite chmod iter_errors config op s).1 in
  hc_decision s' = hc_decision s ∨
  ∃ asked d plan p, op = Confirm asked ∧ hc_decision s' = Some d ∧ vget d "approved" = VBool true ∧
    vget d "approved_plan" = VDict plan ∧ expected_outcome policy = EXECUTE_AND_RECOVER ∧
    executes plan p ∧ within_envelope p (envelope policy).
Proof.
  intros Hg s'. pose proof (simulated_user_lawful Hg) as Hl. unfold s'.
  destruct (@written_decision_admissible _ user io clock fresh utc_now uuid sqlite chmod iter_errors config _ Hl op s)
    as [|(asked & d & plan & -> & Hd & Ha & Hp & Ho & p & He & Hw)]; [by left|right].
  by exists asked, d, plan, p.
Qed.
End simulated.

(** ** Examples *)

(** A Trial of the case D8 A in which a disturbance switched [chaos_control] off and the Agent was
    refused a call of it. *)
Definition demo_channel_config : HarnessChannelConfig := {|
  hc_trial_id := "trial-1"; hc_policy_file := true; hc_case_id := Some "D8"; hc_variant := Some "A";
  hc_notice_claim_lease_seconds := 30 |}.
Definition demo_event (n : Z) (type : string) (payload : mapping) : PlatformEvent := {|
  pe_sequence := n; pe_trial := "trial-1"; pe_type := type; pe_occurred_at := "t"; pe_recorded_at := "t"; pe_payload := payload |}.
Definition demo_disabled : list PlatformEvent :=
  [demo_event 1 "POLICY_APPLIED"
     [("source", VStr "disturbance"); ("server", VStr "chaos_control"); ("state", VStr "disabled")];
   demo_event 2 "TOOL_CALL_DENIED_DISABLED" [("server", VStr "chaos_control")]].
Definition demo_document : CapabilityPolicyDocument := {|
  cp_trial_id := "trial-1"; cp_sequence := 2; cp_source := "disturbance"; cp_since := utc_of 0;
  cp_servers := [("chaos_control", {| sp_server_name := "chaos_control"; sp_state := Disabled; sp_reason := None;
     sp_tools := []; sp_unavailable_until := None; sp_variant := None |})] |}.
Definition demo_channel : Channel Responder := {|
  hc_consult_state := Absent; hc_decision := None; hc_result := None; hc_policy := Ok demo_document;
  hc_ledger := {| ld_db := {| events := demo_disabled; last_sequence := 2; notices := []; last_notice := 0; deliveries := [] |};
                  ld_ticks := 0 |};
  hc_responder := new_responder; hc_ticks := 0 |}.
Definition demo_user (level : AutonomyLevel) : UserResponder Responder :=
  simulated_user demo_model (λ _ _, (0, 0)) (λ _, 0) (λ _, FFin 0) (λ _, "id") demo_errors (demo_config level None).

Definition demo_do (level : AutonomyLevel) (sqlite : nat → option exn) (op : ChannelOp) (s : Channel Responder) :
    Channel Responder * result mapping :=
  @channel_op Responder (demo_user level) (λ _, None) (λ _, 0) (λ _, "id") (λ _, 0) (λ _, "id") sqlite (λ _, None) (λ _, [])
    demo_channel_config op s.
Definition demo_reach (level : AutonomyLevel) (sqlite : nat → option exn) : Channel Responder → Prop :=
  @channel_reach Responder (demo_user level) (λ _, None) (λ _, 0) (λ _, "id") (λ _, 0) (λ _, "id") sqlite (λ _, None) (λ _, [])
    demo_channel_config.
Definition no_error (n : nat) : option exn := None.

Lemma demo_reached level sqlite ops :
  demo_reach level sqlite (fold_left (λ s op, (demo_do level sqlite op s).1) ops demo_channel).
Proof.
  assert (H0 : demo_reach level sqlite demo_channel) by (apply channel_start; [done|by apply (bool_decide_unpack _)]).
  generalize demo_channel, H0. clear H0. induction ops as [|op ops IH]; intros s H; [done|]. by apply IH, channel_call.
Qed.

(** The first consultation gives the hint, the second declines. *)
Example consult_twice :
  let first := demo_do L0_COMPLETE_TASK no_error (Consult (VStr "help")) demo_channel in
  let told r := match r with Ok a => (vget a "hint_delivered", vget a "message") | Err _ => (VNone, VNone) end in
  told first.2 = (VBool true, VStr D8_A_DEFAULT) ∧
  told (demo_do L0_COMPLETE_TASK no_error (Consult (VStr "again")) first.1).2 = (VBool false, VStr NEUTRAL_NO_INFORMATION).
Proof. vm_compute. done. Qed.

Lemma hint_delivered_once_witness :
  let s := (demo_do L0_COMPLETE_TASK no_error (Consult (VStr "help")) demo_channel).1 in
  hints (seen s) = 1%nat ∧ delivered demo_channel_config (hc_consult_state s).
Proof.
  split; [vm_compute; reflexivity|].
  refine (proj2 (@hint_delivered_once Responder (demo_user L0_COMPLETE_TASK) (λ _, None) (λ _, 0) (λ _, "id") (λ _, 0) (λ _, "id") no_error
    (λ _, None) (λ _, []) demo_channel_config _ (demo_reached L0_COMPLETE_TASK no_error [Consult (VStr "help")])) _).
  vm_compute. reflexivity.
Defined.

(** An approved plan, and its decision. *)
Definition demo_decision (level : AutonomyLevel) (plan : mapping) : option mapping :=
  hc_decision (demo_do level no_error (Confirm plan) demo_channel).1.

Lemma decisions_within_envelope_witness :
  ∃ d plan p, demo_decision L1_COMPLETE_EXPERIMENT demo_partial = Some d ∧ vget d "approved" = VBool true ∧
    vget d "approved_plan" = VDict plan ∧ executes plan p ∧ within_envelope p sample_envelope.
Proof.
  destruct (decisions_within_envelope demo_model (λ _ _, (0, 0)) (λ _, 0) (λ _, FFin 0) (λ _, "id") demo_errors "platform" 180
    (demo_policy L1_COMPLETE_EXPERIMENT) [] None (λ _, None) (λ _, 0) (λ _, "id") (λ _, 0) (λ _, "id") no_error (λ _, None) (λ _, [])
    demo_channel_config (Confirm demo_partial) demo_channel I) as [H|(asked & d & plan & p & _ & Hd & Ha & Hp & _ & He & Hw)].
  - exfalso. assert (is_Some (demo_decision L1_COMPLETE_EXPERIMENT demo_partial)) as [d Hd]
      by (apply (bool_decide_unpack _); vm_compute; exact I).
    unfold demo_decision, demo_do, demo_user, demo_config in Hd. rewrite H in Hd. discriminate Hd.
  - exists d, plan, p. exact (conj Hd (conj Ha (conj Hp (conj He Hw)))).
Defined.

(** When the ledger fails at the hint's event the hint is spent and was never given. *)
Example hint_lost :
  let sqlite n := if bool_decide (n = 6%nat) then Some (Exn (OtherError "OperationalError") "database is locked") else None in
  let first := demo_do L0_COMPLETE_TASK sqlite (Consult (VStr "help")) demo_channel in
  let reason (e : PlatformEvent) := (pe_type e, vget (pe_payload e) "reason") in
  is_ok first.2 = false ∧ hints (seen first.1) = 0%nat ∧
  last (map reason (seen (demo_do L0_COMPLETE_TASK sqlite (Consult (VStr "again")) first.1).1)) =
    Some ("CONSULT_DECLINED", VStr "hint_already_delivered").
Proof. vm_compute. done. Qed.
