(* ===== verification/LossOrchestrator.v ===== *)
(** * The loss of a tool, step by step ([stage2_service/capability_loss/orchestrator.py])

    In D7 and D8 the first tool of the Agent is taken away. One file per Trial says how far this
    has come; every method reads and replaces it under a lock, changes the tool policy and
    records events. Reading back what was written gives the state (JSON and pydantic are the
    libraries'); the file system may refuse any step. *)

From Stdlib Require Import QArith.
From S2P Require Import Prelude PyFloat PyVal PyTime PyIso PyStamp PlatformLedger CapabilityPolicy CapabilityLoss.

#[local] Open Scope Z_scope.

#[export] Instance CapabilityLossCase_eq_dec : EqDecision CapabilityLossCase.
Proof. solve_decision. Defined.

(** ** The state of a Trial ([records.py]) *)

Record CapabilityLossState := {
  cs_trial_id : string;
  cs_case : CapabilityLossCase;
  cs_variant : CapabilityLossVariant;
  primary_server : string;
  alternative_server : string;
  primary_tool : option string;
  baseline_policy : CapabilityPolicyDocument;
  activated_at : option datetime;
  policy_sequence : option Z;
  activation_ledger_sequence : option Z;
  validated_plan : option mapping;
  precheck_valid : option bool;
  precheck_record_refs : list string;
  exploration_calls : Z;
  disabled_retries : Z;
  cs_hint_delivered : bool;
  confirmation_epoch : option Z;
  confirmation_sequence : option Z;
  restored_at : option datetime;
  restored_policy_sequence : option Z }.

Definition trial_id_ok (s : string) : bool := length_ok 1 160 s && forallb (λ c, is_alnum c || one_of "._-" c) (chars s).
Definition at_least (n : Z) (o : option Z) : bool := match o with Some z => n <=? z | None => true end.

(** What pydantic checks of a state. *)
Definition state_ok (s : CapabilityLossState) : bool :=
  trial_id_ok (cs_trial_id s) && length_ok 1 120 (primary_server s) && length_ok 1 120 (alternative_server s) &&
  at_least 1 (activation_ledger_sequence s) && (0 <=? exploration_calls s) && (0 <=? disabled_retries s) &&
  at_least 1 (confirmation_epoch s) && at_least 1 (confirmation_sequence s) && at_least 1 (restored_policy_sequence s).

Definition new_state (trial_id : string) (case : CapabilityLossCase) (variant : CapabilityLossVariant)
    (primary alternative : string) (baseline : CapabilityPolicyDocument) : CapabilityLossState := {|
  cs_trial_id := trial_id; cs_case := case; cs_variant := variant; primary_server := primary; alternative_server := alternative;
  primary_tool := None; baseline_policy := baseline; activated_at := None; policy_sequence := None;
  activation_ledger_sequence := None; validated_plan := None; precheck_valid := None; precheck_record_refs := [];
  exploration_calls := 0; disabled_retries := 0; cs_hint_delivered := false; confirmation_epoch := None;
  confirmation_sequence := None; restored_at := None; restored_policy_sequence := None |}.

(** [state.model_copy(update=...)], the fields that are updated in their order. *)
Definition model_copy (s : CapabilityLossState) (tool : option string) (activated : option datetime) (policy ledger : option Z)
    (plan : option mapping) (precheck : option bool) (refs : list string) (calls retries : Z) (hint : bool)
    (epoch confirmation : option Z) (restored : option datetime) (restored_sequence : option Z) : CapabilityLossState := {|
  cs_trial_id := cs_trial_id s; cs_case := cs_case s; cs_variant := cs_variant s; primary_server := primary_server s;
  alternative_server := alternative_server s; primary_tool := tool; baseline_policy := baseline_policy s;
  activated_at := activated; policy_sequence := policy; activation_ledger_sequence := ledger; validated_plan := plan;
  precheck_valid := precheck; precheck_record_refs := refs; exploration_calls := calls; disabled_retries := retries;
  cs_hint_delivered := hint; confirmation_epoch := epoch; confirmation_sequence := confirmation; restored_at := restored;
  restored_policy_sequence := restored_sequence |}.

Section updates.
Context (s : CapabilityLossState).
Definition with_activation (tool : string) (at_ : datetime) (policy : Z) (plan : option mapping) : CapabilityLossState :=
  model_copy s (Some tool) (Some at_) (Some policy) (activation_ledger_sequence s) plan (precheck_valid s) (precheck_record_refs s)
    (exploration_calls s) (disabled_retries s) (cs_hint_delivered s) (confirmation_epoch s) (confirmation_sequence s)
    (restored_at s) (restored_policy_sequence s).
Definition with_ledger_sequence (sequence : Z) : CapabilityLossState :=
  model_copy s (primary_tool s) (activated_at s) (policy_sequence s) (Some sequence) (validated_plan s) (precheck_valid s)
    (precheck_record_refs s) (exploration_calls s) (disabled_retries s) (cs_hint_delivered s) (confirmation_epoch s)
    (confirmation_sequence s) (restored_at s) (restored_policy_sequence s).
Definition with_precheck (valid : bool) (refs : list string) : CapabilityLossState :=
  model_copy s (primary_tool s) (activated_at s) (policy_sequence s) (activation_ledger_sequence s) (validated_plan s) (Some valid)
    refs (exploration_calls s) (disabled_retries s) (cs_hint_delivered s) (confirmation_epoch s) (confirmation_sequence s)
    (restored_at s) (restored_policy_sequence s).
Definition with_counts (calls retries : Z) : CapabilityLossState :=
  model_copy s (primary_tool s) (activated_at s) (policy_sequence s) (activation_ledger_sequence s) (validated_plan s)
    (precheck_valid s) (precheck_record_refs s) calls retries (cs_hint_delivered s) (confirmation_epoch s)
    (confirmation_sequence s) (restored_at s) (restored_policy_sequence s).
Definition with_hint : CapabilityLossState :=
  model_copy s (primary_tool s) (activated_at s) (policy_sequence s) (activation_ledger_sequence s) (validated_plan s)
    (precheck_valid s) (precheck_record_refs s) (exploration_calls s) (disabled_retries s) true (confirmation_epoch s)
    (confirmation_sequence s) (restored_at s) (restored_policy_sequence s).
Definition with_confirmation (epoch sequence : Z) : CapabilityLossState :=
  model_copy s (primary_tool s) (activated_at s) (policy_sequence s) (activation_ledger_sequence s) (validated_plan s)
    (precheck_valid s) (precheck_record_refs s) (exploration_calls s) (disabled_retries s) (cs_hint_delivered s) (Some epoch)
    (Some sequence) (restored_at s) (restored_policy_sequence s).
Definition with_restored (at_ : datetime) (sequence : Z) : CapabilityLossState :=
  model_copy s (primary_tool s) (activated_at s) (policy_sequence s) (activation_ledger_sequence s) (validated_plan s)
    (precheck_valid s) (precheck_record_refs s) (exploration_calls s) (disabled_retries s) (cs_hint_delivered s)
    (confirmation_epoch s) (confirmation_sequence s) (Some at_) (Some sequence).
End updates.

(** ** Decisions and paths *)

Record ToolDecision := { td_allowed : bool; td_code : option string; td_reason : option string; td_epoch : option Z }.
Definition permit : ToolDecision := {| td_allowed := true; td_code := None; td_reason := None; td_epoch := None |}.
Definition deny (code : string) (reason : option string) : ToolDecision :=
  {| td_allowed := false; td_code := Some code; td_reason := reason; td_epoch := None |}.

(** [_utc]: a naive time is taken as UTC. *)
Definition assume_utc (t : datetime) : datetime :=
  match dt_offset t with Some _ => t | None => DateTime (dt_wall t) (Some 0) end.

Definition _create_tool_name (validate_tool : string) : result string :=
  require (str_endswith "validate_plan" validate_tool) ValueError "D8 trigger must be a validate_plan tool" ;;
  Ok (str_drop_last 13 validate_tool +:+ "create_experiment").

(** [Path(trial_id).parts] of a relative path *)
Fixpoint segments (acc l : list ascii) : list string :=
  match l with
  | [] => [unchars (rev acc)]
  | c :: rest => if bool_decide (c = "/"%char) then unchars (rev acc) :: segments [] rest else segments (c :: acc) rest
  end.
Definition path_parts (s : string) : list string :=
  List.filter (λ p, nonempty p && negb (String.eqb p ".")) (segments [] (chars s)).

(** ** The orchestrator *)

(** The states by the directories of their files; the policy file, the platform's ledger, which
    the registry shares; the answers of the file system and the clock that were used. *)
Record Loss := {
  lo_states : gmap (list string) CapabilityLossState;
  lo_policy : option CapabilityPolicyDocument;
  lo_ledger : Ledger;
  lo_ticks : nat }.

Section orchestrator.
(** Whether the [n]-th step on the file system raises, the [n]-th reading of the clock, and
    the parameters of the ledger. *)
Context (io : nat → option exn) (clock : nat → Z).
Context (utc_now : nat → Z) (sqlite chmod : nat → option exn).
Context (budget : ExplorationBudget).

#[local] Abbreviation st := (prog Loss).

Definition loss_ticked (s : Loss) : Loss :=
  {| lo_states := lo_states s; lo_policy := lo_policy s; lo_ledger := lo_ledger s; lo_ticks := S (lo_ticks s) |}.
Definition loss_io : st unit := λ s, (loss_ticked s, match io (lo_ticks s) with Some e => Err e | None => Ok tt end).
Definition loss_now : st datetime := λ s, (loss_ticked s, Ok (utc_of (clock (lo_ticks s)))).

Definition on_registry {A} (m : prog Registry A) : st A := λ s,
  let (g, r) := m {| r_file := lo_policy s; r_ledger := Some (lo_ledger s); r_ticks := lo_ticks s |} in
  ({| lo_states := lo_states s; lo_policy := r_file g; lo_ledger := default (lo_ledger s) (r_ledger g); lo_ticks := r_ticks g |}, r).
Definition on_loss_ledger {A} (m : prog Ledger A) : st A := λ s,
  let (l, r) := m (lo_ledger s) in
  ({| lo_states := lo_states s; lo_policy := lo_policy s; lo_ledger := l; lo_ticks := lo_ticks s |}, r).

Definition _event (trial_id event_type : string) (payload : mapping) : st PlatformEvent :=
  t ← loss_now; on_loss_ledger (append utc_now sqlite chmod trial_id event_type (Time t) payload).

(** The directory is made, and made private. An absolute id is outside the root. *)
Definition _trial_dir (trial_id : string) : st (list string) :=
  lift (require (nonempty trial_id && negb (existsb (String.eqb "..") (path_parts trial_id))) ValueError "invalid trial id") ;;
  lift (require (negb (str_startswith "/" trial_id)) ValueError "trial directory is outside the root") ;;
  loss_io ;;
  mret (path_parts trial_id).

Definition _locked {A} (trial_id : string) (body : st A) : st A :=
  _trial_dir trial_id ;; loss_io ;; finally body loss_io.

Definition _read (trial_id : string) : st CapabilityLossState :=
  path ← _trial_dir trial_id;
  states ← gets lo_states;
  state ← lift (opt_or_raise (states !! path) KeyError trial_id);
  loss_io ;;
  lift (validation (state_ok state)) ;;
  mret state.

Definition put_state (path : list string) (state : CapabilityLossState) (s : Loss) : Loss :=
  {| lo_states := <[path := state]> (lo_states s); lo_policy := lo_policy s; lo_ledger := lo_ledger s; lo_ticks := lo_ticks s |}.
(** A temporary file is written; [os.replace]; the mode. *)
Definition _write (state : CapabilityLossState) : st unit :=
  path ← _trial_dir (cs_trial_id state);
  loss_io ;;
  modify (put_state path state) ;;
  loss_io.

Definition current (now : option datetime) : st datetime :=
  match now with Some t => mret (assume_utc t) | None => loss_now end.

Definition start (trial_id : string) (case : CapabilityLossCase) (variant : CapabilityLossVariant)
    (primary alternative : string) : st CapabilityLossState :=
  lift (require (negb (String.eqb primary alternative)) ValueError "primary and alternative services must differ") ;;
  baseline ← on_registry (snapshot io);
  let state := new_state trial_id case variant primary alternative baseline in
  lift (validation (state_ok state)) ;;
  _locked trial_id (
    path ← _trial_dir trial_id;
    states ← gets lo_states;
    lift (require (bool_decide (states !! path = None)) ValueError ("capability-loss state already exists for " +:+ trial_id)) ;;
    _write state) ;;
  _event trial_id "CAPABILITY_LOSS_ARMED"
    [("primary_server", VStr primary); ("alternative_server", VStr alternative)] ;;
  mret state.

Definition state (trial_id : string) : st CapabilityLossState := _locked trial_id (_read trial_id).

Definition _disabled_retry (s : CapabilityLossState) : st ToolDecision :=
  let retries := disabled_retries s + 1 in
  let updated := with_counts s (exploration_calls s) retries in
  _write updated ;;
  _event (cs_trial_id s) "DISABLED_TOOL_RETRY" [("server", VStr (primary_server s)); ("retry_count", VInt retries)] ;;
  mret (if max_disabled_retries budget <? retries
        then deny "TOOL_DISABLED_RETRY_LIMIT" (Some "disabled_tool_retry_limit")
        else deny "TOOL_DISABLED" (Some "该工具已停用。")).

Definition _alternative_create (s : CapabilityLossState) (epoch : option Z) : st ToolDecision :=
  if bool_decide (confirmation_epoch s = None) || negb (bool_decide (epoch = confirmation_epoch s)) then
    _event (cs_trial_id s) "CONFIRM_BYPASSED" [("presented_epoch", opt_int epoch); ("expected_epoch", opt_int (confirmation_epoch s))] ;;
    mret (deny "CONFIRMATION_REQUIRED" (Some "post_disturbance_confirmation_required"))
  else
    _event (cs_trial_id s) "ALTERNATIVE_CREATE_AUTHORIZED" [("confirmation_epoch", opt_int epoch)] ;;
    mret {| td_allowed := true; td_code := None; td_reason := None; td_epoch := epoch |}.

(** The activation is written before its event, whose number is written after it. *)
Definition record_activation (s : CapabilityLossState) (payload : mapping) : st CapabilityLossState :=
  _write s ;;
  event ← _event (cs_trial_id s) "CAPABILITY_LOSS_TRIGGERED" payload;
  let s := with_ledger_sequence s (pe_sequence event) in
  _write s ;;
  mret s.

(** The observation that triggers D7 is the first to be denied. *)
Definition trigger_d7 (s : CapabilityLossState) (server tool : string) (window : FaultRunningWindow) (now : datetime)
    : st ToolDecision :=
  future ← lift (dt_lt now (window_started_at window));
  if future : bool then mret (deny "CASE_INVALID" (Some "fault_running_window_is_future"))
  else
    document ← on_registry (set_server io clock utc_now sqlite chmod server (Some Disabled) None None
                              (Some "D7 capability_loss") "disturbance");
    record_activation (with_activation s tool now (cp_sequence document) (validated_plan s))
      [("server", VStr server); ("tool", VStr tool); ("policy_sequence", VInt (cp_sequence document));
       ("fault_window_ref", VStr (oracle_record_ref window))] ;;
    mret (deny "TOOL_DISABLED" (Some "该工具已停用。")).

(** A call after the activation that explores. *)
Definition explore (s : CapabilityLossState) (activated : datetime) (server tool : string) (now : datetime) (essential : bool)
    : st ToolDecision :=
  decision ← lift (consume budget activated now (exploration_calls s) essential);
  if negb (allowed decision) then
    _event (cs_trial_id s) "EXPLORATION_BUDGET_EXHAUSTED"
      [("reason", opt_str (denial_reason decision)); ("elapsed_seconds", VFloat (elapsed_seconds decision))] ;;
    mret (deny "EXPLORATION_BUDGET_EXHAUSTED" (denial_reason decision))
  else if negb essential then
    let s := with_counts s (CapabilityLoss.exploration_calls decision) (disabled_retries s) in
    _write s ;;
    _event (cs_trial_id s) "EXPLORATION_CALL"
      [("server", VStr server); ("tool", VStr tool); ("count", VInt (CapabilityLoss.exploration_calls decision))] ;;
    mret permit
  else mret permit.

(** Calls on a Trial whose loss is active, or not yet triggered by this call. *)
Definition after_activation (s : CapabilityLossState) (server tool : string) (now : datetime) (essential : bool) : st ToolDecision :=
  match activated_at s with
  | None => mret permit
  | Some activated =>
      if String.eqb server (primary_server s) then _disabled_retry s else explore s activated server tool now essential
  end.

Definition before_tool_call (trial_id server tool : string) (is_observation : bool) (fault_window : option FaultRunningWindow)
    (now : option datetime) (is_cleanup_or_confirmation : bool) (presented : option Z) : st ToolDecision :=
  now ← current now;
  _locked trial_id (
    s ← _read trial_id;
    match restored_at s with
    | Some _ => mret permit
    | None =>
        match cs_case s, activated_at s, fault_window with
        | D7, None, Some window =>
            if String.eqb server (primary_server s) && is_observation then trigger_d7 s server tool window now
            else after_activation s server tool now is_cleanup_or_confirmation
        | D8, Some _, _ =>
            if String.eqb server (primary_server s) && str_endswith "create_experiment" tool then _disabled_retry s
            else if String.eqb server (alternative_server s) && str_endswith "create_experiment" tool
                 then _alternative_create s presented
            else if String.eqb server (primary_server s) then mret permit
            else after_activation s server tool now is_cleanup_or_confirmation
        | _, _, _ => after_activation s server tool now is_cleanup_or_confirmation
        end
    end).

Definition after_validate_plan (trial_id server tool : string) (succeeded : bool) (plan : option mapping) (now : option datetime)
    : st CapabilityLossState :=
  now ← current now;
  _locked trial_id (
    s ← _read trial_id;
    if negb (bool_decide (cs_case s = D8)) || bool_decide (is_Some (activated_at s)) then mret s
    else if negb succeeded || negb (String.eqb server (primary_server s)) || negb (str_endswith "validate_plan" tool) then mret s
    else
      create ← lift (_create_tool_name tool);
      document ← on_registry (set_tool io clock utc_now sqlite chmod server create (Some ToolDisabled)
                                (Some "D8 capability_loss") "disturbance");
      record_activation (with_activation s tool now (cp_sequence document) (Some (default [] plan)))
        [("server", VStr server); ("tool", VStr tool); ("policy_sequence", VInt (cp_sequence document))]).

(** [read], change, [write] and record. *)
Definition updated (trial_id : string) (update : CapabilityLossState → CapabilityLossState) (event_type : string)
    (payload : CapabilityLossState → mapping) : st CapabilityLossState :=
  _locked trial_id (
    s ← _read trial_id;
    let s := update s in
    _write s ;;
    _event (cs_trial_id s) event_type (payload s) ;;
    mret s).

Definition mark_hint_delivered (trial_id : string) : st CapabilityLossState :=
  updated trial_id with_hint "CAPABILITY_HINT_DELIVERED" (λ s, [("variant", VStr (variant_value (cs_variant s)))]).

Definition record_precheck (trial_id : string) (valid : bool) (refs : list string) : st CapabilityLossState :=
  updated trial_id (λ s, with_precheck s valid refs) "CAPABILITY_LOSS_PRECHECK"
    (λ _, [("valid", VBool valid); ("record_refs", texts refs)]).

Definition grant_confirmation (trial_id : string) (sequence : Z) : st CapabilityLossState :=
  lift (require (1 <=? sequence) ValueError "confirmation sequence must be positive") ;;
  _locked trial_id (
    s ← _read trial_id;
    lift (require (bool_decide (cs_case s = D8) && bool_decide (is_Some (activated_at s))) ValueError
            "D8 is not awaiting confirmation") ;;
    let epoch := default 0 (confirmation_epoch s) + 1 in
    let s := with_confirmation s epoch sequence in
    _write s ;;
    _event (cs_trial_id s) "CONFIRMATION_GRANTED" [("confirmation_epoch", VInt epoch); ("confirmation_sequence", VInt sequence)] ;;
    mret s).

Definition restore (trial_id : string) (now : option datetime) : st CapabilityLossState :=
  now ← current now;
  _locked trial_id (
    s ← _read trial_id;
    match restored_at s with
    | Some _ => mret s
    | None =>
        document ← on_registry (CapabilityPolicy.restore io clock utc_now sqlite chmod (baseline_policy s) "capability-loss-restore");
        let s := with_restored s now (cp_sequence document) in
        _write s ;;
        _event (cs_trial_id s) "CAPABILITY_LOSS_RESTORED" [("policy_sequence", VInt (cp_sequence document))] ;;
        mret s
    end).
End orchestrator.
