(* ===== verification/LossProps.v ===== *)
(** * What the orchestrator and the runtime of a lost tool promise

    The state of a Trial only goes forward, whatever fails; every decision, and what it makes of
    the tool policy, is the one the state asks for; the alternative creates nothing without a
    grant of the plan that was validated, later than the event of the disturbance when the state
    has its number; a Trial that counts has got its tools back. *)

From Stdlib Require Import QArith.
From S2P Require Import Prelude Hoare PyFloat PyVal PyTime PyIso PyStamp PlatformLedger PlatformLedgerInv CapabilityPolicy CapabilityPolicyProps CapabilityLoss LossOrchestrator LossRuntime.

#[local] Open Scope Z_scope.

(** ** The ledger only grows *)

Definition grown (l l' : Ledger) : Prop := ∃ new, events (ld_db l') = events (ld_db l) ++ new.
#[export] Instance grown_preorder : PreOrder grown.
Proof.
  split; [intros l; exists []; by rewrite app_nil_r|].
  intros l1 l2 l3 [n1 H1] [n2 H2]. exists (n1 ++ n2). by rewrite H2, H1, app_assoc.
Qed.

Definition registry_grown (s s' : Registry) : Prop :=
  match r_ledger s with
  | None => r_ledger s' = None
  | Some l => ∃ l', r_ledger s' = Some l' ∧ grown l l'
  end.
#[export] Instance registry_grown_preorder : PreOrder registry_grown.
Proof.
  unfold registry_grown. split.
  - intros s. destruct (r_ledger s); [|done]. eexists. split; [done|]. reflexivity.
  - intros s1 s2 s3. destruct (r_ledger s1) as [l1|]; [|by intros ->].
    intros (l2 & -> & H2) (l3 & -> & H3). exists l3. split; [done|]. by etrans.
Qed.

Lemma append_grown utc_now sqlite chmod trial type at_ payload : moves grown (append utc_now sqlite chmod trial type at_ payload).
Proof.
  intros l. pose proof (append_effect utc_now sqlite chmod trial type at_ payload l) as H. cbv zeta in H.
  destruct (append _ _ _ _ _ _ _ l) as [l' [e|x]]; cbn; [destruct H as [H _]; by exists [e]|].
  destruct H as [H|(e & H & _)]; [exists []; by rewrite app_nil_r, H|by exists [e]].
Qed.
Lemma looks_grown {A} (m : prog Ledger A) : looks m → moves grown m.
Proof. intros Hm l. exists []. by rewrite app_nil_r, Hm. Qed.

Section registry.
Context (io : nat → option exn) (clock : nat → Z) (utc_now : nat → Z) (sqlite chmod : nat → option exn).

Lemma same_grown s s' : r_ledger s' = r_ledger s → registry_grown s s'.
Proof. intros E. unfold registry_grown. rewrite E. destruct (r_ledger s); [|done]. eexists. split; [done|reflexivity]. Qed.
Lemma io_grown : moves registry_grown (io_step io).
Proof. intros s. by apply same_grown. Qed.
Lemma guarded_grown message : moves registry_grown (guarded_step io message).
Proof. intros s. by apply same_grown. Qed.
Lemma clock_grown : moves registry_grown (_utc_now_datetime clock).
Proof. intros s. by apply same_grown. Qed.
Lemma replace_grown d : moves registry_grown
  (modify (λ s, {| r_file := d; r_ledger := r_ledger s; r_ticks := r_ticks s |})).
Proof. intros s. by apply same_grown. Qed.
Lemma record_grown d type payload : moves registry_grown (_record utc_now sqlite chmod d type payload).
Proof.
  intros s. unfold _record, registry_grown. destruct (r_ledger s) as [l|] eqn:E; [|done].
  pose proof (append_grown utc_now sqlite chmod (cp_trial_id d) type (Time (cp_since d))
    (dict_update [("sequence", VInt (cp_sequence d))] payload) l) as H.
  destruct (append _ _ _ _ _ _ _ l) as [l' r]. exists l'. done.
Qed.
#[local] Hint Resolve record_grown replace_grown io_grown guarded_grown clock_grown : moves.

Lemma write_policy_grown d : moves registry_grown (_write_policy_document io d).
Proof. unfold _write_policy_document. moves_tac. Qed.
Lemma read_policy_grown : moves registry_grown (_read_policy_document io).
Proof. unfold _read_policy_document. moves_tac. Qed.
#[local] Hint Resolve write_policy_grown read_policy_grown : moves.

Lemma registry_op_grown op : moves registry_grown (registry_op io clock utc_now sqlite chmod op).
Proof.
  destruct op; cbn [registry_op]; unfold initialize, set_server, set_tool, CapabilityPolicy.restore, CapabilityPolicy._locked, and_unlock, _next_document;
    moves_tac.
Qed.
End registry.

(** ** States go forward *)

Record evolves (a b : CapabilityLossState) : Prop := {
  ev_id : cs_trial_id b = cs_trial_id a;
  ev_case : cs_case b = cs_case a;
  ev_variant : cs_variant b = cs_variant a;
  ev_primary : primary_server b = primary_server a;
  ev_alternative : alternative_server b = alternative_server a;
  ev_baseline : baseline_policy b = baseline_policy a;
  ev_activated : is_Some (activated_at a) → activated_at b = activated_at a ∧ primary_tool b = primary_tool a ∧
    policy_sequence b = policy_sequence a ∧ validated_plan b = validated_plan a;
  ev_marked : is_Some (activation_ledger_sequence a) → activation_ledger_sequence b = activation_ledger_sequence a;
  ev_calls : exploration_calls a <= exploration_calls b;
  ev_retries : disabled_retries a <= disabled_retries b;
  ev_hint : cs_hint_delivered a = true → cs_hint_delivered b = true;
  ev_epoch : default 0 (confirmation_epoch a) <= default 0 (confirmation_epoch b);
  ev_restored : is_Some (restored_at a) → restored_at b = restored_at a ∧ restored_policy_sequence b = restored_policy_sequence a ∧
    exploration_calls b = exploration_calls a ∧ disabled_retries b = disabled_retries a }.

#[export] Instance evolves_preorder : PreOrder evolves.
Proof.
  split; [by split|]. intros a b c [] []. split; try congruence; try lia; try (by auto).
  - intros Ha. destruct ev_activated0 as (E & ? & ? & ?); [done|].
    destruct ev_activated1 as (? & ? & ? & ?); [by rewrite E|]. split_and!; congruence.
  - intros Ha. rewrite <- ev_marked0 by done. apply ev_marked1. by rewrite ev_marked0.
  - intros Ha. destruct ev_restored0 as (E & ? & ? & ?); [done|].
    destruct ev_restored1 as (? & ? & ? & ?); [by rewrite E|]. split_and!; congruence.
Qed.

(** What is true of the state in the directory [p]: of its own fields, which may be behind the
    policy ([disabled_before_recorded]). *)
Record state_inv (budget : ExplorationBudget) (p : list string) (a : CapabilityLossState) : Prop := {
  si_path : path_parts (cs_trial_id a) = p;
  si_servers : primary_server a ≠ alternative_server a;
  si_calls : 0 <= exploration_calls a <= Z.max 0 (max_calls budget);
  si_retries : 0 <= disabled_retries a;
  si_idle : activated_at a = None → primary_tool a = None ∧ policy_sequence a = None ∧ validated_plan a = None ∧
    activation_ledger_sequence a = None ∧ confirmation_epoch a = None ∧ exploration_calls a = 0 ∧ disabled_retries a = 0;
  si_epoch : ∀ e, confirmation_epoch a = Some e → cs_case a = D8 ∧ 1 <= e ∧ is_Some (confirmation_sequence a);
  si_confirmation : is_Some (confirmation_sequence a) → is_Some (confirmation_epoch a);
  si_restored : is_Some (restored_at a) ↔ is_Some (restored_policy_sequence a) }.

(** A state may replace another; it may without a word on the number of the disturbance's event. *)
Definition replaces (budget : ExplorationBudget) (a b : CapabilityLossState) : Prop :=
  evolves a b ∧ ∀ p, state_inv budget p a → state_inv budget p b.
Definition advances (budget : ExplorationBudget) (a b : CapabilityLossState) : Prop :=
  replaces budget a b ∧ activation_ledger_sequence b = activation_ledger_sequence a.

Lemma advances_precheck budget a valid refs : advances budget a (with_precheck a valid refs).
Proof. split; [|done]. split; [by split|]. intros p []. by split. Qed.
Lemma advances_hint budget a : advances budget a (with_hint a).
Proof. split; [|done]. split; [by split|]. intros p []. by split. Qed.
Lemma advances_counts budget a calls retries : is_Some (activated_at a) → restored_at a = None →
  exploration_calls a <= calls → calls <= Z.max (exploration_calls a) (max_calls budget) → disabled_retries a <= retries →
  advances budget a (with_counts a calls retries).
Proof.
  intros [t Ha] Hr Hc Hb Hd. split; [|done]. split.
  - split; try done. rewrite Hr. by intros [].
  - intros p []. split; cbn in *; try done; try lia. by rewrite Ha.
Qed.
Lemma advances_confirmation budget a sequence : cs_case a = D8 → is_Some (activated_at a) →
  advances budget a (with_confirmation a (default 0 (confirmation_epoch a) + 1) sequence).
Proof.
  intros Hc [t Ha]. split; [|done]. split.
  - split; try done. cbn. lia.
  - intros p []. split; cbn; try done.
    + by rewrite Ha.
    + intros e [= <-]. split; [done|]. destruct (confirmation_epoch a) as [e|]; cbn; [|done].
      destruct (si_epoch0 e eq_refl) as (_ & ? & _). split; [lia|done].
Qed.
Lemma advances_restored budget a at_ sequence : restored_at a = None → advances budget a (with_restored a at_ sequence).
Proof. intros Hr. split; [|done]. split; [split; try done; rewrite Hr; by intros []|]. intros p []. by split. Qed.
Lemma advances_activation budget a tool at_ sequence plan : activated_at a = None →
  advances budget a (with_activation a tool at_ sequence plan).
Proof. intros Ha. split; [|done]. split; [split; try done; rewrite Ha; by intros []|]. intros p []. by split. Qed.
Lemma replaces_sequence budget a n : is_Some (activated_at a) → activation_ledger_sequence a = None →
  replaces budget a (with_ledger_sequence a n).
Proof.
  intros [t Ha] Hn. split; [split; try done; rewrite Hn; by intros []|]. intros p []. split; try done. cbn. by rewrite Ha.
Qed.

(** ** Steps of the orchestrator *)

Section orchestrator.
Context (io : nat → option exn) (clock : nat → Z) (utc_now : nat → Z) (sqlite chmod : nat → option exn).
Context (budget : ExplorationBudget).

(** The ledger holds an event of the Trial with that number; the number a state gives to the
    disturbance is that of such an event. *)
Definition logged (trial type : string) (n : Z) (s : Loss) : Prop :=
  ∃ e, e ∈ events (ld_db (lo_ledger s)) ∧ pe_trial e = str_strip trial ∧ pe_type e = type ∧ pe_sequence e = n.
Definition marked (a : CapabilityLossState) (s : Loss) : Prop :=
  ∀ n, activation_ledger_sequence a = Some n → logged (cs_trial_id a) "CAPABILITY_LOSS_TRIGGERED" n s.
Definition loss_inv (s : Loss) : Prop := map_Forall (λ p a, state_inv budget p a ∧ marked a s) (lo_states s).
Definition forward (m m' : gmap (list string) CapabilityLossState) : Prop :=
  ∀ p a, m !! p = Some a → ∃ b, m' !! p = Some b ∧ evolves a b.

#[export] Instance forward_preorder : PreOrder forward.
Proof.
  split; [intros m p a Ha; by exists a|]. intros m1 m2 m3 H1 H2 p a Ha.
  destruct (H1 p a Ha) as (b & Hb & E1). destruct (H2 p b Hb) as (c & Hc & E2). exists c. split; [done|]. by etrans.
Qed.

(** A step that leaves the states alone; every step from [s0]; the state in [p] is [a]. *)
Definition still (s s' : Loss) : Prop := lo_states s' = lo_states s ∧ grown (lo_ledger s) (lo_ledger s').
#[export] Instance still_preorder : PreOrder still.
Proof.
  split; [done|]. intros s1 s2 s3 [E1 G1] [E2 G2]. split; [congruence|]. by etrans.
Qed.
Definition near (s0 s : Loss) : Prop := loss_inv s ∧ forward (lo_states s0) (lo_states s) ∧ grown (lo_ledger s0) (lo_ledger s).
Definition at_state (s0 : Loss) (p : list string) (a : CapabilityLossState) (s : Loss) : Prop :=
  near s0 s ∧ lo_states s !! p = Some a.

Lemma logged_grown trial type n s s' : logged trial type n s → grown (lo_ledger s) (lo_ledger s') → logged trial type n s'.
Proof. intros (e & He & ?) [new Hg]. exists e. split; [|done]. rewrite Hg. apply elem_of_app. by left. Qed.
Lemma marked_grown a s s' : marked a s → grown (lo_ledger s) (lo_ledger s') → marked a s'.
Proof. intros Ha Hg n Hn. eapply logged_grown; [by apply Ha|done]. Qed.
Lemma marked_advances a b s : advances budget a b → marked a s → marked b s.
Proof. intros [[He _] Hq] Ha n Hn. rewrite (ev_id _ _ He). apply Ha. congruence. Qed.
Lemma inv_still s s' : loss_inv s → still s s' → loss_inv s'.
Proof.
  intros Hi [E G]. unfold loss_inv. rewrite E. eapply map_Forall_impl; [exact Hi|]. intros p a [Ha Hm]. split; [done|].
  by eapply marked_grown.
Qed.

Lemma near_self s : loss_inv s → near s s.
Proof. done. Qed.
Lemma near_still s0 s s' : near s0 s → still s s' → near s0 s'.
Proof. intros (Hi & Hf & Hg) Hs. split; [by eapply inv_still|]. destruct Hs as [-> G]. split; [done|]. by etrans. Qed.
Lemma at_still s0 p a s s' : at_state s0 p a s → still s s' → at_state s0 p a s'.
Proof. intros [Hn Hp] Hs. split; [by eapply near_still|]. by destruct Hs as [-> _]. Qed.

Lemma still_io : moves still (loss_io io).
Proof. done. Qed.
Lemma still_now : moves still (loss_now clock).
Proof. done. Qed.
Lemma still_ledger {A} (m : prog Ledger A) : moves grown m → moves still (on_loss_ledger m).
Proof. intros Hm s. unfold on_loss_ledger. specialize (Hm (lo_ledger s)). by destruct (m (lo_ledger s)). Qed.
Lemma still_registry {A} (m : prog Registry A) : moves registry_grown m → moves still (on_registry m).
Proof.
  intros Hm s. unfold on_registry.
  specialize (Hm {| r_file := lo_policy s; r_ledger := Some (lo_ledger s); r_ticks := lo_ticks s |}).
  destruct (m _) as [g r]. destruct Hm as (l & E & G). split; [done|]. cbn in *. by rewrite E.
Qed.
Lemma still_operation op : moves still (on_registry (registry_op io clock utc_now sqlite chmod op)).
Proof. apply still_registry, registry_op_grown. Qed.
Lemma still_snapshot : moves still (on_registry (snapshot io)).
Proof. apply still_registry, (read_policy_grown io clock). Qed.
Lemma still_event trial type payload : moves still (_event clock utc_now sqlite chmod trial type payload).
Proof. apply (moves_bind still); [apply still_now|]. intros t. apply still_ledger, append_grown. Qed.
Lemma still_current now : moves still (current clock now).
Proof. destruct now; [apply (moves_pure still (λ _, Ok _))|apply still_now]. Qed.
#[local] Hint Resolve still_io still_now still_event still_operation still_snapshot still_current : moves.
Lemma still_dir trial : moves still (_trial_dir io trial).
Proof. unfold _trial_dir. moves_tac. Qed.
#[local] Hint Resolve still_dir : moves.
Lemma still_read trial : moves still (_read io trial).
Proof. unfold _read. moves_tac. Qed.
#[local] Hint Resolve still_read : moves.

(** *** Triples along [near] *)

Definition stable (P : Loss → Prop) : Prop := ∀ s s', P s → still s s' → P s'.
(** No state was read or written yet. *)
Definition unread (s0 s : Loss) : Prop := loss_inv s0 ∧ still s0 s.

Lemma unread_near s0 s : unread s0 s → near s0 s.
Proof. intros [Hi Hs]. by eapply near_still. Qed.
Lemma at_near s0 p a s : at_state s0 p a s → near s0 s.
Proof. by intros []. Qed.
Lemma stable_unread s0 : stable (unread s0).
Proof. intros s s' [Hi Hs] Hs'. split; [done|]. by etrans. Qed.
Lemma stable_at s0 p a : stable (at_state s0 p a).
Proof. intros s s'. apply at_still. Qed.
Lemma stable_near s0 : stable (near s0).
Proof. intros s s'. apply near_still. Qed.
Lemma stable_and (R : Prop) P : stable P → stable (λ s, R ∧ P s).
Proof. intros HP s s' [HR Hs] Hm. split; [done|]. by eapply HP. Qed.
Lemma stable_both P P' : stable P → stable P' → stable (λ s, P s ∧ P' s).
Proof. intros HP HP' s s' [H H'] Hm. split; [by eapply HP|by eapply HP']. Qed.
Lemma stable_marked a : stable (marked a).
Proof. intros s s' Ha [_ G]. by eapply marked_grown. Qed.
Lemma stable_exists {B} (P : B → Loss → Prop) : (∀ b, stable (P b)) → stable (λ s, ∃ b, P b s).
Proof. intros HP s s' [b Hs] Hm. exists b. by eapply HP. Qed.
#[local] Hint Resolve unread_near at_near stable_unread stable_at stable_near stable_and stable_both stable_marked stable_exists near_self : core.

Lemma still_triple {A} (m : prog Loss A) P : stable P → moves still m → triple P m (λ _, P) P.
Proof. intros HP Hm s Hs. specialize (Hm s). destruct (m s) as [s' [a|e]]; by eapply HP. Qed.
Lemma still_then {A B} s0 (m : prog Loss A) (f : A → prog Loss B) P Q : stable P → (∀ s, P s → near s0 s) → moves still m →
  (∀ a, triple P (f a) Q (near s0)) → triple P (m ≫= f) Q (near s0).
Proof.
  intros HP Hn Hm Hf. eapply triple_bind; [|exact Hf]. eapply triple_post; [by apply still_triple|done|exact Hn].
Qed.
Lemma guard_then {A B} s0 (r : result A) (f : A → prog Loss B) P Q : (∀ s, P s → near s0 s) →
  (∀ a, r = Ok a → triple P (f a) Q (near s0)) → triple P (lift r ≫= f) Q (near s0).
Proof. intros Hn Hf s Hs. destruct r as [a|e]; [by apply (Hf a)|by apply Hn]. Qed.

Lemma loss_locked_triple {A} s0 trial (body : prog Loss A) P Q : stable P → (∀ s, P s → near s0 s) → (∀ a, stable (Q a)) →
  (∀ a s, Q a s → near s0 s) → triple P body Q (near s0) → triple P (_locked io trial body) Q (near s0).
Proof.
  intros HP Hn HQ HQn Hb. unfold _locked. do 2 (apply still_then; [done|done|auto with moves|intros ?]).
  apply triple_finally; [done| |].
  - intros x. eapply triple_post; [apply still_triple; [apply HQ|apply still_io]|done|apply HQn].
  - apply still_triple; [apply stable_near|apply still_io].
Qed.

Lemma dir_triple s0 trial P : stable P → (∀ s, P s → near s0 s) →
  triple P (_trial_dir io trial) (λ path s, path = path_parts trial ∧ P s) (near s0).
Proof.
  intros HP Hn s Hs. pose proof (still_dir trial s) as Hm. destruct (_trial_dir io trial s) as [s' [path|e]] eqn:E.
  - split; [|by eapply HP]. unfold _trial_dir in E. by run_inv.
  - apply Hn. by eapply HP.
Qed.
Lemma loss_read_triple s0 trial : triple (unread s0) (_read io trial)
  (λ a s, lo_states s0 !! path_parts trial = Some a ∧ at_state s0 (path_parts trial) a s) (near s0).
Proof.
  unfold _read.
  eapply triple_bind with (Q := λ path s, path = path_parts trial ∧ unread s0 s); [apply dir_triple; auto|].
  intros path. apply triple_pure. intros ->.
  eapply triple_bind with (Q := λ states s, states = lo_states s0 ∧ unread s0 s).
  { apply triple_gets. intros s Hs. split; [|done]. by destruct Hs as (_ & -> & _). }
  intros states. apply triple_pure. intros ->. apply guard_then; [auto|]. intros a Ha%opt_or_raise_Ok.
  apply still_then; [auto|auto|apply still_io|]. intros ?. apply guard_then; [auto|]. intros _ _. apply triple_ret.
  intros s Hs. split; [done|]. split; [by apply unread_near|]. by destruct Hs as (_ & -> & _).
Qed.
Lemma read_then {B} s0 trial (f : CapabilityLossState → prog Loss B) Q :
  (∀ a, lo_states s0 !! path_parts trial = Some a → triple (at_state s0 (path_parts trial) a) (f a) Q (near s0)) →
  triple (unread s0) (_read io trial ≫= f) Q (near s0).
Proof. intros Hf. eapply triple_bind; [apply loss_read_triple|]. intros a. apply triple_pure, Hf. Qed.

Lemma put_at s0 p a b s : at_state s0 p a s → replaces budget a b → marked b s → at_state s0 p b (put_state p b s).
Proof.
  intros [(Hi & Hf & Hg) Hp] [He Hn] Hm. unfold at_state, near, loss_inv, put_state. cbn [lo_states lo_ledger].
  rewrite lookup_insert_eq. split; [|done]. split_and!.
  - apply map_Forall_insert_2; [|done]. split; [|done]. apply Hn, (map_Forall_lookup_1 _ _ _ _ Hi Hp).
  - etrans; [exact Hf|]. intros q c Hc. destruct (decide (p = q)) as [<-|Hne].
    + exists b. rewrite lookup_insert_eq. split; [done|]. by simplify_eq.
    + exists c. by rewrite lookup_insert_ne.
  - exact Hg.
Qed.
Lemma at_inv s0 p a s : at_state s0 p a s → state_inv budget p a.
Proof. intros [(Hi & _) Hp]. exact (proj1 (map_Forall_lookup_1 _ _ _ _ Hi Hp)). Qed.
Lemma at_marked s0 p a s : at_state s0 p a s → marked a s.
Proof. intros [(Hi & _) Hp]. exact (proj2 (map_Forall_lookup_1 _ _ _ _ Hi Hp)). Qed.

Lemma write_marked {B} s0 p a b (f : unit → prog Loss B) Q : replaces budget a b →
  triple (at_state s0 p b) (f tt) Q (near s0) →
  triple (λ s, at_state s0 p a s ∧ marked b s) (_write io b ≫= f) Q (near s0).
Proof.
  intros Hab Hf. eapply triple_bind with (Q := λ _, at_state s0 p b); [|by intros []]. unfold _write.
  set (P := λ s, at_state s0 p a s ∧ marked b s). assert (HP : stable P) by (apply stable_both; auto).
  assert (HPn : ∀ s, P s → near s0 s) by (intros s [Hs _]; by eapply at_near).
  eapply triple_bind with (Q := λ path s, path = p ∧ P s).
  { eapply triple_post; [by apply (dir_triple s0 _ P)| |done]. intros path s [-> Hs]. split; [|done].
    rewrite (ev_id _ _ (proj1 Hab)). apply (si_path _ _ _ (at_inv _ _ _ _ (proj1 Hs))). }
  intros path. apply triple_pure. intros ->. apply still_then; [done|done|apply still_io|]. intros ?.
  eapply triple_bind with (Q := λ _, at_state s0 p b); [apply triple_modify; intros s [Hs Hm]; by apply (put_at s0 p a b)|]. intros ?.
  eapply triple_post; [apply still_triple; [apply (stable_at s0 p b)|apply still_io]|done|apply at_near].
Qed.
Lemma write_then {B} s0 p a b (f : unit → prog Loss B) Q : advances budget a b →
  triple (at_state s0 p b) (f tt) Q (near s0) → triple (at_state s0 p a) (_write io b ≫= f) Q (near s0).
Proof.
  intros Hab Hf. eapply triple_pre; [|apply write_marked; [exact (proj1 Hab)|exact Hf]].
  intros s Hs. split; [done|]. eapply marked_advances; [exact Hab|by eapply at_marked].
Qed.
Lemma event_then {B} s0 p a trial type payload (f : PlatformEvent → prog Loss B) Q :
  (∀ e, triple (at_state s0 p a) (f e) Q (near s0)) →
  triple (at_state s0 p a) (_event clock utc_now sqlite chmod trial type payload ≫= f) Q (near s0).
Proof. intros Hf. apply still_then; [auto|eauto|apply still_event|exact Hf]. Qed.
Lemma event_logged s0 p a trial type payload :
  triple (at_state s0 p a) (_event clock utc_now sqlite chmod trial type payload)
    (λ e s, at_state s0 p a s ∧ logged trial (str_strip type) (pe_sequence e) s) (near s0).
Proof.
  intros s Hs. pose proof (still_event trial type payload s) as Hm. unfold _event in *. rewrite prog_bind_eq in *. cbn [loss_now] in *.
  unfold on_loss_ledger in *. cbn [lo_ledger loss_ticked] in *.
  match goal with |- context [append _ _ _ _ _ ?t _ (lo_ledger s)] => pose proof (append_effect utc_now sqlite chmod trial type t payload (lo_ledger s)) as He end.
  destruct (append _ _ _ _ _ _ _ (lo_ledger s)) as [l [e|x]]; [|apply at_near with (p := p) (a := a); by eapply at_still].
  split; [by eapply at_still|]. cbv zeta in He. destruct He as (He & Ht & Hty & _). exists e. cbn [lo_ledger]. rewrite He.
  split_and!; [apply elem_of_app; right; by left|done|done|done].
Qed.

(** *** Decisions *)

Definition creates (tool : string) : bool := str_endswith "create_experiment" tool.
(** The call is one of the tool that was taken away; it creates on the alternative executor; it
    is counted as exploration. *)
Definition taken (a : CapabilityLossState) (server tool : string) : bool :=
  String.eqb server (primary_server a) && match cs_case a with D7 => true | D8 => creates tool end.
Definition alternative_creates (a : CapabilityLossState) (server tool : string) : bool :=
  match cs_case a with D7 => false | D8 => String.eqb server (alternative_server a) && creates tool end.
Definition explores (a : CapabilityLossState) (server tool : string) : bool :=
  negb (String.eqb server (primary_server a)) && negb (alternative_creates a server tool).

(** The first observation of D7 through its first server, while the fault is said to run. *)
Definition triggers (a : CapabilityLossState) (server : string) (observation : bool) (window : option FaultRunningWindow) : Prop :=
  cs_case a = D7 ∧ activated_at a = None ∧ server = primary_server a ∧ observation = true ∧ is_Some window.

#[export] Instance triggers_dec a server observation window : Decision (triggers a server observation window).
Proof. unfold triggers. apply _. Defined.

(** The time the call is taken to be made at. *)
Definition decision_time (now : option datetime) (s : Loss) : datetime :=
  match now with Some t => assume_utc t | None => utc_of (clock (lo_ticks s)) end.

(** What the state [a] asks for when a call is made at [t], and the state that is left; the
    limits are of seconds, calls and retries. *)
Record decided (seconds : pyfloat) (calls retries : Z) (t : datetime) (a : CapabilityLossState) (server tool : string)
    (observation essential : bool) (window : option FaultRunningWindow) (epoch : option Z) (d : ToolDecision) (b : CapabilityLossState)
    : Prop := {
  dc_restored : is_Some (restored_at a) → d = permit ∧ b = a;
  dc_idle : restored_at a = None → activated_at a = None → ¬ triggers a server observation window → d = permit ∧ b = a;
  dc_trigger : restored_at a = None → triggers a server observation window → ∀ w, window = Some w → td_allowed d = false ∧
    (dt_lt t (window_started_at w) = Ok true ∧ td_code d = Some "CASE_INVALID" ∧ b = a ∨
     dt_lt t (window_started_at w) = Ok false ∧ td_code d = Some "TOOL_DISABLED" ∧ activated_at b = Some t ∧ primary_tool b = Some tool);
  dc_taken : restored_at a = None → is_Some (activated_at a) → taken a server tool = true →
    td_allowed d = false ∧ b = with_counts a (exploration_calls a) (disabled_retries a + 1) ∧
    td_code d = Some (if retries <? disabled_retries a + 1 then "TOOL_DISABLED_RETRY_LIMIT" else "TOOL_DISABLED");
  dc_spared : restored_at a = None → is_Some (activated_at a) → server = primary_server a → taken a server tool = false →
    d = permit ∧ b = a;
  dc_create : restored_at a = None → is_Some (activated_at a) → taken a server tool = false → alternative_creates a server tool = true →
    td_allowed d = bool_decide (is_Some epoch) && bool_decide (epoch = confirmation_epoch a) ∧ b = a;
  dc_explored : restored_at a = None → ∀ activated, activated_at a = Some activated → explores a server tool = true →
    ∃ elapsed, dt_sub t activated ≫= total_seconds = Ok elapsed ∧
      td_allowed d = essential || negb (fle seconds (fmax f0 elapsed)) && (exploration_calls a <? calls) ∧
      (td_allowed d = false → td_code d = Some "EXPLORATION_BUDGET_EXHAUSTED") ∧
      b = if td_allowed d && negb essential then with_counts a (exploration_calls a + 1) (disabled_retries a) else a }.

#[local] Abbreviation judged := (decided (max_seconds budget) (max_calls budget) (max_disabled_retries budget)).

Lemma disabled_retry_triple s0 p a : is_Some (activated_at a) → restored_at a = None →
  triple (at_state s0 p a) (_disabled_retry io clock utc_now sqlite chmod budget a)
    (λ d s, (td_allowed d = false ∧
       td_code d = Some (if max_disabled_retries budget <? disabled_retries a + 1 then "TOOL_DISABLED_RETRY_LIMIT" else "TOOL_DISABLED")) ∧
       at_state s0 p (with_counts a (exploration_calls a) (disabled_retries a + 1)) s) (near s0).
Proof.
  intros Ha Hr. unfold _disabled_retry. apply write_then with (b := with_counts a (exploration_calls a) (disabled_retries a + 1)).
  { apply advances_counts; [done|done|lia|lia|lia]. }
  apply event_then. intros e. apply triple_ret. intros s Hs. split; [|done]. by destruct (_ <? _).
Qed.

Lemma alternative_create_triple s0 p a epoch :
  triple (at_state s0 p a) (_alternative_create clock utc_now sqlite chmod a epoch)
    (λ d s, td_allowed d = bool_decide (is_Some epoch) && bool_decide (epoch = confirmation_epoch a) ∧ at_state s0 p a s) (near s0).
Proof.
  unfold _alternative_create. destruct (_ || _) eqn:E; apply event_then; intros e; apply triple_ret; intros s Hs; (split; [|done]); cbn.
  - apply orb_true_iff in E as [E%bool_decide_eq_true|E%negb_true_iff]; [|by rewrite E, andb_false_r].
    rewrite E. by destruct epoch.
  - apply orb_false_iff in E as [E%bool_decide_eq_false E2%negb_false_iff]. rewrite E2. apply bool_decide_eq_true in E2 as ->.
    destruct (confirmation_epoch a); [|done]. by rewrite bool_decide_true by eauto.
Qed.

Lemma activation_triple s0 p a tool at_ sequence plan payload : activated_at a = None → activation_ledger_sequence a = None →
  triple (at_state s0 p a) (record_activation io clock utc_now sqlite chmod (with_activation a tool at_ sequence plan) payload)
    (λ b s, (activated_at b = Some at_ ∧ primary_tool b = Some tool) ∧ at_state s0 p b s) (near s0).
Proof.
  intros Ha Hn. unfold record_activation. eapply write_then; [by apply advances_activation|].
  eapply triple_bind; [apply event_logged|]. intros e. cbv zeta.
  eapply triple_pre; [|apply write_marked; [apply replaces_sequence; cbn; [by eexists|done]|]].
  - intros s [Hs Hl]. split; [exact Hs|]. by intros n [= <-].
  - apply triple_ret. intros s Hs. split; [done|exact Hs].
Qed.

Lemma idle_sequence s0 p a s : at_state s0 p a s → activated_at a = None → activation_ledger_sequence a = None.
Proof. intros Hs Ha. by destruct (si_idle _ _ _ (at_inv _ _ _ _ Hs) Ha) as (_ & _ & _ & ? & _). Qed.

Lemma trigger_triple s0 p a server tool window now : activated_at a = None → activation_ledger_sequence a = None →
  triple (at_state s0 p a) (trigger_d7 io clock utc_now sqlite chmod a server tool window now)
    (λ d s, ∃ b, (td_allowed d = false ∧
       (dt_lt now (window_started_at window) = Ok true ∧ td_code d = Some "CASE_INVALID" ∧ b = a ∨
        dt_lt now (window_started_at window) = Ok false ∧ td_code d = Some "TOOL_DISABLED" ∧
          activated_at b = Some now ∧ primary_tool b = Some tool)) ∧ at_state s0 p b s) (near s0).
Proof.
  intros Ha Hn. unfold trigger_d7. apply guard_then; [eauto|]. intros [] Hlt.
  - apply triple_ret. intros s Hs. exists a. split; [|done]. split; [done|by left].
  - apply still_then; [auto|eauto| |].
    { exact (still_operation (SetServer server (Some Disabled) None None (Some "D7 capability_loss") "disturbance")). }
    intros document. eapply triple_bind; [by apply activation_triple|]. intros b. apply triple_pure. intros [Hb1 Hb2].
    apply triple_ret. intros s Hs. exists b. split; [|done]. split; [done|by right].
Qed.

Lemma consume_allowed activated now calls essential decision : consume budget activated now calls essential = Ok decision →
  ∃ elapsed, dt_sub now activated ≫= total_seconds = Ok elapsed ∧
    allowed decision = essential || negb (fle (max_seconds budget) (fmax f0 elapsed)) && (calls <? max_calls budget) ∧
    (essential = false → allowed decision = true → calls < max_calls budget ∧ CapabilityLoss.exploration_calls decision = calls + 1).
Proof.
  unfold consume. intros H. apply bind_Ok_inv in H as (delta & Hd & H). apply bind_Ok_inv in H as (seconds & Hs & [= <-]).
  exists seconds. rewrite Hd. split; [exact Hs|]. rewrite Z.ltb_antisym. destruct essential; [done|]. cbn [orb].
  destruct (fle _ _); [done|]. destruct (max_calls budget <=? calls) eqn:E; [done|]. cbn. split; [done|]. intros _ _. split; [lia|done].
Qed.

Lemma explore_triple s0 p a activated server tool now essential : activated_at a = Some activated → restored_at a = None →
  triple (at_state s0 p a) (explore io clock utc_now sqlite chmod budget a activated server tool now essential)
    (λ d s, ∃ b, (∃ elapsed, dt_sub now activated ≫= total_seconds = Ok elapsed ∧
       td_allowed d = essential || negb (fle (max_seconds budget) (fmax f0 elapsed)) && (exploration_calls a <? max_calls budget) ∧
       (td_allowed d = false → td_code d = Some "EXPLORATION_BUDGET_EXHAUSTED") ∧
       b = if td_allowed d && negb essential then with_counts a (exploration_calls a + 1) (disabled_retries a) else a) ∧
       at_state s0 p b s) (near s0).
Proof.
  intros Ha Hr. unfold explore. apply guard_then; [eauto|]. intros decision Hd. apply consume_allowed in Hd as (elapsed & Ht & He & Hc).
  destruct (negb (allowed decision)) eqn:Eal.
  { apply negb_true_iff in Eal. rewrite Eal in He. apply event_then. intros e. apply triple_ret. intros s Hs. exists a. split; [|done]. by exists elapsed. }
  apply negb_false_iff in Eal. rewrite Eal in He. destruct essential; cbn [negb].
  - apply triple_ret. intros s Hs. exists a. split; [|done]. by exists elapsed.
  - destruct (Hc eq_refl Eal) as [Hlt E].
    apply write_then with (b := with_counts a (CapabilityLoss.exploration_calls decision) (disabled_retries a)).
    { apply advances_counts; [by eexists|done|lia|lia|lia]. }
    cbv zeta. apply event_then. intros e. apply triple_ret. intros s Hs. eexists. split; [|exact Hs].
    exists elapsed. rewrite E. done.
Qed.

(** A decision on an active loss. *)
Lemma after_activation_triple s0 p a server tool now observation essential window epoch :
  restored_at a = None → (is_Some (activated_at a) → cs_case a = D8 → server ≠ primary_server a ∧ alternative_creates a server tool = false) →
  ¬ triggers a server observation window →
  triple (at_state s0 p a) (after_activation io clock utc_now sqlite chmod budget a server tool now essential)
    (λ d s, ∃ b, judged now a server tool observation essential window epoch d b ∧ at_state s0 p b s) (near s0).
Proof.
  intros Hr H8 H7. unfold after_activation. destruct (activated_at a) as [activated|] eqn:Ha.
  - destruct (String.eqb server (primary_server a)) eqn:Es.
    + eapply triple_post; [apply disabled_retry_triple; [by eexists|done]| |done].
      intros d s [[Hd Hcode] Hs]. eexists. split; [|exact Hs].
      assert (cs_case a = D7) as Hc.
      { destruct (cs_case a) eqn:Hc; [done|]. apply String.eqb_eq in Es. destruct (H8 (ex_intro _ _ eq_refl) eq_refl) as [? _]. done. }
      split; unfold taken, explores, alternative_creates; rewrite ?Hr, ?Ha, ?Hc, ?Es; done.
    + eapply triple_post; [by apply explore_triple| |done]. intros d s (b & Hd & Hs). exists b. split; [|exact Hs].
      assert (alternative_creates a server tool = false) as Hac.
      { destruct (cs_case a) eqn:Hc; [unfold alternative_creates; by rewrite Hc|]. by apply H8. }
      split; unfold taken, explores; rewrite ?Hr, ?Ha, ?Hac, ?Es; try done.
      * intros _ _ ->. by rewrite String.eqb_refl in Es.
      * by intros _ ? [= <-] _.
  - apply triple_ret. intros s Hs. exists a. split; [|exact Hs].
    split; rewrite ?Hr, ?Ha; try done; by intros _ [].
Qed.

Lemma current_triple s0 now : triple (λ s, s = s0 ∧ unread s0 s) (current clock now) (λ t s, t = decision_time now s0 ∧ unread s0 s) (near s0).
Proof.
  intros s [-> Hs]. destruct now as [t|]; [done|]. split; [done|]. eapply stable_unread; [exact Hs|apply still_now].
Qed.

Lemma before_tool_call_triple s0 trial server tool observation window now essential epoch :
  triple (λ s, s = s0 ∧ unread s0 s)
    (before_tool_call io clock utc_now sqlite chmod budget trial server tool observation window now essential epoch)
    (λ d s, ∃ a b, lo_states s0 !! path_parts trial = Some a ∧
       judged (decision_time now s0) a server tool observation essential window epoch d b ∧
       at_state s0 (path_parts trial) b s) (near s0).
Proof.
  unfold before_tool_call. eapply triple_bind; [apply current_triple|]. intros t'. apply triple_pure. intros ->.
  set (t := decision_time now s0).
  apply loss_locked_triple; [auto|auto| | |].
  { intros d s s' (a & b & ? & ? & Hs) Hm. exists a, b. split_and!; [done|done|]. by eapply at_still. }
  { intros d s (a & b & _ & _ & Hs). by eapply at_near. }
  apply read_then. intros a Ha0.
  eapply triple_post with (Q' := λ d s, ∃ b, judged t a server tool observation essential window epoch d b ∧ at_state s0 (path_parts trial) b s);
    [|intros d s (b & ? & ?); by exists a, b|done].
  destruct (restored_at a) as [r|] eqn:Hr.
  { apply triple_ret. intros s Hs. exists a. split; [|done]. split; rewrite ?Hr; by try (intros ?). }
  assert (Hact : ¬ triggers a server observation window →
    (is_Some (activated_at a) → cs_case a = D8 → server ≠ primary_server a ∧ alternative_creates a server tool = false) →
    triple (at_state s0 (path_parts trial) a) (after_activation io clock utc_now sqlite chmod budget a server tool t essential)
    (λ d s, ∃ b, judged t a server tool observation essential window epoch d b ∧ at_state s0 (path_parts trial) b s) (near s0)).
  { intros ? ?. by apply after_activation_triple. }
  destruct (cs_case a) eqn:Hc; destruct (activated_at a) as [activated|] eqn:Ha.
  - apply Hact; [|done]. intros (_ & ? & _). congruence.
  - destruct window as [w|]; [|apply Hact; [by intros (_ & _ & _ & _ & [])|done]].
    destruct (String.eqb server (primary_server a) && observation) eqn:E.
    + intros s Hs. pose proof (trigger_triple s0 _ a server tool w t Ha (idle_sequence _ _ _ _ Hs Ha) s Hs) as Ht.
      destruct (trigger_d7 _ _ _ _ _ _ _ _ _ _ s) as [s' [d|e]]; [|done]. destruct Ht as (b & Hd & Hs'). exists b. split; [|done].
      apply andb_true_iff in E as [->%String.eqb_eq ->].
      split; rewrite ?Hr, ?Ha; try done; try (by intros _ []); try (by intros _ _ []).
      by intros _ _ ? [= <-].
    + apply Hact; [|by intros []]. intros (_ & _ & -> & -> & _). by rewrite String.eqb_refl in E.
  - fold (creates tool). destruct (String.eqb server (primary_server a)) eqn:Es; cbn [andb].
    + destruct (creates tool) eqn:Et.
      * eapply triple_post; [apply disabled_retry_triple; [by eexists|done]| |done]. intros d s [[Hd Hcode] Hs]. eexists. split; [|exact Hs].
        split; unfold taken, explores, triggers; rewrite ?Hr, ?Ha, ?Hc, ?Es, ?Et; try done; by intros _ [? _].
      * rewrite andb_false_r. apply triple_ret. intros s Hs. exists a. split; [|done].
        split; unfold taken, explores, alternative_creates, triggers; rewrite ?Hr, ?Ha, ?Hc, ?Es, ?Et, ?andb_false_r; try done; by intros _ [? _].
    + destruct (String.eqb server (alternative_server a) && creates tool) eqn:Ealt.
      * eapply triple_post; [apply alternative_create_triple| |done]. intros d s [Hd Hs]. exists a. split; [|exact Hs].
        split; unfold taken, explores, alternative_creates, triggers; rewrite ?Hr, ?Ha, ?Hc, ?Es, ?Ealt; try done; try (by intros _ [? _]).
        intros _ _ ->. by rewrite String.eqb_refl in Es.
      * apply Hact; [intros (? & _); congruence|]. intros _ _. split; [by intros ->; rewrite String.eqb_refl in Es|].
        unfold alternative_creates. by rewrite Hc.
  - apply Hact; [intros (? & _); congruence|by intros []].
Qed.

(** *** The other calls *)

(** A call that locks the directory of its Trial and reads the state. *)
Lemma on_state_triple {A} s0 trial (body : CapabilityLossState → prog Loss A) (Q : CapabilityLossState → A → Loss → Prop) :
  (∀ a x, stable (Q a x)) → (∀ a x s, Q a x s → near s0 s) →
  (∀ a, lo_states s0 !! path_parts trial = Some a → triple (at_state s0 (path_parts trial) a) (body a) (Q a) (near s0)) →
  triple (unread s0) (_locked io trial (s ← _read io trial; body s))
    (λ x s, ∃ a, lo_states s0 !! path_parts trial = Some a ∧ Q a x s) (near s0).
Proof.
  intros HQ HQn Hb. apply loss_locked_triple; [auto|auto| | |].
  - intros x s s' (a & Ha & Hs) Hm. exists a. split; [done|]. by eapply HQ.
  - intros x s (a & _ & Hs). by eapply HQn.
  - apply read_then. intros a Ha. eapply triple_post; [by apply Hb|by eauto|done].
Qed.

Lemma updated_triple s0 trial update type payload : (∀ a, advances budget a (update a)) →
  triple (unread s0) (updated io clock utc_now sqlite chmod trial update type payload)
    (λ b s, ∃ a, lo_states s0 !! path_parts trial = Some a ∧ b = update a ∧ at_state s0 (path_parts trial) b s) (near s0).
Proof.
  intros Hu. unfold updated. apply (on_state_triple s0 trial _ (λ a b s, b = update a ∧ at_state s0 (path_parts trial) b s)).
  - auto.
  - intros a b s [_ Hs]. by eapply at_near.
  - intros a Ha. cbv zeta. eapply write_then; [apply Hu|]. apply event_then. intros e. by apply triple_ret.
Qed.

Lemma grant_triple s0 trial sequence :
  triple (unread s0) (grant_confirmation io clock utc_now sqlite chmod trial sequence)
    (λ b s, ∃ a, lo_states s0 !! path_parts trial = Some a ∧
       (cs_case a = D8 ∧ is_Some (activated_at a) ∧ is_Some (confirmation_epoch b) ∧ at_state s0 (path_parts trial) b s)) (near s0).
Proof.
  unfold grant_confirmation. apply guard_then; [auto|]. intros _ _.
  apply (on_state_triple s0 trial _ (λ a b s, cs_case a = D8 ∧ is_Some (activated_at a) ∧ is_Some (confirmation_epoch b) ∧
    at_state s0 (path_parts trial) b s)).
  - intros a b. repeat apply stable_and. auto.
  - intros a b s (_ & _ & _ & Hs). by eapply at_near.
  - intros a Ha. apply guard_then; [eauto|]. intros _ [Hc Hact]%require_Ok%andb_true_iff.
    apply bool_decide_eq_true in Hc. apply bool_decide_eq_true in Hact. cbv zeta.
    eapply write_then; [by apply advances_confirmation|]. apply event_then. intros e. apply triple_ret.
    intros s Hs. split_and!; [done|done|by eexists|exact Hs].
Qed.

Lemma after_validate_triple s0 trial server tool ok plan now :
  triple (unread s0) (after_validate_plan io clock utc_now sqlite chmod trial server tool ok plan now)
    (λ b s, ∃ a, lo_states s0 !! path_parts trial = Some a ∧ at_state s0 (path_parts trial) b s) (near s0).
Proof.
  unfold after_validate_plan. apply still_then; [auto|auto|apply still_current|]. intros t.
  apply (on_state_triple s0 trial _ (λ _ b s, at_state s0 (path_parts trial) b s)); [auto|eauto|].
  intros a Ha. destruct (negb (bool_decide (cs_case a = D8)) || _) eqn:E1; [by apply triple_ret|].
  destruct (_ || negb (str_endswith "validate_plan" tool)); [by apply triple_ret|].
  apply orb_false_iff in E1 as [_ Hact%bool_decide_eq_false]. rewrite <- eq_None_not_Some in Hact.
  apply guard_then; [eauto|]. intros create _.
  apply still_then; [auto|eauto| |].
  { exact (still_operation (SetTool server create (Some ToolDisabled) (Some "D8 capability_loss") "disturbance")). }
  intros document s Hs. pose proof (idle_sequence _ _ _ _ Hs Hact) as Hn.
  pose proof (activation_triple s0 _ a tool t (cp_sequence document) (Some (default [] plan))
    [("server", VStr server); ("tool", VStr tool); ("policy_sequence", VInt (cp_sequence document))] Hact Hn s Hs) as Ht.
  destruct (record_activation _ _ _ _ _ _ _ s) as [s' [b|e]]; [by destruct Ht|done].
Qed.

Lemma restore_triple s0 trial now :
  triple (unread s0) (LossOrchestrator.restore io clock utc_now sqlite chmod trial now)
    (λ b s, ∃ a, lo_states s0 !! path_parts trial = Some a ∧ is_Some (restored_at b) ∧ at_state s0 (path_parts trial) b s) (near s0).
Proof.
  unfold LossOrchestrator.restore. apply still_then; [auto|auto|apply still_current|]. intros t.
  apply (on_state_triple s0 trial _ (λ _ b s, is_Some (restored_at b) ∧ at_state s0 (path_parts trial) b s)).
  - intros a b. apply stable_and. auto.
  - intros a b s [_ Hs]. by eapply at_near.
  - intros a Ha. destruct (restored_at a) as [r|] eqn:Hr.
    + apply triple_ret. intros s Hs. split; [by eexists|done].
    + apply still_then; [auto|eauto| |].
      { exact (still_operation (Restore (baseline_policy a) "capability-loss-restore")). }
      intros document. cbv zeta. eapply write_then; [by apply advances_restored|]. apply event_then. intros e.
      apply triple_ret. intros s Hs. split; [by eexists|exact Hs].
Qed.

Lemma state_triple s0 trial :
  triple (unread s0) (state io trial)
    (λ b s, lo_states s0 !! path_parts trial = Some b ∧ at_state s0 (path_parts trial) b s) (near s0).
Proof.
  unfold state. apply loss_locked_triple; [auto|auto| | |].
  - intros b s s' [? Hs] Hm. split; [done|]. by eapply at_still.
  - intros b s [_ Hs]. by eapply at_near.
  - apply loss_read_triple.
Qed.

Lemma state_inv_new trial case variant primary alternative baseline : primary ≠ alternative →
  state_inv budget (path_parts trial) (new_state trial case variant primary alternative baseline).
Proof. intros Hne. split; cbn; try done; try lia. Qed.

Lemma put_new s0 p b s : near s0 s → lo_states s !! p = None → state_inv budget p b ∧ marked b s → at_state s0 p b (put_state p b s).
Proof.
  intros (Hi & Hf & Hg) Hp Hb. unfold at_state, near, loss_inv, put_state. cbn [lo_states lo_ledger].
  rewrite lookup_insert_eq. split; [|done]. split_and!; [by apply map_Forall_insert_2| |done].
  etrans; [exact Hf|]. intros q c Hc. exists c. rewrite lookup_insert_ne; [done|]. by intros ->; simplify_eq.
Qed.

Lemma start_triple s0 trial case variant primary alternative :
  triple (unread s0) (start io clock utc_now sqlite chmod trial case variant primary alternative)
    (λ b s, lo_states s0 !! path_parts trial = None ∧ at_state s0 (path_parts trial) b s) (near s0).
Proof.
  unfold start. apply guard_then; [auto|]. intros _ Hne%require_Ok%negb_true_iff%String.eqb_neq.
  apply still_then; [auto|auto|apply still_snapshot|]. intros baseline. cbv zeta.
  apply guard_then; [auto|]. intros _ _. set (b := new_state _ _ _ _ _ _).
  eapply triple_bind with (Q := λ _ s, lo_states s0 !! path_parts trial = None ∧ at_state s0 (path_parts trial) b s).
  - apply loss_locked_triple; [auto|auto|auto| |].
    { intros ? s [_ Hs]. by eapply at_near. }
    eapply triple_bind with (Q := λ path s, path = path_parts trial ∧ unread s0 s); [apply dir_triple; auto|].
    intros path. apply triple_pure. intros ->.
    eapply triple_bind with (Q := λ states s, states = lo_states s0 ∧ unread s0 s).
    { apply triple_gets. intros s Hs. split; [|done]. by destruct Hs as (_ & -> & _). }
    intros states. apply triple_pure. intros ->. apply guard_then; [auto|].
    intros _ Hn%require_Ok%bool_decide_eq_true. unfold _write.
    eapply triple_bind with (Q := λ path s, path = path_parts trial ∧ unread s0 s); [apply dir_triple; auto|].
    intros path. apply triple_pure. intros ->. apply still_then; [auto|auto|apply still_io|]. intros ?.
    eapply triple_bind with (Q := λ _, at_state s0 (path_parts trial) b).
    { apply triple_modify. intros s Hs. apply put_new; [by apply unread_near| |split; [by apply state_inv_new|done]]. by destruct Hs as (_ & -> & _). }
    intros ?. eapply triple_post; [apply still_triple; [apply (stable_at s0 _ b)|apply still_io]|done|apply at_near].
  - intros ?. apply triple_pure. intros Hn. apply event_then. intros e. by apply triple_ret.
Qed.

(** *** Histories *)

Inductive LossOp :=
  | OpStart (trial : string) (case : CapabilityLossCase) (variant : CapabilityLossVariant) (primary alternative : string)
  | OpState (trial : string)
  | OpBefore (trial server tool : string) (observation : bool) (window : option FaultRunningWindow) (now : option datetime)
      (essential : bool) (epoch : option Z)
  | OpValidated (trial server tool : string) (ok : bool) (plan : option mapping) (now : option datetime)
  | OpHint (trial : string)
  | OpPrecheck (trial : string) (valid : bool) (refs : list string)
  | OpGrant (trial : string) (sequence : Z)
  | OpRestore (trial : string) (now : option datetime).

Definition loss_op (op : LossOp) : prog Loss unit :=
  match op with
  | OpStart trial case variant primary alternative => start io clock utc_now sqlite chmod trial case variant primary alternative ;; mret tt
  | OpState trial => state io trial ;; mret tt
  | OpBefore trial server tool observation window now essential epoch =>
      before_tool_call io clock utc_now sqlite chmod budget trial server tool observation window now essential epoch ;; mret tt
  | OpValidated trial server tool ok plan now =>
      after_validate_plan io clock utc_now sqlite chmod trial server tool ok plan now ;; mret tt
  | OpHint trial => mark_hint_delivered io clock utc_now sqlite chmod trial ;; mret tt
  | OpPrecheck trial valid refs => record_precheck io clock utc_now sqlite chmod trial valid refs ;; mret tt
  | OpGrant trial sequence => grant_confirmation io clock utc_now sqlite chmod trial sequence ;; mret tt
  | OpRestore trial now => LossOrchestrator.restore io clock utc_now sqlite chmod trial now ;; mret tt
  end.

Lemma ending {A} s0 (m : prog Loss A) (Q : A → Loss → Prop) : (∀ a s, Q a s → near s0 s) → loss_inv s0 →
  triple (λ s, s = s0 ∧ unread s0 s) m Q (near s0) → near s0 ((m ;; mret tt) s0).1.
Proof.
  intros HQ Hi Hm. rewrite prog_bind_eq. specialize (Hm s0 (conj eq_refl (conj Hi (reflexivity s0)))).
  destruct (m s0) as [s [a|e]]; [by eapply HQ|done].
Qed.

Lemma reading {A} s0 (m : prog Loss A) (Q : A → Loss → Prop) E : triple (unread s0) m Q E → triple (λ s, s = s0 ∧ unread s0 s) m Q E.
Proof. intros Hm. eapply triple_pre; [|exact Hm]. by intros s []. Qed.

Lemma loss_op_near op s : loss_inv s → near s (loss_op op s).1.
Proof.
  intros Hi. destruct op; cbn [loss_op].
  - eapply ending; [|done|apply reading, start_triple]. intros a s' [_ H]. by eapply at_near.
  - eapply ending; [|done|apply reading, state_triple]. intros a s' [_ H]. by eapply at_near.
  - eapply ending; [|done|apply before_tool_call_triple]. intros d s' (a & b & _ & _ & H). by eapply at_near.
  - eapply ending; [|done|apply reading, after_validate_triple]. intros b s' (a & _ & H). by eapply at_near.
  - eapply ending; [|done|apply reading, updated_triple, advances_hint]. intros b s' (a & _ & _ & H). by eapply at_near.
  - eapply ending; [|done|apply reading, updated_triple]; [|intros a; apply advances_precheck]. intros b s' (a & _ & _ & H). by eapply at_near.
  - eapply ending; [|done|apply reading, grant_triple]. intros b s' (a & _ & _ & _ & _ & H). by eapply at_near.
  - eapply ending; [|done|apply reading, restore_triple]. intros b s' (a & _ & _ & H). by eapply at_near.
Qed.

(** What the calls can make of an empty root, whatever others add to the ledger and make of the
    policy. *)
Inductive loss_reach : Loss → Prop :=
  | loss_new s : lo_states s = ∅ → loss_reach s
  | loss_call op s : loss_reach s → loss_reach (loss_op op s).1
  | loss_others s s' : loss_reach s → still s s' → loss_reach s'.

Lemma loss_reach_inv s : loss_reach s → loss_inv s.
Proof.
  induction 1 as [s E|op s _ IH|s s' _ IH Hs].
  - unfold loss_inv. rewrite E. apply map_Forall_empty.
  - by apply (loss_op_near op s).
  - by eapply inv_still.
Qed.

(** C37: In every state the orchestrator of a lost tool can reach, failing writes, clocks and
    ledgers included, the states of the Trials are well formed: their exploration calls are
    within the budget; the state of a loss that is not active names no tool, plan, policy
    number or event and has no count and no confirmation; only an active D8 has a
    confirmation epoch; the number a state gives to the disturbance is that of such an event
    in the ledger; and every call, whether it returns or raises, only moves the states
    forward: the activation and its plan, and a restoration, are never changed, no count and
    no epoch goes back, no event is lost. This is about the states; the policy is changed
    before them (disabled_before_recorded). *)
Theorem loss_histories op s : loss_reach s →
  map_Forall (λ p a, state_inv budget p a ∧ marked a s) (lo_states s) ∧ forward (lo_states s) (lo_states (loss_op op s).1) ∧
  grown (lo_ledger s) (lo_ledger (loss_op op s).1).
Proof.
  intros Hr%loss_reach_inv. destruct (loss_op_near op s Hr) as (_ & Hf & Hg). done.
Qed.

End orchestrator.

(** ** Steps of the runtime *)

Lemma on_loss_Ok {A} (m : prog Loss A) s s' a : on_loss m s = (s', Ok a) →
  ∃ l, m (lr_loss s) = (l, Ok a) ∧ s' = set_loss l s.
Proof. unfold on_loss. destruct (m (lr_loss s)) as [l r]. intros [= <- ->]. eauto. Qed.

(** [runs] opens every hypothesis that says a statement of the runtime returned. *)
Ltac runs :=
  repeat (run_inv; match goal with
  | H : modify _ _ = (_, Ok _) |- _ => apply modify_Ok in H; subst
  | H : gets _ _ = (_, Ok _) |- _ => apply gets_Ok in H as [H ->]; subst
  | H : on_loss _ _ = (_, Ok _) |- _ => let l := fresh "l" in apply on_loss_Ok in H as (l & H & ->)
  end); run_inv.

Lemma state_still io trial : moves still (state io trial).
Proof.
  unfold state, _locked. pose proof (still_io io). pose proof (still_dir io (λ _, 0)). pose proof (still_read io (λ _, 0)). moves_tac.
Qed.

(** ** The policy *)

Definition same_policy (s s' : Loss) : Prop := lo_policy s' = lo_policy s.
#[export] Instance same_policy_preorder : PreOrder same_policy.
Proof. split; [done|]. intros s1 s2 s3 H1 H2. unfold same_policy in *. congruence. Qed.

Section policy.
Context (io : nat → option exn) (clock : nat → Z) (utc_now : nat → Z) (sqlite chmod : nat → option exn).

Lemma policy_io : moves same_policy (loss_io io).
Proof. done. Qed.
Lemma policy_put path a : moves same_policy (modify (put_state path a)).
Proof. done. Qed.
Lemma policy_ledger {A} (m : prog Ledger A) : moves same_policy (on_loss_ledger m).
Proof. intros s. unfold on_loss_ledger. by destruct (m (lo_ledger s)). Qed.
Lemma policy_now : moves same_policy (loss_now clock).
Proof. done. Qed.
#[local] Hint Resolve policy_io policy_put policy_ledger policy_now : moves.
Lemma policy_dir trial : moves same_policy (_trial_dir io trial).
Proof. unfold _trial_dir. moves_tac. Qed.
#[local] Hint Resolve policy_dir : moves.
Lemma policy_current now : moves same_policy (current clock now).
Proof. unfold current. moves_tac. Qed.
Lemma policy_event trial type payload : moves same_policy (_event clock utc_now sqlite chmod trial type payload).
Proof. unfold _event. moves_tac. Qed.
Lemma policy_read trial : moves same_policy (_read io trial).
Proof. unfold _read. moves_tac. Qed.
Lemma policy_write a : moves same_policy (_write io a).
Proof. unfold _write. moves_tac. Qed.
#[local] Hint Resolve policy_event policy_read policy_write : moves.
Lemma policy_updated trial update type payload : moves same_policy (updated io clock utc_now sqlite chmod trial update type payload).
Proof. unfold updated, _locked. moves_tac. Qed.

Lemma moves_Ok {A} (m : prog Loss A) s s' a : moves same_policy m → m s = (s', Ok a) → lo_policy s' = lo_policy s.
Proof. intros Hm H. specialize (Hm s). by rewrite H in Hm. Qed.

(** A call that reads the state of its Trial under the lock, once it knows the time. *)
Lemma locked_body {A} budget trial now (body : datetime → CapabilityLossState → prog Loss A) s s' a x :
  loss_inv budget s → lo_states s !! path_parts trial = Some a →
  (t ← current clock now; _locked io trial (b ← _read io trial; body t b)) s = (s', Ok x) →
  ∃ t s1 s2, lo_policy s1 = lo_policy s ∧ body t a s1 = (s2, Ok x) ∧ lo_policy s' = lo_policy s2.
Proof.
  intros Hi Ha H. unfold _locked in H.
  apply run_Ok_inv in H as (s1 & t & Ht & H). apply run_Ok_inv in H as (s2 & p & Hd & H). apply run_Ok_inv in H as (s3 & [] & Hio & H).
  apply finally_Ok in H as (s4 & H & Hend). apply run_Ok_inv in H as (s5 & a' & Hread & H).
  assert (Hu : unread budget s s3).
  { split; [done|]. pose proof (still_current clock now s) as H1. rewrite Ht in H1.
    pose proof (still_dir io clock trial s1) as H2. rewrite Hd in H2. pose proof (still_io io s2) as H3. rewrite Hio in H3. by do 2 (etrans; [eassumption|]). }
  pose proof (loss_read_triple io clock budget s trial s3 Hu) as Htr. rewrite Hread in Htr. destruct Htr as [Ha' _].
  rewrite Ha in Ha'. injection Ha' as <-. exists t, s5, s4.
  rewrite (moves_Ok _ _ _ _ policy_io Hend), (moves_Ok _ _ _ _ (policy_read trial) Hread), (moves_Ok _ _ _ _ policy_io Hio),
    (moves_Ok _ _ _ _ (policy_dir trial) Hd), (moves_Ok _ _ _ _ (policy_current now) Ht). done.
Qed.

(** What a call of the registry that returned made of the policy. *)
Lemma registry_follows op s s' d : on_registry (registry_op io clock utc_now sqlite chmod op) s = (s', Ok d) →
  lo_policy s' = Some d ∧ follows op (lo_policy s) d.
Proof.
  unfold on_registry. intros H.
  pose proof (registry_op_triple io clock utc_now sqlite chmod op (lo_policy s) (Some (lo_ledger s))
    {| r_file := lo_policy s; r_ledger := Some (lo_ledger s); r_ticks := lo_ticks s |} (conj eq_refl eq_refl)) as Hop.
  destruct (registry_op _ _ _ _ _ _ _) as [g r]. injection H as <- ->. destruct Hop as (? & ? & _). done.
Qed.

(** A restoration that returns leaves the servers of the snapshot that was taken at the start. *)
Lemma restore_servers budget trial now s s' a b : loss_inv budget s → lo_states s !! path_parts trial = Some a →
  restored_at a = None → LossOrchestrator.restore io clock utc_now sqlite chmod trial now s = (s', Ok b) →
  ∃ d, lo_policy s' = Some d ∧ cp_servers d = cp_servers (baseline_policy a).
Proof.
  intros Hi Ha Hr H. unfold LossOrchestrator.restore in H. apply (locked_body budget _ _ _ _ _ a) in H as (t & s1 & s2 & P1 & H & ->); [|done|done].
  rewrite Hr in H. apply run_Ok_inv in H as (s3 & d & Hreg & H).
  apply (registry_follows (Restore (baseline_policy a) "capability-loss-restore")) in Hreg as [Hd (_ & current & _ & _ & _ & Hs)].
  exists d. split; [|done]. cbv zeta in H. rewrite <- Hd. eapply moves_Ok; [|exact H]. moves_tac.
Qed.

(** The server, and only that one, is disabled. *)
Definition withdrawn (server : string) (p q : option CapabilityPolicyDocument) : Prop :=
  ∃ before after, p = Some before ∧ q = Some after ∧ cp_sequence after = cp_sequence before + 1 ∧
    sp_state <$> server_policy after server = Some Disabled ∧
    ∀ other, other ≠ server → server_policy after other = server_policy before other.
(** The policy after a decision. *)
Definition policy_after (a : CapabilityLossState) (server : string) (observation : bool) (window : option FaultRunningWindow)
    (d : ToolDecision) (p q : option CapabilityPolicyDocument) : Prop :=
  (q = p ∨ restored_at a = None ∧ triggers a server observation window ∧ withdrawn server p q) ∧
  (restored_at a = None → triggers a server observation window → td_code d = Some "TOOL_DISABLED" → withdrawn server p q).

Lemma trigger_policy a server tool window t s s' d :
  trigger_d7 io clock utc_now sqlite chmod a server tool window t s = (s', Ok d) →
  lo_policy s' = lo_policy s ∧ td_code d = Some "CASE_INVALID" ∨ withdrawn server (lo_policy s) (lo_policy s').
Proof.
  unfold trigger_d7. intros H. apply run_Ok_inv in H as (s1 & future & [_ ->]%lift_Ok_inv & H). destruct future.
  - apply ret_Ok_inv in H as [-> ->]. by left.
  - right. apply run_Ok_inv in H as (s1 & after & Hreg & H).
    apply (registry_follows (SetServer server (Some Disabled) None None (Some "D7 capability_loss") "disturbance")) in Hreg
      as [Hafter (_ & before & Hbefore & _ & Hq & Hs)].
    exists before, after. rewrite <- Hafter. split; [done|].
    split; [eapply moves_Ok; [|exact H]; unfold record_activation; moves_tac|]. split; [done|].
    unfold server_policy. rewrite Hs. cbn [servers_after]. rewrite dget_dset_eq. split; [done|].
    intros other Hne. by rewrite dget_dset_ne.
Qed.

Lemma decision_policy budget trial server tool observation window now essential epoch s s' d a :
  loss_inv budget s → lo_states s !! path_parts trial = Some a →
  before_tool_call io clock utc_now sqlite chmod budget trial server tool observation window now essential epoch s = (s', Ok d) →
  policy_after a server observation window d (lo_policy s) (lo_policy s').
Proof.
  intros Hi Ha H. apply (locked_body budget _ _ _ _ _ a) in H as (t & s1 & s2 & P1 & H & ->); [|done|done].
  assert (Hafter : moves same_policy (after_activation io clock utc_now sqlite chmod budget a server tool t essential)).
  { unfold after_activation, _disabled_retry, explore. moves_tac. }
  assert (Hretry : moves same_policy (_disabled_retry io clock utc_now sqlite chmod budget a)) by (unfold _disabled_retry; moves_tac).
  assert (Hcreate : moves same_policy (_alternative_create clock utc_now sqlite chmod a epoch)) by (unfold _alternative_create; moves_tac).
  rewrite <- P1.
  destruct (decide (restored_at a = None ∧ triggers a server observation window)) as [[Hr Ht]|Hno].
  - pose proof Ht as (Hc & Hact & -> & -> & [w ->]). rewrite Hr, Hc, Hact, String.eqb_refl in H. cbn [andb] in H.
    apply trigger_policy in H as [[-> Hcode]|Hw]; (split; [auto|]); intros _ _ Hd; [congruence|done].
  - assert (lo_policy s2 = lo_policy s1) as ->; [|split; [by left|intros; tauto]].
    eapply moves_Ok; [|exact H]. destruct (restored_at a) eqn:Hr; [moves_tac|].
    destruct (cs_case a) eqn:Hc, (activated_at a) eqn:Hact; try exact Hafter; [|by moves_tac].
    destruct window as [w|]; [|exact Hafter]. destruct (String.eqb server (primary_server a) && observation) eqn:E; [|exact Hafter].
    exfalso. apply Hno. apply andb_true_iff in E as [->%String.eqb_eq ->]. by repeat split.
Qed.

End policy.

Section runtime.
Context (io : nat → option exn) (clock : nat → Z) (utc_now : nat → Z) (sqlite chmod : nat → option exn).
Context (trial_id : string) (case : CapabilityLossCase) (variant : CapabilityLossVariant) (target_uid : string).
Context (oracle_target_uid : nat → result (option string)) (oracle_fault_window : nat → result (option FaultRunningWindow)).
Context (d7_precheck : option (nat → string → string → string → result PrecheckResult)).
Context (d8_precheck : option (nat → string → result PrecheckResult)).
(** The file system's errors are not a dict's. *)
Context (io_errors : ∀ n e, io n = Some e → exn_class e ≠ KeyError).

#[local] Abbreviation path := (path_parts trial_id).
Definition not_key (e : exn) : Prop := exn_class e ≠ KeyError.

Lemma raises_io (I : Loss → Prop) : (∀ s, I s → I (loss_ticked s)) → raises not_key I (loss_io io).
Proof.
  intros HI s Hs. unfold loss_io. destruct (io (lo_ticks s)) eqn:E; [|by apply HI].
  split; [by apply HI|by apply (io_errors _ _ E)].
Qed.
Lemma raises_dir (I : Loss → Prop) trial : (∀ s, I s → I (loss_ticked s)) → raises not_key I (_trial_dir io trial).
Proof.
  intros HI. unfold _trial_dir, require.
  apply raises_bind; [apply raises_lift; by destruct (_ && _); intros ? [= <-]|]. intros ?.
  apply raises_bind; [apply raises_lift; by destruct (negb _); intros ? [= <-]|]. intros ?.
  apply raises_bind; [by apply raises_io|]. by intros ? s Hs.
Qed.

(** A state that is there is read, or an error of the file is raised. *)
Lemma state_raises a : raises not_key (λ s, lo_states s !! path = Some a) (state io trial_id).
Proof.
  unfold state, _locked. apply raises_bind; [by apply raises_dir|]. intros ?. apply raises_bind; [by apply raises_io|]. intros ?.
  apply raises_finally; [|by apply raises_io]. unfold _read.
  intros s Hs. rewrite prog_bind_eq. pose proof (raises_dir (λ s, lo_states s !! path = Some a) trial_id (λ _ H, H) s Hs) as Hd.
  destruct (_trial_dir io trial_id s) as [s1 [p|e]] eqn:E; [|done]. unfold _trial_dir in E. run_inv.
  unfold gets. rewrite prog_bind_eq. rewrite prog_bind_eq. unfold lift at 1. rewrite Hd. cbn [opt_or_raise].
  assert (Hrest : raises not_key (λ s, lo_states s !! path = Some a) (loss_io io ;; lift (validation (state_ok a)) ;; mret a)).
  { apply raises_bind; [by apply raises_io|]. intros ?. apply raises_bind; [|by intros ? ? ?].
    apply raises_lift. unfold validation, require. destruct (state_ok a); by intros ? [= <-]. }
  exact (Hrest _ Hd).
Qed.

Lemma safe_state_Some s s' a : loss_inv default_budget (lr_loss s) → _safe_state io trial_id s = (s', Ok (Some a)) →
  lo_states (lr_loss s) !! path = Some a ∧ ∃ l, s' = set_loss l s ∧ still (lr_loss s) l.
Proof.
  intros Hi H. unfold _safe_state in H. apply catch_Ok in H as [H|(s1 & e & H & He)].
  - runs. pose proof (state_triple io clock default_budget (lr_loss s) trial_id (lr_loss s) (conj Hi (reflexivity _))) as Ht.
    match goal with H : state _ _ _ = _ |- _ => pose proof (state_still io trial_id (lr_loss s)) as Hs; rewrite H in Ht, Hs end.
    destruct Ht as [Ht _]. simplify_eq. eauto.
  - by destruct (bool_decide _).
Qed.
Lemma safe_state_Ok s s' a armed : loss_inv default_budget (lr_loss s) → lo_states (lr_loss s) !! path = Some a →
  _safe_state io trial_id s = (s', Ok armed) →
  armed = Some a ∧ ∃ l, s' = set_loss l s ∧ still (lr_loss s) l.
Proof.
  intros Hi Ha H. destruct armed as [b|].
  { apply safe_state_Some in H as [H ?]; [|done]. by simplify_eq. }
  exfalso. unfold _safe_state in H. apply catch_Ok in H as [H|(s1 & e & H & He)]; [by runs|].
  rewrite prog_bind_eq in H. unfold on_loss in H. pose proof (state_raises a (lr_loss s) Ha) as Hr.
  destruct (state io trial_id (lr_loss s)) as [l [b|x]]; [done|]. injection H as <- <-. destruct Hr as [_ Hr].
  rewrite bool_decide_false in He by done. done.
Qed.

(** *** Histories of the runtime *)

#[local] Abbreviation reached := (loss_reach io clock utc_now sqlite chmod default_budget).
Definition lawful (s s' : LossRuntime) : Prop := reached (lr_loss s) → reached (lr_loss s').
#[local] Instance lawful_preorder : PreOrder lawful.
Proof. split; [by intros s H|]. intros s1 s2 s3 H1 H2 H. by apply H2, H1. Qed.

Lemma lawful_modify f : (∀ s, lr_loss (f s) = lr_loss s) → moves lawful (modify f).
Proof. intros E s. unfold lawful. cbn. by rewrite E. Qed.
Lemma lawful_ask {A} (answer : nat → result A) : moves lawful (ask answer).
Proof. by intros s H. Qed.
Lemma lawful_still {A} (m : prog Loss A) : moves still m → moves lawful (on_loss m).
Proof.
  intros Hm s Hs. unfold on_loss. specialize (Hm (lr_loss s)). destruct (m (lr_loss s)) as [l r]. by eapply loss_others.
Qed.
Lemma lawful_op {A} op (m : prog Loss A) : loss_op io clock utc_now sqlite chmod default_budget op = (m ;; mret tt) → moves lawful (on_loss m).
Proof.
  intros E s Hs. unfold on_loss. pose proof (loss_call _ _ _ _ _ _ op (lr_loss s) Hs) as Hr. rewrite E, prog_bind_eq in Hr.
  by destruct (m (lr_loss s)) as [l [a|e]].
Qed.
Lemma lawful_append type at_ payload : moves lawful (lr_append utc_now sqlite chmod trial_id type at_ payload).
Proof. unfold lr_append. moves_tac. apply lawful_still, still_ledger, append_grown. Qed.
Lemma lawful_events : moves lawful (ledger_events sqlite trial_id).
Proof. apply lawful_still, still_ledger, looks_grown, looks_query. Qed.
Lemma lawful_before trial server tool observation window now essential epoch : moves lawful
  (on_loss (before_tool_call io clock utc_now sqlite chmod default_budget trial server tool observation window now essential epoch)).
Proof. by apply (lawful_op (OpBefore trial server tool observation window now essential epoch)). Qed.
Lemma lawful_start trial c v primary alternative : moves lawful (on_loss (start io clock utc_now sqlite chmod trial c v primary alternative)).
Proof. by apply (lawful_op (OpStart trial c v primary alternative)). Qed.
Lemma lawful_precheck trial valid refs : moves lawful (on_loss (record_precheck io clock utc_now sqlite chmod trial valid refs)).
Proof. by apply (lawful_op (OpPrecheck trial valid refs)). Qed.
Lemma lawful_hint trial : moves lawful (on_loss (mark_hint_delivered io clock utc_now sqlite chmod trial)).
Proof. by apply (lawful_op (OpHint trial)). Qed.
Lemma lawful_grant trial sequence : moves lawful (on_loss (grant_confirmation io clock utc_now sqlite chmod trial sequence)).
Proof. by apply (lawful_op (OpGrant trial sequence)). Qed.
Lemma lawful_validated trial server tool ok plan now : moves lawful
  (on_loss (after_validate_plan io clock utc_now sqlite chmod trial server tool ok plan now)).
Proof. by apply (lawful_op (OpValidated trial server tool ok plan now)). Qed.
Lemma lawful_restore trial now : moves lawful (on_loss (LossOrchestrator.restore io clock utc_now sqlite chmod trial now)).
Proof. by apply (lawful_op (OpRestore trial now)). Qed.
#[local] Hint Resolve lawful_ask lawful_append lawful_events lawful_before lawful_start lawful_precheck lawful_hint
  lawful_grant lawful_validated lawful_restore : moves.
#[local] Hint Extern 1 (moves lawful (modify _)) => by apply lawful_modify : moves.
#[local] Hint Extern 1 (moves lawful (on_loss (loss_now _))) => apply lawful_still, still_now : moves.
Lemma lawful_safe_state : moves lawful (_safe_state io trial_id).
Proof.
  unfold _safe_state. apply (moves_catch lawful); [|intros e; moves_tac].
  apply (moves_bind lawful); [by apply (lawful_op (OpState trial_id))|]. intros a. moves_tac.
Qed.
#[local] Hint Resolve lawful_safe_state : moves.
Lemma lawful_decide_d7 call server tool :
  moves lawful (decide_d7 io clock utc_now sqlite chmod trial_id oracle_fault_window call server tool).
Proof. unfold decide_d7, observe_decision. moves_tac. Qed.
Lemma lawful_arm_d7 server window :
  moves lawful (arm_d7 io clock utc_now sqlite chmod trial_id case variant oracle_target_uid d7_precheck server window).
Proof. unfold arm_d7, fail_case. moves_tac. Qed.
Lemma lawful_epoch a actual : moves lawful (_platform_confirmation_epoch io clock utc_now sqlite chmod trial_id a actual).
Proof. unfold _platform_confirmation_epoch. moves_tac. Qed.
#[local] Hint Resolve lawful_decide_d7 lawful_arm_d7 lawful_epoch : moves.

Lemma lawful_before_d7 call server tool : moves lawful (_before_d7 io clock utc_now sqlite chmod trial_id case variant
  oracle_target_uid oracle_fault_window d7_precheck call server tool).
Proof. unfold _before_d7. moves_tac. Qed.
Lemma lawful_refuse call : moves lawful (refuse_create utc_now sqlite chmod trial_id call).
Proof. unfold refuse_create. moves_tac. Qed.
#[local] Hint Resolve lawful_refuse : moves.
Lemma lawful_before_d8 call server tool : moves lawful (_before_d8 io clock utc_now sqlite chmod trial_id call server tool).
Proof. unfold _before_d8, create_alternative, observe_decision. moves_tac. Qed.
#[local] Hint Resolve lawful_before_d7 lawful_before_d8 : moves.
Lemma lawful_before_rules call : moves lawful
  (_before_call io clock utc_now sqlite chmod trial_id case variant oracle_target_uid oracle_fault_window d7_precheck call).
Proof.
  unfold _before_call. apply (moves_bind lawful); [moves_tac|intros ?]. destruct (_server_tool _) as [server tool].
  destruct (_is_essential server tool); [moves_tac|]. apply (moves_bind lawful); [moves_tac|intros [reason|]]; [moves_tac|].
  pose proof (lawful_before_d7 call server tool). pose proof (lawful_before_d8 call server tool). by destruct case.
Qed.
#[local] Hint Resolve lawful_before_rules : moves.
Lemma lawful_before_call call : moves lawful
  (before_call io clock utc_now sqlite chmod trial_id case variant oracle_target_uid oracle_fault_window d7_precheck call).
Proof.
  unfold before_call. moves_tac.
Qed.
Lemma lawful_arm_d8 call server tool : moves lawful (arm_d8 io clock utc_now sqlite chmod trial_id case variant d8_precheck call server tool).
Proof. unfold arm_d8. moves_tac. Qed.
#[local] Hint Resolve lawful_arm_d8 : moves.
Lemma lawful_after_result call r : moves lawful (after_result io clock utc_now sqlite chmod trial_id case variant d8_precheck call r).
Proof.
  unfold after_result. apply (moves_bind lawful); [moves_tac|intros ?]. destruct (_server_tool _) as [server tool].
  pose proof (lawful_arm_d8 call server tool). destruct case; moves_tac.
Qed.
Lemma lawful_finish oracle finalizer assessment : moves lawful
  (finish io clock utc_now sqlite chmod trial_id case variant oracle finalizer assessment).
Proof. unfold finish, restore_policy, _elapsed. moves_tac. Qed.

(** What the calls of a Trial can make of its runtime, whatever other processes do. *)
Inductive runtime_reach : LossRuntime → Prop :=
  | runtime_new loss : reached loss → runtime_reach (new_runtime target_uid loss)
  | runtime_call call s : runtime_reach s → runtime_reach
      (before_call io clock utc_now sqlite chmod trial_id case variant oracle_target_uid oracle_fault_window d7_precheck call s).1
  | runtime_result call r s : runtime_reach s → runtime_reach
      (after_result io clock utc_now sqlite chmod trial_id case variant d8_precheck call r s).1
  | runtime_finish oracle finalizer assessment s : runtime_reach s → runtime_reach
      (finish io clock utc_now sqlite chmod trial_id case variant oracle finalizer assessment s).1
  | runtime_others l s : runtime_reach s → still (lr_loss s) l → runtime_reach (set_loss l s).

Lemma runtime_reached s : runtime_reach s → reached (lr_loss s).
Proof.
  induction 1 as [loss H|call s _ IH|call r s _ IH|oracle finalizer assessment s _ IH|l s _ IH Hl].
  - done.
  - by apply (lawful_before_call call s).
  - by apply (lawful_after_result call r s).
  - by apply (lawful_finish oracle finalizer assessment s).
  - by eapply loss_others.
Qed.

(** The event that confirms a creation. *)
Record confirmation (a : CapabilityLossState) (actual : mapping) (e : PlatformEvent) : Prop := {
  cf_trial : pe_trial e = str_strip trial_id;
  cf_granted : pe_type e = "CONFIRM_GRANTED";
  cf_after : ∀ n, activation_ledger_sequence a = Some n → n < pe_sequence e;
  cf_plan : ∃ approved, vget (pe_payload e) "approved_plan" = VDict approved ∧
    _same_plan (default [] (validated_plan a)) approved = true ∧ _same_plan (default [] (validated_plan a)) actual = true }.

Lemma confirms_confirmation a actual e : pe_trial e = str_strip trial_id → confirms a actual e = true → confirmation a actual e.
Proof.
  intros Ht Hc. unfold confirms in Hc. rewrite !andb_true_iff in Hc. destruct Hc as [[Htype%bool_decide_eq_true Hseq%Z.ltb_lt] Hp].
  destruct (vget (pe_payload e) "approved_plan") as [| | | | | |approved] eqn:Ev; try done.
  apply andb_true_iff in Hp as [H1 H2]. split; [done|done| |by exists approved].
  intros n Hn. by rewrite Hn in Hseq.
Qed.

Lemma ledger_events_Ok s s' found : ledger_events sqlite trial_id s = (s', Ok found) →
  ∃ l, s' = set_loss l s ∧ still (lr_loss s) l ∧ same_policy (lr_loss s) l ∧
    ∀ e, e ∈ found → e ∈ events (ld_db (lo_ledger (lr_loss s))) ∧ pe_trial e = str_strip trial_id.
Proof.
  unfold ledger_events. intros H. runs. exists l. split; [done|]. unfold on_loss_ledger in H.
  pose proof (looks_query sqlite 0 10000 (Some trial_id) (lo_ledger (lr_loss s))) as Hl.
  destruct (query _ _ _ _ _) as [l' r] eqn:Eq. injection H as <- ->. split; [|split; [done|by eapply query_found]].
  split; [done|]. exists []. by rewrite app_nil_r, <- Hl.
Qed.

Lemma epoch_Ok s s' a actual epoch : loss_inv default_budget (lr_loss s) → lo_states (lr_loss s) !! path = Some a →
  _platform_confirmation_epoch io clock utc_now sqlite chmod trial_id a actual s = (s', Ok (Some epoch)) →
  ∃ l, s' = set_loss l s ∧ near default_budget (lr_loss s) l ∧ is_Some (activated_at a) ∧
    ∃ e, e ∈ events (ld_db (lo_ledger l)) ∧ confirmation a actual e.
Proof.
  intros Hi Ha H. unfold _platform_confirmation_epoch in H. apply run_Ok_inv in H as (s1 & evs & Hev & H).
  apply ledger_events_Ok in Hev as (l & -> & Hl & _ & Hevs).
  destruct (List.filter (confirms a actual) evs) as [|e rest] eqn:Ef; [done|].
  assert (e ∈ evs ∧ confirms a actual e = true) as [He Hc].
  { rewrite list_elem_of_In, <- filter_In, Ef. by left. }
  destruct (Hevs e He) as [Hin Htrial]. pose proof (confirms_confirmation a actual e Htrial Hc) as Hconf.
  assert (Hpre : ∀ l', grown (lo_ledger l) (lo_ledger l') → e ∈ events (ld_db (lo_ledger l'))).
  { intros l' [n Hg]. destruct Hl as [_ [n0 Hg0]]. rewrite Hg, Hg0. rewrite !elem_of_app. auto. }
  pose proof (proj1 (map_Forall_lookup_1 _ _ _ _ Hi Ha)) as Hinv.
  destruct (bool_decide (confirmation_sequence a = Some (pe_sequence e))) eqn:Es.
  - runs. apply bool_decide_eq_true in Es. exists l. split; [done|]. split; [by eapply near_still|].
    split; [|exists e; split; [apply Hpre; reflexivity|done]].
    destruct (activated_at a) eqn:Eact; [by eexists|]. destruct (si_idle _ _ _ Hinv Eact) as (_ & _ & _ & _ & Hn & _).
    destruct (si_confirmation _ _ _ Hinv) as [x Hx]; [by eexists|congruence].
  - runs. rename l0 into l1.
    match goal with H : grant_confirmation _ _ _ _ _ _ _ _ = _ |- _ => rename H into Hg end.
    assert (Hn : near default_budget (lr_loss s) l) by (by eapply near_still).
    assert (Hi1 : loss_inv default_budget l) by apply Hn.
    pose proof (grant_triple io clock utc_now sqlite chmod default_budget l trial_id (pe_sequence e) l (conj Hi1 (reflexivity _))) as Ht.
    cbn [lr_loss set_loss] in Hg. rewrite Hg in Ht. destruct Ht as (a' & Ha' & _ & Hact & _ & Hn1 & _).
    destruct Hl as [El Gl]. rewrite El in Ha'. simplify_eq.
    exists l1. split; [done|]. split.
    + destruct Hn1 as (? & Hf & Hg1). split_and!; [done| |].
      * by rewrite El in Hf.
      * by etrans.
    + split; [done|]. exists e. split; [|done]. apply Hpre, Hn1.
Qed.


Lemma elapsed_Ok s s' armed x : _elapsed clock armed s = (s', Ok x) → ∃ l, s' = set_loss l s ∧ still (lr_loss s) l ∧ same_policy (lr_loss s) l.
Proof.
  unfold _elapsed. intros H.
  assert (Hself : ∃ l, s = set_loss l s ∧ still (lr_loss s) l ∧ same_policy (lr_loss s) l).
  { exists (lr_loss s). split; [by destruct s|]. done. }
  destruct armed as [a|]; [|by runs]. destruct (activated_at a); [|by runs]. runs.
  match goal with H : loss_now _ _ = _ |- _ => injection H as <- _ end. by eexists.
Qed.

Lemma restore_policy_true s s' armed restored : loss_inv default_budget (lr_loss s) →
  restore_policy io clock utc_now sqlite chmod trial_id armed s = (s', Ok (true, restored)) →
  ∃ a b l, armed = Some a ∧ restored = Some b ∧ s' = set_loss l s ∧ is_Some (restored_at b) ∧ lo_states l !! path = Some b ∧
    near default_budget (lr_loss s) l ∧
    (lo_states (lr_loss s) !! path = Some a → restored_at a = None →
     ∃ d, lo_policy l = Some d ∧ cp_servers d = cp_servers (baseline_policy a)).
Proof.
  intros Hi H. unfold restore_policy in H. destruct armed as [a|]; [|by runs].
  apply catch_Ok in H as [H|(s1 & e & _ & H)]; [|by runs].
  apply run_Ok_inv in H as (s1 & b & Hr & [H ->]%ret_Ok_inv). apply on_loss_Ok in Hr as (l & Hr & ->). injection H as _ ->.
  pose proof (restore_triple io clock utc_now sqlite chmod default_budget (lr_loss s) trial_id None (lr_loss s) (conj Hi (reflexivity _))) as Ht.
  rewrite Hr in Ht. destruct Ht as (a' & _ & Hres & Hn & Hb). exists a, b, l. split_and!; try done.
  intros Ha Hra. by eapply restore_servers.
Qed.

(** C40: When a Trial ends and its facts count as valid, the loss was armed with a valid
    precheck and is restored: its state says so, and unless it was restored before the tool
    policy is left with exactly the servers it had when the loss was armed. *)
Theorem valid_facts_restored oracle finalizer assessment s s' f :
  runtime_reach s →
  finish io clock utc_now sqlite chmod trial_id case variant oracle finalizer assessment s = (s', Ok f) →
  trial_valid (fin_facts f) = true →
  ∃ a b, lo_states (lr_loss s) !! path = Some a ∧ lo_states (lr_loss s') !! path = Some b ∧ fin_restored f = true ∧
    is_Some (restored_at b) ∧ precheck_valid b = Some true ∧
    (restored_at a = None → ∃ d, lo_policy (lr_loss s') = Some d ∧ cp_servers d = cp_servers (baseline_policy a)).
Proof.
  intros Hi%runtime_reached%loss_reach_inv H Hv. unfold finish in H.
  apply run_Ok_inv in H as (s1 & armed & Hsafe & H). apply run_Ok_inv in H as (s2 & [ok restored] & Hrest & H). cbv zeta beta iota in H.
  apply run_Ok_inv in H as (s3 & evs & Hevs & H). apply run_Ok_inv in H as (s4 & [] & Hhint & H).
  apply run_Ok_inv in H as (s5 & refs & [_ ->]%lift_Ok_inv & H). apply run_Ok_inv in H as (s6 & x & Hx & H).
  apply run_Ok_inv in H as (s7 & r & [-> ->]%gets_Ok & H). apply run_Ok_inv in H as (s8 & [] & [_ ->]%lift_Ok_inv & H).
  apply run_Ok_inv in H as (s9 & score & [_ ->]%lift_Ok_inv & [-> ->]%ret_Ok_inv). cbn [fin_facts fin_restored] in *.
  cbn [build_facts trial_valid] in Hv. rewrite !andb_true_iff in Hv. destruct Hv as [[_ Hpre%bool_decide_eq_true] ->].
  apply restore_policy_true in Hrest as (a & b & l2 & -> & -> & -> & Hres & Hb & Hn & Hpol); [|].
  2:{ destruct armed as [a|]; [|by unfold restore_policy in Hrest; runs].
      apply safe_state_Some in Hsafe as (_ & l & -> & Hl); [|done]. exact (proj1 (near_still _ _ _ l (near_self _ _ Hi) Hl)). }
  apply safe_state_Some in Hsafe as (Ha & l1 & -> & [El Gl]); [|done]. cbn [lr_loss set_loss] in Hn, Hpol. rewrite El in Hpol.
  apply ledger_events_Ok in Hevs as (l3 & -> & [E3 G3] & P3 & _). cbn [lr_loss set_loss] in E3, P3.
  assert (Hmark : ∃ l4 c, lr_loss s4 = l4 ∧ lo_states l4 !! path = Some c ∧ restored_at c = restored_at b ∧ precheck_valid c = precheck_valid b ∧
    lo_policy l4 = lo_policy l2).
  { destruct (when_Ok_inv _ _ _ _ _ Hhint) as [[_ Hm]|[_ ->]].
    - apply run_Ok_inv in Hm as (s10 & c & Hm & [_ ->]%ret_Ok_inv). apply on_loss_Ok in Hm as (l4 & Hm & ->). cbn [lr_loss set_loss] in Hm |- *.
      assert (Hi3 : loss_inv default_budget l3) by (eapply inv_still; [apply Hn|by split]).
      pose proof (updated_triple io clock utc_now sqlite chmod default_budget l3 trial_id with_hint "CAPABILITY_HINT_DELIVERED"
        (λ s, [("variant", VStr (variant_value (cs_variant s)))]) (λ a, advances_hint _ a) l3 (conj Hi3 (reflexivity _))) as Ht.
      unfold mark_hint_delivered in Hm. rewrite Hm in Ht. destruct Ht as (b' & Hb' & -> & _ & Hc). rewrite E3, Hb in Hb'. injection Hb' as <-.
      exists l4, (with_hint b). rewrite (moves_Ok _ _ _ _ (policy_updated io clock utc_now sqlite chmod _ _ _ _) Hm). by rewrite P3.
    - exists l3, b. cbn. rewrite E3, P3. done. }
  destruct Hmark as (l4 & c & E4 & Hc & Rc & Pc & Pol4). apply elapsed_Ok in Hx as (l5 & -> & [E5 _] & P5). rewrite E4 in E5, P5.
  exists a, c. cbn [lr_loss set_loss]. rewrite E5, Rc, Pc. unfold same_policy in P5. rewrite P5, Pol4. split_and!; try done. by apply Hpol.
Qed.
End runtime.

(** ** A Trial of D8 *)

Definition demo_policy : CapabilityPolicyDocument := {|
  cp_trial_id := "trial-1"; cp_sequence := 1; cp_source := "profile"; cp_since := utc_of 0;
  cp_servers := [("chaos_control", new_server "chaos_control"); ("chaos_mesh_control", new_server "chaos_mesh_control")] |}.
Definition demo_loss : Loss := {|
  lo_states := ∅; lo_policy := Some demo_policy; lo_ledger := {| ld_db := empty_ledger; ld_ticks := 0 |}; lo_ticks := 0 |}.
Definition demo_plan : mapping :=
  [("namespace", VStr "shop"); ("target_name", VStr "cart"); ("target_uid", VStr "uid-1"); ("fault_type", VStr "pod_kill");
   ("duration_seconds", VInt 60); ("intensity", VInt 50)].
Definition demo_call (id tool : string) (arguments : mapping) : ToolCall :=
  {| call_id := id; call_tool := tool; call_arguments := arguments; call_occurred_at := utc_of 1000000 |}.
Definition no_failure (n : nat) : option exn := None.
Definition demo_canary (n : nat) (server : string) : result PrecheckResult :=
  Ok {| CapabilityLoss.precheck_valid := true; precheck_reason := None; record_refs := ["canary-1"] |}.

Section demo.
(** Whether an answer of the data base fails. *)
Context (sqlite : nat → option exn).
#[local] Abbreviation calls := (before_call no_failure (λ _, 0) (λ _, 0) sqlite no_failure "trial-1" D8 VariantA (λ _, Ok None) (λ _, Ok None) None).
#[local] Abbreviation results := (after_result no_failure (λ _, 0) (λ _, 0) sqlite no_failure "trial-1" D8 VariantA (Some demo_canary)).

Definition demo_grant (s : LossRuntime) : LossRuntime :=
  set_loss (on_loss_ledger (append (λ _, 0) no_failure no_failure "trial-1" "CONFIRM_GRANTED" (Time (utc_of 0))
    [("approved_plan", VDict demo_plan)]) (lr_loss s)).1 s.
Definition demo_validate (s : LossRuntime) : LossRuntime :=
  (results (demo_call "1" "chaos_control.validate_plan" demo_plan) {| result_status := ResultCompleted; result_payload := [("ok", VBool true)] |} s).1.
Definition demo_create (arguments : mapping) (s : LossRuntime) : LossRuntime * result RuntimeToolDecision :=
  calls (demo_call "2" "chaos_mesh_control.create_experiment" arguments) s.
Definition demo_start : LossRuntime := new_runtime "unbound" demo_loss.
End demo.

#[local] Abbreviation demo_reach := (runtime_reach no_failure (λ _, 0) (λ _, 0) no_failure no_failure "trial-1" D8 VariantA "unbound"
  (λ _, Ok None) (λ _, Ok None) None (Some demo_canary)).
Lemma demo_validated : demo_reach (demo_validate no_failure demo_start).
Proof. by apply runtime_result, runtime_new, loss_new. Qed.
Lemma demo_granted : demo_reach (demo_grant (demo_validate no_failure demo_start)).
Proof.
  apply runtime_others; [exact demo_validated|].
  apply (still_ledger (append (λ _, 0) no_failure no_failure "trial-1" "CONFIRM_GRANTED" (Time (utc_of 0)) [("approved_plan", VDict demo_plan)])), append_grown.
Qed.
Lemma demo_validated_loss : loss_reach no_failure (λ _, 0) (λ _, 0) no_failure no_failure default_budget (lr_loss (demo_validate no_failure demo_start)).
Proof. eapply runtime_reached. exact demo_validated. Qed.

(** The state of the demonstration's Trial. *)
Definition demo_state (s : LossRuntime) : option CapabilityLossState := lo_states (lr_loss s) !! ["trial-1"].

(** The executor that validated may not create; the other may once the platform granted the plan,
    and no other plan; a grant that came before the disturbance does not count. *)
Example demo_decisions :
  let armed := demo_validate no_failure demo_start in
  let allowed s := rt_allowed <$> (demo_create no_failure demo_plan s).2 in
  rt_allowed <$> (before_call no_failure (λ _, 0) (λ _, 0) no_failure no_failure "trial-1" D8 VariantA (λ _, Ok None) (λ _, Ok None) None
    (demo_call "3" "chaos_control.create_experiment" demo_plan) armed).2 = Ok false ∧
  allowed armed = Ok false ∧ allowed (demo_grant armed) = Ok true ∧
  allowed (demo_validate no_failure (demo_grant demo_start)) = Ok false ∧
  rt_allowed <$> (demo_create no_failure [] (demo_grant armed)).2 = Ok false.
Proof. vm_compute. done. Qed.

(** When the append of the disturbance's event fails the loss is active without a number of that
    event, and a grant that came before the disturbance lets the alternative create. *)
Example earlier_grant_confirms :
  let sqlite n := if bool_decide (n = 16%nat) then Some (Exn (OtherError "OperationalError") "database is locked") else None in
  let s := demo_validate sqlite (demo_grant demo_start) in
  map (λ e, (pe_sequence e, pe_type e)) (events (ld_db (lo_ledger (lr_loss s)))) =
    [(1, "CONFIRM_GRANTED"); (2, "CAPABILITY_LOSS_ARMED"); (3, "CAPABILITY_LOSS_PRECHECK"); (4, "POLICY_APPLIED")] ∧
  (demo_state s ≫= activation_ledger_sequence) = None ∧ is_Some (demo_state s ≫= activated_at) ∧
  rt_allowed <$> (demo_create no_failure demo_plan s).2 = Ok true.
Proof. vm_compute. split_and!; [done|done|by eexists|done]. Qed.

(** The policy is changed before the state is written: when the write fails the tool is disabled
    and the state says that nothing was taken away, so a call of the tool is not refused. *)
Definition full_disk (n : nat) : option exn :=
  if bool_decide (n = 21%nat) then Some (Exn (OtherError "OSError") "No space left on device") else None.
Example disabled_before_recorded :
  let started := (start full_disk (λ _, 0) (λ _, 0) no_failure no_failure "trial-1" D8 VariantA "chaos_control" "chaos_mesh_control" demo_loss).1 in
  let r := after_validate_plan full_disk (λ _, 0) (λ _, 0) no_failure no_failure "trial-1" "chaos_control" "validate_plan" true
    (Some demo_plan) (Some (utc_of 5)) started in
  r.2 = Err (Exn (OtherError "OSError") "No space left on device") ∧ (activated_at <$> (lo_states r.1 !! ["trial-1"])) = Some None ∧
  (λ d, effective_tool_state (server_policy d "chaos_control") "create_experiment") <$> lo_policy r.1 = Some ToolDisabled ∧
  (before_tool_call no_failure (λ _, 0) (λ _, 0) no_failure no_failure default_budget "trial-1" "chaos_control" "create_experiment"
    false None (Some (utc_of 6)) false None r.1).2 = Ok permit.
Proof. vm_compute. done. Qed.

(** The first observation of D7 while the fault runs takes its server away, and only that one. *)
Example first_observation_refused :
  let started := (start no_failure (λ _, 0) (λ _, 0) no_failure no_failure "trial-1" D7 VariantA "chaos_control" "chaos_mesh_control" demo_loss).1 in
  let window := {| window_started_at := utc_of 1; window_ended_at := None; oracle_record_ref := "oracle-1" |} in
  let r := before_tool_call no_failure (λ _, 0) (λ _, 0) no_failure no_failure default_budget "trial-1" "chaos_control" "get_status"
    true (Some window) (Some (utc_of 6)) false None started in
  td_code <$> r.2 = Ok (Some "TOOL_DISABLED") ∧ (activated_at <$> (lo_states r.1 !! ["trial-1"])) = Some (Some (utc_of 6)) ∧
  (λ d, map (λ kv, (kv.1, sp_state kv.2)) (cp_servers d)) <$> lo_policy r.1 =
    Some [("chaos_control", Disabled); ("chaos_mesh_control", Enabled)].
Proof. vm_compute. done. Qed.


Definition demo_finish (s : LossRuntime) : LossRuntime * result CapabilityLossFinish :=
  finish no_failure (λ _, 0) (λ _, 0) no_failure no_failure "trial-1" D8 VariantA None None None s.

Lemma valid_facts_restored_witness :
  let s := demo_validate no_failure demo_start in
  ∃ b, demo_state (demo_finish s).1 = Some b ∧ is_Some (restored_at b).
Proof.
  cbv zeta. set (s := demo_validate _ _). destruct (demo_finish s) as [s' r] eqn:E. destruct r as [f|e]; [|exfalso; revert E; vm_compute; done].
  assert (Hf : trial_valid (fin_facts f) = true) by (revert E; vm_compute; intros [= _ <-]; reflexivity).
  destruct (valid_facts_restored no_failure (λ _, 0) (λ _, 0) no_failure no_failure "trial-1" D8 VariantA "unbound" (λ _, Ok None) (λ _, Ok None)
    None (Some demo_canary) None None None s s' f demo_validated E Hf) as (a & b & _ & Hb & _ & Hr & _).
  exists b. split; [exact Hb|exact Hr].
Defined.

Lemma loss_histories_witness :
  forward (lo_states (lr_loss (demo_validate no_failure demo_start)))
    (lo_states (loss_op no_failure (λ _, 0) (λ _, 0) no_failure no_failure default_budget (OpGrant "trial-1" 5) (lr_loss (demo_validate no_failure demo_start))).1).
Proof. apply (loss_histories no_failure (λ _, 0) (λ _, 0) no_failure no_failure default_budget (OpGrant "trial-1" 5) _ demo_validated_loss). Defined.

