(* ===== verification/ResetPolicy.v ===== *)
(** * Recovery states and reset tiers ([stage2_service/recovery_state.py],
      [stage2_service/reset_policy.py])

    What the evidence of a finished Trial says about its recovery, which reset the
    environment needs before the next one, and whether the platform may apply the
    destructive reset by itself. *)

From S2P Require Import Prelude PyFloat PyVal.

(** ** Reading the evidence *)

(** [text.split(sep)] for a one-character separator. *)
Fixpoint split_on (sep : ascii) (l : list ascii) : list (list ascii) :=
  match l with
  | [] => [[]]
  | c :: l' =>
      if bool_decide (c = sep) then [] :: split_on sep l'
      else match split_on sep l' with
           | part :: rest => (c :: part) :: rest
           | [] => [[c]]
           end
  end.

(** [_value_at]: [None] when the path does not exist. *)
Fixpoint value_along (path : list (list ascii)) (current : val) : option val :=
  match path with
  | [] => Some current
  | part :: rest => d ← as_map current; v ← dget (unchars part) d; value_along rest v
  end.
Definition _value_at (data : mapping) (dotted : string) : option val :=
  value_along (split_on "." (chars dotted)) (VDict data).

Definition is_bool (b : bool) (o : option val) : bool :=
  match o with Some (VBool x) => Bool.eqb x b | _ => false end.

Definition _truthy (data : mapping) (keys : list string) : bool :=
  existsb (λ key, is_bool true (_value_at data key)) keys.
Definition _falsey (data : mapping) (keys : list string) : bool :=
  existsb (λ key, is_bool false (_value_at data key)) keys.
Definition _path_exists (data : mapping) (key : string) : bool := bool_decide (is_Some (_value_at data key)).

Fixpoint _first_string (data : mapping) (keys : list string) : option string :=
  match keys with
  | [] => None
  | key :: rest =>
      match _value_at data key with
      | Some (VStr s) => if nonempty (str_strip s) then Some (str_strip s) else _first_string data rest
      | _ => _first_string data rest
      end
  end.

(** The leaves of a document, in order. *)
Fixpoint _walk (value : val) : list val :=
  match value with
  | VDict d => concat (map (λ kv : string * val, _walk kv.2) d)
  | VList l => concat (map _walk l)
  | _ => [value]
  end.

Definition _contains_any_string (data : mapping) (needles : list string) : bool :=
  existsb (λ value, match value with
                    | VStr s => existsb (λ needle, str_contains needle (str_lower s)) needles
                    | _ => false
                    end) (_walk (VDict data)).

(** [dict(evidence or {})] *)
Definition evidence_data (evidence : option mapping) : mapping := default [] evidence.

(** ** Recovery *)

Inductive RecoveryState := NOT_REQUIRED | VERIFIED | UNVERIFIED.
#[export] Instance RecoveryState_eq_dec : EqDecision RecoveryState.
Proof. solve_decision. Defined.

Definition recovery_value (r : RecoveryState) : string :=
  match r with
  | NOT_REQUIRED => "RECOVERY_NOT_REQUIRED"
  | VERIFIED => "RECOVERY_VERIFIED"
  | UNVERIFIED => "RECOVERY_UNVERIFIED"
  end.

Definition UNVERIFIED_SIGNALS : list (string * list string) :=
  [("RECOVERY_RAISED",
    ["recovery_exception"; "recovery_failed"; "rollback_error"; "restore_failed"; "permission_restore_failed"]);
   ("CONTROLLER_RESTARTED",
    ["controller_restarted"; "restoration_state_missing"; "recovery_state_missing"]);
   ("CLEANUP_HANDLE_MISSING", ["cleanup_handle_missing"; "cleanup_handle_unresolved"]);
   ("CAPABILITY_LOSS_ROLLBACK_FAILED", ["capability_loss_rollback_failed"; "substitute_rollback_failed"])].

Definition VERIFIED_KEYS : list string :=
  ["permission_restore_verified"; "permissions_restored"; "capability_rebound_verified";
   "capability_restored"; "rollback_verified"; "rolled_back"].

Definition ATTEMPTED_KEYS : list string := ["rollback_attempted"; "cleanup_attempted"; "recovery_attempted"].

(** The answers that say a rollback was not seen to succeed. *)
Definition ROLLED_BACK_KEYS : list string := ["rolled_back"; "rollback_verified"; "cleanup_verified"].

Record RecoveryAssessment := {
  ra_state : RecoveryState;
  ra_reason_codes : list string;
  ra_reinstall_authorized : bool;
  ra_block_reason : option string }.

Definition classify_recovery (evidence : option mapping) : RecoveryAssessment :=
  let data := evidence_data evidence in
  let signals := map fst (List.filter (λ s : string * list string, _truthy data s.2) UNVERIFIED_SIGNALS) in
  let attempted := _truthy data ATTEMPTED_KEYS in
  let verified := _truthy data VERIFIED_KEYS in
  let signals := if attempted && _falsey data ROLLED_BACK_KEYS then signals ++ ["ROLLBACK_NOT_VERIFIED"] else signals in
  if negb (empty signals) then
    {| ra_state := UNVERIFIED; ra_reason_codes := signals; ra_reinstall_authorized := false;
       ra_block_reason := Some ("recovery is unverified (" +:+ str_join ", " signals +:+
         "); the environment state is unknown, so a full reinstall is " +:+
         "withheld and the run stops for an operator to look at it") |}
  else if verified then
    {| ra_state := VERIFIED; ra_reason_codes := ["RECOVERY_VERIFIED"]; ra_reinstall_authorized := true;
       ra_block_reason := None |}
  else if attempted then
    {| ra_state := VERIFIED; ra_reason_codes := ["RECOVERY_COMPLETED"]; ra_reinstall_authorized := true;
       ra_block_reason := None |}
  else
    {| ra_state := NOT_REQUIRED; ra_reason_codes := ["NO_RECOVERY_REQUIRED"]; ra_reinstall_authorized := true;
       ra_block_reason := None |}.

(** ** Tiers *)

Inductive ResetTier := T0_NO_WRITE | T1_CAPABILITY | T2_FAULT_OR_TARGET | T3_FULL_REINSTALL.
#[export] Instance ResetTier_eq_dec : EqDecision ResetTier.
Proof. solve_decision. Defined.

Definition tier_value (t : ResetTier) : string :=
  match t with
  | T0_NO_WRITE => "T0_NO_WRITE" | T1_CAPABILITY => "T1_CAPABILITY"
  | T2_FAULT_OR_TARGET => "T2_FAULT_OR_TARGET" | T3_FULL_REINSTALL => "T3_FULL_REINSTALL"
  end.

Inductive ResetAction :=
  VERIFY_BASELINE | RESTORE_PERMISSIONS | REBIND_CAPABILITIES | CLEANUP_FAULTS | VERIFY_TARGET
  | VERIFY_BUSINESS | FULL_REINSTALL.

Definition action_value (a : ResetAction) : string :=
  match a with
  | VERIFY_BASELINE => "verify_baseline" | RESTORE_PERMISSIONS => "restore_permissions"
  | REBIND_CAPABILITIES => "rebind_capabilities" | CLEANUP_FAULTS => "cleanup_faults"
  | VERIFY_TARGET => "verify_target" | VERIFY_BUSINESS => "verify_business"
  | FULL_REINSTALL => "full_reinstall"
  end.

Record Summary := {
  unknown_or_failed_rollback : bool;
  foreign_or_unobserved_fault : bool;
  operation_outcome_uncertain : bool;
  operation_outcome_reconciled : bool;
  rollback_failed : bool;
  fault_or_target_mutated : bool;
  capability_mutated : bool;
  tier_verification_present : bool }.

Record ResetPolicyDecision := {
  rd_tier : ResetTier;
  rd_verified : bool;
  rd_allows_next_trial : bool;
  rd_required_actions : list ResetAction;
  rd_reason_codes : list string;
  rd_evidence_summary : Summary;
  rd_recovery_state : RecoveryState;
  rd_reinstall_authorized : bool;
  rd_reinstall_block_reason : option string }.

Definition summary_dict (s : Summary) : mapping :=
  [("unknown_or_failed_rollback", VBool (unknown_or_failed_rollback s));
   ("foreign_or_unobserved_fault", VBool (foreign_or_unobserved_fault s));
   ("operation_outcome_uncertain", VBool (operation_outcome_uncertain s));
   ("operation_outcome_reconciled", VBool (operation_outcome_reconciled s));
   ("rollback_failed", VBool (rollback_failed s));
   ("fault_or_target_mutated", VBool (fault_or_target_mutated s));
   ("capability_mutated", VBool (capability_mutated s));
   ("tier_verification_present", VBool (tier_verification_present s))].

Definition decision_dict (d : ResetPolicyDecision) : mapping :=
  [("schema_version", VStr "stage2-reset-policy.v2");
   ("tier", VStr (tier_value (rd_tier d)));
   ("verified", VBool (rd_verified d));
   ("allows_next_trial", VBool (rd_allows_next_trial d));
   ("required_actions", VList (map (λ a, VStr (action_value a)) (rd_required_actions d)));
   ("reason_codes", VList (map VStr (rd_reason_codes d)));
   ("evidence_summary", VDict (summary_dict (rd_evidence_summary d)));
   ("recovery_state", VStr (recovery_value (rd_recovery_state d)));
   ("reinstall_authorized", VBool (rd_reinstall_authorized d));
   ("reinstall_block_reason", from_option VStr VNone (rd_reinstall_block_reason d))].

Definition tier_aliases : list (string * ResetTier) :=
  [("T0", T0_NO_WRITE); ("T0_NO_WRITE", T0_NO_WRITE); ("NO_WRITE", T0_NO_WRITE);
   ("T1", T1_CAPABILITY); ("T1_CAPABILITY", T1_CAPABILITY); ("CAPABILITY", T1_CAPABILITY);
   ("T2", T2_FAULT_OR_TARGET); ("T2_FAULT_OR_TARGET", T2_FAULT_OR_TARGET);
   ("FAULT_OR_TARGET", T2_FAULT_OR_TARGET);
   ("T3", T3_FULL_REINSTALL); ("T3_FULL_REINSTALL", T3_FULL_REINSTALL); ("FULL_REINSTALL", T3_FULL_REINSTALL)].

Definition _explicit_tier (data : mapping) : option ResetTier :=
  raw ← _first_string data ["reset_tier"; "required_reset_tier"; "mutation_tier"];
  dget (str_upper raw) tier_aliases.

Definition _infer_tier (summary : Summary) : ResetTier :=
  if unknown_or_failed_rollback summary || foreign_or_unobserved_fault summary then T3_FULL_REINSTALL
  else if fault_or_target_mutated summary then T2_FAULT_OR_TARGET
  else if capability_mutated summary then T1_CAPABILITY
  else T0_NO_WRITE.

Definition _required_actions (tier : ResetTier) : list ResetAction :=
  match tier with
  | T0_NO_WRITE => [VERIFY_BASELINE]
  | T1_CAPABILITY => [RESTORE_PERMISSIONS; REBIND_CAPABILITIES; VERIFY_BASELINE]
  | T2_FAULT_OR_TARGET => [CLEANUP_FAULTS; VERIFY_TARGET; VERIFY_BUSINESS]
  | T3_FULL_REINSTALL => [FULL_REINSTALL; VERIFY_BASELINE; VERIFY_BUSINESS]
  end.

Definition _reason_codes (tier : ResetTier) (summary : Summary) : list string :=
  let reasons :=
    guard_list (unknown_or_failed_rollback summary) "UNKNOWN_OR_FAILED_ROLLBACK" ++
    guard_list (foreign_or_unobserved_fault summary) "FOREIGN_OR_UNOBSERVED_FAULT" ++
    guard_list (fault_or_target_mutated summary) "FAULT_OR_TARGET_MUTATION_OBSERVED" ++
    guard_list (capability_mutated summary) "CAPABILITY_MUTATION_OBSERVED" in
  reasons ++
  guard_list (bool_decide (tier = T0_NO_WRITE) && empty reasons) "NO_WRITE_MUTATION_OBSERVED" ++
  guard_list (negb (tier_verification_present summary)) "RESET_TIER_VERIFICATION_MISSING".

Definition BASELINE_KEYS : list string :=
  ["baseline_verified"; "environment_verified"; "qualified"; "business_healthy"; "business_recovery_verified"].
Definition RESTORED_KEYS : list string :=
  ["permission_restore_verified"; "permissions_restored"; "capability_rebound_verified"; "capability_restored"].

Definition _verified (tier : ResetTier) (data : mapping) (summary : Summary) : bool :=
  if unknown_or_failed_rollback summary || foreign_or_unobserved_fault summary then false
  else match tier with
  | T0_NO_WRITE => _truthy data BASELINE_KEYS
  | T1_CAPABILITY => _truthy data RESTORED_KEYS && _truthy data BASELINE_KEYS
  | T2_FAULT_OR_TARGET =>
      _truthy data ["fault_absent"; "fault_cleanup_verified"] &&
      _truthy data ["business_recovery_verified"; "business_healthy"]
  | T3_FULL_REINSTALL => _truthy data ["full_reinstall_verified"; "reinstalled_and_verified"]
  end.

Definition _rollback_failed (data : mapping) : bool :=
  _truthy data ["rollback_attempted"; "cleanup_attempted"] && _falsey data ROLLED_BACK_KEYS.

Definition _summarize (data : mapping) : Summary :=
  let outcome_uncertain := _truthy data
    ["operation_outcome_unknown"; "operation_outcome_uncertain"; "mutation_outcome_unknown"; "result_unknown"] in
  let outcome_reconciled := _truthy data
    ["operation_outcome_reconciled"; "outcome_reconciled"; "mutation_outcome_reconciled"] in
  let failed := _rollback_failed data in
  let foreign := _truthy data ["foreign_active_faults"; "unowned_active_faults"; "fault_inventory_incomplete"] ||
    is_bool false (dget "fault_inventory_qualified" data) in
  let fault_or_target :=
    _truthy data ["main_fault_ever_active"; "fault_created"; "fault_injected"; "target_replaced";
                  "target_changed"; "pod_replaced"; "pod_deleted"] ||
    _contains_any_string data ["target_change"; "pod_replace"; "pod_replaced"; "chaosblade"; "fault";
                               "cpu-load"; "network-delay"] in
  let capability :=
    _truthy data ["permission_revoked"; "permissions_revoked"; "permission_restore_verified";
                  "capability_rebound"; "capability_rebound_verified"; "observability_revoked";
                  "tool_channel_interrupted"] ||
    _contains_any_string data ["permission_change"; "observability_change"; "tool_channel_interruption";
                               "mcp_policy"; "kubernetes_rbac"; "mcp_transport"] in
  {| unknown_or_failed_rollback := failed || (outcome_uncertain && negb outcome_reconciled);
     foreign_or_unobserved_fault := foreign;
     operation_outcome_uncertain := outcome_uncertain;
     operation_outcome_reconciled := outcome_reconciled;
     rollback_failed := failed;
     fault_or_target_mutated := fault_or_target;
     capability_mutated := capability;
     tier_verification_present := existsb (_path_exists data)
       ["verified"; "reset_verified"; "baseline_verified"; "environment_verified";
        "permission_restore_verified"; "capability_rebound_verified"; "fault_absent";
        "business_recovery_verified"; "full_reinstall_verified"] |}.

Definition classify_reset_policy (evidence : option mapping) : ResetPolicyDecision :=
  let data := evidence_data evidence in
  let explicit := _explicit_tier data in
  let summary := _summarize data in
  let tier := default (_infer_tier summary) explicit in
  let recovery := classify_recovery (Some data) in
  let verified := _verified tier data summary in
  let authorized := bool_decide (is_Some explicit) || ra_reinstall_authorized recovery in
  {| rd_tier := tier;
     rd_verified := verified;
     rd_allows_next_trial := verified;
     rd_required_actions := _required_actions tier;
     rd_reason_codes := _reason_codes tier summary ++
       (if bool_decide (ra_state recovery = NOT_REQUIRED) then [] else [recovery_value (ra_state recovery)]);
     rd_evidence_summary := summary;
     rd_recovery_state := ra_state recovery;
     rd_reinstall_authorized := authorized;
     rd_reinstall_block_reason := if authorized then None else ra_block_reason recovery |}.

Example tier_examples :
  let tier d := rd_tier (classify_reset_policy (Some d)) in
  tier [("baseline_verified", VBool true)] = T0_NO_WRITE ∧
  tier [("permission_revoked", VBool true)] = T1_CAPABILITY ∧
  tier [("main_fault_ever_active", VBool true); ("fault_absent", VBool true)] = T2_FAULT_OR_TARGET ∧
  tier [("rollback_attempted", VBool true); ("rolled_back", VBool false)] = T3_FULL_REINSTALL ∧
  tier [("events", VList [VDict [("kind", VStr "Pod_Replaced")]])] = T2_FAULT_OR_TARGET.
Proof. vm_compute. done. Qed.

Definition assessment_dict (r : RecoveryAssessment) : mapping :=
  [("state", VStr (recovery_value (ra_state r)));
   ("reason_codes", VList (map VStr (ra_reason_codes r)));
   ("reinstall_authorized", VBool (ra_reinstall_authorized r));
   ("block_reason", from_option VStr VNone (ra_block_reason r))].

(** ** What the flags mean *)

Definition marked (data : mapping) (key : string) (b : bool) : Prop := _value_at data key = Some (VBool b).

Lemma is_bool_true b o : is_bool b o = true ↔ o = Some (VBool b).
Proof. destruct o as [[| | | | | |]|]; cbn; rewrite ?Bool.eqb_true_iff; naive_solver. Qed.

Lemma truthy_iff data keys : _truthy data keys = true ↔ ∃ k, k ∈ keys ∧ marked data k true.
Proof. unfold _truthy. rewrite existsb_True. by setoid_rewrite is_bool_true. Qed.

Lemma falsey_iff data keys : _falsey data keys = true ↔ ∃ k, k ∈ keys ∧ marked data k false.
Proof. unfold _falsey. rewrite existsb_True. by setoid_rewrite is_bool_true. Qed.

Lemma truthy_subset data keys keys' : keys ⊆ keys' → _truthy data keys = true → _truthy data keys' = true.
Proof. rewrite !truthy_iff. intros H (k & Hk & ?). eauto. Qed.

(** The recovery is unverified: one of the four paths was reported, or a rollback was tried
    and its success denied. *)
Definition unverified (data : mapping) : Prop :=
  (∃ signal k, signal ∈ UNVERIFIED_SIGNALS ∧ k ∈ signal.2 ∧ marked data k true) ∨
  (∃ a r, a ∈ ATTEMPTED_KEYS ∧ marked data a true ∧ r ∈ ROLLED_BACK_KEYS ∧ marked data r false).

(** The outcome of the evidence's operations is unknown or a rollback failed. *)
Definition outcome_lost (data : mapping) : Prop :=
  unknown_or_failed_rollback (_summarize data) = true.

Lemma app_nil_dec {A} (l : list A) b x :
  empty (if b : bool then l ++ [x] else l) = empty l && negb b.
Proof. destruct b, l; cbn; auto. Qed.

Lemma signals_empty data :
  empty (map fst (List.filter (λ s : string * list string, _truthy data s.2) UNVERIFIED_SIGNALS)) =
  negb (existsb (λ s : string * list string, _truthy data s.2) UNVERIFIED_SIGNALS).
Proof. induction UNVERIFIED_SIGNALS as [|s l IH]; [done|]. cbn. by destruct (_truthy data s.2). Qed.

Lemma existsb_signals data : existsb (λ s : string * list string, _truthy data s.2) UNVERIFIED_SIGNALS = true ↔
  ∃ signal k, signal ∈ UNVERIFIED_SIGNALS ∧ k ∈ signal.2 ∧ marked data k true.
Proof. rewrite existsb_True. setoid_rewrite truthy_iff. naive_solver. Qed.

(** The test [classify_recovery] makes. *)
Definition unverified_test (data : mapping) : bool :=
  existsb (λ s : string * list string, _truthy data s.2) UNVERIFIED_SIGNALS ||
  (_truthy data ATTEMPTED_KEYS && _falsey data ROLLED_BACK_KEYS).

Lemma unverified_test_iff data : unverified_test data = true ↔ unverified data.
Proof.
  unfold unverified_test, unverified. rewrite orb_true_iff, andb_true_iff, existsb_signals, truthy_iff, falsey_iff.
  naive_solver.
Qed.

Lemma classify_recovery_state data :
  let r := classify_recovery (Some data) in
  ra_state r = (if unverified_test data then UNVERIFIED
                else if _truthy data VERIFIED_KEYS || _truthy data ATTEMPTED_KEYS then VERIFIED else NOT_REQUIRED) ∧
  ra_reinstall_authorized r = negb (unverified_test data) ∧
  (is_Some (ra_block_reason r) ↔ unverified_test data = true).
Proof.
  cbv zeta. unfold classify_recovery. change (evidence_data (Some data)) with data.
  set (signals := if _ && _ then _ else _).
  assert (empty signals = negb (unverified_test data)) as ->.
  { subst signals. rewrite app_nil_dec, signals_empty. unfold unverified_test. by rewrite negb_orb. }
  generalize (unverified_test data) (_truthy data VERIFIED_KEYS) (_truthy data ATTEMPTED_KEYS).
  clearbody signals. intros [] [] []; cbn; (split_and!; [done..|]); (split; [by intros [? ?]|]); try done.
  all: intros _; by eexists.
Qed.

Lemma explicit_is_some {A} (o : option A) : bool_decide (is_Some o) = false ↔ o = None.
Proof. by rewrite bool_decide_eq_false, eq_None_not_Some. Qed.

(** ** When a reinstall is withheld *)

Lemma authorized_test evidence :
  rd_reinstall_authorized (classify_reset_policy evidence) =
  bool_decide (is_Some (_explicit_tier (evidence_data evidence))) || negb (unverified_test (evidence_data evidence)).
Proof.
  unfold classify_reset_policy. cbn [rd_reinstall_authorized].
  by destruct (classify_recovery_state (evidence_data evidence)) as (_ & -> & _).
Qed.

Lemma withheld_iff evidence : rd_reinstall_authorized (classify_reset_policy evidence) = false ↔
  _explicit_tier (evidence_data evidence) = None ∧ unverified (evidence_data evidence).
Proof.
  by rewrite authorized_test, orb_false_iff, negb_false_iff, explicit_is_some, unverified_test_iff.
Qed.

Lemma block_reason_some evidence : rd_reinstall_authorized (classify_reset_policy evidence) = false →
  is_Some (rd_reinstall_block_reason (classify_reset_policy evidence)).
Proof.
  rewrite authorized_test. unfold classify_reset_policy. cbn [rd_reinstall_block_reason].
  destruct (classify_recovery_state (evidence_data evidence)) as (_ & -> & Hb). intros E. rewrite E.
  apply orb_false_iff in E as [_ E%negb_false_iff]. by apply Hb.
Qed.

Lemma block_reason_none evidence : rd_reinstall_authorized (classify_reset_policy evidence) = true →
  rd_reinstall_block_reason (classify_reset_policy evidence) = None.
Proof. unfold classify_reset_policy. cbn [rd_reinstall_block_reason rd_reinstall_authorized]. by intros ->. Qed.

(** A reinstall is withheld exactly when nobody named a tier and the recovery is unverified; a
    reason is given exactly then. *)
Theorem reinstall_withheld_iff evidence :
  let data := evidence_data evidence in
  let d := classify_reset_policy evidence in
  (rd_reinstall_authorized d = false ↔ _explicit_tier data = None ∧ unverified data) ∧
  (is_Some (rd_reinstall_block_reason d) ↔ rd_reinstall_authorized d = false) ∧
  (rd_recovery_state d = UNVERIFIED ↔ unverified data).
Proof.
  cbv zeta. split; [apply withheld_iff|]. split.
  - split; [|apply block_reason_some]. intros [x Hx]. apply not_true_iff_false. intros E.
    by rewrite block_reason_none in Hx.
  - rewrite <- unverified_test_iff. unfold classify_reset_policy. cbn [rd_recovery_state].
    destruct (classify_recovery_state (evidence_data evidence)) as (-> & _ & _).
    destruct (unverified_test _); [done|]. by destruct (_ || _).
Qed.

(** The order of the tiers. *)
Definition tier_rank (t : ResetTier) : nat :=
  match t with T0_NO_WRITE => 0 | T1_CAPABILITY => 1 | T2_FAULT_OR_TARGET => 2 | T3_FULL_REINSTALL => 3 end.

(** A tier is enough for what the evidence shows. *)
Definition sufficient (s : Summary) (t : ResetTier) : Prop :=
  (capability_mutated s = true → 1 ≤ tier_rank t) ∧
  (fault_or_target_mutated s = true → 2 ≤ tier_rank t) ∧
  (unknown_or_failed_rollback s = true ∨ foreign_or_unobserved_fault s = true → 3 ≤ tier_rank t).

(** The inferred tier is the least one that is enough for what the evidence shows. *)
Theorem inferred_tier_least s t : sufficient s t ↔ tier_rank (_infer_tier s) ≤ tier_rank t.
Proof.
  unfold sufficient, _infer_tier. destruct (unknown_or_failed_rollback s), (foreign_or_unobserved_fault s),
    (fault_or_target_mutated s), (capability_mutated s), t; cbn; intuition (auto with lia || lia || discriminate).
Qed.

(** A failed rollback is an unverified recovery. *)
Lemma rollback_failed_unverified data : _rollback_failed data = true → unverified data.
Proof.
  unfold _rollback_failed. rewrite andb_true_iff, truthy_iff, falsey_iff. intros [(a & Ha & Hm) (r & Hr & Hn)].
  right. exists a, r. split_and!; [|done..]. revert Ha. unfold ATTEMPTED_KEYS. set_solver.
Qed.

Lemma decision_tier evidence : rd_tier (classify_reset_policy evidence) =
  default (_infer_tier (_summarize (evidence_data evidence))) (_explicit_tier (evidence_data evidence)).
Proof. reflexivity. Qed.

Lemma decision_verified evidence : rd_verified (classify_reset_policy evidence) =
  _verified (rd_tier (classify_reset_policy evidence)) (evidence_data evidence) (_summarize (evidence_data evidence)).
Proof. reflexivity. Qed.

Lemma infer_reinstall s : _infer_tier s = T3_FULL_REINSTALL ↔
  unknown_or_failed_rollback s || foreign_or_unobserved_fault s = true.
Proof.
  unfold _infer_tier. destruct (unknown_or_failed_rollback s), (foreign_or_unobserved_fault s),
    (fault_or_target_mutated s), (capability_mutated s); done.
Qed.

Lemma unknown_or_failed_eq data : unknown_or_failed_rollback (_summarize data) =
  rollback_failed (_summarize data) ||
  (operation_outcome_uncertain (_summarize data) && negb (operation_outcome_reconciled (_summarize data))).
Proof. reflexivity. Qed.

(** An inferred and authorized reinstall rests on a foreign or unobserved fault or an outcome
    that was never reconciled, never on a failed rollback, and the evidence does not verify
    it. *)
Theorem inferred_reinstall_reasons evidence :
  let data := evidence_data evidence in
  let d := classify_reset_policy evidence in
  _explicit_tier data = None → rd_tier d = T3_FULL_REINSTALL → rd_reinstall_authorized d = true →
  rd_verified d = false ∧ ¬ unverified data ∧ rollback_failed (_summarize data) = false ∧
  (foreign_or_unobserved_fault (_summarize data) = true ∨
   operation_outcome_uncertain (_summarize data) = true ∧ operation_outcome_reconciled (_summarize data) = false).
Proof.
  cbv zeta. set (data := evidence_data evidence). intros He Ht Ha.
  assert (¬ unverified data) as Hu.
  { intros Hu. rewrite (proj2 (withheld_iff evidence)) in Ha; done. }
  assert (rollback_failed (_summarize data) = false) as Hr.
  { apply not_true_iff_false. intros H. by apply Hu, rollback_failed_unverified. }
  rewrite decision_tier in Ht. fold data in Ht. rewrite He in Ht. apply infer_reinstall in Ht.
  split_and!; [|done..|].
  - rewrite decision_verified. fold data. unfold _verified. by rewrite Ht.
  - rewrite unknown_or_failed_eq, Hr in Ht. apply orb_true_iff in Ht as [Ht|Ht]; [right|by left].
    cbn [orb] in Ht. by apply andb_true_iff in Ht as [-> ->%negb_true_iff].
Qed.

Lemma inferred_reinstall_reasons_witness :
  let d := [("foreign_active_faults", VBool true); ("rollback_attempted", VBool true); ("rolled_back", VBool true)] in
  rd_reinstall_authorized (classify_reset_policy (Some d)) = true ∧
  rd_verified (classify_reset_policy (Some d)) = false.
Proof.
  split; [vm_compute; reflexivity|]. eapply (inferred_reinstall_reasons (Some _)); vm_compute; reflexivity.
Defined.

(** The next Trial is allowed exactly when no outcome is lost, no foreign fault is seen and the
    flags the tier asks for are set; an inferred reinstall never allows it. *)
Theorem next_trial_evidence evidence :
  let data := evidence_data evidence in
  let d := classify_reset_policy evidence in
  rd_allows_next_trial d = true ↔
  ¬ outcome_lost data ∧ foreign_or_unobserved_fault (_summarize data) = false ∧
  match rd_tier d with
  | T0_NO_WRITE => ∃ k, k ∈ BASELINE_KEYS ∧ marked data k true
  | T1_CAPABILITY => (∃ k, k ∈ RESTORED_KEYS ∧ marked data k true) ∧ ∃ k, k ∈ BASELINE_KEYS ∧ marked data k true
  | T2_FAULT_OR_TARGET =>
      (marked data "fault_absent" true ∨ marked data "fault_cleanup_verified" true) ∧
      (marked data "business_recovery_verified" true ∨ marked data "business_healthy" true)
  | T3_FULL_REINSTALL =>
      (marked data "full_reinstall_verified" true ∨ marked data "reinstalled_and_verified" true) ∧
      is_Some (_explicit_tier data)
  end.
Proof.
  cbv zeta. change (rd_allows_next_trial (classify_reset_policy evidence)) with (rd_verified (classify_reset_policy evidence)).
  rewrite decision_verified. set (data := evidence_data evidence). unfold outcome_lost, _verified.
  destruct (unknown_or_failed_rollback (_summarize data)) eqn:Hu; cbn [orb]; [split; [done|by intros []]|].
  destruct (foreign_or_unobserved_fault (_summarize data)) eqn:Hf; [split; [done|by intros (_ & ? & _)]|].
  assert (∀ a b, _truthy data [a; b] = true ↔ marked data a true ∨ marked data b true) as H2.
  { intros a b. rewrite truthy_iff. setoid_rewrite elem_of_cons. setoid_rewrite list_elem_of_singleton. naive_solver. }
  assert (∀ P : Prop, P ↔ ¬ false = true ∧ false = false ∧ P) as <- by (intros P; split; [by repeat split|tauto]).
  destruct (rd_tier _) eqn:Ht; rewrite ?andb_true_iff, ?H2, ?truthy_iff; [done..|].
  assert (is_Some (_explicit_tier data)); [|tauto].
  rewrite decision_tier in Ht. fold data in Ht. destruct (_explicit_tier data); [by eexists|].
  apply infer_reinstall in Ht. by rewrite Hu, Hf in Ht.
Qed.

(** A rollback that was tried and never looked at counts as a completed recovery. *)
Example unobserved_recovery_authorizes :
  let d := classify_recovery (Some [("recovery_attempted", VBool true)]) in
  ra_state d = VERIFIED ∧ ra_reinstall_authorized d = true.
Proof. vm_compute. done. Qed.

(** A note that mentions a fault is a mutated target. *)
Example notes_are_evidence :
  rd_tier (classify_reset_policy (Some [("baseline_verified", VBool true); ("note", VStr "no Fault seen")])) =
  T2_FAULT_OR_TARGET.
Proof. vm_compute. reflexivity. Qed.
