(* ===== verification/Resetter.v ===== *)
(** * The reset of the environment ([stage2_service/reset.py])

    Between two Trials the system under test is verified or, when nothing less will do,
    uninstalled and installed again. Every call the resetter makes outside the process is
    appended to a log; what the outside answers is any function of the log. *)

From S2P Require Import Prelude Hoare PyFloat PyVal ConditionPolicy ResetPolicy.

#[local] Open Scope Z_scope.

(** ** Calls *)

Inductive Call :=
  | Mkdtemp (prefix dir : string)
  | CopyFile (src dst : string)
  | Chmod (path : string)
  | Run (argv : list string) (env : dict string string) (timeout : Z)
  | Rmtree (dir : string)
  | Qualify
  | CurrentTraffic
  | WaitUntilHealthy (timeout stability_samples : Z)
  | ResetAndWaitHealthy (timeout stability_samples : Z).

(** What [runner.run] does: it returns, [TimeoutExpired] is raised, or something else is. *)
Inductive RunAnswer :=
  | Completed (returncode : Z) (stdout stderr : string)
  | TimedOut (stderr : option string)
  | Failed (e : exn).

Record Ops := {
  op_calls : list Call;
  (** The [evidence] of the last [ResetError]. *)
  op_error : mapping }.

Definition ResetError : exn_kind := OtherError "ResetError".

(** The resetter: [__init__]'s fields, the interpreter and the process environment. *)
Record OtelDemoResetter := {
  application : string;
  namespace : string;
  repo_root : string;
  kubeconfig : string;
  kubeconfig_parent : string;
  runtime_env_file : string;
  chart_file : string;
  timeout_seconds : Z;
  recovery_timeout_seconds : Z;
  verify_only : bool;
  sys_executable : string;
  environ : dict string string }.

(** ** Text *)

(** [text.split()] *)
Fixpoint words (word l : list ascii) : list (list ascii) :=
  match l with
  | [] => guard_list (negb (empty word)) (rev word)
  | c :: l' =>
      if is_space c then guard_list (negb (empty word)) (rev word) ++ words [] l'
      else words (c :: word) l'
  end.

Definition lower_prefix (p : string) (l : list ascii) : option (list ascii) :=
  if is_prefix (chars p) (map lower_char l) then Some (drop (String.length p) l) else None.

(** [(?i)(password|token|secret|api\[_-\]?key)] at the start of a text: what follows it. *)
Definition secret_word (l : list ascii) : option (list ascii) :=
  match lower_prefix "password" l, lower_prefix "token" l, lower_prefix "secret" l with
  | Some r, _, _ | _, Some r, _ | _, _, Some r => Some r
  | None, None, None =>
      r ← lower_prefix "api" l;
      lower_prefix "key" (match r with c :: r' => if one_of "_-" c then r' else r | [] => r end)
  end.

(** [... \s*\[:=\]\s*\S+]: how many characters the word has and how many match. *)
Definition secret_assignment (l : list ascii) : option (nat * nat) :=
  r ← secret_word l;
  match drop_while is_space r with
  | c :: r' =>
      let v := drop_while is_space r' in
      let rest := drop_while (λ c, negb (is_space c)) v in
      if one_of ":=" c && negb (empty v)
      then Some (length l - length r, length l - length rest)%nat else None
  | [] => None
  end.

(** [_SECRET_ASSIGNMENT_RE.sub(r"\1=<redacted>", text)]; [skip] characters are matched. *)
Fixpoint redact (skip : nat) (l : list ascii) : list ascii :=
  match l with
  | [] => []
  | c :: l' =>
      match skip with
      | S k => redact k l'
      | O => match secret_assignment l with
             | Some (word, all) => take word l ++ chars "=<redacted>" ++ redact (Nat.pred all) l'
             | None => c :: redact 0 l'
             end
      end
  end.

(** [_SECRET_WORD_RE.search(item)] *)
Fixpoint secret_inside (l : list ascii) : bool :=
  bool_decide (is_Some (secret_word l)) || match l with [] => false | _ :: l' => secret_inside l' end.

(** [text\[-limit:\]] *)
Definition last_chars (limit : nat) (l : list ascii) : list ascii := drop (length l - limit) l.

Definition _EXCERPT_CHARS : nat := 1500.
Definition _MESSAGE_DETAIL_CHARS : nat := 400.

Definition _excerpt (value : string) : string :=
  let text := str_join " " (map unchars (words [] (chars value))) in
  unchars (last_chars _EXCERPT_CHARS (redact 0 (chars text))).

(** [shlex.quote] *)
Definition shell_safe (c : ascii) : bool :=
  is_lower c || is_upper c || is_digit c || one_of "_@%+=:,./-" c.
Definition shlex_quote (s : string) : string :=
  let q := String squote EmptyString in let d := String dquote EmptyString in
  if negb (nonempty s) then q +:+ q
  else if forallb shell_safe (chars s) then s
  else q +:+ unchars (concat (map (λ c, if bool_decide (c = squote) then chars (q +:+ d +:+ q +:+ d +:+ q) else [c]) (chars s))) +:+ q.

Definition _redacted_command (argv : list string) : string :=
  str_join " " (map (λ item, shlex_quote (if secret_inside (chars item) then "<redacted-argument>" else item)) argv).

Example excerpt_example :
  _excerpt "a  Token = xyz,
b" = "a Token=<redacted> b" ∧ _redacted_command ["helm"; "x y"; "my-API_KEY"] = "helm 'x y' '<redacted-argument>'".
Proof. vm_compute. done. Qed.

(** ** The resetter *)

Section resetter.
Context (self : OtelDemoResetter).
(** [json.loads]; what commands, the file system, the gate and the traffic evidence answer. *)
Context (json_loads : string → option val) (on_run : list Call → RunAnswer)
  (on_file : list Call → result string) (on_evidence : list Call → result mapping).

#[local] Abbreviation st := (prog Ops).

Definition called (c : Call) (s : Ops) : Ops := {| op_calls := op_calls s ++ [c]; op_error := op_error s |}.

Definition runner_run (argv : list string) (env : dict string string) (timeout : Z) : st RunAnswer := λ s,
  let s' := called (Run argv env timeout) s in (s', Ok (on_run (op_calls s'))).
(** [runner.run] where nothing catches what it raises *)
Definition run_or_raise (argv : list string) (env : dict string string) (timeout : Z) : st (Z * string * string) :=
  answer ← runner_run argv env timeout;
  lift match answer with
       | Completed code out err => Ok (code, out, err)
       | TimedOut _ => raise (OtherError "TimeoutExpired") "timed out"
       | Failed e => Err e
       end.
Definition file_call (c : string → Call) : st string := λ s,
  let answer := on_file (op_calls s) in
  (called (c (ok_or "" answer)) s, answer).
Definition evidence_call (c : Call) : st mapping := λ s,
  let s' := called c s in (s', on_evidence (op_calls s')).

Definition reset_error {A} (message : string) (evidence : mapping) : st A :=
  modify (λ s, {| op_calls := op_calls s; op_error := evidence |}) ;; throw ResetError message.

Definition path_join (a b : string) : string := if str_endswith "/" a then a +:+ b else a +:+ "/" +:+ b.

Definition _json_object (text : string) : mapping :=
  match json_loads text with Some (VDict d) => d | _ => [] end.

Definition _deploy_diagnostic (stderr : option string) : string :=
  let text := default "" stderr in
  match vget (_json_object text) "error" with
  | VStr error => if nonempty error then error else text
  | _ => text
  end.

Definition _deploy_argv (private_runtime : string) (server_dry_run : bool) : list string :=
  [sys_executable self; path_join (repo_root self) "scripts/deploy_application.py";
   "--application"; application self; "--namespace"; namespace self; "--mode"; "apply";
   if server_dry_run then "--server-dry-run" else "--execute";
   "--kubeconfig"; kubeconfig self; "--runtime-env-file"; private_runtime;
   "--timeout"; pretty (timeout_seconds self)].

Definition uninstall_argv : list string :=
  ["helm"; "uninstall"; application self; "--namespace"; namespace self; "--wait"; "--timeout";
   pretty (timeout_seconds self) +:+ "s"].

Definition reinstall_env : dict string string :=
  dset "OTEL_DEMO_CHART_FILE" (chart_file self) (dset "KUBECONFIG" (kubeconfig self) (environ self)).

(** [CONDITION_POLICY\["recovery_sustain_seconds"\] // 10 + 1] *)
Definition stability_samples : Z :=
  match vget CONDITION_POLICY "recovery_sustain_seconds" with VInt n => n / 10 + 1 | _ => 0 end.

Definition _preflight_error {A} (reason : string) (preflight : mapping) : st A :=
  let detail := py_str (py_or (vget preflight "stderr_excerpt") (VStr "no diagnostic output")) in
  reset_error ("reinstall preflight failed; OTel Demo was left installed: " +:+ reason +:+ ": " +:+
               unchars (last_chars _MESSAGE_DETAIL_CHARS (chars detail)))
    [("stage", VStr "reinstall_preflight"); ("uninstall_attempted", VBool false); ("uninstalled", VBool false);
     ("reinstalled", VBool false); ("reinstall_preflight", VDict preflight)].

Definition PREFLIGHT_PASSED_RESULT : string := "server-dry-run-passed".

Definition _reinstall_preflight (private_runtime : string) (env : dict string string) : st mapping :=
  let argv := _deploy_argv private_runtime true in
  let evidence := [("passed", VBool false); ("command", VStr (_redacted_command argv)); ("exit_code", VNone);
                   ("timed_out", VBool false)] in
  answer ← runner_run argv env (timeout_seconds self + 180);
  match answer with
  | TimedOut stderr =>
      _preflight_error "timed out"
        (dset "stderr_excerpt" (VStr (_excerpt (_deploy_diagnostic stderr))) (dset "timed_out" (VBool true) evidence))
  | Failed exc =>
      _preflight_error ("could not run (" +:+ exn_type_name exc +:+ ")")
        (dset "stderr_excerpt" (VStr (_excerpt (exn_msg exc))) (dset "error_type" (VStr (exn_type_name exc)) evidence))
  | Completed returncode stdout stderr =>
      let evidence := dset "stderr_excerpt" (VStr (_excerpt (_deploy_diagnostic (Some stderr))))
                        (dset "exit_code" (VInt returncode) evidence) in
      if negb (returncode =? 0) then _preflight_error ("exit code " +:+ pretty returncode) evidence
      else
      let report := _json_object stdout in
      if negb (is_str (vget report "result") PREFLIGHT_PASSED_RESULT) then
        _preflight_error "output is not a passing deploy_application.py server dry-run report" evidence
      else
      let dry_run := default [] (as_map (vget report "serverDryRun")) in
      checks ← lift (py_list (py_or (vget dry_run "checks") (VList [])));
      not_simulated ← lift (py_list (py_or (vget dry_run "notSimulated") (VList [])));
      mret (dset "not_simulated" (VList (map (λ item, VStr (py_str item)) not_simulated))
             (dset "checks" (VList (map (λ item, VStr (py_str item)) checks))
               (dset "passed" (VBool true) evidence)))
  end.

(** [with tempfile.TemporaryDirectory(...) as dir]: what the removal raises replaces what the
    body did. *)
Definition and_remove {A} (body : st A) (dir : string) : st A := λ s,
  let (s', r) := body s in
  match file_call (λ _, Rmtree dir) s' with
  | (s'', Ok _) => (s'', r)
  | (s'', Err e) => (s'', Err e)
  end.
Definition with_tempdir {A} (prefix : string) (body : string → st A) : st A :=
  dir ← file_call (Mkdtemp prefix); and_remove (body dir) dir.

Definition is_True (v : val) : bool := match v with VBool b => b | _ => false end.
Definition is_False (v : val) : bool := match v with VBool b => negb b | _ => false end.

Definition replace_newlines (s : string) : string :=
  unchars (map (λ c, if bool_decide (c = ascii_of_N 10) then " "%char else c) (chars s)).

Definition _full_reinstall (trial_id : string) : st mapping :=
  let env := reinstall_env in
  '(preflight, deploy) ← with_tempdir (path_join (kubeconfig_parent self) (trial_id +:+ "-reset-")) (λ raw_private,
    let private_runtime := path_join raw_private (application self +:+ ".env") in
    file_call (λ _, CopyFile (runtime_env_file self) private_runtime) ;;
    file_call (λ _, Chmod private_runtime) ;;
    preflight ← _reinstall_preflight private_runtime env;
    uninstall ← run_or_raise uninstall_argv env (timeout_seconds self + 60);
    let '(code, _, stderr) := uninstall in
    when (negb (code =? 0) && negb (str_contains "release: not found" (str_lower stderr)))
      (reset_error "Helm uninstall of the system under test failed"
         [("stage", VStr "uninstall"); ("reinstall_preflight", VDict preflight);
          ("uninstall_exit_code", VInt code); ("uninstall_stderr_excerpt", VStr (_excerpt stderr))]) ;;
    deploy ← run_or_raise (_deploy_argv private_runtime false) env (timeout_seconds self + 180);
    mret (preflight, deploy));
  let '(code, stdout, stderr) := deploy in
  when (negb (code =? 0))
    (let detail := unchars (last_chars 600 (chars (replace_newlines (str_strip
                     (if nonempty stderr then stderr else stdout))))) in
     reset_error ("OTel Demo reinstallation failed: " +:+ detail)
       [("stage", VStr "reinstall"); ("uninstalled", VBool true); ("reinstall_preflight", VDict preflight);
        ("reinstall_exit_code", VInt code)]) ;;
  qualification ← evidence_call Qualify;
  traffic ← evidence_call (ResetAndWaitHealthy (recovery_timeout_seconds self) stability_samples);
  mret [("trial_id", VStr trial_id); ("uninstalled", VBool true); ("reinstalled", VBool true);
        ("verified", VBool (is_True (vget qualification "qualified") && is_True (vget traffic "business_healthy")));
        ("reinstall_preflight", VDict preflight); ("qualification", VDict qualification);
        ("traffic_recovery", VDict traffic)].

Definition _verify_environment (trial_id : string) (prior_evidence : mapping) : st mapping :=
  qualification ← evidence_call Qualify;
  traffic ← evidence_call CurrentTraffic;
  traffic ← (if is_True (vget traffic "business_healthy") then mret traffic
             else evidence_call (WaitUntilHealthy (recovery_timeout_seconds self) stability_samples));
  let prior_recovery := is_True (vget prior_evidence "fault_absent") &&
                        is_True (vget prior_evidence "business_recovery_verified") in
  let inventory_safe := negb (is_False (vget prior_evidence "chaos_inventory_clear")) in
  let traffic_verified := is_True (vget traffic "business_healthy") in
  mret [("trial_id", VStr trial_id); ("uninstalled", VBool false); ("reinstalled", VBool false);
        ("verify_only", VBool true);
        ("verified", VBool (is_True (vget qualification "qualified") && traffic_verified && inventory_safe));
        ("verification_source", VStr (if traffic_verified then "bounded_current_traffic" else "unverified"));
        ("prior_trial_recovery_verified", VBool prior_recovery); ("fault_inventory_safe", VBool inventory_safe);
        ("qualification", VDict qualification); ("traffic_recovery", VDict traffic)].

Definition _attach_policy (result : mapping) (decision : ResetPolicyDecision) (verified : bool) : mapping :=
  let policy := dset "allows_next_trial" (VBool verified) (dset "verified" (VBool verified) (decision_dict decision)) in
  let policy :=
    if negb verified && negb (existsb (String.eqb "RESET_VERIFICATION_MISSING") (rd_reason_codes decision))
    then dset "reason_codes" (VList (map VStr (rd_reason_codes decision ++ ["RESET_VERIFICATION_MISSING"]))) policy
    else policy in
  dset "reset_policy" (VDict policy) (dset "verified" (VBool verified) result).

Definition _recovery_unverified (trial_id : string) (decision : ResetPolicyDecision) : mapping :=
  _attach_policy
    [("trial_id", VStr trial_id); ("uninstalled", VBool false); ("reinstalled", VBool false);
     ("verify_only", VBool false); ("verified", VBool false);
     ("recovery_state", VStr (recovery_value (rd_recovery_state decision))); ("reinstall_withheld", VBool true);
     ("reason", from_option VStr VNone (rd_reinstall_block_reason decision))] decision false.

(** The [mutation_evidence] of a reset. *)
Inductive MutationEvidence := Observed (evidence : mapping) | Decided (decision : ResetPolicyDecision).

Definition decision_of (e : MutationEvidence) : ResetPolicyDecision :=
  match e with Observed d => classify_reset_policy (Some d) | Decided decision => decision end.

Definition reset_with_policy (trial_id : string) (mutation_evidence : MutationEvidence) : st mapping :=
  let source_evidence := match mutation_evidence with Observed d => d | Decided _ => [] end in
  let decision := decision_of mutation_evidence in
  if bool_decide (rd_tier decision = T3_FULL_REINSTALL) then
    if negb (rd_reinstall_authorized decision) then mret (_recovery_unverified trial_id decision)
    else
      result ← _full_reinstall trial_id;
      mret (_attach_policy result decision (is_True (vget result "verified")))
  else
    result ← _verify_environment trial_id source_evidence;
    mret (_attach_policy result decision (is_True (vget result "verified"))).

Definition reset (trial_id : string) (mutation_evidence : option MutationEvidence) : st mapping :=
  match mutation_evidence with
  | Some e => reset_with_policy trial_id e
  | None => if verify_only self then _verify_environment trial_id [] else _full_reinstall trial_id
  end.
End resetter.
