(* ===== verification/ResetterProps.v ===== *)
(** * What the resetter does to the system under test

    Whatever the commands, the file system and the checks answer: nothing is uninstalled
    before a dry run of the same reinstall has passed, and nothing is touched when the
    policy withholds the reinstall. *)

From S2P Require Import Prelude Hoare PyFloat PyVal ConditionPolicy ResetPolicy Resetter.

#[local] Open Scope Z_scope.

Section resets.
Context (self : OtelDemoResetter) (json_loads : string → option val) (on_run : list Call → RunAnswer)
  (on_file : list Call → result string) (on_evidence : list Call → result mapping).

#[local] Abbreviation st := (prog Ops).

(** The three commands of a reinstall. *)
Definition dry_run (private : string) : Call :=
  Run (_deploy_argv self private true) (reinstall_env self) (timeout_seconds self + 180).
Definition uninstall : Call := Run (uninstall_argv self) (reinstall_env self) (timeout_seconds self + 60).
Definition install (private : string) : Call :=
  Run (_deploy_argv self private false) (reinstall_env self) (timeout_seconds self + 180).

(** The command did not go wrong and its report says that every write would pass. *)
Definition passed (h : list Call) : Prop := ∃ out err d,
  on_run h = Completed 0 out err ∧ json_loads out = Some (VDict d) ∧ vget d "result" = VStr PREFLIGHT_PASSED_RESULT.

(** A call that changes nothing in the cluster. *)
Definition harmless (c : Call) : Prop := ∀ argv env t, c = Run argv env t → ∃ p, c = dry_run p.

(** The calls of a reset that had seen [h] before. *)
Inductive gated (h : list Call) : list Call → Prop :=
  | gated_untouched new : Forall harmless new → gated h new
  | gated_uninstalled before p rest : Forall harmless before → passed (h ++ before ++ [dry_run p]) →
      Forall harmless rest → gated h (before ++ dry_run p :: uninstall :: rest)
  | gated_reinstalled before p rest : Forall harmless before → passed (h ++ before ++ [dry_run p]) →
      Forall harmless rest → gated h (before ++ dry_run p :: uninstall :: install p :: rest).

(** What may have been called so far. *)
Definition since (h : list Call) (P : list Call → Prop) (s : Ops) : Prop := ∃ new, op_calls s = h ++ new ∧ P new.
Definition quiet : list Call → Prop := Forall harmless.
Definition ready (h : list Call) (p : string) (new : list Call) : Prop :=
  ∃ before, new = before ++ [dry_run p] ∧ quiet before ∧ passed (h ++ before ++ [dry_run p]).
Definition stripped (h : list Call) (p : string) (new : list Call) : Prop :=
  ∃ before, new = before ++ [dry_run p; uninstall] ∧ quiet before ∧ passed (h ++ before ++ [dry_run p]).
Definition rebuilt (h : list Call) (new : list Call) : Prop :=
  ∃ before p rest, new = before ++ dry_run p :: uninstall :: install p :: rest ∧ quiet before ∧
    passed (h ++ before ++ [dry_run p]) ∧ quiet rest.

Lemma since_weaken h (P Q : list Call → Prop) s : (∀ new, P new → Q new) → since h P s → since h Q s.
Proof. intros HPQ (new & ? & ?). exists new. auto. Qed.

Lemma quiet_gated h new : quiet new → gated h new.
Proof. apply gated_untouched. Qed.
Lemma ready_gated h p new : ready h p new → gated h new.
Proof.
  intros (before & -> & Hq & _). apply gated_untouched, Forall_app. split; [done|].
  constructor; [|constructor]. intros argv env t _. by exists p.
Qed.
Lemma stripped_gated h p new : stripped h p new → gated h new.
Proof. intros (before & -> & Hq & Hp). by apply gated_uninstalled. Qed.
Lemma rebuilt_gated h new : rebuilt h new → gated h new.
Proof. intros (before & p & rest & -> & Hq & Hp & Hr). by apply gated_reinstalled. Qed.

Lemma quiet_snoc new c : quiet new → harmless c → quiet (new ++ [c]).
Proof. intros. apply Forall_app. by repeat constructor. Qed.

Lemma gated_snoc h new c : gated h new → harmless c → gated h (new ++ [c]).
Proof.
  intros [] Hc.
  - apply gated_untouched. by apply quiet_snoc.
  - rewrite <- app_assoc. cbn. apply gated_uninstalled; [done..|]. by apply quiet_snoc.
  - rewrite <- app_assoc. cbn. apply gated_reinstalled; [done..|]. by apply quiet_snoc.
Qed.

Lemma rebuilt_snoc h new c : rebuilt h new → harmless c → rebuilt h (new ++ [c]).
Proof.
  intros (before & p & rest & -> & Hq & Hp & Hr) Hc. exists before, p, (rest ++ [c]). rewrite <- app_assoc. cbn.
  split_and!; [done..|]. by apply quiet_snoc.
Qed.

(** ** One call *)

Lemma since_called h (P Q : list Call → Prop) c s : (∀ new, P new → Q (new ++ [c])) → since h P s → since h Q (called c s).
Proof. intros HPQ (new & E & Hn). exists (new ++ [c]). cbn. rewrite E, app_assoc. auto. Qed.

Lemma file_call_triple h (P Q : list Call → Prop) c : (∀ d new, P new → Q (new ++ [c d])) →
  triple (since h P) (file_call on_file c) (λ _, since h Q) (since h Q).
Proof.
  intros HPQ s Hs. unfold file_call. destruct (on_file (op_calls s)); eapply since_called; eauto.
Qed.

Lemma evidence_call_triple h (P Q : list Call → Prop) c : (∀ new, P new → Q (new ++ [c])) →
  triple (since h P) (evidence_call on_evidence c) (λ _, since h Q) (since h Q).
Proof.
  intros HPQ s Hs. unfold evidence_call. cbv zeta.
  destruct (on_evidence (op_calls (called c s))); eapply since_called; eauto.
Qed.

Lemma runner_run_triple h (P Q : list Call → Prop) argv env t E : (∀ new, P new → Q (new ++ [Run argv env t])) →
  triple (since h P) (runner_run on_run argv env t)
    (λ a, since h (λ new, Q new ∧ a = on_run (h ++ new))) E.
Proof.
  intros HPQ s (new & Es & Hn). unfold runner_run. cbv zeta. exists (new ++ [Run argv env t]). cbn.
  rewrite Es, <- app_assoc. auto.
Qed.

Lemma run_or_raise_triple h (P Q : list Call → Prop) argv env t : (∀ new, P new → Q (new ++ [Run argv env t])) →
  triple (since h P) (run_or_raise on_run argv env t) (λ _, since h Q) (since h Q).
Proof.
  intros HPQ. unfold run_or_raise. eapply triple_bind; [by apply runner_run_triple|].
  intros a. apply triple_lift; intros s; [intros ? Hs _|intros Hs]; revert Hs; apply since_weaken; by intros ? [].
Qed.

Lemma reset_error_triple {A} h (P : list Call → Prop) message evidence (Q : A → Ops → Prop) :
  triple (since h P) (reset_error message evidence) Q (since h P).
Proof. intros s (new & E & Hn). exists new. by split. Qed.

Lemma harmless_other c : (∀ argv env t, c ≠ Run argv env t) → harmless c.
Proof. intros H argv env t E. by destruct (H argv env t). Qed.

Lemma harmless_dry p : harmless (dry_run p).
Proof. intros argv env t _. by exists p. Qed.

(** ** The reinstall *)

Lemma preflight_triple h p :
  triple (since h quiet) (_reinstall_preflight self json_loads on_run p (reinstall_env self))
    (λ _, since h (ready h p)) (since h quiet).
Proof.
  unfold _reinstall_preflight. cbv zeta.
  eapply triple_bind.
  { apply (runner_run_triple h quiet (λ new, quiet new ∧ ∃ before, new = before ++ [dry_run p] ∧ quiet before)).
    intros new Hn. split; [apply quiet_snoc; [done|apply harmless_dry]|]. by exists new. }
  set (asked := λ new, quiet new ∧ ∃ before, new = before ++ [dry_run p] ∧ quiet before).
  assert (∀ a reason evidence (Q : mapping → Ops → Prop),
    triple (since h (λ new, asked new ∧ a = on_run (h ++ new))) (_preflight_error reason evidence) Q (since h quiet)) as Hfail.
  { intros a reason evidence Q. eapply triple_pre; [|apply reset_error_triple]. intros s. apply since_weaken. by intros ? [[] ?]. }
  intros [code out err|err|e]; [|apply Hfail|apply Hfail].
  destruct (negb (code =? 0)) eqn:Ecode; [apply Hfail|]. destruct (negb (is_str _ _)) eqn:Ereport; [apply Hfail|].
  apply negb_false_iff, Z.eqb_eq in Ecode as ->. apply negb_false_iff, is_str_true in Ereport.
  assert (∀ new, asked new ∧ Completed 0 out err = on_run (h ++ new) → ready h p new) as Hready.
  { intros new [[_ (before & -> & Hq)] E]. exists before. split_and!; [done..|]. exists out, err.
    unfold _json_object in Ereport. destruct (json_loads out) as [[| | | | | |d]|] eqn:Ej; try done. by exists d. }
  assert (∀ new, asked new ∧ Completed 0 out err = on_run (h ++ new) → quiet new) as Hquiet by (by intros ? [[] _]).
  do 2 (eapply triple_bind; [apply triple_lift with (Q := λ _, since h (λ new, asked new ∧ Completed 0 out err = on_run (h ++ new)));
    [by intros|by intros s; apply since_weaken]|intros ?]).
  apply triple_ret. intros s. by apply since_weaken.
Qed.

Lemma and_remove_triple {A} h (body : st A) dir (P : Ops → Prop) (Q : A → list Call → Prop) (R : list Call → Prop) :
  triple P body (λ a, since h (Q a)) (since h R) →
  (∀ a new, Q a new → Q a (new ++ [Rmtree dir])) → (∀ new, R new → R (new ++ [Rmtree dir])) →
  (∀ a new, Q a new → R new) →
  triple P (and_remove on_file body dir) (λ a, since h (Q a)) (since h R).
Proof.
  intros Hb HQ HR HQR s Hs. unfold and_remove. specialize (Hb s Hs). destruct (body s) as [s1 [a|e]].
  - pose proof (file_call_triple h (Q a) (Q a) (λ _, Rmtree dir) (λ _, HQ a) s1 Hb) as H.
    destruct (file_call on_file _ s1) as [s2 [d|e]]; [done|]. revert H. apply since_weaken, HQR.
  - pose proof (file_call_triple h R R (λ _, Rmtree dir) (λ _, HR) s1 Hb) as H.
    by destruct (file_call on_file _ s1) as [s2 [d|e']].
Qed.

Lemma quiet_step h c : (∀ argv env t, c ≠ Run argv env t) → ∀ new, (quiet new → quiet (new ++ [c])) ∧
  (gated h new → gated h (new ++ [c])) ∧ (rebuilt h new → rebuilt h (new ++ [c])).
Proof.
  intros H new. apply harmless_other in H. split_and!; intros ?.
  - by apply quiet_snoc.
  - by apply gated_snoc.
  - by apply rebuilt_snoc.
Qed.

(** The part of a reinstall between the creation and the removal of the private directory. *)
Definition reinstall_body (raw_private : string) : st (mapping * (Z * string * string)) :=
  let private_runtime := path_join raw_private (application self +:+ ".env") in
  file_call on_file (λ _, CopyFile (runtime_env_file self) private_runtime) ;;
  file_call on_file (λ _, Chmod private_runtime) ;;
  preflight ← _reinstall_preflight self json_loads on_run private_runtime (reinstall_env self);
  uninstall ← run_or_raise on_run (uninstall_argv self) (reinstall_env self) (timeout_seconds self + 60);
  let '(code, _, stderr) := uninstall in
  when (negb (code =? 0) && negb (str_contains "release: not found" (str_lower stderr)))
    (reset_error "Helm uninstall of the system under test failed"
       [("stage", VStr "uninstall"); ("reinstall_preflight", VDict preflight);
        ("uninstall_exit_code", VInt code); ("uninstall_stderr_excerpt", VStr (_excerpt stderr))]) ;;
  deploy ← run_or_raise on_run (_deploy_argv self private_runtime false) (reinstall_env self) (timeout_seconds self + 180);
  mret (preflight, deploy).

Lemma triple_when_error {A} h (P R : list Call → Prop) b message evidence (f : unit → st A) (Q : A → Ops → Prop) :
  (∀ new, P new → R new) → triple (since h P) (f tt) Q (since h R) →
  triple (since h P) (when b (reset_error message evidence) ≫= f) Q (since h R).
Proof.
  intros HPR Hf. destruct b; cbn [when].
  - intros s Hs. rewrite prog_bind_eq. unfold reset_error. cbn. destruct Hs as (new & E & Hn). exists new. auto.
  - eapply triple_bind; [apply (triple_ret tt) with (Q := λ _, since h P); auto|]. by intros [].
Qed.

Lemma reinstall_body_triple h raw_private :
  triple (since h quiet) (reinstall_body raw_private) (λ _, since h (rebuilt h)) (since h (gated h)).
Proof.
  unfold reinstall_body. cbv zeta. set (p := path_join raw_private _).
  assert (∀ s, since h quiet s → since h (gated h) s) as Hq by (intros s; apply since_weaken, quiet_gated).
  do 2 (eapply triple_bind;
    [eapply triple_post with (Q' := λ _, since h quiet); [apply file_call_triple; intros d new; by apply (quiet_step h)|intros ? ? Hs; exact Hs|exact Hq]
    |intros ?]).
  eapply triple_bind; [eapply triple_post; [apply preflight_triple|intros ? ? Hs; exact Hs|exact Hq]|].
  intros preflight. eapply triple_bind.
  { eapply triple_post; [apply (run_or_raise_triple h (ready h p) (stripped h p))| |].
    - intros new (before & -> & Hb & Hp). exists before. by rewrite <- app_assoc.
    - intros ? ? Hs. exact Hs.
    - intros s. apply since_weaken, stripped_gated. }
  intros [[code out] err]. apply triple_when_error; [by apply stripped_gated|].
  eapply triple_bind with (Q := λ _, since h (rebuilt h)); [|intros deploy; by apply triple_ret].
  eapply triple_post; [apply (run_or_raise_triple h (stripped h p) (rebuilt h))| |].
  - intros new (before & -> & Hb & Hp). exists before, p, []. rewrite <- app_assoc. split_and!; [done..|constructor].
  - intros ? ? Hs; exact Hs.
  - intros s. apply since_weaken, rebuilt_gated.
Qed.

Lemma reinstall_triple h trial_id :
  triple (since h quiet) (_full_reinstall self json_loads on_run on_file on_evidence trial_id)
    (λ result, since h (λ new, rebuilt h new)) (since h (gated h)).
Proof.
  unfold _full_reinstall. cbv zeta. eapply triple_bind.
  { unfold with_tempdir. eapply triple_bind.
    - eapply triple_post with (Q' := λ _, since h quiet);
        [apply file_call_triple; intros d new; by apply (quiet_step h)|intros ? ? Hs; exact Hs|intros s; apply since_weaken, quiet_gated].
    - intros dir. apply (and_remove_triple h _ dir (since h quiet) (λ _, rebuilt h) (gated h)).
      + apply reinstall_body_triple.
      + intros _ new. by apply quiet_step.
      + intros new. by apply quiet_step.
      + intros _ new. apply rebuilt_gated. }
  intros [preflight [[code out] err]]. apply triple_when_error; [by apply rebuilt_gated|].
  do 2 (eapply triple_bind;
    [eapply triple_post with (Q' := λ _, since h (rebuilt h));
       [apply evidence_call_triple; intros new; by apply quiet_step|intros ? ? Hs; exact Hs|intros s; apply since_weaken, rebuilt_gated]
    |intros ?]).
  by apply triple_ret.
Qed.
(** ** Verification *)

(** Not a command. *)
Definition no_command (c : Call) : Prop := ∀ argv env t, c ≠ Run argv env t.

Lemma verify_triple h trial_id prior :
  triple (since h (Forall no_command)) (_verify_environment self on_evidence trial_id prior)
    (λ _, since h (Forall no_command)) (since h (Forall no_command)).
Proof.
  assert (∀ c, no_command c → ∀ new, Forall no_command new → Forall no_command (new ++ [c])) as Hsnoc.
  { intros. apply Forall_app. by repeat constructor. }
  unfold _verify_environment. do 2 (eapply triple_bind; [by apply evidence_call_triple, Hsnoc|intros ?]).
  eapply triple_bind with (Q := λ _, since h (Forall no_command)); [|intros ?; by apply triple_ret].
  destruct (is_True _); [by apply triple_ret|]. by apply evidence_call_triple, Hsnoc.
Qed.

Lemma no_commands_gated h new : Forall no_command new → gated h new.
Proof.
  intros H. apply gated_untouched. eapply Forall_impl; [exact H|]. intros c Hc. by apply harmless_other.
Qed.

(** The evidence lets the platform reinstall. *)
Definition reinstall_allowed (evidence : option MutationEvidence) : Prop :=
  match evidence with
  | Some e => rd_tier (decision_of e) = T3_FULL_REINSTALL ∧ rd_reinstall_authorized (decision_of e) = true
  | None => verify_only self = false
  end.

#[local] Abbreviation reset_run := (reset self json_loads on_run on_file on_evidence).

Lemma since_start s P : P [] → since (op_calls s) P s.
Proof. intros. exists []. by rewrite app_nil_r. Qed.

(** What a program of one branch does, from its triple. *)
Lemma branch_calls {A} (m : st A) s P Q :
  triple (since (op_calls s) P) m (λ _, since (op_calls s) Q) (since (op_calls s) Q) → P [] →
  ∃ new, op_calls (m s).1 = op_calls s ++ new ∧ Q new.
Proof.
  intros H HP. specialize (H s (since_start s P HP)). by destruct (m s) as [s' [a|e]].
Qed.

Lemma bind_ret_state {A B} (m : st A) (f : A → B) s : ((a ← m; mret (f a)) s).1 = (m s).1.
Proof. rewrite prog_bind_eq. by destruct (m s) as [s' [a|e]]. Qed.

Lemma verify_calls trial_id prior s : ∃ new,
  op_calls (_verify_environment self on_evidence trial_id prior s).1 = op_calls s ++ new ∧ Forall no_command new.
Proof. eapply branch_calls; [apply verify_triple|constructor]. Qed.

Lemma reinstall_calls trial_id s : ∃ new,
  op_calls (_full_reinstall self json_loads on_run on_file on_evidence trial_id s).1 = op_calls s ++ new ∧
  gated (op_calls s) new.
Proof.
  eapply branch_calls with (P := quiet); [|constructor].
  eapply triple_post; [apply reinstall_triple| |by intros]. intros a s'. apply since_weaken, rebuilt_gated.
Qed.

Lemma reset_calls trial_id evidence s : ∃ new,
  op_calls (reset_run trial_id evidence s).1 = op_calls s ++ new ∧ gated (op_calls s) new ∧
  (reinstall_allowed evidence ∨ Forall no_command new).
Proof.
  assert (∀ prior, ∃ new,
    op_calls (_verify_environment self on_evidence trial_id prior s).1 = op_calls s ++ new ∧
    gated (op_calls s) new ∧ (reinstall_allowed evidence ∨ Forall no_command new)) as Hverify.
  { intros prior. destruct (verify_calls trial_id prior s) as (new & -> & H).
    exists new. eauto using no_commands_gated. }
  unfold reset. destruct evidence as [e|]; cbn [reinstall_allowed] in *.
  - unfold reset_with_policy. case_bool_decide as Et; [|rewrite bind_ret_state; apply Hverify].
    destruct (rd_reinstall_authorized (decision_of e)) eqn:Ea; cbn [negb].
    + rewrite bind_ret_state. destruct (reinstall_calls trial_id s) as (new & Hn & H).
      exists new. split_and!; [exact Hn|done|by left].
    + exists []. cbn. rewrite app_nil_r. split_and!; [done|by apply gated_untouched|by right].
  - destruct (verify_only self); [apply Hverify|].
    destruct (reinstall_calls trial_id s) as (new & Hn & H). exists new. split_and!; [exact Hn|done|by left].
Qed.

(** C21: Whatever the commands, the file system and the checks answer, a reset uninstalls the
    system under test at most once, only right after a dry run of the same reinstall has
    passed, and only when the evidence or the operator allows a reinstall; otherwise it runs
    no command at all. *)
Theorem reset_gated trial_id evidence s :
  let (s', _) := reset_run trial_id evidence s in
  ∃ new, op_calls s' = op_calls s ++ new ∧ gated (op_calls s) new ∧
    (reinstall_allowed evidence ∨ Forall no_command new).
Proof. pose proof (reset_calls trial_id evidence s) as H. by destruct (reset_run trial_id evidence s). Qed.

Lemma attach_verified result d v : vget (_attach_policy result d v) "verified" = VBool v.
Proof. unfold _attach_policy. by rewrite vget_dset_ne, vget_dset_eq. Qed.

Lemma attach_other result d v k : k ≠ "verified" → k ≠ "reset_policy" → vget (_attach_policy result d v) k = vget result k.
Proof. intros. unfold _attach_policy. by rewrite !vget_dset_ne. Qed.

Lemma attach_policy result d v : ∃ policy, vget (_attach_policy result d v) "reset_policy" = VDict policy ∧
  vget policy "allows_next_trial" = VBool v ∧ vget policy "verified" = VBool v ∧
  vget policy "tier" = VStr (tier_value (rd_tier d)).
Proof.
  unfold _attach_policy. rewrite vget_dset_eq. eexists. split; [done|].
  destruct (_ && _); split_and!; by repeat first [rewrite vget_dset_eq | rewrite vget_dset_ne by done].
Qed.

(** When the evidence reports an unverified recovery and no operator named a tier, a reset runs
    no command; when a rollback failed it makes no call at all and returns an unverified
    result with the reason. *)
Theorem unverified_recovery_untouched trial_id data s :
  _explicit_tier data = None → unverified data →
  let (s', r) := reset_run trial_id (Some (Observed data)) s in
  (∃ new, op_calls s' = op_calls s ++ new ∧ Forall no_command new) ∧
  (_rollback_failed data = true → s' = s ∧ ∃ result, r = Ok result ∧
     vget result "verified" = VBool false ∧ vget result "uninstalled" = VBool false ∧
     ∃ reason, vget result "reason" = VStr reason).
Proof.
  intros He Hu. assert (rd_reinstall_authorized (classify_reset_policy (Some data)) = false) as Ha
    by (by apply withheld_iff).
  pose proof (reset_calls trial_id (Some (Observed data)) s) as (new & Hn & _ & Hc).
  destruct (reset_run trial_id (Some (Observed data)) s) as [s' r] eqn:Er. split.
  - exists new. split; [exact Hn|]. destruct Hc as [[_ Hc]|Hc]; [|exact Hc]. cbn [decision_of] in Hc.
    rewrite Ha in Hc. discriminate.
  - intros Hf. assert (rd_tier (classify_reset_policy (Some data)) = T3_FULL_REINSTALL) as Ht.
    { rewrite decision_tier. cbn [evidence_data default]. change (id data) with data. rewrite He. apply infer_reinstall.
      rewrite unknown_or_failed_eq. change (rollback_failed (_summarize data)) with (_rollback_failed data). by rewrite Hf. }
    unfold reset, reset_with_policy in Er. cbn [decision_of] in Er. rewrite (bool_decide_true _ Ht), Ha in Er.
    cbn [negb] in Er. injection Er as <- <-. split; [done|]. eexists. split; [done|].
    pose proof (block_reason_some (Some data)) as Hb. rewrite Ha in Hb. destruct Hb as [reason Hb]; [done|].
    unfold _recovery_unverified. rewrite attach_verified, !attach_other, Hb by done. split_and!; [done..|]. by exists reason.
Qed.

(** ** What a verified reset rests on *)

Definition answered (h : list Call) (c : Call) (m : mapping) (s : Ops) : Prop :=
  (h ++ [c]) `prefix_of` op_calls s ∧ on_evidence (h ++ [c]) = Ok m.

Definition is_traffic (c : Call) : Prop :=
  match c with CurrentTraffic | WaitUntilHealthy _ _ | ResetAndWaitHealthy _ _ => True | _ => False end.

(** The gate qualified the environment, and then the business was seen healthy. *)
Definition environment_good (s : Ops) : Prop := ∃ h c q t,
  answered h Qualify q s ∧ vget q "qualified" = VBool true ∧
  is_traffic c ∧ (∃ h', answered ((h ++ [Qualify]) ++ h') c t s) ∧ vget t "business_healthy" = VBool true.

Lemma is_True_true v : is_True v = true → v = VBool true.
Proof. by destruct v as [|[]| | | | |]. Qed.

Lemma evidence_Ok c s s' m : evidence_call on_evidence c s = (s', Ok m) →
  s' = called c s ∧ on_evidence (op_calls s ++ [c]) = Ok m.
Proof. unfold evidence_call. cbv zeta. cbn. by intros [= <- ->]. Qed.

Lemma good_intro s c q t h' : is_traffic c → on_evidence (op_calls s ++ [Qualify]) = Ok q →
  on_evidence (((op_calls s ++ [Qualify]) ++ h') ++ [c]) = Ok t → vget q "qualified" = VBool true →
  vget t "business_healthy" = VBool true → ∀ s', op_calls s' = ((op_calls s ++ [Qualify]) ++ h') ++ [c] → environment_good s'.
Proof.
  intros Hc Hq Ht Hqt Htt s' Hs. exists (op_calls s), c, q, t. unfold answered. rewrite Hs. split_and!; try done.
  - rewrite <- app_assoc. by apply prefix_app_r.
  - exists h'. by split.
Qed.

Lemma verify_good trial_id prior s s' result :
  _verify_environment self on_evidence trial_id prior s = (s', Ok result) →
  vget result "verified" = VBool true → environment_good s'.
Proof.
  unfold _verify_environment. intros H. run_inv.
  repeat match goal with H : evidence_call _ _ _ = (_, Ok _) |- _ => apply evidence_Ok in H as [-> ?] end.
  cbn. intros [= Hv]. apply andb_true_iff in Hv as [[Hq%is_True_true Ht]%andb_true_iff _].
  destruct (is_True (vget a0 "business_healthy")) eqn:E; run_inv.
  - apply is_True_true in E. eapply (good_intro s CurrentTraffic _ _ []); try done; cbn; by rewrite app_nil_r.
  - match goal with H : evidence_call _ _ _ = (_, Ok _) |- _ => apply evidence_Ok in H as [-> ?] end.
    apply is_True_true in Ht. by eapply (good_intro s (WaitUntilHealthy _ _) _ _ [CurrentTraffic]).
Qed.

Lemma reinstall_good trial_id s s' result :
  _full_reinstall self json_loads on_run on_file on_evidence trial_id s = (s', Ok result) →
  vget result "verified" = VBool true → environment_good s'.
Proof.
  unfold _full_reinstall. intros H. apply run_Ok_inv in H as (s1 & [preflight [[code out] err]] & _ & H).
  apply run_Ok_inv in H as (s2 & [] & _ & H). run_inv.
  repeat match goal with H : evidence_call _ _ _ = (_, Ok _) |- _ => apply evidence_Ok in H as [-> ?] end.
  cbn. intros [= [Hq%is_True_true Ht%is_True_true]%andb_true_iff].
  eapply (good_intro s2 (ResetAndWaitHealthy _ _) _ _ []); try done; cbn; by rewrite app_nil_r.
Qed.

Lemma reinstall_rebuilds trial_id s s' result :
  _full_reinstall self json_loads on_run on_file on_evidence trial_id s = (s', Ok result) →
  since (op_calls s) (rebuilt (op_calls s)) s'.
Proof.
  intros H. pose proof (reinstall_triple (op_calls s) trial_id s (since_start s quiet (Forall_nil_2 _))) as Ht.
  by rewrite H in Ht.
Qed.

(** A verified reset has seen the gate qualify the environment and then the business healthy,
    allows the next Trial, and has installed the system when the tier was a reinstall. *)
Theorem reset_verified_sound trial_id evidence s s' result :
  reset_run trial_id evidence s = (s', Ok result) → vget result "verified" = VBool true →
  environment_good s' ∧
  (∀ e, evidence = Some e → ∃ policy, vget result "reset_policy" = VDict policy ∧
     vget policy "allows_next_trial" = VBool true ∧ vget policy "tier" = VStr (tier_value (rd_tier (decision_of e))) ∧
     (rd_tier (decision_of e) = T3_FULL_REINSTALL → since (op_calls s) (rebuilt (op_calls s)) s')).
Proof.
  unfold reset. destruct evidence as [e|].
  - unfold reset_with_policy. case_bool_decide as Et; [destruct (rd_reinstall_authorized (decision_of e)); cbn [negb]|].
    + intros H. run_inv. rewrite attach_verified. intros Hv. pose proof Hv as [= Hv'].
      apply is_True_true in Hv'. split; [by eapply reinstall_good|]. intros ? [= <-].
      destruct (attach_policy a (decision_of e) (is_True (vget a "verified"))) as (policy & Hp & Hallow & _ & Htier).
      exists policy. rewrite Hp, Hallow. rewrite Hv' in *. split_and!; [done..|]. intros _. by eapply reinstall_rebuilds.
    + intros [= <- <-]. unfold _recovery_unverified. rewrite attach_verified. done.
    + intros H. run_inv. rewrite attach_verified. intros Hv. pose proof Hv as [= Hv'].
      apply is_True_true in Hv'. split; [by eapply verify_good|]. intros ? [= <-].
      destruct (attach_policy a (decision_of e) (is_True (vget a "verified"))) as (policy & Hp & Hallow & _ & Htier).
      exists policy. rewrite Hp, Hallow. rewrite Hv' in *. by split_and!.
  - intros H Hv. split; [|done]. destruct (verify_only self); [by eapply verify_good|by eapply reinstall_good].
Qed.
End resets.

(** ** A reset that runs *)

Definition demo_resetter : OtelDemoResetter := {|
  application := "otel-demo"; namespace := "otel-demo-03"; repo_root := "/repo"; kubeconfig := "/kube/config";
  kubeconfig_parent := "/kube"; runtime_env_file := "/run.env"; chart_file := "/chart.tgz"; timeout_seconds := 120;
  recovery_timeout_seconds := 180; verify_only := false; sys_executable := "python3"; environ := [] |}.

Definition demo_loads (text : string) : option val :=
  if String.eqb text "report" then Some (VDict [("result", VStr PREFLIGHT_PASSED_RESULT)]) else None.
Definition demo_run (h : list Call) : RunAnswer := Completed 0 "report" "".
Definition demo_file (h : list Call) : result string := Ok "/kube/t-reset-1".
Definition demo_answers (h : list Call) : result mapping :=
  Ok [("qualified", VBool true); ("business_healthy", VBool true)].
Definition demo_reset : option MutationEvidence → Ops * result mapping := λ evidence,
  reset demo_resetter demo_loads demo_run demo_file demo_answers "t" evidence {| op_calls := []; op_error := [] |}.

Definition demo_failed : mapping := [("rollback_attempted", VBool true); ("rolled_back", VBool false)].

Lemma unverified_recovery_untouched_witness :
  unverified demo_failed ∧ op_calls (demo_reset (Some (Observed demo_failed))).1 = [].
Proof.
  assert (_explicit_tier demo_failed = None) as He by (vm_compute; reflexivity).
  assert (unverified demo_failed) as Hu by (by apply unverified_test_iff; vm_compute; reflexivity).
  split; [exact Hu|].
  pose proof (unverified_recovery_untouched demo_resetter demo_loads demo_run demo_file demo_answers "t" demo_failed
    {| op_calls := []; op_error := [] |} He Hu) as H.
  unfold demo_reset. destruct (reset _ _ _ _ _ _ _ _) as [s' r]. destruct H as [_ H].
  destruct H as [-> _]; [vm_compute; reflexivity|]. reflexivity.
Defined.

Lemma reset_verified_sound_witness :
  environment_good demo_answers (demo_reset (Some (Observed [("reset_tier", VStr "t3")]))).1.
Proof.
  eapply (reset_verified_sound demo_resetter demo_loads demo_run demo_file demo_answers "t"
    (Some (Observed [("reset_tier", VStr "t3")])) {| op_calls := []; op_error := [] |} _
    (ok_or [] (demo_reset (Some (Observed [("reset_tier", VStr "t3")]))).2)); vm_compute; reflexivity.
Defined.

(** The demo reinstalls: dry run, uninstall, install. *)
Example demo_commands :
  let commands := List.filter (λ c, match c with Run _ _ _ => true | _ => false end)
                    (op_calls (demo_reset (Some (Observed [("reset_tier", VStr "t3")]))).1) in
  commands = [dry_run demo_resetter "/kube/t-reset-1/otel-demo.env"; uninstall demo_resetter;
              install demo_resetter "/kube/t-reset-1/otel-demo.env"].
Proof. vm_compute. reflexivity. Qed.
