(* ===== verification/DisturbanceTypes.v ===== *)
(** * Disturbance contracts ([disturbances/types.py])

    The enumerations, trigger specifications, definitions, instantiated
    specifications and lifecycle events of controller-owned disturbances, with
    their readers ([from_mapping]), validators and printers ([as_dict]), the
    replay seed, and the library loader. *)

From Stdlib Require Import QArith.
From S2P Require Import Prelude PyFloat PyVal PyTime Sha256.

#[local] Open Scope Z_scope.

Inductive DisturbancePhase := EXECUTION | OBSERVATION | VERIFICATION | ABORT.

Inductive DisturbanceType :=
  | TARGET_DRIFT | RESOURCE_QUOTA_REDUCTION | TELEMETRY_INSTABILITY | METRIC_DATA_GAP
  | FAULT_EFFECT_DEVIATION | BASELINE_DRIFT | SAFETY_THRESHOLD_PRESSURE | CLEANUP_DELAY.

Inductive TriggerMode := LIFECYCLE_EVENT | TOOL_CALL_SEQUENCE | TIME_OFFSET.

#[export] Instance DisturbancePhase_eq_dec : EqDecision DisturbancePhase.
Proof. solve_decision. Defined.
#[export] Instance DisturbanceType_eq_dec : EqDecision DisturbanceType.
Proof. solve_decision. Defined.
#[export] Instance TriggerMode_eq_dec : EqDecision TriggerMode.
Proof. solve_decision. Defined.

Definition phase_value (p : DisturbancePhase) : string :=
  match p with
  | EXECUTION => "execution" | OBSERVATION => "observation"
  | VERIFICATION => "verification" | ABORT => "abort"
  end.

Definition type_value (t : DisturbanceType) : string :=
  match t with
  | TARGET_DRIFT => "target_drift"
  | RESOURCE_QUOTA_REDUCTION => "resource_quota_reduction"
  | TELEMETRY_INSTABILITY => "telemetry_instability"
  | METRIC_DATA_GAP => "metric_data_gap"
  | FAULT_EFFECT_DEVIATION => "fault_effect_deviation"
  | BASELINE_DRIFT => "baseline_drift"
  | SAFETY_THRESHOLD_PRESSURE => "safety_threshold_pressure"
  | CLEANUP_DELAY => "cleanup_delay"
  end.

Definition mode_value (m : TriggerMode) : string :=
  match m with
  | LIFECYCLE_EVENT => "lifecycle_event"
  | TOOL_CALL_SEQUENCE => "tool_call_sequence"
  | TIME_OFFSET => "time_offset"
  end.

(** Iteration order of the enumerations. *)
Definition all_phases : list DisturbancePhase := [EXECUTION; OBSERVATION; VERIFICATION; ABORT].
Definition all_types : list DisturbanceType :=
  [TARGET_DRIFT; RESOURCE_QUOTA_REDUCTION; TELEMETRY_INSTABILITY; METRIC_DATA_GAP;
   FAULT_EFFECT_DEVIATION; BASELINE_DRIFT; SAFETY_THRESHOLD_PRESSURE; CLEANUP_DELAY].
Definition all_modes : list TriggerMode := [LIFECYCLE_EVENT; TOOL_CALL_SEQUENCE; TIME_OFFSET].

(** [SomeEnum(value)]: the member with that value, else [ValueError]. *)
Definition enum_of {A} (members : list A) (value_of : A → string) (cls s : string) : result A :=
  opt_or_raise (List.find (λ a, bool_decide (value_of a = s)) members) ValueError
    (repr_string s +:+ " is not a valid " +:+ cls).

Definition phase_of (s : string) : result DisturbancePhase :=
  enum_of all_phases phase_value "DisturbancePhase" s.
Definition type_of (s : string) : result DisturbanceType :=
  enum_of all_types type_value "DisturbanceType" s.
Definition mode_of (s : string) : result TriggerMode :=
  enum_of all_modes mode_value "TriggerMode" s.

(** ** Readers *)

Definition _mapping (value : val) : result mapping :=
  opt_or_raise (as_map value) ValueError "expected a mapping".

Definition _strings (value : val) : result (list string) :=
  match value with
  | VList l =>
      if forallb (λ item, match item with VStr s => nonempty s | _ => false end) l
      then Ok (omap as_str l)
      else raise ValueError "expected a list of non-empty strings"
  | _ => raise ValueError "expected a list of non-empty strings"
  end.

Definition _optional_text (value : val) : option string :=
  if is_none value then None else Some (py_str value).
Definition _optional_int (value : val) : result (option Z) :=
  if is_none value then Ok None else Some <$> py_int value.
Definition _optional_float (value : val) : result (option pyfloat) :=
  if is_none value then Ok None else Some <$> py_float value.

(** ** Triggers *)

Record TriggerSpec := {
  mode : TriggerMode;
  trigger_phase : DisturbancePhase;
  event : option string;
  tool : option string;
  occurrence : option Z;
  offset_seconds : option pyfloat }.

Definition opt_truthy (s : option string) : bool :=
  match s with Some s => nonempty s | None => false end.

Definition trigger_validate (t : TriggerSpec) : result unit :=
  require (negb (bool_decide (mode t = LIFECYCLE_EVENT) && negb (opt_truthy (event t))))
    ValueError "lifecycle_event triggers require event" ;;
  require (negb (bool_decide (mode t = TOOL_CALL_SEQUENCE) &&
           (negb (opt_truthy (tool t)) ||
            match occurrence t with None => true | Some n => n <? 1 end)))
    ValueError "tool_call_sequence triggers require tool and occurrence >= 1" ;;
  require (negb (bool_decide (mode t = TIME_OFFSET) &&
           match offset_seconds t with None => true | Some x => flt x (FFin 0) end))
    ValueError "time_offset triggers require offset_seconds >= 0".

Definition trigger_from_mapping (value : mapping) : result TriggerSpec :=
  m ← vitem value "mode"; m ← mode_of (py_str m);
  p ← vitem value "phase"; p ← phase_of (py_str p);
  occ ← _optional_int (vget value "occurrence");
  off ← _optional_float (vget value "offset_seconds");
  let t := {| mode := m; trigger_phase := p;
              event := _optional_text (vget value "event");
              tool := _optional_text (vget value "tool");
              occurrence := occ; offset_seconds := off |} in
  trigger_validate t ;; Ok t.

Definition opt_field {A} (k : string) (f : A → val) (o : option A) : mapping :=
  match o with Some a => [(k, f a)] | None => [] end.

Definition trigger_as_dict (t : TriggerSpec) : mapping :=
  [("mode", VStr (mode_value (mode t))); ("phase", VStr (phase_value (trigger_phase t)))] ++
  opt_field "event" VStr (event t) ++ opt_field "tool" VStr (tool t) ++
  opt_field "occurrence" VInt (occurrence t) ++
  opt_field "offset_seconds" VFloat (offset_seconds t).

(** ** Definitions *)

Record DisturbanceDefinition := {
  def_type : DisturbanceType;
  def_phase : DisturbancePhase;
  description : string;
  def_backend : string;
  def_trigger : TriggerSpec;
  def_action : mapping;
  def_parameters : mapping;
  def_expected_behaviors : list string;
  def_verification : list string;
  evidence_source : string;
  reproducible : bool }.

Definition definition_validate (d : DisturbanceDefinition) : result unit :=
  let fail msg := type_value (def_type d) +:+ ": " +:+ msg in
  require (bool_decide (def_phase d = trigger_phase (def_trigger d))) ValueError
    (fail "definition phase and trigger phase differ") ;;
  require (bool_decide (evidence_source d = "controller_record")) ValueError
    (fail "evidence_source must be controller_record") ;;
  require (reproducible d) ValueError (fail "disturbances must be reproducible") ;;
  require (negb (empty (def_expected_behaviors d) || empty (def_verification d))) ValueError
    (fail "expected_behaviors and verification are required") ;;
  require (nonempty (def_backend d) && negb (empty (def_action d))) ValueError
    (fail "backend and action are required").

Definition definition_from_mapping (value : mapping) : result DisturbanceDefinition :=
  ty ← vitem value "type"; ty ← type_of (py_str ty);
  ph ← vitem value "phase"; ph ← phase_of (py_str ph);
  desc ← vitem value "description";
  be ← vitem value "backend";
  tr ← vitem value "trigger"; tr ← _mapping tr; tr ← trigger_from_mapping tr;
  act ← vitem value "action"; act ← _mapping act;
  params ← _mapping (vget_or value "parameters" (VDict []));
  beh ← _strings (vget_or value "expected_behaviors" (VList []));
  ver ← _strings (vget_or value "verification" (VList []));
  let d := {| def_type := ty; def_phase := ph; description := py_str desc;
              def_backend := py_str be; def_trigger := tr; def_action := act;
              def_parameters := params; def_expected_behaviors := beh; def_verification := ver;
              evidence_source :=
                py_str (vget_or value "evidence_source" (VStr "controller_record"));
              reproducible := py_bool (vget_or value "reproducible" (VBool true)) |} in
  definition_validate d ;; Ok d.

(** ** Instantiated specifications *)

Record DisturbanceSpec := {
  disturbance_id : string;
  spec_type : DisturbanceType;
  spec_phase : DisturbancePhase;
  backend : string;
  trigger : TriggerSpec;
  action : mapping;
  parameters : mapping;
  expected_behaviors : list string;
  verification : list string;
  replay_seed : option Z }.

Definition instantiate (self : DisturbanceDefinition) (disturbance_id : string)
    (replay_seed : Z) (params : option mapping) (tr : option TriggerSpec) : DisturbanceSpec := {|
  disturbance_id := disturbance_id;
  spec_type := def_type self;
  spec_phase := def_phase self;
  backend := def_backend self;
  trigger := default (def_trigger self) tr;
  action := def_action self;
  parameters := dict_update (def_parameters self) (default [] params);
  expected_behaviors := def_expected_behaviors self;
  verification := def_verification self;
  replay_seed := Some replay_seed |}.

Definition spec_from_mapping (value : mapping) : result DisturbanceSpec :=
  id ← vitem value "disturbance_id";
  ty ← vitem value "type"; ty ← type_of (py_str ty);
  ph ← vitem value "phase"; ph ← phase_of (py_str ph);
  be ← vitem value "backend";
  tr ← vitem value "trigger"; tr ← _mapping tr; tr ← trigger_from_mapping tr;
  act ← vitem value "action"; act ← _mapping act;
  params ← _mapping (vget_or value "parameters" (VDict []));
  beh ← _strings (vget_or value "expected_behaviors" (VList []));
  ver ← _strings (vget_or value "verification" (VList []));
  seed ← _optional_int (vget value "replay_seed");
  let spec := {| disturbance_id := py_str id; spec_type := ty; spec_phase := ph;
                 backend := py_str be; trigger := tr; action := act; parameters := params;
                 expected_behaviors := beh; verification := ver; replay_seed := seed |} in
  require (nonempty (disturbance_id spec) && bool_decide (ph = trigger_phase tr)) ValueError
    "disturbance spec requires an id and a trigger in the same phase" ;;
  require (match seed with Some n => 0 <=? n | None => true end) ValueError
    "replay_seed must be non-negative" ;;
  Ok spec.

Definition spec_as_dict (s : DisturbanceSpec) : mapping :=
  [("disturbance_id", VStr (disturbance_id s));
   ("type", VStr (type_value (spec_type s)));
   ("phase", VStr (phase_value (spec_phase s)));
   ("backend", VStr (backend s));
   ("trigger", VDict (trigger_as_dict (trigger s)));
   ("action", VDict (action s));
   ("parameters", VDict (parameters s));
   ("expected_behaviors", VList (map VStr (expected_behaviors s)));
   ("verification", VList (map VStr (verification s)));
   ("replay_seed", match replay_seed s with Some n => VInt n | None => VNone end)].

(** ** Lifecycle events *)

Record LifecycleEvent := {
  event_run_id : string;
  event_level_id : string;
  event_phase : DisturbancePhase;
  event_kind : string;
  occurred_at : datetime;
  event_tool : option string;
  elapsed_seconds : option pyfloat;
  payload : mapping }.

Definition event_as_dict (e : LifecycleEvent) : mapping :=
  [("run_id", VStr (event_run_id e)); ("level_id", VStr (event_level_id e));
   ("phase", VStr (phase_value (event_phase e))); ("kind", VStr (event_kind e));
   ("occurred_at", VStr (utc_iso (occurred_at e))); ("payload", VDict (payload e))] ++
  (if opt_truthy (event_tool e) then opt_field "tool" VStr (event_tool e) else []) ++
  opt_field "elapsed_seconds" VFloat (elapsed_seconds e).

(** ** Replay seeds *)

(** [chr(0x1f)] *)
Definition unit_separator : string := String (ascii_of_N 31) EmptyString.

Definition derive_replay_seed (parts : list string) : result Z :=
  require (negb (empty parts || existsb (λ p, negb (nonempty p)) parts)) ValueError
    "derive_replay_seed requires non-empty parts" ;;
  let d := digest (str_join unit_separator parts) in
  Ok (Z.land (be_word (take 8 d)) (Z.ones 63)).

(** ** The library document *)

(** [raw] is what [yaml.safe_load] returns for the library file. *)
Definition load_entry (acc : dict DisturbanceType DisturbanceDefinition) (item : val)
    : result (dict DisturbanceType DisturbanceDefinition) :=
  m ← _mapping item;
  d ← definition_from_mapping m;
  require (negb (dmem (def_type d) acc)) ValueError
    ("duplicate disturbance type: " +:+ type_value (def_type d)) ;;
  Ok (dset (def_type d) d acc).

Definition load_disturbance_library (raw : val)
    : result (dict DisturbanceType DisturbanceDefinition) :=
  doc ← match as_map raw with
        | Some doc => if is_str (vget doc "schema_version") "disturbance-library.v1"
                      then Ok doc
                      else raise ValueError
                        "disturbance library must use schema_version disturbance-library.v1"
        | None => raise ValueError
                    "disturbance library must use schema_version disturbance-library.v1"
        end;
  entries ← opt_or_raise (as_list (vget doc "disturbances")) ValueError
              "disturbance library must contain a disturbances list";
  lib ← foldM load_entry [] entries;
  let missing := List.filter (λ t, negb (dmem t lib)) all_types in
  require (empty missing) ValueError
    ("disturbance library is incomplete: " +:+
     str_join ", " (sort_by str_leb (map type_value missing))) ;;
  Ok lib.

(** * Properties *)

Lemma find_value {A} (members : list A) (value_of : A → string) a :
  Inj (=) (=) value_of → a ∈ members →
  List.find (λ b, bool_decide (value_of b = value_of a)) members = Some a.
Proof.
  intros Hinj. induction members as [|b l IH]; simpl; [by intros ?%not_elem_of_nil|].
  rewrite elem_of_cons. intros Ha. case_bool_decide as E; [by apply Hinj in E as ->|].
  apply IH. destruct Ha as [->|]; done.
Qed.

#[export] Instance phase_value_inj : Inj (=) (=) phase_value.
Proof. intros [] []; done. Qed.
#[export] Instance type_value_inj : Inj (=) (=) type_value.
Proof. intros [] []; done. Qed.
#[export] Instance mode_value_inj : Inj (=) (=) mode_value.
Proof. intros [] []; done. Qed.

Lemma elem_of_all_types t : t ∈ all_types.
Proof. destruct t; unfold all_types; rewrite !elem_of_cons; tauto. Qed.

Lemma NoDup_all_types : NoDup all_types.
Proof. apply (bool_decide_unpack _). vm_compute. exact I. Qed.

Lemma phase_of_value p : phase_of (phase_value p) = Ok p.
Proof. by destruct p. Qed.
Lemma type_of_value t : type_of (type_value t) = Ok t.
Proof. by destruct t. Qed.
Lemma mode_of_value m : mode_of (mode_value m) = Ok m.
Proof. by destruct m. Qed.

Lemma strings_roundtrip l :
  (∀ s, s ∈ l → s ≠ "") → _strings (VList (map VStr l)) = Ok l.
Proof.
  intros Hl. unfold _strings.
  assert (forallb (λ item, match item with VStr s => nonempty s | _ => false end) (map VStr l)
          = true) as ->.
  { apply forallb_True. intros v (s & -> & Hs)%list_elem_of_fmap. by apply nonempty_true, Hl. }
  f_equal. clear Hl. induction l; simpl; [done|]. by f_equal.
Qed.

(** A trigger that passed [validate] reads back from its document. *)
Lemma trigger_roundtrip t :
  trigger_validate t = Ok tt → trigger_from_mapping (trigger_as_dict t) = Ok t.
Proof.
  intros Hv. destruct t as [m p ev tl oc off]. unfold trigger_from_mapping.
  destruct ev as [ev|], tl as [tl|], oc as [oc|], off as [off|]; 
    cbv -[trigger_validate mode_of phase_of mode_value phase_value];
    rewrite mode_of_value; cbv iota beta; rewrite phase_of_value; cbv iota beta;
    by rewrite Hv.
Qed.

Record spec_valid (s : DisturbanceSpec) : Prop := {
  sv_id : disturbance_id s ≠ "";
  sv_trigger : trigger_validate (trigger s) = Ok tt;
  sv_phase : spec_phase s = trigger_phase (trigger s);
  sv_behaviors : ∀ b, b ∈ expected_behaviors s → b ≠ "";
  sv_verification : ∀ b, b ∈ verification s → b ≠ "";
  sv_seed : ∀ n, replay_seed s = Some n → 0 <= n }.

(** Reading the document of a valid disturbance spec gives the spec back. *)
Theorem spec_roundtrip s : spec_valid s → spec_from_mapping (spec_as_dict s) = Ok s.
Proof.
  intros [Hid Htr Hph Hb Hv Hs]. destruct s as [id ty ph be tr act par beh ver seed].
  cbn [disturbance_id spec_phase trigger expected_behaviors verification replay_seed] in *.
  assert (nonempty id = true) as Hne by (by apply nonempty_true).
  destruct seed as [n|];
    cbv -[trigger_from_mapping _strings type_of phase_of trigger_as_dict type_value
          phase_value nonempty bool_decide Z.leb map];
    rewrite type_of_value; cbv iota beta; rewrite phase_of_value; cbv iota beta;
    rewrite (trigger_roundtrip tr Htr); cbv iota beta;
    rewrite (strings_roundtrip beh Hb), (strings_roundtrip ver Hv);
    cbv -[nonempty bool_decide Z.leb trigger_phase];
    rewrite Hne, (bool_decide_true (ph = _)) by done; [|done].
  specialize (Hs n eq_refl). apply Z.leb_le in Hs. by rewrite Hs.
Qed.

Lemma derive_replay_seed_range parts n :
  derive_replay_seed parts = Ok n → 0 <= n < 2 ^ 63.
Proof.
  unfold derive_replay_seed. intros H. apply bind_Ok_inv in H as (_ & _ & [= <-]).
  set (w := be_word _).
  assert (0 <= w).
  { apply be_word_bound. intros b Hb. apply (digest_byte (str_join unit_separator parts)).
    rewrite <- (take_drop 8 (digest _)). apply elem_of_app. by left. }
  rewrite Z.land_ones by lia. apply Z.mod_pos_bound. lia.
Qed.

Lemma seed_parts_iff parts :
  negb (empty parts || existsb (λ p, negb (nonempty p)) parts) = true ↔
  parts ≠ [] ∧ ∀ p, p ∈ parts → p ≠ "".
Proof.
  rewrite negb_true_iff, orb_false_iff, <- !not_true_iff_false, empty_true, existsb_True.
  split; intros [H1 H2]; (split; [done|]).
  - intros p Hp ->. apply H2. by exists "".
  - intros (p & Hp & Hb). apply negb_true_iff, not_true_iff_false in Hb.
    apply Hb, nonempty_true. by apply H2.
Qed.

Lemma derive_seed_total parts :
  parts ≠ [] → (∀ p, p ∈ parts → p ≠ "") → ∃ seed, derive_replay_seed parts = Ok seed.
Proof.
  intros Hne Hp. unfold derive_replay_seed.
  assert (parts ≠ [] ∧ ∀ p, p ∈ parts → p ≠ "") as ->%seed_parts_iff by done.
  rewrite require_true, bind_ok. by eexists.
Qed.

(** A replay seed exists exactly for non-empty lists of non-empty parts, and fits 63 bits. *)
Theorem derive_replay_seed_total parts :
  (parts ≠ [] ∧ (∀ p, p ∈ parts → p ≠ "") ↔ ∃ n, derive_replay_seed parts = Ok n) ∧
  ∀ n, derive_replay_seed parts = Ok n → 0 <= n < 2 ^ 63.
Proof.
  split; [|apply derive_replay_seed_range]. split.
  - intros [Hne Hp]. by apply derive_seed_total.
  - unfold derive_replay_seed. intros (n & (u & Hr%require_Ok & _)%bind_Ok_inv).
    by apply seed_parts_iff.
Qed.

Record definition_ok (d : DisturbanceDefinition) : Prop := {
  do_valid : definition_validate d = Ok tt;
  do_trigger : trigger_validate (def_trigger d) = Ok tt;
  do_behaviors : ∀ b, b ∈ def_expected_behaviors d → b ≠ "";
  do_verification : ∀ b, b ∈ def_verification d → b ≠ "" }.

Lemma strings_nonempty v l : _strings v = Ok l → ∀ s, s ∈ l → s ≠ "".
Proof.
  unfold _strings. destruct v as [| | | | |vs|]; try done.
  destruct (forallb _ vs) eqn:Hf; [|done]. intros [= <-] s Hs.
  apply list_elem_of_omap in Hs as (x & Hx & Hxs).
  rewrite forallb_True in Hf. specialize (Hf x Hx). destruct x; simplify_eq/=.
  by apply nonempty_true.
Qed.

Lemma trigger_from_mapping_valid m t : trigger_from_mapping m = Ok t → trigger_validate t = Ok tt.
Proof.
  unfold trigger_from_mapping. intros H.
  repeat (apply bind_Ok_inv in H as (? & ? & H)).
  injection H as <-.
  match goal with H : trigger_validate _ = Ok ?u |- _ => by destruct u end.
Qed.

Lemma definition_from_mapping_ok m d : definition_from_mapping m = Ok d → definition_ok d.
Proof.
  unfold definition_from_mapping. intros H.
  repeat (let Hx := fresh "Hx" in apply bind_Ok_inv in H as (? & Hx & H)).
  injection H as <-. split; cbn [def_trigger def_expected_behaviors def_verification].
  - match goal with H : definition_validate _ = Ok ?u |- _ => by destruct u end.
  - by eapply trigger_from_mapping_valid.
  - by eapply strings_nonempty.
  - by eapply strings_nonempty.
Qed.

(** A definition that was read from the library instantiates to a valid spec. *)
Lemma instantiate_valid d id seed params :
  definition_ok d → id ≠ "" → 0 <= seed → spec_valid (instantiate d id seed params None).
Proof.
  intros [Hv Ht Hb Hver] Hid Hseed. split; simpl; try done.
  - unfold definition_validate in Hv. apply bind_Ok_inv in Hv as (? & Hp & _).
    apply require_Ok, bool_decide_eq_true in Hp. done.
  - intros n [= <-]. done.
Qed.

Lemma load_entry_inv acc item acc' :
  load_entry acc item = Ok acc' →
  (∀ t d, dget t acc = Some d → def_type d = t ∧ definition_ok d) →
  ∀ t d, dget t acc' = Some d → def_type d = t ∧ definition_ok d.
Proof.
  unfold load_entry. intros H Hacc t d.
  apply bind_Ok_inv in H as (m & _ & H). apply bind_Ok_inv in H as (d' & Hd' & H).
  apply bind_Ok_inv in H as (_ & _ & [= <-]).
  rewrite dget_dset. case_decide as E; [|by apply Hacc].
  intros [= <-]. split; [done|]. by eapply definition_from_mapping_ok.
Qed.

(** A library that loads has a valid definition of every disturbance type under its own type. *)
Theorem load_library_complete raw lib :
  load_disturbance_library raw = Ok lib →
  ∀ t, ∃ d, dget t lib = Some d ∧ def_type d = t ∧ definition_ok d.
Proof.
  unfold load_disturbance_library. intros H t.
  apply bind_Ok_inv in H as (doc & _ & H). apply bind_Ok_inv in H as (es & _ & H).
  apply bind_Ok_inv in H as (lib' & Hlib & H). apply bind_Ok_inv in H as (u & Hm & [= <-]).
  apply require_Ok in Hm.
  assert (dmem t lib' = true) as Ht.
  { destruct (dmem t lib') eqn:E; [done|]. exfalso.
    assert (t ∈ List.filter (λ t, negb (dmem t lib')) all_types) as Hin.
    { apply list_elem_of_In, filter_In. split; [apply list_elem_of_In, elem_of_all_types|].
      by rewrite E. }
    destruct (List.filter _ all_types); [by apply not_elem_of_nil in Hin|done]. }
  apply dmem_true, dget_is_Some in Ht as [d Hd]. exists d. split; [done|].
  revert t d Hd.
  apply (foldM_inv (λ acc, ∀ t d, dget t acc = Some d → def_type d = t ∧ definition_ok d)
           load_entry es) with (b := []); [|intros ? ? [=]|exact Hlib].
  intros acc x acc' _ Hacc Hx. by eapply load_entry_inv.
Qed.

(** ** A sample specification and a sample library *)

Definition sample_trigger (mode : TriggerMode) : TriggerSpec := {|
  mode := mode; trigger_phase := OBSERVATION; event := Some "observe_started";
  tool := Some "telemetry_prom_metric_range"; occurrence := Some 2;
  offset_seconds := Some (FFin (1 # 2)) |}.

Definition sample_spec : DisturbanceSpec := {|
  disturbance_id := "d-1"; spec_type := METRIC_DATA_GAP; spec_phase := OBSERVATION;
  backend := "telemetry_interceptor"; trigger := sample_trigger TOOL_CALL_SEQUENCE;
  action := [("operation", VStr "drop_points")]; parameters := [("missing_slots", VInt 3)];
  expected_behaviors := ["detects_gap"]; verification := ["controller_record"];
  replay_seed := Some 42 |}.

Lemma spec_roundtrip_witness :
  spec_from_mapping (spec_as_dict sample_spec) = Ok sample_spec.
Proof.
  apply (spec_roundtrip sample_spec). split; try (vm_compute; congruence).
  - intros b Hb. apply list_elem_of_singleton in Hb as ->. discriminate.
  - intros b Hb. apply list_elem_of_singleton in Hb as ->. discriminate.
  - intros n [= <-]. lia.
Defined.

Definition sample_item (t : DisturbanceType) : val := VDict
  [("type", VStr (type_value t)); ("phase", VStr "observation"); ("description", VStr "sample");
   ("backend", VStr "telemetry_interceptor");
   ("trigger", VDict (trigger_as_dict (sample_trigger TIME_OFFSET)));
   ("action", VDict [("operation", VStr "drop_points")]);
   ("expected_behaviors", VList [VStr "detects_gap"]);
   ("verification", VList [VStr "controller_record"])].

Definition sample_library : val := VDict
  [("schema_version", VStr "disturbance-library.v1");
   ("disturbances", VList (map sample_item all_types))].

Lemma load_library_complete_witness :
  ∃ lib, load_disturbance_library sample_library = Ok lib ∧
    ∃ d, dget TARGET_DRIFT lib = Some d ∧ def_type d = TARGET_DRIFT ∧ definition_ok d.
Proof.
  pose proof (ok_or_eq [] (load_disturbance_library sample_library)
                ltac:(vm_compute; reflexivity)) as H.
  exact (ex_intro _ _ (conj H (load_library_complete sample_library _ H TARGET_DRIFT))).
Defined.
