(* ===== verification/DisturbanceGate.v ===== *)
(** * The Controller's disturbance gate ([controller/disturbance.py])

    [authorize] collects the reasons to refuse a disturbance; it is allowed
    when there are none.  [SafetyGate] is what the injector relies on, and
    [ControllerDisturbanceSafetyGate] is shown to provide it. *)

From Stdlib Require Import QArith.
From S2P Require Import Prelude PyFloat PyVal PyTime Safety.

#[local] Open Scope Z_scope.

Record DisturbanceAuthorizationRequest := {
  req_run_id : string;
  req_level_id : string;
  req_disturbance_id : string;
  req_disturbance_type : string;
  req_backend : string;
  req_target : mapping;
  req_parameters : mapping;
  req_labels : dict string string;
  active_mutating_disturbances : Z }.

Record DisturbanceAuthorizationDecision := { allowed : bool; reasons : list string }.

Definition MUTATING_BACKENDS : list string :=
  ["kubernetes"; "chaos_effect_proxy"; "workload_interceptor"; "safety_pressure"].

Definition is_mutating (backend : string) : bool := bool_decide (backend ∈ MUTATING_BACKENDS).

Record ControllerDisturbanceSafetyGate := {
  policy : ControllerPolicy;
  allowed_types : list string }.

(** [if value is not None and float(value) > 80: reasons.append(code)] *)
Definition percent_over (value : val) (limit : Z) (reason : string) : result (list string) :=
  if is_none value then Ok []
  else f ← py_float value; Ok (guard_list (flt (FFin (inject_Z limit)) f) reason).

(** One turn of the loop over the two quota keys. *)
Definition quota_reason (params : mapping) (acc : list string) (key : string)
    : result (list string) :=
  match dget key params with
  | None => Ok acc
  | Some v =>
      f ← py_float v;
      Ok (acc ++ guard_list (negb (fle (FFin 20) f && fle f (FFin 100)))
                   "RESOURCE_QUOTA_OUTSIDE_SAFE_RANGE")
  end.

Definition QUOTA_KEYS : list string :=
  ["cpu_limit_percent_of_original"; "memory_limit_percent_of_original"].

Definition identity_reasons (self : ControllerDisturbanceSafetyGate)
    (request : DisturbanceAuthorizationRequest) : list string :=
  codes (validate_policy (policy self)) ++
  guard_list (negb (RUN_ID_RE (req_run_id request))) "INVALID_RUN_ID" ++
  guard_list (negb (nonempty (req_level_id request))) "MISSING_LEVEL_ID" ++
  guard_list (negb (bool_decide (req_disturbance_type request ∈ allowed_types self)))
    "DISTURBANCE_TYPE_NOT_ALLOWED" ++
  guard_list (negb (bool_decide (dget "benchmark.run_id" (req_labels request)
                                 = Some (req_run_id request)))) "MISSING_RUN_ID_LABEL" ++
  guard_list (negb (bool_decide (str_or_empty (vget (req_target request) "namespace")
                                 ∈ namespace_allowlist (policy self)))) "NAMESPACE_NOT_ALLOWED" ++
  (if bool_decide (req_backend request = "kubernetes") then
     guard_list (negb (is_str (vget (req_target request) "kind") "Pod"))
       "TARGET_KIND_NOT_ALLOWED" ++
     guard_list (negb (truthy (vget (req_target request) "name"))) "MISSING_TARGET_NAME" ++
     guard_list (negb (truthy (vget (req_target request) "uid"))) "MISSING_TARGET_UID"
   else []) ++
  guard_list (is_mutating (req_backend request) &&
              (max_concurrent_actions (policy self) <=? active_mutating_disturbances request))
    "DISTURBANCE_CONCURRENCY_BUDGET_EXCEEDED".

Definition authorize (self : ControllerDisturbanceSafetyGate)
    (request : DisturbanceAuthorizationRequest) : result DisturbanceAuthorizationDecision :=
  let rs := identity_reasons self request in
  let hard_limit := vget (req_parameters request) "hard_limit_percent" in
  let target_percent := vget (req_parameters request) "target_percent" in
  r1 ← percent_over hard_limit 80 "SAFETY_HARD_LIMIT_EXCEEDED";
  r2 ← percent_over target_percent 80 "SAFETY_TARGET_EXCEEDED";
  rs ← foldM (quota_reason (req_parameters request)) (rs ++ r1 ++ r2) QUOTA_KEYS;
  Ok {| allowed := empty rs; reasons := dedup rs |}.

(** ** The interface the injector uses *)

(** A safety gate bounds how many mutating disturbances may be active: it
    refuses a mutating one once [budget] of them are. *)
Class SafetyGate (gate : DisturbanceAuthorizationRequest → result DisturbanceAuthorizationDecision)
    (budget : Z) : Prop := {
  gate_budget : ∀ request d,
    gate request = Ok d → allowed d = true →
    is_mutating (req_backend request) = true → active_mutating_disturbances request < budget;
  gate_reasons : ∀ request d, gate request = Ok d → allowed d = false → reasons d ≠ [] }.

(** * Properties *)

Lemma codes_nil r : codes r = [] ↔ ok r = true.
Proof. unfold codes. rewrite ok_true. destruct (findings r); simpl; split; done. Qed.

Lemma percent_over_nil v limit reason rs :
  percent_over v limit reason = Ok rs →
  rs = [] ↔ ∀ f, is_none v = false → py_float v = Ok f → flt (FFin (inject_Z limit)) f = false.
Proof.
  unfold percent_over. destruct (is_none v).
  - intros [= <-]. split; [done|]. done.
  - intros H. apply bind_Ok_inv in H as (f & Hf & [= <-]). rewrite guard_list_nil.
    split.
    + intros Hl f' _ Hf'. rewrite Hf in Hf'. injection Hf' as <-. exact Hl.
    + intros Hl. exact (Hl f eq_refl Hf).
Qed.

Definition quota_ok (params : mapping) (key : string) : Prop :=
  ∀ v, dget key params = Some v →
  ∃ q, py_float v = Ok (FFin q) ∧ (20 <= q)%Q ∧ (q <= 100)%Q.

Lemma fle_fin_iff x y : fle (FFin x) (FFin y) = true ↔ (x <= y)%Q.
Proof.
  unfold fle; simpl. rewrite orb_true_iff, Qlt_bool_iff, Qeq_bool_iff, Qle_lteq. tauto.
Qed.

Lemma between_fin f a b :
  fle (FFin a) f && fle f (FFin b) = true ↔ ∃ q, f = FFin q ∧ (a <= q)%Q ∧ (q <= b)%Q.
Proof.
  rewrite andb_true_iff. split.
  - destruct f as [q|[]|]; [|by intros []..]. rewrite !fle_fin_iff. eauto.
  - intros (q & -> & H). by rewrite !fle_fin_iff.
Qed.

Lemma quota_reason_nil params acc key rs :
  quota_reason params acc key = Ok rs → rs = [] ↔ acc = [] ∧ quota_ok params key.
Proof.
  unfold quota_reason, quota_ok. destruct (dget key params) as [v|].
  - intros H. apply bind_Ok_inv in H as (f & Hf & [= <-]).
    rewrite app_eq_nil_iff, guard_list_nil, negb_false_iff, between_fin.
    split; intros [-> H]; (split; [done|]).
    + intros v' [= <-]. destruct H as (q & -> & H). eauto.
    + destruct (H v eq_refl) as (q & Hq & Hb). exists q. split; [congruence|done].
  - intros [= <-]. split; [|by intros []]. intros ->. split; [done|]. intros v; discriminate.
Qed.

Lemma quota_loop_nil params keys acc rs :
  foldM (quota_reason params) acc keys = Ok rs →
  rs = [] ↔ acc = [] ∧ ∀ key, key ∈ keys → quota_ok params key.
Proof.
  revert acc. induction keys as [|k keys IH]; intros acc; simpl; intros H.
  - injection H as ->. setoid_rewrite elem_of_nil. naive_solver.
  - apply bind_Ok_inv in H as (acc' & H1 & H). rewrite (IH _ H).
    rewrite (quota_reason_nil _ _ _ _ H1). setoid_rewrite elem_of_cons. naive_solver.
Qed.

(** A percentage parameter that is absent or at most [limit]; a NaN passes. *)
Definition percent_ok (v : val) (limit : Z) : Prop :=
  ∀ f, is_none v = false → py_float v = Ok f → flt (FFin (inject_Z limit)) f = false.

Record authorizable (self : ControllerDisturbanceSafetyGate)
    (r : DisturbanceAuthorizationRequest) : Prop := {
  au_policy : policy_sound (policy self);
  au_run_id : RUN_ID_RE (req_run_id r) = true;
  au_level : req_level_id r ≠ "";
  au_type : req_disturbance_type r ∈ allowed_types self;
  au_label : dget "benchmark.run_id" (req_labels r) = Some (req_run_id r);
  au_namespace :
    str_or_empty (vget (req_target r) "namespace") ∈ namespace_allowlist (policy self);
  au_pod : req_backend r = "kubernetes" →
    vget (req_target r) "kind" = VStr "Pod" ∧
    truthy (vget (req_target r) "name") = true ∧ truthy (vget (req_target r) "uid") = true;
  au_concurrency : is_mutating (req_backend r) = true → active_mutating_disturbances r < 1;
  au_hard_limit : percent_ok (vget (req_parameters r) "hard_limit_percent") 80;
  au_target_percent : percent_ok (vget (req_parameters r) "target_percent") 80;
  au_quota : ∀ key, key ∈ QUOTA_KEYS → quota_ok (req_parameters r) key }.

Lemma identity_reasons_nil self r :
  identity_reasons self r = [] ↔
  policy_sound (policy self) ∧ RUN_ID_RE (req_run_id r) = true ∧ req_level_id r ≠ "" ∧
  req_disturbance_type r ∈ allowed_types self ∧
  dget "benchmark.run_id" (req_labels r) = Some (req_run_id r) ∧
  str_or_empty (vget (req_target r) "namespace") ∈ namespace_allowlist (policy self) ∧
  (req_backend r = "kubernetes" →
    vget (req_target r) "kind" = VStr "Pod" ∧
    truthy (vget (req_target r) "name") = true ∧ truthy (vget (req_target r) "uid") = true) ∧
  (is_mutating (req_backend r) = true → active_mutating_disturbances r < 1).
Proof.
  unfold identity_reasons.
  rewrite !app_eq_nil_iff, codes_nil, validate_policy_ok_iff, !guard_list_nil.
  rewrite !negb_false_iff, !bool_decide_eq_true, nonempty_true, andb_false_iff, Z.leb_gt.
  assert (∀ k, (if bool_decide (req_backend r = "kubernetes") then k else [] : list string) = []
          ↔ (req_backend r = "kubernetes" → k = [])) as Hk.
  { intros k. case_bool_decide; naive_solver. }
  rewrite Hk, !app_eq_nil_iff, !guard_list_nil, !negb_false_iff, is_str_true.
  split; intros (Hp & ? & ? & ? & ? & ? & Hpod & Hc); split_and!; try done.
  - rewrite (ps_single_action _ Hp) in Hc. intros Hm. destruct Hc; [congruence|done].
  - rewrite (ps_single_action _ Hp).
    destruct (is_mutating _); [right; auto|by left].
Qed.

(** A disturbance is allowed exactly when every check of the gate holds: policy, run id, level,
    type, label, namespace, exact Pod, concurrency, percentages and quotas. *)
Theorem authorize_allowed_iff self r d :
  authorize self r = Ok d → allowed d = true ↔ authorizable self r.
Proof.
  unfold authorize. intros H.
  apply bind_Ok_inv in H as (r1 & H1 & H). apply bind_Ok_inv in H as (r2 & H2 & H).
  apply bind_Ok_inv in H as (rs & Hrs & [= <-]). cbn [allowed].
  rewrite empty_true, (quota_loop_nil _ _ _ _ Hrs), !app_eq_nil_iff.
  rewrite (percent_over_nil _ _ _ _ H1), (percent_over_nil _ _ _ _ H2), identity_reasons_nil.
  split; [|by intros []]. intros ((Hi & Hh & Ht) & Hq). destruct_and!. by split.
Qed.

Lemma authorize_reasons self r d :
  authorize self r = Ok d → allowed d = true ↔ reasons d = [].
Proof.
  unfold authorize. intros H.
  apply bind_Ok_inv in H as (r1 & H1 & H). apply bind_Ok_inv in H as (r2 & H2 & H).
  apply bind_Ok_inv in H as (rs & Hrs & [= <-]). cbn [allowed reasons].
  by rewrite empty_true, dedup_nil_iff.
Qed.

(** The Controller's gate keeps one mutating disturbance active at a time. *)
#[export] Instance controller_gate self : SafetyGate (authorize self) 1.
Proof.
  split.
  - intros r d Hd Ha. apply (authorize_allowed_iff _ _ _ Hd) in Ha. apply (au_concurrency _ _ Ha).
  - intros r d Hd Ha Hr. apply (authorize_reasons _ _ _ Hd) in Hr. congruence.
Qed.

(** ** A request the default policy admits *)

Definition sample_gate : ControllerDisturbanceSafetyGate := {|
  policy := default_policy ["otel-demo"]; allowed_types := ["resource_quota_reduction"] |}.

Definition sample_request : DisturbanceAuthorizationRequest := {|
  req_run_id := "run-1"; req_level_id := "level-2"; req_disturbance_id := "d-1";
  req_disturbance_type := "resource_quota_reduction"; req_backend := "kubernetes";
  req_target := [("namespace", VStr "otel-demo"); ("kind", VStr "Pod"); ("name", VStr "cart-0");
                 ("uid", VStr "u-1")];
  req_parameters := [("cpu_limit_percent_of_original", VInt 50); ("target_percent", VInt 80)];
  req_labels := [("benchmark.run_id", "run-1")]; active_mutating_disturbances := 0 |}.

Lemma authorize_allowed_iff_witness : authorizable sample_gate sample_request.
Proof.
  apply (proj1 (authorize_allowed_iff sample_gate sample_request
                  {| allowed := true; reasons := [] |} ltac:(vm_compute; reflexivity))).
  reflexivity.
Defined.

(** The reading of [float('nan')] is within every limit. *)
Example nan_limit_passes :
  percent_over (VFloat FNan) 80 "SAFETY_HARD_LIMIT_EXCEEDED" = Ok [].
Proof. reflexivity. Qed.
