(* ===== verification/Injector.v ===== *)
(** * The disturbance injector ([disturbances/injector.py])

    Lifecycle events are matched against the configured disturbances; a match
    is authorized, executed by the backend's adapter, recorded, and cleaned up
    at the end of the trial.  The safety gate, the adapters' clients, the random
    sampler and the clock are parameters; [W] is the world the clients act on.
    The injector's own state survives exceptions, as the Python object's does. *)

From Stdlib Require Import QArith.
From S2P Require Import Prelude PyFloat PyVal PyTime Sha256 DisturbanceTypes.
From S2P Require Import DisturbanceGate.

#[local] Open Scope Z_scope.

Record DisturbanceExecutionRequest := {
  x_run_id : string;
  x_level_id : string;
  x_spec : DisturbanceSpec;
  x_target : mapping;
  x_seed : Z;
  triggered_by : LifecycleEvent }.

Record AdapterExecutionResult := {
  outcome : mapping;
  res_cleanup_state : mapping;
  res_cleanup_required : bool }.

Record DisturbanceAdapter (W : Type) := {
  execute : DisturbanceExecutionRequest → prog W AdapterExecutionResult;
  cleanup : DisturbanceExecutionRequest → mapping → prog W mapping }.
Arguments execute {W}.
Arguments cleanup {W}.

(** ** The adapters shipped with the injector *)

(** [random.Random(seed).sample(range(1, total + 1), selected)]: distinct
    members of the range, as many as asked for. *)
Class RandomSample (sample : Z → Z → Z → list Z) : Prop := {
  sample_NoDup seed total k : 0 <= k <= total → NoDup (sample seed total k);
  sample_length seed total k : 0 <= k <= total → Z.of_nat (length (sample seed total k)) = k;
  sample_range seed total k x : 0 <= k <= total → x ∈ sample seed total k → 1 <= x <= total }.

Section selected_slots.
Context (sample : Z → Z → Z → list Z).

Definition _selected_slots (seed total selected : Z) : result (list Z) :=
  if (total <? 1) || (selected <? 0) || (total <? selected)
  then raise ValueError
         "deterministic schedule requires 0 <= selected <= total and total >= 1"
  else Ok (sort_by Z.leb (sample seed total selected)).
End selected_slots.

(** The Kubernetes client the Controller injects. *)
Record KubernetesClient (W : Type) := {
  restart_exact_pod : string → string → string → Z → mapping → prog W mapping;
  read_resource_quota : string → string → prog W val;
  patch_resource_quota : string → string → pyfloat → pyfloat → mapping → prog W val;
  restore_resource_quota : string → string → val → prog W val }.
Arguments restart_exact_pod {W}.
Arguments read_resource_quota {W}.
Arguments patch_resource_quota {W}.
Arguments restore_resource_quota {W}.

(** The telemetry proxy client; [events] is optional. *)
Record TelemetryClient (W : Type) := {
  register_rule : string → string → string → mapping → prog W val;
  remove_rule : string → prog W val;
  events : option (prog W (list val)) }.
Arguments register_rule {W}.
Arguments remove_rule {W}.
Arguments events {W}.

Definition run_labels (request : DisturbanceExecutionRequest) : mapping :=
  [("benchmark.run_id", VStr (x_run_id request));
   ("benchmark.level_id", VStr (x_level_id request))].

Section adapters.
Context {W : Type}.

Definition kubernetes_execute (client : KubernetesClient W)
    (request : DisturbanceExecutionRequest) : prog W AdapterExecutionResult :=
  let target := x_target request in
  let params := parameters (x_spec request) in
  match spec_type (x_spec request) with
  | TARGET_DRIFT =>
      ns ← lift (vitem target "namespace");
      nm ← lift (vitem target "name");
      uid ← lift (vitem target "uid");
      timeout ← lift (py_int (vget_or params "replacement_timeout_seconds" (VInt 120)));
      replacement ← restart_exact_pod client (py_str ns) (py_str nm) (py_str uid) timeout
                      (run_labels request);
      let replacement_uid := str_or_empty (vget replacement "uid") in
      if negb (nonempty replacement_uid) || bool_decide (replacement_uid = py_str uid)
      then throw RuntimeError "target drift did not produce a distinct replacement Pod UID"
      else mret {| outcome := [("old_uid", VStr (py_str uid));
                     ("replacement_name", VStr (py_str (py_or (vget replacement "name") nm)));
                     ("replacement_uid", VStr replacement_uid)];
                   res_cleanup_state := []; res_cleanup_required := false |}
  | RESOURCE_QUOTA_REDUCTION =>
      ns ← lift (vitem target "namespace");
      let namespace := py_str ns in
      q ← lift (vitem params "quota_name");
      let quota_name := py_str q in
      previous ← read_resource_quota client namespace quota_name;
      cpu ← lift (c ← vitem params "cpu_limit_percent_of_original"; py_float c);
      mem ← lift (m ← vitem params "memory_limit_percent_of_original"; py_float m);
      applied ← patch_resource_quota client namespace quota_name cpu mem (run_labels request);
      mret {| outcome := [("quota_name", VStr quota_name); ("applied", applied)];
              res_cleanup_state := [("namespace", VStr namespace);
                                    ("quota_name", VStr quota_name); ("previous", previous)];
              res_cleanup_required := true |}
  | t => throw ValueError ("kubernetes adapter does not support " +:+ type_value t)
  end.

Definition kubernetes_cleanup (client : KubernetesClient W)
    (request : DisturbanceExecutionRequest) (cleanup_state : mapping) : prog W mapping :=
  match spec_type (x_spec request) with
  | RESOURCE_QUOTA_REDUCTION =>
      ns ← lift (vitem cleanup_state "namespace");
      q ← lift (vitem cleanup_state "quota_name");
      previous ← lift (vitem cleanup_state "previous");
      restored ← restore_resource_quota client (py_str ns) (py_str q) previous;
      mret [("restored", restored)]
  | _ => mret [("cleanup", VStr "not_required")]
  end.

Definition KubernetesDisturbanceAdapter (client : KubernetesClient W) : DisturbanceAdapter W := {|
  execute := kubernetes_execute client; cleanup := kubernetes_cleanup client |}.

Context (sample : Z → Z → Z → list Z).

Definition rule_tool (spec : DisturbanceSpec) : string :=
  str_or (tool (trigger spec)) "telemetry_prom_metric_range".

Definition telemetry_rule (request : DisturbanceExecutionRequest) : result mapping :=
  let spec := x_spec request in
  let params := parameters spec in
  match spec_type spec with
  | TELEMETRY_INSTABILITY =>
      total ← py_int (vget_or params "schedule_slots" (VInt 10));
      selected ← py_int (vget_or params "failure_slots" (VInt 3));
      schedule ← _selected_slots sample (x_seed request) total selected;
      modes ← py_list (vget_or (action spec) "response_modes" (VList [VStr "http_503"]));
      timeout ← py_int (vget_or params "timeout_milliseconds" (VInt 1500));
      Ok [("kind", VStr "telemetry_failure_schedule"); ("tool", VStr (rule_tool spec));
          ("slots", VList (map VInt schedule)); ("response_modes", VList modes);
          ("timeout_milliseconds", VInt timeout)]
  | METRIC_DATA_GAP =>
      total ← py_int (vget_or params "schedule_slots" (VInt 12));
      selected ← py_int (vget_or params "missing_slots" (VInt 3));
      schedule ← _selected_slots sample (x_seed request) total selected;
      Ok [("kind", VStr "metric_data_gap"); ("tool", VStr (rule_tool spec));
          ("missing_slots", VList (map VInt schedule))]
  | t => raise ValueError ("telemetry adapter does not support " +:+ type_value t)
  end.

Definition telemetry_execute (client : TelemetryClient W)
    (request : DisturbanceExecutionRequest) : prog W AdapterExecutionResult :=
  rule ← lift (telemetry_rule request);
  rid ← register_rule client (x_run_id request) (x_level_id request)
          (disturbance_id (x_spec request)) rule;
  let rule_id := py_str rid in
  if negb (nonempty rule_id)
  then throw RuntimeError "telemetry interceptor did not return a rule id"
  else mret {| outcome := [("rule_id", VStr rule_id); ("rule", VDict rule)];
               res_cleanup_state := [("rule_id", VStr rule_id)];
               res_cleanup_required := true |}.

Definition telemetry_cleanup (client : TelemetryClient W)
    (request : DisturbanceExecutionRequest) (cleanup_state : mapping) : prog W mapping :=
  rid ← lift (vitem cleanup_state "rule_id");
  let rule_id := py_str rid in
  removed ← remove_rule client rule_id;
  evs ← match events client with
        | Some m => all ← m;
                    mret (List.filter (λ item, match item with
                                               | VDict d => is_str (vget d "rule_id") rule_id
                                               | _ => false end) all)
        | None => mret []
        end;
  mret [("rule_id", VStr rule_id); ("removed", VBool (py_bool removed));
        ("interceptor_events", VList evs)].

Definition TelemetryInterceptorAdapter (client : TelemetryClient W) : DisturbanceAdapter W := {|
  execute := telemetry_execute client; cleanup := telemetry_cleanup client |}.
End adapters.

(** ** The injector *)

Record ActiveExecution (W : Type) := {
  request : DisturbanceExecutionRequest;
  adapter : DisturbanceAdapter W;
  cleanup_state : mapping;
  cleanup_required : bool;
  event_id : string }.
Arguments request {W}.
Arguments adapter {W}.
Arguments cleanup_state {W}.
Arguments cleanup_required {W}.
Arguments event_id {W}.

(** The attributes [__init__] fixes. *)
Record DisturbanceInjector (W : Type) := {
  run_id : string;
  level_id : string;
  attempt : Z;
  trial_id : string;
  specs : list DisturbanceSpec;
  target : mapping;
  safety_gate : DisturbanceAuthorizationRequest → result DisturbanceAuthorizationDecision;
  adapters : dict string (DisturbanceAdapter W) }.
Arguments run_id {W}.
Arguments level_id {W}.
Arguments attempt {W}.
Arguments trial_id {W}.
Arguments specs {W}.
Arguments target {W}.
Arguments safety_gate {W}.
Arguments adapters {W}.

(** The attributes that change, the record sink, the world and the number of
    clock readings taken. *)
Record istate (W : Type) := {
  _triggered : list string;
  _tool_occurrences : dict string Z;
  _active : list (ActiveExecution W);
  record_sink : list mapping;
  world : W;
  ticks : nat }.
Arguments _triggered {W}.
Arguments _tool_occurrences {W}.
Arguments _active {W}.
Arguments record_sink {W}.
Arguments world {W}.
Arguments ticks {W}.

Definition hex16 (n : Z) : string :=
  unchars (map (λ i, hex_char (Z.land (Z.shiftr n (4 * Z.of_nat i)) 15)) (rev (seq 0 16))).

Section injector.
Context {W : Type} (clock : nat → datetime).
Implicit Types (self : DisturbanceInjector W) (st : istate W) (spec : DisturbanceSpec)
  (event : LifecycleEvent).

Definition new_injector (run_id level_id : string) (trial_id : option string) (attempt : Z)
    (specs : list DisturbanceSpec) (target : mapping)
    (gate : DisturbanceAuthorizationRequest → result DisturbanceAuthorizationDecision)
    (adapters : dict string (DisturbanceAdapter W)) : result (DisturbanceInjector W) :=
  if attempt <? 1 then raise ValueError "attempt must be positive"
  else Ok {| run_id := run_id; level_id := level_id; attempt := attempt;
             trial_id := str_or trial_id
               (run_id +:+ "-" +:+ level_id +:+ "-a" +:+ pretty attempt);
             specs := specs; target := target; safety_gate := gate; adapters := adapters |}.

Definition initial_istate (w : W) : istate W := {|
  _triggered := []; _tool_occurrences := []; _active := []; record_sink := [];
  world := w; ticks := 0%nat |}.

Definition set_triggered (f : list string → list string) st := {|
  _triggered := f (_triggered st); _tool_occurrences := _tool_occurrences st;
  _active := _active st; record_sink := record_sink st; world := world st; ticks := ticks st |}.
Definition set_occurrences (f : dict string Z → dict string Z) st := {|
  _triggered := _triggered st; _tool_occurrences := f (_tool_occurrences st);
  _active := _active st; record_sink := record_sink st; world := world st; ticks := ticks st |}.
Definition set_active (f : list (ActiveExecution W) → list (ActiveExecution W)) st := {|
  _triggered := _triggered st; _tool_occurrences := _tool_occurrences st;
  _active := f (_active st); record_sink := record_sink st; world := world st;
  ticks := ticks st |}.
Definition push_record (r : mapping) st := {|
  _triggered := _triggered st; _tool_occurrences := _tool_occurrences st;
  _active := _active st; record_sink := record_sink st ++ [r]; world := world st;
  ticks := ticks st |}.
Definition set_world (w : W) st := {|
  _triggered := _triggered st; _tool_occurrences := _tool_occurrences st;
  _active := _active st; record_sink := record_sink st; world := w; ticks := ticks st |}.

(** [_utc_now()] *)
Definition utc_now : prog (istate W) string := λ st,
  ({| _triggered := _triggered st; _tool_occurrences := _tool_occurrences st;
      _active := _active st; record_sink := record_sink st; world := world st;
      ticks := S (ticks st) |}, Ok (utc_iso (clock (ticks st)))).

(** Run a client's program on the world. *)
Definition on_world {A} (m : prog W A) : prog (istate W) A := λ st,
  let '(w, r) := m (world st) in (set_world w st, r).

(** [_record]: build the record and append it to the sink. *)
Definition make_record self spec event (event_id status triggered_at : string)
    (outcome : mapping) (completed_at : option string) : mapping :=
  [("schema_version", VStr "disturbance-event.v1");
   ("disturbance_event_id", VStr event_id);
   ("disturbance_id", VStr (disturbance_id spec));
   ("run_id", VStr (run_id self)); ("trial_id", VStr (trial_id self));
   ("level_id", VStr (level_id self)); ("attempt", VInt (attempt self));
   ("type", VStr (type_value (spec_type spec)));
   ("phase", VStr (phase_value (spec_phase spec)));
   ("status", VStr status); ("triggered_at", VStr triggered_at);
   ("trigger", VDict [("spec", VDict (trigger_as_dict (trigger spec)));
                      ("event", VDict (event_as_dict event))]);
   ("action", VDict [("backend", VStr (backend spec));
                     ("operation", vget (action spec) "operation");
                     ("parameters", VDict (parameters spec))]);
   ("outcome", VDict outcome);
   ("evidence_refs", VList [VStr ("controller_record://" +:+ run_id self +:+ "/" +:+
      level_id self +:+ "/" +:+ trial_id self +:+ "/" +:+ event_id)])] ++
  match completed_at with
  | Some c => if nonempty c then [("completed_at", VStr c)] else []
  | None => []
  end.

Definition _record self spec event (event_id status triggered_at : string)
    (outcome : mapping) (completed_at : option string) : prog (istate W) mapping :=
  let r := make_record self spec event event_id status triggered_at outcome completed_at in
  modify (push_record r) ;; mret r.

Definition _matches (occurrences : dict string Z) spec event : bool :=
  let t := trigger spec in
  if negb (bool_decide (event_phase event = trigger_phase t)) then false
  else match mode t with
       | LIFECYCLE_EVENT => bool_decide (Some (event_kind event) = DisturbanceTypes.event t)
       | TOOL_CALL_SEQUENCE =>
           bool_decide (event_kind event = "tool_call") &&
           bool_decide (event_tool event = tool t) &&
           bool_decide (Some (default 0 (dget (default "None" (tool t)) occurrences))
                        = occurrence t)
       | TIME_OFFSET =>
           bool_decide (event_kind event = "timer") &&
           match elapsed_seconds event with
           | None => false
           | Some s => fle (match offset_seconds t with
                            | Some o => if truthy (VFloat o) then o else FFin 0
                            | None => FFin 0
                            end) s
           end
       end.

Definition mutating_active (l : list (ActiveExecution W)) : nat :=
  count (λ item, cleanup_required item && is_mutating (backend (x_spec (request item)))) l.

Definition authorization_request self spec (l : list (ActiveExecution W))
    : DisturbanceAuthorizationRequest := {|
  req_run_id := run_id self;
  req_level_id := level_id self;
  req_disturbance_id := disturbance_id spec;
  req_disturbance_type := type_value (spec_type spec);
  req_backend := backend spec;
  req_target := target self;
  req_parameters := parameters spec;
  req_labels := [("benchmark.run_id", run_id self); ("benchmark.level_id", level_id self)];
  active_mutating_disturbances := Z.of_nat (mutating_active l) |}.

Definition _execute self spec event : prog (istate W) (list mapping) :=
  seed0 ← lift (derive_replay_seed [trial_id self; disturbance_id spec]);
  let event_id := "dst-evt-" +:+ hex16 seed0 in
  let triggered_at := utc_iso (occurred_at event) in
  seed ← lift (match replay_seed spec with
               | Some s => Ok s
               | None => derive_replay_seed [run_id self; level_id self; disturbance_id spec]
               end);
  let request := {| x_run_id := run_id self; x_level_id := level_id self; x_spec := spec;
                    x_target := target self; x_seed := seed; triggered_by := event |} in
  active ← gets _active;
  authorization ← lift (safety_gate self (authorization_request self spec active));
  if negb (allowed authorization) then
    now ← utc_now;
    r ← _record self spec event event_id "rejected" triggered_at
          [("safety_reasons", VList (map VStr (reasons authorization)))] (Some now);
    mret [r]
  else
    started ← _record self spec event event_id "triggered" triggered_at
                [("replay_seed", VInt seed)] None;
    match dget (backend spec) (adapters self) with
    | None =>
        now ← utc_now;
        failed ← _record self spec event event_id "failed" triggered_at
          [("error", VStr ("no adapter registered for backend " +:+ backend spec))] (Some now);
        mret [started; failed]
    | Some ad =>
        executed ← catch (r ← on_world (execute ad request); mret (inl r)) (λ exc, mret (inr exc));
        match executed with
        | inr exc =>
            now ← utc_now;
            failed ← _record self spec event event_id "failed" triggered_at
                       [("error", VStr (exn_msg exc))] (Some now);
            mret [started; failed]
        | inl r =>
            modify (set_active (λ l, l ++ [{| request := request; adapter := ad;
                      cleanup_state := res_cleanup_state r;
                      cleanup_required := res_cleanup_required r; event_id := event_id |}])) ;;
            now ← utc_now;
            completed ← _record self spec event event_id "completed" triggered_at
                          (outcome r) (Some now);
            mret [started; completed]
        end
    end.

(** One turn of the loop over [self.specs]. *)
Definition process_spec self event spec : prog (istate W) (list mapping) :=
  done ← gets (λ st, bool_decide (disturbance_id spec ∈ _triggered st));
  occ ← gets _tool_occurrences;
  if done || negb (_matches occ spec event) then mret []
  else modify (set_triggered (λ l, disturbance_id spec :: l)) ;; _execute self spec event.

Fixpoint process_specs self event (l : list DisturbanceSpec) : prog (istate W) (list mapping) :=
  match l with
  | [] => mret []
  | spec :: l' =>
      r ← process_spec self event spec; rs ← process_specs self event l'; mret (r ++ rs)
  end.

Definition process_event self event : prog (istate W) (list mapping) :=
  if negb (bool_decide (event_run_id event = run_id self)) ||
     negb (bool_decide (event_level_id event = level_id self))
  then throw ValueError "lifecycle event does not belong to this injector run and level"
  else
    when (bool_decide (event_kind event = "tool_call") && opt_truthy (event_tool event))
      (modify (set_occurrences (λ d, let t := default "" (event_tool event) in
                 dset t (default 0 (dget t d) + 1) d))) ;;
    process_specs self event (specs self).

(** [tick]: a timer event. *)
Definition tick self (phase : DisturbancePhase) (elapsed : pyfloat) (at_time : option datetime)
    : prog (istate W) (list mapping) := λ st,
  let '(st, at_time) := match at_time with
    | Some t => (st, t)
    | None => (fst (utc_now st), clock (ticks st))
    end in
  process_event self {| event_run_id := run_id self; event_level_id := level_id self;
    event_phase := phase; event_kind := "timer"; occurred_at := at_time; event_tool := None;
    elapsed_seconds := Some elapsed; payload := [] |} st.

(** One turn of the loop over [reversed(self._active)]. *)
Definition cleanup_one self (reason : string) (active : ActiveExecution W)
    : prog (istate W) (list mapping) :=
  if negb (cleanup_required active) then mret []
  else
    now ← utc_now;
    res ← catch (o ← on_world (cleanup (adapter active) (request active) (cleanup_state active));
                 mret (o, "cleaned"))
                (λ exc, mret ([("error", VStr (exn_msg exc))], "cleanup_failed"));
    let '(out, status) := res in
    let ev := triggered_by (request active) in
    r ← _record self (x_spec (request active)) ev (event_id active) status
          (utc_iso (occurred_at ev)) (dict_update [("reason", VStr reason)] out) (Some now);
    mret [r].

Fixpoint cleanup_list self (reason : string) (l : list (ActiveExecution W))
    : prog (istate W) (list mapping) :=
  match l with
  | [] => mret []
  | a :: l' => r ← cleanup_one self reason a; rs ← cleanup_list self reason l'; mret (r ++ rs)
  end.

Definition cleanup_all self (reason : string) : prog (istate W) (list mapping) :=
  active ← gets _active;
  records ← cleanup_list self reason (rev active);
  modify (set_active (λ _, [])) ;;
  mret records.
End injector.

(** * Properties *)

Definition rec_id (r : mapping) : val := vget r "disturbance_id".
Definition rec_status (r : mapping) : val := vget r "status".

Lemma app_two {A} (l : list A) a b : (l ++ [a]) ++ [b] = l ++ [a; b].
Proof. by rewrite <- app_assoc. Qed.

(** Unfold a method into its cases. *)
Ltac step_prog H :=
  cbv [mbind prog_bind lift gets modify throw mret prog_ret catch on_world when _record
       utc_now raise result_ret] in H;
  repeat case_match; simplify_eq/=.

Section make_record.
Context {W : Type} (self : DisturbanceInjector W).

Lemma make_record_id spec ev eid status at_ out c :
  rec_id (make_record self spec ev eid status at_ out c) = VStr (disturbance_id spec).
Proof. reflexivity. Qed.

Lemma make_record_status spec ev eid status at_ out c :
  rec_status (make_record self spec ev eid status at_ out c) = VStr status.
Proof. reflexivity. Qed.
End make_record.

(** A record of the decision on disturbance [d]: it ran or it was refused. *)
Definition is_decision (d : string) (r : mapping) : bool :=
  is_str (rec_id r) d && in_str_list (rec_status r) ["triggered"; "rejected"].

Section injector_proofs.
Context {W : Type} (clock : nat → datetime).
Implicit Types (self : DisturbanceInjector W) (st : istate W) (spec : DisturbanceSpec).

Lemma is_decision_record self spec ev eid status at_ out c d :
  is_decision d (make_record self spec ev eid status at_ out c) =
  bool_decide (disturbance_id spec = d) && bool_decide (status ∈ ["triggered"; "rejected"]).
Proof.
  unfold is_decision. rewrite make_record_id, make_record_status, is_str_VStr. f_equal.
  apply eq_bool_prop_intro. rewrite !Is_true_true, in_str_list_true, bool_decide_eq_true.
  naive_solver.
Qed.

(** What one execution may do to the injector. *)
Record executed self spec st st' : Prop := {
  ex_triggered : _triggered st' = _triggered st;
  ex_occurrences : _tool_occurrences st' = _tool_occurrences st;
  ex_sink : ∃ new, record_sink st' = record_sink st ++ new ∧
    (∀ d, count (is_decision d) new ≤ if decide (disturbance_id spec = d) then 1 else 0)%nat;
  ex_active : (_active st' = _active st ∧
      (world st' = world st ∨ ∃ d, safety_gate self
        (authorization_request self spec (_active st)) = Ok d ∧ allowed d = true)) ∨
    ∃ a d, _active st' = _active st ++ [a] ∧ x_spec (request a) = spec ∧
      safety_gate self (authorization_request self spec (_active st)) = Ok d ∧
      allowed d = true }.

Lemma execute_executed self spec ev st st' r :
  _execute clock self spec ev st = (st', r) → executed self spec st st'.
Proof.
  unfold _execute. intros H. step_prog H.
  all: split; simpl; try done.
  all: try (exists []; split; [by rewrite app_nil_r|]; intros d; rewrite count_nil; lia).
  all: try (eexists; split; [first [reflexivity | apply app_two]|]; intros d';
            rewrite ?count_cons, ?count_nil, ?is_decision_record;
            destruct (decide (disturbance_id spec = d')) as [->|Hne];
            [rewrite bool_decide_true by done; vm_compute; lia
            |rewrite bool_decide_false by done; simpl; lia]).
  all: try (left; split; [done|]; left; done).
  all: try (left; split; [done|]; right; eexists; split; [eassumption|];
            by apply negb_false_iff).
  all: try (right; eexists _, _; split_and!; [reflexivity|done|eassumption|];
            by apply negb_false_iff).
Qed.

Section spec_loop.
Context self (ev : LifecycleEvent) (P : istate W → Prop).
Context (HP : ∀ spec st st', disturbance_id spec ∉ _triggered st → P st →
  executed self spec (set_triggered (λ l, disturbance_id spec :: l) st) st' → P st').

Lemma process_spec_inv spec st : P st → P (process_spec clock self ev spec st).1.
Proof.
  intros H. unfold process_spec. cbv [mbind prog_bind gets mret prog_ret modify].
  destruct (bool_decide (disturbance_id spec ∈ _triggered st)) eqn:E; simpl; [done|].
  apply bool_decide_eq_false in E.
  destruct (negb (_matches _ _ _)); simpl; [done|].
  destruct (_execute clock self spec ev _) as [st' r] eqn:Ex. simpl.
  eapply HP; [exact E|exact H|]. by eapply execute_executed.
Qed.

Lemma process_specs_inv l st : P st → P (process_specs clock self ev l st).1.
Proof.
  revert st. induction l as [|spec l IH]; intros st H; [done|].
  cbn [process_specs]. rewrite prog_bind_eq.
  pose proof (process_spec_inv spec st H) as H1.
  destruct (process_spec clock self ev spec st) as [st1 [rs|e]]; [|done].
  rewrite prog_bind_eq. specialize (IH st1 H1).
  by destruct (process_specs clock self ev l st1) as [st2 [rs2|e2]].
Qed.

Context (HPocc : ∀ f st, P st → P (set_occurrences f st)).

Lemma process_event_inv st : P st → P (process_event clock self ev st).1.
Proof.
  intros H. unfold process_event. destruct (_ || _); [done|]. rewrite prog_bind_eq.
  unfold when. destruct (_ && _); simpl; apply process_specs_inv; [by apply HPocc|done].
Qed.
End spec_loop.

(** What cleaning one execution may do. *)
Record cleaned st st' : Prop := {
  cl_triggered : _triggered st' = _triggered st;
  cl_occurrences : _tool_occurrences st' = _tool_occurrences st;
  cl_active : _active st' = _active st;
  cl_sink : ∃ new, record_sink st' = record_sink st ++ new ∧
    ∀ d, count (is_decision d) new = 0%nat }.

Lemma cleaned_refl st : cleaned st st.
Proof. split; try done. exists []. by rewrite app_nil_r. Qed.

Lemma cleaned_trans st1 st2 st3 : cleaned st1 st2 → cleaned st2 st3 → cleaned st1 st3.
Proof.
  intros [? ? ? (n1 & Hs1 & Hc1)] [? ? ? (n2 & Hs2 & Hc2)]. split; try congruence.
  exists (n1 ++ n2). split; [by rewrite Hs2, Hs1, app_assoc|].
  intros d. by rewrite count_app, Hc1, Hc2.
Qed.

(** The record of one cleanup: [cleaned], or [cleanup_failed] with the error. *)
Lemma cleanup_one_spec self reason a st :
  let '(st', r) := cleanup_one clock self reason a st in
  cleaned st st' ∧
  (if cleanup_required a
   then world st' = (cleanup (adapter a) (request a) (cleanup_state a) (world st)).1 ∧
        ∃ rec, r = Ok [rec] ∧ rec_id rec = VStr (disturbance_id (x_spec (request a))) ∧
          rec_status rec = VStr (if is_ok (cleanup (adapter a) (request a) (cleanup_state a)
                                             (world st)).2
                                 then "cleaned" else "cleanup_failed")
   else st' = st ∧ r = Ok []).
Proof.
  unfold cleanup_one. destruct (cleanup_required a); [|by split; [apply cleaned_refl|]].
  cbv [mbind prog_bind catch on_world modify mret prog_ret utc_now _record]. simpl.
  destruct (cleanup (adapter a) (request a) (cleanup_state a) (world st)) as [w [o|e]]; simpl.
  all: split; [split; try done; eexists; split; [reflexivity|]; intros d;
               rewrite count_cons, count_nil, is_decision_record, andb_false_r; done|].
  all: split; [done|]; eexists; split_and!; reflexivity.
Qed.

(** The world after cleaning a list of executions, in order. *)
Definition cleanup_world (l : list (ActiveExecution W)) (w : W) : W :=
  foldl (λ w a, if cleanup_required a
                then (cleanup (adapter a) (request a) (cleanup_state a) w).1 else w) w l.

Definition required (l : list (ActiveExecution W)) : list (ActiveExecution W) :=
  List.filter cleanup_required l.

Lemma cleanup_list_spec self reason l st :
  ∃ st' rs, cleanup_list clock self reason l st = (st', Ok rs) ∧ cleaned st st' ∧
    world st' = cleanup_world l (world st) ∧
    map rec_id rs = map (λ a, VStr (disturbance_id (x_spec (request a)))) (required l) ∧
    ∀ r, r ∈ rs → rec_status r = VStr "cleaned" ∨ rec_status r = VStr "cleanup_failed".
Proof.
  revert st. induction l as [|a l IH]; intros st.
  - exists st, []. split_and!; [done|apply cleaned_refl|done|done|].
    intros r Hr. by apply not_elem_of_nil in Hr.
  - cbn [cleanup_list]. rewrite prog_bind_eq.
    pose proof (cleanup_one_spec self reason a st) as H1.
    destruct (cleanup_one clock self reason a st) as [st1 r1]. destruct H1 as [Hc1 H1].
    unfold required, cleanup_world. simpl. fold (required l).
    destruct (cleanup_required a).
    + destruct H1 as (Hw & rec & -> & Hid & Hst).
      destruct (IH st1) as (st2 & rs & Hl & Hc2 & Hw2 & Hids & Hsts).
      rewrite prog_bind_eq, Hl. exists st2, ([rec] ++ rs).
      split_and!; [done|by eapply cleaned_trans|by rewrite Hw2, Hw|simpl; by rewrite Hid, Hids|].
      simpl. intros r [->|Hr]%elem_of_cons; [|auto]. rewrite Hst. destruct (is_ok _); auto.
    + destruct H1 as [-> ->]. destruct (IH st) as (st2 & rs & Hl & Hc2 & Hw2 & Hids & Hsts).
      rewrite prog_bind_eq, Hl. exists st2, ([] ++ rs). split_and!; done.
Qed.

Lemma cleanup_all_spec self reason st :
  ∃ st' rs, cleanup_all clock self reason st = (st', Ok rs) ∧ _active st' = [] ∧
    _triggered st' = _triggered st ∧
    (∃ new, record_sink st' = record_sink st ++ new ∧
            ∀ d, count (is_decision d) new = 0%nat) ∧
    world st' = cleanup_world (rev (_active st)) (world st) ∧
    map rec_id rs = map (λ a, VStr (disturbance_id (x_spec (request a))))
                      (required (rev (_active st))) ∧
    ∀ r, r ∈ rs → rec_status r = VStr "cleaned" ∨ rec_status r = VStr "cleanup_failed".
Proof.
  unfold cleanup_all. rewrite prog_bind_eq. cbn [gets].
  destruct (cleanup_list_spec self reason (rev (_active st)) st)
    as (st' & rs & Hl & [Ht _ _ Hs] & Hw & Hids & Hsts).
  rewrite prog_bind_eq, Hl. exists (set_active (λ _, []) st'), rs.
  split_and!; done.
Qed.

(** ** Reachable injector states *)

Inductive reachable self (w : W) : istate W → Prop :=
  | reach_init : reachable self w (initial_istate w)
  | reach_event st ev :
      reachable self w st → reachable self w (process_event clock self ev st).1
  | reach_tick st phase elapsed at_time :
      reachable self w st → reachable self w (tick clock self phase elapsed at_time st).1
  | reach_cleanup st reason :
      reachable self w st → reachable self w (cleanup_all clock self reason st).1.

Lemma injector_reachable_inv self w (P : istate W → Prop) :
  P (initial_istate w) →
  (∀ spec st st', disturbance_id spec ∉ _triggered st → P st →
     executed self spec (set_triggered (λ l, disturbance_id spec :: l) st) st' → P st') →
  (∀ f st, P st → P (set_occurrences f st)) →
  (∀ st, P st → P (utc_now clock st).1) →
  (∀ reason st, P st → P (cleanup_all clock self reason st).1) →
  ∀ st, reachable self w st → P st.
Proof.
  intros H0 Hx Ho Hc Hcl. induction 1 as [|st ev _ IH|st phase el at_ _ IH|st reason _ IH].
  - done.
  - by apply process_event_inv.
  - unfold tick. destruct at_; by apply process_event_inv; auto.
  - by apply Hcl.
Qed.

(** C9: Whatever events, ticks and clean-ups an injector has seen, each configured disturbance
    has at most one record of having been triggered or rejected. *)
Theorem disturbance_decided_once self w st d :
  reachable self w st → (count (is_decision d) (record_sink st) <= 1)%nat.
Proof.
  intros Hr.
  assert (count (is_decision d) (record_sink st) <=
          if decide (d ∈ _triggered st) then 1 else 0)%nat as H; [|case_decide; lia].
  revert st Hr. apply (injector_reachable_inv self w (λ st, count (is_decision d) (record_sink st) <=
          if decide (d ∈ _triggered st) then 1 else 0)%nat).
  - apply Nat.le_0_l.
  - intros spec st st' Hn H [Ht _ (new & Hs & Hc) _]. rewrite Hs, count_app, Ht. simpl in *.
    specialize (Hc d).
    destruct (decide (disturbance_id spec = d)) as [<-|Hne].
    + rewrite decide_False in H by done. rewrite decide_True by (by left). lia.
    + destruct (decide (d ∈ _triggered st)).
      * rewrite decide_True by (by right). lia.
      * rewrite decide_False by (intros [?|?]%elem_of_cons; congruence). lia.
  - done.
  - done.
  - intros reason st H.
    destruct (cleanup_all_spec self reason st) as (st' & rs & -> & _ & Ht & (new & Hs & Hc) & _).
    simpl. rewrite Hs, count_app, Hc, Ht. lia.
Qed.

(** With a gate that keeps a budget, an injector never has more than that many mutating
    disturbances waiting for their clean-up. *)
Theorem mutating_disturbances_bounded self w st budget :
  SafetyGate (safety_gate self) budget → 0 <= budget →
  reachable self w st → Z.of_nat (mutating_active (_active st)) <= budget.
Proof.
  intros Hgate Hb. revert st. apply injector_reachable_inv; try done.
  - intros spec st st' _ H [_ _ _ [[Ha _]|(a & d & Ha & Hspec & Hd & Hal)]];
      rewrite Ha; simpl; [done|].
    unfold mutating_active in *. rewrite count_app, count_cons, count_nil.
    destruct (cleanup_required a); [|simpl; lia].
    destruct (is_mutating (backend (x_spec (request a)))) eqn:Hm; simpl; [|lia].
    rewrite Hspec in Hm. pose proof (gate_budget _ _ Hd Hal Hm) as Hlt.
    simpl in Hlt. unfold mutating_active in Hlt. lia.
  - intros reason st _.
    destruct (cleanup_all_spec self reason st) as (st' & rs & -> & Ha & _). simpl.
    rewrite Ha. done.
Qed.

(** An injector whose gate refuses everything touches neither the world nor the active list. *)
Theorem gate_fail_closed self ev st :
  (∀ request d, safety_gate self request = Ok d → allowed d = false) →
  world (process_event clock self ev st).1 = world st ∧
  _active (process_event clock self ev st).1 = _active st.
Proof.
  intros Hg.
  apply (process_event_inv self ev (λ st', world st' = world st ∧ _active st' = _active st));
    [|done|done].
  intros spec st1 st' _ [Hw Ha] [_ _ _ [[Ha' [Hw'|(d & Hd & Hal)]]|(a & d & _ & _ & Hd & Hal)]].
  - simpl in *. by rewrite Hw', Ha'.
  - apply Hg in Hd. congruence.
  - apply Hg in Hd. congruence.
Qed.

(** The clean-up always returns, empties the active list, cleans every execution that needs it
    once, latest first, and records each as cleaned or failed. *)
Theorem cleanup_all_exact self reason st :
  ∃ st' rs, cleanup_all clock self reason st = (st', Ok rs) ∧
    _active st' = [] ∧
    world st' = cleanup_world (rev (_active st)) (world st) ∧
    map rec_id rs = map (λ a, VStr (disturbance_id (x_spec (request a))))
                      (required (rev (_active st))) ∧
    cleanup_all clock self reason st' = (st', Ok []).
Proof.
  destruct (cleanup_all_spec self reason st) as (st' & rs & H & Ha & _ & _ & Hw & Hids & _).
  exists st', rs. split_and!; try done.
  unfold cleanup_all. rewrite !prog_bind_eq. cbn [gets]. rewrite prog_bind_eq, Ha. simpl.
  unfold modify, set_active. simpl. destruct st'; simpl in *; by subst.
Qed.
End injector_proofs.

(** ** A sample trial: the controller's gate and one adapter *)

Definition sample_adapter : DisturbanceAdapter nat := {|
  execute := λ _ w, (S w, Ok {| outcome := [("done", VBool true)]; res_cleanup_state := [];
                                res_cleanup_required := true |});
  cleanup := λ _ _ w, (S w, Ok []) |}.

Definition sample_disturbance : DisturbanceSpec := {|
  disturbance_id := "d-1"; spec_type := RESOURCE_QUOTA_REDUCTION; spec_phase := OBSERVATION;
  backend := "kubernetes";
  trigger := {| mode := LIFECYCLE_EVENT; trigger_phase := OBSERVATION;
                event := Some "observe_started"; tool := None; occurrence := None;
                offset_seconds := None |};
  action := [("operation", VStr "patch_quota")]; parameters := [];
  expected_behaviors := ["replans"]; verification := ["controller_record"];
  replay_seed := Some 7 |}.

Definition sample_injector
    (gate : DisturbanceAuthorizationRequest → result DisturbanceAuthorizationDecision)
    : DisturbanceInjector nat := {|
  run_id := "run-1"; level_id := "level-2"; attempt := 1; trial_id := "trial-1";
  specs := [sample_disturbance]; target := req_target sample_request;
  safety_gate := gate; adapters := [("kubernetes", sample_adapter)] |}.

Definition sample_event : LifecycleEvent := {|
  event_run_id := "run-1"; event_level_id := "level-2"; event_phase := OBSERVATION;
  event_kind := "observe_started"; occurred_at := utc_of 0; event_tool := None;
  elapsed_seconds := None; payload := [] |}.

Definition sample_clock (n : nat) : datetime := utc_of (Z.of_nat n).

Definition sample_state : istate nat :=
  (process_event sample_clock (sample_injector (authorize sample_gate)) sample_event
     (initial_istate 0%nat)).1.

(** The disturbance ran: the adapter acted once and is waiting for its cleanup. *)
Example sample_state_ran :
  world sample_state = 1%nat ∧ mutating_active (_active sample_state) = 1%nat ∧
  map rec_status (record_sink sample_state) = [VStr "triggered"; VStr "completed"].
Proof. vm_compute. split_and!; reflexivity. Qed.

Lemma sample_state_reachable :
  reachable sample_clock (sample_injector (authorize sample_gate)) 0%nat sample_state.
Proof. apply reach_event, reach_init. Qed.

Lemma disturbance_decided_once_witness :
  (count (is_decision "d-1") (record_sink sample_state) <= 1)%nat.
Proof. exact (disturbance_decided_once _ _ _ _ "d-1" sample_state_reachable). Defined.

Lemma mutating_disturbances_bounded_witness :
  Z.of_nat (mutating_active (_active sample_state)) <= 1.
Proof.
  refine (mutating_disturbances_bounded sample_clock (sample_injector (authorize sample_gate))
            0%nat sample_state 1 (controller_gate sample_gate) _ sample_state_reachable).
  discriminate.
Defined.

Definition closed_gate (r : DisturbanceAuthorizationRequest)
    : result DisturbanceAuthorizationDecision :=
  Ok {| allowed := false; reasons := ["CLOSED"] |}.

Lemma gate_fail_closed_witness :
  world (process_event sample_clock (sample_injector closed_gate) sample_event
           (initial_istate 0%nat)).1 = 0%nat.
Proof.
  refine (proj1 (gate_fail_closed sample_clock (sample_injector closed_gate) sample_event
                   (initial_istate 0%nat) _)).
  intros request d [= <-]. reflexivity.
Defined.
