(* ===== verification/TelemetryRules.v ===== *)
(** * The telemetry disturbance rules ([disturbances/telemetry_interceptor.py])

    The rule registry behind the telemetry proxy: registration and removal, the
    failure schedule consulted before a tool call, and the data gap applied to
    its response.  Every method runs under the engine's lock, so each is one
    step.  [TelemetryInjectedFailure] is the value a failing call returns. *)

From S2P Require Import Prelude PyVal PyTime Sha256 DisturbanceTypes.

#[local] Open Scope Z_scope.

(** A normalized rule, as [_validate_rule] returns it. *)
Inductive Rule :=
  | FailureSchedule (tool : string) (slots : list Z) (response_modes : list string)
      (timeout_milliseconds : Z)
  | MetricDataGap (tool : string) (missing_slots : list Z).

Definition rule_tool (r : Rule) : string :=
  match r with FailureSchedule t _ _ _ | MetricDataGap t _ => t end.

Definition rule_as_dict (r : Rule) : mapping :=
  match r with
  | FailureSchedule t slots modes timeout =>
      [("kind", VStr "telemetry_failure_schedule"); ("tool", VStr t);
       ("slots", VList (map VInt slots)); ("response_modes", VList (map VStr modes));
       ("timeout_milliseconds", VInt timeout)]
  | MetricDataGap t slots =>
      [("kind", VStr "metric_data_gap"); ("tool", VStr t);
       ("missing_slots", VList (map VInt slots))]
  end.

Record _ActiveRule := {
  rule_id : string;
  rule_run_id : string;
  rule_level_id : string;
  rule_disturbance_id : string;
  rule : Rule;
  call_count : Z }.

(** ** Validation *)

(** [sorted({int(item) for item in value})], positive and non-empty. *)
Definition _positive_unique_ints (value : val) (name : string) : result (list Z) :=
  match value with
  | VList ((_ :: _) as items) =>
      ints ← foldM (λ acc item, i ← py_int item; Ok (acc ++ [i])) [] items;
      let sorted := sort_by Z.leb (dedup ints) in
      if match sorted with x :: _ => x <? 1 | [] => false end
      then raise ValueError (name +:+ " values must be positive")
      else Ok sorted
  | _ => raise ValueError (name +:+ " must be a non-empty list")
  end.

(** [any(item not in {"http_503", "timeout"} for item in modes)] *)
Fixpoint any_unknown_mode (modes : list val) : result bool :=
  match modes with
  | [] => Ok false
  | item :: rest =>
      known ← in_str_set item ["http_503"; "timeout"];
      if known : bool then any_unknown_mode rest else Ok true
  end.

Definition _validate_rule (value : mapping) : result Rule :=
  let kind := str_or_empty (vget value "kind") in
  let tool := py_str (py_or (vget value "tool") (VStr "telemetry_prom_metric_range")) in
  if bool_decide (kind = "telemetry_failure_schedule") then
    slots ← _positive_unique_ints (vget value "slots") "slots";
    let bad := raise ValueError "failure response_modes must contain http_503 and/or timeout" in
    modes ← match vget value "response_modes" with
            | VList ((_ :: _) as modes) =>
                unknown ← any_unknown_mode modes;
                if unknown : bool then bad else Ok (omap as_str modes)
            | _ => bad
            end;
    timeout ← py_int (vget_or value "timeout_milliseconds" (VInt 1500));
    if (timeout <? 1) || (5000 <? timeout)
    then raise ValueError "timeout_milliseconds must be between 1 and 5000"
    else Ok (FailureSchedule tool slots modes timeout)
  else if bool_decide (kind = "metric_data_gap") then
    slots ← _positive_unique_ints (vget value "missing_slots") "missing_slots";
    Ok (MetricDataGap tool slots)
  else raise ValueError "unsupported telemetry disturbance rule kind".

Definition telemetry_rule_id (run_id level_id disturbance_id : string) : result string :=
  if negb (nonempty run_id && nonempty level_id && nonempty disturbance_id)
  then raise ValueError "telemetry rule identity fields must be non-empty"
  else Ok ("telemetry-rule-" +:+ unchars (take 16 (chars (hexdigest
         (str_join unit_separator [run_id; level_id; disturbance_id]))))).

(** ** The engine *)

Record Engine := {
  _rules : dict string _ActiveRule;
  _events : list mapping;
  clock_reads : nat }.

Definition new_engine : Engine := {| _rules := []; _events := []; clock_reads := 0%nat |}.

(** What a failing call raises, with the sleep that precedes it. *)
Record TelemetryInjectedFailure := {
  failure_mode : string;
  failure_rule_id : string;
  http_status : option Z;
  slept_milliseconds : option Z }.

Section engine.
Context (clock : nat → datetime).

(** [_event], appended to [self._events]. *)
Definition _event (ts : string) (active : _ActiveRule) (status : string) (detail : mapping)
    : mapping :=
  [("ts", VStr ts); ("rule_id", VStr (rule_id active)); ("run_id", VStr (rule_run_id active));
   ("level_id", VStr (rule_level_id active));
   ("disturbance_id", VStr (rule_disturbance_id active)); ("status", VStr status);
   ("detail", VDict detail)].

Definition log_event (active : _ActiveRule) (status : string) (detail : mapping)
    (e : Engine) : Engine := {|
  _rules := _rules e;
  _events := _events e ++ [_event (utc_iso (clock (clock_reads e))) active status detail];
  clock_reads := S (clock_reads e) |}.

Definition set_rules (rules : dict string _ActiveRule) (e : Engine) : Engine := {|
  _rules := rules; _events := _events e; clock_reads := clock_reads e |}.

Definition register_rule (run_id level_id disturbance_id : string) (raw : mapping)
    : prog Engine string := λ e,
  match _validate_rule raw, telemetry_rule_id run_id level_id disturbance_id with
  | Err x, _ | _, Err x => (e, Err x)
  | Ok normalized, Ok rid =>
      let active := {| rule_id := rid; rule_run_id := run_id; rule_level_id := level_id;
                       rule_disturbance_id := disturbance_id; rule := normalized;
                       call_count := 0 |} in
      if dmem rid (_rules e)
      then (e, raise ValueError ("telemetry rule already exists: " +:+ rid))
      else (log_event active "registered" [("rule", VDict (rule_as_dict normalized))]
              (set_rules (dset rid active (_rules e)) e), Ok rid)
  end.

Definition remove_rule (rid : string) : prog Engine bool := λ e,
  match dget rid (_rules e) with
  | None => (e, Ok false)
  | Some active => (log_event active "removed" [] (set_rules (ddel rid (_rules e)) e), Ok true)
  end.

(** [l.index(x)] of a present element. *)
Fixpoint index_of (x : Z) (l : list Z) : nat :=
  match l with
  | [] => 0
  | y :: l' => if x =? y then 0%nat else S (index_of x l')
  end.

Definition mode_at (slots : list Z) (modes : list string) (slot : Z) : string :=
  nth (index_of slot slots mod length modes) modes "".

Definition bump (active : _ActiveRule) : _ActiveRule := {|
  rule_id := rule_id active; rule_run_id := rule_run_id active;
  rule_level_id := rule_level_id active; rule_disturbance_id := rule_disturbance_id active;
  rule := rule active; call_count := call_count active + 1 |}.

(** One turn of the loop of [before_tool]: the rule afterwards, and the mode it
    injects. *)
Definition consult (tool : string) (active : _ActiveRule) : _ActiveRule * option string :=
  match rule active with
  | FailureSchedule t slots modes _ =>
      if negb (bool_decide (t = tool)) then (active, None)
      else
        let active := bump active in
        let slot := call_count active in
        if bool_decide (slot ∈ slots) then (active, Some (mode_at slots modes slot))
        else (active, None)
  | MetricDataGap _ _ => (active, None)
  end.

Fixpoint consult_rules (tool : string) (rules : dict string _ActiveRule) (e : Engine)
    : Engine * dict string _ActiveRule * list (_ActiveRule * string) :=
  match rules with
  | [] => (e, [], [])
  | (k, active) :: rest =>
      let '(active', hit) := consult tool active in
      let e := match hit with
               | Some mode => log_event active' "matched"
                   [("tool", VStr tool); ("call_slot", VInt (call_count active'));
                    ("mode", VStr mode)] e
               | None => e
               end in
      let '(e, rest', actions) := consult_rules tool rest e in
      (e, (k, active') :: rest',
       match hit with Some mode => (active', mode) :: actions | None => actions end)
  end.

Definition timeout_of (r : Rule) : option Z :=
  match r with FailureSchedule _ _ _ t => Some t | MetricDataGap _ _ => None end.

(** [before_tool]: [Some failure] when the call is made to fail. *)
Definition before_tool (tool : string) (e : Engine) : Engine * option TelemetryInjectedFailure :=
  let '(e', rules, actions) := consult_rules tool (_rules e) e in
  (set_rules rules e',
   match actions with
   | [] => None
   | (active, mode) :: _ => Some {|
       failure_mode := mode; failure_rule_id := rule_id active;
       http_status := if bool_decide (mode = "http_503") then Some 503 else None;
       slept_milliseconds :=
         if bool_decide (mode = "timeout") then timeout_of (rule active) else None |}
   end).

(** [kept] of [_remove_metric_slots], counting positions from [i]. *)
Fixpoint keep_slots {A} (missing : list Z) (i : Z) (values : list A) : list A :=
  match values with
  | [] => []
  | v :: rest => if bool_decide (i ∈ missing) then keep_slots missing (i + 1) rest
                 else v :: keep_slots missing (i + 1) rest
  end.

Definition remove_from_series (missing : list Z) (series : val) : val * Z :=
  match series with
  | VDict d =>
      match vget d "values" with
      | VList values =>
          let kept := keep_slots missing 1 values in
          (VDict (dset "values" (VList kept) d),
           Z.of_nat (length values) - Z.of_nat (length kept))
      | _ => (series, 0)
      end
  | _ => (series, 0)
  end.

Definition _remove_metric_slots (response : mapping) (missing : list Z) : result (mapping * Z) :=
  match vget_or response "result" (VList []) with
  | VList l =>
      let l' := map (remove_from_series missing) l in
      Ok (if has_key response "result" then dset "result" (VList l'.*1) response else response,
          foldr Z.add 0 l'.*2)
  | v => _ ← py_list v; Ok (response, 0)
  end.

(** One turn of the loop of [after_tool]. *)
Definition transform (tool : string) (acc : mapping) (active : _ActiveRule)
    : prog Engine mapping := λ e,
  match rule active with
  | MetricDataGap t missing =>
      if bool_decide (t = tool) then
        match _remove_metric_slots acc missing with
        | Err x => (e, Err x)
        | Ok (acc', removed) =>
            (log_event active "response_transformed"
               [("tool", VStr tool); ("removed_points", VInt removed)] e, Ok acc')
        end
      else (e, Ok acc)
  | FailureSchedule _ _ _ _ => (e, Ok acc)
  end.

Fixpoint transform_all (tool : string) (acc : mapping) (rules : list _ActiveRule)
    : prog Engine mapping :=
  match rules with
  | [] => mret acc
  | active :: rest => acc' ← transform tool acc active; transform_all tool acc' rest
  end.

Definition after_tool (tool : string) (response : mapping) : prog Engine mapping := λ e,
  transform_all tool response (dvalues (_rules e)) e.
End engine.

(** * Properties *)

Lemma rules_log clock a s d e : _rules (log_event clock a s d e) = _rules e.
Proof. done. Qed.

(** ** The failure schedule *)

Section schedule.
Context (clock : nat → datetime).

(** The first [k]-th calls to a tool, by their outcomes. *)
Fixpoint call_outcomes (tool : string) (n : nat) (e : Engine)
    : list (option TelemetryInjectedFailure) :=
  match n with
  | O => []
  | S n' => let '(e', r) := before_tool clock tool e in r :: call_outcomes tool n' e'
  end.

Definition only_rule (e : Engine) (k : string) (a : _ActiveRule) : Prop := _rules e = [(k, a)].

Lemma before_tool_only tool e k a slots modes timeout :
  only_rule e k a → rule a = FailureSchedule tool slots modes timeout →
  let '(e', r) := before_tool clock tool e in
  only_rule e' k (bump a) ∧
  r = if bool_decide (call_count a + 1 ∈ slots)
      then Some (let mode := mode_at slots modes (call_count a + 1) in {|
             failure_mode := mode; failure_rule_id := rule_id a;
             http_status := if bool_decide (mode = "http_503") then Some 503 else None;
             slept_milliseconds :=
               if bool_decide (mode = "timeout") then Some timeout else None |})
      else None.
Proof.
  unfold only_rule, before_tool. intros He Hr. rewrite He. simpl. unfold consult. rewrite Hr.
  rewrite bool_decide_true by done. simpl.
  destruct (bool_decide (call_count a + 1 ∈ slots)); simpl; [|done].
  split; [done|]. by rewrite Hr.
Qed.

(** Under a failure schedule the calls of its tool that fail are exactly those at the scheduled
    positions, each with the mode of its position. *)
Theorem failure_schedule_exact tool slots modes timeout e k a n i :
  only_rule e k a → rule a = FailureSchedule tool slots modes timeout →
  (i < n)%nat →
  ∃ r, call_outcomes tool n e !! i = Some r ∧
    (is_Some r ↔ call_count a + Z.of_nat i + 1 ∈ slots) ∧
    (∀ f, r = Some f → failure_rule_id f = rule_id a ∧
       failure_mode f = mode_at slots modes (call_count a + Z.of_nat i + 1)).
Proof.
  revert e a i. induction n as [|n IH]; intros e a i He Hr Hi; [lia|].
  pose proof (before_tool_only tool e k a slots modes timeout He Hr) as Hb.
  simpl. destruct (before_tool clock tool e) as [e' r]. destruct Hb as [He' ->].
  destruct i as [|i]; simpl.
  - rewrite Z.add_0_r. eexists; split; [done|].
    case_bool_decide; (split; [|by intros f [= <-]]); split; try done.
  - destruct (IH e' (bump a) i He' Hr) as (r & Hl & Hs & Hm); [lia|].
    exists r. split; [done|]. simpl in Hs, Hm.
    by replace (call_count a + Z.of_nat (S i) + 1) with (call_count a + 1 + Z.of_nat i + 1) by lia.
Qed.
End schedule.

(** ** The data gap *)

Lemma elem_of_keep_slots {A} missing (values : list A) i v :
  v ∈ keep_slots missing i values ↔
  ∃ j, values !! j = Some v ∧ i + Z.of_nat j ∉ missing.
Proof.
  revert i. induction values as [|x l IH]; intros i; simpl.
  - rewrite elem_of_nil. split; [done|]. intros (j & Hj & _). by rewrite lookup_nil in Hj.
  - assert ((∃ j, l !! j = Some v ∧ i + 1 + Z.of_nat j ∉ missing) ↔
            ∃ j, (x :: l) !! S j = Some v ∧ i + Z.of_nat (S j) ∉ missing) as E.
    { split; intros (j & Hj & Hm); exists j; (split; [done|]);
        [replace (i + Z.of_nat (S j)) with (i + 1 + Z.of_nat j) by lia
        |replace (i + 1 + Z.of_nat j) with (i + Z.of_nat (S j)) by lia]; done. }
    assert ((∃ j, (x :: l) !! j = Some v ∧ i + Z.of_nat j ∉ missing) ↔
            (x = v ∧ i ∉ missing) ∨ v ∈ keep_slots missing (i + 1) l) as ->.
    { rewrite IH, E. split.
      - intros ([|j] & Hj & Hm); [left; simplify_eq/=; by rewrite Z.add_0_r in Hm|right; eauto].
      - intros [[-> Hm]|(j & Hj)]; [exists 0%nat; by rewrite Z.add_0_r|eauto]. }
    case_bool_decide; rewrite ?elem_of_cons; naive_solver.
Qed.

Lemma keep_slots_sublist {A} missing (values : list A) i :
  sublist (keep_slots missing i values) values.
Proof.
  revert i. induction values as [|x l IH]; intros i; simpl; [constructor|].
  case_bool_decide; constructor; apply IH.
Qed.

(** What the gap does to one series. *)
Definition series_gapped (missing : list Z) (before after : val) : Prop :=
  ∀ d values, before = VDict d → vget d "values" = VList values →
  ∃ d', after = VDict d' ∧ vget d' "values" = VList (keep_slots missing 1 values) ∧
        ∀ k, k ≠ "values" → vget d' k = vget d k.

Lemma remove_from_series_gapped missing v : series_gapped missing v (remove_from_series missing v).1.
Proof.
  intros d values -> Hv. simpl. rewrite Hv. simpl. eexists; split; [done|].
  split; [by rewrite vget_dset_eq|]. intros k Hk. by apply vget_dset_ne.
Qed.

(** Under a data gap every series of the tool's response loses exactly the points at the
    scheduled positions and nothing else changes. *)
Theorem data_gap_exact clock tool missing e k a response series :
  only_rule e k a → rule a = MetricDataGap tool missing →
  dget "result" response = Some (VList series) →
  ∃ e' response' series',
    after_tool clock tool response e = (e', Ok response') ∧ _rules e' = _rules e ∧
    dget "result" response' = Some (VList series') ∧
    Forall2 (series_gapped missing) series series' ∧
    ∀ key, key ≠ "result" → dget key response' = dget key response.
Proof.
  unfold only_rule, after_tool. intros He Hr Hs. rewrite He. simpl.
  rewrite prog_bind_eq. unfold transform. rewrite Hr, bool_decide_true by done.
  unfold _remove_metric_slots, vget_or, has_key, dmem. rewrite Hs. cbn [default].
  rewrite bool_decide_true by done. simpl.
  eexists _, _, _. split_and!; [done|done|by rewrite dget_dset_eq| |].
  - rewrite <- list_fmap_compose. apply Forall2_fmap_r.
    apply Forall_Forall2_diag. apply Forall_true. intros v. apply remove_from_series_gapped.
  - intros key Hk. by apply dget_dset_ne.
Qed.

(** ** Registration *)

Lemma ddel_dset_fresh {K V} `{EqDecision K} (k : K) (v : V) (d : dict K V) :
  k ∉ dkeys d → ddel k (dset k v d) = d.
Proof.
  unfold dkeys. induction d as [|[k' v'] d IH]; simpl; intros Hk.
  - by rewrite decide_True.
  - apply not_elem_of_cons in Hk as [Hne Hk]. rewrite decide_False by done. simpl.
    rewrite decide_False by done. by rewrite IH.
Qed.

(** A registered rule is stored under its id, cannot be registered twice, and its removal
    restores the rules. *)
Theorem register_then_remove clock run level dist raw e e' rid :
  register_rule clock run level dist raw e = (e', Ok rid) →
  dget rid (_rules e) = None ∧
  (∃ a, dget rid (_rules e') = Some a ∧ rule_id a = rid ∧ call_count a = 0 ∧
        _validate_rule raw = Ok (rule a)) ∧
  (register_rule clock run level dist raw e').2 =
    raise ValueError ("telemetry rule already exists: " +:+ rid) ∧
  ∃ e'', remove_rule clock rid e' = (e'', Ok true) ∧ _rules e'' = _rules e.
Proof.
  unfold register_rule. destruct (_validate_rule raw) as [r|x] eqn:Hv; [|done].
  destruct (telemetry_rule_id run level dist) as [rid'|x] eqn:Hid; [|done].
  destruct (dmem rid' (_rules e)) eqn:Hm; [done|]. intros [= <- <-].
  apply dmem_false in Hm. rewrite !rules_log. simpl.
  split_and!.
  - by apply dget_None.
  - eexists. rewrite dget_dset_eq. done.
  - rewrite (proj2 (dmem_true _ _)); [done|]. apply elem_of_dkeys_dset. by left.
  - unfold remove_rule. simpl. rewrite dget_dset_eq. eexists; split; [done|].
    simpl. by apply ddel_dset_fresh.
Qed.

(** ** Sample rules *)

Definition sample_clock (n : nat) : datetime := utc_of (Z.of_nat n).

Definition sample_active (r : Rule) : _ActiveRule := {|
  rule_id := "telemetry-rule-1"; rule_run_id := "run-1"; rule_level_id := "level-2";
  rule_disturbance_id := "d-1"; rule := r; call_count := 0 |}.

Definition sample_engine (r : Rule) : Engine := {|
  _rules := [("telemetry-rule-1", sample_active r)]; _events := []; clock_reads := 0%nat |}.

Lemma failure_schedule_exact_witness :
  ∃ r, call_outcomes sample_clock "range" 3
         (sample_engine (FailureSchedule "range" [2; 5] ["http_503"; "timeout"] 1500)) !! 1%nat
       = Some r ∧ is_Some r.
Proof.
  destruct (failure_schedule_exact sample_clock "range" [2; 5] ["http_503"; "timeout"] 1500
              (sample_engine (FailureSchedule "range" [2; 5] ["http_503"; "timeout"] 1500))
              "telemetry-rule-1"
              (sample_active (FailureSchedule "range" [2; 5] ["http_503"; "timeout"] 1500))
              3 1 eq_refl eq_refl ltac:(lia)) as (r & Hr & Hs & _).
  exists r. split; [exact Hr|]. apply Hs. simpl. left.
Defined.

Lemma data_gap_exact_witness :
  ∃ e' response' series',
    after_tool sample_clock "range"
      [("result", VList [VDict [("values", VList [VInt 1; VInt 2; VInt 3])]])]
      (sample_engine (MetricDataGap "range" [2])) = (e', Ok response') ∧
    dget "result" response' = Some (VList series').
Proof.
  destruct (data_gap_exact sample_clock "range" [2] (sample_engine (MetricDataGap "range" [2]))
              "telemetry-rule-1" (sample_active (MetricDataGap "range" [2]))
              [("result", VList [VDict [("values", VList [VInt 1; VInt 2; VInt 3])]])]
              [VDict [("values", VList [VInt 1; VInt 2; VInt 3])]]
              eq_refl eq_refl eq_refl) as (e' & r' & s' & H1 & _ & H2 & _).
  exists e', r', s'. split; [exact H1|exact H2].
Defined.

Definition sample_raw_rule : mapping :=
  [("kind", VStr "metric_data_gap"); ("tool", VStr "telemetry_prom_metric_range");
   ("missing_slots", VList [VInt 2; VInt 5])].

Definition sample_registration : Engine * result string :=
  register_rule sample_clock "run-1" "level-2" "d-1" sample_raw_rule new_engine.

Lemma register_then_remove_witness :
  (register_rule sample_clock "run-1" "level-2" "d-1" sample_raw_rule
     sample_registration.1).2 =
  raise ValueError ("telemetry rule already exists: " +:+ ok_or "" sample_registration.2).
Proof.
  refine (proj1 (proj2 (proj2 (register_then_remove sample_clock "run-1" "level-2" "d-1"
            sample_raw_rule new_engine sample_registration.1 (ok_or "" sample_registration.2) _)))).
  vm_compute. reflexivity.
Defined.
