(* ===== verification/EpisodeBuilder.v ===== *)
(** * Multi-level episodes ([progression/builder.py])

    The deterministic construction of an episode's levels from one main-fault
    plan, the wrapper for a public single-level episode, the episode validator,
    and the check that keeps hidden keys out of what the Agent sees. *)

From S2P Require Import Prelude PyFloat PyVal PyTime DisturbanceTypes.

#[local] Open Scope Z_scope.

(** ** Tables *)

Definition RELEVANT_DISTURBANCES : dict string (list DisturbanceType) :=
  [("latency", [FAULT_EFFECT_DEVIATION; TELEMETRY_INSTABILITY; CLEANUP_DELAY]);
   ("network-delay", [FAULT_EFFECT_DEVIATION; TELEMETRY_INSTABILITY; CLEANUP_DELAY]);
   ("packet_loss", [FAULT_EFFECT_DEVIATION; METRIC_DATA_GAP; CLEANUP_DELAY]);
   ("network-loss", [FAULT_EFFECT_DEVIATION; METRIC_DATA_GAP; CLEANUP_DELAY]);
   ("cpu_pressure", [RESOURCE_QUOTA_REDUCTION; TELEMETRY_INSTABILITY; SAFETY_THRESHOLD_PRESSURE]);
   ("cpu-load", [RESOURCE_QUOTA_REDUCTION; TELEMETRY_INSTABILITY; SAFETY_THRESHOLD_PRESSURE]);
   ("memory_pressure", [RESOURCE_QUOTA_REDUCTION; METRIC_DATA_GAP; SAFETY_THRESHOLD_PRESSURE]);
   ("memory-stress", [RESOURCE_QUOTA_REDUCTION; METRIC_DATA_GAP; SAFETY_THRESHOLD_PRESSURE]);
   ("pod_restart", [TARGET_DRIFT; TELEMETRY_INSTABILITY; CLEANUP_DELAY]);
   ("pod-kill", [TARGET_DRIFT; TELEMETRY_INSTABILITY; CLEANUP_DELAY])].

Definition DEFAULT_DISTURBANCES : list DisturbanceType :=
  [TARGET_DRIFT; TELEMETRY_INSTABILITY; CLEANUP_DELAY].

Definition FORBIDDEN_AGENT_VISIBLE_KEYS : list string :=
  ["groundtruth"; "hiddentruth"; "oracle"; "evaluatororacle"; "oraclerawverdicts";
   "injecteddefect"; "injecteddefectmanifest"; "scoringrubricweights"].

(** ** Level helpers *)

Definition _types_for_level (index : Z) (ordered : list DisturbanceType) : list DisturbanceType :=
  if index =? 0 then []
  else take (Z.to_nat (Z.min index (Z.of_nat (length ordered)))) ordered.

Definition _recommended_types (fault_type : string) : list DisturbanceType :=
  let configured := default DEFAULT_DISTURBANCES (dget fault_type RELEVANT_DISTURBANCES) in
  configured ++ List.filter (λ t, negb (bool_decide (t ∈ configured))) all_types.

Definition _configured_budget (plan : mapping) : result Z :=
  let fallback :=
    if negb (is_none (vget plan "total_retry_budget"))
    then v ← vitem plan "total_retry_budget"; py_int v
    else Ok 6 in
  match vget plan "budget" with
  | VDict budget =>
      if negb (is_none (vget budget "max_experiments"))
      then v ← vitem budget "max_experiments"; py_int v
      else fallback
  | _ => fallback
  end.

(** The [while remaining] loop; [None] when the fuel runs out. *)
Fixpoint allocate_loop (fuel : nat) (level_count remaining index : Z) (acc : list Z)
    : option (list Z) :=
  if remaining =? 0 then Some acc
  else match fuel with
       | O => None
       | S fuel' =>
           allocate_loop fuel' level_count (remaining - 1) ((index - 1) mod level_count)
             (alter (λ x, x + 1) (Z.to_nat index) acc)
       end.

Definition _allocate_attempts (level_count total : Z) : option (list Z) :=
  allocate_loop (Z.to_nat (total - level_count)) level_count (total - level_count)
    (level_count - 1) (replicate (Z.to_nat level_count) 1).

Definition _complexity_name (index level_count : Z) : string :=
  if index =? 0 then "baseline"
  else if index =? 1 then "single"
  else if (index =? level_count - 1) && (3 <=? index) then "full_chain"
  else "compound".

(** ** Plan readers *)

Definition _fault_type (plan : mapping) : string :=
  let from_action_space :=
    match vget plan "action_space" with
    | VDict action_space =>
        let selected := vget action_space "selected_actuator" in
        let by_actuator := if truthy selected then py_str selected else "" in
        match vget action_space "allowed_trigger_classes" with
        | VList (first :: _) => py_str first
        | _ => by_actuator
        end
    | _ => ""
    end in
  match vget plan "base_task" with
  | VDict base_task =>
      match vget base_task "main_fault" with
      | VDict main_fault =>
          py_str (py_or (py_or (vget main_fault "type") (vget main_fault "fault_type")) (VStr ""))
      | _ => from_action_space
      end
  | _ => from_action_space
  end.

Definition mapping_or_empty (v : val) : mapping := default [] (as_map v).

(** [d.setdefault(k, v)] *)
Definition setdefault (k : string) (v : val) (d : mapping) : mapping :=
  if has_key d k then d else dset k v d.

Definition parameter_entry (acc : mapping) (item : val) : mapping :=
  match item with
  | VDict d => if truthy (vget d "name")
               then dset (py_str (vget d "name")) (vget d "value") acc else acc
  | _ => acc
  end.

Definition _base_task (plan : mapping) : mapping :=
  match vget plan "base_task" with
  | VDict base_task => base_task
  | _ =>
      let snapshot := mapping_or_empty (vget plan "application_snapshot") in
      let target := mapping_or_empty (vget snapshot "runtime_target") in
      let target := setdefault "namespace" (vget snapshot "namespace") target in
      let target := setdefault "application" (vget snapshot "application") target in
      let action_space := mapping_or_empty (vget plan "action_space") in
      let parameter_map :=
        match vget_or action_space "parameters" (VList []) with
        | VList items => foldl parameter_entry [] items
        | _ => []
        end in
      [("defect_ref", VStr (py_str (py_or (vget plan "defect_ref") (VStr "UNSPECIFIED"))));
       ("target", VDict target);
       ("main_fault", VDict
          [("type", VStr (py_str (py_or (py_or (vget action_space "selected_actuator")
                                              (VStr (_fault_type plan))) (VStr "unspecified"))));
           ("actuator", vget action_space "selected_actuator");
           ("parameters", VDict parameter_map)])]
  end.

(** ** What the Agent may see *)

Definition normalize_key (key : string) : string :=
  str_remove "_"%char (str_remove "-"%char (str_lower key)).

Definition forbidden_key (key : string) : bool :=
  existsb (λ f, str_contains f (normalize_key key)) FORBIDDEN_AGENT_VISIBLE_KEYS.

Fixpoint _assert_no_hidden_agent_keys (value : val) (path : string) : result unit :=
  match value with
  | VDict d =>
      (fix go d := match d with
        | [] => Ok tt
        | (key, item) :: d' =>
            if forbidden_key key
            then raise ValueError
                   ("agent_visible_task contains forbidden key at " +:+ path +:+ "." +:+ key)
            else _assert_no_hidden_agent_keys item (path +:+ "." +:+ key) ;; go d'
        end) d
  | VList l =>
      (fix go (index : Z) l := match l with
        | [] => Ok tt
        | item :: l' =>
            _assert_no_hidden_agent_keys item (path +:+ "[" +:+ pretty index +:+ "]") ;;
            go (index + 1) l'
        end) 0 l
  | _ => Ok tt
  end.

(** ** The validator *)

Definition level_name (index : Z) : string := "L" +:+ pretty index.

(** [len(ids) != len(set(ids))] *)
Fixpoint distinct (ids : list val) : bool :=
  match ids with
  | [] => true
  | x :: l => negb (existsb (λ y, py_eq x y) l) && distinct l
  end.

(** One turn of the loop over the levels: [previous_count] and [retry_sum]. *)
Definition validate_level (acc : Z * Z) (level : val) : result (Z * Z) :=
  let '(previous_count, retry_sum) := acc in
  dist ← attr_get level "disturbances";
  disturbances ← opt_or_raise (as_list dist) ValueError "level disturbances must be a list";
  let n := Z.of_nat (length disturbances) in
  require (negb (n <? previous_count)) ValueError
    "disturbance complexity must not decrease across levels" ;;
  rb ← attr_get level "retry_budget";
  let msg := "every level retry_budget must fund at least one attempt" in
  retry_budget ← opt_or_raise (as_int rb) ValueError msg;
  require (negb (retry_budget <? 1)) ValueError msg ;;
  ids ← mapM (λ item, attr_get item "disturbance_id") disturbances;
  _ ← mapM hash_check ids;
  require (distinct ids) ValueError "disturbance ids must be unique within a level" ;;
  Ok (n, retry_sum + retry_budget).

Definition validate_multi_level_episode (episode : mapping) : result unit :=
  let levels := default [] (as_list (vget episode "levels")) in
  require (negb (empty levels)) ValueError "multi-level episode requires at least one level" ;;
  first ← list_item levels 0;
  id0 ← attr_get first "level_id";
  baseline ← (if negb (is_str id0 "L1") then Ok false
              else d0 ← attr_get first "disturbances"; Ok (py_eq d0 (VList [])));
  require baseline ValueError "L1 must be the disturbance-free baseline" ;;
  ids ← mapM (λ level, attr_get level "level_id") levels;
  let expected_ids := map (λ i, VStr (level_name (Z.of_nat i + 1))) (seq 0 (length levels)) in
  require (py_eq (VList ids) (VList expected_ids)) ValueError
    "level ids must be contiguous L1..Ln" ;;
  acc ← foldM validate_level (-1, 0) levels;
  total ← py_int (vget_or episode "total_retry_budget" (VInt (-1)));
  require (acc.2 =? total) ValueError "sum(level.retry_budget) must equal total_retry_budget".

(** ** Construction *)

(** One disturbance of a level. *)
Definition build_disturbance (episode_id level_id : string)
    (definitions : dict DisturbanceType DisturbanceDefinition) (item_index : Z)
    (ty : DisturbanceType) : result val :=
  definition ← opt_or_raise (dget ty definitions) KeyError (type_value ty);
  let disturbance_id := level_id +:+ "-D" +:+ pretty item_index +:+ "-" +:+ type_value ty in
  seed ← derive_replay_seed [episode_id; level_id; type_value ty];
  Ok (VDict (spec_as_dict (instantiate definition disturbance_id seed None None))).

Fixpoint build_disturbances (episode_id level_id : string)
    (definitions : dict DisturbanceType DisturbanceDefinition) (item_index : Z)
    (selected : list DisturbanceType) : result (list val) :=
  match selected with
  | [] => Ok []
  | ty :: rest =>
      d ← build_disturbance episode_id level_id definitions item_index ty;
      ds ← build_disturbances episode_id level_id definitions (item_index + 1) rest;
      Ok (d :: ds)
  end.

Definition pass_criteria (disturbances : list val) : string :=
  "Precondition, fault_effect, diagnosis, recovery, and safety gates all pass" +:+
  (if empty disturbances then ""
   else "; every configured disturbance response behavior is independently evidenced").

Definition build_level (episode_id : string)
    (definitions : dict DisturbanceType DisturbanceDefinition)
    (ordered : list DisturbanceType) (level_count index retry_budget : Z) : result val :=
  let level_id := level_name (index + 1) in
  disturbances ← build_disturbances episode_id level_id definitions 1
                   (_types_for_level index ordered);
  Ok (VDict [("level_id", VStr level_id);
             ("complexity", VStr (_complexity_name index level_count));
             ("disturbances", VList disturbances);
             ("pass_criteria", VStr (pass_criteria disturbances));
             ("retry_budget", VInt retry_budget)]).

Fixpoint build_levels (episode_id : string)
    (definitions : dict DisturbanceType DisturbanceDefinition)
    (ordered : list DisturbanceType) (level_count index : Z) (budgets : list Z)
    : result (list val) :=
  match budgets with
  | [] => Ok []
  | b :: rest =>
      l ← build_level episode_id definitions ordered level_count index b;
      ls ← build_levels episode_id definitions ordered level_count (index + 1) rest;
      Ok (l :: ls)
  end.

Definition determinism : mapping :=
  [("sequence_key", VStr "episode_id+level_id+disturbance_type");
   ("agent_independent", VBool true);
   ("run_replay_fallback", VStr "run_id+level_id+disturbance_id")].

Section build.
(** What [load_disturbance_library()] returns: the shipped library file. *)
Context (default_library : result (dict DisturbanceType DisturbanceDefinition)).

Definition build_multi_level_episode (plan : mapping) (level_count : Z)
    (total_retry_budget : option Z) (agent_visible_task : option mapping)
    (library : option (dict DisturbanceType DisturbanceDefinition))
    (disturbance_order : option (list DisturbanceType)) : result mapping :=
  require (negb ((level_count <? 1) || (8 <? level_count))) ValueError
    "level_count must be between 1 and 8" ;;
  let episode_id := str_or_empty (vget plan "episode_id") in
  require (nonempty episode_id) ValueError "plan requires episode_id" ;;
  configured_budget ← _configured_budget plan;
  let budget := default configured_budget total_retry_budget in
  require (negb (budget <? level_count)) ValueError
    ("total_retry_budget " +:+ pretty budget +:+ " cannot fund one attempt for each of " +:+
     pretty level_count +:+ " levels") ;;
  definitions ← match library with
                | Some ((_ :: _) as lib) => Ok lib
                | _ => default_library
                end;
  let ordered := default (_recommended_types (_fault_type plan)) disturbance_order in
  require (bool_decide (length (dedup ordered) = length ordered)) ValueError
    "disturbance_order must contain unique disturbance types" ;;
  let unknown := List.filter (λ t, negb (dmem t definitions)) (dedup ordered) in
  require (empty unknown) ValueError
    ("disturbance_order contains types missing from the library: " +:+
     str_join ", " (sort_by str_leb (map type_value unknown))) ;;
  retry_budgets ← opt_or_raise (_allocate_attempts level_count budget) (OtherError "diverges") "";
  levels ← build_levels episode_id definitions ordered level_count 0 retry_budgets;
  let base_task := _base_task plan in
  base_task ← match agent_visible_task with
              | Some task =>
                  _assert_no_hidden_agent_keys (VDict task) "$" ;;
                  Ok (dset "agent_visible_task" (VDict task) base_task)
              | None => Ok base_task
              end;
  let episode := [("schema_version", VStr "multi-level-episode.v1");
                  ("episode_id", VStr episode_id);
                  ("base_task", VDict base_task);
                  ("levels", VList levels);
                  ("total_retry_budget", VInt budget);
                  ("determinism", VDict determinism)] in
  validate_multi_level_episode episode ;;
  Ok episode.

Definition wrap_single_level_episode (public_episode target main_fault : mapping)
    : result mapping :=
  let episode_id := str_or_empty (vget public_episode "episode_id") in
  require (nonempty episode_id) ValueError "public episode requires episode_id" ;;
  max_experiments ← match vget public_episode "budget" with
                    | VDict budget => py_int (vget_or budget "max_experiments" (VInt 1))
                    | _ => Ok 1
                    end;
  let plan := [("episode_id", VStr episode_id);
               ("base_task", VDict [("defect_ref", VStr "PUBLIC-CONTRACT");
                                    ("target", VDict target); ("main_fault", VDict main_fault)]);
               ("budget", VDict [("max_experiments", VInt max_experiments)])] in
  build_multi_level_episode plan 1 (Some max_experiments) (Some public_episode) None None.
End build.

(** * Properties *)

(** ** Distribution of the attempts *)

Definition zsum (l : list Z) : Z := foldr Z.add 0 l.

Lemma zsum_cons x l : zsum (x :: l) = x + zsum l.
Proof. done. Qed.

Lemma zsum_app l1 l2 : zsum (l1 ++ l2) = zsum l1 + zsum l2.
Proof. unfold zsum. induction l1; simpl; lia. Qed.

Lemma zsum_alter_succ l i : (i < length l)%nat → zsum (alter (λ x, x + 1) i l) = zsum l + 1.
Proof.
  revert i; induction l as [|x l IH]; intros [|i] Hi; simpl in *; try lia.
  change (x + zsum (alter (λ y, y + 1) i l) = x + zsum l + 1). rewrite IH; lia.
Qed.

(** The loop keeps entry [i] at [1 + (k + i) / n] after [k] turns, and hands the
    next attempt to the entry that is behind. *)
Lemma allocate_loop_spec n fuel : 1 <= n → ∀ remaining k acc,
  0 <= k → Z.of_nat fuel = remaining → length acc = Z.to_nat n →
  (∀ i x, acc !! i = Some x → x = 1 + (k + Z.of_nat i) / n) →
  ∃ l, allocate_loop fuel n remaining ((n - 1 - k) mod n) acc = Some l ∧
       length l = Z.to_nat n ∧ zsum l = zsum acc + remaining ∧
       (∀ i x, l !! i = Some x → x = 1 + (k + remaining + Z.of_nat i) / n).
Proof.
  intros Hn. induction fuel as [|fuel IH]; intros remaining k acc Hk Hr Hlen Hacc; simpl.
  - assert (remaining = 0) as -> by lia. exists acc. rewrite !Z.add_0_r. auto.
  - destruct (Z.eqb_spec remaining 0); [lia|].
    set (j := (n - 1 - k) mod n).
    assert (0 <= j < n) as Hj by (apply Z.mod_pos_bound; lia).
    assert ((j - 1) mod n = (n - 1 - (k + 1)) mod n) as ->.
    { unfold j. rewrite Zminus_mod_idemp_l. f_equal. lia. }
    destruct (IH (remaining - 1) (k + 1) (alter (λ x, x + 1) (Z.to_nat j) acc))
      as (l & Hl & Hll & Hs & Hi); [lia|lia|by rewrite length_alter| |].
    + intros i x Hx.
      assert (∃ q, k + j = q * n + (n - 1)) as [q Hq].
      { exists (- ((n - 1 - k) / n)). pose proof (Z_div_mod_eq_full (n - 1 - k) n) as E.
        fold j in E. lia. }
      assert (i < Z.to_nat n)%nat as Hin.
      { rewrite <- Hlen, <- (length_alter (λ x, x + 1) acc (Z.to_nat j)). by eapply lookup_lt_Some. }
      destruct (decide (i = Z.to_nat j)) as [->|Hne].
      * rewrite list_lookup_alter_eq in Hx. destruct (acc !! Z.to_nat j) as [y|] eqn:Ey; [|done].
        injection Hx as <-. rewrite (Hacc _ _ Ey). rewrite Z2Nat.id by lia.
        rewrite Hq. replace (k + 1 + j) with ((q + 1) * n) by lia.
        rewrite Z.div_mul, Z.div_add_l by lia. rewrite (Z.div_small (n - 1)) by lia. lia.
      * rewrite list_lookup_alter_ne in Hx by done. rewrite (Hacc _ _ Hx). f_equal.
        pose proof (Z.mod_pos_bound (k + Z.of_nat i) n ltac:(lia)) as Hm.
        pose proof (Z_div_mod_eq_full (k + Z.of_nat i) n) as Hdm.
        assert ((k + Z.of_nat i) mod n ≠ n - 1) as Hmod.
        { intros E. apply Hne. rewrite E in Hdm. clear E Hm.
          generalize dependent ((k + Z.of_nat i) / n). intros p Hdm.
          assert ((p - q) * n = Z.of_nat i - j) as F by lia.
          destruct (Z.lt_trichotomy p q) as [?|[->|?]]; [nia|lia|nia]. }
        apply (Z.div_unique_pos _ _ _ ((k + Z.of_nat i) mod n + 1)); lia.
    + exists l. split; [exact Hl|]. split; [done|]. split.
      * rewrite Hs, zsum_alter_succ by lia. lia.
      * intros i x Hx. rewrite (Hi _ _ Hx). do 2 f_equal. lia.
Qed.

Lemma zsum_replicate k : zsum (replicate k 1) = Z.of_nat k.
Proof. induction k; unfold zsum in *; simpl; lia. Qed.

Lemma allocate_attempts_spec level_count total : 1 <= level_count <= total →
  ∃ l, _allocate_attempts level_count total = Some l ∧
    length l = Z.to_nat level_count ∧ zsum l = total ∧
    ∀ i x, l !! i = Some x → x = (total + Z.of_nat i) / level_count.
Proof.
  intros H. set (n := level_count) in *. unfold _allocate_attempts.
  destruct (allocate_loop_spec n (Z.to_nat (total - n)) ltac:(lia) (total - n) 0
              (replicate (Z.to_nat n) 1)) as (l & Hl & Hlen & Hs & Hi); try lia.
  - by rewrite length_replicate.
  - intros i x [-> Hi]%lookup_replicate. rewrite Z.div_small by lia. lia.
  - rewrite Z.mod_small in Hl by lia. rewrite Z.sub_0_r in Hl.
    exists l. split; [done|]. split; [done|]. split.
    + rewrite Hs, zsum_replicate. lia.
    + intros i x Hx. rewrite (Hi _ _ Hx).
      replace (0 + (total - n) + Z.of_nat i) with (total + Z.of_nat i + (-1) * n) by lia.
      rewrite Z.div_add by lia. lia.
Qed.

(** The attempt allocation gives every level at least one attempt, spends the total exactly,
    differs by at most one between levels and gives later levels the larger share. *)
Theorem allocate_attempts_fair level_count total : 1 <= level_count <= total →
  ∃ l, _allocate_attempts level_count total = Some l ∧
    length l = Z.to_nat level_count ∧ zsum l = total ∧
    (∀ i x, l !! i = Some x → x = (total + Z.of_nat i) / level_count ∧ 1 <= x) ∧
    (∀ i j x y, l !! i = Some x → l !! j = Some y → (i <= j)%nat → x <= y <= x + 1).
Proof.
  intros H. destruct (allocate_attempts_spec _ _ H) as (l & Hl & Hlen & Hs & Hi).
  exists l. split; [done|]. split; [done|]. split; [done|]. split.
  - intros i x Hx. split; [by apply Hi|]. rewrite (Hi _ _ Hx). apply Z.div_le_lower_bound; lia.
  - intros i j x y Hx Hy Hij. pose proof (lookup_lt_Some _ _ _ Hy) as Hj.
    rewrite (Hi _ _ Hx), (Hi _ _ Hy). split; [apply Z.div_le_mono; lia|].
    rewrite <- (Z.div_add _ 1) by lia. apply Z.div_le_mono; lia.
Qed.

Lemma allocate_attempts_fair_witness :
  1 <= 3 <= 8 ∧ ∃ l, _allocate_attempts 3 8 = Some l ∧ l = [2; 3; 3].
Proof.
  split; [lia|]. destruct (allocate_attempts_fair 3 8) as (l & Hl & _); [lia|].
  exists l. split; [exact Hl|]. vm_compute in Hl. by injection Hl.
Defined.

(** ** What a valid episode is *)

(** The disturbances (as dicts) and the retry budget of a level. *)
Definition level_body (level : val) : option (list mapping * Z) :=
  d ← as_map level;
  ds ← as_list (vget d "disturbances");
  ms ← mapM as_map ds;
  b ← as_int (vget d "retry_budget");
  Some (ms, b).

Definition item_ids (items : list mapping) : list val :=
  map (λ m, vget m "disturbance_id") items.

Definition items_ok (items : list mapping) : Prop :=
  (∀ id, id ∈ item_ids items → hashable id = true) ∧ distinct (item_ids items) = true.

Record episode_valid (episode : mapping) (levels : list val) (bodies : list (list mapping * Z))
    : Prop := {
  ev_levels : vget episode "levels" = VList levels;
  ev_nonempty : levels ≠ [];
  ev_bodies : mapM level_body levels = Some bodies;
  ev_ids : ∀ i l, levels !! i = Some l →
    attr_get l "level_id" = Ok (VStr (level_name (Z.of_nat i + 1)));
  ev_baseline : ∀ b, bodies !! 0%nat = Some b → b.1 = [];
  ev_monotone : ∀ i b b', bodies !! i = Some b → bodies !! S i = Some b' →
    (length b.1 <= length b'.1)%nat;
  ev_items : ∀ b, b ∈ bodies → 1 <= b.2 ∧ items_ok b.1;
  ev_total : py_int (vget_or episode "total_retry_budget" (VInt (-1))) =
    Ok (zsum (map snd bodies)) }.

Lemma as_map_Some v d : as_map v = Some d ↔ v = VDict d.
Proof. destruct v; simpl; split; congruence. Qed.
Lemma as_list_Some v l : as_list v = Some l ↔ v = VList l.
Proof. destruct v; simpl; split; congruence. Qed.

Lemma attr_get_Ok v k x : attr_get v k = Ok x ↔ ∃ d, v = VDict d ∧ vget d k = x.
Proof. destruct v; simpl; unfold raise; naive_solver. Qed.

Lemma item_ids_Ok items ids :
  mapM (λ item, attr_get item "disturbance_id") items = Ok ids ↔
  ∃ ms, mapM as_map items = Some ms ∧ ids = item_ids ms.
Proof.
  rewrite mapM_Ok. split.
  - induction 1 as [|x y items ids Hx _ (ms & Hms & ->)]; [by exists []|].
    apply attr_get_Ok in Hx as (d & -> & <-). exists (d :: ms). cbn. by rewrite Hms.
  - intros (ms & Hms%mapM_Some_1 & ->). unfold item_ids.
    induction Hms as [|x d items ms Hx _ IH]; simpl; constructor; [|done].
    apply as_map_Some in Hx as ->. done.
Qed.

Lemma hash_checks_Ok ids :
  (∃ u, mapM hash_check ids = Ok u) ↔ ∀ id, id ∈ ids → hashable id = true.
Proof.
  split.
  - intros [u Hu%mapM_Ok]. intros id Hid. apply list_elem_of_lookup in Hid as [i Hi].
    destruct (Forall2_lookup_l _ _ _ _ _ Hu Hi) as (y & _ & Hy). by apply require_Ok in Hy.
  - intros H. exists (map (λ _, tt) ids). apply mapM_Ok. induction ids; simpl; constructor.
    + apply require_Ok, H, list_elem_of_here.
    + apply IHids. intros id Hid. apply H. by apply list_elem_of_further.
Qed.

Lemma validate_level_Ok p r level acc :
  validate_level (p, r) level = Ok acc ↔
  ∃ ms b, level_body level = Some (ms, b) ∧ p <= Z.of_nat (length ms) ∧ 1 <= b ∧
          items_ok ms ∧ acc = (Z.of_nat (length ms), r + b).
Proof.
  unfold validate_level, level_body, items_ok. split.
  - intros H. apply bind_Ok_inv in H as (v & (d & -> & <-)%attr_get_Ok & H).
    apply bind_Ok_inv in H as (ds & Hds%opt_or_raise_Ok & H).
    apply bind_Ok_inv in H as (u1 & Hp%require_Ok & H).
    apply bind_Ok_inv in H as (v & [= <-] & H).
    apply bind_Ok_inv in H as (b & Hb%opt_or_raise_Ok & H).
    apply bind_Ok_inv in H as (u2 & Hb1%require_Ok & H).
    apply bind_Ok_inv in H as (ids & (ms & Hms & ->)%item_ids_Ok & H).
    apply bind_Ok_inv in H as (us & Hh & H).
    apply bind_Ok_inv in H as (u3 & Hdist%require_Ok & [= <-]).
    pose proof (length_mapM _ _ _ Hms) as Hlen. bool_to_prop.
    exists ms, b. cbn. rewrite Hds. cbn. rewrite Hms. cbn. rewrite Hb. cbn.
    repeat split; [lia|lia|apply hash_checks_Ok; by exists us|done|by rewrite Hlen].
  - intros (ms & b & Hv & Hp & Hb1 & [Hh Hdist] & ->).
    destruct level as [| | | | | |d]; try done. cbn in *.
    destruct (as_list (vget d "disturbances")) as [ds|] eqn:Hds; [|done]. cbn in Hv.
    destruct (mapM as_map ds) as [ms'|] eqn:Hms; [|done]. cbn in Hv.
    destruct (as_int (vget d "retry_budget")) as [b'|] eqn:Hb; [|done]. cbn in Hv.
    injection Hv as -> ->. cbn. pose proof (length_mapM _ _ _ Hms) as Hlen.
    apply hash_checks_Ok in Hh as [us Hh].
    assert (mapM (λ item, attr_get item "disturbance_id") ds = Ok (item_ids ms)) as ->
      by (apply item_ids_Ok; by exists ms).
    rewrite Hlen. destruct (Z.ltb_spec (Z.of_nat (length ms)) p); [lia|]. cbn.
    destruct (Z.ltb_spec b 1); [lia|]. cbn. rewrite Hh. cbn. by rewrite Hdist.
Qed.

Definition level_ok (b : list mapping * Z) : Prop := 1 <= b.2 ∧ items_ok b.1.

(** The disturbance counts never go below the previous one, starting from [p]. *)
Fixpoint counts_from (p : Z) (bodies : list (list mapping * Z)) : Prop :=
  match bodies with
  | [] => True
  | b :: rest => p <= Z.of_nat (length b.1) ∧ counts_from (Z.of_nat (length b.1)) rest
  end.

Lemma counts_from_iff p bodies :
  counts_from p bodies ↔
  (∀ b, bodies !! 0%nat = Some b → p <= Z.of_nat (length b.1)) ∧
  (∀ i b b', bodies !! i = Some b → bodies !! S i = Some b' → (length b.1 <= length b'.1)%nat).
Proof.
  revert p; induction bodies as [|b bodies IH]; intros p; simpl; [naive_solver|].
  rewrite IH. split.
  - intros (Hp & H0 & Hs). split; [by intros ? [= <-]|].
    intros [|i] x y; simpl; [|eauto]. intros [= <-] Hy. specialize (H0 _ Hy). lia.
  - intros [Hp Hs]. split; [by apply Hp|]. split; [|intros i x y; apply (Hs (S i))].
    intros x Hx. specialize (Hs 0%nat b x eq_refl Hx). lia.
Qed.

Lemma validate_levels_Ok levels p r acc :
  foldM validate_level (p, r) levels = Ok acc ↔
  ∃ bodies, mapM level_body levels = Some bodies ∧ counts_from p bodies ∧
    (∀ b, b ∈ bodies → level_ok b) ∧
    acc.2 = r + zsum (map snd bodies) ∧
    acc.1 = default p ((λ b, Z.of_nat (length b.1)) <$> last bodies).
Proof.
  revert p r; induction levels as [|l levels IH]; intros p r; cbn -[last zsum].
  - split.
    + intros [= <-]. exists []. cbn. split_and!; [done|done|by intros ? ?%not_elem_of_nil|lia|done].
    + intros (bs & [= <-] & _ & _ & H2 & H1). cbn in *. destruct acc; simpl in *.
      by rewrite H1, H2, Z.add_0_r.
  - rewrite bind_Ok_iff. split.
    + intros (a & (ms & b & Hb & Hp & H1 & Hi & ->)%validate_level_Ok & H).
      apply IH in H as (bs & Hbs & Hc & Hok & H2 & Hl). exists ((ms, b) :: bs).
      rewrite Hb. cbn -[last zsum]. rewrite Hbs. cbn -[last zsum]. split_and!; try done.
      * by intros x [->|Hx]%elem_of_cons; [split|apply Hok].
      * rewrite H2. rewrite zsum_cons. lia.
      * rewrite Hl, last_cons. by destruct (last bs).
    + intros (bs & Hbs & Hc & Hok & H2 & Hl).
      destruct (level_body l) as [[ms b]|] eqn:Hb; [|done]. cbn -[last zsum] in Hbs.
      destruct (mapM level_body levels) as [bs'|] eqn:Hbs'; [|done]. cbn -[last zsum] in Hbs.
      injection Hbs as <-. destruct Hc as [Hp Hc].
      destruct (Hok (ms, b) (list_elem_of_here _ _)) as [H1 Hi].
      exists (Z.of_nat (length ms), r + b). split; [apply validate_level_Ok; by exists ms, b|].
      apply IH. exists bs'. split_and!; try done.
      * intros x Hx. apply Hok. by apply list_elem_of_further.
      * rewrite H2. cbn [map snd]. rewrite zsum_cons. lia.
      * rewrite Hl, last_cons. by destruct (last bs').
Qed.

Lemma py_eq_list_strs l ss :
  py_eq (VList l) (VList (map VStr ss)) = true ↔ l = map VStr ss.
Proof.
  revert ss; induction l as [|x l IH]; intros [|s ss]; simpl in *; try (split; congruence).
  rewrite andb_true_iff, IH. fold (is_str x s). rewrite is_str_true. split.
  - by intros [-> ->].
  - by intros [= -> ->].
Qed.

Lemma level_ids_Ok levels :
  (∃ ids, mapM (λ level, attr_get level "level_id") levels = Ok ids ∧
     py_eq (VList ids) (VList (map (λ i, VStr (level_name (Z.of_nat i + 1)))
                                   (seq 0 (length levels)))) = true) ↔
  ∀ i l, levels !! i = Some l →
    attr_get l "level_id" = Ok (VStr (level_name (Z.of_nat i + 1))).
Proof.
  rewrite <- (map_map (λ i, level_name (Z.of_nat i + 1)) VStr). setoid_rewrite py_eq_list_strs.
  rewrite map_map. split.
  - intros (ids & Hids%mapM_Ok & ->) i l Hi.
    destruct (Forall2_lookup_l _ _ _ _ _ Hids Hi) as (y & Hy & ->).
    apply list_lookup_fmap_Some in Hy as (j & -> & Hj). by apply lookup_seq in Hj as [-> _].
  - intros H. eexists. split; [|done]. apply mapM_Ok, Forall2_same_length_lookup_2.
    + by rewrite length_map, length_seq.
    + intros i x y Hx Hy. apply list_lookup_fmap_Some in Hy as (j & -> & Hj).
      apply lookup_seq in Hj as [-> _]. by apply H.
Qed.

Lemma baseline_iff level b : level_body level = Some b →
  attr_get level "disturbances" = Ok (VList []) ↔ b.1 = [].
Proof.
  intros Hb. destruct level as [| | | | | |d]; try done. cbn in *.
  destruct (vget d "disturbances") as [| | | | |ds|]; try done. cbn in Hb.
  destruct (mapM as_map ds) as [ms|] eqn:Ems; [|done]. cbn in Hb.
  destruct (as_int _); [|done]. cbn in Hb. injection Hb as <-. cbn.
  apply length_mapM in Ems. destruct ds, ms; try done.
Qed.

Lemma py_eq_empty_list v : py_eq v (VList []) = true ↔ v = VList [].
Proof. destruct v as [| | | | |[|x l]|]; simpl; split; congruence. Qed.

Lemma bodies_head l levels bodies :
  mapM level_body (l :: levels) = Some bodies →
  ∃ b, level_body l = Some b ∧ bodies !! 0%nat = Some b.
Proof.
  cbn. destruct (level_body l) as [b|]; [|done]. cbn.
  destruct (mapM level_body levels) as [bs|]; [|done]. intros [= <-]. by exists b.
Qed.

(** The episode validator accepts exactly the well-formed episodes: consecutive level names,
    attempts that add up to the budget and distinct disturbances that relate to their level. *)
Theorem validate_episode_iff episode :
  validate_multi_level_episode episode = Ok tt ↔
  ∃ levels bodies, episode_valid episode levels bodies.
Proof.
  unfold validate_multi_level_episode. split.
  - destruct (as_list (vget episode "levels")) as [[|l levels]|] eqn:Hl; [done| |done].
    apply as_list_Some in Hl. cbn -[mapM foldM seq py_eq is_str]. intros H.
    apply bind_Ok_inv in H as (l0 & [= <-] & H).
    apply bind_Ok_inv in H as (id0 & Hid0 & H).
    apply bind_Ok_inv in H as (ok & Hok & H).
    apply bind_Ok_inv in H as (u1 & Hbase%require_Ok & H). subst ok.
    apply bind_Ok_inv in H as (ids & Hids & H).
    apply bind_Ok_inv in H as (u2 & Heq%require_Ok & H).
    apply bind_Ok_inv in H as (acc & Hacc & H).
    apply bind_Ok_inv in H as (total & Ht & H). apply require_Ok in H. bool_to_prop.
    apply validate_levels_Ok in Hacc as (bodies & Hb & Hc%counts_from_iff & Hlv & Hsum & _).
    exists (l :: levels), bodies. split; try done.
    + apply level_ids_Ok. by exists ids.
    + intros b Hb0. destruct (bodies_head _ _ _ Hb) as (b' & Hb' & E).
      rewrite E in Hb0. injection Hb0 as <-. apply (baseline_iff _ _ Hb').
      destruct (is_str id0 "L1"); [|done]. cbn [negb] in Hok.
      apply bind_Ok_inv in Hok as (d0 & Hd0 & [= Heq0]). by apply py_eq_empty_list in Heq0 as ->.
    + by destruct Hc.
    + rewrite Ht. f_equal. cbn -[zsum] in Hsum. lia.
  - intros (levels & bodies & [Hl Hne Hb Hids H0 Hm Hi Ht]).
    destruct levels as [|l levels]; [done|]. rewrite Hl. cbn [as_list default from_option id].
    destruct (bodies_head _ _ _ Hb) as (b & Hb' & E).
    specialize (H0 _ E). apply (baseline_iff _ _ Hb') in H0.
    pose proof (Hids 0%nat l eq_refl) as Hid0.
    apply level_ids_Ok in Hids as (ids & Hmap & Heq).
    assert (∃ a, foldM validate_level (-1, 0) (l :: levels) = Ok (a, zsum (map snd bodies)))
      as [a Hfold].
    { eexists. apply validate_levels_Ok. exists bodies. split_and!; try done.
      apply counts_from_iff. split; [|done]. intros x _. lia. }
    cbn [empty negb]. rewrite require_true, bind_ok.
    change (list_item (l :: levels) 0) with (Ok l). rewrite bind_ok.
    step_ok Hid0. change (is_str _ "L1") with true. cbn [negb]. step_ok H0.
    change (py_eq (VList []) (VList [])) with true.
    rewrite ?bind_ok, require_true, bind_ok.
    step_ok Hmap. step_ok Heq. step_ok Hfold. step_ok Ht.
    apply require_Ok. apply Z.eqb_refl.
Qed.

(** ** Hidden keys *)

(** A key of the document, at any depth, names hidden truth. *)
Inductive reveals : val → Prop :=
  | reveals_key d k v : (k, v) ∈ d → forbidden_key k = true → reveals (VDict d)
  | reveals_item d k v : (k, v) ∈ d → reveals v → reveals (VDict d)
  | reveals_element l v : v ∈ l → reveals v → reveals (VList l).

Definition hidden_verdict (r : result unit) (P : Prop) : Prop :=
  (r = Ok tt ∧ ¬ P) ∨ (∃ m, r = raise ValueError m) ∧ P.

Lemma hidden_dict d path :
  Forall (λ kv, ∀ p, hidden_verdict (_assert_no_hidden_agent_keys kv.2 p) (reveals kv.2)) d →
  hidden_verdict (_assert_no_hidden_agent_keys (VDict d) path) (reveals (VDict d)).
Proof.
  unfold hidden_verdict. induction 1 as [|[k v] d Hv _ IH]; cbn -[forbidden_key].
  - left. split; [done|]. inversion 1; subst; no_elem.
  - destruct (forbidden_key k) eqn:Hk.
    { right. split; [by eexists|]. eapply reveals_key; [apply list_elem_of_here|done]. }
    cbn [snd] in Hv. destruct (Hv (path +:+ "." +:+ k)) as [[-> Hn]|[[m ->] Hr]]; cbn -[forbidden_key].
    + cbn -[forbidden_key] in IH. destruct IH as [[-> Hd]|[[m ->] Hd]].
      * left. split; [done|]. inversion 1 as [? k' v' Hin Hf|? k' v' Hin Hf|]; subst;
          apply elem_of_cons in Hin as [[= -> ->]|Hin]; try congruence; try done.
        -- apply Hd. by eapply reveals_key.
        -- apply Hd. by eapply reveals_item.
      * right. split; [by eexists|].
        inversion Hd; subst; [eapply reveals_key|eapply reveals_item]; eauto using list_elem_of_further.
    + right. split; [by eexists|]. eapply reveals_item; [apply list_elem_of_here|done].
Qed.

Lemma hidden_list l path :
  Forall (λ v, ∀ p, hidden_verdict (_assert_no_hidden_agent_keys v p) (reveals v)) l →
  hidden_verdict (_assert_no_hidden_agent_keys (VList l) path) (reveals (VList l)).
Proof.
  unfold hidden_verdict. intros H. cbn -[forbidden_key]. generalize 0 as i.
  induction H as [|v l Hv _ IH]; intros i.
  - left. split; [done|]. inversion 1; subst; no_elem.
  - destruct (Hv (path +:+ "[" +:+ pretty i +:+ "]")) as [[-> Hn]|[[m ->] Hr]]; cbn -[forbidden_key].
    + destruct (IH (i + 1)) as [[-> Hd]|[[m ->] Hd]].
      * left. split; [done|]. inversion 1 as [| |? v' Hin Hf]; subst.
        apply elem_of_cons in Hin as [->|Hin]; [done|]. apply Hd. by eapply reveals_element.
      * right. split; [by eexists|].
        inversion Hd; subst. eapply reveals_element; eauto using list_elem_of_further.
    + right. split; [by eexists|]. eapply reveals_element; [apply list_elem_of_here|done].
Qed.

Lemma hidden_verdict_all v path :
  hidden_verdict (_assert_no_hidden_agent_keys v path) (reveals v).
Proof.
  revert path. induction v using val_ind_nested; intros path;
    try (left; split; [done|by inversion 1]).
  - by apply hidden_list.
  - by apply hidden_dict.
Qed.

Lemma hidden_verdict_iff v path : _assert_no_hidden_agent_keys v path = Ok tt ↔ ¬ reveals v.
Proof. by destruct (hidden_verdict_all v path) as [[-> Hn]|[[m ->] Hr]]. Qed.

(** The screen of an agent-visible task raises ValueError exactly when some key at any depth is
    one of the forbidden ones, and raises nothing else. *)
Theorem hidden_keys_iff task path :
  (_assert_no_hidden_agent_keys task path = Ok tt ↔ ¬ reveals task) ∧
  ((∃ m, _assert_no_hidden_agent_keys task path = raise ValueError m) ↔ reveals task).
Proof.
  destruct (hidden_verdict_all task path) as [[-> Hn]|[[m ->] Hr]]; unfold raise; split; split;
    try done; [by intros [? ?]|by eexists].
Qed.

(** ** What the builder builds *)

Definition disturbance_name (level_id : string) (item_index : Z) (ty : DisturbanceType) : string :=
  level_id +:+ "-D" +:+ pretty item_index +:+ "-" +:+ type_value ty.

(** The disturbance document for [ty]: its definition, under an id and a seed that
    depend on the episode, the level and the type only. *)
Definition built_disturbance (episode_id level_id : string)
    (definitions : dict DisturbanceType DisturbanceDefinition) (item_index : Z)
    (ty : DisturbanceType) (m : mapping) : Prop :=
  ∃ d seed, dget ty definitions = Some d ∧
    derive_replay_seed [episode_id; level_id; type_value ty] = Ok seed ∧
    m = spec_as_dict (instantiate d (disturbance_name level_id item_index ty) seed None None) ∧
    (definition_ok d → spec_from_mapping m =
       Ok (instantiate d (disturbance_name level_id item_index ty) seed None None)).

Lemma level_name_nonempty i : level_name i ≠ "".
Proof. done. Qed.

Lemma build_disturbance_Ok episode_id level_id definitions k ty :
  episode_id ≠ "" → level_id ≠ "" → dmem ty definitions = true →
  ∃ m, build_disturbance episode_id level_id definitions k ty = Ok (VDict m) ∧
       built_disturbance episode_id level_id definitions k ty m.
Proof.
  intros He Hl [d Hd]%dmem_true%dget_is_Some. unfold build_disturbance.
  destruct (derive_seed_total [episode_id; level_id; type_value ty]) as [seed Hseed].
  { done. }
  { intros p. rewrite !elem_of_cons, elem_of_nil. intros [->|[->|[->|[]]]]; try done. by destruct ty. }
  rewrite Hd. cbn [opt_or_raise]. rewrite bind_ok. step_ok Hseed.
  eexists. split; [done|]. exists d, seed. split_and!; try done.
  intros Hok. apply spec_roundtrip, instantiate_valid; [done| |].
  - unfold disturbance_name. by destruct level_id.
  - apply (derive_replay_seed_range _ _ Hseed).
Qed.

Lemma build_disturbances_Ok episode_id level_id definitions k selected :
  episode_id ≠ "" → level_id ≠ "" → (∀ ty, ty ∈ selected → dmem ty definitions = true) →
  ∃ ms, build_disturbances episode_id level_id definitions k selected = Ok (map VDict ms) ∧
        length ms = length selected ∧
        ∀ j ty m, selected !! j = Some ty → ms !! j = Some m →
          built_disturbance episode_id level_id definitions (k + Z.of_nat j) ty m.
Proof.
  intros He Hl. revert k; induction selected as [|ty selected IH]; intros k Hsel.
  - exists []. done.
  - destruct (build_disturbance_Ok episode_id level_id definitions k ty) as (m & Hm & Hb); try done.
    { apply Hsel, list_elem_of_here. }
    destruct (IH (k + 1)) as (ms & Hms & Hlen & Hj).
    { intros t Ht. apply Hsel. by apply list_elem_of_further. }
    exists (m :: ms). cbn -[build_disturbance]. step_ok Hm. step_ok Hms.
    split_and!; [done|by rewrite <- Hlen|].
    intros [|j] t x; cbn; [intros [= <-] [= <-]; by rewrite Z.add_0_r|].
    intros Ht Hx. replace (k + Z.of_nat (S j)) with (k + 1 + Z.of_nat j) by lia. by apply Hj.
Qed.

Lemma disturbance_name_type level_id k1 k2 ty1 ty2 :
  disturbance_name level_id k1 ty1 = disturbance_name level_id k2 ty2 → ty1 = ty2.
Proof.
  unfold disturbance_name. intros H. apply (f_equal chars) in H.
  rewrite !chars_app, !app_assoc in H.
  assert (∀ ty, "-"%char ∉ chars (type_value ty)) as Hd by (intros []; apply (bool_decide_unpack _); vm_compute; exact I).
  change (chars "-") with ["-"%char] in H. rewrite <- !(app_assoc _ ["-"%char]) in H.
  apply after_last_dash in H; [|apply Hd..]. by apply (inj chars), (inj type_value) in H.
Qed.

Lemma built_id episode_id level_id definitions k ty m :
  built_disturbance episode_id level_id definitions k ty m →
  vget m "disturbance_id" = VStr (disturbance_name level_id k ty).
Proof. by intros (d & seed & _ & _ & -> & _). Qed.

Lemma distinct_strs ids : NoDup ids → distinct (map VStr ids) = true.
Proof.
  induction 1 as [|id ids Hid _ IH]; cbn; [done|]. rewrite IH, andb_true_r.
  apply negb_true_iff, not_true_iff_false. intros (v & Hv & He)%existsb_True.
  apply list_elem_of_fmap in Hv as (t & -> & Ht). apply bool_decide_eq_true in He as ->. done.
Qed.

(** The ids of the built disturbances of one level. *)
Lemma built_items_ok episode_id level_id definitions selected ms :
  NoDup selected → length ms = length selected →
  (∀ j ty m, selected !! j = Some ty → ms !! j = Some m →
     built_disturbance episode_id level_id definitions (1 + Z.of_nat j) ty m) →
  items_ok ms.
Proof.
  intros Hnd Hlen Hb. unfold items_ok.
  set (names := imap (λ j ty, disturbance_name level_id (1 + Z.of_nat j) ty) selected).
  assert (item_ids ms = map VStr names) as ->.
  { apply list_eq_same_length with (length ms).
    - unfold names. by rewrite length_map, length_imap.
    - by unfold item_ids; rewrite length_map.
    - intros i x y Hi Hx Hy. apply list_lookup_fmap_Some in Hx as (m & -> & Hm).
      apply list_lookup_fmap_Some in Hy as (n & -> & Hn).
      apply list_lookup_imap_Some in Hn as (ty & Hty & ->). by eapply built_id, Hb. }
  split.
  - intros id Hid. by apply list_elem_of_fmap in Hid as (n & -> & _).
  - apply distinct_strs, NoDup_alt. intros i j x Hi Hj.
    apply list_lookup_imap_Some in Hi as (ty1 & H1 & ->).
    apply list_lookup_imap_Some in Hj as (ty2 & H2 & E).
    apply disturbance_name_type in E as ->. by eapply NoDup_lookup.
Qed.

Definition level_shape (episode_id : string)
    (definitions : dict DisturbanceType DisturbanceDefinition)
    (ordered : list DisturbanceType) (index budget : Z) (level : val) (ms : list mapping) : Prop :=
  (∃ d, level = VDict d ∧ vget d "level_id" = VStr (level_name (index + 1)) ∧
        vget d "disturbances" = VList (map VDict ms) ∧ vget d "retry_budget" = VInt budget) ∧
  length ms = length (_types_for_level index ordered) ∧
  ∀ j ty m, _types_for_level index ordered !! j = Some ty → ms !! j = Some m →
    built_disturbance episode_id (level_name (index + 1)) definitions (1 + Z.of_nat j) ty m.

Lemma types_for_level_take index ordered :
  0 <= index → _types_for_level index ordered = take (Z.to_nat index) ordered.
Proof.
  intros Hi. unfold _types_for_level. destruct (Z.eqb_spec index 0) as [->|]; [by rewrite take_0|].
  destruct (Z.min_spec index (Z.of_nat (length ordered))) as [[? ->]|[? ->]]; [done|].
  rewrite Nat2Z.id. rewrite !take_ge by lia. done.
Qed.

Lemma build_level_Ok episode_id definitions ordered level_count index b :
  episode_id ≠ "" → 0 <= index → (∀ ty, ty ∈ ordered → dmem ty definitions = true) →
  ∃ level ms, build_level episode_id definitions ordered level_count index b = Ok level ∧
    level_shape episode_id definitions ordered index b level ms.
Proof.
  intros He Hi Hdefs. unfold build_level.
  destruct (build_disturbances_Ok episode_id (level_name (index + 1)) definitions 1
              (_types_for_level index ordered)) as (ms & Hms & Hlen & Hb); [done|done| |].
  { intros ty. rewrite types_for_level_take by done. intros Hty.
    apply Hdefs. rewrite <- (take_drop (Z.to_nat index) ordered). apply elem_of_app. by left. }
  step_ok Hms. eexists _, ms. split; [done|]. split; [|done].
  by eexists.
Qed.

Lemma build_levels_Ok episode_id definitions ordered level_count budgets index :
  episode_id ≠ "" → 0 <= index → (∀ ty, ty ∈ ordered → dmem ty definitions = true) →
  ∃ levels mss, build_levels episode_id definitions ordered level_count index budgets = Ok levels ∧
    length levels = length budgets ∧ length mss = length budgets ∧
    ∀ i b l ms, budgets !! i = Some b → levels !! i = Some l → mss !! i = Some ms →
      level_shape episode_id definitions ordered (index + Z.of_nat i) b l ms.
Proof.
  intros He Hi Hdefs. revert index Hi; induction budgets as [|b budgets IH]; intros index Hi.
  - by exists [], [].
  - destruct (build_level_Ok episode_id definitions ordered level_count index b)
      as (l & ms & Hl & Hs); try done.
    destruct (IH (index + 1) ltac:(lia)) as (ls & mss & Hls & H1 & H2 & Hi').
    exists (l :: ls), (ms :: mss). cbn -[build_level]. step_ok Hl. step_ok Hls.
    split_and!; [done|by rewrite H1|by rewrite H2|].
    intros [|i] b' l' ms'; cbn.
    + intros [= <-] [= <-] [= <-]. by rewrite Z.add_0_r.
    + intros ???. replace (index + Z.of_nat (S i)) with (index + 1 + Z.of_nat i) by lia. by eapply Hi'.
Qed.

Lemma level_shape_body episode_id definitions ordered index b level ms :
  level_shape episode_id definitions ordered index b level ms → level_body level = Some (ms, b).
Proof.
  intros [(d & -> & _ & Hds & Hb) _]. unfold level_body. cbn [as_map mbind option_bind].
  rewrite Hds, Hb. cbn [as_list as_int mbind option_bind].
  assert (mapM as_map (map VDict ms) = Some ms) as ->; [|done].
  apply mapM_fmap_Forall_Some. by apply Forall_forall.
Qed.

Lemma levels_valid episode episode_id definitions ordered budgets levels mss total :
  NoDup ordered → budgets ≠ [] → (∀ b, b ∈ budgets → 1 <= b) →
  length levels = length budgets → length mss = length budgets →
  (∀ i b l ms, budgets !! i = Some b → levels !! i = Some l → mss !! i = Some ms →
     level_shape episode_id definitions ordered (0 + Z.of_nat i) b l ms) →
  vget episode "levels" = VList levels →
  vget_or episode "total_retry_budget" (VInt (-1)) = VInt total → zsum budgets = total →
  episode_valid episode levels (zip mss budgets).
Proof.
  intros Hnd Hne H1 Hl Hm Hs Hlv Ht Hsum.
  assert (∀ i p, zip mss budgets !! i = Some p → ∃ l, levels !! i = Some l ∧
    mss !! i = Some p.1 ∧ budgets !! i = Some p.2 ∧
    level_shape episode_id definitions ordered (0 + Z.of_nat i) p.2 l p.1) as Hz.
  { intros i [ms b] Hp. apply lookup_zip_Some in Hp as [Hp1 Hp2].
    destruct (lookup_lt_is_Some_2 levels i) as [l Hll].
    { rewrite Hl. by eapply lookup_lt_Some. }
    exists l. split_and!; try done. by eapply Hs. }
  split; try done.
  - intros ->. by destruct budgets.
  - apply mapM_Some, Forall2_same_length_lookup_2; [rewrite length_zip; lia|].
    intros i l p Hi Hp. destruct (Hz _ _ Hp) as (l' & Hl' & _ & _ & Hsh).
    assert (l' = l) as -> by congruence. destruct p. by eapply level_shape_body.
  - intros i l Hi. destruct (lookup_lt_is_Some_2 (zip mss budgets) i) as [p Hp].
    { rewrite length_zip, Hm, Nat.min_id, <- Hl. by eapply lookup_lt_Some. }
    destruct (Hz _ _ Hp) as (l' & Hl' & _ & _ & [(d & -> & Hid & _) _]).
    assert (l = VDict d) as -> by congruence. cbn [attr_get]. by rewrite Hid.
  - intros p Hp. destruct (Hz _ _ Hp) as (_ & _ & _ & _ & [_ [Hlen _]]).
    cbn in Hlen. by destruct p.1.
  - intros i p q Hp Hq. destruct (Hz _ _ Hp) as (_ & _ & _ & _ & [_ [Hlp _]]).
    destruct (Hz _ _ Hq) as (_ & _ & _ & _ & [_ [Hlq _]]).
    rewrite Hlp, Hlq, !types_for_level_take, !length_take by lia. lia.
  - intros p Hp. apply list_elem_of_lookup in Hp as [i Hp].
    destruct (Hz _ _ Hp) as (_ & _ & _ & Hb & [_ [Hlen Hbuilt]]). split.
    + apply H1. by eapply list_elem_of_lookup_2.
    + eapply built_items_ok; [|exact Hlen|exact Hbuilt].
      rewrite types_for_level_take by lia.
      rewrite <- (take_drop (Z.to_nat (0 + Z.of_nat i)) ordered), NoDup_app in Hnd. apply Hnd.
  - rewrite Ht. cbn -[zsum]. f_equal. rewrite <- Hsum. f_equal.
    symmetry. apply snd_zip. lia.
Qed.

(** The inputs the builder accepts. *)
Record buildable (default_library : result (dict DisturbanceType DisturbanceDefinition))
    (plan : mapping) (level_count : Z) (total_retry_budget : option Z)
    (agent_visible_task : option mapping)
    (library : option (dict DisturbanceType DisturbanceDefinition))
    (disturbance_order : option (list DisturbanceType))
    (budget : Z) (definitions : dict DisturbanceType DisturbanceDefinition)
    (ordered : list DisturbanceType) : Prop := {
  bd_count : 1 <= level_count <= 8;
  bd_id : str_or_empty (vget plan "episode_id") ≠ "";
  bd_budget : (λ configured, default configured total_retry_budget) <$> _configured_budget plan
              = Ok budget;
  bd_funded : level_count <= budget;
  bd_library : match library with Some ((_ :: _) as lib) => Ok lib | _ => default_library end
               = Ok definitions;
  bd_order : default (_recommended_types (_fault_type plan)) disturbance_order = ordered;
  bd_nodup : NoDup ordered;
  bd_known : ∀ ty, ty ∈ ordered → dmem ty definitions = true;
  bd_hidden : ∀ task, agent_visible_task = Some task → ¬ reveals (VDict task) }.

Lemma dedup_NoDup {A} `{EqDecision A} (l : list A) : NoDup l → length (dedup l) = length l.
Proof.
  intros Hl. apply Permutation_length, NoDup_Permutation; [apply NoDup_dedup|done|].
  intros x. apply elem_of_dedup.
Qed.

Lemma no_unknown definitions (ordered : list DisturbanceType) :
  (∀ ty, ty ∈ ordered → dmem ty definitions = true) →
  List.filter (λ t, negb (dmem (V:=DisturbanceDefinition) t definitions)) (dedup ordered) = [].
Proof.
  intros H. destruct (List.filter _ _) as [|t l] eqn:E; [done|]. exfalso.
  assert (In t (t :: l)) as Hin by (by left). rewrite <- E in Hin.
  apply filter_In in Hin as [Hin%list_elem_of_In Hb]. rewrite (elem_of_dedup t) in Hin.
  by rewrite H in Hb.
Qed.

(** C12: From a plan, a task and a library that satisfy the builder's stated conditions it
    returns an episode that its own validator accepts, with the asked number of levels, the
    configured total budget and on each level the disturbances of its range with its share
    of the attempts. *)
Theorem build_episode_ok default_library plan level_count total task library order
    budget definitions ordered :
  buildable default_library plan level_count total task library order
    budget definitions ordered →
  ∃ episode levels bodies,
    build_multi_level_episode default_library plan level_count total task library order
      = Ok episode ∧
    episode_valid episode levels bodies ∧ length levels = Z.to_nat level_count ∧
    vget episode "total_retry_budget" = VInt budget ∧
    ∀ i level, levels !! i = Some level → ∃ ms,
      level_shape (str_or_empty (vget plan "episode_id")) definitions ordered (Z.of_nat i)
        ((budget + Z.of_nat i) / level_count) level ms.
Proof.
  intros [Hn Hid Hb Hf Hlib Hord Hnd Hk Hh].
  destruct (_configured_budget plan) as [cb|] eqn:Ecb; [|done].
  cbn [fmap result_fmap] in Hb. injection Hb as Hb.
  destruct (allocate_attempts_spec level_count budget) as (bs & Hbs & Hlb & Hsum & Hdiv); [lia|].
  destruct (build_levels_Ok (str_or_empty (vget plan "episode_id")) definitions ordered
              level_count bs 0) as (ls & mss & Hls & Hl1 & Hl2 & Hsh); [done|lia|done|].
  assert (∀ b, b ∈ bs → 1 <= b) as Hpos.
  { intros b [i Hi]%list_elem_of_lookup. rewrite (Hdiv _ _ Hi). apply Z.div_le_lower_bound; lia. }
  unfold build_multi_level_episode.
  assert (negb ((level_count <? 1) || (8 <? level_count)) = true) as E1.
  { apply negb_true_iff, orb_false_iff. split; apply Z.ltb_ge; lia. }
  step_ok E1. apply nonempty_true in Hid. step_ok Hid. step_ok Ecb. rewrite Hb.
  assert (negb (budget <? level_count) = true) as E2 by (apply negb_true_iff, Z.ltb_ge; lia).
  step_ok E2. step_ok Hlib. rewrite Hord.
  rewrite (bool_decide_true (length (dedup ordered) = length ordered)) by (by apply dedup_NoDup).
  rewrite require_true, bind_ok, (no_unknown definitions ordered Hk). cbn [empty].
  rewrite require_true, bind_ok, Hbs. cbn [opt_or_raise]. rewrite bind_ok. step_ok Hls.
  match goal with |- ∃ e l b, (?t ≫= _) = _ ∧ _ =>
    assert (∃ base, t = Ok base) as [base Hbase] end.
  { destruct task as [task|]; [|by eexists]. destruct (hidden_verdict_all (VDict task) "$")
      as [[Hv _]|[_ Hr]]; [|by destruct (Hh task)]. step_ok Hv. by eexists. }
  step_ok Hbase.
  match goal with |- ∃ e l b, (validate_multi_level_episode ?ep ≫= _) = _ ∧ _ => set (episode := ep) end.
  assert (episode_valid episode ls (zip mss bs)) as Hvalid.
  { eapply (levels_valid episode _ definitions ordered bs ls mss budget); try done.
    intros ->. cbn in Hlb. lia. }
  exists episode, ls, (zip mss bs).
  assert (validate_multi_level_episode episode = Ok tt) as Hval
    by (apply validate_episode_iff; by eexists _, _).
  split; [by step_ok Hval|]. split; [done|]. split; [by rewrite Hl1|]. split; [done|].
  intros i level Hi.
  assert (i < length bs)%nat as Hlt by (rewrite <- Hl1; by eapply lookup_lt_Some).
  destruct (lookup_lt_is_Some_2 bs i Hlt) as [b Hbi].
  destruct (lookup_lt_is_Some_2 mss i) as [ms Hms]; [by rewrite Hl2|].
  exists ms. rewrite <- (Hdiv _ _ Hbi). by apply (Hsh i b level ms).
Qed.

(** A small library and plan. *)
Definition sample_definition (ty : DisturbanceType) : DisturbanceDefinition := {|
  def_type := ty; def_phase := VERIFICATION; description := ""; def_backend := "controller";
  def_trigger := {| mode := LIFECYCLE_EVENT; trigger_phase := VERIFICATION; event := Some "verify_started"; tool := None;
                    occurrence := None; offset_seconds := None |};
  def_action := [("kind", VStr "noop")]; def_parameters := [];
  def_expected_behaviors := ["reports it"]; def_verification := ["controller_record"];
  evidence_source := "controller_record"; reproducible := true |}.

Definition sample_library : dict DisturbanceType DisturbanceDefinition :=
  map (λ ty, (ty, sample_definition ty)) all_types.

Definition sample_plan : mapping := [("episode_id", VStr "EP-1")].

Lemma build_episode_ok_witness :
  let task := [("goal", VStr "find the defect")] in
  let order := [TARGET_DRIFT; CLEANUP_DELAY] in
  ∃ episode levels bodies,
    build_multi_level_episode (Ok sample_library) sample_plan 3 (Some 8) (Some task) None (Some order)
      = Ok episode ∧
    episode_valid episode levels bodies ∧ length levels = 3%nat.
Proof.
  intros task order.
  destruct (build_episode_ok (Ok sample_library) sample_plan 3 (Some 8) (Some task) None
              (Some order) 8 sample_library order) as (ep & ls & bs & H1 & H2 & H3 & _).
  - split; try (vm_compute; done).
    + apply (bool_decide_unpack _). vm_compute. exact I.
    + intros ty. unfold order. rewrite !elem_of_cons, elem_of_nil.
      intros [->|[->|[]]]; vm_compute; done.
    + intros t [= <-]. apply (hidden_verdict_iff _ "$"). vm_compute. done.
  - exists ep, ls, bs. done.
Defined.
