(* ===== verification/Progression.v ===== *)
(** * Level progression ([progression/controller.py])

    The controller that hands out trial tickets, accounts for retries, and
    decides when the episode ends. Its state is the JSON document of the source,
    possibly loaded from a checkpoint; every operation reads and writes that
    document, persists it through the store it was given, and may raise. *)

From S2P Require Import Prelude PyFloat PyVal DisturbanceTypes EpisodeBuilder.

#[local] Open Scope Z_scope.

Inductive EpisodeProgressStatus := ACTIVE | PASS | FAIL | SKIP.

#[export] Instance EpisodeProgressStatus_eq_dec : EqDecision EpisodeProgressStatus.
Proof. solve_decision. Defined.

Definition progress_value (s : EpisodeProgressStatus) : string :=
  match s with ACTIVE => "ACTIVE" | PASS => "PASS" | FAIL => "FAIL" | SKIP => "SKIP" end.

Definition all_progress : list EpisodeProgressStatus := [ACTIVE; PASS; FAIL; SKIP].

(** [EpisodeProgressStatus(value)] *)
Definition progress_of (v : val) : result EpisodeProgressStatus :=
  match v with
  | VStr s => enum_of all_progress progress_value "EpisodeProgressStatus" s
  | _ => raise ValueError (py_repr v +:+ " is not a valid EpisodeProgressStatus")
  end.

Record TrialTicket := {
  trial_id : string;
  run_id : string;
  episode_id : string;
  level_id : string;
  attempt : Z }.

(** ** Checkpoint stores *)

Class ProgressionStore (W : Type) := {
  store_save : mapping → prog W unit;
  store_load : prog W (option mapping) }.

(** The directory of the checkpoint: the parsed content of every file in it, and
    the outcome of the next write (a full disk raises). *)
Record Directory := {
  dir_files : gmap string val;
  dir_path : string;
  dir_temp : string;
  dir_write : result unit }.

Definition with_files (f : gmap string val → gmap string val) (d : Directory) : Directory := {|
  dir_files := f (dir_files d); dir_path := dir_path d; dir_temp := dir_temp d;
  dir_write := dir_write d |}.

(** The file system calls of [save]; the temporary file is removed on every way out. *)
Definition write_temp (state : mapping) : prog Directory unit :=
  modify (λ d, with_files <[dir_temp d := VNone]> d) ;;
  lift_write ← gets dir_write;
  lift lift_write ;;
  modify (λ d, with_files <[dir_temp d := VDict (sort_mapping state)]> d).

Definition replace_temp : prog Directory unit :=
  modify (λ d, with_files (λ fs, match fs !! dir_temp d with
                                 | Some v => <[dir_path d := v]> (delete (dir_temp d) fs)
                                 | None => fs
                                 end) d).

Definition unlink_temp : prog Directory unit := modify (λ d, with_files (delete (dir_temp d)) d).

(** [try: m finally: f] *)
Definition finally {S A} (m : prog S A) (f : prog S unit) : prog S A := λ s,
  let '(s1, r) := m s in
  match f s1 with (s2, Ok _) => (s2, r) | (s2, Err e) => (s2, Err e) end.

Definition json_save (state : mapping) : prog Directory unit :=
  finally (write_temp state ;; replace_temp) unlink_temp.

Definition json_load : prog Directory (option mapping) :=
  content ← gets (λ d, dir_files d !! dir_path d);
  match content with
  | None => mret None
  | Some (VDict m) => mret (Some m)
  | Some _ => throw ValueError "progression checkpoint must contain a JSON object"
  end.

#[export] Instance JsonFileProgressionStore : ProgressionStore Directory := {
  store_save := json_save;
  store_load := json_load }.

(** ** The controller *)

(** What the constructor fixes. *)
Record ControllerConfig (W : Type) := {
  cfg_episode : mapping;
  cfg_run_id : string;
  cfg_agent_id : string;
  cfg_store : option (ProgressionStore W);
  continue_after_failure : bool }.
Arguments cfg_episode {W}.
Arguments cfg_run_id {W}.
Arguments cfg_agent_id {W}.
Arguments cfg_store {W}.
Arguments continue_after_failure {W}.

(** [self.state], the store's world, and how many times the clock was read. *)
Record ControllerState (W : Type) := {
  pc_state : mapping;
  pc_world : W;
  pc_clock : nat }.
Arguments pc_state {W}.
Arguments pc_world {W}.
Arguments pc_clock {W}.

Section controller.
Context {W : Type} (utc_now : nat → string) (self : ControllerConfig W).

Abbreviation ctl := (prog (ControllerState W)).

Definition _utc_now : ctl string := λ s,
  ({| pc_state := pc_state s; pc_world := pc_world s; pc_clock := S (pc_clock s) |},
   Ok (utc_now (pc_clock s))).

(** [self.state[k]], [self.state.get(k)], [self.state[k] = v]. *)
Definition state_item (k : string) : ctl val := λ s, (s, vitem (pc_state s) k).
Definition state_get (k : string) : ctl val := gets (λ s, vget (pc_state s) k).
Definition set_state (m : mapping) (s : ControllerState W) : ControllerState W :=
  {| pc_state := m; pc_world := pc_world s; pc_clock := pc_clock s |}.
Definition state_set (k : string) (v : val) : ctl unit :=
  modify (λ s, set_state (dset k v (pc_state s)) s).

(** [self.state[outer][k] = v]: the inner dictionary is updated in place. *)
Definition state_set_in (outer k : string) (v : val) : ctl unit :=
  o ← state_item outer;
  match o with
  | VDict d => state_set outer (VDict (dset k v d))
  | _ => throw TypeError ("'" +:+ type_name o +:+ "' object does not support item assignment")
  end.

(** [self.state[k].append(v)] *)
Definition state_append (k : string) (v : val) : ctl unit :=
  o ← state_item k;
  match o with
  | VList l => state_set k (VList (l ++ [v]))
  | _ => throw AttributeError ("'" +:+ type_name o +:+ "' object has no attribute 'append'")
  end.

Definition save_state : ctl unit := λ s,
  match cfg_store self with
  | None => (s, Ok tt)
  | Some st =>
      let '(w, r) := @store_save W st (pc_state s) (pc_world s) in
      ({| pc_state := pc_state s; pc_world := w; pc_clock := pc_clock s |}, r)
  end.

Definition _persist : ctl unit :=
  t ← _utc_now; state_set "updated_at" (VStr t) ;; save_state.

Definition _finish (status : EpisodeProgressStatus) (reason : string) : ctl unit :=
  state_set "status" (VStr (progress_value status)) ;;
  state_set "terminal_reason" (VStr reason) ;;
  _persist.

Definition status : ctl EpisodeProgressStatus :=
  v ← state_item "status"; lift (progress_of v).

(** [self.state[k]] as an [int]. *)
Definition state_int (k : string) : ctl Z := v ← state_item k; lift (py_int v).

Definition episode_level (index : Z) : result val :=
  levels ← vitem (cfg_episode self) "levels"; val_index levels index.

Definition current_level : ctl (option val) :=
  st ← status;
  if negb (bool_decide (st = ACTIVE)) then mret None
  else index ← state_int "current_level_index";
       level ← lift (episode_level index);
       mret (Some level).

Definition total_budget : result Z :=
  v ← vitem (cfg_episode self) "total_retry_budget"; py_int v.

Definition start_trial : ctl TrialTicket :=
  st ← status;
  when (negb (bool_decide (st = ACTIVE)))
    (throw RuntimeError ("episode is terminal: " +:+ progress_value st)) ;;
  open ← state_get "open_trial";
  when (truthy open)
    (throw RuntimeError "cannot start a trial while another trial is open") ;;
  level ← current_level;
  level ← lift (opt_or_raise level AssertionError "");
  id ← lift (val_item level "level_id");
  let level_id := py_str id in
  counts ← state_item "level_attempts";
  n ← lift (attr_get_or counts level_id (VInt 0));
  attempts ← lift (py_int n);
  rb ← lift (val_item level "retry_budget");
  retry_budget ← lift (py_int rb);
  when (retry_budget <=? attempts)
    (_finish FAIL "level_retry_budget_exhausted" ;;
     throw RuntimeError "level retry budget is exhausted") ;;
  total ← state_int "total_attempts";
  budget ← lift total_budget;
  when (budget <=? total)
    (_finish FAIL "episode_retry_budget_exhausted" ;;
     throw RuntimeError "episode retry budget is exhausted") ;;
  let attempt := attempts + 1 in
  let trial_id := cfg_run_id self +:+ "-" +:+ level_id +:+ "-a" +:+ pretty attempt in
  state_set_in "level_attempts" level_id (VInt attempt) ;;
  total ← state_int "total_attempts";
  state_set "total_attempts" (VInt (total + 1)) ;;
  started_at ← _utc_now;
  state_set "open_trial" (VDict [("trial_id", VStr trial_id); ("level_id", VStr level_id);
                                 ("attempt", VInt attempt); ("started_at", VStr started_at)]) ;;
  _persist ;;
  episode_id ← lift (vitem (cfg_episode self) "episode_id");
  mret {| trial_id := trial_id; run_id := cfg_run_id self; episode_id := py_str episode_id;
          level_id := level_id; attempt := attempt |}.

(** The first history entry with this trial id. *)
Fixpoint find_trial (trial_id : string) (items : list val) : result (option val) :=
  match items with
  | [] => Ok None
  | item :: rest =>
      id ← attr_get item "trial_id";
      if is_str id trial_id then Ok (Some item) else find_trial trial_id rest
  end.

Definition snapshot : ctl mapping := gets pc_state.

(** A result that does not match the open trial: the repeat of a recorded result, or an error. *)
Definition replay_result (trial_id primary_status : string) : ctl mapping :=
  history ← state_item "history";
  items ← lift (py_list history);
  existing ← lift (find_trial trial_id items);
  same ← match existing with
         | Some item =>
             if truthy item
             then st ← lift (attr_get item "primary_status"); mret (is_str st primary_status)
             else mret false
         | None => mret false
         end;
  if same : bool then snapshot
  else throw ValueError "result does not match the open trial".

Definition level_count : result Z :=
  levels ← vitem (cfg_episode self) "levels"; val_len levels.

Definition advance (next_index : Z) : ctl unit :=
  state_set "current_level_index" (VInt next_index) ;;
  state_set "terminal_reason" VNone ;;
  _persist.

Definition any_level_failed : ctl bool :=
  statuses ← state_item "level_statuses";
  match statuses with
  | VDict d => mret (existsb (λ kv, is_str kv.2 "FAIL") d)
  | _ => throw AttributeError ("'" +:+ type_name statuses +:+ "' object has no attribute 'values'")
  end.

Definition record_pass (level_id : string) : ctl unit :=
  state_set_in "level_statuses" level_id (VStr "PASS") ;;
  index ← state_int "current_level_index";
  let next_index := index + 1 in
  count ← lift level_count;
  if count <=? next_index then
    failed ← (if continue_after_failure self then any_level_failed else mret false);
    if failed : bool then _finish FAIL "all_levels_executed_with_failures"
    else _finish PASS "all_levels_passed"
  else advance next_index.

Definition record_fail (level_id : string) : ctl unit :=
  state_set_in "level_statuses" level_id (VStr "FAIL") ;;
  index ← state_int "current_level_index";
  level ← lift (episode_level index);
  counts ← state_item "level_attempts";
  n ← lift (val_item counts level_id);
  attempts ← lift (py_int n);
  rb ← lift (val_item level "retry_budget");
  retry_budget ← lift (py_int rb);
  let exhausted := retry_budget <=? attempts in
  total ← state_int "total_attempts";
  budget ← lift total_budget;
  let budget_exhausted := budget <=? total in
  if exhausted || budget_exhausted then
    index ← state_int "current_level_index";
    let next_index := index + 1 in
    has_next ← (if continue_after_failure self
                then count ← lift level_count; mret (next_index <? count)
                else mret false);
    if has_next : bool then advance next_index
    else if continue_after_failure self then _finish FAIL "all_levels_executed_with_failures"
    else _finish FAIL (if exhausted then "level_retry_budget_exhausted"
                       else "episode_retry_budget_exhausted")
  else state_set "terminal_reason" VNone ;; _persist.

Definition opt_val (o : option string) : val :=
  match o with Some s => VStr s | None => VNone end.

Definition record_result (trial_id primary_status result_ref : string)
    (failure_status : option string) : ctl mapping :=
  when (negb (bool_decide (primary_status ∈ ["PASS"; "FAIL"; "SKIP"])))
    (throw ValueError "primary_status must be PASS, FAIL, or SKIP") ;;
  open_trial ← state_get "open_trial";
  match open_trial with
  | VDict open =>
      if is_str (vget open "trial_id") trial_id then
        completed_at ← _utc_now;
        let completed :=
          dset "result_ref" (VStr result_ref)
            (dset "failure_status" (opt_val failure_status)
               (dset "primary_status" (VStr primary_status)
                  (dset "completed_at" (VStr completed_at) open))) in
        state_append "history" (VDict completed) ;;
        state_set "open_trial" VNone ;;
        id ← lift (vitem open "level_id");
        let level_id := py_str id in
        (if bool_decide (primary_status = "PASS") then record_pass level_id
         else if bool_decide (primary_status = "SKIP") then
           state_set_in "level_statuses" level_id (VStr "SKIP") ;;
           _finish SKIP (str_or failure_status "precondition_not_met")
         else record_fail level_id) ;;
        snapshot
      else replay_result trial_id primary_status
  | _ => replay_result trial_id primary_status
  end.

(** [{level["level_id"]: x for level in levels}] *)
Definition per_level (x : val) (levels : list val) : result mapping :=
  foldM (λ acc level, id ← val_item level "level_id"; hash_check id ;;
                      Ok (dset (py_str id) x acc)) [] levels.

Definition _new_state : ctl mapping :=
  episode_id ← lift (vitem (cfg_episode self) "episode_id");
  levels ← lift (vitem (cfg_episode self) "levels");
  levels ← lift (py_list levels);
  attempts ← lift (per_level (VInt 0) levels);
  statuses ← lift (per_level (VStr "PENDING") levels);
  t ← _utc_now;
  mret [("schema_version", VStr "progression-state.v1");
        ("episode_id", episode_id);
        ("run_id", VStr (cfg_run_id self));
        ("agent_id", VStr (cfg_agent_id self));
        ("status", VStr (progress_value ACTIVE));
        ("current_level_index", VInt 0);
        ("total_attempts", VInt 0);
        ("level_attempts", VDict attempts);
        ("level_statuses", VDict statuses);
        ("open_trial", VNone);
        ("history", VList []);
        ("terminal_reason", VNone);
        ("updated_at", VStr t)].

Definition _validate_state (state : mapping) : result unit :=
  require (py_eq (vget state "episode_id") (vget (cfg_episode self) "episode_id")) ValueError
    "checkpoint episode_id does not match" ;;
  require (is_str (vget state "run_id") (cfg_run_id self) &&
           is_str (vget state "agent_id") (cfg_agent_id self)) ValueError
    "checkpoint run_id or agent_id does not match" ;;
  require (is_str (vget state "schema_version") "progression-state.v1") ValueError
    "unsupported progression checkpoint schema" ;;
  index ← py_int (vget_or state "current_level_index" (VInt (-1)));
  count ← level_count;
  require ((0 <=? index) && (index <? count)) ValueError
    "checkpoint current_level_index is invalid" ;;
  total ← py_int (vget_or state "total_attempts" (VInt (-1)));
  budget ← total_budget;
  require (total <=? budget) ValueError "checkpoint exceeds total retry budget".

Definition load_state : ctl (option mapping) := λ s,
  match cfg_store self with
  | None => (s, Ok None)
  | Some st =>
      let '(w, r) := @store_load W st (pc_world s) in
      ({| pc_state := pc_state s; pc_world := w; pc_clock := pc_clock s |}, r)
  end.

(** [__init__] *)
Definition init_controller (resume : bool) : ctl unit :=
  lift (validate_multi_level_episode (cfg_episode self)) ;;
  loaded ← (if resume then load_state else mret None);
  state ← match loaded with
          | Some ((_ :: _) as m) => mret m
          | _ => _new_state
          end;
  modify (set_state state) ;;
  lift (_validate_state state) ;;
  _persist.
End controller.
