(* ===== verification/ProgressionSpec.v ===== *)
(** * What level progression promises

    An abstract machine over one counter and one mark per level: a trial is
    started on the current level, its result is recorded, and the result decides
    whether to retry, to go on or to stop. The invariant of its reachable states
    says what the marks, the counters and the terminal status mean. *)

From S2P Require Import Prelude EpisodeBuilder Progression.

#[local] Open Scope Z_scope.

Record Progress := {
  pg_status : EpisodeProgressStatus;
  pg_index : nat;
  pg_attempts : list Z;
  pg_marks : list string;
  pg_open : option Z;
  pg_history : list (nat * Z * EpisodeProgressStatus) }.

Section machine.
Context (budgets : list Z) (cont : bool).

Abbreviation count := (length budgets).

Definition pg_init : Progress := {|
  pg_status := ACTIVE; pg_index := 0; pg_attempts := replicate count 0;
  pg_marks := replicate count "PENDING"; pg_open := None; pg_history := [] |}.

(** Attempts and budget of the current level. *)
Definition used (p : Progress) : Z := default 0 (pg_attempts p !! pg_index p).
Definition allowed (p : Progress) : Z := default 0 (budgets !! pg_index p).

Definition pg_start (p : Progress) : Progress := {|
  pg_status := pg_status p; pg_index := pg_index p;
  pg_attempts := alter (λ a, a + 1) (pg_index p) (pg_attempts p);
  pg_marks := pg_marks p; pg_open := Some (used p + 1); pg_history := pg_history p |}.

(** Where the result sends the episode: the next index or a terminal status. *)
Definition next_stop (p : Progress) (marks : list string) (r : EpisodeProgressStatus)
    : nat * EpisodeProgressStatus :=
  let i := pg_index p in
  let last_level := bool_decide (count <= S i)%nat in
  match r with
  | PASS =>
      if last_level
      then (i, if cont && bool_decide ("FAIL" ∈ marks) then FAIL else PASS)
      else (S i, ACTIVE)
  | SKIP => (i, SKIP)
  | _ =>
      if used p <? allowed p then (i, ACTIVE)
      else if cont && negb last_level then (S i, ACTIVE)
      else (i, FAIL)
  end.

Definition pg_record (r : EpisodeProgressStatus) (p : Progress) : Progress :=
  match pg_open p with
  | None => p
  | Some a =>
      let marks := <[pg_index p := progress_value r]> (pg_marks p) in
      let '(i, st) := next_stop p marks r in
      {| pg_status := st; pg_index := i; pg_attempts := pg_attempts p; pg_marks := marks;
         pg_open := None; pg_history := pg_history p ++ [(pg_index p, a, r)] |}
  end.

Inductive pg_step : Progress → Progress → Prop :=
  | step_start p : pg_status p = ACTIVE → pg_open p = None → pg_step p (pg_start p)
  | step_record p r a : pg_open p = Some a → r ≠ ACTIVE → pg_step p (pg_record r p).

Definition pg_reachable : Progress → Prop := rtc pg_step pg_init.

(** The last recorded result of a level. *)
Definition last_mark (h : list (nat * Z * EpisodeProgressStatus)) (i : nat) : string :=
  foldl (λ m e, if decide (e.1.1 = i) then progress_value e.2 else m) "PENDING" h.

Record pg_inv (p : Progress) : Prop := {
  pi_attempts : length (pg_attempts p) = count;
  pi_marks : length (pg_marks p) = count;
  pi_index : (pg_index p < count)%nat;
  pi_bounds : ∀ i a b, pg_attempts p !! i = Some a → budgets !! i = Some b → 0 <= a <= b;
  pi_future : ∀ i a, (pg_index p < i)%nat → pg_attempts p !! i = Some a → a = 0;
  pi_open : ∀ a, pg_open p = Some a → pg_status p = ACTIVE ∧ a = used p ∧ 1 <= a;
  pi_ready : pg_status p = ACTIVE → pg_open p = None → used p < allowed p;
  pi_past : ∀ i, (i < pg_index p)%nat →
    pg_marks p !! i = Some "PASS" ∨ (cont = true ∧ pg_marks p !! i = Some "FAIL");
  pi_pass : pg_status p = PASS → ∀ i, (i < count)%nat → pg_marks p !! i = Some "PASS";
  pi_last : ∀ i m, pg_marks p !! i = Some m → m = last_mark (pg_history p) i;
  pi_count : Z.of_nat (length (pg_history p)) + (if pg_open p then 1 else 0) =
             zsum (pg_attempts p);
  pi_history : ∀ i k r, (i, k, r) ∈ pg_history p → r ≠ ACTIVE ∧ (i <= pg_index p)%nat ∧ 1 <= k ∧
    ∃ a, pg_attempts p !! i = Some a ∧ (k < a ∨ (k = a ∧ ¬ (i = pg_index p ∧ pg_open p <> None)));
  pi_trials : NoDup (pg_history p).*1 }.

(** ** The invariant holds initially *)

Context (budgets_pos : ∀ b, b ∈ budgets → 1 <= b) (budgets_ne : budgets ≠ []).

Lemma count_pos : (0 < count)%nat.
Proof. destruct budgets; [done|simpl; lia]. Qed.

Lemma zsum_zeros n : zsum (replicate n 0) = 0.
Proof. induction n; [done|]. cbn [replicate]. rewrite zsum_cons. lia. Qed.

Lemma init_inv : pg_inv pg_init.
Proof.
  pose proof count_pos. split; cbn [pg_init pg_attempts pg_marks pg_index pg_open pg_status pg_history];
    rewrite ?length_replicate; try done.
  - intros i a b [-> _]%lookup_replicate Hb. apply list_elem_of_lookup_2, budgets_pos in Hb. lia.
  - by intros i a _ [-> _]%lookup_replicate.
  - intros _ _. unfold used, allowed; cbn. rewrite lookup_replicate_2 by lia. cbn.
    destruct (lookup_lt_is_Some_2 budgets 0%nat) as [b Hb]; [done|]. rewrite Hb.
    apply list_elem_of_lookup_2, budgets_pos in Hb. cbn. lia.
  - intros i ?. lia.
  - by intros i m [-> _]%lookup_replicate.
  - by rewrite zsum_zeros.
  - by intros ??? ?%not_elem_of_nil.
  - constructor.
Qed.

(** ** Starting a trial keeps it *)

Lemma used_lookup p : pg_inv p → pg_attempts p !! pg_index p = Some (used p).
Proof.
  intros H. unfold used. destruct (lookup_lt_is_Some_2 (pg_attempts p) (pg_index p)) as [a Ha].
  - rewrite pi_attempts by done. by apply pi_index.
  - by rewrite Ha.
Qed.

Lemma allowed_lookup p : pg_inv p → budgets !! pg_index p = Some (allowed p).
Proof.
  intros H. unfold allowed. destruct (lookup_lt_is_Some_2 budgets (pg_index p)) as [a Ha].
  - by apply pi_index.
  - by rewrite Ha.
Qed.

Lemma start_attempts p i a : pg_inv p → pg_attempts (pg_start p) !! i = Some a →
  (i = pg_index p ∧ a = used p + 1) ∨ (i ≠ pg_index p ∧ pg_attempts p !! i = Some a).
Proof.
  intros H Ha. cbn in Ha. destruct (decide (i = pg_index p)) as [->|Hne].
  - left. rewrite list_lookup_alter_eq, used_lookup in Ha by done. by injection Ha as <-.
  - right. by rewrite list_lookup_alter_ne in Ha.
Qed.

Lemma used_start p : pg_inv p → used (pg_start p) = used p + 1.
Proof.
  intros H. unfold used at 1. cbn [pg_attempts pg_start pg_index].
  by rewrite list_lookup_alter_eq, used_lookup.
Qed.

Lemma start_inv p : pg_inv p → pg_status p = ACTIVE → pg_open p = None → pg_inv (pg_start p).
Proof.
  intros H Hst Ho. pose proof (pi_ready _ H Hst Ho) as Hlt.
  pose proof (pi_bounds _ H _ _ _ (used_lookup _ H) (allowed_lookup _ H)) as Hb.
  split; cbn [pg_start pg_marks pg_index pg_open pg_status pg_history]; try apply H; try done.
  - cbn. rewrite length_alter. by apply H.
  - intros i a b [[-> ->]|[Hne Ha]]%start_attempts Hbi; [|by eapply pi_bounds|done].
    rewrite allowed_lookup in Hbi by done. injection Hbi as <-. lia.
  - intros i a Hi [[-> ->]|[Hne Ha]]%start_attempts; [lia| |done]. by eapply pi_future.
  - intros a [= <-]. rewrite used_start by done. split_and!; [done|done|lia].
  - pose proof (pi_count _ H) as Hc. rewrite Ho in Hc. cbn [pg_attempts pg_start].
    rewrite zsum_alter_succ; [lia|]. rewrite pi_attempts by done. by apply H.
  - intros i k r (H1 & H2 & H3 & a & Ha & Hk)%(pi_history _ H). split_and!; try done.
    destruct (decide (i = pg_index p)) as [->|Hne].
    + exists (used p + 1). rewrite used_lookup in Ha by done. injection Ha as <-.
      split; [|lia]. cbn. by rewrite list_lookup_alter_eq, used_lookup.
    + exists a. split; [cbn; by rewrite list_lookup_alter_ne|].
      destruct Hk as [Hk|[-> _]]; [by left|]. right. split; [done|]. naive_solver.
Qed.

(** ** Recording a result keeps it *)

Lemma last_mark_snoc h i k r j :
  last_mark (h ++ [(i, k, r)]) j = if decide (i = j) then progress_value r else last_mark h j.
Proof. unfold last_mark. by rewrite foldl_app. Qed.

Definition recorded (p : Progress) (a : Z) (r : EpisodeProgressStatus) (i : nat)
    (st : EpisodeProgressStatus) : Progress := {|
  pg_status := st; pg_index := i; pg_attempts := pg_attempts p;
  pg_marks := <[pg_index p := progress_value r]> (pg_marks p);
  pg_open := None; pg_history := pg_history p ++ [(pg_index p, a, r)] |}.

Lemma recorded_marks p r i m : pg_inv p →
  <[pg_index p := progress_value r]> (pg_marks p) !! i = Some m ↔
  (i = pg_index p ∧ m = progress_value r) ∨ (i ≠ pg_index p ∧ pg_marks p !! i = Some m).
Proof.
  intros H. pose proof (pi_index _ H) as Hi. rewrite <- (pi_marks _ H) in Hi.
  destruct (decide (i = pg_index p)) as [->|Hne].
  - rewrite list_lookup_insert_eq by done. naive_solver.
  - rewrite list_lookup_insert_ne by done. naive_solver.
Qed.

Lemma recorded_history p a r i k s : pg_inv p → pg_open p = Some a → r ≠ ACTIVE →
  (i, k, s) ∈ pg_history p ++ [(pg_index p, a, r)] →
  s ≠ ACTIVE ∧ (i <= pg_index p)%nat ∧ 1 <= k ∧
  ∃ b, pg_attempts p !! i = Some b ∧ k <= b.
Proof.
  intros H Ho Hr [Hin|[= -> -> ->]%list_elem_of_singleton]%elem_of_app.
  - apply (pi_history _ H) in Hin as (H1 & H2 & H3 & b & Hb & Hk). split_and!; try done.
    exists b. split; [done|]. lia.
  - destruct (pi_open _ H _ Ho) as (_ & -> & H1). split_and!; [done|lia|lia|].
    exists (used p). split; [by apply used_lookup|lia].
Qed.

Lemma recorded_inv p a r i st :
  pg_inv p → pg_open p = Some a → r ≠ ACTIVE →
  (i = pg_index p ∨ i = S (pg_index p) ∧ (S (pg_index p) < count)%nat ∧
                    (r = PASS ∨ cont = true ∧ r = FAIL)) →
  (st = ACTIVE → i = S (pg_index p) ∨ used p < allowed p) →
  (st = PASS → ∀ j, (j < count)%nat →
     <[pg_index p := progress_value r]> (pg_marks p) !! j = Some "PASS") →
  pg_inv (recorded p a r i st).
Proof.
  intros H Ho Hr Hi Hact Hpass. destruct (pi_open _ H _ Ho) as (Hst & -> & Ha).
  pose proof (pi_index _ H) as Hidx.
  split; cbn [recorded pg_attempts pg_marks pg_index pg_open pg_status pg_history];
    try apply H; try done.
  - rewrite length_insert. by apply H.
  - naive_solver lia.
  - intros j b Hj. apply (pi_future _ H). naive_solver lia.
  - intros Hs _. destruct Hi as [->|(-> & Hlt & _)].
    + destruct (Hact Hs); [lia|done].
    + unfold used, allowed. cbn.
      destruct (lookup_lt_is_Some_2 budgets (S (pg_index p))) as [b Hb]; [done|].
      destruct (lookup_lt_is_Some_2 (pg_attempts p) (S (pg_index p))) as [b' Hb'];
        [by rewrite pi_attempts|].
      rewrite Hb, Hb'. cbn. rewrite (pi_future _ H (S (pg_index p)) b') by (lia || done).
      apply list_elem_of_lookup_2, budgets_pos in Hb. lia.
  - intros j Hj. destruct (decide (j = pg_index p)) as [->|Hne].
    + destruct Hi as [->|(-> & _ & Hr')]; [lia|].
      destruct Hr' as [->|[-> ->]]; [left|right; split; [done|]]; apply recorded_marks; auto.
    + destruct (pi_past _ H j) as [Hm|[-> Hm]]; [lia| |];
        [left|right; split; [done|]]; apply recorded_marks; auto.
  - intros j m [[-> ->]|[Hne Hm]]%recorded_marks; [| |done]; rewrite last_mark_snoc.
    + by rewrite decide_True.
    + rewrite decide_False by done. by apply (pi_last _ H).
  - rewrite length_app. pose proof (pi_count _ H) as Hc. rewrite Ho in Hc. cbn. lia.
  - intros j k s Hin. destruct (recorded_history _ _ _ _ _ _ H Ho Hr Hin)
      as (H1 & H2 & H3 & b & Hb & Hk). split_and!; try done; [naive_solver lia|].
    exists b. split; [done|]. destruct (decide (k = b)); [right|left; lia].
    split; [done|]. by intros [_ ?].
  - rewrite fmap_app. apply NoDup_app. split_and!; [apply H| |apply NoDup_singleton].
    intros x Hx Hx'. apply list_elem_of_singleton in Hx' as ->.
    apply list_elem_of_fmap in Hx as ([[j k] s] & [= <- <-] & Hin).
    apply (pi_history _ H) in Hin as (_ & _ & _ & b & Hb & Hk).
    rewrite used_lookup in Hb by done. injection Hb as <-. rewrite Ho in Hk. naive_solver lia.
Qed.

Lemma pg_record_eq p a r : pg_open p = Some a →
  pg_record r p =
  let '(i, st) := next_stop p (<[pg_index p := progress_value r]> (pg_marks p)) r in
  recorded p a r i st.
Proof. unfold pg_record. by intros ->. Qed.

(** Every level passed when the last one did and none is marked failed. *)
Lemma all_passed p : pg_inv p → (count <= S (pg_index p))%nat →
  cont && bool_decide ("FAIL" ∈ <[pg_index p := "PASS"]> (pg_marks p)) = false →
  ∀ j, (j < count)%nat → <[pg_index p := "PASS"]> (pg_marks p) !! j = Some "PASS".
Proof.
  intros H Hl Hf j Hj. apply (recorded_marks p PASS j "PASS" H).
  destruct (decide (j = pg_index p)) as [->|Hne]; [by left|]. right. split; [done|].
  destruct (pi_past _ H j) as [?|[Hc Hm]]; [lia|done|]. exfalso.
  apply not_true_iff_false in Hf. apply Hf. rewrite Hc. apply bool_decide_eq_true.
  apply list_elem_of_lookup. exists j. by apply (recorded_marks p PASS j "FAIL" H); right.
Qed.

Lemma record_inv p a r : pg_inv p → pg_open p = Some a → r ≠ ACTIVE → pg_inv (pg_record r p).
Proof.
  intros H Ho Hr. rewrite (pg_record_eq _ _ _ Ho). unfold next_stop.
  destruct r; [done| | |].
  - case_bool_decide as Hl.
    + destruct (cont && _) eqn:Hc; apply recorded_inv; auto; try done. intros _. by apply all_passed.
    + apply recorded_inv; auto; try done. right. split_and!; [done|lia|by left].
  - destruct (Z.ltb_spec (used p) (allowed p)); [apply recorded_inv; auto; done|].
    destruct (cont && _) eqn:Hc; apply recorded_inv; auto; try done. bool_to_prop.
    right. split_and!; [done|lia|by right].
  - apply recorded_inv; auto; done.
Qed.

Lemma reachable_inv p : pg_reachable p → pg_inv p.
Proof.
  unfold pg_reachable. intros H.
  enough (∀ q, rtc pg_step q p → pg_inv q → pg_inv p) as E by (apply (E pg_init); [done|apply init_inv]).
  clear H. induction 1 as [|q q' p Hs _ IH]; [done|]. intros Hq. apply IH.
  inversion Hs; subst; [by apply start_inv|by eapply record_inv].
Qed.

(** ** The total budget *)

Lemma zsum_le l bs : length l = length bs →
  (∀ i a b, l !! i = Some a → bs !! i = Some b → a <= b) → zsum l <= zsum bs.
Proof.
  revert bs; induction l as [|a l IH]; intros [|b bs]; try done. intros [= Hl] Hb.
  rewrite !zsum_cons. specialize (IH bs Hl (λ i, Hb (S i))). specialize (Hb 0%nat a b eq_refl eq_refl). lia.
Qed.

Lemma zsum_lt l bs i u b : length l = length bs →
  (∀ i a b, l !! i = Some a → bs !! i = Some b → a <= b) →
  l !! i = Some u → bs !! i = Some b → u < b → zsum l < zsum bs.
Proof.
  revert bs i; induction l as [|x l IH]; intros [|y bs] i; try done. intros [= Hl] Hb Hu Hal Hlt.
  rewrite !zsum_cons. pose proof (Hb 0%nat x y eq_refl eq_refl). destruct i as [|i]; cbn in Hu, Hal.
  - injection Hu as ->. injection Hal as ->. pose proof (zsum_le l bs Hl (λ i, Hb (S i))). lia.
  - specialize (IH bs i Hl (λ i, Hb (S i)) Hu Hal Hlt). lia.
Qed.

(** While the current level has attempts left, so has the episode. *)
Lemma attempts_below p : pg_inv p → used p < allowed p → zsum (pg_attempts p) < zsum budgets.
Proof.
  intros H Hlt. apply (zsum_lt _ _ (pg_index p) (used p) (allowed p)); try done.
  - apply H.
  - intros i a b Ha Hb. by destruct (pi_bounds _ H i a b Ha Hb).
  - by apply used_lookup.
  - by apply allowed_lookup.
Qed.

Lemma attempts_within p : pg_inv p → zsum (pg_attempts p) <= zsum budgets.
Proof.
  intros H. apply zsum_le; [apply H|]. intros i a b Ha Hb. by destruct (pi_bounds _ H i a b Ha Hb).
Qed.
End machine.
