(* ===== verification/ProgressionRefinement.v ===== *)
(** * The progression controller implements its specification

    How the state document of [ProgressionController] represents an abstract
    progress, and that [__init__], [start_trial] and [record_result] do what the
    machine of [ProgressionSpec] does, whatever the store does. *)

From S2P Require Import Prelude PyFloat PyVal DisturbanceTypes EpisodeBuilder Progression.
From S2P Require Import ProgressionSpec.

#[local] Open Scope Z_scope.

Definition lname (i : nat) : string := level_name (Z.of_nat i + 1).

Section refinement.
Context {W : Type} (utc_now : nat → string) (self : ControllerConfig W).
Context (levels : list val) (bodies : list (list mapping * Z)) (eid : string).
Context (valid : episode_valid (cfg_episode self) levels bodies).
Context (episode_id_ok : dget "episode_id" (cfg_episode self) = Some (VStr eid)).

Abbreviation budgets := (map snd bodies).
Abbreviation cont := (continue_after_failure self).
Abbreviation episode_id := (VStr eid).

(** ** The episode *)

Lemma vitem_Some d k v : dget k d = Some v → vitem d k = Ok v.
Proof. unfold vitem. by intros ->. Qed.

Lemma vitem_vget d k v : vget d k = v → v ≠ VNone → vitem d k = Ok v.
Proof. unfold vget, vitem. destruct (dget k d); simpl; congruence. Qed.

Lemma length_bodies : length bodies = length levels.
Proof. symmetry. apply (length_mapM _ _ _ (ev_bodies _ _ _ valid)). Qed.

Lemma budgets_pos : ∀ b, b ∈ budgets → 1 <= b.
Proof. intros b ([ms x] & -> & Hx)%list_elem_of_fmap. by apply (ev_items _ _ _ valid) in Hx as [? _]. Qed.

Lemma budgets_ne : budgets ≠ [].
Proof.
  intros H. apply (ev_nonempty _ _ _ valid). apply length_zero_iff_nil.
  rewrite <- length_bodies. by destruct bodies.
Qed.

(** A level of the episode, as the controller reads it. *)
Lemma level_facts i b : budgets !! i = Some b →
  ∃ level, episode_level self (Z.of_nat i) = Ok level ∧
    val_item level "level_id" = Ok (VStr (lname i)) ∧
    ∃ v, val_item level "retry_budget" = Ok v ∧ py_int v = Ok b.
Proof.
  intros ([ms x] & -> & Hi)%list_lookup_fmap_Some.
  pose proof (ev_bodies _ _ _ valid) as Hb. apply mapM_Some_1 in Hb.
  destruct (Forall2_lookup_r _ _ _ _ _ Hb Hi) as (level & Hl & Hbody). exists level.
  unfold episode_level. rewrite (vitem_vget _ _ _ (ev_levels _ _ _ valid)) by done.
  rewrite bind_ok. split.
  { unfold val_index, list_item. destruct (Z.ltb_spec (Z.of_nat i) 0); [lia|].
    destruct (Z.ltb_spec (Z.of_nat i) 0); [lia|]. rewrite Nat2Z.id, Hl. done. }
  pose proof (ev_ids _ _ _ valid _ _ Hl) as Hid. apply attr_get_Ok in Hid as (d & -> & Hid).
  split; [by apply vitem_vget|].
  unfold level_body in Hbody. cbn in Hbody. destruct (as_list _); [|done]. cbn in Hbody.
  destruct (mapM as_map _); [|done]. cbn in Hbody.
  destruct (vget d "retry_budget") as [|b| z | | | |] eqn:E; try done; cbn in Hbody;
    injection Hbody as _ <-; eexists; (split; [by apply (vitem_vget _ _ _ E)|done]).
Qed.

Lemma level_count_ok : level_count self = Ok (Z.of_nat (length budgets)).
Proof.
  unfold level_count. rewrite (vitem_vget _ _ _ (ev_levels _ _ _ valid)) by done.
  rewrite bind_ok. cbn. by rewrite length_map, length_bodies.
Qed.

Lemma zsum_nonneg l : (∀ b, b ∈ l → 1 <= b) → Z.of_nat (length l) <= zsum l.
Proof.
  induction l as [|b l IH]; intros H; [done|]. rewrite zsum_cons. cbn [length].
  specialize (H b (list_elem_of_here _ _)) as Hb.
  enough (Z.of_nat (length l) <= zsum l) by lia.
  apply IH. intros x Hx. apply H. by apply list_elem_of_further.
Qed.

Lemma total_budget_ok : total_budget self = Ok (zsum budgets).
Proof.
  unfold total_budget. pose proof (ev_total _ _ _ valid) as Ht. unfold vget_or in Ht. unfold vitem.
  destruct (dget "total_retry_budget" (cfg_episode self)) as [v|]; cbn in *; [done|].
  injection Ht as Ht. pose proof (zsum_nonneg budgets budgets_pos). lia.
Qed.

(** ** Representation *)

Definition tname (i : nat) (k : Z) : string :=
  cfg_run_id self +:+ "-" +:+ lname i +:+ "-a" +:+ pretty k.

Definition item_repr (e : nat * Z * EpisodeProgressStatus) (v : val) : Prop :=
  ∃ d, v = VDict d ∧ vget d "trial_id" = VStr (tname e.1.1 e.1.2) ∧
       vget d "primary_status" = VStr (progress_value e.2).

Record represents (p : Progress) (m : mapping) : Prop := {
  rp_header : dget "schema_version" m = Some (VStr "progression-state.v1") ∧
    dget "episode_id" m = Some episode_id ∧ dget "run_id" m = Some (VStr (cfg_run_id self)) ∧
    dget "agent_id" m = Some (VStr (cfg_agent_id self));
  rp_status : dget "status" m = Some (VStr (progress_value (pg_status p)));
  rp_index : dget "current_level_index" m = Some (VInt (Z.of_nat (pg_index p)));
  rp_total : dget "total_attempts" m = Some (VInt (zsum (pg_attempts p)));
  rp_attempts : ∃ d, dget "level_attempts" m = Some (VDict d) ∧
    ∀ i a, pg_attempts p !! i = Some a → dget (lname i) d = Some (VInt a);
  rp_marks : ∃ d, dget "level_statuses" m = Some (VDict d) ∧ NoDup (dkeys d) ∧
    (∀ i s, pg_marks p !! i = Some s → dget (lname i) d = Some (VStr s)) ∧
    (∀ k v, dget k d = Some v → ∃ i s, pg_marks p !! i = Some s ∧ k = lname i ∧ v = VStr s);
  rp_open : match pg_open p with
            | None => dget "open_trial" m = Some VNone
            | Some a => ∃ d, dget "open_trial" m = Some (VDict d) ∧
                vget d "trial_id" = VStr (tname (pg_index p) a) ∧
                dget "level_id" d = Some (VStr (lname (pg_index p)))
            end;
  rp_history : ∃ l, dget "history" m = Some (VList l) ∧ Forall2 item_repr (pg_history p) l }.

(** Keys the representation does not read. *)
Lemma represents_frame p m k v :
  k ∉ ["schema_version"; "episode_id"; "run_id"; "agent_id"; "status"; "current_level_index"; "total_attempts"; "level_attempts"; "level_statuses";
       "open_trial"; "history"] →
  represents p m → represents p (dset k v m).
Proof.
  rewrite !not_elem_of_cons. intros (?&?&?&?&?&?&?&?&?&?&?&_) []. split; rewrite ?dget_dset_ne by done; done.
Qed.

(** ** Running the primitives *)

Implicit Types s : ControllerState W.

Lemma state_item_run k v s : dget k (pc_state s) = Some v → state_item k s = (s, Ok v).
Proof. intros H. unfold state_item. by rewrite (vitem_Some _ _ _ H). Qed.

Lemma state_int_run k z s : dget k (pc_state s) = Some (VInt z) → state_int k s = (s, Ok z).
Proof. intros H. unfold state_int. by run_step (state_item_run _ _ _ H). Qed.

Lemma state_get_run k v s : dget k (pc_state s) = Some v → state_get k s = (s, Ok v).
Proof. intros H. unfold state_get, gets, vget. by rewrite H. Qed.

Lemma state_set_in_run outer k v d s : dget outer (pc_state s) = Some (VDict d) →
  state_set_in outer k v s = (set_state (dset outer (VDict (dset k v d)) (pc_state s)) s, Ok tt).
Proof. intros H. unfold state_set_in. by run_step (state_item_run _ _ _ H). Qed.

Lemma state_append_run k v l s : dget k (pc_state s) = Some (VList l) →
  state_append k v s = (set_state (dset k (VList (l ++ [v])) (pc_state s)) s, Ok tt).
Proof. intros H. unfold state_append. by run_step (state_item_run _ _ _ H). Qed.

Lemma progress_of_value st : progress_of (VStr (progress_value st)) = Ok st.
Proof. by destruct st. Qed.

Lemma status_run p s : represents p (pc_state s) → status s = (s, Ok (pg_status p)).
Proof.
  intros H. unfold status. run_step (state_item_run _ _ _ (rp_status _ _ H)).
  by rewrite progress_of_value.
Qed.

(** [_persist] stamps the state and calls the store; what the store does shows only
    in the store's world and in whether the call raises. *)
Lemma persist_run s : ∃ w r,
  _persist utc_now self s =
  ({| pc_state := dset "updated_at" (VStr (utc_now (pc_clock s))) (pc_state s);
      pc_world := w; pc_clock := S (pc_clock s) |}, r).
Proof.
  unfold _persist. rewrite prog_bind_eq. cbn [_utc_now]. rewrite prog_bind_eq. unfold state_set, modify.
  unfold save_state. cbn [pc_state pc_world pc_clock set_state].
  destruct (cfg_store self) as [st|]; [|by eexists _, _].
  destruct (store_save _ _) as [w r]. by eexists _, _.
Qed.

Definition store_reliable : Prop := ∀ s, (_persist utc_now self s).2 = Ok tt.

(** Every way out of a call that changed the state goes through [_persist]. *)
Definition persisted s : Prop := ∃ s0, s = (_persist utc_now self s0).1.

Definition settles (p : Progress) s : Prop := represents p (pc_state s) ∧ persisted s.

Lemma persist_represents p s : represents p (pc_state s) →
  ∃ s' r, _persist utc_now self s = (s', r) ∧ settles p s' ∧
          (store_reliable → r = Ok tt).
Proof.
  intros H. destruct (persist_run s) as (w & r & E). eexists _, r. split; [exact E|]. split.
  - split; [|exists s; by rewrite E]. cbn [pc_state]. apply represents_frame; [|done].
    apply (bool_decide_unpack _). vm_compute. exact I.
  - intros Hr. specialize (Hr s). by rewrite E in Hr.
Qed.

Lemma finish_represents p st reason s :
  represents p (pc_state (set_state (dset "status" (VStr (progress_value st)) (pc_state s)) s)) →
  ∃ s' r, _finish utc_now self st reason s = (s', r) ∧ settles p s' ∧
          (store_reliable → r = Ok tt).
Proof.
  intros H. unfold _finish. rewrite prog_bind_eq. cbn [state_set modify]. rewrite prog_bind_eq.
  cbn [state_set modify]. apply persist_represents. cbn [set_state pc_state] in *.
  apply represents_frame; [|done]. apply (bool_decide_unpack _). vm_compute. exact I.
Qed.

(** ** [start_trial] *)

Lemma current_level_run p s : represents p (pc_state s) → pg_status p = ACTIVE →
  (pg_index p < length budgets)%nat →
  ∃ level b, current_level self s = (s, Ok (Some level)) ∧ budgets !! pg_index p = Some b ∧
    val_item level "level_id" = Ok (VStr (lname (pg_index p))) ∧
    ∃ v, val_item level "retry_budget" = Ok v ∧ py_int v = Ok b.
Proof.
  intros H Hst Hi. destruct (lookup_lt_is_Some_2 budgets (pg_index p) Hi) as [b Hb].
  destruct (level_facts _ _ Hb) as (level & Hl & Hid & Hrb). exists level, b.
  split; [|done]. unfold current_level. run_step (status_run _ _ H). rewrite Hst.
  cbn [bool_decide negb]. change (bool_decide (ACTIVE = ACTIVE)) with true. cbn [negb].
  run_step (state_int_run _ _ _ (rp_index _ _ H)). run_step Hl. done.
Qed.

Definition ticket_for (p : Progress) : TrialTicket := {|
  trial_id := tname (pg_index p) (used p + 1);
  run_id := cfg_run_id self;
  Progression.episode_id := eid;
  level_id := lname (pg_index p);
  attempt := used p + 1 |}.

Definition start_state (p : Progress) (d : mapping) (m : mapping) (t : string) : mapping :=
  dset "open_trial"
    (VDict [("trial_id", VStr (tname (pg_index p) (used p + 1)));
            ("level_id", VStr (lname (pg_index p)));
            ("attempt", VInt (used p + 1)); ("started_at", VStr t)])
    (dset "total_attempts" (VInt (zsum (pg_attempts p) + 1))
       (dset "level_attempts" (VDict (dset (lname (pg_index p)) (VInt (used p + 1)) d)) m)).

Lemma lname_inj i j : lname i = lname j → i = j.
Proof.
  unfold lname, level_name. intros H. apply (f_equal chars) in H. rewrite !chars_app in H.
  apply app_inv_head, (inj chars), (inj pretty) in H. lia.
Qed.

Lemma start_state_represents p d m t : represents p m → pg_inv budgets cont p →
  dget "level_attempts" m = Some (VDict d) →
  (∀ i a, pg_attempts p !! i = Some a → dget (lname i) d = Some (VInt a)) →
  represents (pg_start p) (start_state p d m t).
Proof.
  intros H Hinv Hd Ha. pose proof H as []. unfold start_state.
  split; cbn [pg_start pg_status pg_index pg_open pg_marks pg_history];
    autorewrite with pydict_rw; try done.
  - cbn [pg_attempts pg_start]. rewrite zsum_alter_succ; [done|]. rewrite (pi_attempts _ _ _ Hinv). by apply (pi_index _ _ _ Hinv).
  - eexists. split; [done|]. intros i a [[-> ->]|[Hne Hi]]%(start_attempts budgets cont); [| |done].
    + by rewrite dget_dset_eq.
    + rewrite dget_dset_ne; [by apply Ha|]. by intros ->%lname_inj.
  - by eexists.
Qed.

Lemma used_small p : pg_inv budgets cont p → pg_status p = ACTIVE → pg_open p = None →
  zsum (pg_attempts p) < zsum budgets.
Proof. intros H Hst Ho. by apply (attempts_below budgets cont), (pi_ready _ _ _ H Hst Ho). Qed.

Lemma start_refines p s : represents p (pc_state s) → pg_inv budgets cont p →
  pg_status p = ACTIVE → pg_open p = None →
  ∃ s' r, start_trial utc_now self s = (s', r) ∧ settles (pg_start p) s' ∧
          (∀ t, r = Ok t → t = ticket_for p) ∧ (store_reliable → r = Ok (ticket_for p)).
Proof.
  intros H Hinv Hst Ho. unfold start_trial.
  run_step (status_run _ _ H). rewrite Hst, run_when by done.
  pose proof (rp_open _ _ H) as Hop. rewrite Ho in Hop.
  run_step (state_get_run _ _ _ Hop). rewrite run_when by done.
  destruct (current_level_run p s H Hst (pi_index _ _ _ Hinv))
    as (level & b & Hl & Hb & Hid & v & Hv & Hvb).
  run_step Hl. rewrite run_lift with (a := level) by done. run_step Hid.
  destruct (rp_attempts _ _ H) as (d & Hd & Ha).
  run_step (state_item_run _ _ _ Hd). cbn [py_str].
  assert (attr_get_or (VDict d) (lname (pg_index p)) (VInt 0) = Ok (VInt (used p))) as Hn.
  { cbn. unfold vget_or. by rewrite (Ha _ _ (used_lookup _ _ _ Hinv)). }
  run_step Hn. rewrite run_lift with (a := used p) by done. run_step Hv. run_step Hvb.
  rewrite (allowed_lookup _ _ _ Hinv) in Hb. injection Hb as <-.
  rewrite run_when by (apply Z.leb_gt; by apply (pi_ready _ _ _ Hinv)).
  run_step (state_int_run _ _ _ (rp_total _ _ H)). run_step total_budget_ok.
  rewrite run_when by (apply Z.leb_gt; by apply used_small).
  run_step (state_set_in_run _ (lname (pg_index p)) (VInt (used p + 1)) _ _ Hd).
  assert (∀ m, dget "total_attempts" (pc_state (set_state
           (dset "level_attempts" m (pc_state s)) s)) = Some (VInt (zsum (pg_attempts p)))) as Ht.
  { intros m. cbn [pc_state set_state]. rewrite dget_dset_ne by done. apply H. }
  erewrite run_ok by (apply state_int_run, Ht). cbv beta. clear Ht.
  rewrite prog_bind_eq. cbn [state_set modify]. rewrite prog_bind_eq. cbn [_utc_now].
  rewrite prog_bind_eq. cbn [state_set modify set_state pc_state pc_clock pc_world].
  match goal with |- context[(_persist _ _ ≫= _) ?st] =>
    destruct (persist_represents (pg_start p) st) as (s' & r & E & Hs' & Hr) end.
  { cbn [pc_state]. by apply start_state_represents. }
  rewrite prog_bind_eq, E. destruct r as [[]|e].
  - eexists s', _. split; [|split; [exact Hs'|]].
    + rewrite run_lift with (a := episode_id) by (by apply vitem_Some). reflexivity.
    + split; [|done]. by intros t [= <-].
  - exists s', (Err e). split; [done|]. split; [exact Hs'|]. split; [done|]. intros Hrel. by apply Hr in Hrel.
Qed.

(** When no trial can start, the state is left alone. *)
Lemma start_refused p s : represents p (pc_state s) →
  pg_status p ≠ ACTIVE ∨ pg_open p ≠ None →
  ∃ m, start_trial utc_now self s = (s, raise RuntimeError m).
Proof.
  intros H Hno. unfold start_trial. run_step (status_run _ _ H).
  destruct (decide (pg_status p = ACTIVE)) as [Hst|Hst].
  - rewrite Hst, run_when by done. destruct Hno as [?|Ho]; [done|].
    destruct (pg_open p) as [a|] eqn:E; [|done]. pose proof (rp_open _ _ H) as Hop.
    rewrite E in Hop. destruct Hop as (d & Hd & Htid & _).
    run_step (state_get_run _ _ _ Hd). destruct d as [|kv d]; [done|].
    eexists. done.
  - rewrite bool_decide_false by done. by eexists.
Qed.

(** ** [record_result] of the open trial *)

(** The open trial moved to the history; the level is not yet marked. *)
Definition closed (p : Progress) (a : Z) (r : EpisodeProgressStatus) : Progress := {|
  pg_status := pg_status p; pg_index := pg_index p; pg_attempts := pg_attempts p;
  pg_marks := pg_marks p; pg_open := None;
  pg_history := pg_history p ++ [(pg_index p, a, r)] |}.

Lemma closed_represents p a r m l item :
  represents p m → dget "history" m = Some (VList l) → Forall2 item_repr (pg_history p) l →
  item_repr (pg_index p, a, r) item →
  represents (closed p a r) (dset "open_trial" VNone (dset "history" (VList (l ++ [item])) m)).
Proof.
  intros [] Hl Hf Hi. split; cbn [closed pg_status pg_index pg_attempts pg_marks pg_open pg_history];
    autorewrite with pydict_rw; try done.
  eexists. split; [done|]. apply Forall2_app; [done|]. by constructor.
Qed.

Lemma mark_represents p a r m d : pg_inv budgets cont p → pg_status p = ACTIVE →
  represents (closed p a r) m → dget "level_statuses" m = Some (VDict d) →
  represents (recorded p a r (pg_index p) ACTIVE)
    (dset "level_statuses" (VDict (dset (lname (pg_index p)) (VStr (progress_value r)) d)) m).
Proof.
  intros Hinv Hst H Hd. pose proof H as [? Hs ? ? ? (d' & Hd' & Hnd & Hm1 & Hm2) ? ?].
  rewrite Hd in Hd'. injection Hd' as <-. cbn [closed pg_status] in Hs. rewrite Hst in Hs.
  split; cbn [recorded pg_status pg_index pg_attempts pg_marks pg_open pg_history];
    autorewrite with pydict_rw; try done.
  eexists. split; [done|]. split; [by apply NoDup_dkeys_dset|]. cbn [closed pg_marks] in Hm1, Hm2. split.
  - intros i m' [[-> ->]|[Hne Hi]]%(recorded_marks budgets cont); [by rewrite dget_dset_eq| |done].
    rewrite dget_dset_ne; [by apply Hm1|]. by intros ->%lname_inj.
  - intros k v. rewrite dget_dset. case_decide as E.
    + intros [= <-]. exists (pg_index p), (progress_value r).
      split; [|done]. apply (recorded_marks budgets cont p r); auto.
    + intros (i & m' & Hi & -> & ->)%Hm2. exists i, m'. split; [|done].
      apply (recorded_marks budgets cont p r); [done|]. right. split; [|done]. by intros ->.
Qed.

Lemma status_represents p a r i st st' m : represents (recorded p a r i st) m →
  represents (recorded p a r i st') (dset "status" (VStr (progress_value st')) m).
Proof.
  intros []. split; cbn [recorded pg_status pg_index pg_attempts pg_marks pg_open pg_history] in *;
    autorewrite with pydict_rw; done.
Qed.

Lemma index_represents p a r i i' st m : represents (recorded p a r i st) m →
  represents (recorded p a r i' st) (dset "current_level_index" (VInt (Z.of_nat i')) m).
Proof.
  intros []. split; cbn [recorded pg_status pg_index pg_attempts pg_marks pg_open pg_history] in *;
    autorewrite with pydict_rw; done.
Qed.

(** [m] ends with the state representing [p], and returns when the store does. *)
Definition ends_in (c : prog (ControllerState W) unit) s (p : Progress) : Prop :=
  ∃ s' r, c s = (s', r) ∧ settles p s' ∧ (store_reliable → r = Ok tt).

Lemma finish_ends p a r i st st' reason s : represents (recorded p a r i st) (pc_state s) →
  ends_in (_finish utc_now self st' reason) s (recorded p a r i st').
Proof. intros H. apply finish_represents. by eapply status_represents. Qed.

Lemma stay_ends p s : represents p (pc_state s) →
  ends_in (state_set "terminal_reason" VNone ;; _persist utc_now self) s p.
Proof.
  intros H. unfold ends_in. rewrite prog_bind_eq. cbn [state_set modify].
  apply persist_represents. cbn [set_state pc_state]. apply represents_frame; [|done].
  apply (bool_decide_unpack _). vm_compute. exact I.
Qed.

Lemma advance_ends p a r i i' st s : represents (recorded p a r i st) (pc_state s) →
  ends_in (advance utc_now self (Z.of_nat i')) s (recorded p a r i' st).
Proof.
  intros H. unfold advance, ends_in. rewrite prog_bind_eq. cbn [state_set modify].
  apply stay_ends. cbn [set_state pc_state]. by eapply index_represents.
Qed.

Lemma any_level_failed_run p s : represents p (pc_state s) →
  any_level_failed s = (s, Ok (bool_decide ("FAIL" ∈ pg_marks p))).
Proof.
  intros H. destruct (rp_marks _ _ H) as (d & Hd & Hnd & H1 & H2). unfold any_level_failed.
  run_step (state_item_run _ _ _ Hd). unfold mret, prog_ret. do 2 f_equal.
  apply eq_bool_prop_intro. split; intros Hf%Is_true_true; apply Is_true_true.
  - apply existsb_True in Hf as ([k v] & Hin & Hv%is_str_true). cbn in Hv. subst v. apply bool_decide_eq_true.
    apply dget_elem in Hin; [|done]. apply H2 in Hin as (i & m & Hm & _ & [= ->]).
    by eapply list_elem_of_lookup_2.
  - apply bool_decide_eq_true, list_elem_of_lookup in Hf as [i Hi]. apply existsb_True.
    exists (lname i, VStr "FAIL"). split; [by apply dget_Some_elem, H1|done].
Qed.

(** The three outcomes, once the level is marked. *)
Lemma record_pass_ends p a d s : pg_inv budgets cont p → pg_status p = ACTIVE →
  represents (closed p a PASS) (pc_state s) →
  dget "level_statuses" (pc_state s) = Some (VDict d) → pg_open p = Some a →
  ends_in (record_pass utc_now self (lname (pg_index p))) s (pg_record budgets cont PASS p).
Proof.
  intros Hinv Hst H Hd Ho. rewrite (pg_record_eq _ _ _ _ _ Ho). unfold record_pass, ends_in.
  run_step (state_set_in_run "level_statuses" (lname (pg_index p)) (VStr "PASS") _ _ Hd).
  pose proof (mark_represents p a PASS _ d Hinv Hst H Hd) as Hm.
  set (s1 := set_state _ s). change (represents (recorded p a PASS (pg_index p) ACTIVE) (pc_state s1)) in Hm.
  run_step (state_int_run _ _ _ (rp_index _ _ Hm)). run_step level_count_ok.
  cbn [recorded pg_index next_stop]. unfold next_stop.
  assert ((Z.of_nat (length budgets) <=? Z.of_nat (pg_index p) + 1) =
          bool_decide (length budgets <= S (pg_index p))%nat) as ->.
  { apply eq_bool_prop_intro. rewrite bool_decide_spec, Is_true_true, Z.leb_le. lia. }
  case_bool_decide as Hl.
  - assert ((if cont then any_level_failed else mret false) s1 =
      (s1, Ok (cont && bool_decide ("FAIL" ∈ <[pg_index p := "PASS"]> (pg_marks p))))) as Hf.
    { destruct cont; [by rewrite (any_level_failed_run _ _ Hm)|done]. }
    rewrite prog_bind_eq, Hf. destruct (cont && _); by eapply finish_ends.
  - replace (Z.of_nat (pg_index p) + 1) with (Z.of_nat (S (pg_index p))) by lia.
    by eapply advance_ends.
Qed.

Lemma record_skip_ends p a d reason s : pg_inv budgets cont p → pg_status p = ACTIVE →
  represents (closed p a SKIP) (pc_state s) →
  dget "level_statuses" (pc_state s) = Some (VDict d) → pg_open p = Some a →
  ends_in (state_set_in "level_statuses" (lname (pg_index p)) (VStr "SKIP") ;;
           _finish utc_now self SKIP reason) s (pg_record budgets cont SKIP p).
Proof.
  intros Hinv Hst H Hd Ho. rewrite (pg_record_eq _ _ _ _ _ Ho). unfold ends_in.
  run_step (state_set_in_run "level_statuses" (lname (pg_index p)) (VStr "SKIP") _ _ Hd).
  eapply finish_ends. by apply (mark_represents p a SKIP _ d).
Qed.

Lemma record_fail_ends p a d s : pg_inv budgets cont p → pg_status p = ACTIVE →
  represents (closed p a FAIL) (pc_state s) →
  dget "level_statuses" (pc_state s) = Some (VDict d) → pg_open p = Some a →
  ends_in (record_fail utc_now self (lname (pg_index p))) s (pg_record budgets cont FAIL p).
Proof.
  intros Hinv Hst H Hd Ho. rewrite (pg_record_eq _ _ _ _ _ Ho). unfold record_fail, ends_in.
  run_step (state_set_in_run "level_statuses" (lname (pg_index p)) (VStr "FAIL") _ _ Hd).
  pose proof (mark_represents p a FAIL _ d Hinv Hst H Hd) as Hm.
  set (s1 := set_state _ s). change (represents (recorded p a FAIL (pg_index p) ACTIVE) (pc_state s1)) in Hm.
  run_step (state_int_run _ _ _ (rp_index _ _ Hm)). cbn [recorded pg_index].
  destruct (level_facts _ _ (allowed_lookup _ _ _ Hinv)) as (level & Hl & _ & v & Hv & Hvb).
  run_step Hl. destruct (rp_attempts _ _ Hm) as (d' & Hd' & Ha).
  run_step (state_item_run _ _ _ Hd').
  assert (val_item (VDict d') (lname (pg_index p)) = Ok (VInt (used p))) as Hn
    by (apply vitem_Some, Ha; by apply (used_lookup _ _ _ Hinv)).
  run_step Hn. rewrite run_lift with (a := used p) by done. run_step Hv. run_step Hvb.
  run_step (state_int_run _ _ _ (rp_total _ _ Hm)). run_step total_budget_ok.
  cbn [recorded pg_attempts]. unfold next_stop.
  destruct (Z.ltb_spec (used p) (allowed budgets p)) as [Hlt|Hge].
  - assert ((allowed budgets p <=? used p) || (zsum budgets <=? zsum (pg_attempts p)) = false) as ->.
    { apply orb_false_iff. rewrite !Z.leb_gt. split; [done|]. by apply (attempts_below budgets cont). }
    by apply stay_ends.
  - apply Z.leb_le in Hge. rewrite Hge. cbn [orb].
    run_step (state_int_run _ _ _ (rp_index _ _ Hm)). cbn [recorded pg_index].
    set (last_level := bool_decide (length budgets <= S (pg_index p))%nat).
    assert ((if cont then count ← lift (level_count self); mret (Z.of_nat (pg_index p) + 1 <? count)
             else mret false) s1 = (s1, Ok (cont && negb last_level))) as Hnext.
    { destruct cont; [|done]. run_step level_count_ok. unfold mret, prog_ret. do 2 f_equal.
      unfold last_level. cbn [andb]. case_bool_decide; cbn [negb];
        [apply Z.ltb_ge|apply Z.ltb_lt]; lia. }
    rewrite prog_bind_eq, Hnext. destruct cont, last_level; cbn [andb negb];
      [by eapply finish_ends| |by eapply finish_ends..].
    replace (Z.of_nat (pg_index p) + 1) with (Z.of_nat (S (pg_index p))) by lia.
    by eapply advance_ends.
Qed.

Lemma record_open_refines p s a r ref reason : represents p (pc_state s) → pg_inv budgets cont p →
  pg_open p = Some a → r ≠ ACTIVE →
  ∃ s' res, record_result utc_now self (tname (pg_index p) a) (progress_value r) ref reason s = (s', res) ∧
    settles (pg_record budgets cont r p) s' ∧
    (store_reliable → res = Ok (pc_state s')).
Proof.
  intros H Hinv Ho Hr. destruct (pi_open _ _ _ Hinv _ Ho) as (Hst & _ & _).
  unfold record_result.
  rewrite run_when by (apply negb_false_iff, bool_decide_eq_true; rewrite !elem_of_cons; destruct r; naive_solver).
  pose proof (rp_open _ _ H) as Hop. rewrite Ho in Hop. destruct Hop as (d & Hd & Htid & Hlid).
  run_step (state_get_run _ _ _ Hd). rewrite Htid, is_str_refl.
  rewrite prog_bind_eq. cbn [_utc_now]. set (s1 := {| pc_state := _; pc_world := _; pc_clock := _ |}).
  destruct (rp_history _ _ H) as (l & Hl & Hf).
  match goal with |- context[state_append "history" ?v] => set (item := v) end.
  run_step (state_append_run "history" item l s1 Hl).
  rewrite prog_bind_eq. cbn [state_set modify].
  rewrite run_lift with (a := VStr (lname (pg_index p))) by (by apply vitem_Some).
  match goal with |- context[(_ ≫= (λ _, snapshot)) ?st] => set (s2 := st) end.
  assert (represents (closed p a r) (pc_state s2)) as Hc.
  { apply (closed_represents p a r _ l item); [done|done|done|]. eexists. split; [done|]. cbn [fst snd].
    by rewrite !(vget_dset_ne _ "trial_id"), (vget_dset_ne _ "primary_status"),
      (vget_dset_ne _ "primary_status"), vget_dset_eq by done. }
  destruct (rp_marks _ _ Hc) as (dm & Hdm & _). cbn [py_str].
  match goal with |- context[(?c ≫= (λ _, snapshot)) s2] =>
    assert (ends_in c s2 (pg_record budgets cont r p)) as (s' & res & E & Hs' & Hrel) end.
  { destruct r; [done| | |]; cbn [progress_value].
    - by apply (record_pass_ends p a dm).
    - by apply (record_fail_ends p a dm).
    - by apply (record_skip_ends p a dm). }
  rewrite prog_bind_eq, E. destruct res as [[]|e].
  - by eexists _, _.
  - exists s', (Err e). split; [done|]. split; [done|]. intros HR. by apply Hrel in HR.
Qed.

(** ** Results that do not match the open trial *)

Lemma tname_inj i j k l : 1 <= k → 1 <= l → tname i k = tname j l → i = j ∧ k = l.
Proof.
  unfold tname. intros Hk Hl H. apply (f_equal chars) in H. rewrite !chars_app in H.
  apply app_inv_head in H.
  assert (∀ x t, chars "-a" ++ t = [] ++ "-"%char :: ("a"%char :: t) ∧ (1 <= x → "-"%char ∉ "a"%char :: chars (pretty x))) as Hd.
  { intros x t. split; [done|]. intros Hx. rewrite not_elem_of_cons. split; [done|].
    intros Hin. apply pretty_Z_digits in Hin; [done|lia]. }
  assert (k = l) as ->; [|].
  - rewrite (proj1 (Hd k _)), (proj1 (Hd l _)), !app_assoc in H.
    apply after_last_dash in H; [|by apply (Hd _ [])..]. injection H as H.
    by apply (inj chars), (inj pretty) in H.
  - split; [|done]. rewrite !app_assoc in H. do 2 apply app_inv_tail in H. apply app_inv_head in H. by apply (inj chars), lname_inj in H.
Qed.

Lemma find_trial_repr tid h l : Forall2 item_repr h l →
  (∃ e d, e ∈ h ∧ tname e.1.1 e.1.2 = tid ∧ item_repr e (VDict d) ∧ find_trial tid l = Ok (Some (VDict d))) ∨
  (∀ e, e ∈ h → tname e.1.1 e.1.2 ≠ tid) ∧ find_trial tid l = Ok None.
Proof.
  induction 1 as [|e v h l (d & -> & Hid & Hst) _ IH].
  - right. split; [|done]. by intros e ?%not_elem_of_nil.
  - cbn [find_trial attr_get]. rewrite bind_ok, Hid, is_str_VStr. case_bool_decide as E.
    + left. exists e, d. split; [apply list_elem_of_here|]. split; [done|]. split; [by exists d|done].
    + destruct IH as [(e' & d' & Hin & ?)|[Hn ->]].
      * left. exists e', d'. split; [by apply list_elem_of_further|done].
      * right. split; [|done]. by intros e' [->|Hin]%elem_of_cons; [|apply Hn].
Qed.

Definition mismatch : exn := Exn ValueError "result does not match the open trial".

Lemma replay_refines p s tid st : represents p (pc_state s) →
  (∃ e, e ∈ pg_history p ∧ tname e.1.1 e.1.2 = tid ∧
     replay_result tid st s =
       (s, if bool_decide (progress_value e.2 = st) then Ok (pc_state s) else Err mismatch)) ∨
  (∀ e, e ∈ pg_history p → tname e.1.1 e.1.2 ≠ tid) ∧ replay_result tid st s = (s, Err mismatch).
Proof.
  intros H. destruct (rp_history _ _ H) as (l & Hl & Hf). unfold replay_result.
  destruct (find_trial_repr tid _ _ Hf) as [(e & d & Hin & He & (d' & [= <-] & _ & Hst) & Hfind)|[Hn Hfind]].
  - left. exists e. split; [done|]. split; [done|].
    run_step (state_item_run _ _ _ Hl). rewrite run_lift with (a := l) by done. run_step Hfind.
    destruct d as [|kv d]; [done|]. cbn [truthy length]. change (bool_decide (S _ = 0%nat)) with false.
    cbn [negb attr_get]. rewrite Hst. rewrite prog_bind_eq.
    rewrite run_lift with (a := VStr (progress_value e.2)) by done.
    rewrite is_str_VStr. unfold mret, prog_ret. by destruct (bool_decide _).
  - right. split; [done|]. run_step (state_item_run _ _ _ Hl).
    rewrite run_lift with (a := l) by done. by run_step Hfind.
Qed.

(** The id of the open trial, if there is one. *)
Definition open_id (p : Progress) : option string := tname (pg_index p) <$> pg_open p.

Lemma record_other_eq p s tid st ref reason : represents p (pc_state s) →
  st ∈ ["PASS"; "FAIL"; "SKIP"] → open_id p ≠ Some tid →
  record_result utc_now self tid st ref reason s = replay_result tid st s.
Proof.
  intros H Hst Ho. unfold record_result. rewrite run_when by (by apply negb_false_iff, bool_decide_eq_true).
  pose proof (rp_open _ _ H) as Hop. unfold open_id in Ho. destruct (pg_open p) as [a|].
  - destruct Hop as (d & Hd & Htid & _). run_step (state_get_run _ _ _ Hd).
    rewrite Htid, is_str_VStr, bool_decide_false; [done|]. intros E. apply Ho. by rewrite <- E.
  - by run_step (state_get_run _ _ _ Hop).
Qed.

(** ** [__init__] without a checkpoint *)

Lemma per_level_from (x : val) ls j (acc : mapping) :
  (∀ i l, ls !! i = Some l → val_item l "level_id" = Ok (VStr (lname (j + i)))) →
  NoDup (dkeys acc) →
  (∀ k v, dget k acc = Some v ↔ ∃ i, (i < j)%nat ∧ k = lname i ∧ v = x) →
  ∃ d, foldM (λ acc level, id ← val_item level "level_id"; hash_check id ;;
                           Ok (dset (py_str id) x acc)) acc ls = Ok d ∧
    NoDup (dkeys d) ∧
    ∀ k v, dget k d = Some v ↔ ∃ i, (i < j + length ls)%nat ∧ k = lname i ∧ v = x.
Proof.
  revert j acc; induction ls as [|l ls IH]; intros j acc Hls Hnd Hacc; cbn [foldM].
  - exists acc. rewrite Nat.add_0_r. done.
  - pose proof (Hls 0%nat l eq_refl) as Hl. rewrite Nat.add_0_r in Hl. step_ok Hl.
    change (hash_check (VStr (lname j))) with (Ok (A:=unit) tt). rewrite !bind_ok. cbn [py_str].
    destruct (IH (S j) (dset (lname j) x acc)) as (d & Hd & Hnd' & Hk).
    + intros i l' Hi. replace (S j + i)%nat with (j + S i)%nat by lia. by apply Hls.
    + by apply NoDup_dkeys_dset.
    + intros k v. rewrite dget_dset. case_decide as E.
      * split; [intros [= <-]; exists j; split; [lia|done]|]. by intros (i & _ & _ & ->).
      * rewrite Hacc. split; intros (i & Hi & -> & ->); exists i; (split; [|done]); [lia|].
        destruct (decide (i = j)) as [->|]; [done|lia].
    + exists d. split; [exact Hd|]. split; [done|]. intros k v. rewrite Hk.
      cbn [length]. by rewrite Nat.add_succ_comm.
Qed.

Lemma per_level_ok (x : val) : ∃ d, per_level x levels = Ok d ∧ NoDup (dkeys d) ∧
  ∀ k v, dget k d = Some v ↔ ∃ i, (i < length levels)%nat ∧ k = lname i ∧ v = x.
Proof.
  apply (per_level_from x levels 0 []).
  - intros i l Hi. pose proof (ev_ids _ _ _ valid _ _ Hi) as Hid.
    apply attr_get_Ok in Hid as (d & -> & Hid). by apply vitem_vget.
  - constructor.
  - intros k v. split; [done|]. intros (i & ? & _). lia.
Qed.

Definition new_state_doc (da dm : mapping) (t : string) : mapping :=
  [("schema_version", VStr "progression-state.v1"); ("episode_id", episode_id);
   ("run_id", VStr (cfg_run_id self)); ("agent_id", VStr (cfg_agent_id self));
   ("status", VStr (progress_value ACTIVE)); ("current_level_index", VInt 0);
   ("total_attempts", VInt 0); ("level_attempts", VDict da); ("level_statuses", VDict dm);
   ("open_trial", VNone); ("history", VList []); ("terminal_reason", VNone);
   ("updated_at", VStr t)].

Lemma validate_new_state da dm t :
  _validate_state self (new_state_doc da dm t) = Ok tt.
Proof.
  unfold _validate_state. set (m := new_state_doc da dm t).
  change (vget m "episode_id") with episode_id.
  change (vget m "run_id") with (VStr (cfg_run_id self)).
  change (vget m "agent_id") with (VStr (cfg_agent_id self)).
  change (vget_or m "current_level_index" (VInt (-1))) with (VInt 0).
  change (vget_or m "total_attempts" (VInt (-1))) with (VInt 0).
  assert (vget (cfg_episode self) "episode_id" = episode_id) as ->
    by (unfold vget; by rewrite episode_id_ok).
  change (py_eq (VStr eid) (VStr eid)) with (is_str (VStr eid) eid).
  rewrite !is_str_refl, require_true, bind_ok. cbn [andb]. rewrite require_true, bind_ok.
  change (is_str (vget m "schema_version") "progression-state.v1") with true.
  rewrite ?require_true, ?bind_ok. cbn [py_int]. rewrite bind_ok. step_ok level_count_ok.
  assert ((0 <=? 0) && (0 <? Z.of_nat (length budgets)) = true) as ->.
  { cbn. apply Z.ltb_lt. pose proof (count_pos budgets budgets_pos budgets_ne). lia. }
  rewrite require_true, bind_ok. cbn [py_int]. rewrite ?bind_ok. step_ok total_budget_ok.
  apply require_Ok, Z.leb_le. pose proof (zsum_nonneg budgets budgets_pos). lia.
Qed.

Lemma new_state_represents da dm t :
  (∀ k v, dget k da = Some v ↔ ∃ i, (i < length levels)%nat ∧ k = lname i ∧ v = VInt 0) →
  NoDup (dkeys dm) →
  (∀ k v, dget k dm = Some v ↔ ∃ i, (i < length levels)%nat ∧ k = lname i ∧ v = VStr "PENDING") →
  represents (pg_init budgets) (new_state_doc da dm t).
Proof.
  intros Hka Hndm Hkm.
  assert (length budgets = length levels) as Hlen by (by rewrite length_map, length_bodies).
  split; cbn [pg_init pg_status pg_index pg_attempts pg_marks pg_open pg_history]; try done.
  - by rewrite zsum_zeros.
  - exists da. split; [done|]. intros i a [-> Hi]%lookup_replicate. apply Hka. exists i.
    split_and!; [lia|done|done].
  - exists dm. split; [done|]. split; [done|]. split.
    + intros i x [-> Hi]%lookup_replicate. apply Hkm. exists i. split_and!; [lia|done|done].
    + intros k v (i & Hi & -> & ->)%Hkm. exists i, "PENDING".
      split; [apply lookup_replicate; split; [done|lia]|done].
  - by exists [].
Qed.

Lemma init_refines s :
  ∃ s' r, init_controller utc_now self false s = (s', r) ∧
    settles (pg_init budgets) s' ∧ (store_reliable → r = Ok tt).
Proof.
  unfold init_controller.
  rewrite run_lift with (a := tt) by (apply validate_episode_iff; by eexists _, _).
  rewrite run_ret. destruct (per_level_ok (VInt 0)) as (da & Hda & Hnda & Hka).
  destruct (per_level_ok (VStr "PENDING")) as (dm & Hdm & Hndm & Hkm).
  assert (_new_state utc_now self s =
    ({| pc_state := pc_state s; pc_world := pc_world s; pc_clock := S (pc_clock s) |},
     Ok (new_state_doc da dm (utc_now (pc_clock s))))) as Hnew.
  { unfold _new_state. rewrite run_lift with (a := episode_id) by (by apply vitem_Some).
    rewrite run_lift with (a := VList levels) by (apply vitem_vget; [apply valid|done]).
    rewrite run_lift with (a := levels) by done. run_step Hda. run_step Hdm. reflexivity. }
  rewrite prog_bind_eq, Hnew. rewrite prog_bind_eq. cbn [modify].
  run_step (validate_new_state da dm (utc_now (pc_clock s))).
  apply persist_represents. cbn [pc_state set_state]. by apply new_state_represents.
Qed.
End refinement.
