(* ===== verification/ProgressionProps.v ===== *)
(** * What holds of every progression run

    A run is a constructor call and then any sequence of [start_trial] and
    [record_result] calls with any arguments, calls that raise and failing stores
    included. The theorems read the state document of the controller after such a
    run. The last part is the orchestrator's view: checkpoints and resumption. *)

From S2P Require Import Prelude PyFloat PyVal DisturbanceTypes EpisodeBuilder Progression.
From S2P Require Import ProgressionSpec ProgressionRefinement.

#[local] Open Scope Z_scope.

Inductive op :=
  | StartTrial
  | RecordResult (trial_id primary_status result_ref : string) (failure_status : option string).

(** A checkpoint that sorts the keys of every object still represents the state. *)
Lemma represents_sorted {W} (self : ControllerConfig W) eid p m :
  represents self eid p m → represents self eid p (sort_mapping m).
Proof.
  assert (∀ k x y, dget k m = Some x → sort_doc x = y → dget k (sort_mapping m) = Some y) as Hk.
  { intros k x y Hx <-. by rewrite dget_sort_mapping, Hx. }
  intros [(Hh1&Hh2&Hh3&Hh4) ? ? ? (da & Hda & Ha) (dm & Hdm & Hnd & H1 & H2) Ho (l & Hl & Hf)].
  split; [split_and!; by eapply Hk|by eapply Hk|by eapply Hk|by eapply Hk| | | |].
  - exists (sort_mapping da). split; [by eapply Hk|]. intros i a Hi. by rewrite dget_sort_mapping, (Ha _ _ Hi).
  - exists (sort_mapping dm). split; [by eapply Hk|]. rewrite dkeys_sort_mapping. split; [done|]. split.
    + intros i x Hi. by rewrite dget_sort_mapping, (H1 _ _ Hi).
    + intros k v. rewrite dget_sort_mapping. intros (x & Hx & ->)%fmap_Some.
      apply H2 in Hx as (i & y & Hi & -> & ->). by exists i, y.
  - destruct (pg_open p) as [a|]; [|by eapply Hk]. destruct Ho as (d & Hd & Ht & Hi).
    exists (sort_mapping d). split; [by eapply Hk|]. split; [by apply vget_sort_str|].
    by rewrite dget_sort_mapping, Hi.
  - exists (map sort_doc l). split; [by eapply Hk|]. clear Hl.
    induction Hf as [|e v h l (d & -> & He1 & He2) _ IH]; cbn [map]; constructor; [|done].
    exists (sort_mapping d). split_and!; [done|by apply vget_sort_str..].
Qed.

Section runs.
Context {W : Type} (utc_now : nat → string) (self : ControllerConfig W).
Context (levels : list val) (bodies : list (list mapping * Z)) (eid : string).
Context (valid : episode_valid (cfg_episode self) levels bodies).
Context (episode_id_ok : dget "episode_id" (cfg_episode self) = Some (VStr eid)).

Abbreviation budgets := (map snd bodies).
Abbreviation cont := (continue_after_failure self).
Implicit Types s : ControllerState W.

Definition run_op (o : op) s : ControllerState W :=
  match o with
  | StartTrial => (start_trial utc_now self s).1
  | RecordResult tid st ref reason => (record_result utc_now self tid st ref reason s).1
  end.

(** The states a run goes through: an episode started afresh (without [resume], or with nothing
    in the store), resumed from the checkpoint of any state reached before, and every call.
    A checkpoint is the state document with its keys sorted. *)
Inductive reached : ControllerState W → Prop :=
  | reached_init resume s :
      (resume = true → (load_state self s).2 = Ok None) →
      reached (init_controller utc_now self resume s).1
  | reached_resume s s2 : reached s →
      (load_state self s2).2 = Ok (Some (sort_mapping (pc_state s))) →
      reached (init_controller utc_now self true s2).1
  | reached_op o s : reached s → reached (run_op o s).

Abbreviation repr := (represents self eid).
Abbreviation inv := (pg_inv budgets cont).

Lemma invalid_status_refused tid st ref reason s : st ∉ ["PASS"; "FAIL"; "SKIP"] →
  record_result utc_now self tid st ref reason s =
  (s, raise ValueError "primary_status must be PASS, FAIL, or SKIP").
Proof. intros H. unfold record_result. rewrite (bool_decide_false (st ∈ _)) by done. reflexivity. Qed.

Lemma valid_status st : st ∈ ["PASS"; "FAIL"; "SKIP"] →
  ∃ r, r ≠ ACTIVE ∧ st = progress_value r.
Proof.
  rewrite !elem_of_cons, elem_of_nil. intros [->|[->|[->|[]]]]; [exists PASS|exists FAIL|exists SKIP]; done.
Qed.

(** One call moves the represented progress by at most one step of the machine. *)
Lemma run_op_simulates o s p : repr p (pc_state s) → inv p →
  ∃ p', repr p' (pc_state (run_op o s)) ∧
        (run_op o s = s ∧ p' = p ∨
         persisted utc_now self (run_op o s) ∧ pg_step budgets cont p p').
Proof.
  intros H Hinv. destruct o as [|tid st ref reason]; cbn [run_op].
  - destruct (decide (pg_status p = ACTIVE)) as [Hst|Hst]; [destruct (pg_open p) eqn:Ho|].
    + destruct (start_refused utc_now self eid p s H) as [m ->]; [by right; rewrite Ho|]. exists p; auto.
    + destruct (start_refines utc_now self levels bodies eid valid episode_id_ok p s)
        as (s' & r & E & [Hs Hp] & _); try done.
      rewrite E. exists (pg_start p). split; [done|]. right. split; [done|]. by constructor.
    + destruct (start_refused utc_now self eid p s H) as [m ->]; [by left|]. exists p; auto.
  - destruct (decide (st ∈ ["PASS"; "FAIL"; "SKIP"])) as [Hst|Hst].
    + destruct (decide (open_id self p = Some tid)) as [Ho|Ho].
      * unfold open_id in Ho. destruct (pg_open p) as [a|] eqn:Eo; [|done]. injection Ho as <-.
        apply valid_status in Hst as (r & Hr & ->).
        destruct (record_open_refines utc_now self levels bodies eid valid p s a r ref reason)
          as (s' & res & E & [Hs Hp] & _); try done.
        rewrite E. exists (pg_record budgets cont r p). split; [done|]. right. split; [done|].
        by eapply step_record.
      * rewrite (record_other_eq utc_now self eid p) by done.
        destruct (replay_refines self eid p s tid st H) as [(e & _ & _ & ->)|[_ ->]]; exists p; auto.
    + rewrite invalid_status_refused by done. exists p. auto.
Qed.

Lemma validate_represents p m : represents self eid p m → pg_inv budgets cont p →
  _validate_state self m = Ok tt.
Proof.
  intros H Hinv. destruct (rp_header _ _ _ _ H) as (Hs & He & Hr & Ha).
  pose proof (pi_index _ _ _ Hinv) as Hidx.
  unfold _validate_state, vget, vget_or.
  rewrite Hs, He, Hr, Ha, episode_id_ok, (rp_index _ _ _ _ H), (rp_total _ _ _ _ H).
  cbn [default from_option id].
  change (py_eq (VStr eid) (VStr eid)) with (is_str (VStr eid) eid).
  rewrite !is_str_refl. cbn [andb]. rewrite !require_true, !bind_ok. cbn [py_int]. rewrite bind_ok.
  step_ok (level_count_ok self levels bodies valid).
  assert ((0 <=? Z.of_nat (pg_index p)) && (Z.of_nat (pg_index p) <? Z.of_nat (length budgets)) = true) as ->.
  { apply andb_true_iff. rewrite Z.leb_le, Z.ltb_lt. lia. }
  rewrite require_true, !bind_ok. step_ok (total_budget_ok self levels bodies valid).
  apply require_Ok, Z.leb_le. by eapply attempts_within.
Qed.

(** Nothing in the store: the constructor makes a new state, as without [resume]. *)
Lemma resume_without_checkpoint s : (load_state self s).2 = Ok None →
  init_controller utc_now self true s = init_controller utc_now self false (load_state self s).1.
Proof.
  intros Hl. unfold init_controller.
  rewrite !run_lift with (a := tt) by (apply validate_episode_iff; by eexists _, _).
  rewrite (prog_bind_eq (load_state self)). destruct (load_state self s) as [s' r]. cbn in Hl. by subst r.
Qed.

(** A resumed controller represents the progress of the checkpoint it loaded. *)
Lemma resume_refines p m s : (load_state self s).2 = Ok (Some m) → repr p m → inv p →
  ∃ s' r, init_controller utc_now self true s = (s', r) ∧
    _persist utc_now self (set_state m (load_state self s).1) = (s', r) ∧
    repr p (pc_state s') ∧ persisted utc_now self s'.
Proof.
  intros Hl Hm Hinv. unfold init_controller.
  rewrite run_lift with (a := tt) by (apply validate_episode_iff; by eexists _, _).
  rewrite (prog_bind_eq (load_state self)). destruct (load_state self s) as [s1 r1]. cbn [snd] in Hl. subst r1.
  assert (∃ kv m', m = kv :: m') as (kv & m' & Em).
  { pose proof (rp_status _ _ _ _ Hm) as Hst. destruct m as [|kv m']; [done|]. by eexists _, _. }
  rewrite Em, run_ret, <- Em. rewrite prog_bind_eq. cbn [modify fst].
  run_step (validate_represents p m Hm Hinv).
  destruct (persist_represents utc_now self eid p (set_state m s1) Hm) as (s3 & r & E & [H3 Hp] & _).
  by exists s3, r.
Qed.

Lemma reached_represents s : reached s →
  ∃ p, pg_reachable budgets cont p ∧ repr p (pc_state s) ∧ persisted utc_now self s.
Proof.
  assert (∀ s0, ∃ p, pg_reachable budgets cont p ∧
    repr p (pc_state (init_controller utc_now self false s0).1) ∧
    persisted utc_now self (init_controller utc_now self false s0).1) as Hfresh.
  { intros s0. destruct (init_refines utc_now self levels bodies eid valid episode_id_ok s0)
      as (s' & r & E & [Hs Hps] & _).
    rewrite E. exists (pg_init budgets). split; [constructor|done]. }
  induction 1 as [[|] s Hl|s s2 _ (p & Hp & Hr & _) Hl|o s _ (p & Hp & Hr & Hps)].
  - rewrite resume_without_checkpoint by auto. apply Hfresh.
  - apply Hfresh.
  - destruct (resume_refines p _ s2 Hl (represents_sorted self eid p _ Hr)) as (s' & r & -> & _ & H);
      [|by exists p].
    apply (reachable_inv budgets cont); [by eapply budgets_pos|by eapply budgets_ne|done].
  - destruct (run_op_simulates o s p Hr) as (p' & Hp' & [[E ->]|[Hps' Hstep]]).
    { apply (reachable_inv budgets cont); [by eapply budgets_pos|by eapply budgets_ne|done]. }
    + rewrite E in *. by exists p.
    + exists p'. split; [by eapply rtc_r|done].
Qed.

Lemma reached_inv s : reached s → ∃ p, inv p ∧ repr p (pc_state s) ∧ persisted utc_now self s.
Proof.
  intros (p & Hp & H)%reached_represents. exists p. split; [|done].
  apply (reachable_inv budgets cont); [by eapply budgets_pos|by eapply budgets_ne|done].
Qed.

(** C2: Every state the progression controller reaches through its calls, failed writes
    included, fresh or resumed by a new process from the checkpoint of any state reached
    before, represents a reachable state of the abstract level-by-level progression: the
    detailed documents refine the specification. *)
Theorem progression_simulates s : reached s →
  ∃ p, pg_reachable budgets cont p ∧ represents self eid p (pc_state s).
Proof. intros (p & Hp & H & _)%reached_represents. by exists p. Qed.

(** ** Passing the episode *)

Lemma progress_value_inj r r' : progress_value r = progress_value r' → r = r'.
Proof. by destruct r, r'. Qed.

Lemma last_mark_pass h i : last_mark h i = "PASS" → ∃ k, (i, k, PASS) ∈ h.
Proof.
  induction h as [|[[j k] r] h IH] using rev_ind; [done|]. rewrite last_mark_snoc.
  case_decide as E.
  - intros Hr. apply (progress_value_inj r PASS) in Hr as ->. subst j. exists k.
    apply elem_of_app. right. apply list_elem_of_here.
  - intros [k' Hk]%IH. exists k'. apply elem_of_app. by left.
Qed.

(** An entry of the history document. *)
Definition recorded_in (s : ControllerState W) (trial status : string) : Prop :=
  ∃ h d, dget "history" (pc_state s) = Some (VList h) ∧ VDict d ∈ h ∧
         vget d "trial_id" = VStr trial ∧ vget d "primary_status" = VStr status.

Lemma recorded_in_iff s p trial st : repr p (pc_state s) →
  recorded_in s trial st ↔
  ∃ e, e ∈ pg_history p ∧ tname self e.1.1 e.1.2 = trial ∧ progress_value e.2 = st.
Proof.
  intros H. destruct (rp_history _ _ _ _ H) as (l & Hl & Hf). unfold recorded_in. split.
  - intros (h & d & Hh & Hd & H1 & H2). rewrite Hl in Hh. injection Hh as <-.
    apply list_elem_of_lookup in Hd as [i Hi].
    destruct (Forall2_lookup_r _ _ _ _ _ Hf Hi) as (e & He & d' & [= <-] & H1' & H2').
    exists e. split; [by eapply list_elem_of_lookup_2|].
    rewrite H1 in H1'. rewrite H2 in H2'. by injection H1' as ->; injection H2' as ->.
  - intros (e & He & <- & <-). apply list_elem_of_lookup in He as [i Hi].
    destruct (Forall2_lookup_l _ _ _ _ _ Hf Hi) as (v & Hv & d & -> & H1 & H2).
    exists l, d. split_and!; try done. by eapply list_elem_of_lookup_2.
Qed.

(** C7: When the episode's status is PASS, every level has status PASS and a recorded trial of
    that level passed. *)
Theorem progression_pass_sound s : reached s →
  dget "status" (pc_state s) = Some (VStr "PASS") →
  ∀ i, (i < length levels)%nat → ∃ d k,
    dget "level_statuses" (pc_state s) = Some (VDict d) ∧
    dget (lname i) d = Some (VStr "PASS") ∧ recorded_in s (tname self i k) "PASS".
Proof.
  intros (p & Hinv & H & _)%reached_inv Hst i Hi. rewrite (rp_status _ _ _ _ H) in Hst.
  assert (pg_status p = PASS) as Hpass by (apply progress_value_inj; by injection Hst).
  rewrite <- (length_bodies self levels bodies valid), <- (length_map snd bodies) in Hi.
  pose proof (pi_pass _ _ _ Hinv Hpass i Hi) as Hm.
  destruct (rp_marks _ _ _ _ H) as (d & Hd & _ & Hm1 & _).
  destruct (last_mark_pass (pg_history p) i) as [k Hk].
  { symmetry. by apply (pi_last _ _ _ Hinv). }
  exists d, k. split_and!; [done|by apply Hm1|].
  apply (recorded_in_iff s p _ _ H). by exists (i, k, PASS).
Qed.

(** In every reachable state no level has more attempts than its budget, the total stays within
    the sum of the budgets, and every started attempt but an open one is in the history. *)
Theorem progression_budgets s : reached s → ∃ t d h,
  dget "total_attempts" (pc_state s) = Some (VInt t) ∧
  dget "level_attempts" (pc_state s) = Some (VDict d) ∧
  dget "history" (pc_state s) = Some (VList h) ∧
  0 <= t <= zsum budgets ∧
  Z.of_nat (length h) + (if truthy (vget (pc_state s) "open_trial") then 1 else 0) = t ∧
  ∀ i b, budgets !! i = Some b → ∃ a, dget (lname i) d = Some (VInt a) ∧ 0 <= a <= b.
Proof.
  intros (p & Hinv & H & _)%reached_inv.
  destruct (rp_attempts _ _ _ _ H) as (d & Hd & Ha).
  destruct (rp_history _ _ _ _ H) as (h & Hh & Hf). pose proof (pi_count _ _ _ Hinv) as Hc.
  exists (zsum (pg_attempts p)), d, h. split_and!; try done.
  - apply H.
  - destruct (pg_open p); lia.
  - by eapply attempts_within.
  - rewrite <- (Forall2_length _ _ _ Hf), <- Hc. f_equal. unfold vget.
    pose proof (rp_open _ _ _ _ H) as Hop. destruct (pg_open p); [|by rewrite Hop].
    destruct Hop as ([|kv d'] & -> & Ht & _); done.
  - intros i b Hb. destruct (lookup_lt_is_Some_2 (pg_attempts p) i) as [a Hi].
    { rewrite (pi_attempts _ _ _ Hinv). by eapply lookup_lt_Some. }
    exists a. split; [by apply Ha|]. by apply (pi_bounds _ _ _ Hinv i).
Qed.

(** With a reliable store and no open trial, an active controller starts the next attempt of a
    level whose earlier levels are all decided, under a trial id never used before and
    within the level's budget. *)
Theorem start_trial_in_order s : reached s → store_reliable utc_now self →
  dget "status" (pc_state s) = Some (VStr "ACTIVE") →
  dget "open_trial" (pc_state s) = Some VNone →
  ∃ s' i k b d,
    start_trial utc_now self s =
      (s', Ok {| trial_id := tname self i k; run_id := cfg_run_id self; episode_id := eid;
                 level_id := lname i; attempt := k |}) ∧
    budgets !! i = Some b ∧ 1 <= k <= b ∧
    (∀ st, ¬ recorded_in s (tname self i k) st) ∧
    dget "level_statuses" (pc_state s) = Some (VDict d) ∧
    ∀ j, (j < i)%nat → dget (lname j) d = Some (VStr "PASS") ∨
                       (cont = true ∧ dget (lname j) d = Some (VStr "FAIL")).
Proof.
  intros (p & Hinv & H & _)%reached_inv Hrel Hst Hop.
  assert (pg_status p = ACTIVE) as Hact.
  { apply progress_value_inj. rewrite (rp_status _ _ _ _ H) in Hst. by injection Hst. }
  assert (pg_open p = None) as Ho.
  { pose proof (rp_open _ _ _ _ H) as Hp. destruct (pg_open p); [|done].
    destruct Hp as (d & Hd & _). congruence. }
  destruct (start_refines utc_now self levels bodies eid valid episode_id_ok p s)
    as (s' & r & E & _ & _ & Hr); try done.
  pose proof (allowed_lookup _ _ _ Hinv) as Hb. pose proof (used_lookup _ _ _ Hinv) as Hu.
  pose proof (pi_bounds _ _ _ Hinv _ _ _ Hu Hb). pose proof (pi_ready _ _ _ Hinv Hact Ho).
  destruct (rp_marks _ _ _ _ H) as (d & Hd & _ & Hm & _).
  exists s', (pg_index p), (used p + 1), (allowed budgets p), d. split_and!; try done; try lia.
  - by rewrite E, (Hr Hrel).
  - intros st (e & He & Ht & _)%(recorded_in_iff s p _ _ H). destruct e as [[i k] r'].
    pose proof (pi_history _ _ _ Hinv _ _ _ He) as (_ & _ & Hk1 & a & Ha & Hk). cbn in Ht.
    apply tname_inj in Ht as [-> ->]; [|done|lia]. rewrite Hu in Ha. injection Ha as <-. lia.
  - intros j Hj. destruct (pi_past _ _ _ Hinv j Hj) as [Hp|[Hc Hp]]; [left|right; split; [done|]]; by apply Hm.
Qed.

(** Recording a trial's result again changes nothing: the same status returns the state, another
    one raises ValueError. *)
Theorem record_result_idempotent s trial st st' ref reason : reached s →
  recorded_in s trial st → st' ∈ ["PASS"; "FAIL"; "SKIP"] →
  record_result utc_now self trial st' ref reason s =
  (s, if bool_decide (st = st') then Ok (pc_state s)
      else raise ValueError "result does not match the open trial").
Proof.
  intros (p & Hinv & H & _)%reached_inv Hrec Hst.
  apply (recorded_in_iff s p _ _ H) in Hrec as ([[i k] r] & He & <- & <-). cbn [fst snd].
  pose proof (pi_history _ _ _ Hinv _ _ _ He) as (_ & _ & H1 & a & Ha & Hk).
  rewrite (record_other_eq utc_now self eid p); [|done|done|].
  - destruct (replay_refines self eid p s (tname self i k) st' H) as [([[j l] r'] & He' & Ht & ->)|[Hn _]].
    + pose proof (pi_history _ _ _ Hinv _ _ _ He') as (_ & _ & H1' & _).
      cbn [fst snd] in Ht |- *. apply tname_inj in Ht as [-> ->]; [|done|done].
      apply list_elem_of_lookup in He as [n Hn], He' as [n' Hn'].
      assert (n = n') as ->.
      { eapply (NoDup_lookup (pg_history p).*1); [apply Hinv| |];
          apply list_lookup_fmap_Some; [by exists (i, k, r)|by exists (i, k, r')]. }
      rewrite Hn in Hn'. injection Hn' as ->. done.
    + by destruct (Hn (i, k, r) He).
  - unfold open_id. intros (o & Eo & Ht)%fmap_Some.
    destruct (pi_open _ _ _ Hinv _ Eo) as (_ & -> & H2).
    apply tname_inj in Ht as [-> ->]; [|done|done].
    rewrite (used_lookup _ _ _ Hinv) in Ha. injection Ha as <-. rewrite Eo in Hk. naive_solver lia.
Qed.
End runs.

(** ** Checkpoints *)

(** [save] is atomic: the checkpoint is the old one or the new one, never a partial
    file, and no temporary file is left. *)
Lemma json_save_run state d : dir_temp d ≠ dir_path d →
  ∃ d', json_save state d = (d', dir_write d) ∧
    dir_path d' = dir_path d ∧ dir_temp d' = dir_temp d ∧ dir_write d' = dir_write d ∧
    dir_files d' = match dir_write d with
                   | Ok _ => <[dir_path d := VDict (sort_mapping state)]> (delete (dir_temp d) (dir_files d))
                   | Err _ => delete (dir_temp d) (dir_files d)
                   end.
Proof.
  intros Hne. unfold json_save, finally, write_temp. destruct d as [fs path temp w]. cbn in Hne.
  destruct w as [[]|e]; cbn -[sort_mapping]; (eexists; split; [reflexivity|]); cbn -[sort_mapping];
    split_and!; try done.
  - rewrite lookup_insert_eq. apply map_eq. intros k.
    destruct (decide (k = path)) as [->|H1]; [by rewrite lookup_delete_ne, !lookup_insert_eq by done|].
    rewrite lookup_insert_ne by done.
    destruct (decide (k = temp)) as [->|H2]; [by rewrite !lookup_delete_eq|].
    by rewrite !lookup_delete_ne, lookup_insert_ne, !lookup_delete_ne, !lookup_insert_ne by done.
  - apply map_eq. intros k. destruct (decide (k = temp)) as [->|H2]; [by rewrite !lookup_delete_eq|].
    by rewrite !lookup_delete_ne, lookup_insert_ne by done.
Qed.

(** A save that returns is read back sorted; one that fails leaves the old checkpoint, and no
    temporary file remains. *)
Theorem checkpoint_atomic state d : dir_temp d ≠ dir_path d →
  ∃ d' r, json_save state d = (d', r) ∧
    dir_files d' !! dir_temp d = None ∧
    (∀ f, f ≠ dir_path d → f ≠ dir_temp d → dir_files d' !! f = dir_files d !! f) ∧
    match r with
    | Ok _ => json_load d' = (d', Ok (Some (sort_mapping state)))
    | Err _ => dir_files d' !! dir_path d = dir_files d !! dir_path d
    end.
Proof.
  intros Hne. destruct (json_save_run state d Hne) as (d' & E & Hp & Ht & Hw & Hf).
  exists d', (dir_write d). split; [done|]. destruct (dir_write d); rewrite Hf.
  - split_and!.
    + rewrite lookup_insert_ne by done. apply lookup_delete_eq.
    + intros f H1 H2. by rewrite lookup_insert_ne, lookup_delete_ne.
    + unfold json_load. rewrite prog_bind_eq. cbn [gets]. by rewrite Hf, Hp, lookup_insert_eq.
  - split_and!; [apply lookup_delete_eq|by intros f H1 H2; rewrite lookup_delete_ne|].
    by rewrite lookup_delete_ne.
Qed.

Section resume.
Context (utc_now : nat → string) (self : ControllerConfig Directory).
Context (levels : list val) (bodies : list (list mapping * Z)) (eid : string).
Context (valid : episode_valid (cfg_episode self) levels bodies).
Context (episode_id_ok : dget "episode_id" (cfg_episode self) = Some (VStr eid)).
Context (store_ok : cfg_store self = Some JsonFileProgressionStore).

Abbreviation budgets := (map snd bodies).
Abbreviation cont := (continue_after_failure self).

(** After [_persist], the directory holds the state. *)
Lemma persisted_synced s : persisted utc_now self s →
  dir_temp (pc_world s) ≠ dir_path (pc_world s) → dir_write (pc_world s) = Ok tt →
  json_load (pc_world s) = (pc_world s, Ok (Some (sort_mapping (pc_state s)))).
Proof.
  intros [s0 ->]. unfold _persist. rewrite prog_bind_eq. cbn [_utc_now]. rewrite prog_bind_eq.
  cbn [state_set modify]. unfold save_state. rewrite store_ok. cbn [pc_state pc_world set_state store_save JsonFileProgressionStore].
  set (m := dset "updated_at" _ _). set (d := pc_world s0).
  destruct (decide (dir_temp d = dir_path d)) as [Heq|Hne].
  - unfold json_save, finally, write_temp. destruct d as [fs path temp w]. cbn in Heq. subst.
    by destruct w as [[]|e]; cbn.
  - destruct (json_save_run m d Hne) as (d' & -> & Hp & Ht & Hw & Hf). cbn [fst pc_world pc_state].
    intros _ Hok. rewrite Hw in Hok. rewrite Hok in Hf. unfold json_load. rewrite prog_bind_eq.
    cbn [gets]. by rewrite Hf, Hp, lookup_insert_eq.
Qed.

(** A controller resumed from the checkpoint of a reachable state, itself fresh or resumed, is
    reachable and represents the same state of the specification. *)
Theorem resume_restores s s2 : reached utc_now self s →
  dir_temp (pc_world s) ≠ dir_path (pc_world s) → dir_write (pc_world s) = Ok tt →
  pc_world s2 = pc_world s →
  ∃ p s3, pg_reachable budgets cont p ∧ represents self eid p (pc_state s) ∧
    init_controller utc_now self true s2 = (s3, Ok tt) ∧ represents self eid p (pc_state s3) ∧
    reached utc_now self s3.
Proof.
  intros Hreach Hne Hw Hs2.
  destruct (reached_represents utc_now self levels bodies eid valid episode_id_ok s Hreach)
    as (p & Hp & H & Hps).
  assert (pg_inv budgets cont p) as Hinv.
  { apply (reachable_inv budgets cont); [by eapply budgets_pos|by eapply budgets_ne|done]. }
  pose proof (persisted_synced s Hps Hne Hw) as Hload. set (m := sort_mapping (pc_state s)) in *.
  assert (load_state self s2 = (s2, Ok (Some m))) as Hl.
  { unfold load_state. rewrite store_ok. cbn [store_load JsonFileProgressionStore].
    rewrite Hs2, Hload, <- Hs2. by destruct s2. }
  assert ((load_state self s2).2 = Ok (Some m)) as Hl2 by by rewrite Hl.
  destruct (resume_refines utc_now self levels bodies eid valid episode_id_ok p m s2 Hl2
              (represents_sorted self eid p _ H) Hinv) as (s3 & r & E & Ep & H3 & _).
  assert (r = Ok tt) as ->.
  { rewrite Hl in Ep. unfold _persist in Ep. rewrite prog_bind_eq in Ep. cbn [_utc_now] in Ep.
    rewrite prog_bind_eq in Ep. cbn [state_set modify] in Ep. unfold save_state in Ep. rewrite store_ok in Ep.
    cbn [pc_state pc_world pc_clock set_state store_save JsonFileProgressionStore fst] in Ep.
    destruct (json_save_run (dset "updated_at" (VStr (utc_now (pc_clock s2))) m) (pc_world s2))
      as (d' & Ed & _); [by rewrite Hs2|].
    rewrite Ed in Ep. injection Ep as _ <-. by rewrite Hs2. }
  exists p, s3. split_and!; try done. change s3 with (s3, Ok tt : result unit).1. rewrite <- E.
  by eapply reached_resume.
Qed.
End resume.

(** ** A two-level episode *)

Definition sample_level (id : string) (ds : list mapping) (budget : Z) : val :=
  VDict [("level_id", VStr id); ("disturbances", VList (map VDict ds)); ("retry_budget", VInt budget)].

Definition sample_ds : list mapping := [[("disturbance_id", VStr "L2-D1")]].
Definition sample_levels : list val := [sample_level "L1" [] 1; sample_level "L2" sample_ds 2].
Definition sample_bodies : list (list mapping * Z) := [([], 1); (sample_ds, 2)].
Definition sample_episode : mapping :=
  [("episode_id", VStr "EP-1"); ("levels", VList sample_levels); ("total_retry_budget", VInt 3)].

Lemma sample_valid : episode_valid sample_episode sample_levels sample_bodies.
Proof.
  split; try done.
  - intros [|[|i]] l; cbn; [by intros [= <-]|by intros [= <-]|done].
  - by intros b [= <-].
  - intros [|[|i]] b b'; cbn; [|by intros _|done]. intros [= <-] [= <-]. cbn. lia.
  - intros b. unfold sample_bodies. rewrite !elem_of_cons, elem_of_nil.
    intros [->|[->|[]]]; (split; [done|]); split; try done.
    + by intros id ?%not_elem_of_nil.
    + intros id. cbn. rewrite elem_of_cons, elem_of_nil. by intros [->|[]].
Qed.

Definition sample_clock (n : nat) : string := "T" +:+ pretty (Z.of_nat n).

Definition sample_config {W} (store : option (ProgressionStore W)) : ControllerConfig W := {|
  cfg_episode := sample_episode; cfg_run_id := "RUN"; cfg_agent_id := "AGENT";
  cfg_store := store; continue_after_failure := false |}.

Abbreviation sample_self := (sample_config (W := unit) None).

Definition blank_state : ControllerState unit := {| pc_state := []; pc_world := tt; pc_clock := 0 |}.

Definition run_ops {W} (self : ControllerConfig W) (ops : list op) (s : ControllerState W) :
    ControllerState W := foldl (λ s o, run_op sample_clock self o s) s ops.

Lemma run_ops_reached {W} (self : ControllerConfig W) ops s :
  reached sample_clock self s → reached sample_clock self (run_ops self ops s).
Proof. revert s. induction ops as [|o ops IH]; intros s H; [done|]. apply IH. by constructor. Qed.

Definition sample_run (ops : list op) : ControllerState unit :=
  run_ops sample_self ops (init_controller sample_clock sample_self false blank_state).1.

Lemma sample_run_reached ops : reached sample_clock sample_self (sample_run ops).
Proof. by apply run_ops_reached, reached_init. Qed.

Definition to_level_two : list op :=
  [StartTrial; RecordResult "RUN-L1-a1" "PASS" "r1" None].
Definition to_the_end : list op :=
  to_level_two ++ [StartTrial; RecordResult "RUN-L2-a1" "FAIL" "r2" None;
                   StartTrial; RecordResult "RUN-L2-a2" "PASS" "r3" None].

Definition sample_directory : Directory := {|
  dir_files := ∅; dir_path := "progress.json"; dir_temp := ".progress.json.tmp"; dir_write := Ok tt |}.

Definition file_self : ControllerConfig Directory := sample_config (Some JsonFileProgressionStore).

(** Level one in one process, level two in another that resumed on the same file. *)
Definition first_process : ControllerState Directory :=
  run_ops file_self to_level_two (init_controller sample_clock file_self false
    {| pc_state := []; pc_world := sample_directory; pc_clock := 0 |}).1.
Definition second_process : ControllerState Directory :=
  run_ops file_self (drop 2 to_the_end) (init_controller sample_clock file_self true
    {| pc_state := []; pc_world := pc_world first_process; pc_clock := 9 |}).1.

Lemma progression_simulates_witness : ∃ p,
  pg_reachable (map snd sample_bodies) false p ∧
  represents file_self "EP-1" p (pc_state second_process) ∧
  dget "status" (pc_state second_process) = Some (VStr "PASS").
Proof.
  destruct (progression_simulates sample_clock file_self sample_levels sample_bodies "EP-1" sample_valid
              eq_refl second_process) as (p & H1 & H2).
  - apply run_ops_reached, (reached_resume _ _ first_process).
    + by apply run_ops_reached, reached_init.
    + vm_compute. reflexivity.
  - exists p. split; [exact H1|]. split; [exact H2|]. vm_compute. reflexivity.
Defined.

Lemma progression_pass_sound_witness : ∃ d k,
  dget "level_statuses" (pc_state (sample_run to_the_end)) = Some (VDict d) ∧
  dget (lname 1) d = Some (VStr "PASS") ∧
  recorded_in (sample_run to_the_end) (tname sample_self 1 k) "PASS".
Proof.
  apply (progression_pass_sound sample_clock sample_self sample_levels sample_bodies "EP-1" sample_valid
           eq_refl (sample_run to_the_end) (sample_run_reached _)).
  - vm_compute. reflexivity.
  - cbn. lia.
Defined.

Lemma progression_budgets_witness : ∃ t d h,
  dget "total_attempts" (pc_state (sample_run to_the_end)) = Some (VInt t) ∧
  dget "level_attempts" (pc_state (sample_run to_the_end)) = Some (VDict d) ∧
  dget "history" (pc_state (sample_run to_the_end)) = Some (VList h) ∧ 0 <= t <= 3.
Proof.
  destruct (progression_budgets sample_clock sample_self sample_levels sample_bodies "EP-1" sample_valid
           eq_refl (sample_run to_the_end) (sample_run_reached _)) as (t & d & h & H1 & H2 & H3 & H4 & _).
  change (zsum (map snd sample_bodies)) with 3 in H4.
  exists t, d, h. split_and!; [exact H1|exact H2|exact H3|lia|lia].
Defined.

Lemma start_trial_in_order_witness : ∃ s' t,
  start_trial sample_clock sample_self (sample_run to_level_two) = (s', Ok t).
Proof.
  destruct (start_trial_in_order sample_clock sample_self sample_levels sample_bodies "EP-1" sample_valid
           eq_refl (sample_run to_level_two) (sample_run_reached _))
    as (s' & i & k & b & d & E & _).
  - intros s. reflexivity.
  - vm_compute. reflexivity.
  - vm_compute. reflexivity.
  - eexists s', _. exact E.
Defined.

Lemma record_result_idempotent_witness :
  record_result sample_clock sample_self "RUN-L1-a1" "PASS" "again" None (sample_run to_level_two) =
  (sample_run to_level_two, Ok (pc_state (sample_run to_level_two))).
Proof.
  apply (record_result_idempotent sample_clock sample_self sample_levels sample_bodies "EP-1" sample_valid
           eq_refl (sample_run to_level_two) "RUN-L1-a1" "PASS" "PASS" "again" None (sample_run_reached _)).
  - eexists _, _. split; [vm_compute; reflexivity|]. split; [apply list_elem_of_here|].
    split; vm_compute; reflexivity.
  - apply list_elem_of_here.
Defined.

Lemma checkpoint_atomic_witness : ∃ d' r,
  json_save [("status", VStr "ACTIVE")] sample_directory = (d', r) ∧
  dir_files d' !! ".progress.json.tmp" = None.
Proof.
  destruct (checkpoint_atomic [("status", VStr "ACTIVE")] sample_directory) as (d' & r & E & Ht & _); [done|].
  by exists d', r.
Defined.

Lemma resume_restores_witness :
  let self := sample_config (Some JsonFileProgressionStore) in
  let s := (init_controller sample_clock self false
              {| pc_state := []; pc_world := sample_directory; pc_clock := 0 |}).1 in
  ∃ p s3, represents self "EP-1" p (pc_state s) ∧
    init_controller sample_clock self true {| pc_state := []; pc_world := pc_world s; pc_clock := 9 |}
      = (s3, Ok tt) ∧ represents self "EP-1" p (pc_state s3).
Proof.
  intros self s.
  destruct (resume_restores sample_clock self sample_levels sample_bodies "EP-1" sample_valid eq_refl eq_refl
              s {| pc_state := []; pc_world := pc_world s; pc_clock := 9 |})
    as (p & s3 & _ & H1 & H2 & H3 & _).
  - by constructor.
  - vm_compute. discriminate.
  - vm_compute. reflexivity.
  - reflexivity.
  - by exists p, s3.
Defined.
