(* ===== verification/Orchestrator.v ===== *)
(** * The multi-level orchestrator ([progression/orchestrator.py])

    One trial per turn: start it, prepare the target, run the harness with the
    injector listening to its events, clean up, finalize, have the level evaluated
    and record the verdict. The harness, the preparer, the finalizer, the evaluator
    and the injector factory are the callables the constructor is given. *)

From S2P Require Import Prelude PyFloat PyVal PyTime DisturbanceTypes Injector.
From S2P Require Import EpisodeBuilder Progression ProgressionSpec ProgressionRefinement.
From S2P Require Import ProgressionProps.

#[local] Open Scope Z_scope.

(** ** What the orchestrator needs of an injector *)

Class LiveInjector (G I : Type) := {
  inj_event : I → LifecycleEvent → prog G (list mapping);
  inj_cleanup : I → string → prog G (list mapping);
  inj_quiet : G → Prop;
  inj_cleanup_ok : ∀ i reason g, ∃ g' rs, inj_cleanup i reason g = (g', Ok rs) ∧ inj_quiet g' }.

Lemma controller_cleanup_ok {W} (clock : nat → datetime) (i : DisturbanceInjector W) reason g :
  ∃ g' rs, cleanup_all clock i reason g = (g', Ok rs) ∧ _active g' = [].
Proof.
  destruct (cleanup_all_spec clock i reason g) as (st' & rs & H & Ha & _). by exists st', rs.
Qed.

(** [DisturbanceInjector]: quiet when no execution is active. *)
#[export] Instance controller_injector {W} (clock : nat → datetime) :
    LiveInjector (istate W) (DisturbanceInjector W) := {|
  inj_event := process_event clock;
  inj_cleanup := cleanup_all clock;
  inj_quiet := λ st, _active st = [];
  inj_cleanup_ok := controller_cleanup_ok clock |}.

(** ** The harness

    A trial runner acts on the world [G] and calls [emit] with lifecycle events; what
    [emit] returns or raises is handed back to it. *)
Inductive Session (G : Type) :=
  | Finish (m : prog G mapping)
  | Emit (m : prog G LifecycleEvent) (k : result (list mapping) → Session G).
Arguments Finish {G}.
Arguments Emit {G}.

Record MultiLevelRunResult := {
  res_run_id : string;
  res_episode_id : string;
  res_agent_id : string;
  res_status : string;
  level_results : list mapping;
  progression_state : mapping }.

Definition run_result_as_dict (r : MultiLevelRunResult) : mapping :=
  [("schema_version", VStr "multi-level-run.v1"); ("run_id", VStr (res_run_id r));
   ("episode_id", VStr (res_episode_id r)); ("agent_id", VStr (res_agent_id r));
   ("status", VStr (res_status r)); ("level_results", VList (map VDict (level_results r)));
   ("progression_state", VDict (progression_state r))].

Record OrchestratorState (W G : Type) := {
  o_controller : ControllerState W;
  o_world : G }.
Arguments o_controller {W G}.
Arguments o_world {W G}.

Section orchestrator.
Context {W G I : Type} `{Hinj : LiveInjector G I} (utc_now : nat → string).
Context (controller : ControllerConfig W).
Context (trial_runner : TrialTicket → val → Session G).
Context (level_evaluator : TrialTicket → val → mapping → list mapping → prog G mapping).
Context (injector_factory : TrialTicket → val → prog G I).
Context (trial_preparer : option (TrialTicket → val → prog G mapping)).
Context (trial_finalizer : option (TrialTicket → val → mapping → prog G mapping)).

Abbreviation orch := (prog (OrchestratorState W G)).

Definition on_controller {A} (m : prog (ControllerState W) A) : orch A := λ s,
  let '(c, r) := m (o_controller s) in ({| o_controller := c; o_world := o_world s |}, r).
Definition on_outside {A} (m : prog G A) : orch A := λ s,
  let '(g, r) := m (o_world s) in ({| o_controller := o_controller s; o_world := g |}, r).

Definition prepare (ticket : TrialTicket) (level : val) : prog G mapping :=
  match trial_preparer with
  | Some f => catch (f ticket level)
                (λ exc, mret [("status", VStr "failed"); ("error", VStr (exn_msg exc))])
  | None => mret [("status", VStr "not_configured")]
  end.

(** The runner's calls, with [emit] bound to the injector and to [controller_records]. *)
Fixpoint run_session (injector : I) (t : Session G) (records : list mapping)
    : G → G * (list mapping * result mapping) := λ g,
  match t with
  | Finish m => let '(g1, r) := m g in (g1, (records, r))
  | Emit m k =>
      match m g with
      | (g1, Err e) => (g1, (records, Err e))
      | (g1, Ok event) =>
          match inj_event injector event g1 with
          | (g2, Ok rs) => run_session injector (k (Ok rs)) (records ++ rs) g2
          | (g2, Err e) => run_session injector (k (Err e)) records g2
          end
      end
  end.

(** The [try ... except ... finally] around the runner. *)
Definition run_attempt (injector : I) (ticket : TrialTicket) (level : val) (preparation : mapping)
    : prog G (mapping * list mapping) := λ g,
  let '(g1, (records, r)) := run_session injector (trial_runner ticket level) [] g in
  let trial_report := match r with
    | Ok report => dset "preparation" (VDict preparation) report
    | Err exc => [("status", VStr "failed"); ("error", VStr (exn_msg exc));
                  ("preparation", VDict preparation)]
    end in
  (cleanup ← inj_cleanup injector "trial_finished";
   mret (trial_report, records ++ cleanup)) g1.

Definition finalize (ticket : TrialTicket) (level : val) (trial_report : mapping) : prog G mapping :=
  match trial_finalizer with
  | None => mret trial_report
  | Some f =>
      finalization ← catch (f ticket level trial_report)
        (λ exc, mret [("status", VStr "failed"); ("error", VStr (exn_msg exc))]);
      mret (dset "finalization" (VDict finalization) trial_report)
  end.

(** Prepare, run, clean up and finalize one trial. *)
Definition execute_trial (ticket : TrialTicket) (level : val) : prog G (mapping * list mapping) :=
  preparation ← prepare ticket level;
  if is_str (vget preparation "status") "failed" then
    mret ([("status", VStr "preparation_failed");
           ("error", vget_or preparation "error" (VStr "trial preparation failed"));
           ("preparation", VDict preparation)], [])
  else
    injector ← injector_factory ticket level;
    rr ← run_attempt injector ticket level preparation;
    trial_report ← finalize ticket level rr.1;
    mret (trial_report, rr.2).

(** The checks on what the evaluator returned. *)
Definition check_result (ticket : TrialTicket) (res : mapping) : result unit :=
  mismatch ← (if negb (is_str (vget res "level_id") (level_id ticket)) then Ok true
              else n ← py_int (vget_or res "attempt" (VInt 0)); Ok (negb (n =? attempt ticket)));
  require (negb mismatch) ValueError
    "level evaluator result does not match the active trial ticket" ;;
  known ← in_str_set (vget res "primary_status") ["PASS"; "FAIL"; "SKIP"];
  require known ValueError "level evaluator must return primary_status PASS, FAIL, or SKIP".

Definition result_ref (ticket : TrialTicket) (res : mapping) : string :=
  py_str (py_or (vget res "result_ref")
                (VStr ("level-results/" +:+ trial_id ticket +:+ ".json"))).

(** One turn of the [while] loop. *)
Definition run_trial : orch mapping :=
  ticket ← on_controller (start_trial utc_now controller);
  level ← on_controller (current_level controller);
  level ← lift (opt_or_raise level AssertionError "");
  er ← on_outside (execute_trial ticket level);
  res ← on_outside (level_evaluator ticket level er.1 er.2);
  lift (check_result ticket res) ;;
  st ← lift (vitem res "primary_status");
  on_controller (record_result utc_now controller (trial_id ticket) (py_str st) (result_ref ticket res)
    (match vget res "failure_status" with VNone => None | v => Some (py_str v) end)) ;;
  mret res.

(** [None] when the fuel runs out. *)
Fixpoint run_loop (fuel : nat) (results : list mapping) : orch (option (list mapping)) :=
  st ← on_controller status;
  if bool_decide (st = ACTIVE) then
    match fuel with
    | O => mret None
    | S fuel' => res ← run_trial; run_loop fuel' (results ++ [res])
    end
  else mret (Some results).

Definition run (fuel : nat) : orch (option MultiLevelRunResult) :=
  results ← run_loop fuel [];
  match results with
  | None => mret None
  | Some results =>
      episode_id ← lift (vitem (cfg_episode controller) "episode_id");
      st ← on_controller status;
      state ← on_controller snapshot;
      mret (Some {| res_run_id := cfg_run_id controller; res_episode_id := py_str episode_id;
                    res_agent_id := cfg_agent_id controller; res_status := progress_value st;
                    level_results := results; progression_state := state |})
  end.

(** * Properties *)

Context (levels : list val) (bodies : list (list mapping * Z)) (eid : string).
Context (valid : episode_valid (cfg_episode controller) levels bodies).
Context (episode_id_ok : dget "episode_id" (cfg_episode controller) = Some (VStr eid)).

Abbreviation budgets := (map snd bodies).
Abbreviation cont := (continue_after_failure controller).
Abbreviation repr := (represents controller eid).
Abbreviation inv := (pg_inv budgets cont).

(** An evaluator's result that is the one recorded for a trial. *)
Definition result_matches (e : nat * Z * EpisodeProgressStatus) (res : mapping) : Prop :=
  vget res "level_id" = VStr (lname e.1.1) ∧
  py_int (vget_or res "attempt" (VInt 0)) = Ok e.1.2 ∧
  vget res "primary_status" = VStr (progress_value e.2).

Lemma check_result_Ok ticket res u : check_result ticket res = Ok u →
  vget res "level_id" = VStr (level_id ticket) ∧
  py_int (vget_or res "attempt" (VInt 0)) = Ok (attempt ticket) ∧
  ∃ r, r ≠ ACTIVE ∧ vget res "primary_status" = VStr (progress_value r).
Proof.
  unfold check_result. intros H.
  apply bind_Ok_inv in H as (m & Hm & H). apply bind_Ok_inv in H as (u1 & Hneg%require_Ok & H).
  apply bind_Ok_inv in H as (known & Hk & Hkn%require_Ok). subst known. bool_to_prop. subst m.
  destruct (is_str _ _) eqn:E; [|done]. apply is_str_true in E. cbn [negb] in Hm.
  apply bind_Ok_inv in Hm as (n & Hn & [= Heq]). bool_to_prop. subst n.
  unfold in_str_set in Hk. apply bind_Ok_inv in Hk as (u2 & _ & [= Hex]).
  split; [done|]. split; [done|].
  destruct (is_str _ "PASS") eqn:E1; [apply is_str_true in E1; by exists PASS|].
  destruct (is_str _ "FAIL") eqn:E2; [apply is_str_true in E2; by exists FAIL|].
  destruct (is_str _ "SKIP") eqn:E3; [apply is_str_true in E3; by exists SKIP|].
  cbn in Hex. by rewrite ?E1, ?E2, ?E3 in Hex.
Qed.

Lemma on_controller_Ok {A} (m : prog (ControllerState W) A) s s' a :
  on_controller m s = (s', Ok a) →
  m (o_controller s) = (o_controller s', Ok a).
Proof. unfold on_controller. destruct (m _) as [c r]. by intros [= <- ->]. Qed.

Lemma on_outside_Ok {A} (m : prog G A) s s' a :
  on_outside m s = (s', Ok a) → o_controller s' = o_controller s.
Proof. unfold on_outside. destruct (m _) as [c r]. by intros [= <- _]. Qed.

Lemma prog_bind_Ok {S A B} (m : prog S A) (f : A → prog S B) s s' b :
  (m ≫= f) s = (s', Ok b) → ∃ s1 a, m s = (s1, Ok a) ∧ f a s1 = (s', Ok b).
Proof. rewrite prog_bind_eq. destruct (m s) as [s1 [a|e]]; [by eexists _, _|done]. Qed.

Lemma lift_Ok {S A} (r : result A) (s s' : S) a : lift r s = (s', Ok a) → s' = s ∧ r = Ok a.
Proof. by intros [= <- ->]. Qed.

(** A turn of the loop that returns has started and recorded one trial of the machine. *)
Lemma run_trial_spec p s s' res : repr p (pc_state (o_controller s)) → inv p →
  run_trial s = (s', Ok res) →
  pg_status p = ACTIVE ∧ pg_open p = None ∧ ∃ r, r ≠ ACTIVE ∧
    repr (pg_record budgets cont r (pg_start p)) (pc_state (o_controller s')) ∧
    result_matches (pg_index p, used p + 1, r) res.
Proof.
  intros H Hinv Hrun. unfold run_trial in Hrun.
  apply prog_bind_Ok in Hrun as (s1 & ticket & Hs1%on_controller_Ok & Hrun).
  apply prog_bind_Ok in Hrun as (s2 & lv & Hs2%on_controller_Ok & Hrun).
  apply prog_bind_Ok in Hrun as (s3 & level & [-> Hlv]%lift_Ok & Hrun).
  apply prog_bind_Ok in Hrun as (s4 & er & Hs4%on_outside_Ok & Hrun).
  apply prog_bind_Ok in Hrun as (s5 & res' & Hs5%on_outside_Ok & Hrun).
  apply prog_bind_Ok in Hrun as (s6 & u & [-> Hcheck]%lift_Ok & Hrun).
  apply prog_bind_Ok in Hrun as (s7 & st & [-> Hst]%lift_Ok & Hrun).
  apply prog_bind_Ok in Hrun as (s8 & m & Hs8%on_controller_Ok & [= -> ->]).
  destruct (decide (pg_status p = ACTIVE)) as [Hact|Hact]; last first.
  { destruct (start_refused utc_now controller eid p _ H) as [msg E]; [by left|].
    by rewrite E in Hs1. }
  destruct (pg_open p) as [a|] eqn:Ho.
  { destruct (start_refused utc_now controller eid p _ H) as [msg E]; [by right; rewrite Ho|].
    by rewrite E in Hs1. }
  split; [done|]. split; [done|].
  destruct (start_refines utc_now controller levels bodies eid valid episode_id_ok p _ H Hinv Hact Ho)
    as (c1 & r1 & E & [Hc1 _] & Ht & _).
  rewrite E in Hs1. injection Hs1 as -> ->. specialize (Ht _ eq_refl) as ->.
  assert (inv (pg_start p)) as Hinv1 by (by apply start_inv).
  destruct (check_result_Ok _ _ _ Hcheck) as (Hlid & Hatt & r & Hr & Hps).
  assert (o_controller s2 = o_controller s1) as E2.
  { destruct (current_level_run controller levels bodies eid valid (pg_start p) (o_controller s1) Hc1)
      as (l & b & El & _); [done|apply Hinv1|]. rewrite El in Hs2. by injection Hs2. }
  rewrite Hs5, Hs4, E2 in Hs8.
  apply vitem_vget in Hps as Hps'; [|done]. rewrite Hps' in Hst. injection Hst as <-.
  cbn [py_str ticket_for trial_id] in Hs8.
  edestruct (record_open_refines utc_now controller levels bodies eid valid (pg_start p)
    (o_controller s1) (used p + 1) r) as (c' & rr & E' & [Hc' _] & _); try done.
  cbn [pg_index pg_start] in E'. rewrite E' in Hs8. injection Hs8 as -> _.
  exists r. split_and!; try done.
Qed.

(** What a turn does to the history and to the attempts. *)
Lemma turn_effect p r : pg_inv budgets cont p → pg_open p = None →
  pg_history (pg_record budgets cont r (pg_start p)) =
    pg_history p ++ [(pg_index p, used p + 1, r)] ∧
  zsum (pg_attempts (pg_record budgets cont r (pg_start p))) = zsum (pg_attempts p) + 1.
Proof.
  intros Hinv Ho. erewrite pg_record_eq by reflexivity. cbn [pg_index pg_start].
  destruct (next_stop _ _ _ _ _) as [i st]. cbn [recorded pg_history pg_attempts pg_start pg_index].
  split; [done|]. apply zsum_alter_succ. rewrite (pi_attempts _ _ _ Hinv). apply Hinv.
Qed.

Lemma turn_inv p r : inv p → pg_status p = ACTIVE → pg_open p = None → r ≠ ACTIVE →
  inv (pg_record budgets cont r (pg_start p)).
Proof.
  intros Hinv Hst Ho Hr. eapply record_inv; [by eapply budgets_pos| |reflexivity|done].
  by apply start_inv.
Qed.

Definition remaining (p : Progress) : Z := zsum budgets - zsum (pg_attempts p).

(** [before] is the history the run found, [results] the level results it has collected. *)
Lemma run_loop_spec fuel before since p s results :
  repr p (pc_state (o_controller s)) → inv p → pg_history p = before ++ since →
  Forall2 result_matches since results → remaining p < Z.of_nat fuel →
  match run_loop fuel results s with
  | (_, Ok None) => False
  | (s', Ok (Some out)) => ∃ q since', repr q (pc_state (o_controller s')) ∧ inv q ∧
      pg_status q ≠ ACTIVE ∧ pg_history q = before ++ since' ∧ Forall2 result_matches since' out
  | (_, Err _) => True
  end.
Proof.
  revert since p s results. induction fuel as [|fuel IH]; intros since p s results H Hinv Hh Hres Hfuel.
  { pose proof (attempts_within budgets cont p Hinv). unfold remaining in Hfuel. lia. }
  cbn [run_loop]. rewrite prog_bind_eq. unfold on_controller at 1.
  rewrite (status_run controller eid p _ H). destruct s as [c g]. cbn [o_controller o_world] in *.
  case_bool_decide as Hst; [|by exists p, since].
  rewrite prog_bind_eq. destruct (run_trial _) as [s1 [res|e]] eqn:Hrun; [|done].
  destruct (run_trial_spec p (Build_OrchestratorState _ _ c g) s1 res H Hinv Hrun) as (_ & Ho & r & Hr & H1 & Hm).
  destruct (turn_effect p r Hinv Ho) as [Hh' Hz].
  apply (IH (since ++ [(pg_index p, used p + 1, r)]) (pg_record budgets cont r (pg_start p)));
    [done|by apply turn_inv| | |].
  - by rewrite Hh', Hh, <- app_assoc.
  - by apply Forall2_app; [|constructor].
  - unfold remaining in *. rewrite Hz. lia.
Qed.

Lemma run_spec fuel p s : repr p (pc_state (o_controller s)) → inv p →
  zsum budgets < Z.of_nat fuel →
  match run fuel s with
  | (_, Ok None) => False
  | (s', Ok (Some result)) => ∃ q since, repr q (progression_state result) ∧ inv q ∧
      pg_status q ≠ ACTIVE ∧ res_status result = progress_value (pg_status q) ∧
      pg_history q = pg_history p ++ since ∧
      Forall2 result_matches since (level_results result)
  | (_, Err _) => True
  end.
Proof.
  intros H Hinv Hfuel. unfold run. rewrite prog_bind_eq.
  assert (0 <= zsum (pg_attempts p)) as Hpos.
  { pose proof (pi_count _ _ _ Hinv) as Hc. destruct (pg_open p); cbn in Hc; lia. }
  pose proof (run_loop_spec fuel (pg_history p) [] p s [] H Hinv) as Hl.
  rewrite app_nil_r in Hl. specialize (Hl eq_refl ltac:(constructor)).
  unfold remaining in Hl. specialize (Hl ltac:(lia)).
  destruct (run_loop fuel [] s) as [s' [[out|]|e]]; [|done|done].
  destruct Hl as (q & since & Hq & Hqi & Hqs & Hh & Hf).
  rewrite run_lift with (a := VStr eid) by (by apply vitem_Some).
  rewrite prog_bind_eq. unfold on_controller at 1. rewrite (status_run controller eid q _ Hq).
  rewrite prog_bind_eq. cbn. exists q, since. done.
Qed.

Abbreviation begun s := (reached utc_now controller (o_controller s)).

(** C10: Whatever state the progression controller had reached, fresh or resumed, with fuel
    beyond the sum of the attempt budgets the run loop always returns or raises; when it
    returns, the episode is decided and at most that many level results were collected. *)
Theorem run_terminates fuel s : begun s → zsum budgets < Z.of_nat fuel →
  match run fuel s with
  | (_, Ok (Some result)) => res_status result ∈ ["PASS"; "FAIL"; "SKIP"] ∧
      Z.of_nat (length (level_results result)) <= zsum budgets
  | (_, Ok None) => False
  | (_, Err _) => True
  end.
Proof.
  intros (p & Hinv & H & _)%(reached_inv utc_now controller levels bodies eid valid episode_id_ok) Hfuel.
  pose proof (run_spec fuel p s H Hinv Hfuel) as Hr.
  destruct (run fuel s) as [s' [[result|]|e]]; [|done|done].
  destruct Hr as (q & since & Hq & Hqi & Hst & -> & Hh & Hf). split.
  - rewrite !elem_of_cons. destruct (pg_status q); naive_solver.
  - rewrite <- (Forall2_length _ _ _ Hf). pose proof (pi_count _ _ _ Hqi) as Hc.
    rewrite Hh, length_app in Hc.
    pose proof (attempts_within budgets cont q Hqi). destruct (pg_open q); lia.
Qed.

(** C11: Whatever state the progression controller had reached, fresh or resumed, a run that
    ends with PASS has, for every level, a level result the evaluator marked PASS: collected
    in this run, or recorded as the result of a trial of that level in the history the run
    started from (a fresh episode has none). *)
Theorem run_pass_needs_evaluator fuel s s' result : begun s → zsum budgets < Z.of_nat fuel →
  run fuel s = (s', Ok (Some result)) → res_status result = "PASS" →
  ∀ i, (i < length levels)%nat →
    (∃ k, recorded_in (o_controller s) (tname controller i k) "PASS") ∨
    ∃ res, res ∈ level_results result ∧
      vget res "level_id" = VStr (lname i) ∧ vget res "primary_status" = VStr "PASS".
Proof.
  intros (p & Hinv & H & _)%(reached_inv utc_now controller levels bodies eid valid episode_id_ok)
    Hfuel Hrun Hpass i Hi.
  pose proof (run_spec fuel p s H Hinv Hfuel) as Hr. rewrite Hrun in Hr.
  destruct Hr as (q & since & Hq & Hqi & _ & Hst & Hh & Hf). rewrite Hpass in Hst.
  apply (progress_value_inj PASS) in Hst. symmetry in Hst.
  rewrite <- (length_bodies controller levels bodies valid), <- (length_map snd bodies) in Hi.
  pose proof (pi_pass _ _ _ Hqi Hst i Hi) as Hm.
  destruct (last_mark_pass (pg_history q) i) as [k Hk]; [symmetry; by apply (pi_last _ _ _ Hqi)|].
  rewrite Hh in Hk. apply elem_of_app in Hk as [Hk|Hk].
  - left. exists k. apply (recorded_in_iff controller eid _ p _ _ H). by exists (i, k, PASS).
  - right. apply list_elem_of_lookup in Hk as [n Hn].
    destruct (Forall2_lookup_l _ _ _ _ _ Hf Hn) as (res & Hres & Hl & _ & Hp).
    exists res. split_and!; [by eapply list_elem_of_lookup_2|done|done].
Qed.

(** An episode started afresh has no results from before. *)
Lemma fresh_unrecorded c trial st : ¬ recorded_in (init_controller utc_now controller false c).1 trial st.
Proof.
  destruct (init_refines utc_now controller levels bodies eid valid episode_id_ok c)
    as (s' & r & E & [Hs _] & _). rewrite E.
  rewrite (recorded_in_iff controller eid _ _ _ _ Hs). by intros (e & He%not_elem_of_nil & _).
Qed.

(** An attempt always returns a report, and the injector has no execution left to clean. *)
Theorem attempt_leaves_injector_quiet injector ticket level preparation g :
  ∃ g' report records, run_attempt injector ticket level preparation g = (g', Ok (report, records)) ∧
    inj_quiet g' ∧ vget report "preparation" = VDict preparation.
Proof.
  unfold run_attempt. destruct (run_session _ _ _ _) as [g1 [records r]].
  destruct (inj_cleanup_ok injector "trial_finished" g1) as (g2 & rs & E & Hq).
  rewrite prog_bind_eq, E. cbn. do 3 eexists. split; [done|]. split; [done|].
  destruct r; [apply vget_dset_eq|done].
Qed.
End orchestrator.

(** ** A run that passes both levels of the sample episode *)

Definition sample_injector : DisturbanceInjector unit := {|
  Injector.run_id := "RUN"; Injector.level_id := "L1"; Injector.attempt := 1; Injector.trial_id := "RUN-L1-a1"; specs := []; target := [];
  safety_gate := λ _, raise RuntimeError "no gate"; adapters := [] |}.

Definition sample_evaluator (ticket : TrialTicket) (level : val) (report : mapping)
    (records : list mapping) : prog (istate unit) mapping :=
  mret [("level_id", VStr (level_id ticket)); ("attempt", VInt (attempt ticket));
        ("primary_status", VStr "PASS")].

Definition sample_start : OrchestratorState unit (istate unit) := {|
  o_controller := (init_controller sample_clock sample_self false blank_state).1;
  o_world := initial_istate tt |}.

Definition sample_now (n : nat) : datetime := utc_of (Z.of_nat n).

Definition sample_runner (ticket : TrialTicket) (level : val) : Session (istate unit) :=
  Finish (mret [("status", VStr "completed")]).

Definition sample_factory (ticket : TrialTicket) (level : val)
    : prog (istate unit) (DisturbanceInjector unit) := mret sample_injector.

Definition sample_orchestration (fuel : nat) :=
  run (Hinj := controller_injector sample_now) sample_clock sample_self
    sample_runner sample_evaluator
    sample_factory None None fuel sample_start.

Lemma sample_begun : reached sample_clock sample_self (o_controller sample_start).
Proof. by apply reached_init. Qed.

Lemma sample_fuel : zsum (map snd sample_bodies) < Z.of_nat 4.
Proof. vm_compute. reflexivity. Qed.

Lemma run_terminates_witness :
  match sample_orchestration 4 with
  | (_, Ok (Some result)) => res_status result ∈ ["PASS"; "FAIL"; "SKIP"] ∧
      Z.of_nat (length (level_results result)) <= zsum (map snd sample_bodies)
  | (_, Ok None) => False
  | (_, Err _) => True
  end.
Proof.
  unfold sample_orchestration.
  exact (run_terminates (Hinj := controller_injector sample_now) sample_clock sample_self
    sample_runner sample_evaluator
    sample_factory None None sample_levels sample_bodies "EP-1" sample_valid eq_refl
    4 sample_start sample_begun sample_fuel).
Defined.

Definition outcome_status (o : result (option MultiLevelRunResult)) : string :=
  match o with Ok (Some result) => res_status result | _ => "" end.

Lemma sample_passes : outcome_status (sample_orchestration 4).2 = "PASS".
Proof. vm_compute. reflexivity. Qed.

Lemma run_pass_needs_evaluator_witness : ∃ s' result,
  sample_orchestration 4 = (s', Ok (Some result)) ∧
  ∃ res, res ∈ level_results result ∧ vget res "level_id" = VStr (lname 1) ∧
    vget res "primary_status" = VStr "PASS".
Proof.
  pose proof sample_passes as Hp. destruct (sample_orchestration 4) as [s' r] eqn:E.
  cbn [snd] in Hp. destruct r as [[result|]|e]; [|discriminate Hp..]. cbn [outcome_status] in Hp.
  exists s', result. split; [reflexivity|].
  destruct (run_pass_needs_evaluator (Hinj := controller_injector sample_now) sample_clock sample_self
    sample_runner sample_evaluator
    sample_factory None None sample_levels sample_bodies "EP-1" sample_valid eq_refl
    4 sample_start s' result sample_begun sample_fuel E Hp 1%nat) as [[k Hk]|Hres].
  - repeat constructor.
  - destruct (fresh_unrecorded sample_clock sample_self sample_levels sample_bodies "EP-1" sample_valid
      eq_refl blank_state _ _ Hk).
  - exact Hres.
Defined.
