(* ===== verification/Evaluator.v ===== *)
(** * The oracle-result evaluator ([evaluator/evaluator.py])

    Gates of a contract are judged on the evidence of an observation; the primary
    status is the worst verdict in a fixed priority order. The texts of the
    [TypeError]s CPython raises inside [sorted] and [join] are abbreviated. *)

From S2P Require Import Prelude PyFloat PyVal EpisodeBuilder Progression Orchestrator.

#[local] Open Scope Z_scope.

Definition PRIMARY_STATUS_PRIORITY : dict string Z :=
  [("FAIL_SAFETY", 0); ("CASE_INVALID", 1); ("FAIL_SELECTION", 2); ("FAIL_EXECUTION", 3);
   ("FAIL_ANALYSIS", 4); ("INCONCLUSIVE", 5); ("PASS", 6)].

Definition DEFAULT_FAILURE_STATUS : dict string string :=
  [("episode_validity", "CASE_INVALID"); ("safety", "FAIL_SAFETY");
   ("fault_effect", "FAIL_EXECUTION"); ("slo_violation", "FAIL_EXECUTION");
   ("causal_mechanism", "FAIL_ANALYSIS"); ("diagnosis", "FAIL_ANALYSIS");
   ("recovery", "FAIL_EXECUTION"); ("disturbance_response", "FAIL_ANALYSIS")].

(** ** Dictionaries and sets keyed by values *)

Definition vdict (A : Type) : Type := list (val * A).

Fixpoint vd_get {A} (k : val) (d : vdict A) : option A :=
  match d with
  | [] => None
  | (k', x) :: d' => if py_eq k' k then Some x else vd_get k d'
  end.

Fixpoint vd_set {A} (k : val) (x : A) (d : vdict A) : vdict A :=
  match d with
  | [] => [(k, x)]
  | (k', y) :: d' => if py_eq k' k then (k', x) :: d' else (k', y) :: vd_set k x d'
  end.

Definition in_vset (v : val) (s : list val) : bool := existsb (λ x, py_eq x v) s.

(** [set(values)]: every element must be hashable. *)
Definition py_set (values : list val) : result (list val) :=
  _ ← mapM hash_check values; Ok values.

(** ** Results *)

Record EvaluationResult := {
  primary_status : string;
  gate_statuses : vdict val;
  policy_errors : list string;
  missing_required_gates : list val }.

(** What one required gate contributes. *)
Record GateOutcome := {
  go_status : val;
  go_errors : list string;
  go_missing : bool;
  go_candidate : option val }.

Definition INCONCLUSIVE : val := VStr "INCONCLUSIVE".

Definition inconclusive (errors : list string) (missing : bool) : GateOutcome := {|
  go_status := INCONCLUSIVE; go_errors := errors; go_missing := missing;
  go_candidate := Some INCONCLUSIVE |}.

(** [sorted(kinds)] and [", ".join(...)] of a set of kinds. *)
Definition sorted_join (kinds : list val) : result string :=
  names ← opt_or_raise (mapM as_str kinds) TypeError "sequence item: expected str instance";
  Ok (str_join ", " (sort_by str_leb (dedup names))).

(** [sources] holds evidence: its kinds. *)
Definition source_kinds (sources : list val) : list val :=
  omap (λ source, match source with VDict d => Some (vget d "kind") | _ => None end) sources.

Definition source_has_ref (source : val) : bool :=
  match source with VDict d => truthy (vget d "ref") | _ => false end.

Definition failure_candidate (gate : val) : result val :=
  failure_status ← attr_get gate "failure_status";
  if truthy failure_status then Ok failure_status
  else category ← attr_get gate "category";
       hash_check category ;;
       Ok (match category with
           | VStr c => VStr (default "INCONCLUSIVE" (dget c DEFAULT_FAILURE_STATUS))
           | _ => INCONCLUSIVE
           end).

(** The status the evidence supports, once it is admissible. *)
Definition judge_status (gate : val) (observed : val) : result GateOutcome :=
  status ← attr_get_or observed "status" INCONCLUSIVE;
  candidate ←
    (if is_str status "PASS" then Ok None
     else if is_str status "CASE_INVALID" then Ok (Some (VStr "CASE_INVALID"))
     else if is_str status "FAIL" then Some <$> failure_candidate gate
     else Ok (Some INCONCLUSIVE));
  Ok {| go_status := status; go_errors := []; go_missing := false; go_candidate := candidate |}.

Definition judge_evidence (allowed_sources : list val) (gate gate_id observed : val)
    : result GateOutcome :=
  sources ← attr_get_or observed "evidence_sources" (VList []);
  match sources with
  | VList ((_ :: _) as sources) =>
      evidence_kinds ← py_set (source_kinds sources);
      let disallowed := List.filter (λ k, negb (in_vset k allowed_sources)) evidence_kinds in
      if empty disallowed then
        if forallb source_has_ref sources then judge_status gate observed
        else Ok (inconclusive [py_str gate_id +:+ " evidence has no stable reference"] false)
      else
        names ← sorted_join disallowed;
        Ok (inconclusive [py_str gate_id +:+
              " uses disallowed final evidence source(s): " +:+ names] false)
  | _ => Ok (inconclusive [py_str gate_id +:+ " has no independent evidence"] false)
  end.

(** One turn of the loop over the gates; [None] for a gate that is not required. *)
Definition judge_gate (allowed_sources : list val) (gate_results : vdict val) (gate : val)
    : result (option (val * GateOutcome)) :=
  gate_id ← val_item gate "gate_id";
  required ← attr_get_or gate "required" (VBool false);
  if negb (truthy required) then Ok None
  else
    hash_check gate_id ;;
    outcome ← match vd_get gate_id gate_results with
              | None => Ok (inconclusive [] true)
              | Some observed => judge_evidence allowed_sources gate gate_id observed
              end;
    Ok (Some (gate_id, outcome)).

Record EvalState := {
  es_candidates : list val;
  es_statuses : vdict val;
  es_errors : list string;
  es_missing : list val }.

Definition absorb (acc : EvalState) (verdict : option (val * GateOutcome)) : EvalState :=
  match verdict with
  | None => acc
  | Some (gate_id, o) =>
      {| es_candidates := es_candidates acc ++ match go_candidate o with Some c => [c] | None => [] end;
         es_statuses := vd_set gate_id (go_status o) (es_statuses acc);
         es_errors := es_errors acc ++ go_errors o;
         es_missing := es_missing acc ++ (if go_missing o then [gate_id] else []) |}
  end.

Definition judge_gates (allowed_sources : list val) (gate_results : vdict val) (gates : list val)
    : result EvalState :=
  foldM (λ acc gate, verdict ← judge_gate allowed_sources gate_results gate; Ok (absorb acc verdict))
    {| es_candidates := []; es_statuses := []; es_errors := []; es_missing := [] |} gates.

(** [PRIMARY_STATUS_PRIORITY\[status\]] *)
Definition priority (status : val) : result (string * Z) :=
  hash_check status ;;
  match status with
  | VStr s => p ← opt_or_raise (dget s PRIMARY_STATUS_PRIORITY) KeyError (repr_string s); Ok (s, p)
  | _ => raise KeyError (py_repr status)
  end.

(** [min(candidates, key=...)], or PASS when there is none. *)
Definition worst_status (candidates : list val) : result string :=
  ranked ← mapM priority candidates;
  Ok (match ranked with
      | [] => "PASS"
      | x :: rest => (min_by (λ a b, a.2 <? b.2) x rest).1
      end).

Definition allowed_kinds (contract : mapping) : result (list val) :=
  kinds ← attr_get_or (vget_or contract "evidence_policy" (VDict []))
            "allowed_final_source_kinds" (VList []);
  kinds ← py_list kinds;
  py_set kinds.

Definition index_results (items : list val) : result (vdict val) :=
  foldM (λ acc item, id ← val_item item "gate_id"; hash_check id ;; Ok (vd_set id item acc))
    [] items.

Definition evaluate (contract observation : mapping) : result EvaluationResult :=
  if negb (py_eq (vget contract "episode_id") (vget observation "episode_id")) then
    Ok {| primary_status := "CASE_INVALID"; gate_statuses := [];
          policy_errors := ["episode_id mismatch"]; missing_required_gates := [] |}
  else
    allowed_sources ← allowed_kinds contract;
    items ← py_list (vget_or observation "gate_results" (VList []));
    gate_results ← index_results items;
    gates ← py_list (vget_or contract "gates" (VList []));
    st ← judge_gates allowed_sources gate_results gates;
    primary ← worst_status (es_candidates st);
    Ok {| primary_status := primary; gate_statuses := es_statuses st;
          policy_errors := es_errors st; missing_required_gates := es_missing st |}.

(** ** The focused level contract *)

Definition gate_entry (id category failure_status description : string) : val :=
  VDict [("gate_id", VStr id); ("category", VStr category); ("required", VBool true);
         ("failure_status", VStr failure_status); ("description", VStr description)].

Definition core_gates : list val :=
  [gate_entry "precondition" "episode_validity" "CASE_INVALID"
     "Exact target Pod/UID exists and the registered baseline SLO is healthy.";
   gate_entry "fault_effect" "fault_effect" "FAIL_EXECUTION"
     "The main fault effect is independently observed on the intended target.";
   gate_entry "diagnosis" "diagnosis" "FAIL_ANALYSIS"
     "The diagnosis matches the evaluator-only causal truth.";
   gate_entry "recovery" "recovery" "FAIL_EXECUTION"
     "Target-side behavior returns to the qualified baseline after cleanup.";
   gate_entry "safety" "safety" "FAIL_SAFETY"
     "Namespace, exact target, concurrency, abort, and cleanup boundaries hold."].

Definition final_source_kinds : list string :=
  ["independent_observer"; "runtime_system"; "source_code"; "controller_record"; "human_review"].

Definition simplified_level_contract (episode_id : string) (include_disturbance_response : bool)
    : mapping :=
  [("schema_version", VStr "0.1"); ("episode_id", VStr episode_id);
   ("public_visibility", VStr "oracle_private");
   ("evidence_policy", VDict
      [("agent_self_report_allowed_as_final_evidence", VBool false);
       ("allowed_final_source_kinds", VList (map VStr final_source_kinds))]);
   ("gates", VList (core_gates ++
      (if include_disturbance_response
       then [gate_entry "disturbance_response" "disturbance_response" "FAIL_ANALYSIS"
               "Every expected adaptation is independently evidenced."]
       else [])))].

(** ** Disturbance responses *)

Record DisturbanceResponseEvaluation := {
  expected_behaviors : list string;
  observed_behaviors : list string;
  missing_behaviors : list string;
  response_policy_errors : list string;
  evidence_refs : list string;
  passed : bool }.

(** What one observed behaviour contributes: the id and its references, an error, or nothing. *)
Inductive Behaviour :=
  | Ignored
  | Rejected (error : string)
  | Evidenced (behavior_id : string) (refs : list string).

(** The kinds outside [allowed_sources], as strings. *)
Definition disallowed_kinds (allowed_sources : list val) (sources : list val) : result (list string) :=
  kinds ← py_set (source_kinds sources);
  Ok (map py_str (List.filter (λ k, negb (in_vset k allowed_sources)) kinds)).

Definition source_refs (sources : list val) : list string :=
  omap (λ source, match source with
                  | VDict d => if truthy (vget d "ref") then Some (py_str (vget d "ref")) else None
                  | _ => None
                  end) sources.

(** The evidence of a behaviour that is expected and reported as passed. *)
Definition judge_sources (behavior_id : string) (allowed_sources : list val) (sources : val)
    : result Behaviour :=
  match sources with
  | VList ((_ :: _) as sources) =>
      disallowed ← disallowed_kinds allowed_sources sources;
      if empty disallowed then
        let refs := source_refs sources in
        if empty refs then Ok (Rejected (behavior_id +:+ " evidence has no reference"))
        else Ok (Evidenced behavior_id refs)
      else Ok (Rejected (behavior_id +:+ " uses disallowed evidence source(s): " +:+
                         str_join ", " (sort_by str_leb (dedup disallowed))))
  | _ => Ok (Rejected (behavior_id +:+ " has no independent evidence"))
  end.

Definition judge_behaviour (expected : list string) (allowed_sources : list val) (item : val)
    : result Behaviour :=
  id ← attr_get item "behavior_id";
  let behavior_id := str_or_empty id in
  if negb (bool_decide (behavior_id ∈ expected)) then Ok Ignored
  else
    status ← attr_get item "status";
    if negb (is_str status "PASS") then Ok Ignored
    else
      sources ← attr_get_or item "evidence_sources" (VList []);
      judge_sources behavior_id allowed_sources sources.

Definition evidenced_id (b : Behaviour) : option string :=
  match b with Evidenced id _ => Some id | _ => None end.
Definition rejected_error (b : Behaviour) : option string :=
  match b with Rejected e => Some e | _ => None end.
Definition evidence_of (b : Behaviour) : list string :=
  match b with Evidenced _ refs => refs | _ => [] end.

Definition evaluate_disturbance_response (expected : list string) (observed allowed_sources : list val)
    : result DisturbanceResponseEvaluation :=
  let expected := dedup expected in
  verdicts ← mapM (judge_behaviour expected allowed_sources) observed;
  let observed_ids := dedup (omap evidenced_id verdicts) in
  let errors := omap rejected_error verdicts in
  let missing := List.filter (λ b, negb (bool_decide (b ∈ observed_ids))) expected in
  Ok {| expected_behaviors := expected; observed_behaviors := observed_ids;
        missing_behaviors := missing; response_policy_errors := errors;
        evidence_refs := dedup (concat (map evidence_of verdicts));
        passed := empty missing && empty errors |}.

(** ** One level *)

Definition level_gates (contract : mapping) : result (list val) :=
  gates ← py_list (vget_or contract "gates" (VList []));
  foldM (λ acc gate, category ← attr_get gate "category";
                     Ok (if is_str category "disturbance_response" then acc else acc ++ [gate]))
    [] gates.

Definition level_behaviors (level : mapping) : result (list string) :=
  disturbances ← py_list (vget_or level "disturbances" (VList []));
  foldM (λ acc disturbance,
           match disturbance with
           | VDict d => items ← py_list (vget_or d "expected_behaviors" (VList []));
                        Ok (acc ++ map py_str items)
           | _ => Ok acc
           end) [] disturbances.

Definition reliability_violations (items : list val) : result (list string) :=
  foldM (λ acc item, hit ← in_str_set item ["timeout"; "controller_forced_cleanup"];
                     Ok (if hit : bool then acc ++ [py_str item] else acc)) [] items.

(** [primary_status], [failure_status] and the first violations. *)
Definition level_verdict (base : string) (response_passed : bool) : string * val * list string :=
  if bool_decide (base = "CASE_INVALID") then
    ("SKIP", VStr "CASE_INVALID", ["episode_condition_invalid"])
  else if bool_decide (base = "PASS") && response_passed then ("PASS", VNone, [])
  else if bool_decide (base = "PASS") then ("FAIL", VStr "FAIL_ANALYSIS", [])
  else ("FAIL", VStr base, []).

Definition strs (l : list string) : val := VList (map VStr l).

Definition response_as_dict (r : DisturbanceResponseEvaluation) : mapping :=
  [("expected_behaviors", strs (expected_behaviors r));
   ("observed_behaviors", strs (observed_behaviors r));
   ("missing_behaviors", strs (missing_behaviors r));
   ("policy_errors", strs (response_policy_errors r));
   ("evidence_refs", strs (evidence_refs r)); ("passed", VBool (passed r))].

Definition gate_result_entry (kv : val * val) : val :=
  VDict [("gate_id", kv.1); ("status", kv.2)].

Definition evaluate_level (contract observation : mapping) (run_id : string) (level : mapping)
    (attempt : Z) (metrics : mapping) : result mapping :=
  gates ← level_gates contract;
  base ← evaluate (dset "gates" (VList gates) contract) observation;
  expected ← level_behaviors level;
  allowed_sources ← allowed_kinds contract;
  behaviors ← py_list (vget_or observation "disturbance_behaviors" (VList []));
  disturbance ← evaluate_disturbance_response (dedup expected) behaviors allowed_sources;
  let '(primary, failure_status, violations) :=
    level_verdict (primary_status base) (passed disturbance) in
  let violations :=
    if bool_decide (primary_status base = "FAIL_SAFETY") then violations ++ ["safety_gate_failed"]
    else violations in
  events ← py_list (vget_or observation "reliability_events" (VList []));
  more ← reliability_violations events;
  let violations := violations ++ more in
  let gate_results :=
    map gate_result_entry (gate_statuses base) ++
    (if empty expected then []
     else [VDict [("gate_id", VStr "disturbance_response");
                  ("status", VStr (if passed disturbance then "PASS" else "FAIL"))]]) in
  episode_id ← vitem contract "episode_id";
  level_id ← vitem level "level_id";
  Ok [("schema_version", VStr "level-result.v1"); ("run_id", VStr run_id);
      ("episode_id", VStr (py_str episode_id)); ("level_id", VStr (py_str level_id));
      ("attempt", VInt attempt); ("gate_results", VList gate_results);
      ("disturbance_response", VDict (response_as_dict disturbance));
      ("primary_status", VStr primary); ("failure_status", failure_status);
      ("policy_errors", strs (policy_errors base ++ response_policy_errors disturbance));
      ("missing_required_gates", VList (missing_required_gates base));
      ("violations", strs (dedup violations)); ("metrics", VDict metrics)].

(** * Properties *)

(** ** The verdict of one gate *)

(** The evidence of [observed] is admissible: a non-empty list of sources of allowed
    kinds, each with a reference. *)
Definition admissible (allowed_sources : list val) (observed : mapping) : Prop :=
  ∃ sources, vget observed "evidence_sources" = VList sources ∧ sources ≠ [] ∧
    ∀ source, source ∈ sources → ∃ d, source = VDict d ∧ truthy (vget d "ref") = true ∧
      in_vset (vget d "kind") allowed_sources = true.

(** The gate was observed to pass, on admissible evidence. *)
Definition gate_proved (allowed_sources : list val) (gate_results : vdict val) (gate_id : val) : Prop :=
  ∃ observed, vd_get gate_id gate_results = Some (VDict observed) ∧
    admissible allowed_sources observed ∧ vget observed "status" = VStr "PASS".

Definition required_gate (gate : val) (gate_id : val) : Prop :=
  ∃ d, gate = VDict d ∧ vitem d "gate_id" = Ok gate_id ∧ truthy (vget d "required") = true.

Lemma vget_or_vget d k x : vget d k ≠ VNone → vget_or d k x = vget d k.
Proof. unfold vget, vget_or. by destruct (dget k d). Qed.

Lemma vget_or_str d k s x : vget_or d k (VStr x) = VStr s → s ≠ x → vget d k = VStr s.
Proof. unfold vget, vget_or. destruct (dget k d); simpl; [done|]. by intros [= ->]. Qed.

Lemma attr_get_or_Ok v k x y : attr_get_or v k x = Ok y → ∃ d, v = VDict d ∧ y = vget_or d k x.
Proof. destruct v; try done. intros [= <-]. by eexists. Qed.

Lemma elem_of_source_kinds k sources :
  k ∈ source_kinds sources ↔ ∃ d, VDict d ∈ sources ∧ k = vget d "kind".
Proof.
  unfold source_kinds. rewrite list_elem_of_omap. split.
  - intros (source & Hin & Hs). destruct source as [| | | | | |d]; try done.
    injection Hs as <-. by exists d.
  - intros (d & Hin & ->). by exists (VDict d).
Qed.

Lemma filter_nil_iff {A} (p : A → bool) l : List.filter p l = [] ↔ ∀ x, x ∈ l → p x = false.
Proof.
  rewrite <- (count_zero p l). unfold count. split; [by intros ->|]. by destruct (List.filter p l).
Qed.

(** The first test of [judge_evidence] and the second one are [admissible]. *)
Lemma admissible_iff allowed_sources observed sources kinds :
  vget_or observed "evidence_sources" (VList []) = VList sources → sources ≠ [] →
  py_set (source_kinds sources) = Ok kinds →
  (empty (List.filter (λ k, negb (in_vset k allowed_sources)) kinds) = true ∧
   forallb source_has_ref sources = true) ↔ admissible allowed_sources observed.
Proof.
  intros Hs Hne Hk. apply bind_Ok_inv in Hk as (_ & _ & [= <-]).
  assert (vget observed "evidence_sources" = VList sources) as Hv.
  { unfold vget, vget_or in *. destruct (dget _ _); simpl in *; [done|congruence]. }
  rewrite empty_true, filter_nil_iff, forallb_True. split.
  - intros [Hkinds Hrefs]. exists sources. split; [done|]. split; [done|]. intros source Hin.
    pose proof (Hrefs _ Hin) as Hr. destruct source as [| | | | | |d]; try done. exists d.
    split; [done|]. split; [done|]. apply negb_false_iff, Hkinds, elem_of_source_kinds. by exists d.
  - intros (sources' & Hv' & _ & Hall). rewrite Hv in Hv'. injection Hv' as <-. split.
    + intros k (d & Hin & ->)%elem_of_source_kinds. apply Hall in Hin as (d' & [= <-] & _ & Hin).
      by rewrite Hin.
    + intros source Hin. by destruct (Hall _ Hin) as (d & -> & Hr & _).
Qed.

Lemma failure_candidate_ne gate c : failure_candidate gate = Ok c →
  (∀ d, gate = VDict d → vget d "failure_status" ≠ VStr "PASS") → c ≠ VStr "PASS".
Proof.
  unfold failure_candidate. intros H Hne.
  apply bind_Ok_inv in H as (fs & (d & -> & <-)%attr_get_Ok & H).
  destruct (truthy _); [injection H as <-; by apply Hne|].
  apply bind_Ok_inv in H as (cat & _ & H). apply bind_Ok_inv in H as (u & _ & [= <-]).
  destruct cat; try done. intros [= E]. by repeat case_decide.
Qed.

Lemma judge_status_spec gate observed o : judge_status gate (VDict observed) = Ok o →
  (∀ d, gate = VDict d → vget d "failure_status" ≠ VStr "PASS") →
  match go_candidate o with
  | None => vget observed "status" = VStr "PASS"
  | Some c => c ≠ VStr "PASS" ∧ vget observed "status" ≠ VStr "PASS"
  end.
Proof.
  unfold judge_status. intros H Hne. apply bind_Ok_inv in H as (st & [= <-] & H).
  apply bind_Ok_inv in H as (c & Hc & [= <-]). cbn [go_candidate].
  set (st := vget_or observed "status" INCONCLUSIVE) in *.
  destruct (is_str st "PASS") eqn:E.
  { apply is_str_true in E. injection Hc as <-. by apply (vget_or_str _ _ _ "INCONCLUSIVE"). }
  assert (vget observed "status" ≠ VStr "PASS") as Hst.
  { intros F. apply is_str_false in E. apply E. unfold st. rewrite vget_or_vget; by rewrite F. }
  destruct (is_str st "CASE_INVALID"); [by injection Hc as <-|].
  destruct (is_str st "FAIL"); [|by injection Hc as <-].
  destruct (failure_candidate gate) as [c'|] eqn:Ec; [|done]. injection Hc as <-.
  split; [by eapply failure_candidate_ne|done].
Qed.

Lemma judge_evidence_spec allowed gate gate_id observed o :
  judge_evidence allowed gate gate_id (VDict observed) = Ok o →
  (∀ d, gate = VDict d → vget d "failure_status" ≠ VStr "PASS") →
  (go_candidate o = None ↔ admissible allowed observed ∧ vget observed "status" = VStr "PASS") ∧
  go_candidate o ≠ Some (VStr "PASS").
Proof.
  unfold judge_evidence. intros H Hne. apply bind_Ok_inv in H as (src & [= <-] & H).
  assert (∀ m, o = inconclusive m false → ¬ admissible allowed observed →
    (go_candidate o = None ↔ admissible allowed observed ∧ vget observed "status" = VStr "PASS") ∧
    go_candidate o ≠ Some (VStr "PASS")) as Hinc by (intros m -> Hn; split; [split; [done|tauto]|done]).
  assert (∀ sources, vget observed "evidence_sources" = VList sources →
    vget_or observed "evidence_sources" (VList []) = VList sources) as Hor.
  { intros sources E. rewrite vget_or_vget; by rewrite E. }
  destruct (vget_or observed "evidence_sources" (VList [])) as [| | | | |[|s0 sources]|] eqn:Es.
  1-5,6,8: injection H as <-; eapply Hinc; [done|];
    intros (ss & E & Hss & _); specialize (Hor _ E); try discriminate Hor; by injection Hor as <-.
  clear Hor. apply bind_Ok_inv in H as (kinds & Hk & H).
  pose proof (admissible_iff allowed observed (s0 :: sources) kinds Es ltac:(done) Hk) as Hadm.
  destruct (empty _).
  - destruct (forallb _ _).
    + pose proof (judge_status_spec _ _ _ H Hne) as Hj. destruct Hadm as [Ha _].
      specialize (Ha ltac:(done)). destruct (go_candidate o) as [c|]; [|by split].
      destruct Hj as [Hc Hs]. split; [split; [done|tauto]|congruence].
    + injection H as <-. eapply Hinc; [done|]. intros [_ ?]%Hadm. done.
  - apply bind_Ok_inv in H as (names & _ & [= <-]). eapply Hinc; [done|]. intros [? _]%Hadm. done.
Qed.

(** Every entry of the index is a dictionary. *)
Definition dict_results (gate_results : vdict val) : Prop :=
  ∀ k v, vd_get k gate_results = Some v → ∃ d, v = VDict d.

Lemma vd_get_set {A} k k' (x : A) d y : vd_get k (vd_set k' x d) = Some y → y = x ∨ vd_get k d = Some y.
Proof.
  induction d as [|[k1 x1] d IH]; simpl.
  - destruct (py_eq k' k); [intros [= <-]; auto|done].
  - destruct (py_eq k1 k'); simpl; destruct (py_eq k1 k); auto. intros [= <-]; auto.
Qed.

Lemma index_results_dict items gate_results :
  index_results items = Ok gate_results → dict_results gate_results.
Proof.
  unfold index_results. apply foldM_inv; [|by intros ? ? [=]].
  intros acc item acc' _ Hacc H. apply bind_Ok_inv in H as (id & Hid & H).
  apply bind_Ok_inv in H as (u & _ & [= <-]). intros k v [->|Hv]%vd_get_set; [|by eapply Hacc].
  destruct item; try done. by eexists.
Qed.

(** A gate the contract requires is judged; one it does not require is skipped. *)
Lemma judge_gate_spec allowed gate_results gate v :
  judge_gate allowed gate_results gate = Ok v → dict_results gate_results →
  (∀ d, gate = VDict d → vget d "failure_status" ≠ VStr "PASS") →
  match v with
  | None => ∀ id, ¬ required_gate gate id
  | Some (id, o) => required_gate gate id ∧
      (go_candidate o = None ↔ gate_proved allowed gate_results id) ∧
      go_candidate o ≠ Some (VStr "PASS")
  end.
Proof.
  unfold judge_gate, required_gate. intros H Hd Hne.
  apply bind_Ok_inv in H as (id & Hid & H).
  apply bind_Ok_inv in H as (req & (d & -> & ->)%attr_get_or_Ok & H).
  assert (truthy (vget_or d "required" (VBool false)) = truthy (vget d "required")) as Er.
  { unfold vget_or, vget. by destruct (dget _ d). }
  rewrite Er in H. destruct (truthy (vget d "required")) eqn:Hreq; cbn [negb] in H.
  - apply bind_Ok_inv in H as (u & _ & H). apply bind_Ok_inv in H as (o & Ho & [= <-]).
    split; [by exists d|]. unfold gate_proved.
    destruct (vd_get id gate_results) as [observed|] eqn:Ev.
    + destruct (Hd _ _ Ev) as [m ->]. apply judge_evidence_spec in Ho as [Hc Hp]; [|done].
      split; [|done]. rewrite Hc. naive_solver.
    + injection Ho as <-. split; [|done]. split; [done|]. by intros (? & ? & _).
  - injection H as <-. intros id' (d' & [= <-] & _ & ?). congruence.
Qed.

(** ** The loop and the minimum *)

Definition candidate_of (v : option (val * GateOutcome)) : option val :=
  match v with Some (_, o) => go_candidate o | None => None end.

Lemma judge_gates_Ok allowed gate_results gates st :
  judge_gates allowed gate_results gates = Ok st →
  ∃ vs, mapM (judge_gate allowed gate_results) gates = Ok vs ∧
        es_candidates st = omap candidate_of vs.
Proof.
  unfold judge_gates. intros H.
  enough (∀ acc, foldM (λ acc gate, verdict ← judge_gate allowed gate_results gate; Ok (absorb acc verdict))
            acc gates = Ok st → ∃ vs, Forall2 (λ g v, judge_gate allowed gate_results g = Ok v) gates vs ∧
            es_candidates st = es_candidates acc ++ omap candidate_of vs) as E.
  { apply E in H as (vs & Hvs & Hc). exists vs. by rewrite mapM_Ok. }
  clear H. induction gates as [|g gates IH]; intros acc H; cbn [foldM] in H.
  - injection H as <-. exists []. by rewrite app_nil_r.
  - apply bind_Ok_inv in H as (acc1 & H1 & H). apply bind_Ok_inv in H1 as (v & Hv & [= <-]).
    apply IH in H as (vs & Hvs & Hc). exists (v :: vs). split; [by constructor|].
    rewrite Hc. destruct v as [[id o]|]; cbn; [|done]. rewrite <- app_assoc. by destruct (go_candidate o).
Qed.

Lemma priority_Ok c s p : priority c = Ok (s, p) ↔ c = VStr s ∧ dget s PRIMARY_STATUS_PRIORITY = Some p.
Proof.
  unfold priority. destruct c; try (split; [done|by intros [? _]]); try (cbn; split; [done|by intros [? _]]).
  change (hash_check (VStr s0)) with (Ok (A:=unit) tt). rewrite bind_ok. rewrite bind_Ok_iff.
  setoid_rewrite opt_or_raise_Ok. naive_solver.
Qed.

Lemma worst_status_Ok candidates s : worst_status candidates = Ok s →
  (candidates = [] ∧ s = "PASS") ∨
  (VStr s ∈ candidates ∧ ∃ p, dget s PRIMARY_STATUS_PRIORITY = Some p ∧
     ∀ c, c ∈ candidates → ∃ t q, c = VStr t ∧ dget t PRIMARY_STATUS_PRIORITY = Some q ∧ p <= q).
Proof.
  unfold worst_status. intros H. apply bind_Ok_inv in H as (ranked & Hr%mapM_Ok & [= <-]).
  destruct ranked as [|x rest]; [left; by inversion Hr|]. right.
  pose proof (min_by_elem (λ a b : string * Z, a.2 <? b.2) x rest) as Hin.
  pose proof (λ y, min_by_le snd x rest y) as Hle. cbn beta in Hle.
  set (m := min_by _ x rest) in *. destruct m as [t p] eqn:Em. cbn [fst snd] in *.
  split.
  - apply list_elem_of_lookup in Hin as [i Hi].
    destruct (Forall2_lookup_r _ _ _ _ _ Hr Hi) as (c & Hc & [-> _]%priority_Ok).
    by eapply list_elem_of_lookup_2.
  - exists p. apply list_elem_of_lookup in Hin as [i Hi].
    destruct (Forall2_lookup_r _ _ _ _ _ Hr Hi) as (c & Hc & [-> Hp]%priority_Ok).
    split; [done|]. intros c' Hc'. apply list_elem_of_lookup in Hc' as [j Hj].
    destruct (Forall2_lookup_l _ _ _ _ _ Hr Hj) as ([t' q] & Hq & [-> Hq']%priority_Ok).
    exists t', q. split; [done|]. split; [done|]. apply (Hle (t', q)). by eapply list_elem_of_lookup_2.
Qed.

(** What [evaluate] computes from the documents it reads. *)
Lemma evaluate_Ok contract observation r : evaluate contract observation = Ok r →
  py_eq (vget contract "episode_id") (vget observation "episode_id") = false ∧
    primary_status r = "CASE_INVALID" ∨
  py_eq (vget contract "episode_id") (vget observation "episode_id") = true ∧
  ∃ allowed items gate_results gates vs,
    allowed_kinds contract = Ok allowed ∧
    py_list (vget_or observation "gate_results" (VList [])) = Ok items ∧
    index_results items = Ok gate_results ∧
    py_list (vget_or contract "gates" (VList [])) = Ok gates ∧
    mapM (judge_gate allowed gate_results) gates = Ok vs ∧
    worst_status (omap candidate_of vs) = Ok (primary_status r).
Proof.
  unfold evaluate. destruct (py_eq _ _); cbn [negb]; intros H; [right|left; by injection H as <-].
  split; [done|].
  apply bind_Ok_inv in H as (allowed & Ha & H). apply bind_Ok_inv in H as (items & Hi & H).
  apply bind_Ok_inv in H as (gr & Hgr & H). apply bind_Ok_inv in H as (gates & Hg & H).
  apply bind_Ok_inv in H as (st & Hst & H). apply bind_Ok_inv in H as (p & Hp & [= <-]).
  apply judge_gates_Ok in Hst as (vs & Hvs & Hc). rewrite Hc in Hp.
  by exists allowed, items, gr, gates, vs.
Qed.

(** No gate of the contract maps a failure to PASS. *)
Definition no_pass_on_failure (contract : mapping) : Prop :=
  ∀ gates d, py_list (vget_or contract "gates" (VList [])) = Ok gates → VDict d ∈ gates →
    vget d "failure_status" ≠ VStr "PASS".

(** No candidate is left exactly when every required gate is proved. *)
Lemma no_candidate_iff allowed gr gates vs :
  mapM (judge_gate allowed gr) gates = Ok vs → dict_results gr →
  (∀ d, VDict d ∈ gates → vget d "failure_status" ≠ VStr "PASS") →
  (omap candidate_of vs = [] ↔
   ∀ gate id, gate ∈ gates → required_gate gate id → gate_proved allowed gr id) ∧
  VStr "PASS" ∉ omap candidate_of vs.
Proof.
  intros Hvs%mapM_Ok Hd. induction Hvs as [|gate v gates vs Hj _ IH]; intros Hne.
  { split; [split; [by intros _ ?? ?%not_elem_of_nil|done]|apply not_elem_of_nil]. }
  destruct IH as [IH IHp]; [intros d Hin; apply Hne; by apply list_elem_of_further|].
  apply judge_gate_spec in Hj; [|done|intros d ->; apply Hne, list_elem_of_here].
  setoid_rewrite elem_of_cons. cbn [omap list_omap]. destruct v as [[id o]|]; cbn [candidate_of].
  - destruct Hj as (Hreq & Hc & Hp). destruct (go_candidate o) as [c|].
    + split; [|rewrite not_elem_of_cons; split; [congruence|done]]. split; [done|]. intros Hall.
      destruct Hc as [_ Hc]. discriminate Hc. by apply (Hall gate); [left|].
    + split; [|done]. rewrite IH. split; [|naive_solver].
      intros Hall g i [->|Hin] Hr; [|by eapply Hall].
      destruct Hreq as (d & -> & E & _), Hr as (d' & [= <-] & E' & _).
      assert (i = id) as -> by congruence. by apply Hc.
  - split; [|done]. rewrite IH. split; [|naive_solver].
    intros Hall g i [->|Hin] Hr; [by destruct (Hj i)|by eapply Hall].
Qed.

(** C8: For a contract whose gates do not name PASS as their failure status, the evaluator
    answers PASS exactly when the episode ids agree and every required gate has a PASS
    observation whose evidence sources are all allowed and referenced. *)
Theorem evaluate_pass_iff contract observation r :
  evaluate contract observation = Ok r → no_pass_on_failure contract →
  primary_status r = "PASS" ↔
  py_eq (vget contract "episode_id") (vget observation "episode_id") = true ∧
  ∃ allowed items gate_results gates,
    allowed_kinds contract = Ok allowed ∧
    py_list (vget_or observation "gate_results" (VList [])) = Ok items ∧
    index_results items = Ok gate_results ∧
    py_list (vget_or contract "gates" (VList [])) = Ok gates ∧
    ∀ gate id, gate ∈ gates → required_gate gate id → gate_proved allowed gate_results id.
Proof.
  intros [[-> ->]|(Heq & allowed & items & gr & gates & vs & Ha & Hi & Hgr & Hg & Hvs & Hw)]%evaluate_Ok Hne.
  { split; [done|]. by intros [? _]. }
  destruct (no_candidate_iff _ _ _ _ Hvs (index_results_dict _ _ Hgr)) as [Hnil Hnp].
  { intros d Hin. by eapply Hne. }
  apply worst_status_Ok in Hw. split.
  - intros Hpass. split; [done|]. exists allowed, items, gr, gates. do 4 (split; [done|]).
    apply Hnil. destruct Hw as [[? _]|[Hin _]]; [done|]. rewrite Hpass in Hin. done.
  - intros [_ (allowed' & items' & gr' & gates' & Ha' & Hi' & Hgr' & Hg' & Hall)].
    rewrite Ha in Ha'. rewrite Hi in Hi'. rewrite Hg in Hg'.
    injection Ha' as <-; injection Hi' as <-; injection Hg' as <-.
    rewrite Hgr in Hgr'. injection Hgr' as <-. apply Hnil in Hall.
    destruct Hw as [[_ ?]|[Hin _]]; [done|]. rewrite Hall in Hin. by apply not_elem_of_nil in Hin.
Qed.

(** The primary status is one of the candidate verdicts and none of them has a higher priority. *)
Theorem primary_status_is_worst contract observation r :
  evaluate contract observation = Ok r →
  py_eq (vget contract "episode_id") (vget observation "episode_id") = true →
  ∃ allowed items gate_results gates verdicts,
    allowed_kinds contract = Ok allowed ∧
    py_list (vget_or observation "gate_results" (VList [])) = Ok items ∧
    index_results items = Ok gate_results ∧
    py_list (vget_or contract "gates" (VList [])) = Ok gates ∧
    mapM (judge_gate allowed gate_results) gates = Ok verdicts ∧
    (omap candidate_of verdicts = [] → primary_status r = "PASS") ∧
    (∀ c, c ∈ omap candidate_of verdicts →
       VStr (primary_status r) ∈ omap candidate_of verdicts ∧
       ∃ p t q, dget (primary_status r) PRIMARY_STATUS_PRIORITY = Some p ∧
                c = VStr t ∧ dget t PRIMARY_STATUS_PRIORITY = Some q ∧ p <= q).
Proof.
  intros [[? _]|(_ & allowed & items & gr & gates & vs & Ha & Hi & Hgr & Hg & Hvs & Hw)]%evaluate_Ok Heq;
    [congruence|].
  exists allowed, items, gr, gates, vs. do 5 (split; [done|]).
  apply worst_status_Ok in Hw as [[-> ->]|(Hin & p & Hp & Hle)].
  - split; [done|]. by intros c ?%not_elem_of_nil.
  - split.
    + intros E. rewrite E in Hin. by apply not_elem_of_nil in Hin.
    + intros c Hc. split; [done|]. destruct (Hle c Hc) as (t & q & ? & ? & ?). by exists p, t, q.
Qed.

(** ** Disturbance responses *)

(** The item is independent evidence, with these references, of a behaviour. *)
Definition evidences (expected : list string) (allowed_sources : list val) (item : val)
    (b : string) (refs : list string) : Prop :=
  ∃ d sources, item = VDict d ∧ str_or_empty (vget d "behavior_id") = b ∧ b ∈ expected ∧
    vget d "status" = VStr "PASS" ∧ vget d "evidence_sources" = VList sources ∧
    (∀ m, VDict m ∈ sources → in_vset (vget m "kind") allowed_sources = true) ∧
    refs = source_refs sources ∧ refs ≠ [].

Lemma disallowed_kinds_nil allowed sources dis : disallowed_kinds allowed sources = Ok dis →
  dis = [] ↔ ∀ m, VDict m ∈ sources → in_vset (vget m "kind") allowed = true.
Proof.
  intros (kinds & (u & _ & [= <-])%bind_Ok_inv & [= <-])%bind_Ok_inv. split.
  - intros E%map_eq_nil m Hm. apply negb_false_iff. rewrite filter_nil_iff in E.
    apply E, elem_of_source_kinds. by exists m.
  - intros Hall. rewrite (proj2 (filter_nil_iff _ _)); [done|].
    intros k (m & Hm & ->)%elem_of_source_kinds. by rewrite Hall.
Qed.

Lemma judge_sources_spec bid allowed src v : judge_sources bid allowed src = Ok v →
  ∀ b refs, v = Evidenced b refs ↔ b = bid ∧ ∃ sources, src = VList sources ∧
    (∀ m, VDict m ∈ sources → in_vset (vget m "kind") allowed = true) ∧
    refs = source_refs sources ∧ refs ≠ [].
Proof.
  intros H b refs. destruct src as [| | | | |[|s0 sources]|]; cbn [judge_sources] in H;
    try (injection H as <-; split; [done|]; by intros (_ & ss & [= <-] & _ & -> & ?)).
  apply bind_Ok_inv in H as (dis & Hdis%disallowed_kinds_nil & H).
  destruct dis as [|k dis]; cbn [empty] in H.
  - destruct Hdis as [Hall _]. specialize (Hall eq_refl).
    destruct (source_refs (s0 :: sources)) as [|r0 rs] eqn:Er; cbn [empty] in H; injection H as <-.
    + split; [done|]. intros (_ & ss & [= <-] & _ & -> & Hr). by rewrite Er in Hr.
    + split.
      * intros [= <- <-]. split; [done|]. by exists (s0 :: sources).
      * intros (-> & ss & [= <-] & _ & -> & _). by rewrite Er.
  - injection H as <-. split; [done|]. intros (_ & ss & [= <-] & Hall & _). by apply Hdis in Hall.
Qed.

Lemma judge_behaviour_spec expected allowed item v :
  judge_behaviour expected allowed item = Ok v →
  ∀ b refs, v = Evidenced b refs ↔ evidences expected allowed item b refs.
Proof.
  unfold judge_behaviour, evidences. intros H b refs.
  apply bind_Ok_inv in H as (id & (d & -> & <-)%attr_get_Ok & H).
  destruct (bool_decide_reflect (str_or_empty (vget d "behavior_id") ∈ expected)) as [Hin|Hin];
    cbn [negb] in H; [|injection H as <-; naive_solver].
  apply bind_Ok_inv in H as (st & [= <-] & H).
  destruct (is_str (vget d "status") "PASS") eqn:Est; cbn [negb] in H;
    [apply is_str_true in Est|apply is_str_false in Est; injection H as <-; naive_solver].
  apply bind_Ok_inv in H as (src & [= <-] & H). rewrite (judge_sources_spec _ _ _ _ H). split.
  - intros (-> & ss & E & Hall & -> & Hr). exists d, ss. split_and!; try done.
    unfold vget, vget_or in *. destruct (dget "evidence_sources" d); simpl in *; [done|].
    injection E as <-. done.
  - intros (d' & ss & [= <-] & <- & _ & _ & E & Hall & -> & Hr). split; [done|]. exists ss.
    split_and!; try done. rewrite vget_or_vget; by rewrite E.
Qed.

(** The observed behaviours are exactly the expected ones with a PASS item whose sources are
    allowed and referenced; the missing ones, the evidence and the verdict follow from them. *)
Theorem disturbance_response_exact expected observed allowed r :
  evaluate_disturbance_response expected observed allowed = Ok r →
  (∀ b, b ∈ observed_behaviors r ↔
     ∃ item refs, item ∈ observed ∧ evidences (dedup expected) allowed item b refs) ∧
  (∀ b, b ∈ missing_behaviors r ↔ b ∈ expected ∧ b ∉ observed_behaviors r) ∧
  (∀ ref, ref ∈ evidence_refs r ↔
     ∃ item b refs, item ∈ observed ∧ evidences (dedup expected) allowed item b refs ∧ ref ∈ refs) ∧
  (passed r = true ↔ response_policy_errors r = [] ∧
     ∀ b, b ∈ expected → ∃ item refs, item ∈ observed ∧ evidences (dedup expected) allowed item b refs).
Proof.
  unfold evaluate_disturbance_response.
  intros (vs & Hvs%mapM_Ok & [= <-])%bind_Ok_inv. cbn -[dedup].
  assert (∀ b refs, Evidenced b refs ∈ vs ↔
    ∃ item, item ∈ observed ∧ evidences (dedup expected) allowed item b refs) as Hev.
  { intros b refs. split.
    - intros [i Hi]%list_elem_of_lookup. destruct (Forall2_lookup_r _ _ _ _ _ Hvs Hi) as (item & Hit & Hj).
      exists item. split; [by eapply list_elem_of_lookup_2|]. by apply (judge_behaviour_spec _ _ _ _ Hj).
    - intros (item & [i Hi]%list_elem_of_lookup & He).
      destruct (Forall2_lookup_l _ _ _ _ _ Hvs Hi) as (v & Hv & Hj).
      apply (judge_behaviour_spec _ _ _ _ Hj) in He as ->. by eapply list_elem_of_lookup_2. }
  assert (∀ b, b ∈ dedup (omap evidenced_id vs) ↔
    ∃ item refs, item ∈ observed ∧ evidences (dedup expected) allowed item b refs) as Hobs.
  { intros b. rewrite elem_of_dedup, list_elem_of_omap. split.
    - intros ([| |b' refs] & Hv & [= ->]). apply Hev in Hv as (item & ? & ?). by exists item, refs.
    - intros (item & refs & H1 & H2). exists (Evidenced b refs). split; [apply Hev; by exists item|done]. }
  assert (∀ b, b ∈ List.filter (λ b, negb (bool_decide (b ∈ dedup (omap evidenced_id vs)))) (dedup expected) ↔
    b ∈ expected ∧ b ∉ dedup (omap evidenced_id vs)) as Hmiss.
  { intros b. rewrite list_elem_of_In, filter_In, <- list_elem_of_In, elem_of_dedup, negb_true_iff.
    by rewrite bool_decide_eq_false. }
  split; [done|]. split; [done|]. split.
  - intros ref. rewrite elem_of_dedup, list_elem_of_concat_map. split.
    + intros ([| |b refs] & Hv & Hr); try by apply not_elem_of_nil in Hr.
      apply Hev in Hv as (item & ? & ?). by exists item, b, refs.
    + intros (item & b & refs & H1 & H2 & H3). exists (Evidenced b refs). split; [apply Hev; by exists item|done].
  - rewrite andb_true_iff, !empty_true. setoid_rewrite <- Hobs. split.
    + intros [Hm He]. split; [done|]. intros b Hb. apply dec_stable. intros Hn.
      apply (not_elem_of_nil b). rewrite <- Hm. apply Hmiss. exact (conj Hb Hn).
    + intros [He Hall]. split; [|done]. apply filter_nil_iff. intros b Hb. rewrite elem_of_dedup in Hb.
      apply negb_false_iff, bool_decide_eq_true. by apply Hall.
Qed.

(** ** The level result *)

Lemma level_verdict_spec base ok p f v : level_verdict base ok = (p, f, v) →
  (p = "PASS" ↔ base = "PASS" ∧ ok = true) ∧ (p = "SKIP" ↔ base = "CASE_INVALID") ∧
  p ∈ ["PASS"; "FAIL"; "SKIP"] ∧ (f = VNone ↔ p = "PASS").
Proof.
  unfold level_verdict. rewrite !elem_of_cons. intros H.
  destruct (bool_decide_reflect (base = "CASE_INVALID")) as [->|H1];
    [injection H as <- <- <-; naive_solver|].
  destruct (bool_decide_reflect (base = "PASS")) as [->|H2]; destruct ok; cbn [andb] in H;
    injection H as <- <- <-; naive_solver.
Qed.

(** The parts of a level result. *)
Lemma evaluate_level_Ok contract observation run level attempt metrics res :
  evaluate_level contract observation run level attempt metrics = Ok res →
  ∃ gates base expected behaviors allowed resp p f v vs errors,
    level_gates contract = Ok gates ∧
    evaluate (dset "gates" (VList gates) contract) observation = Ok base ∧
    level_behaviors level = Ok expected ∧ allowed_kinds contract = Ok allowed ∧
    py_list (vget_or observation "disturbance_behaviors" (VList [])) = Ok behaviors ∧
    evaluate_disturbance_response (dedup expected) behaviors allowed = Ok resp ∧
    level_verdict (primary_status base) (passed resp) = (p, f, v) ∧
    vget res "primary_status" = VStr p ∧ vget res "failure_status" = f ∧
    vget res "attempt" = VInt attempt ∧
    (∃ id, vitem level "level_id" = Ok id ∧ vget res "level_id" = VStr (py_str id)) ∧
    vget res "policy_errors" = strs errors ∧
    vget res "violations" = strs (dedup (v ++
      (if bool_decide (primary_status base = "FAIL_SAFETY") then ["safety_gate_failed"] else []) ++ vs)).
Proof.
  unfold evaluate_level. intros H.
  apply bind_Ok_inv in H as (gates & Hg & H). apply bind_Ok_inv in H as (base & Hb & H).
  apply bind_Ok_inv in H as (expected & He & H). apply bind_Ok_inv in H as (allowed & Ha & H).
  apply bind_Ok_inv in H as (behaviors & Hbe & H). apply bind_Ok_inv in H as (resp & Hr & H).
  destruct (level_verdict (primary_status base) (passed resp)) as [[p f] v] eqn:Hv.
  apply bind_Ok_inv in H as (events & _ & H). apply bind_Ok_inv in H as (vs & _ & H).
  apply bind_Ok_inv in H as (eid & _ & H). apply bind_Ok_inv in H as (lid & Hl & H).
  injection H as <-.
  exists gates, base, expected, behaviors, allowed, resp, p, f, v, vs. eexists.
  do 10 (split; [done|]). split; [by exists lid|]. split; [done|].
  cbn -[dedup]. do 3 f_equal. destruct (bool_decide _); [by rewrite <- app_assoc|done].
Qed.

(** A level passes exactly when the base gates pass and every expected behaviour is evidenced,
    is skipped exactly when the case is invalid, names a failure unless it passed, and
    reports the violation of a failed safety gate. *)
Theorem evaluate_level_sound contract observation run level attempt metrics res :
  evaluate_level contract observation run level attempt metrics = Ok res →
  ∃ gates base expected behaviors allowed resp p,
    level_gates contract = Ok gates ∧
    evaluate (dset "gates" (VList gates) contract) observation = Ok base ∧
    level_behaviors level = Ok expected ∧ allowed_kinds contract = Ok allowed ∧
    py_list (vget_or observation "disturbance_behaviors" (VList [])) = Ok behaviors ∧
    evaluate_disturbance_response (dedup expected) behaviors allowed = Ok resp ∧
    vget res "primary_status" = VStr p ∧ p ∈ ["PASS"; "FAIL"; "SKIP"] ∧
    (p = "PASS" ↔ primary_status base = "PASS" ∧ passed resp = true) ∧
    (p = "SKIP" ↔ primary_status base = "CASE_INVALID") ∧
    (vget res "failure_status" = VNone ↔ p = "PASS") ∧
    (primary_status base = "FAIL_SAFETY" → ∃ violations,
       vget res "violations" = strs violations ∧ "safety_gate_failed" ∈ violations).
Proof.
  intros (gates & base & expected & behaviors & allowed & resp & p & f & v & vs & errors & Hg & Hb & He & Ha &
    Hbe & Hr & Hv & Hp & Hf & _ & _ & _ & Hviol)%evaluate_level_Ok.
  destruct (level_verdict_spec _ _ _ _ _ Hv) as (H1 & H2 & H3 & H4).
  exists gates, base, expected, behaviors, allowed, resp, p. do 6 (split; [done|]).
  do 4 (split; [done|]). split; [by rewrite Hf|].
  intros Hs. eexists. split; [exact Hviol|]. rewrite elem_of_dedup, (bool_decide_true _ Hs), !elem_of_app.
  right. left. apply list_elem_of_here.
Qed.

(** The result the evaluator returns for a ticket's level and attempt passes the orchestrator's
    check of that ticket. *)
Theorem level_result_accepted ticket contract observation run level metrics res :
  evaluate_level contract observation run level (attempt ticket) metrics = Ok res →
  vget level "level_id" = VStr (level_id ticket) →
  check_result ticket res = Ok tt.
Proof.
  intros (gates & base & expected & behaviors & allowed & resp & p & f & v & vs & errors & _ & _ & _ & _ &
    _ & _ & Hv & Hp & _ & Ha & (id & Hid & Hl) & _ & _)%evaluate_level_Ok Hlevel.
  destruct (level_verdict_spec _ _ _ _ _ Hv) as (_ & _ & Hin & _).
  assert (id = VStr (level_id ticket)) as ->.
  { unfold vitem in Hid. unfold vget in Hlevel. destruct (dget "level_id" level); [|done].
    cbn in *. congruence. }
  unfold check_result. rewrite Hl. cbn [py_str]. rewrite is_str_refl. cbn [negb].
  assert (vget_or res "attempt" (VInt 0) = VInt (attempt ticket)) as ->.
  { rewrite vget_or_vget; by rewrite Ha. }
  cbn [py_int]. rewrite bind_ok, Z.eqb_refl. cbn [negb]. rewrite bind_ok, require_true, bind_ok, Hp.
  unfold in_str_set. change (hash_check (VStr p)) with (Ok (A:=unit) tt). rewrite !bind_ok.
  apply require_Ok, existsb_True. exists p. split; [done|apply is_str_refl].
Qed.

(** ** A level that passes *)

Definition sample_source : val := VDict [("kind", VStr "runtime_system"); ("ref", VStr "log:1")].

Definition sample_gate_result (id : string) : val :=
  VDict [("gate_id", VStr id); ("status", VStr "PASS"); ("evidence_sources", VList [sample_source])].

Definition sample_observation : mapping :=
  [("episode_id", VStr "EP-1");
   ("gate_results", VList (map sample_gate_result
      ["precondition"; "fault_effect"; "diagnosis"; "recovery"; "safety"]));
   ("disturbance_behaviors", VList [VDict [("behavior_id", VStr "retries"); ("status", VStr "PASS");
      ("evidence_sources", VList [sample_source])]])].

Definition sample_contract : mapping := simplified_level_contract "EP-1" true.

Definition sample_level_doc : mapping :=
  [("level_id", VStr "L2");
   ("disturbances", VList [VDict [("expected_behaviors", VList [VStr "retries"])]])].

Definition sample_ticket : TrialTicket := {|
  trial_id := "RUN-L2-a1"; run_id := "RUN"; episode_id := "EP-1"; level_id := "L2"; attempt := 1 |}.

Definition is_case {A} (r : result A) (p : A → bool) : bool := match r with Ok a => p a | Err _ => false end.

Lemma is_case_Ok {A} (r : result A) p : is_case r p = true → ∃ a, r = Ok a ∧ p a = true.
Proof. destruct r; [by eexists|done]. Qed.

Lemma evaluate_pass_iff_witness : ∃ r gates,
  evaluate (simplified_level_contract "EP-1" false) sample_observation = Ok r ∧
  py_list (vget_or (simplified_level_contract "EP-1" false) "gates" (VList [])) = Ok gates ∧
  ∀ gate id, gate ∈ gates → required_gate gate id → ∃ allowed gate_results, gate_proved allowed gate_results id.
Proof.
  destruct (is_case_Ok (evaluate (simplified_level_contract "EP-1" false) sample_observation)
              (λ r, bool_decide (primary_status r = "PASS"))) as (r & Hr & Hp); [by vm_compute|].
  apply bool_decide_eq_true in Hp. exists r, core_gates. split; [exact Hr|]. split; [reflexivity|].
  apply (evaluate_pass_iff _ _ _ Hr) in Hp as (_ & allowed & items & gr & gates & _ & _ & _ & Hg & Hall).
  - injection Hg as <-. intros gate id Hin Hreq. exists allowed, gr. by apply (Hall gate).
  - intros gates d [= <-] Hin. unfold core_gates in Hin. rewrite !elem_of_cons, elem_of_nil in Hin.
    destruct Hin as [[= ->]|[[= ->]|[[= ->]|[[= ->]|[[= ->]|[]]]]]]; done.
Defined.

Lemma primary_status_is_worst_witness : ∃ r, evaluate sample_contract sample_observation = Ok r ∧
  primary_status r = "INCONCLUSIVE".
Proof.
  destruct (is_case_Ok (evaluate sample_contract sample_observation)
              (λ r, bool_decide (primary_status r = "INCONCLUSIVE"))) as (r & Hr & Hp); [by vm_compute|].
  destruct (primary_status_is_worst _ _ _ Hr eq_refl) as (_ & _ & _ & _ & verdicts & _ & _ & _ & _ & _ & _ & _).
  exists r. split; [exact Hr|]. by apply bool_decide_eq_true in Hp.
Defined.

Lemma disturbance_response_exact_witness : ∃ observed r,
  evaluate_disturbance_response ["retries"] observed (map VStr final_source_kinds) = Ok r ∧
  passed r = true ∧ ∃ item refs, item ∈ observed ∧
    evidences ["retries"] (map VStr final_source_kinds) item "retries" refs.
Proof.
  set (observed := [VDict [("behavior_id", VStr "retries"); ("status", VStr "PASS");
                           ("evidence_sources", VList [sample_source])]]).
  destruct (is_case_Ok (evaluate_disturbance_response ["retries"] observed (map VStr final_source_kinds))
              passed) as (r & Hr & Hp); [by vm_compute|].
  exists observed, r. split; [exact Hr|]. split; [exact Hp|].
  destruct (disturbance_response_exact _ _ _ _ Hr) as (_ & _ & _ & H).
  apply H in Hp as [_ Hall]. apply (Hall "retries"), list_elem_of_here.
Defined.

Lemma evaluate_level_sound_witness : ∃ res p,
  evaluate_level sample_contract sample_observation "RUN" sample_level_doc 1 [] = Ok res ∧
  vget res "primary_status" = VStr p ∧ p ∈ ["PASS"; "FAIL"; "SKIP"].
Proof.
  destruct (is_case_Ok (evaluate_level sample_contract sample_observation "RUN" sample_level_doc 1 [])
              (λ _, true)) as (res & Hr & _); [by vm_compute|].
  destruct (evaluate_level_sound _ _ _ _ _ _ _ Hr)
    as (gates & base & expected & behaviors & allowed & resp & p & _ & _ & _ & _ & _ & _ & Hp & Hin & _).
  exists res, p. split; [exact Hr|]. split; [exact Hp|exact Hin].
Defined.

Lemma level_result_accepted_witness : ∃ res,
  evaluate_level sample_contract sample_observation "RUN" sample_level_doc 1 [] = Ok res ∧
  check_result sample_ticket res = Ok tt.
Proof.
  destruct (is_case_Ok (evaluate_level sample_contract sample_observation "RUN" sample_level_doc 1 [])
              (λ _, true)) as (res & Hr & _); [by vm_compute|].
  exists res. split; [exact Hr|].
  exact (level_result_accepted sample_ticket _ _ _ _ _ _ Hr eq_refl).
Defined.
