(* ===== verification/FleetGuard.v ===== *)
(** * Namespace guards of the Fleet ([fleet_service/guard.py])

    Which namespaces the Fleet may operate on or destroy. The two regular
    expressions are matched by a boolean function each; [re.escape(prefix)] is the
    prefix itself. *)

From S2P Require Import Prelude PyFloat PyVal.

#[local] Open Scope Z_scope.

Definition FleetGuardError : exn_kind := OtherError "FleetGuardError".

Definition PROTECTED_NAMESPACES : list string :=
  ["default"; "kube-system"; "kube-public"; "kube-node-lease"; "observability"; "coroot";
   "chaos-mesh"; "chaos-testing"; "openebs"; "sregym"; "ischaos"; "otel-demo"; "train-ticket";
   "sock-shop"; "resiliencebenchmark-system"; "resilience-benchmark-system"].

(** [^\[a-z0-9\](\[a-z0-9-\]{0,n}\[a-z0-9\])?$] *)
Definition name_char (c : ascii) : bool := is_lower_alnum c || bool_decide (c = "-"%char).

Definition name_match (n : nat) (l : list ascii) : bool :=
  match l with
  | [] => false
  | c :: rest =>
      is_lower_alnum c &&
      match rev rest with
      | [] => true
      | e :: middle => is_lower_alnum e && forallb name_char middle && (length middle <=? n)%nat
      end
  end.

Definition NAMESPACE_RE (s : string) : bool := name_match 61 (chars s).
Definition PREFIX_RE (s : string) : bool := name_match 40 (chars s).

(** An [int] that is not a [bool], between 1 and 999. *)
Definition valid_index (index : val) : option Z :=
  match index with VInt i => if (1 <=? i) && (i <=? 999) then Some i else None | _ => None end.

Definition slot_id (index : val) : result string :=
  i ← opt_or_raise (valid_index index) FleetGuardError "slot index must be between 1 and 999";
  Ok ("s" +:+ str_02d i).

Definition assert_prefix (prefix : val) : result string :=
  let message := "namespace prefix is not a valid name: " +:+ py_repr prefix in
  p ← opt_or_raise (as_str prefix) FleetGuardError message;
  require (PREFIX_RE p) FleetGuardError message ;;
  Ok p.

Definition replica_namespace (prefix index : val) : result string :=
  p ← assert_prefix prefix;
  i ← opt_or_raise (valid_index index) FleetGuardError "replica index must be between 1 and 999";
  Ok (p +:+ "-" +:+ str_02d i).

(** The [index] group of [<prefix>-(?P<index>\[0-9\]{1,3})]. *)
Definition index_group (prefix ns : list ascii) : option (list ascii) :=
  let digits := drop (length prefix + 1) ns in
  if is_prefix (prefix ++ ["-"%char]) ns && forallb is_digit digits
     && (1 <=? length digits)%nat && (length digits <=? 3)%nat
  then Some digits else None.

Definition replica_index (prefix namespace : val) : result (option Z) :=
  p ← assert_prefix prefix;
  match namespace with
  | VStr ns =>
      match index_group (chars p) (chars ns) with
      | None => Ok None
      | Some digits =>
          let index := digits_value digits in
          Ok (if (1 <=? index) && (index <=? 999) then Some index else None)
      end
  | _ => Ok None
  end.

Definition assert_operable_namespace (prefix namespace : val) : result string :=
  protected ← in_str_set namespace PROTECTED_NAMESPACES;
  require (negb protected) FleetGuardError
    ("refusing to operate on protected namespace " +:+ py_str namespace) ;;
  let invalid := "not a valid Kubernetes namespace: " +:+ py_repr namespace in
  ns ← opt_or_raise (as_str namespace) FleetGuardError invalid;
  require (NAMESPACE_RE ns) FleetGuardError invalid ;;
  index ← replica_index prefix namespace;
  require (bool_decide (is_Some index)) FleetGuardError
    ("namespace " +:+ ns +:+ " is not a numbered replica of prefix " +:+ py_str prefix
     +:+ "; the Fleet only operates on its own replicas") ;;
  Ok ns.

Definition assert_confirmed (namespace : string) (confirm : option string) : result string :=
  require (bool_decide (confirm = Some namespace)) FleetGuardError
    ("destructive operations require confirm=<namespace>; expected " +:+ repr_string namespace) ;;
  Ok namespace.

Definition assert_destroyable (prefix namespace : val) (confirm : option string) : result string :=
  ns ← assert_operable_namespace prefix namespace;
  assert_confirmed ns confirm.

(** * Properties *)

(** [numbered p ns i]: [ns] is [p], a dash and one to three digits that spell [i]. *)
Definition numbered (p ns : string) (i : Z) : Prop :=
  ∃ digits, chars ns = chars p ++ "-"%char :: digits ∧ Forall (λ c, is_digit c = true) digits ∧
    (1 <= length digits <= 3)%nat ∧ digits_value digits = i ∧ 1 <= i <= 999.

Lemma is_prefix_iff {A} `{EqDecision A} (p l : list A) : is_prefix p l = true ↔ ∃ k, l = p ++ k.
Proof.
  revert l. induction p as [|x p IH]; intros [|y l]; cbn.
  - split; [by exists []|done].
  - split; [by eexists|done].
  - split; [done|by intros [k ?]].
  - rewrite andb_true_iff, bool_decide_eq_true, IH. split.
    + intros [-> [k ->]]. by exists k.
    + intros [k [= -> ->]]. split; [done|by exists k].
Qed.

Lemma index_group_iff p ns digits : index_group p ns = Some digits ↔
  ns = p ++ "-"%char :: digits ∧ Forall (λ c, is_digit c = true) digits ∧
  (1 <= length digits <= 3)%nat.
Proof.
  unfold index_group.
  assert (∀ k, drop (length p + 1) ((p ++ ["-"%char]) ++ k) = k) as Hdrop.
  { intros k. replace (length p + 1)%nat with (length (p ++ ["-"%char])) by (by rewrite length_app).
    apply drop_app_length. }
  split.
  - destruct (_ && _) eqn:E; [|done]. intros [= <-].
    rewrite !andb_true_iff, is_prefix_iff, !Nat.leb_le in E. destruct E as [[[[k ->] Hd] H1] H3].
    rewrite Hdrop in *. rewrite forallb_True in Hd. split_and!; [by rewrite <- app_assoc| |done..].
    by apply Forall_forall.
  - intros (-> & Hd & H1 & H3). replace (p ++ "-"%char :: digits) with ((p ++ ["-"%char]) ++ digits)
      by (by rewrite <- app_assoc).
    rewrite Hdrop. rewrite Forall_forall in Hd.
    rewrite (proj2 (is_prefix_iff _ _)) by (by eexists).
    rewrite (proj2 (forallb_True _ _)) by done.
    rewrite !(proj2 (Nat.leb_le _ _)) by done. done.
Qed.

Lemma assert_prefix_Ok p s : assert_prefix p = Ok s ↔ p = VStr s ∧ PREFIX_RE s = true.
Proof.
  unfold assert_prefix. rewrite bind_Ok_iff. setoid_rewrite bind_Ok_iff.
  setoid_rewrite opt_or_raise_Ok. setoid_rewrite require_Ok. split.
  - intros (a & Ha & u & Hr & [= ->]). by destruct p; simplify_eq/=.
  - intros [-> Hr]. exists s. split; [done|]. by exists tt.
Qed.

Lemma replica_index_iff p ns i : replica_index p (VStr ns) = Ok (Some i) ↔
  ∃ s, p = VStr s ∧ PREFIX_RE s = true ∧ numbered s ns i.
Proof.
  unfold replica_index. rewrite bind_Ok_iff. setoid_rewrite assert_prefix_Ok. split.
  - intros (s & [-> Hs] & H). exists s. split_and!; [done..|].
    destruct (index_group _ _) as [d|] eqn:E; [|done]. apply index_group_iff in E as (H1 & H2 & H3).
    destruct (_ && _) eqn:Er; [|done]. injection H as <-. apply andb_true_iff in Er as [Er1 Er2].
    bool_to_prop. by exists d.
  - intros (s & -> & Hs & d & H1 & H2 & H3 & <- & Hr). exists s. split; [done|].
    rewrite (proj2 (index_group_iff _ _ d)) by done.
    by rewrite !(proj2 (Z.leb_le _ _)) by lia.
Qed.

Lemma operable_iff prefix namespace ns :
  assert_operable_namespace prefix (VStr namespace) = Ok ns ↔
  ns = namespace ∧ namespace ∉ PROTECTED_NAMESPACES ∧ NAMESPACE_RE namespace = true ∧
  ∃ p i, prefix = VStr p ∧ PREFIX_RE p = true ∧ numbered p namespace i.
Proof.
  unfold assert_operable_namespace, in_str_set, hash_check.
  cbn [hashable]. rewrite require_true, !bind_ok.
  assert (existsb (is_str (VStr namespace)) PROTECTED_NAMESPACES = true ↔ namespace ∈ PROTECTED_NAMESPACES) as Hp.
  { rewrite existsb_True. setoid_rewrite is_str_true. split; [by intros (x & Hx & [= ->])|].
    intros H. by exists namespace. }
  split.
  - intros (u & Hprot%require_Ok%negb_true_iff & H)%bind_Ok_inv.
    apply bind_Ok_inv in H as (n & [= <-] & H). apply bind_Ok_inv in H as (u1 & Hre%require_Ok & H).
    apply bind_Ok_inv in H as (i & Hi & H). apply bind_Ok_inv in H as (u2 & Hs%require_Ok & [= <-]).
    apply bool_decide_eq_true in Hs as [i' ->]. apply replica_index_iff in Hi as (s & -> & Hs & Hn).
    split_and!; [done| |done|].
    + intros Hin. apply Hp in Hin. congruence.
    + by exists s, i'.
  - intros (-> & Hprot & Hre & p & i & -> & Hpre & Hn).
    destruct (existsb _ _); [by destruct Hprot; apply Hp|]. cbn [negb as_str opt_or_raise].
    rewrite require_true, !bind_ok, Hre, require_true, bind_ok.
    rewrite (proj2 (replica_index_iff (VStr p) namespace i)) by (by exists p).
    rewrite bind_ok, (bool_decide_true (is_Some (Some i))) by (by eexists). done.
Qed.

(** A namespace may be destroyed exactly when it is an unprotected, well-formed replica
    namespace of the prefix, numbered 1 to 999, and the confirmation repeats its name. *)
Theorem destroyable_exact prefix namespace confirm ns :
  assert_destroyable prefix (VStr namespace) confirm = Ok ns ↔
  ns = namespace ∧ confirm = Some namespace ∧
  namespace ∉ PROTECTED_NAMESPACES ∧ NAMESPACE_RE namespace = true ∧
  ∃ p i, prefix = VStr p ∧ PREFIX_RE p = true ∧ numbered p namespace i.
Proof.
  unfold assert_destroyable, assert_confirmed. rewrite bind_Ok_iff. setoid_rewrite operable_iff. split.
  - intros (a & (-> & Hop) & (u & Hc%require_Ok%bool_decide_eq_true & [= <-])%bind_Ok_inv). done.
  - intros (-> & -> & Hop). exists namespace. split; [done|]. by rewrite bool_decide_true.
Qed.

(** The two digits or three that [slot_id] and [replica_namespace] print. *)
Definition index_text_ok (i : Z) : bool :=
  let d := chars (str_02d i) in
  forallb is_digit d && (1 <=? length d)%nat && (length d <=? 3)%nat && (digits_value d =? i).

Lemma index_texts_ok : forallb index_text_ok (seqZ 1 999) = true.
Proof. vm_compute. reflexivity. Qed.

Lemma index_text i : 1 <= i <= 999 →
  Forall (λ c, is_digit c = true) (chars (str_02d i)) ∧ (1 <= length (chars (str_02d i)) <= 3)%nat ∧
  digits_value (chars (str_02d i)) = i.
Proof.
  intros Hi. pose proof index_texts_ok as H. rewrite forallb_True in H.
  specialize (H i ltac:(apply elem_of_seqZ; lia)). unfold index_text_ok in H.
  rewrite !andb_true_iff, !Nat.leb_le, forallb_True in H. destruct H as [[[H1 H2] H3] H4].
  bool_to_prop. split_and!; [by apply Forall_forall|done..].
Qed.

Lemma digit_name_char c : is_digit c = true → is_lower_alnum c = true.
Proof. unfold is_lower_alnum. intros ->. by rewrite orb_true_r. Qed.

Lemma name_match_all n l : name_match n l = true →
  Forall (λ c, name_char c = true) l ∧ (1 <= length l <= n + 2)%nat ∧
  ∃ c r, l = c :: r ∧ is_lower_alnum c = true.
Proof.
  destruct l as [|c rest]; [done|]. cbn. rewrite andb_true_iff. intros [Hc H].
  destruct (rev rest) as [|e middle] eqn:E.
  - apply (f_equal (@rev ascii)) in E. rewrite rev_involutive in E. subst rest.
    cbn. split_and!; [repeat constructor|lia|lia|by exists c, []]. unfold name_char. by rewrite Hc.
  - apply (f_equal (@rev ascii)) in E. rewrite rev_involutive in E. cbn in E. subst rest.
    rewrite !andb_true_iff, Nat.leb_le, forallb_True in H. destruct H as [[He Hm] Hn].
    rewrite length_app, length_rev. cbn. split_and!; [|lia|lia|by eexists _, _].
    apply Forall_cons. split; [unfold name_char; by rewrite Hc|]. apply Forall_app. split.
    + apply Forall_forall. intros x Hx. apply Hm. rewrite list_elem_of_In in *. by apply in_rev.
    + repeat constructor. unfold name_char. by rewrite He.
Qed.

Lemma name_match_intro n c middle e :
  is_lower_alnum c = true → is_lower_alnum e = true →
  Forall (λ c, name_char c = true) middle → (length middle <= n)%nat →
  name_match n (c :: middle ++ [e]) = true.
Proof.
  intros Hc He Hm Hn. cbn. rewrite Hc, rev_app_distr. cbn. rewrite He, length_rev.
  rewrite (proj2 (forallb_True _ _)), (proj2 (Nat.leb_le _ _)); [done|done|].
  rewrite Forall_forall in Hm. intros x Hx. apply Hm. rewrite list_elem_of_In in *. by apply in_rev.
Qed.

(** No protected namespace ends with a dash and digits. *)
Definition dash_digits (s : string) : bool :=
  let r := rev (chars s) in
  let tail := drop_while is_digit r in
  match tail with c :: _ => bool_decide (c = "-"%char) && (length tail <? length r)%nat | [] => false end.

Lemma protected_not_numbered p ns i : numbered p ns i → ns ∉ PROTECTED_NAMESPACES.
Proof.
  intros (d & Hns & Hd & Hlen & _) Hin.
  assert (dash_digits ns = true) as H.
  { unfold dash_digits. rewrite Hns, rev_app_distr. cbn. rewrite <- app_assoc.
    assert (∀ l k : list ascii, Forall (λ c, is_digit c = true) l →
      drop_while is_digit (l ++ "-"%char :: k) = "-"%char :: k) as Hdw.
    { intros l k. induction 1 as [|c l Hc _ IH]; [done|]. cbn. by rewrite Hc. }
    cbn. rewrite Hdw.
    - rewrite bool_decide_true by done. cbn [andb]. apply Nat.ltb_lt.
      rewrite length_app, length_rev. cbn. lia.
    - apply Forall_forall. rewrite Forall_forall in Hd. intros x Hx. apply Hd.
      rewrite list_elem_of_In in *. by apply in_rev. }
  revert H. assert (forallb (λ s, negb (dash_digits s)) PROTECTED_NAMESPACES = true) as Hall by done.
  rewrite forallb_True in Hall. specialize (Hall _ Hin). apply negb_true_iff in Hall. congruence.
Qed.

(** The namespace of replica i is operable, its index reads back as i, and no other index gives
    the same name. *)
Theorem replica_namespace_operable prefix i :
  PREFIX_RE prefix = true → 1 <= i <= 999 →
  ∃ ns, replica_namespace (VStr prefix) (VInt i) = Ok ns ∧
    assert_operable_namespace (VStr prefix) (VStr ns) = Ok ns ∧
    replica_index (VStr prefix) (VStr ns) = Ok (Some i) ∧
    (∀ j, 1 <= j <= 999 → replica_namespace (VStr prefix) (VInt j) = Ok ns → j = i).
Proof.
  intros Hp Hi. set (ns := prefix +:+ "-" +:+ str_02d i).
  assert (∀ j, 1 <= j <= 999 → replica_namespace (VStr prefix) (VInt j) = Ok (prefix +:+ "-" +:+ str_02d j)) as Hrn.
  { intros j Hj. unfold replica_namespace. rewrite (proj2 (assert_prefix_Ok _ prefix)) by done.
    rewrite bind_ok. unfold valid_index. by rewrite !(proj2 (Z.leb_le _ _)) by lia. }
  assert (∀ j, 1 <= j <= 999 → numbered prefix (prefix +:+ "-" +:+ str_02d j) j) as Hnum.
  { intros j Hj. destruct (index_text j Hj) as (Hd & Hlen & Hv). exists (chars (str_02d j)).
    rewrite !chars_app. split_and!; [done|done|lia..]. }
  assert (NAMESPACE_RE ns = true) as Hre.
  { unfold NAMESPACE_RE, ns. rewrite !chars_app. destruct (index_text i Hi) as (Hd & Hlen & _).
    destruct (name_match_all _ _ Hp) as (Hall & Hl & c & r & Ec & Hc).
    revert Hd Hlen. generalize (chars (str_02d i)). intros l.
    destruct l as [|x d _] using rev_ind; intros Hd Hlen; [cbn in Hlen; lia|].
    apply Forall_app in Hd as [Hd Hx]. apply Forall_inv in Hx. rewrite length_app in Hlen. cbn in Hlen.
    rewrite Ec in *. apply Forall_cons in Hall as [_ Hall]. cbn [length] in Hl.
    change (chars "-") with ["-"%char].
    replace ((c :: r) ++ ["-"%char] ++ d ++ [x]) with (c :: (r ++ ["-"%char] ++ d) ++ [x])
      by (cbn; by rewrite <- !app_assoc).
    apply name_match_intro; [done|by apply digit_name_char| |rewrite !length_app; cbn; lia].
    apply Forall_app; split; [done|]. apply Forall_cons; split; [done|].
    eapply Forall_impl; [exact Hd|]. intros y Hy. unfold name_char. by rewrite digit_name_char. }
  pose proof (Hnum i Hi) as Hn. fold ns in Hn.
  exists ns. split; [by apply Hrn|]. split; [|split].
  - apply operable_iff. split_and!; [done|by eapply protected_not_numbered|done|]. by exists prefix, i.
  - apply replica_index_iff. by exists prefix.
  - intros j Hj Heq. rewrite Hrn in Heq by done. injection Heq as Heq.
    pose proof (Hnum j Hj) as Hnj. rewrite Heq in Hnj.
    assert (replica_index (VStr prefix) (VStr ns) = Ok (Some j)) as H1 by (apply replica_index_iff; by exists prefix).
    assert (replica_index (VStr prefix) (VStr ns) = Ok (Some i)) as H2 by (apply replica_index_iff; by exists prefix).
    congruence.
Qed.

Lemma replica_namespace_operable_witness :
  ∃ ns, replica_namespace (VStr "otel-demo") (VInt 7) = Ok ns ∧
    assert_operable_namespace (VStr "otel-demo") (VStr ns) = Ok ns.
Proof.
  destruct (replica_namespace_operable "otel-demo" 7) as (ns & H1 & H2 & _); [reflexivity|lia|].
  exists ns. split; [exact H1|exact H2].
Defined.
