(* ===== verification/FleetContracts.v ===== *)
(** * Request models of the Fleet ([fleet_service/contracts.py])

    The pydantic models as records, their field constraints as boolean functions, and
    their validators. A validator's [ValueError] becomes a [ValidationError] of the
    request; what pydantic itself does with a document is not modelled. *)

From S2P Require Import Prelude PyFloat PyVal FleetGuard.

#[local] Open Scope Z_scope.

Inductive HarnessName := codex | claude_code | deepseek_harness | bladeai.
Inductive TestKind := Lx | Dx | Px.
Inductive AutonomyLevel := L0 | L1 | L2 | L3 | L4.
Inductive PromptSource := canonical | manual.
Inductive Variant := VariantA | VariantB.

#[export] Instance harness_eq_dec : EqDecision HarnessName.
Proof. solve_decision. Defined.
#[export] Instance kind_eq_dec : EqDecision TestKind.
Proof. solve_decision. Defined.
#[export] Instance level_eq_dec : EqDecision AutonomyLevel.
Proof. solve_decision. Defined.
#[export] Instance prompt_source_eq_dec : EqDecision PromptSource.
Proof. solve_decision. Defined.
#[export] Instance variant_eq_dec : EqDecision Variant.
Proof. solve_decision. Defined.

Definition harness_value (h : HarnessName) : string :=
  match h with
  | codex => "codex" | claude_code => "claude-code"
  | deepseek_harness => "deepseek-harness" | bladeai => "bladeai"
  end.
Definition kind_value (k : TestKind) : string :=
  match k with Lx => "Lx" | Dx => "Dx" | Px => "Px" end.
Definition level_value (l : AutonomyLevel) : string :=
  match l with L0 => "L0" | L1 => "L1" | L2 => "L2" | L3 => "L3" | L4 => "L4" end.
Definition source_value (p : PromptSource) : string :=
  match p with canonical => "canonical" | manual => "manual" end.
Definition variant_value (v : Variant) : string :=
  match v with VariantA => "A" | VariantB => "B" end.

Definition DX_CASES : list string := ["D1"; "D2"; "D3"; "D4"; "D5"; "D6"; "D7"; "D8"].
Definition MEASURED_PEAK_RPM_PER_TRIAL : Z := 10.
Definition MEASURED_PEAK_TPM_PER_TRIAL : Z := 552000.
Definition PX_CASES : list string := ["P1"; "P2"].
Definition CAPABILITY_LOSS_CASES : list string := ["D7"; "D8"].
Definition DEFAULT_DURATION_SECONDS : Z := 300.

Inductive SlotPhase := PROVISIONING | READY | BUSY | SLOT_FAILED | DRAINING.
Definition slot_phase_value (p : SlotPhase) : string :=
  match p with
  | PROVISIONING => "Provisioning" | READY => "Ready" | BUSY => "Busy"
  | SLOT_FAILED => "Failed" | DRAINING => "Draining"
  end.

Inductive ItemState := QUEUED | ASSIGNED | RUNNING | DONE | FAILED | INVALID.
Definition item_state_value (s : ItemState) : string :=
  match s with
  | QUEUED => "Queued" | ASSIGNED => "Assigned" | RUNNING => "Running"
  | DONE => "Done" | FAILED => "Failed" | INVALID => "Invalid"
  end.

#[export] Instance item_state_eq_dec : EqDecision ItemState.
Proof. solve_decision. Defined.

(** ** Field constraints *)

Definition len_between (lo hi : Z) (s : string) : bool :=
  let n := Z.of_nat (String.length s) in (lo <=? n) && (n <=? hi).
Definition int_between (lo hi n : Z) : bool := (lo <=? n) && (n <=? hi).
Definition opt_all {A} (p : A → bool) (o : option A) : bool :=
  match o with Some a => p a | None => true end.
Definition all_chars (p : ascii → bool) (s : string) : bool := forallb p (chars s).

Record FaultSlots := {
  target : string;
  fault_type : string;
  fault_params : mapping;
  fs_duration_seconds : Z }.

Definition default_fault_slots : FaultSlots := {|
  target := "cart"; fault_type := "cpu_load"; fault_params := [("cpu_percent", VInt 80)];
  fs_duration_seconds := DEFAULT_DURATION_SECONDS |}.

Definition fault_slots_fields (f : FaultSlots) : bool :=
  len_between 1 80 (target f) && all_chars name_char (target f) &&
  len_between 1 80 (fault_type f) && int_between 1 1200 (fs_duration_seconds f).

Definition fault_slots_dump (f : FaultSlots) : mapping :=
  [("target", VStr (target f)); ("fault_type", VStr (fault_type f));
   ("fault_params", VDict (fault_params f)); ("duration_seconds", VInt (fs_duration_seconds f))].

(** ** [FleetConfig]: the fields its validators read *)

Record FleetConfig := {
  replicas : Z;
  namespace_prefix : string;
  account_rpm : option Z;
  account_tpm : option Z;
  max_concurrency : Z }.

Definition fleet_config_fields (c : FleetConfig) : bool :=
  int_between 1 999 (replicas c) && PREFIX_RE (namespace_prefix c) &&
  opt_all (Z.leb 1) (account_rpm c) && opt_all (Z.leb 1) (account_tpm c) &&
  int_between 1 999 (max_concurrency c).

Definition validate_prefix (value : val) : result string := assert_prefix value.

Definition budget_message (concurrency needed account peak : Z) (noun : string) : string :=
  "max_concurrency " +:+ pretty concurrency +:+ " can ask the account for " +:+ pretty needed
  +:+ " " +:+ noun +:+ " per minute at peak, above its " +:+ pretty account
  +:+ "; run at most " +:+ pretty (account / peak) +:+ " trials at once".

Definition check_budget (concurrency : Z) (account : option Z) (peak : Z) (noun : string)
    : result unit :=
  match account with
  | None => Ok tt
  | Some account =>
      let needed := concurrency * peak in
      require (needed <=? account) ValueError (budget_message concurrency needed account peak noun)
  end.

Definition validate_concurrency (c : FleetConfig) : result FleetConfig :=
  require (max_concurrency c <=? replicas c) ValueError "max_concurrency cannot exceed replicas" ;;
  check_budget (max_concurrency c) (account_rpm c) MEASURED_PEAK_RPM_PER_TRIAL "requests" ;;
  check_budget (max_concurrency c) (account_tpm c) MEASURED_PEAK_TPM_PER_TRIAL "tokens" ;;
  Ok c.

(** ** Batches *)

Record BatchDefaults := {
  d_model : string;
  d_llm_tag : option string;
  d_duration_seconds : Z;
  d_prompt_source : PromptSource;
  d_repetitions : Z;
  d_slots : FaultSlots;
  d_note : option string }.

Definition default_batch_defaults : BatchDefaults := {|
  d_model := "qwen3.8-max"; d_llm_tag := None; d_duration_seconds := DEFAULT_DURATION_SECONDS;
  d_prompt_source := canonical; d_repetitions := 1; d_slots := default_fault_slots; d_note := None |}.

Definition batch_defaults_fields (d : BatchDefaults) : bool :=
  int_between 1 1200 (d_duration_seconds d) && int_between 1 20 (d_repetitions d) &&
  fault_slots_fields (d_slots d) && opt_all (len_between 0 500) (d_note d).

Record BatchItem := {
  item_id : string;
  namespace : option string;
  test_kind : TestKind;
  autonomy_level : AutonomyLevel;
  case : string;
  tool_substitution_variant : option Variant;
  d6_variant : option Variant;
  harness : HarnessName;
  model : option string;
  llm_tag : option string;
  duration_seconds : option Z;
  prompt : option string;
  prompt_source : option PromptSource;
  repetition : Z;
  note : option string }.

Definition item_id_char (c : ascii) : bool := is_alnum c || one_of "._-" c.

Definition batch_item_fields (i : BatchItem) : bool :=
  len_between 1 64 (item_id i) && all_chars item_id_char (item_id i) &&
  len_between 1 8 (case i) && opt_all (int_between 1 1200) (duration_seconds i) &&
  opt_all (len_between 0 12000) (prompt i) && int_between 1 20 (repetition i) &&
  opt_all (len_between 0 500) (note i).

Definition str_in (s : string) (l : list string) : bool := bool_decide (s ∈ l).

(** The branch on [test_kind]. *)
Definition check_kind (i : BatchItem) : result unit :=
  let complete := bool_decide (autonomy_level i = L0) in
  match test_kind i with
  | Lx => require (bool_decide (case i = "C0")) ValueError "test_kind Lx runs case C0"
  | Dx =>
      require (str_in (case i) DX_CASES) ValueError
        ("test_kind Dx needs a case in " +:+ str_join ", " DX_CASES) ;;
      require complete ValueError "Dx disturbs the trial, so it pairs with the complete L0 prompt"
  | Px =>
      require (str_in (case i) PX_CASES) ValueError
        ("test_kind Px needs a case in " +:+ str_join ", " PX_CASES) ;;
      require complete ValueError "Px varies the prompt, so it pairs with the complete L0 prompt"
  end.

Definition given {A} (o : option A) : bool := bool_decide (is_Some o).

Definition validate_self_consistency (i : BatchItem) : result BatchItem :=
  check_kind i ;;
  let capability_loss := str_in (case i) CAPABILITY_LOSS_CASES in
  require (negb (capability_loss && negb (given (tool_substitution_variant i)))) ValueError
    ("case " +:+ case i +:+ " requires tool_substitution_variant A or B") ;;
  require (negb (negb capability_loss && given (tool_substitution_variant i))) ValueError
    "tool_substitution_variant is only valid for D7/D8" ;;
  require (negb (negb (bool_decide (case i = "D6")) && given (d6_variant i))) ValueError
    "d6_variant is only valid for D6" ;;
  require (negb (bool_decide (prompt_source i = Some manual) &&
                 negb (nonempty (str_strip (default "" (prompt i)))))) ValueError
    "prompt_source manual requires a prompt" ;;
  require (negb (given (prompt i) && bool_decide (prompt_source i = Some canonical))) ValueError
    "a supplied prompt is prompt_source manual, not canonical" ;;
  Ok i.

Definition case_variant (i : BatchItem) : option Variant :=
  match tool_substitution_variant i with Some v => Some v | None => d6_variant i end.

Definition case_label (i : BatchItem) : string :=
  match case_variant i with
  | Some v => case i +:+ "-" +:+ variant_value v
  | None => case i
  end.

Abbreviation cell_key := (string * AutonomyLevel * HarnessName * string * Z)%type.

Definition cell (i : BatchItem) : cell_key :=
  (case_label i, autonomy_level i, harness i, str_or (model i) "", repetition i).

Record BatchRequest := {
  batch_id : string;
  cluster : string;
  br_max_concurrency : option Z;
  platform_retry_limit : Z;
  defaults : BatchDefaults;
  items : list BatchItem }.

Definition batch_id_char (c : ascii) : bool := is_lower_alnum c || one_of "._-" c.

Definition batch_request_fields (r : BatchRequest) : bool :=
  len_between 3 80 (batch_id r) && all_chars batch_id_char (batch_id r) &&
  match chars (batch_id r) with c :: _ => is_lower_alnum c | [] => false end &&
  len_between 0 80 (cluster r) && opt_all (int_between 1 999) (br_max_concurrency r) &&
  int_between 0 10 (platform_retry_limit r) && batch_defaults_fields (defaults r) &&
  int_between 1 2000 (Z.of_nat (length (items r))) && forallb batch_item_fields (items r).

(** The cell with the batch's default model filled in. *)
Definition resolved_model (r : BatchRequest) (i : BatchItem) : string :=
  str_or (model i) (d_model (defaults r)).

Definition batch_cell (r : BatchRequest) (i : BatchItem) : cell_key :=
  (case_label i, autonomy_level i, harness i, resolved_model r i, repetition i).

Definition cell_text (c : cell_key) : string :=
  let '(label, level, h, m, rep) := c in
  str_join ", " [label; level_value level; harness_value h; m; pretty rep].

Definition see_item (r : BatchRequest) (seen : list string * list cell_key) (i : BatchItem)
    : result (list string * list cell_key) :=
  let '(seen_ids, seen_cells) := seen in
  require (negb (bool_decide (item_id i ∈ seen_ids))) ValueError
    ("duplicate item_id: " +:+ item_id i) ;;
  let c := batch_cell r i in
  require (negb (bool_decide (c ∈ seen_cells))) ValueError
    ("duplicate (case, autonomy_level, harness, model, repetition): " +:+ cell_text c) ;;
  Ok (seen_ids ++ [item_id i], seen_cells ++ [c]).

Definition validate_items (r : BatchRequest) : result BatchRequest :=
  foldM (see_item r) ([], []) (items r) ;; Ok r.

Definition opt_str (o : option string) : val := match o with Some s => VStr s | None => VNone end.
Definition opt_variant (o : option Variant) : val :=
  match o with Some v => VStr (variant_value v) | None => VNone end.

Definition resolved_source (r : BatchRequest) (i : BatchItem) : PromptSource :=
  match prompt_source i with
  | Some p => p
  | None => if nonempty (default "" (prompt i)) then manual else d_prompt_source (defaults r)
  end.

(** [item.note or self.defaults.note] *)
Definition opt_or (a b : option string) : option string :=
  match a with Some s => if nonempty s then Some s else b | None => b end.

Definition resolved (r : BatchRequest) (i : BatchItem) : mapping :=
  let m := resolved_model r i in
  [("item_id", VStr (item_id i)); ("namespace", opt_str (namespace i));
   ("test_kind", VStr (kind_value (test_kind i)));
   ("autonomy_level", VStr (level_value (autonomy_level i))); ("case", VStr (case i));
   ("tool_substitution_variant", opt_variant (tool_substitution_variant i));
   ("d6_variant", opt_variant (d6_variant i)); ("harness", VStr (harness_value (harness i)));
   ("model", VStr m); ("llm_tag", VStr (str_or (llm_tag i) (str_or (d_llm_tag (defaults r)) m)));
   ("duration_seconds", VInt (match duration_seconds i with
                              | Some d => if d =? 0 then d_duration_seconds (defaults r) else d
                              | None => d_duration_seconds (defaults r)
                              end));
   ("prompt", opt_str (prompt i)); ("prompt_source", VStr (source_value (resolved_source r i)));
   ("repetition", VInt (repetition i)); ("note", opt_str (opt_or (note i) (d_note (defaults r))));
   ("slots", VDict (fault_slots_dump (d_slots (defaults r))))].

(** * Properties *)

(** What the label says must be what runs. *)
Definition consistent (i : BatchItem) : Prop :=
  match test_kind i with
  | Lx => case i = "C0"
  | Dx => case i ∈ DX_CASES ∧ autonomy_level i = L0
  | Px => case i ∈ PX_CASES ∧ autonomy_level i = L0
  end ∧
  (is_Some (tool_substitution_variant i) ↔ case i ∈ CAPABILITY_LOSS_CASES) ∧
  (is_Some (d6_variant i) → case i = "D6") ∧
  (prompt_source i = Some manual → ∃ p, prompt i = Some p ∧ str_strip p ≠ "") ∧
  (is_Some (prompt i) → prompt_source i ≠ Some canonical).

Lemma str_in_iff s l : str_in s l = true ↔ s ∈ l.
Proof. apply bool_decide_eq_true. Qed.

Lemma given_iff {A} (o : option A) : given o = true ↔ is_Some o.
Proof. apply bool_decide_eq_true. Qed.

Lemma require_seq {A} b k m (r : result A) a : (require b k m ;; r) = Ok a ↔ b = true ∧ r = Ok a.
Proof.
  rewrite bind_Ok_iff. setoid_rewrite require_Ok.
  split; [by intros (_ & H)|]. intros H. by exists tt.
Qed.

Lemma check_kind_iff i u : check_kind i = Ok u ↔
  match test_kind i with
  | Lx => case i = "C0"
  | Dx => case i ∈ DX_CASES ∧ autonomy_level i = L0
  | Px => case i ∈ PX_CASES ∧ autonomy_level i = L0
  end.
Proof.
  unfold check_kind, str_in. destruct u, (test_kind i);
    rewrite ?require_seq, require_Ok, ?bool_decide_eq_true; done.
Qed.

(** A boolean guard and the two propositions it decides. *)
Lemma guard_iff (a b : bool) (P Q : Prop) : (a = true ↔ P) → (b = true ↔ Q) →
  negb (a && b) = true ↔ (P → ¬ Q).
Proof. intros <- <-. destruct a, b; naive_solver. Qed.

Lemma negb_iff (a : bool) (P : Prop) : (a = true ↔ P) → negb a = true ↔ ¬ P.
Proof. intros <-. destruct a; naive_solver. Qed.

(** An item is accepted exactly when its case fits its kind and level, variants are given where
    the case has them and a prompt agrees with its source. *)
Theorem validate_self_consistency_exact i i' :
  validate_self_consistency i = Ok i' ↔ i' = i ∧ consistent i.
Proof.
  unfold validate_self_consistency, consistent. rewrite bind_Ok_iff. setoid_rewrite check_kind_iff.
  repeat setoid_rewrite require_seq.
  pose proof (str_in_iff (case i) CAPABILITY_LOSS_CASES) as Hcl.
  pose proof (given_iff (tool_substitution_variant i)) as Hg.
  setoid_rewrite (guard_iff _ _ _ _ Hcl (negb_iff _ _ Hg)).
  setoid_rewrite (guard_iff _ _ _ _ (negb_iff _ _ Hcl) Hg).
  setoid_rewrite (guard_iff _ _ _ _ (negb_iff _ _ (bool_decide_eq_true _)) (given_iff (d6_variant i))).
  setoid_rewrite (guard_iff _ _ _ _ (bool_decide_eq_true _)
    (negb_iff _ _ (nonempty_true (str_strip (default "" (prompt i)))))).
  setoid_rewrite (guard_iff _ _ _ _ (given_iff (prompt i)) (bool_decide_eq_true _)).
  assert ((¬¬ (str_strip (default "" (prompt i)) ≠ "")) ↔ ∃ p, prompt i = Some p ∧ str_strip p ≠ "") as Hs.
  { destruct (prompt i) as [p|]; cbn.
    - split; [intros H; exists p; split; [done|tauto]|]. intros (p' & [= <-] & H). tauto.
    - split; [intros H; destruct H; intros H; by destruct H|by intros (p & ? & _)]. }
  setoid_rewrite Hs. destruct (decide (is_Some (tool_substitution_variant i))),
    (decide (case i ∈ CAPABILITY_LOSS_CASES)), (decide (case i = "D6")); 
    (split; [intros (_ & H & H1 & H2 & H3 & H4 & H5 & [= <-])|intros (-> & H)]); try naive_solver.
  all: exists tt; naive_solver.
Qed.

(** Consistent items with the same case label run the same case and variant. *)
Theorem case_label_injective i j :
  consistent i → consistent j → case_label i = case_label j →
  case i = case j ∧ case_variant i = case_variant j.
Proof.
  intros Hi Hj.
  assert (∀ i, consistent i → ∃ c, case i = c ∧ c ∈ "C0" :: DX_CASES ++ PX_CASES) as Hcase.
  { intros k (Hk & _). exists (case k). split; [done|].
    destruct (test_kind k); [rewrite Hk; by left|right; apply elem_of_app..]; naive_solver. }
  destruct (Hcase i Hi) as (c & Ec & Hc), (Hcase j Hj) as (d & Ed & Hd).
  unfold case_label. rewrite Ec, Ed. clear Hcase Hi Hj Ec Ed.
  set (f := λ c v, match v with Some v => c +:+ "-" +:+ variant_value v | None => c end).
  change (f c (case_variant i) = f d (case_variant j) → c = d ∧ case_variant i = case_variant j).
  generalize (case_variant i) (case_variant j). intros u v Heq.
  set (cases := "C0" :: DX_CASES ++ PX_CASES) in *. set (vs := [None; Some VariantA; Some VariantB]).
  assert (forallb (λ x, forallb (λ y, implb (bool_decide (f x.1 x.2 = f y.1 y.2)) (bool_decide (x = y)))
            (list_prod cases vs)) (list_prod cases vs) = true) as H by (vm_compute; reflexivity).
  rewrite forallb_True in H.
  assert (∀ c v, c ∈ cases → (c, v) ∈ list_prod cases vs) as Hin.
  { intros x w Hx. apply list_elem_of_In, in_prod; [by apply list_elem_of_In|].
    destruct w as [[]|]; cbn; tauto. }
  specialize (H _ (Hin c u Hc)). rewrite forallb_True in H. specialize (H _ (Hin d v Hd)).
  cbn [fst snd] in H. rewrite bool_decide_true in H by done. apply bool_decide_eq_true in H.
  by injection H.
Qed.

Lemma see_items_iff r l ids cells out : NoDup ids → NoDup cells →
  (foldM (see_item r) (ids, cells) l = Ok out ↔
   out = (ids ++ map item_id l, cells ++ map (batch_cell r) l) ∧
   NoDup (ids ++ map item_id l) ∧ NoDup (cells ++ map (batch_cell r) l)).
Proof.
  revert ids cells. induction l as [|i l IH]; intros ids cells Hi Hc; cbn [foldM map].
  - rewrite !app_nil_r. naive_solver.
  - rewrite bind_Ok_iff. unfold see_item at 1. repeat setoid_rewrite require_seq.
    repeat setoid_rewrite negb_true_iff. repeat setoid_rewrite bool_decide_eq_false.
    assert (∀ {A} (x : A) l k, NoDup (l ++ x :: k) → x ∉ l) as Hnot.
    { intros A x l' k (_ & H & _)%NoDup_app Hx. by destruct (H x Hx); left. }
    assert (∀ {A} (x : A) l k, NoDup (l ++ x :: k) → NoDup (l ++ [x])) as Hpre.
    { intros A x l' k H. apply (NoDup_app (l' ++ [x]) k). by rewrite <- app_assoc. }
    split.
    + intros (acc & (Hni & Hnc & [= <-]) & Hl).
      assert (∀ {A} (x : A) l, NoDup l → x ∉ l → NoDup (l ++ [x])) as Hsnoc.
      { intros A x l' Hl' Hx. apply NoDup_app. split_and!; [done| |apply NoDup_singleton].
        by intros y Hy ->%list_elem_of_singleton. }
      apply (proj1 (IH _ _ (Hsnoc _ _ _ Hi Hni) (Hsnoc _ _ _ Hc Hnc))) in Hl.
      by rewrite <- !app_assoc in Hl.
    + intros (-> & H1 & H2). eexists. split; [split_and!; [by eapply Hnot..|done]|].
      apply IH; [by eapply Hpre..|]. by rewrite <- !app_assoc.
Qed.

(** A batch is accepted exactly when its item ids are distinct and so are its cells of case with
    variant, level, harness, model and repetition. *)
Theorem validate_items_exact r r' :
  validate_items r = Ok r' ↔
  r' = r ∧ NoDup (map item_id (items r)) ∧ NoDup (map (batch_cell r) (items r)).
Proof.
  unfold validate_items. rewrite bind_Ok_iff.
  setoid_rewrite (see_items_iff r (items r) [] [] _ (NoDup_nil_2) (NoDup_nil_2)). cbn [app]. naive_solver.
Qed.

Lemma check_budget_iff n account peak noun u :
  check_budget n account peak noun = Ok u ↔ opt_all (Z.leb (n * peak)) account = true.
Proof. unfold check_budget. destruct u, account; cbn; [apply require_Ok|done]. Qed.

(** A fleet configuration is accepted exactly when its concurrency fits the replicas and the
    account's request and token budgets. *)
Theorem concurrency_within_budget c c' :
  validate_concurrency c = Ok c' ↔
  c' = c ∧ max_concurrency c <= replicas c ∧
  (∀ rpm, account_rpm c = Some rpm → max_concurrency c <= rpm / MEASURED_PEAK_RPM_PER_TRIAL) ∧
  (∀ tpm, account_tpm c = Some tpm → max_concurrency c <= tpm / MEASURED_PEAK_TPM_PER_TRIAL).
Proof.
  unfold validate_concurrency. rewrite require_seq, bind_Ok_iff. setoid_rewrite bind_Ok_iff.
  setoid_rewrite check_budget_iff. rewrite Z.leb_le.
  assert (∀ peak o, 0 < peak → opt_all (Z.leb (max_concurrency c * peak)) o = true ↔
            ∀ a, o = Some a → max_concurrency c <= a / peak) as Hdiv.
  { intros peak [a|] Hp; cbn; [|naive_solver]. rewrite Z.leb_le. split.
    - intros H b [= <-]. apply Z.div_le_lower_bound; lia.
    - intros H. specialize (H a eq_refl). pose proof (Z.mul_div_le a peak Hp). nia. }
  rewrite <- !Hdiv by done. split.
  - intros (H & u & H1 & v & H2 & [= <-]). done.
  - intros (-> & H & H1 & H2). split; [done|]. exists tt. split; [done|]. by exists tt.
Qed.

(** ** At concrete inputs *)

Definition sample_item (id kind_case : string) (k : TestKind) (v w : option Variant) : BatchItem := {|
  item_id := id; namespace := None; test_kind := k; autonomy_level := L0; case := kind_case;
  tool_substitution_variant := v; d6_variant := w; harness := codex; model := None; llm_tag := None;
  duration_seconds := None; prompt := None; prompt_source := None; repetition := 1; note := None |}.

Definition sample_batch (source : PromptSource) (l : list BatchItem) : BatchRequest := {|
  batch_id := "round-1"; cluster := "unspecified"; br_max_concurrency := Some 1;
  platform_retry_limit := 2;
  defaults := {| d_model := "m"; d_llm_tag := None; d_duration_seconds := 300; d_prompt_source := source;
                 d_repetitions := 1; d_slots := default_fault_slots; d_note := None |};
  items := l |}.

Lemma case_label_injective_witness :
  case_variant (sample_item "a" "D7" Dx (Some VariantA) None) =
  case_variant (sample_item "b" "D7" Dx (Some VariantA) None).
Proof.
  refine (proj2 (case_label_injective _ _ _ _ _)); [..|reflexivity];
    eapply proj2, validate_self_consistency_exact; reflexivity.
Defined.

(** A batch whose default is [manual] passes every validator with no prompt at all. *)
Example manual_default_without_prompt :
  let i := sample_item "a" "C0" Lx None None in
  let r := sample_batch manual [i] in
  is_ok (validate_self_consistency i) = true ∧ is_ok (validate_items r) = true ∧
  batch_request_fields r = true ∧
  vget (resolved r i) "prompt_source" = VStr "manual" ∧ vget (resolved r i) "prompt" = VNone.
Proof. split_and!; vm_compute; reflexivity. Qed.
