(* ===== verification/FleetStore.v ===== *)
(** * State of the Fleet ([fleet_service/store.py])

    The SQLite tables as finite maps keyed by their primary keys. Every method of the
    source is one transaction under the store's lock: here a function of the database,
    which a method that raises leaves as it was. JSON columns hold the document that
    [json.loads] gives back ([sort_keys] orders its keys). Rows come in the order of
    the [ORDER BY]; rows with equal keys in an unspecified one. *)

From S2P Require Import Prelude PyFloat PyVal Progression FleetContracts.

#[local] Open Scope Z_scope.

Record SlotRow := {
  sl_slot_id : string;
  sl_index : Z;
  sl_namespace : string;
  sl_controller_url : string;
  sl_phase : string;
  sl_detail : val;
  sl_updated_at : string }.

Record BatchRow := {
  ba_request : val;
  ba_state : string;
  ba_created_at : string;
  ba_updated_at : string }.

Record ItemRow := {
  it_resolved : val;
  it_state : ItemState;
  it_slot_id : option string;
  it_namespace : option string;
  it_run_id : option string;
  it_task_id : option string;
  it_attempts : Z;
  it_platform_retries : Z;
  it_started_at : option string;
  it_finished_at : option string;
  it_failure : val;
  it_score : val }.

Record AuditRow := {
  au_occurred_at : string;
  au_action : string;
  au_namespace : option string;
  au_dry_run : bool;
  au_actor : string;
  au_detail : val }.

Record FleetDB := {
  db_config : option val;
  db_slots : gmap string SlotRow;
  db_batches : gmap string BatchRow;
  db_items : gmap (string * string) ItemRow;
  db_audit : list AuditRow }.

Definition empty_db : FleetDB := {|
  db_config := None; db_slots := ∅; db_batches := ∅; db_items := ∅; db_audit := [] |}.

Definition with_slots (f : gmap string SlotRow → gmap string SlotRow) (db : FleetDB) : FleetDB := {|
  db_config := db_config db; db_slots := f (db_slots db); db_batches := db_batches db;
  db_items := db_items db; db_audit := db_audit db |}.
Definition with_batches (f : gmap string BatchRow → gmap string BatchRow) (db : FleetDB) : FleetDB := {|
  db_config := db_config db; db_slots := db_slots db; db_batches := f (db_batches db);
  db_items := db_items db; db_audit := db_audit db |}.
Definition with_items (f : gmap (string * string) ItemRow → gmap (string * string) ItemRow)
    (db : FleetDB) : FleetDB := {|
  db_config := db_config db; db_slots := db_slots db; db_batches := db_batches db;
  db_items := f (db_items db); db_audit := db_audit db |}.

(** [json.loads(json.dumps(v, sort_keys=True))] *)
Definition stored (v : val) : val := sort_doc v.

Definition IntegrityError : exn_kind := OtherError "IntegrityError".

(** ** Configuration and audit *)

Definition write_config (document : mapping) (db : FleetDB) : FleetDB := {|
  db_config := Some (stored (VDict document)); db_slots := db_slots db;
  db_batches := db_batches db; db_items := db_items db; db_audit := db_audit db |}.

Definition read_config (db : FleetDB) : option val := db_config db.

Definition audit_event (now action : string) (ns : option string) (dry_run : bool) (actor : string)
    (detail : option mapping) (db : FleetDB) : FleetDB := {|
  db_config := db_config db; db_slots := db_slots db; db_batches := db_batches db;
  db_items := db_items db;
  db_audit := db_audit db ++
    [{| au_occurred_at := now; au_action := action; au_namespace := ns; au_dry_run := dry_run;
        au_actor := actor; au_detail := stored (VDict (default [] detail)) |}] |}.

Definition audit_log (limit : nat) (db : FleetDB) : list AuditRow := take limit (rev (db_audit db)).

(** ** Slots *)

(** [INSERT ... ON CONFLICT(slot_id) DO UPDATE], with the two other [UNIQUE] columns. *)
Definition upsert_slot (now slot_id : string) (index : Z) (ns controller_url phase : string)
    (detail : option mapping) (db : FleetDB) : result FleetDB :=
  let clash := λ kv : string * SlotRow,
    negb (bool_decide (kv.1 = slot_id)) &&
    ((sl_index kv.2 =? index) || bool_decide (sl_namespace kv.2 = ns)) in
  require (negb (existsb clash (map_to_list (db_slots db)))) IntegrityError "UNIQUE constraint failed" ;;
  Ok (with_slots <[slot_id := {|
        sl_slot_id := slot_id; sl_index := index; sl_namespace := ns;
        sl_controller_url := controller_url; sl_phase := phase;
        sl_detail := stored (VDict (default [] detail)); sl_updated_at := now |}]> db).

Definition set_slot_phase (now slot_id phase : string) (detail : option mapping) (db : FleetDB) : FleetDB :=
  with_slots (alter (λ r, {|
    sl_slot_id := sl_slot_id r; sl_index := sl_index r; sl_namespace := sl_namespace r;
    sl_controller_url := sl_controller_url r; sl_phase := phase;
    sl_detail := match detail with Some d => stored (VDict d) | None => sl_detail r end;
    sl_updated_at := now |}) slot_id) db.

Definition slots (db : FleetDB) : list SlotRow :=
  sort_by (λ x y, sl_index x <=? sl_index y) (map_to_list (db_slots db)).*2.

Definition slot (slot_id : string) (db : FleetDB) : option SlotRow := db_slots db !! slot_id.

Definition slot_by_namespace (ns : string) (db : FleetDB) : option SlotRow :=
  head (List.filter (λ r, bool_decide (sl_namespace r = ns)) (map_to_list (db_slots db)).*2).

Definition delete_slot (slot_id : string) (db : FleetDB) : FleetDB := with_slots (delete slot_id) db.

(** ** Batches *)

Definition new_item (resolved : mapping) (ns : option string) : ItemRow := {|
  it_resolved := stored (VDict resolved); it_state := QUEUED; it_slot_id := None; it_namespace := ns;
  it_run_id := None; it_task_id := None; it_attempts := 0; it_platform_retries := 0;
  it_started_at := None; it_finished_at := None; it_failure := VNone; it_score := VNone |}.

(** A value bound to a [TEXT] column: SQLite stores an integer as its digits. How it
    prints a real number is not modelled: the model raises. *)
Definition text_param (v : val) : result (option string) :=
  match v with
  | VNone => Ok None
  | VStr s => Ok (Some s)
  | VInt z =>
      if (- 2 ^ 63 <=? z) && (z <? 2 ^ 63) then Ok (Some (pretty z))
      else raise OverflowError "Python int too large to convert to SQLite INTEGER"
  | VBool b => Ok (Some (pretty (Z.b2z b)))
  | _ => raise (OtherError "InterfaceError") "Error binding parameter"
  end.

Definition insert_item (batch_id : string) (db : FleetDB) (item : mapping) : result FleetDB :=
  id ← vitem item "item_id";
  ns ← text_param (vget item "namespace");
  let key := (batch_id, py_str id) in
  require (bool_decide (db_items db !! key = None)) IntegrityError "UNIQUE constraint failed" ;;
  Ok (with_items <[key := new_item item ns]> db).

Definition create_batch (now batch_id : string) (request : mapping) (items : list mapping)
    (db : FleetDB) : result FleetDB :=
  require (bool_decide (db_batches db !! batch_id = None)) IntegrityError "UNIQUE constraint failed" ;;
  foldM (insert_item batch_id)
    (with_batches <[batch_id := {| ba_request := stored (VDict request); ba_state := "Scheduled";
                                   ba_created_at := now; ba_updated_at := now |}]> db) items.

Definition batch (batch_id : string) (db : FleetDB) : option BatchRow := db_batches db !! batch_id.

(** The columns [batch_id], [state], [created_at] and [updated_at] of every batch. *)
Record BatchSummary := {
  bs_batch_id : string;
  bs_state : string;
  bs_created_at : string;
  bs_updated_at : string }.

Definition batches (db : FleetDB) : list BatchSummary :=
  sort_by (λ x y, str_leb (bs_created_at x) (bs_created_at y))
    (map (λ kv : string * BatchRow,
        {| bs_batch_id := kv.1; bs_state := ba_state kv.2;
           bs_created_at := ba_created_at kv.2; bs_updated_at := ba_updated_at kv.2 |})
      (map_to_list (db_batches db))).

(** [dict(row)] of a summary: what [.get] finds in it. *)
Definition summary_dict (b : BatchSummary) : mapping :=
  [("batch_id", VStr (bs_batch_id b)); ("state", VStr (bs_state b));
   ("created_at", VStr (bs_created_at b)); ("updated_at", VStr (bs_updated_at b))].

Definition set_batch_state (now batch_id state : string) (db : FleetDB) : FleetDB :=
  with_batches (alter (λ b, {| ba_request := ba_request b; ba_state := state;
    ba_created_at := ba_created_at b; ba_updated_at := now |}) batch_id) db.

(** ** Items *)

Definition items (batch_id : string) (db : FleetDB) : list (string * ItemRow) :=
  sort_by (λ x y, str_leb x.1 y.1)
    (omap (λ kv : string * string * ItemRow,
             if decide (kv.1.1 = batch_id) then Some (kv.1.2, kv.2) else None)
       (map_to_list (db_items db))).

Definition item (batch_id item_id : string) (db : FleetDB) : option ItemRow :=
  db_items db !! (batch_id, item_id).

(** One keyword argument of [update_item]. *)
Inductive ItemUpdate :=
  | SetState (s : ItemState)
  | SetSlotId (o : option string)
  | SetRunId (o : option string)
  | SetTaskId (o : option string)
  | SetAttempts (n : Z)
  | SetPlatformRetries (n : Z)
  | SetStartedAt (o : option string)
  | SetFinishedAt (o : option string)
  | SetFailure (v : val)
  | SetScore (v : val).

Definition set_column (r : ItemRow) (u : ItemUpdate) : ItemRow := {|
  it_resolved := it_resolved r;
  it_state := match u with SetState s => s | _ => it_state r end;
  it_slot_id := match u with SetSlotId o => o | _ => it_slot_id r end;
  it_namespace := it_namespace r;
  it_run_id := match u with SetRunId o => o | _ => it_run_id r end;
  it_task_id := match u with SetTaskId o => o | _ => it_task_id r end;
  it_attempts := match u with SetAttempts n => n | _ => it_attempts r end;
  it_platform_retries := match u with SetPlatformRetries n => n | _ => it_platform_retries r end;
  it_started_at := match u with SetStartedAt o => o | _ => it_started_at r end;
  it_finished_at := match u with SetFinishedAt o => o | _ => it_finished_at r end;
  it_failure := match u with SetFailure v => stored v | _ => it_failure r end;
  it_score := match u with SetScore v => stored v | _ => it_score r end |}.

Definition update_item (batch_id item_id : string) (updates : list ItemUpdate) (db : FleetDB) : FleetDB :=
  if empty updates then db
  else with_items (alter (λ r, foldl set_column r updates) (batch_id, item_id)) db.

Definition active_state (s : ItemState) : bool :=
  match s with ASSIGNED | RUNNING => true | _ => false end.

(** [state IN ('Assigned', 'Running')] *)
Definition active (r : ItemRow) : bool := active_state (it_state r).

Definition count_rows (p : ItemRow → bool) (db : FleetDB) : nat :=
  length (List.filter (λ kv, p kv.2) (map_to_list (db_items db))).

Definition on_slot (slot_id : string) (r : ItemRow) : bool :=
  active r && bool_decide (it_slot_id r = Some slot_id).

Definition assign (slot_id ns : string) (r : ItemRow) : ItemRow := {|
  it_resolved := it_resolved r; it_state := ASSIGNED; it_slot_id := Some slot_id;
  it_namespace := Some ns; it_run_id := it_run_id r; it_task_id := it_task_id r;
  it_attempts := it_attempts r; it_platform_retries := it_platform_retries r;
  it_started_at := it_started_at r; it_finished_at := it_finished_at r;
  it_failure := it_failure r; it_score := it_score r |}.

Definition claim_slot_for_item (batch_id item_id slot_id ns : string) (db : FleetDB) : FleetDB * bool :=
  if (0 <? count_rows (on_slot slot_id) db)%nat then (db, false)
  else match db_items db !! (batch_id, item_id) with
       | Some r =>
           if decide (it_state r = QUEUED)
           then (with_items <[(batch_id, item_id) := assign slot_id ns r]> db, true)
           else (db, false)
       | None => (db, false)
       end.

Definition running_count (db : FleetDB) : Z := Z.of_nat (count_rows active db).

Definition busy_slot_ids (db : FleetDB) : list string :=
  dedup (omap (λ kv : string * string * ItemRow, if active kv.2 then it_slot_id kv.2 else None)
           (map_to_list (db_items db))).
