(* ===== verification/FleetScheduler.v ===== *)
(** * Scheduling and dispatch ([fleet_service/scheduler.py], [fleet_service/controller_client.py])

    Who owns a failure, which item is planned on which slot, and the dispatcher: one
    pass polls what runs, then hands queued items to idle slots. The Controllers behind
    the HTTP clients, the clock and [random.Random] are what the environment provides. *)

From Stdlib Require Import QArith.
From S2P Require Import Prelude Hoare PyFloat PyVal PyTime Progression FleetContracts.
From S2P Require Import FleetStore.

#[local] Open Scope Z_scope.

(** ** What the environment provides *)

Record ControllerError := {
  ce_message : string;
  ce_status : Z;
  ce_payload : val }.

Definition retryable (e : ControllerError) : bool :=
  existsb (Z.eqb (ce_status e)) [0; 408; 425; 429; 500; 502; 503; 504].

(** A call of a Controller answers with a JSON document or raises a [ControllerError]. *)
Inductive Reply := Answer (v : val) | Refused (e : ControllerError).

Record ControllerClient (W : Type) := {
  client_run : string → W → W * Reply;
  client_score : string → W → W * Reply;
  client_stop_run : string → W → W * Reply;
  client_prompt_variants : string → mapping → W → W * Reply;
  client_create_run : mapping → string → W → W * Reply }.
Arguments client_run {W}.
Arguments client_score {W}.
Arguments client_stop_run {W}.
Arguments client_prompt_variants {W}.
Arguments client_create_run {W}.

(** [random.Random]: seeded with a string, it picks an index and shuffles a list. *)
Class PyRandom (R : Type) := {
  random_seed : string → R;
  random_choice : R → nat → nat;
  random_shuffle : ∀ A, R → list A → R * list A;
  random_choice_lt : ∀ r n, (0 < n)%nat → (random_choice r n < n)%nat;
  random_shuffle_perm : ∀ A r (l : list A), snd (random_shuffle A r l) ≡ₚ l }.

(** ** Who owns a failure *)

Definition PLATFORM_REASON_CODES : list string :=
  ["STAGE2_PLATFORM_FAILED"; "STAGE2_PLATFORM_BLOCKED"; "STAGE2_PLATFORM_RESET_FAILED";
   "PREPARATION_FAILED"; "POST_TRIAL_ENVIRONMENT_NOT_READY"; "GATEWAY_SNAPSHOT_MISSING";
   "GATEWAY_EVIDENCE_MISSING"; "GATEWAY_ROUTE_VERSION"; "BLADEAI_MODEL_QUOTA_EXHAUSTED";
   "BLADEAI_SERVER_URL_MISSING"; "BLADEAI_SESSION_UNAVAILABLE";
   "BLADEAI_GATEWAY_CONFIG_REJECTED"; "RESET_FAILED"].

Definition AGENT_REASON_CODES : list string :=
  ["HARNESS_TIMEOUT"; "OUTPUT_UNSTRUCTURED"; "PERMISSION_DENIED_OBSERVED";
   "NODE_EVIDENCE_CONTRADICTED"; "AGENT_ABANDONED"; "SEMANTIC_NUDGE"].

Definition NEVER_RAN_PLATFORM_STATUSES : list string := ["BLOCKED"; "RESET_FAILED"].

Definition PLATFORM_REASON_FRAGMENTS : list string :=
  ["quota exhausted"; "rate limited"; "capacity temporarily unavailable";
   "gateway_probe_in_progress"; "temporarily unavailable"; "authentication or permission rejected"].

Definition TERMINAL_FAILURE_STATUSES : list string :=
  ["FAILED"; "ABORTED"; "RECOVERY_FAILED"; "INTERRUPTED"].

Inductive Owner := platform | agent.
Definition owner_value (o : Owner) : string := match o with platform => "platform" | agent => "agent" end.

#[export] Instance owner_eq_dec : EqDecision Owner.
Proof. solve_decision. Defined.

(** [any(fragment in text for fragment in fragments)] *)
Definition any_fragment (fragments : list string) (text : string) : bool :=
  existsb (λ f, str_contains f text) fragments.

Definition failure_text (failure : mapping) : string :=
  str_lower (str_or_empty (vget failure "reason") +:+ " " +:+
             str_or_empty (vget failure "controller_response")).

Definition classify_failure (failure : option mapping) (http_status : Z) (reason_codes : list val)
    (platform_status : string) : Owner :=
  if str_in platform_status NEVER_RAN_PLATFORM_STATUSES then platform
  else if existsb (λ code, str_in (py_str code) AGENT_REASON_CODES) reason_codes then agent
  else if existsb (Z.eqb http_status) [408; 425; 429; 500; 502; 503; 504]
          || ((http_status =? 0) && bool_decide (failure = None)) then platform
  else match failure with
       | None | Some [] => agent
       | Some f =>
           let code := str_or_empty (vget f "code") in
           if str_in code AGENT_REASON_CODES then agent
           else if str_in code PLATFORM_REASON_CODES then platform
           else if any_fragment PLATFORM_REASON_FRAGMENTS (failure_text f) then platform
           else agent
       end.

Definition UPSTREAM_TRANSIENT_FRAGMENTS : list string :=
  ["quota exhausted"; "quota is not enough"; "quota exceeded"; "insufficient_quota"; "rate limited";
   "rate limit exceeded"; "at capacity"; "capacity temporarily unavailable";
   "too many pending requests"; "temporarily unavailable"].

Definition UPSTREAM_DEFERRAL_LIMIT : Z := 30.

Definition _upstream_transient (error : ControllerError) : bool :=
  existsb (Z.eqb (ce_status error)) [422; 429; 503] &&
  any_fragment UPSTREAM_TRANSIENT_FRAGMENTS
    (str_lower (py_str (ce_payload error) +:+ " " +:+ ce_message error)).

Definition SLOT_NOT_READY_FRAGMENTS : list string :=
  ["gateway_probe_in_progress"; "model readiness is being checked"; "retry after the probe completes"].

Definition _slot_not_ready_yet (error : ControllerError) : bool :=
  (ce_status error =? 503) ||
  any_fragment SLOT_NOT_READY_FRAGMENTS (str_or_empty (ce_payload error)).

(** ** Planning *)

Record Assignment := {
  a_item_id : string;
  a_slot_id : string;
  a_namespace : string;
  a_wave : Z }.

#[export] Instance assignment_eq_dec : EqDecision Assignment.
Proof. solve_decision. Defined.

Definition is_ready (s : SlotRow) : bool := str_in (sl_phase s) ["Ready"; "Busy"].

(** [x or y] of an optional integer. *)
Definition z_or (x : option Z) (y : Z) : Z :=
  match x with Some z => if z =? 0 then y else z | None => y end.

Definition plan_concurrency (requested batch_limit : option Z) (ready : nat) : Z :=
  let n := Z.of_nat ready in
  Z.max 1 (Z.min (z_or requested (z_or batch_limit (z_or (Some n) 1))) (Z.max n 1)).

(** The pinned items with their slots, and the floating items. *)
Definition split_item (by_namespace : dict string SlotRow)
    (acc : list (string * SlotRow) * list string) (i : BatchItem)
    : result (list (string * SlotRow) * list string) :=
  let '(pinned, floating) := acc in
  match namespace i with
  | Some ns =>
      if nonempty ns then
        s ← opt_or_raise (dget ns by_namespace) ValueError
              ("item " +:+ FleetContracts.item_id i +:+ " pins namespace " +:+ ns
               +:+ ", which is not a Ready slot");
        Ok (pinned ++ [(FleetContracts.item_id i, s)], floating)
      else Ok (pinned, floating ++ [FleetContracts.item_id i])
  | None => Ok (pinned, floating ++ [FleetContracts.item_id i])
  end.

Abbreviation plan := (dict string Z * list Assignment)%type.

Definition load_of (load : dict string Z) (s : SlotRow) : Z := default 0 (dget (sl_slot_id s) load).

(** [wave = load\[slot\]; load\[slot\] += 1; assignments.append(...)] *)
Definition place (acc : plan) (item_id : string) (s : SlotRow) : plan :=
  let '(load, assignments) := acc in
  let wave := load_of load s in
  (dset (sl_slot_id s) (wave + 1) load,
   assignments ++ [{| a_item_id := item_id; a_slot_id := sl_slot_id s;
                      a_namespace := sl_namespace s; a_wave := wave |}]).

Definition lighter (load : dict string Z) (x y : SlotRow) : bool :=
  (load_of load x <? load_of load y) ||
  ((load_of load x =? load_of load y) && (sl_index x <? sl_index y)).

Definition place_floating (usable : list SlotRow) (acc : plan) (item_id : string) : result plan :=
  match usable with
  | [] => raise ValueError "no Ready slot is available for an unpinned item"
  | s0 :: rest => Ok (place acc item_id (min_by (lighter acc.1) s0 rest))
  end.

Definition slots_by_namespace (l : list SlotRow) : dict string SlotRow :=
  foldl (λ d s, dset (sl_namespace s) s d) [] l.

(** The position of an item in the request: the last one with its id. *)
Definition item_order (r : BatchRequest) (id : string) : nat :=
  (foldl (λ acc i, (S acc.1, if bool_decide (FleetContracts.item_id i = id) then acc.1 else acc.2))
     (0, 0) (FleetContracts.items r)).2%nat.

Definition assignment_leb (r : BatchRequest) (x y : Assignment) : bool :=
  if a_wave x =? a_wave y
  then (item_order r (a_item_id x) <=? item_order r (a_item_id y))%nat
  else a_wave x <? a_wave y.

Definition plan_batch {R} `{PyRandom R} (request : BatchRequest) (slots : list SlotRow)
    (max_concurrency : option Z) : result (list Assignment) :=
  let ready := List.filter is_ready slots in
  let concurrency := plan_concurrency max_concurrency (br_max_concurrency request) (length ready) in
  let rng := random_seed (batch_id request +:+ ":" +:+ pretty (Z.of_nat (length (FleetContracts.items request)))) in
  let '(rng, free) := random_shuffle _ rng ready in
  pf ← foldM (split_item (slots_by_namespace ready)) ([], []) (FleetContracts.items request);
  let '(pinned, floating) := pf in
  let '(_, floating) := random_shuffle _ rng floating in
  let load := map (λ s, (sl_slot_id s, 0)) ready in
  let placed := foldl (λ acc p, place acc p.1 p.2) (load, []) pinned in
  let usable := take (Z.to_nat concurrency) free in
  let usable := if empty usable then free else usable in
  final ← foldM (place_floating usable) placed floating;
  Ok (sort_by (assignment_leb request) final.2).

(** ** Run requests *)

(** [dict(v)] *)
Definition py_dict (v : val) : result mapping :=
  match v with
  | VDict d => Ok d
  | VList [] | VStr "" => Ok []
  | _ => raise TypeError ("cannot convert '" +:+ type_name v +:+ "' object to a dictionary")
  end.

Definition set_if_truthy (resolved : mapping) (k : string) (body : mapping) : mapping :=
  if truthy (vget resolved k) then dset k (vget resolved k) body else body.

(** The first variant of the wanted level. *)
Fixpoint find_variant (level : val) (variants : list val) : result val :=
  match variants with
  | [] => Ok VNone
  | v :: rest =>
      l ← attr_get v "level";
      if py_eq l level then val_item v "prompt" else find_variant level rest
  end.

Definition request_body (namespace : string) (resolved : mapping) : result (mapping * mapping) :=
  s ← vitem resolved "slots";
  slots ← py_dict s;
  d ← vitem resolved "duration_seconds";
  duration ← py_int d;
  let slots := dset "duration_seconds" (VInt duration) slots in
  level ← vitem resolved "autonomy_level";
  h ← vitem resolved "harness";
  m ← vitem resolved "model";
  tag ← vitem resolved "llm_tag";
  c ← vitem resolved "case";
  let body := [("autonomy_level", level); ("application", VStr namespace); ("harness", h); ("model", m);
               ("llm_tag", tag); ("duration_seconds", VInt duration); ("case", c)] in
  Ok (slots, set_if_truthy resolved "d6_variant"
               (set_if_truthy resolved "tool_substitution_variant" (set_if_truthy resolved "note" body))).

(** The prompt the replica renders, from its answer. *)
Definition canonical_prompt (resolved body : mapping) (variants : val)
    : result (mapping + ControllerError) :=
  l ← attr_get_or variants "variants" (VList []);
  vs ← py_list l;
  level ← vitem resolved "autonomy_level";
  prompt ← find_variant level vs;
  if is_none prompt then
    Ok (inr {| ce_message := "controller returned no " +:+ py_str level +:+ " prompt variant";
               ce_status := 500; ce_payload := VNone |})
  else
    id ← attr_get variants "variant_set_id";
    Ok (inl (dset "variant_set_id" id (dset "prompt" prompt body))).

Definition _stop_was_requested (r : ItemRow) : bool :=
  match it_failure r with VDict f => truthy (vget f "stop_requested") | _ => false end.

Definition SCORE_KEYS : list string :=
  ["run_id"; "verdict"; "trial_validity"; "platform_valid"; "recovery_status";
   "experiment_verdict"; "score_summary"; "reason_codes"].

Definition _score_summary (score : val) : option mapping :=
  match score with
  | VDict s =>
      let summary := omap (λ k, pair k <$> dget k s) SCORE_KEYS in
      Some (if empty summary then take 12 s else summary)
  | _ => None
  end.

Definition opt_map (o : option mapping) : val := match o with Some m => VDict m | None => VNone end.

(** ** The dispatcher *)

Record Environment (W : Type) := {
  env_now : W → W * Z;
  env_local_offset : Z;
  env_fromisoformat : string → option datetime;
  env_client : string → ControllerClient W }.
Arguments env_now {W}.
Arguments env_local_offset {W}.
Arguments env_fromisoformat {W}.
Arguments env_client {W}.

(** The store, [self._stopped_batches] and the world. *)
Record Dispatcher (W : Type) := {
  d_store : FleetDB;
  d_stopped : list string;
  d_world : W }.
Arguments d_store {W}.
Arguments d_stopped {W}.
Arguments d_world {W}.

Section dispatcher.
Context {W R : Type} `{PyRandom R} (env : Environment W) (trial_timeout_seconds : pyfloat).

Abbreviation fleet := (prog (Dispatcher W)).

Definition set_store (db : FleetDB) (s : Dispatcher W) : Dispatcher W :=
  {| d_store := db; d_stopped := d_stopped s; d_world := d_world s |}.
Definition store_read {A} (f : FleetDB → A) : fleet A := gets (λ s, f (d_store s)).
Definition store_write (f : FleetDB → FleetDB) : fleet unit := modify (λ s, set_store (f (d_store s)) s).

Definition outside {A} (f : W → W * A) : fleet A := λ s,
  let '(w, a) := f (d_world s) in
  ({| d_store := d_store s; d_stopped := d_stopped s; d_world := w |}, Ok a).

(** [datetime.now(UTC).isoformat()] *)
Definition utc_now : fleet string :=
  t ← outside (env_now env); mret (iso_utc (utc_of t) +:+ "+00:00").

Definition _elapsed (started_at : string) : fleet pyfloat :=
  match env_fromisoformat env started_at with
  | None => mret (FFin 0)
  | Some started =>
      t ← outside (env_now env);
      let now := match dt_offset started with
        | Some off => DateTime (t + off) (Some off)
        | None => DateTime (t + env_local_offset env) None
        end in
      d ← lift (dt_sub now started);
      lift (total_seconds d)
  end.

Definition request_stop (batch_id : string) : fleet unit :=
  modify (λ s, {| d_store := d_store s; d_stopped := d_stopped s ++ [batch_id]; d_world := d_world s |}).

Definition was_stopped (batch_id : string) : fleet bool :=
  gets (λ s, bool_decide (batch_id ∈ d_stopped s)).

(** [batch.get("request") or {}] of [self.store.batch(batch_id) or {}] *)
Definition batch_request (batch_id : string) : fleet val :=
  b ← store_read (batch batch_id);
  mret (py_or (match b with Some r => ba_request r | None => VNone end) (VDict [])).

Definition _finish_failed (batch_id item_id : string) (item : ItemRow) (failure : mapping)
    (owner : Owner) (score : val) : fleet unit :=
  request ← batch_request batch_id;
  limit ← lift (attr_get_or request "platform_retry_limit" (VInt 2));
  retry_limit ← lift (py_int limit);
  let record := dset "owner" (VStr (owner_value owner)) failure in
  if bool_decide (owner = platform) && (it_platform_retries item <? retry_limit) then
    store_write (update_item batch_id item_id
      [SetState QUEUED; SetSlotId None; SetRunId None; SetTaskId None; SetStartedAt None;
       SetPlatformRetries (it_platform_retries item + 1);
       SetFailure (VDict (dset "voided_and_requeued" (VBool true) record))])
  else
    now ← utc_now;
    store_write (update_item batch_id item_id
      [SetState FAILED; SetFinishedAt (Some now); SetFailure (VDict record); SetScore score]).

(** A run that is not terminal: it is [Running], and past the timeout it is stopped. *)
Definition poll_unfinished (batch_id item_id : string) (item : ItemRow) (client : ControllerClient W)
    (run_id : string) : fleet unit :=
  when (negb (bool_decide (it_state item = RUNNING)))
    (store_write (update_item batch_id item_id [SetState RUNNING])) ;;
  match it_started_at item with
  | None => mret tt
  | Some started =>
      if nonempty started then
        e ← _elapsed started;
        if flt trial_timeout_seconds e then outside (client_stop_run client run_id) ;; mret tt
        else mret tt
      else mret tt
  end.

(** A run that is terminal, from its summary. *)
Definition poll_finished (batch_id item_id : string) (item : ItemRow) (client : ControllerClient W)
    (run_id status : string) (summary : mapping) : fleet unit :=
  let reported := as_map (vget summary "failure") in
  let platform_status := str_or_empty (vget summary "platform_status") in
  s ← outside (client_score client run_id);
  let score := match s with Answer v => v | Refused _ => VNone end in
  let summarized := _score_summary score in
  reason_codes ← lift (py_list (py_or (vget (default [] summarized) "reason_codes") (VList [])));
  if negb (str_in platform_status [""; "COMPLETED"; "SUCCEEDED"]) then
    _finish_failed batch_id item_id item
      (dict_update [("code", VStr ("STAGE2_PLATFORM_" +:+ platform_status));
                   ("reason", VStr ("platform status " +:+ platform_status))] (default [] reported))
      (classify_failure reported 0 reason_codes platform_status) (opt_map summarized)
  else if str_in status TERMINAL_FAILURE_STATUSES then
    _finish_failed batch_id item_id item
      (match reported with Some (kv :: r) => kv :: r | _ => [("code", VStr status)] end)
      (classify_failure reported 0 reason_codes "") (opt_map summarized)
  else
    now ← utc_now;
    store_write (update_item batch_id item_id
      [SetState DONE; SetFinishedAt (Some now); SetFailure (opt_map reported);
       SetScore (opt_map summarized)]).

Definition _poll_item (batch_id item_id : string) (item : ItemRow) : fleet unit :=
  match it_run_id item, it_slot_id item with
  | Some run_id, Some slot_id =>
      if nonempty run_id && nonempty slot_id then
        sl ← store_read (slot slot_id);
        match sl with
        | None => mret tt
        | Some sl =>
            let client := env_client env (sl_controller_url sl) in
            answer ← outside (client_run client run_id);
            match answer with
            | Refused exc =>
                if retryable exc then mret tt
                else _finish_failed batch_id item_id item
                       [("code", VStr "FLEET_RUN_UNREADABLE"); ("reason", VStr (ce_message exc))]
                       platform VNone
            | Answer summary =>
                st ← lift (attr_get summary "status");
                terminal ← lift (attr_get summary "terminal");
                let status := str_or_empty st in
                if truthy terminal && _stop_was_requested item then
                  now ← utc_now;
                  store_write (update_item batch_id item_id
                    [SetState INVALID; SetFinishedAt (Some now);
                     SetFailure (VDict [("code", VStr "FLEET_BATCH_STOPPED"); ("owner", VStr "operator");
                                        ("reason", VStr "stopped by request"); ("task_status", VStr status)])])
                else if negb (truthy terminal) then
                  poll_unfinished batch_id item_id item client run_id
                else
                  poll_finished batch_id item_id item client run_id status
                    (default [] (as_map summary))
            end
        end
      else mret tt
  | _, _ => mret tt
  end.

Definition open_state (s : ItemState) : bool :=
  match s with QUEUED | ASSIGNED | RUNNING => true | _ => false end.

Definition _refresh_batch_state (batch_id : string) : fleet unit :=
  rows ← store_read (FleetStore.items batch_id);
  if empty rows then mret tt
  else
    stopped ← was_stopped batch_id;
    let state := if existsb (λ r, open_state (it_state r.2)) rows then "Running" else "Completed" in
    let state := if stopped && negb (bool_decide (state = "Completed")) then "Stopped" else state in
    b ← store_read (batch batch_id);
    if bool_decide (ba_state <$> b = Some state) then mret tt
    else now ← utc_now; store_write (set_batch_state now batch_id state).

Definition poll_row (batch_id : string) (polled : Z) (row : string * ItemRow) : fleet Z :=
  if active row.2 then _poll_item batch_id row.1 row.2 ;; mret (polled + 1) else mret polled.

Definition poll_batch (polled : Z) (b : BatchSummary) : fleet Z :=
  rows ← store_read (FleetStore.items (bs_batch_id b));
  n ← for_each (poll_row (bs_batch_id b)) polled rows;
  _refresh_batch_state (bs_batch_id b) ;;
  mret n.

Definition poll_running : fleet Z :=
  bs ← store_read batches; for_each poll_batch 0 bs.

(** The idle Ready slots an item may take. *)
Definition candidates (item : ItemRow) (sls : list SlotRow) (busy : list string) : list SlotRow :=
  let pinned := match it_resolved item with VDict d => vget d "namespace" | _ => VNone end in
  List.filter (λ s, bool_decide (sl_phase s = "Ready") && negb (bool_decide (sl_slot_id s ∈ busy))
                    && (negb (truthy pinned) || is_str pinned (sl_namespace s))) sls.

Definition _pick_slot (batch_id item_id : string) (item : ItemRow) (sls : list SlotRow)
    : fleet (option SlotRow) :=
  busy ← store_read busy_slot_ids;
  let l := sort_by (λ x y, sl_index x <=? sl_index y) (candidates item sls busy) in
  mret (l !! random_choice (random_seed (batch_id +:+ ":" +:+ item_id)) (length l)).

Definition build_run_request (client : ControllerClient W) (namespace : string) (resolved : mapping)
    : fleet (mapping + ControllerError) :=
  sb ← lift (request_body namespace resolved);
  let '(slots, body) := sb in
  if is_str (vget resolved "prompt_source") "manual" then
    prompt ← lift (vitem resolved "prompt");
    mret (inl (dset "slots" (VDict slots) (dset "prompt" prompt body)))
  else
    answer ← outside (client_prompt_variants client namespace slots);
    match answer with
    | Refused e => mret (inr e)
    | Answer variants => lift (canonical_prompt resolved body variants)
    end.

(** The [except ControllerError] of [_submit]. *)
Definition submit_refused (batch_id item_id : string) (item : ItemRow) (exc : ControllerError) : fleet bool :=
  let reason := VStr (ce_message exc) in
  if _slot_not_ready_yet exc then
    store_write (update_item batch_id item_id
      [SetState QUEUED; SetSlotId None;
       SetFailure (VDict [("code", VStr "FLEET_SLOT_NOT_READY"); ("reason", reason);
                          ("controller_response", ce_payload exc); ("deferred", VBool true)])]) ;;
    mret false
  else if _upstream_transient exc then
    d ← lift (attr_get (py_or (it_failure item) (VDict [])) "upstream_deferrals");
    n ← lift (py_int (py_or d (VInt 0)));
    let deferrals := n + 1 in
    let record := [("code", VStr "FLEET_UPSTREAM_UNAVAILABLE"); ("reason", reason);
                   ("controller_response", ce_payload exc); ("owner", VStr "platform");
                   ("upstream_deferrals", VInt deferrals)] in
    if deferrals <? UPSTREAM_DEFERRAL_LIMIT then
      store_write (update_item batch_id item_id
        [SetState QUEUED; SetSlotId None; SetFailure (VDict (dset "deferred" (VBool true) record))]) ;;
      mret false
    else _finish_failed batch_id item_id item record platform VNone ;; mret false
  else
    let detail := [("code", VStr "FLEET_SUBMIT_REJECTED"); ("reason", reason);
                   ("controller_response", ce_payload exc)] in
    if retryable exc then _finish_failed batch_id item_id item detail platform VNone ;; mret false
    else
      now ← utc_now;
      store_write (update_item batch_id item_id
        [SetState INVALID; SetFinishedAt (Some now);
         SetFailure (VDict (dset "owner" (VStr "agent") detail))]) ;;
      mret false.

(** What is recorded of a run the Controller accepted. *)
Definition submit_accepted (batch_id item_id : string) (item : ItemRow) (created : val) : fleet bool :=
  r ← lift (attr_get created "run_id");
  t ← lift (attr_get created "task_id");
  now ← utc_now;
  run_id ← lift (text_param r);
  task_id ← lift (text_param t);
  store_write (update_item batch_id item_id
    [SetState RUNNING; SetRunId run_id; SetTaskId task_id; SetStartedAt (Some now);
     SetAttempts (it_attempts item + 1); SetFailure VNone]) ;;
  mret true.

Definition _submit (batch_id item_id : string) (item : ItemRow) (sl : SlotRow) : fleet bool :=
  resolved ← lift (py_dict (it_resolved item));
  let client := env_client env (sl_controller_url sl) in
  body ← build_run_request client (sl_namespace sl) resolved;
  match body with
  | inr exc => submit_refused batch_id item_id item exc
  | inl body =>
      answer ← outside (client_create_run client body (batch_id +:+ "-" +:+ item_id));
      match answer with
      | Refused exc => submit_refused batch_id item_id item exc
      | Answer created => submit_accepted batch_id item_id item created
      end
  end.

Definition claim (batch_id item_id slot_id ns : string) : fleet bool := λ s,
  let '(db, b) := claim_slot_for_item batch_id item_id slot_id ns (d_store s) in (set_store db s, Ok b).

(** The items of one batch, until the concurrency limit breaks the loop. *)
Fixpoint dispatch_items (batch_id : string) (concurrency : Z) (sls : list SlotRow) (dispatched : Z)
    (rows : list (string * ItemRow)) : fleet Z :=
  match rows with
  | [] => mret dispatched
  | (item_id, item) :: rest =>
      if negb (bool_decide (it_state item = QUEUED)) then
        dispatch_items batch_id concurrency sls dispatched rest
      else
        running ← store_read running_count;
        if negb (concurrency =? 0) && (concurrency <=? running) then mret dispatched
        else
          sl ← _pick_slot batch_id item_id item sls;
          match sl with
          | None => dispatch_items batch_id concurrency sls dispatched rest
          | Some sl =>
              claimed ← claim batch_id item_id (sl_slot_id sl) (sl_namespace sl);
              if negb claimed then dispatch_items batch_id concurrency sls dispatched rest
              else
                sent ← _submit batch_id item_id item sl;
                dispatch_items batch_id concurrency sls (if (sent : bool) then dispatched + 1 else dispatched) rest
          end
  end.

(** [int((batch.get("request") or {}).get("max_concurrency") or 0)] of a row of [batches()]. *)
Definition batch_concurrency (b : BatchSummary) : result Z :=
  v ← attr_get (py_or (vget (summary_dict b) "request") (VDict [])) "max_concurrency";
  py_int (py_or v (VInt 0)).

Definition dispatch_batch (dispatched : Z) (b : BatchSummary) : fleet Z :=
  stopped ← was_stopped (bs_batch_id b);
  if str_in (bs_state b) ["Stopped"; "Completed"] || stopped then mret dispatched
  else
    concurrency ← lift (batch_concurrency b);
    sls ← store_read FleetStore.slots;
    rows ← store_read (FleetStore.items (bs_batch_id b));
    n ← dispatch_items (bs_batch_id b) concurrency sls dispatched rows;
    _refresh_batch_state (bs_batch_id b) ;;
    mret n.

Definition dispatch_queued : fleet Z :=
  bs ← store_read batches; for_each dispatch_batch 0 bs.

Definition tick : fleet (Z * Z) :=
  polled ← poll_running;
  dispatched ← dispatch_queued;
  mret (polled, dispatched).

(** ** The handlers of [fleet_service/api.py] that change batches *)

Definition action (item_id name : string) : mapping := [("item_id", VStr item_id); ("action", VStr name)].

(** One item of a batch that is stopped: what is reported of it. *)
Definition stop_item (batch_id : string) (reason : option string) (stopped : list mapping)
    (row : string * ItemRow) : fleet (list mapping) :=
  let '(item_id, item) := row in
  if bool_decide (it_state item = QUEUED) then
    store_write (update_item batch_id item_id
      [SetState INVALID; SetFailure (VDict [("code", VStr "FLEET_BATCH_STOPPED"); ("owner", VStr "platform")])]) ;;
    mret (stopped ++ [action item_id "dequeued"])
  else if active item && nonempty (default "" (it_run_id item)) && nonempty (default "" (it_slot_id item)) then
    sl ← store_read (slot (default "" (it_slot_id item)));
    match sl with
    | None => mret stopped
    | Some sl =>
        answer ← outside (client_stop_run (env_client env (sl_controller_url sl)) (default "" (it_run_id item)));
        match answer with
        | Refused exc => mret (stopped ++ [action item_id "stop_failed" ++ [("error", VStr (ce_message exc))]])
        | Answer _ =>
            store_write (update_item batch_id item_id
              [SetFailure (VDict [("code", VStr "FLEET_BATCH_STOPPED"); ("owner", VStr "operator");
                 ("reason", VStr (default "stopped by request" reason)); ("stop_requested", VBool true)])]) ;;
            mret (stopped ++ [action item_id "stop_requested"])
        end
    end
  else mret stopped.

Definition stop_batch (batch_id : string) (reason : option string) : fleet mapping :=
  b ← store_read (batch batch_id);
  match b with
  | None => throw (OtherError "HTTPException") ("unknown batch: " +:+ batch_id)
  | Some _ =>
      request_stop batch_id ;;
      rows ← store_read (FleetStore.items batch_id);
      stopped ← for_each (stop_item batch_id reason) [] rows;
      now ← utc_now;
      store_write (set_batch_state now batch_id "Stopped") ;;
      now' ← utc_now;
      store_write (audit_event now' "stop_batch" None false "api"
        (Some [("batch_id", VStr batch_id); ("items", VInt (Z.of_nat (length stopped)))])) ;;
      mret [("schema_version", VStr "fleet-batch-stop.v1"); ("batch_id", VStr batch_id);
            ("stopped", VList (map VDict stopped))]
  end.

(** The item as it is stored: on the namespace it is pinned to, or planned for. *)
Definition planned_item (request : BatchRequest) (assignments : list Assignment) (i : BatchItem)
    : result mapping :=
  a ← opt_or_raise (list_find (λ a, a_item_id a = FleetContracts.item_id i) assignments) KeyError
        (FleetContracts.item_id i);
  let r := resolved request i in
  Ok (dset "planned_wave" (VInt (a_wave a.2)) (dset "planned_slot_id" (VStr (a_slot_id a.2))
       (dset "namespace" (py_or (vget r "namespace") (VStr (a_namespace a.2))) r))).

Definition opt_int (o : option Z) : val := match o with Some z => VInt z | None => VNone end.

Definition batch_defaults_dump (d : BatchDefaults) : mapping :=
  [("model", VStr (d_model d)); ("llm_tag", opt_str (d_llm_tag d));
   ("duration_seconds", VInt (d_duration_seconds d));
   ("prompt_source", VStr (source_value (d_prompt_source d))); ("repetitions", VInt (d_repetitions d));
   ("slots", VDict (fault_slots_dump (d_slots d))); ("note", opt_str (d_note d))].

Definition batch_item_dump (i : BatchItem) : mapping :=
  [("item_id", VStr (FleetContracts.item_id i)); ("namespace", opt_str (namespace i));
   ("test_kind", VStr (kind_value (test_kind i)));
   ("autonomy_level", VStr (level_value (autonomy_level i))); ("case", VStr (FleetContracts.case i));
   ("tool_substitution_variant", opt_variant (tool_substitution_variant i));
   ("d6_variant", opt_variant (d6_variant i)); ("harness", VStr (harness_value (harness i)));
   ("model", opt_str (model i)); ("llm_tag", opt_str (llm_tag i));
   ("duration_seconds", opt_int (duration_seconds i)); ("prompt", opt_str (prompt i));
   ("prompt_source", match prompt_source i with Some s => VStr (source_value s) | None => VNone end);
   ("repetition", VInt (repetition i)); ("note", opt_str (note i))].

Definition batch_request_dump (r : BatchRequest) : mapping :=
  [("schema_version", VStr "fleet-batch.v1"); ("batch_id", VStr (batch_id r));
   ("cluster", VStr (cluster r)); ("max_concurrency", opt_int (br_max_concurrency r));
   ("platform_retry_limit", VInt (platform_retry_limit r));
   ("defaults", VDict (batch_defaults_dump (defaults r)));
   ("items", VList (map (λ i, VDict (batch_item_dump i)) (FleetContracts.items r)))].

(** [submit_batch] when it is not a dry run; [false] when the batch was there already. *)
Definition submit_batch (config : FleetConfig) (request : BatchRequest) : fleet bool :=
  existing ← store_read (batch (batch_id request));
  match existing with
  | Some _ => mret false
  | None =>
      sls ← store_read FleetStore.slots;
      let limit := z_or (br_max_concurrency request) (max_concurrency config) in
      assignments ← lift (plan_batch request sls (Some limit));
      resolved_items ← lift (mapM (planned_item request assignments) (FleetContracts.items request));
      let document := dset "max_concurrency" (VInt limit) (batch_request_dump request) in
      now ← utc_now;
      (λ s, match create_batch now (batch_id request) document resolved_items (d_store s) with
            | Ok db => (set_store db s, Ok tt)
            | Err e => (s, Err e)
            end) ;;
      now' ← utc_now;
      store_write (audit_event now' "submit_batch" None false "api"
        (Some [("batch_id", VStr (batch_id request)); ("items", VInt (Z.of_nat (length resolved_items)))])) ;;
      dispatch_queued ;;
      mret true
  end.
End dispatcher.
