(* ===== verification/FleetDispatch.v ===== *)
(** * What the Fleet's dispatcher guarantees

    The invariant of the item table that every pass of the dispatcher and every
    handler keeps, whatever the Controllers answer: two active items never share a
    slot, and an item is retried and submitted within its batch's limits. *)

From Stdlib Require Import QArith.
From S2P Require Import Prelude Hoare PyFloat PyVal PyTime Progression FleetContracts.
From S2P Require Import FleetStore FleetScheduler.

#[local] Open Scope Z_scope.

(** ** The invariant *)

(** The retry limit of a batch, as [_finish_failed] reads it. *)
Definition batch_limit (db : FleetDB) (batch_id : string) : result Z :=
  limit ← attr_get_or (py_or (match batch batch_id db with Some r => ba_request r | None => VNone end)
                             (VDict [])) "platform_retry_limit" (VInt 2);
  py_int limit.

(** A row's counters: accepted submissions against retries, retries against the limit. *)
Record row_ok (lim : result Z) (r : ItemRow) : Prop := {
  ro_attempts : 0 <= it_attempts r;
  ro_retries : 0 <= it_platform_retries r;
  ro_submitted : it_attempts r <=
    it_platform_retries r + match it_state r with QUEUED | ASSIGNED => 0 | _ => 1 end;
  ro_limit : ∀ l, lim = Ok l → it_platform_retries r <= Z.max 0 l;
  ro_slot : active r = true → is_Some (it_slot_id r) }.

Definition one_active (db : FleetDB) : Prop := ∀ k1 k2 r1 r2 s,
  db_items db !! k1 = Some r1 → db_items db !! k2 = Some r2 →
  on_slot s r1 = true → on_slot s r2 = true → k1 = k2.

Record fleet_inv (db : FleetDB) : Prop := {
  fi_one : one_active db;
  fi_rows : ∀ k r, db_items db !! k = Some r → row_ok (batch_limit db k.1) r;
  fi_batches : ∀ k, is_Some (db_items db !! k) → is_Some (db_batches db !! k.1) }.

(** ** One change of one row *)

Definition good (lim : result Z) (r r' : ItemRow) : Prop :=
  (row_ok lim r → row_ok lim r') ∧
  (active r' = true → active r = true ∧ it_slot_id r' = it_slot_id r).

Definition step_row (k : string * string) (db db' : FleetDB) : Prop :=
  db' = db ∨ ∃ r r', db_items db !! k = Some r ∧ db' = with_items <[k := r']> db ∧
                     good (batch_limit db k.1) r r'.

(** The same rows but that of [k], and the same limits. *)
Definition framed (k : string * string) (db db' : FleetDB) : Prop :=
  (∀ k', k' ≠ k → db_items db' !! k' = db_items db !! k') ∧
  db_slots db' = db_slots db ∧ db_batches db' = db_batches db.

Lemma step_framed k db db' : step_row k db db' → framed k db db'.
Proof.
  intros [->|(r & r' & _ & -> & _)]; split_and!; try done. intros k' Hk. cbn. by apply lookup_insert_ne.
Qed.

Lemma on_slot_iff s r : on_slot s r = true ↔ active r = true ∧ it_slot_id r = Some s.
Proof. unfold on_slot. by rewrite andb_true_iff, bool_decide_eq_true. Qed.

Lemma step_inv k db db' : fleet_inv db → step_row k db db' → fleet_inv db'.
Proof.
  intros Hinv [->|(r & r' & Hr & -> & Hok & Hact)]; [done|]. split.
  - intros k1 k2 r1 r2 s. cbn [with_items db_items]. rewrite !lookup_insert.
    assert (on_slot s r' = true → on_slot s r = true) as Hback.
    { rewrite !on_slot_iff. intros [Ha Hs]. destruct (Hact Ha) as [Ha' <-]. done. }
    repeat case_decide; subst; intros H1 H2 Hs1 Hs2; simplify_eq; [done|..];
      by eapply (fi_one _ Hinv); eauto.
  - intros k' r0. cbn [with_items db_items]. rewrite lookup_insert. case_decide; subst.
    + intros [= <-]. by apply Hok, (fi_rows _ Hinv).
    + apply (fi_rows _ Hinv).
  - intros k'. cbn [with_items db_items db_batches]. rewrite lookup_insert. case_decide; subst.
    + intros _. apply (fi_batches _ Hinv). by rewrite Hr.
    + apply (fi_batches _ Hinv).
Qed.

Lemma update_step b i ups db r :
  db_items db !! (b, i) = Some r → good (batch_limit db b) r (foldl set_column r ups) →
  step_row (b, i) db (update_item b i ups db).
Proof.
  intros Hr Hg. unfold update_item. destruct (empty ups) eqn:E; [by left|]. right.
  exists r, (foldl set_column r ups). split_and!; [done| |done].
  unfold with_items. f_equal. apply map_eq. intros k. rewrite lookup_alter, lookup_insert.
  repeat case_decide; subst; try done. by rewrite Hr.
Qed.

(** ** Rows read, claims and batch states *)

Lemma items_lookup b i r db : (i, r) ∈ FleetStore.items b db ↔ db_items db !! (b, i) = Some r.
Proof.
  unfold FleetStore.items. rewrite elem_of_sort_by, list_elem_of_omap.
  setoid_rewrite <- elem_of_map_to_list. split.
  - intros ([[b' i'] r'] & Hin & E). cbn in *. case_decide; [|done]. by simplify_eq.
  - intros Hin. exists ((b, i), r). split; [done|]. cbn. by rewrite decide_True.
Qed.

Lemma items_NoDup b db : NoDup (FleetStore.items b db).*1.
Proof.
  unfold FleetStore.items. rewrite sort_by_Permutation.
  pose proof (NoDup_fst_map_to_list (db_items db)) as Hnd. revert Hnd.
  generalize (map_to_list (db_items db)). intros l. induction l as [|[[b' i] r] l IH]; [constructor|].
  cbn. rewrite NoDup_cons. intros [Hk Hnd]. specialize (IH Hnd). case_decide; [|done].
  subst b'. apply NoDup_cons. split; [|done].
  intros ([i' r'] & E & Hin)%list_elem_of_fmap. cbn in E. subst i'. apply Hk.
  apply list_elem_of_omap in Hin as ([[b' i'] r''] & Hin & E). cbn in E. case_decide; [|done].
  simplify_eq. apply list_elem_of_fmap. by exists ((b, i), r').
Qed.

(** The rows of a loop are those of the table. *)
Definition rows_at (b : string) (rows : list (string * ItemRow)) (db : FleetDB) : Prop :=
  NoDup rows.*1 ∧ Forall (λ row, db_items db !! (b, row.1) = Some row.2) rows.

Lemma items_rows_at b db : rows_at b (FleetStore.items b db) db.
Proof.
  split; [apply items_NoDup|]. apply Forall_forall. intros [i r]. apply items_lookup.
Qed.

Lemma rows_at_tail b x rows db db' :
  rows_at b (x :: rows) db → framed (b, x.1) db db' → rows_at b rows db'.
Proof.
  intros [Hnd Hall] [Hf _]. cbn in Hnd. apply NoDup_cons in Hnd as [Hx Hnd].
  apply Forall_cons in Hall as [_ Hall]. split; [done|].
  apply Forall_forall. intros y Hy. rewrite Forall_forall in Hall. rewrite Hf; [by apply Hall|].
  intros [= E]. apply Hx. rewrite <- E. apply list_elem_of_fmap. by exists y.
Qed.

Lemma count_rows_0 p db :
  count_rows p db = 0%nat → ∀ k r, db_items db !! k = Some r → p r = false.
Proof.
  unfold count_rows. intros H k r Hr. apply length_zero_iff_nil in H.
  apply not_true_iff_false. intros Hp.
  assert (List.In (k, r) (List.filter (λ kv, p kv.2) (map_to_list (db_items db)))) as Hin.
  { apply List.filter_In. split; [|done]. by apply list_elem_of_In, elem_of_map_to_list. }
  by rewrite H in Hin.
Qed.

Lemma claim_spec b i s ns db db' ok : fleet_inv db → claim_slot_for_item b i s ns db = (db', ok) →
  fleet_inv db' ∧ framed (b, i) db db' ∧
  (if ok then (∀ k r, db_items db !! k = Some r → on_slot s r = false) ∧
     ∃ r, db_items db !! (b, i) = Some r ∧ it_state r = QUEUED ∧
       db_items db' !! (b, i) = Some (assign s ns r) else db' = db).
Proof.
  intros Hinv. unfold claim_slot_for_item.
  assert (∀ d, fleet_inv d → fleet_inv d ∧ framed (b, i) d d ∧ d = d) as Hsame by done.
  destruct (_ <? _)%nat eqn:Ec; [intros [= <- <-]; by apply Hsame|].
  destruct (db_items db !! (b, i)) as [r|] eqn:Er; [|intros [= <- <-]; by apply Hsame].
  destruct (decide (it_state r = QUEUED)) as [Hq|]; [|intros [= <- <-]; by apply Hsame].
  intros [= <- <-]. apply Nat.ltb_ge in Ec.
  pose proof (count_rows_0 (on_slot s) db ltac:(lia)) as Hidle.
  assert (∀ s', on_slot s' (assign s ns r) = true → s' = s) as Hs.
  { intros s' [_ [= ->]]%on_slot_iff. done. }
  split_and!; try done.
  - split.
    + intros k1 k2 r1 r2 s'. cbn [with_items db_items]. rewrite !lookup_insert.
      repeat case_decide; subst; intros H1 H2 Hs1 Hs2; simplify_eq; [done|..].
      * rewrite (Hs _ Hs1) in Hs2. by rewrite (Hidle _ _ H2) in Hs2.
      * rewrite (Hs _ Hs2) in Hs1. by rewrite (Hidle _ _ H1) in Hs1.
      * by eapply (fi_one _ Hinv).
    + intros k r0. cbn [with_items db_items]. rewrite lookup_insert. case_decide; subst.
      * intros [= <-]. destruct (fi_rows _ Hinv _ _ Er) as [H1 H2 H3 H4 H5].
        rewrite Hq in H3. by constructor.
      * apply (fi_rows _ Hinv).
    + intros k. cbn [with_items db_items db_batches]. rewrite lookup_insert. case_decide; subst.
      * intros _. apply (fi_batches _ Hinv). by rewrite Er.
      * apply (fi_batches _ Hinv).
  - split; [|done]. intros k Hk. cbn. by apply lookup_insert_ne.
  - exists r. split_and!; [done..|]. cbn. by rewrite lookup_insert_eq.
Qed.

Lemma set_batch_state_limit now b st db b' :
  batch_limit (set_batch_state now b st db) b' = batch_limit db b'.
Proof.
  unfold batch_limit, batch, set_batch_state, with_batches. cbn. rewrite lookup_alter.
  case_decide; subst; [|done]. by destruct (db_batches db !! _).
Qed.

Lemma set_batch_state_inv now b st db : fleet_inv db → fleet_inv (set_batch_state now b st db).
Proof.
  intros [H1 H2 H3]. split; [done| |].
  - intros k r Hr. rewrite set_batch_state_limit. by apply H2.
  - intros k Hk. specialize (H3 k Hk). unfold set_batch_state, with_batches. cbn in *.
    rewrite lookup_alter. case_decide; subst; [|done]. by destruct (db_batches db !! _).
Qed.

Section dispatch.
Context {W R : Type} `{PyRandom R} (env : Environment W) (trial_timeout_seconds : pyfloat).

Abbreviation fleet := (prog (Dispatcher W)).

(** ** Effects of one item's program

    [effect k db st m]: from the store [db], [m] ends (returning or raising) with at most
    one good change of the row [k]; [quiet]: with none. *)
Definition effect {A} (k : string * string) (db : FleetDB) (st : list string) (m : fleet A) : Prop :=
  ∀ s, d_store s = db → d_stopped s = st →
       step_row k db (d_store (m s).1) ∧ d_stopped (m s).1 = st.

Definition quiet {A} (m : fleet A) : Prop :=
  ∀ s, d_store (m s).1 = d_store s ∧ d_stopped (m s).1 = d_stopped s.

Lemma quiet_effect {A} k db st (m : fleet A) : quiet m → effect k db st m.
Proof. intros Hm s <- <-. destruct (Hm s) as [-> ->]. split; [by left|done]. Qed.

Lemma quiet_bind {A B} (m : fleet A) (f : A → fleet B) : quiet m → (∀ a, quiet (f a)) → quiet (m ≫= f).
Proof.
  intros Hm Hf s. rewrite prog_bind_eq. specialize (Hm s). destruct (m s) as [s' [a|e]]; [|done].
  destruct (Hf a s') as [E1 E2], Hm as [E3 E4]. cbn in *. by rewrite E1, E2, E3, E4.
Qed.

Lemma effect_bind {A B} k db st (m : fleet A) (f : A → fleet B) :
  quiet m → (∀ a, effect k db st (f a)) → effect k db st (m ≫= f).
Proof.
  intros Hm Hf s Hs Hst. rewrite prog_bind_eq. specialize (Hm s). destruct (m s) as [s' [a|e]]; cbn in Hm.
  - destruct Hm as [E1 E2]. apply Hf; congruence.
  - destruct Hm as [E1 E2]. cbn. rewrite E1, E2. by split; [left|].
Qed.

Lemma effect_then {A B} k db st (m : fleet A) (f : A → fleet B) :
  effect k db st m → (∀ a, quiet (f a)) → effect k db st (m ≫= f).
Proof.
  intros Hm Hf s Hs Hst. rewrite prog_bind_eq. specialize (Hm s Hs Hst).
  destruct (m s) as [s' [a|e]]; [|done]. destruct (Hf a s') as [E1 E2], Hm as [E3 E4].
  cbn in *. by rewrite E1, E2.
Qed.

Lemma quiet_ret {A} (a : A) : quiet (mret a).
Proof. done. Qed.
Lemma quiet_lift {A} (r : result A) : quiet (lift r).
Proof. done. Qed.
Lemma quiet_read {A} (f : FleetDB → A) : quiet (store_read f).
Proof. done. Qed.
Lemma quiet_outside {A} (f : W → W * A) : quiet (outside f).
Proof. intros s. unfold outside. by destruct (f (d_world s)). Qed.
Lemma quiet_utc_now : quiet (utc_now env).
Proof. apply quiet_bind; [apply quiet_outside|intros; apply quiet_ret]. Qed.
Lemma quiet_elapsed t : quiet (_elapsed env t).
Proof.
  unfold _elapsed. destruct (env_fromisoformat env t); [|done].
  apply quiet_bind; [apply quiet_outside|]. intros. by apply quiet_bind.
Qed.

Hint Resolve quiet_ret quiet_lift quiet_read quiet_outside quiet_utc_now quiet_elapsed : quiet.

Lemma write_effect b i ups db st r :
  db_items db !! (b, i) = Some r → good (batch_limit db b) r (foldl set_column r ups) →
  effect (b, i) db st (store_write (update_item b i ups)).
Proof. intros Hr Hg s <- <-. split; [by eapply update_step|done]. Qed.

(** The row keeps its slot, or is not active any more. *)
Ltac good_row := split; [intros []; constructor; cbn in *; try done; try lia | cbn; try done].

Lemma finish_failed_effect b i item f o sc db st r :
  db_items db !! (b, i) = Some r → it_platform_retries r = it_platform_retries item →
  effect (b, i) db st (_finish_failed env b i item f o sc).
Proof.
  intros Hr Hre s Hs Hst. unfold _finish_failed.
  set (req := py_or (match batch b db with Some r => ba_request r | None => VNone end) (VDict [])).
  rewrite (run_ok (batch_request b) _ s s req) by (unfold req; by rewrite <- Hs).
  destruct (attr_get_or req "platform_retry_limit" (VInt 2)) as [v|e] eqn:E1; [|cbn; by split; [left|]].
  rewrite (run_lift (Ok v) v) by done.
  destruct (py_int v) as [l|e] eqn:E2; [|cbn; by split; [left|]].
  rewrite (run_lift (Ok l) l) by done.
  assert (batch_limit db b = Ok l) as Hl by (unfold batch_limit; fold req; by rewrite E1, bind_ok).
  destruct (_ && _) eqn:E.
  - apply andb_true_iff in E as [_ E]. bool_to_prop.
    eapply write_effect; [done| |done|done]. good_row.
    + destruct (it_state r); lia.
    + intros l' Hl'. assert (l' = l) as -> by congruence. lia.
  - eapply effect_bind; [auto with quiet| |done|done]. intros now.
    eapply write_effect; [done|]. good_row. destruct (it_state r); lia.
Qed.

(** ** Polling *)

Lemma poll_unfinished_effect b i item c run_id db st :
  db_items db !! (b, i) = Some item → active item = true →
  effect (b, i) db st (poll_unfinished env trial_timeout_seconds b i item c run_id).
Proof.
  intros Hr Ha. unfold poll_unfinished. apply effect_then.
  - unfold when. case_match; [|by apply quiet_effect].
    eapply write_effect; [done|]. good_row.
    + unfold active in Ha. destruct (it_state item); cbn in Ha; try done; lia.
    + auto.
  - intros _. destruct (it_started_at item) as [t|]; [|done]. case_match; [|done].
    apply quiet_bind; [auto with quiet|]. intros e. case_match; [|done].
    apply quiet_bind; auto with quiet.
Qed.

Lemma poll_finished_effect b i item c run_id status summary db st :
  db_items db !! (b, i) = Some item →
  effect (b, i) db st (poll_finished env b i item c run_id status summary).
Proof.
  intros Hr. unfold poll_finished. apply effect_bind; [auto with quiet|]. intros sc.
  apply effect_bind; [auto with quiet|]. intros codes.
  case_match; [by eapply finish_failed_effect|]. case_match; [by eapply finish_failed_effect|].
  apply effect_bind; [auto with quiet|]. intros now. eapply write_effect; [done|].
  good_row. destruct (it_state item); lia.
Qed.

Lemma poll_item_effect b i item db st :
  db_items db !! (b, i) = Some item → active item = true →
  effect (b, i) db st (_poll_item env trial_timeout_seconds b i item).
Proof.
  intros Hr Ha. unfold _poll_item.
  destruct (it_run_id item) as [run_id|]; [|by apply quiet_effect].
  destruct (it_slot_id item) as [slot_id|]; [|by apply quiet_effect].
  case_match; [|by apply quiet_effect]. apply effect_bind; [auto with quiet|].
  intros [sl|]; [|by apply quiet_effect]. apply effect_bind; [auto with quiet|].
  intros [summary|exc].
  - apply effect_bind; [auto with quiet|]. intros stv. apply effect_bind; [auto with quiet|].
    intros terminal. case_match; [|case_match].
    + apply effect_bind; [auto with quiet|]. intros now. eapply write_effect; [done|].
      good_row. destruct (it_state item); lia.
    + by apply poll_unfinished_effect.
    + by apply poll_finished_effect.
  - case_match; [by apply quiet_effect|]. by eapply finish_failed_effect.
Qed.

(** ** Submitting: the row has just been assigned *)

Lemma submit_refused_effect b i item exc db st r :
  db_items db !! (b, i) = Some r → it_platform_retries r = it_platform_retries item →
  it_state r = ASSIGNED → effect (b, i) db st (submit_refused env b i item exc).
Proof.
  intros Hr Hre Hst'. unfold submit_refused.
  case_match; [|case_match; [|case_match]].
  - apply effect_then; [|auto with quiet]. eapply write_effect; [done|].
    good_row. rewrite Hst' in *. lia.
  - apply effect_bind; [auto with quiet|]. intros d. apply effect_bind; [auto with quiet|]. intros n.
    case_match; (apply effect_then; [|auto with quiet]); [|by eapply finish_failed_effect].
    eapply write_effect; [done|]. good_row. rewrite Hst' in *. lia.
  - apply effect_then; [|auto with quiet]. by eapply finish_failed_effect.
  - apply effect_bind; [auto with quiet|]. intros now. apply effect_then; [|auto with quiet].
    eapply write_effect; [done|]. good_row. rewrite Hst' in *. lia.
Qed.

Lemma submit_accepted_effect b i item created db st r :
  db_items db !! (b, i) = Some r → it_attempts r = it_attempts item → it_state r = ASSIGNED →
  effect (b, i) db st (submit_accepted env b i item created).
Proof.
  intros Hr Hat Hst'. unfold submit_accepted.
  do 5 (apply effect_bind; [auto with quiet|]; intros ?).
  apply effect_then; [|auto with quiet]. eapply write_effect; [done|]. good_row.
  - rewrite Hst' in *. lia.
  - unfold active in *. rewrite Hst' in *. auto.
  - intros _. unfold active. by rewrite Hst'.
Qed.

Lemma quiet_build c ns resolved : quiet (build_run_request c ns resolved).
Proof.
  unfold build_run_request. apply quiet_bind; [auto with quiet|]. intros [sl body].
  case_match; [apply quiet_bind; auto with quiet|].
  apply quiet_bind; [auto with quiet|]. intros []; auto with quiet.
Qed.

Lemma submit_effect b i item sl db st r :
  db_items db !! (b, i) = Some r → it_attempts r = it_attempts item →
  it_platform_retries r = it_platform_retries item → it_state r = ASSIGNED →
  effect (b, i) db st (_submit env b i item sl).
Proof.
  intros. unfold _submit. apply effect_bind; [auto with quiet|]. intros resolved.
  apply effect_bind; [apply quiet_build|]. intros [body|exc]; [|by eapply submit_refused_effect].
  apply effect_bind; [auto with quiet|].
  intros [created|exc]; [by eapply submit_accepted_effect|by eapply submit_refused_effect].
Qed.

(** ** Stopping a batch *)

Lemma stop_item_effect b i item reason acc db st :
  db_items db !! (b, i) = Some item →
  effect (b, i) db st (stop_item env b reason acc (i, item)).
Proof.
  intros Hr. unfold stop_item. case_bool_decide as Hq; [|case_match; [|by apply quiet_effect]].
  - apply effect_then; [|auto with quiet]. eapply write_effect; [done|].
    good_row. rewrite Hq in *. lia.
  - apply effect_bind; [auto with quiet|]. intros [sl|]; [|by apply quiet_effect].
    apply effect_bind; [auto with quiet|]. intros [v|exc]; [|by apply quiet_effect].
    apply effect_then; [|auto with quiet]. eapply write_effect; [done|]. good_row.
Qed.

(** ** The loops

    [keeps b Q]: the fact [Q] about the item table survives a change of one row of the
    batch [b]. *)
Definition keeps (b : string) (Q : gmap (string * string) ItemRow → list string → Prop) : Prop :=
  ∀ i m m' st, Q m st → (∀ k, k ≠ (b, i) → m' !! k = m !! k) → Q m' st.

Definition inv_and (Q : gmap (string * string) ItemRow → list string → Prop) (s : Dispatcher W) : Prop :=
  fleet_inv (d_store s) ∧ Q (db_items (d_store s)) (d_stopped s).

Lemma effect_inv b i Q s s' : keeps b Q → inv_and Q s →
  step_row (b, i) (d_store s) (d_store s') → d_stopped s' = d_stopped s → inv_and Q s'.
Proof.
  intros HQ [Hinv Hq] Hstep Hst. split; [by eapply step_inv|]. rewrite Hst.
  eapply HQ; [done|]. by apply step_framed in Hstep as [Hf _].
Qed.

Lemma quiet_inv {A} (m : fleet A) Q : quiet m → triple (inv_and Q) m (λ _, inv_and Q) (inv_and Q).
Proof.
  intros Hm s Hs. specialize (Hm s). destruct (m s) as [s' [a|e]], Hm as [E1 E2]; cbn in *;
    unfold inv_and in *; by rewrite E1, E2.
Qed.

Lemma row_loop {A} b (f : A → string * ItemRow → fleet A) Q rows acc : keeps b Q →
  (∀ acc x db st, db_items db !! (b, x.1) = Some x.2 → effect (b, x.1) db st (f acc x)) →
  triple (λ s, inv_and Q s ∧ rows_at b rows (d_store s)) (for_each f acc rows)
         (λ _, inv_and Q) (inv_and Q).
Proof.
  intros HQ Hf. apply (triple_post _ _ _ (λ _ s, inv_and Q s ∧ rows_at b [] (d_store s)) _ (inv_and Q));
    [|by intros a s [Hs _]|done].
  apply (triple_for_each f (λ rows s, inv_and Q s ∧ rows_at b rows (d_store s))).
  clear rows acc. intros acc x rows s [Hs Hrows].
  pose proof (proj2 Hrows) as Hx. apply Forall_inv in Hx.
  destruct (Hf acc x _ _ Hx s eq_refl eq_refl) as [Hstep Hst].
  destruct (f acc x s) as [s' [a|e]]; cbn in *; [split|]; try by eapply effect_inv.
  eapply rows_at_tail; [done|]. by apply step_framed.
Qed.

Lemma refresh_inv b Q : triple (inv_and Q) (_refresh_batch_state env b) (λ _, inv_and Q) (inv_and Q).
Proof.
  unfold _refresh_batch_state.
  eapply triple_bind; [apply quiet_inv; auto with quiet|]. intros rows. cbn beta.
  case_match; [apply quiet_inv; auto with quiet|].
  eapply triple_bind; [by apply quiet_inv|]. intros stopped. cbn beta.
  eapply triple_bind; [apply quiet_inv; auto with quiet|]. intros ba. cbn beta.
  case_match; [apply quiet_inv; auto with quiet|].
  eapply triple_bind; [apply quiet_inv; auto with quiet|]. intros now. cbn beta.
  apply triple_modify. intros s [Hinv HQ]. split; [by apply set_batch_state_inv|done].
Qed.

Lemma read_rows {A} b Q (f : list (string * ItemRow) → fleet A) R' :
  (∀ rows, triple (λ s, inv_and Q s ∧ rows_at b rows (d_store s)) (f rows) R' (inv_and Q)) →
  triple (inv_and Q) (store_read (FleetStore.items b) ≫= f) R' (inv_and Q).
Proof.
  intros Hf s Hs. rewrite prog_bind_eq. cbn. apply Hf. split; [done|]. apply items_rows_at.
Qed.

(** *** One pass over the running items *)
Lemma poll_running_inv Q : (∀ b, keeps b Q) →
  triple (inv_and Q) (poll_running env trial_timeout_seconds) (λ _, inv_and Q) (inv_and Q).
Proof.
  intros HQ. unfold poll_running.
  eapply triple_bind; [apply quiet_inv; auto with quiet|]. intros bs. cbn beta.
  apply (triple_for_each _ (λ _, inv_and Q)). intros polled b l. cbn beta. unfold poll_batch.
  apply read_rows. intros rows. eapply triple_bind.
  - apply row_loop; [done|]. intros n [i item] db st Hx. unfold poll_row. cbn [fst snd] in *.
    case_match; [|by apply quiet_effect].
    apply effect_then; [by apply poll_item_effect|auto with quiet].
  - intros n. eapply triple_bind; [apply refresh_inv|]. intros u. by apply triple_ret.
Qed.

(** *** One pass over the queued items *)
Lemma quiet_pick b i item sls : quiet (_pick_slot b i item sls).
Proof. unfold _pick_slot. apply quiet_bind; auto with quiet. Qed.

Lemma dispatch_items_inv b n sls Q rows acc : keeps b Q →
  triple (λ s, inv_and Q s ∧ rows_at b rows (d_store s)) (dispatch_items env b n sls acc rows)
         (λ _, inv_and Q) (inv_and Q).
Proof.
  intros HQ. revert acc. induction rows as [|[i item] rows IH]; intros acc; cbn [dispatch_items].
  { apply triple_ret. by intros s [Hs _]. }
  assert (∀ {A} (m : fleet A), quiet m →
    triple (λ s, inv_and Q s ∧ rows_at b ((i, item) :: rows) (d_store s)) m
           (λ _ s, inv_and Q s ∧ rows_at b ((i, item) :: rows) (d_store s)) (inv_and Q)) as Hquiet.
  { intros A m Hm s [Hs Hr]. specialize (Hm s). destruct (m s) as [s' [a|e]], Hm as [E1 E2];
      cbn in *; unfold inv_and in *; by rewrite E1, E2. }
  assert (∀ acc, triple (λ s, inv_and Q s ∧ rows_at b ((i, item) :: rows) (d_store s))
            (dispatch_items env b n sls acc rows) (λ _, inv_and Q) (inv_and Q)) as Hskip.
  { intros acc'. eapply triple_pre; [|apply IH]. intros s [Hs Hr]. split; [done|].
    by eapply (rows_at_tail b (i, item)). }
  case_match; [apply Hskip|].
  eapply triple_bind; [apply Hquiet; auto with quiet|]. intros running. cbn beta.
  case_match; [apply triple_ret; by intros s [Hs _]|].
  eapply triple_bind; [apply Hquiet, quiet_pick|]. intros [sl|]; cbn beta; [|apply Hskip].
  intros s [[Hinv HQs] Hrows]. rewrite prog_bind_eq. unfold claim.
  destruct (claim_slot_for_item b i (sl_slot_id sl) (sl_namespace sl) (d_store s)) as [db ok] eqn:Ec.
  destruct (claim_spec _ _ _ _ _ _ _ Hinv Ec) as (Hinv' & Hf & Hok).
  assert (inv_and Q (set_store db s)) as Hs'.
  { split; [done|]. eapply HQ; [done|]. apply Hf. }
  destruct ok; cbn [negb].
  - destruct Hok as (_ & r & Hr & _ & Hr'). pose proof (proj2 Hrows) as Hx. apply Forall_inv in Hx.
    cbn in Hx. rewrite Hr in Hx. injection Hx as ->.
    assert (rows_at b rows db) as Hrows' by (by eapply (rows_at_tail b (i, item))).
    rewrite prog_bind_eq.
    destruct (submit_effect b i item sl db (d_stopped s) _ Hr' eq_refl eq_refl eq_refl (set_store db s)
                eq_refl eq_refl) as [Hstep Hst].
    destruct (_submit env b i item sl (set_store db s)) as [s2 [sent|e]]; cbn in Hstep, Hst.
    + apply IH. split; [by eapply effect_inv|].
      destruct Hrows' as [Hnd Hall]. split; [done|]. apply step_framed in Hstep as [Hfr _].
      apply Forall_forall. intros y Hy. rewrite Forall_forall in Hall. rewrite Hfr; [by apply Hall|].
      intros [= E]. destruct Hrows as [Hnd' _]. cbn in Hnd'. apply NoDup_cons in Hnd' as [Hni _].
      apply Hni. rewrite <- E. apply list_elem_of_fmap. by exists y.
    + by eapply effect_inv.
  - apply IH. split; [done|]. by eapply (rows_at_tail b (i, item)).
Qed.

Lemma dispatch_queued_inv Q : (∀ b m st, Q m st → b ∉ st → keeps b Q) →
  triple (inv_and Q) (dispatch_queued env) (λ _, inv_and Q) (inv_and Q).
Proof.
  intros HQ. unfold dispatch_queued.
  eapply triple_bind; [apply quiet_inv; auto with quiet|]. intros bs. cbn beta.
  apply (triple_for_each _ (λ _, inv_and Q)). intros n b l. cbn beta. unfold dispatch_batch.
  intros s Hs. rewrite prog_bind_eq. unfold was_stopped at 1. cbn [gets].
  destruct (_ || _) eqn:E; [done|]. apply orb_false_iff in E as [_ Hst%bool_decide_eq_false].
  assert (keeps (bs_batch_id b) Q) as Hkeeps by (eapply HQ; [apply Hs|done]).
  revert s Hs Hst. intros s Hs _. revert s Hs.
  change (triple (inv_and Q) (concurrency ← lift (batch_concurrency b);
    sls ← store_read FleetStore.slots;
    rows ← store_read (FleetStore.items (bs_batch_id b));
    n ← dispatch_items env (bs_batch_id b) concurrency sls n rows;
    _refresh_batch_state env (bs_batch_id b) ;;
    mret n) (λ _, inv_and Q) (inv_and Q)).
  eapply triple_bind; [apply quiet_inv; auto with quiet|]. intros c. cbn beta.
  eapply triple_bind; [apply quiet_inv; auto with quiet|]. intros sls. cbn beta.
  apply read_rows. intros rows. eapply triple_bind; [by apply dispatch_items_inv|].
  intros m. eapply triple_bind; [apply refresh_inv|]. intros u. by apply triple_ret.
Qed.

Abbreviation inv := (λ s : Dispatcher W, fleet_inv (d_store s)).
Definition anything (m : gmap (string * string) ItemRow) (st : list string) : Prop := True.

Lemma anything_inv {A} (m : fleet A) :
  triple (inv_and anything) m (λ _, inv_and anything) (inv_and anything) → triple inv m (λ _, inv) inv.
Proof.
  intros Hm s Hs. specialize (Hm s (conj Hs I)). destruct (m s) as [s' [a|e]]; apply Hm.
Qed.

Lemma keeps_anything b : keeps b anything.
Proof. done. Qed.

Lemma tick_inv : triple inv (tick env trial_timeout_seconds) (λ _, inv) inv.
Proof.
  apply anything_inv. unfold tick.
  eapply triple_bind; [apply poll_running_inv, keeps_anything|]. intros polled.
  eapply triple_bind; [by apply dispatch_queued_inv|]. intros n. by apply triple_ret.
Qed.

Lemma stop_batch_inv b reason : triple inv (stop_batch env b reason) (λ _, inv) inv.
Proof.
  apply anything_inv. unfold stop_batch.
  eapply triple_bind; [apply quiet_inv; auto with quiet|]. intros [ba|]; cbn beta; [|by apply triple_throw].
  eapply (triple_bind _ _ _ (λ _, inv_and anything)); [by apply triple_modify; intros s [Hs _]|].
  intros u. cbn beta.
  apply read_rows. intros rows. eapply triple_bind.
  - apply row_loop; [apply keeps_anything|]. intros acc [i item] db st Hx. by apply stop_item_effect.
  - intros stopped. cbn beta.
    eapply triple_bind; [apply quiet_inv; auto with quiet|]. intros now. cbn beta.
    eapply (triple_bind _ _ _ (λ _, inv_and anything)); [apply triple_modify|].
    { intros s [Hs _]. split; [|exact I]. exact (set_batch_state_inv now b "Stopped" _ Hs). }
    intros u'. cbn beta. eapply triple_bind; [apply quiet_inv; auto with quiet|]. intros now'. cbn beta.
    eapply (triple_bind _ _ _ (λ _, inv_and anything)).
    { apply triple_modify. intros s [[H1 H2 H3] _]. split; [by split|exact I]. }
    intros u2. by apply triple_ret.
Qed.
End dispatch.

(** *** A new batch *)

Lemma insert_item_inv b db item db' : fleet_inv db → is_Some (db_batches db !! b) →
  insert_item b db item = Ok db' → fleet_inv db' ∧ is_Some (db_batches db' !! b).
Proof.
  intros Hinv Hb. unfold insert_item. intros (id & _ & H)%bind_Ok_inv.
  apply bind_Ok_inv in H as (ns & _ & H). apply bind_Ok_inv in H as (u & Hnone%require_Ok & [= <-]).
  apply bool_decide_eq_true in Hnone. split; [|done]. split.
  - intros k1 k2 r1 r2 s. cbn [with_items db_items]. rewrite !lookup_insert.
    repeat case_decide; subst; intros H1 H2 Hs1 Hs2; simplify_eq; try done. by eapply (fi_one _ Hinv).
  - intros k r. cbn [with_items db_items]. rewrite lookup_insert. case_decide; subst.
    + intros [= <-]. constructor; cbn; try done; lia.
    + apply (fi_rows _ Hinv).
  - intros k. cbn [with_items db_items db_batches]. rewrite lookup_insert. case_decide; subst; [done|].
    apply (fi_batches _ Hinv).
Qed.

Lemma create_batch_inv now b request l db db' :
  fleet_inv db → create_batch now b request l db = Ok db' → fleet_inv db'.
Proof.
  intros Hinv. unfold create_batch. intros (u & Hnew%require_Ok%bool_decide_eq_true & H)%bind_Ok_inv.
  eapply (foldM_inv (λ d, fleet_inv d ∧ is_Some (db_batches d !! b)) (insert_item b)) in H; [apply H|..].
  - intros d x d' _ [H1 H2] Hx. by eapply insert_item_inv.
  - assert (∀ k, is_Some (db_items db !! k) → k.1 ≠ b) as Hne.
    { intros k Hk Heq. apply (fi_batches _ Hinv) in Hk. rewrite Heq, Hnew in Hk. by destruct Hk. }
    split; [|cbn; rewrite lookup_insert_eq; by eexists]. split.
    + exact (fi_one _ Hinv).
    + intros k r Hr. cbn in Hr. unfold batch_limit, batch. cbn.
      rewrite lookup_insert_ne by (apply not_eq_sym, Hne; by rewrite Hr).
      by apply (fi_rows _ Hinv).
    + intros k Hk. cbn in *. rewrite lookup_insert_ne by (by apply not_eq_sym, Hne).
      by apply (fi_batches _ Hinv).
Qed.

Lemma submit_batch_inv {W R} `{PyRandom R} (env : Environment W) config request :
  triple (λ s : Dispatcher W, fleet_inv (d_store s)) (submit_batch env config request)
         (λ _ s, fleet_inv (d_store s)) (λ s, fleet_inv (d_store s)).
Proof.
  assert (∀ {A} (m : prog (Dispatcher W) A), quiet m →
    triple (λ s, fleet_inv (d_store s)) m (λ _ s, fleet_inv (d_store s)) (λ s, fleet_inv (d_store s))) as Hq.
  { intros A m Hm. apply anything_inv, quiet_inv, Hm. }
  unfold submit_batch. eapply triple_bind; [by apply Hq|]. intros [ba|]; cbn beta; [by apply triple_ret|].
  do 3 (eapply triple_bind; [by apply Hq|]; intros ?; cbn beta).
  eapply triple_bind; [apply Hq, quiet_utc_now|]. intros now. cbn beta.
  eapply triple_bind with (Q := λ _ s, fleet_inv (d_store s)).
  { intros s Hs. destruct (create_batch _ _ _ _ _) as [db|e] eqn:E; [|done]. by eapply create_batch_inv. }
  intros u. eapply triple_bind; [apply Hq, quiet_utc_now|]. intros now'. cbn beta.
  eapply (triple_bind _ _ _ (λ _ s, fleet_inv (d_store s))); [apply triple_modify; intros s [H1 H2 H3]; by split|].
  intros u'. cbn beta.
  eapply triple_bind; [by apply anything_inv, dispatch_queued_inv|]. intros n. by apply triple_ret.
Qed.
