(* ===== verification/FleetPlan.v ===== *)
(** * Planning a batch ([plan_batch] of [fleet_service/scheduler.py])

    Every item is planned exactly once, on a Ready slot, on the one it is pinned to;
    on every slot the waves are 0, 1, 2, ...; unpinned items use no more slots than the
    concurrency allows; the plan is in the order of waves and of the request. *)

From S2P Require Import Prelude PyVal FleetContracts FleetStore FleetScheduler.

#[local] Open Scope Z_scope.

(** The namespace an item is pinned to. *)
Definition pinned_to (i : BatchItem) : option string :=
  match namespace i with Some ns => if nonempty ns then Some ns else None | None => None end.

Definition on_planned_slot (sid : string) (a : Assignment) : bool := bool_decide (a_slot_id a = sid).

(** ** Where one item may go *)

Definition placed_for (ready usable : list SlotRow) (l : list BatchItem) (a : Assignment) : Prop :=
  ∃ i s, i ∈ l ∧ FleetContracts.item_id i = a_item_id a ∧ s ∈ ready ∧
    a_slot_id a = sl_slot_id s ∧ a_namespace a = sl_namespace s ∧
    match pinned_to i with Some ns => a_namespace a = ns | None => s ∈ usable end.

Lemma slots_by_namespace_sound l ns s :
  dget ns (slots_by_namespace l) = Some s → s ∈ l ∧ sl_namespace s = ns.
Proof.
  unfold slots_by_namespace. revert s. induction l as [|x l IH] using rev_ind; intros s; [done|].
  rewrite foldl_app. cbn [foldl]. rewrite dget_dset. case_decide.
  - intros [= <-]. split; [|done]. apply elem_of_app. right. by left.
  - intros [Hin Hns]%IH. split; [|done]. apply elem_of_app. by left.
Qed.

Definition split_ok (ready : list SlotRow) (l : list BatchItem)
    (acc : list (string * SlotRow) * list string) : Prop :=
  acc.1.*1 ++ acc.2 ≡ₚ map FleetContracts.item_id l ∧
  Forall (λ p, ∃ i, i ∈ l ∧ FleetContracts.item_id i = p.1 ∧ p.2 ∈ ready ∧
                    pinned_to i = Some (sl_namespace p.2)) acc.1 ∧
  Forall (λ id, ∃ i, i ∈ l ∧ FleetContracts.item_id i = id ∧ pinned_to i = None) acc.2.

Lemma split_items_ok ready l acc :
  foldM (split_item (slots_by_namespace ready)) ([], []) l = Ok acc → split_ok ready l acc.
Proof.
  revert acc. induction l as [|i l IH] using rev_ind; intros acc; [by intros [= <-]|].
  rewrite foldM_app. intros ([p f] & H0 & (acc' & H1 & [= <-])%bind_Ok_inv)%bind_Ok_inv.
  destruct (IH _ H0) as (Hperm & Hp & Hf). cbn [fst snd] in *.
  assert (∀ i', i' ∈ l → i' ∈ l ++ [i]) as Hl by (intros i' Hi'; apply elem_of_app; by left).
  assert (i ∈ l ++ [i]) as Hi by (apply elem_of_app; right; by left).
  assert (Forall (λ p, ∃ i', i' ∈ l ++ [i] ∧ FleetContracts.item_id i' = p.1 ∧ p.2 ∈ ready ∧
                    pinned_to i' = Some (sl_namespace p.2)) p) as Hp'.
  { eapply Forall_impl; [exact Hp|]. intros x (i' & Hi' & Hx). exists i'. split; [by apply Hl|done]. }
  assert (Forall (λ id, ∃ i', i' ∈ l ++ [i] ∧ FleetContracts.item_id i' = id ∧ pinned_to i' = None) f) as Hf'.
  { eapply Forall_impl; [exact Hf|]. intros x (i' & Hi' & Hx). exists i'. split; [by apply Hl|done]. }
  assert (pinned_to i = None → split_ok ready (l ++ [i]) (p, f ++ [FleetContracts.item_id i])) as Hfloat.
  { intros Hn. unfold split_ok. cbn [fst snd]. split_and!; [|done|].
    - rewrite map_app, app_assoc. by apply Permutation_app_tail.
    - apply Forall_app. split; [done|]. constructor; [|constructor]. by exists i. }
  unfold split_item in H1. unfold pinned_to in Hfloat at 1.
  destruct (namespace i) as [ns|] eqn:En; [destruct (nonempty ns) eqn:Ene|].
  - apply bind_Ok_inv in H1 as (s & Hs%opt_or_raise_Ok & [= <-]).
    destruct (slots_by_namespace_sound _ _ _ Hs) as [Hin Hns]. unfold split_ok. cbn [fst snd].
    split_and!; [|apply Forall_app; split; [done|]|done].
    + rewrite map_app, fmap_app, <- app_assoc.
      etransitivity; [|apply Permutation_app_tail, Hperm]. rewrite <- app_assoc.
      apply Permutation_app_head, Permutation_app_comm.
    + constructor; [|constructor]. exists i. split_and!; [done..|].
      cbn [snd]. unfold pinned_to. rewrite En, Ene. by f_equal.
  - injection H1 as <-. by apply Hfloat.
  - injection H1 as <-. by apply Hfloat.
Qed.

(** ** Waves: the next free one of the slot *)

Definition waves_ok (acc : plan) : Prop := ∀ sid,
  0 <= default 0 (dget sid acc.1) ∧
  map a_wave (List.filter (on_planned_slot sid) acc.2) = seqZ 0 (default 0 (dget sid acc.1)).

Lemma place_waves acc id s : waves_ok acc → waves_ok (place acc id s).
Proof.
  destruct acc as [load l]. unfold waves_ok, place, load_of. cbn [fst snd]. intros H sid.
  destruct (H sid) as [H0 Hw]. rewrite List.filter_app, map_app, Hw. cbn [List.filter on_planned_slot a_slot_id].
  unfold on_planned_slot. cbn [a_slot_id]. rewrite dget_dset. case_bool_decide as Hs.
  - rewrite decide_True by done. subst sid. cbn [map a_wave]. revert H0.
    generalize (default 0 (dget (sl_slot_id s) load)). intros n H0. unfold default, from_option, Datatypes.id.
    split; [lia|]. rewrite (seqZ_app 0 n 1) by lia. done.
  - rewrite decide_False by congruence. by rewrite app_nil_r.
Qed.

Lemma place_assigns acc id s : (place acc id s).2 = acc.2 ++
  [{| a_item_id := id; a_slot_id := sl_slot_id s; a_namespace := sl_namespace s;
      a_wave := load_of acc.1 s |}].
Proof. by destruct acc. Qed.

Definition plan_ok (ready usable : list SlotRow) (l : list BatchItem) (ids : list string) (acc : plan) : Prop :=
  waves_ok acc ∧ map a_item_id acc.2 = ids ∧ Forall (placed_for ready usable l) acc.2.

Lemma place_ok ready usable l ids acc id s i :
  plan_ok ready usable l ids acc → i ∈ l → FleetContracts.item_id i = id → s ∈ ready →
  match pinned_to i with Some ns => sl_namespace s = ns | None => s ∈ usable end →
  plan_ok ready usable l (ids ++ [id]) (place acc id s).
Proof.
  intros (Hw & Hids & Hall) Hi Hid Hs Hp. unfold plan_ok. rewrite place_assigns, map_app, Hids.
  split_and!; [by apply place_waves|done|]. apply Forall_app. split; [done|].
  constructor; [|constructor]. by exists i, s.
Qed.

Lemma place_pinned_ok ready usable l pinned acc ids :
  plan_ok ready usable l ids acc →
  Forall (λ p, ∃ i, i ∈ l ∧ FleetContracts.item_id i = p.1 ∧ p.2 ∈ ready ∧
                    pinned_to i = Some (sl_namespace p.2)) pinned →
  plan_ok ready usable l (ids ++ pinned.*1) (foldl (λ acc p, place acc p.1 p.2) acc pinned).
Proof.
  intros Hacc Hall. revert acc ids Hacc.
  induction Hall as [|p pinned (i & Hi & Hid & Hr & Hp) _ IH]; intros acc ids Hacc; cbn.
  - by rewrite app_nil_r.
  - rewrite (cons_middle p.1), app_assoc. apply IH. eapply place_ok; eauto. by rewrite Hp.
Qed.

Lemma place_floating_ok ready usable l floating acc acc' ids :
  plan_ok ready usable l ids acc → (∀ s, s ∈ usable → s ∈ ready) →
  Forall (λ id, ∃ i, i ∈ l ∧ FleetContracts.item_id i = id ∧ pinned_to i = None) floating →
  foldM (place_floating usable) acc floating = Ok acc' →
  plan_ok ready usable l (ids ++ floating) acc'.
Proof.
  intros Hacc Hsub Hall. revert acc ids Hacc.
  induction Hall as [|id floating (i & Hi & Hid & Hp) _ IH]; intros acc ids Hacc; cbn [foldM].
  - intros [= <-]. by rewrite app_nil_r.
  - intros (acc1 & H1 & H)%bind_Ok_inv. rewrite (cons_middle id), app_assoc. eapply IH; [|done].
    unfold place_floating in H1. destruct usable as [|s0 rest] eqn:Eu; [done|]. injection H1 as <-.
    rewrite <- Eu. eapply place_ok; [by subst| | | |]; [done..| |].
    + apply Hsub, min_by_elem.
    + rewrite Hp, Eu. apply min_by_elem.
Qed.

Lemma assignment_leb_total r x y : assignment_leb r x y = false → assignment_leb r y x = true.
Proof.
  unfold assignment_leb. rewrite (Z.eqb_sym (a_wave y)). case_match.
  - intros H1%Nat.leb_gt. apply Nat.leb_le. lia.
  - intros H1. bool_to_prop. apply Z.ltb_lt. lia.
Qed.

Lemma filter_Permutation_bool {A} (p : A → bool) l k : l ≡ₚ k → List.filter p l ≡ₚ List.filter p k.
Proof.
  induction 1 as [|x l k _ IH|x y l|l k m _ IH1 _ IH2]; cbn.
  - done.
  - destruct (p x); [by apply perm_skip|done].
  - destruct (p x), (p y); try done. apply perm_swap.
  - by etransitivity.
Qed.

(** A plan places every item of the batch exactly once, gives each slot consecutive waves from
    0, puts pinned items on the slot of their namespace and the others on at most the
    planned number of slots, all of them Ready or Busy, and lists the assignments by wave. *)
Theorem plan_batch_sound {R} `{PyRandom R} r slots mc plan :
  plan_batch r slots mc = Ok plan →
  let ready := List.filter is_ready slots in
  map a_item_id plan ≡ₚ map FleetContracts.item_id (FleetContracts.items r) ∧
  (∀ sid, ∃ n, map a_wave (List.filter (on_planned_slot sid) plan) ≡ₚ seqZ 0 n) ∧
  (∃ usable, Z.of_nat (length usable) <= plan_concurrency mc (br_max_concurrency r) (length ready) ∧
     Forall (placed_for ready usable (FleetContracts.items r)) plan) ∧
  Sorted (λ x y, assignment_leb r x y = true) plan.
Proof.
  intros Hplan ready. unfold plan_batch in Hplan. fold ready in Hplan.
  set (conc := plan_concurrency mc (br_max_concurrency r) (length ready)) in *.
  destruct (random_shuffle _ _ ready) as [rng free] eqn:Efree.
  assert (free ≡ₚ ready) as Hfree.
  { match type of Efree with random_shuffle _ ?g _ = _ => pose proof (random_shuffle_perm _ g ready) as Hp end.
    by rewrite Efree in Hp. }
  apply bind_Ok_inv in Hplan as ([pinned floating] & Hsplit & Hplan).
  destruct (split_items_ok _ _ _ Hsplit) as (Hperm & Hpin & Hfl). cbn [fst snd] in *.
  destruct (random_shuffle _ rng floating) as [rng' floating'] eqn:Efl.
  assert (floating' ≡ₚ floating) as Hfloating.
  { pose proof (random_shuffle_perm _ rng floating) as Hp. by rewrite Efl in Hp. }
  apply bind_Ok_inv in Hplan as (final & Hfinal & [= <-]).
  set (usable := if empty (take (Z.to_nat conc) free) then free else take (Z.to_nat conc) free) in *.
  assert (1 <= conc) as Hconc by (unfold conc, plan_concurrency; lia).
  assert (Z.of_nat (length usable) <= conc ∧ ∀ s, s ∈ usable → s ∈ ready) as [Hlen Hsub].
  { unfold usable. destruct (empty _) eqn:E.
    - destruct free as [|s free]; [cbn; split; [lia|by intros ? ?%not_elem_of_nil]|].
      replace (Z.to_nat conc) with (S (Z.to_nat (conc - 1))) in E by lia. done.
    - split; [rewrite length_take; lia|]. intros s Hs. rewrite <- Hfree. by apply elem_of_take in Hs as (i & Hi & _);
        eapply list_elem_of_lookup_2. }
  assert (plan_ok ready usable (FleetContracts.items r) (pinned.*1 ++ floating') final) as (Hw & Hids & Hall).
  { eapply (place_floating_ok _ _ _ floating'); [|done|by rewrite Hfloating|done].
    apply (place_pinned_ok _ _ _ pinned _ []); [|done].
    split_and!; [|done|constructor]. intros sid. cbn [fst snd List.filter map].
    assert (default 0 (dget sid (map (λ s, (sl_slot_id s, 0)) ready)) = 0) as ->; [|done].
    clear. induction ready as [|s l IH]; [done|]. cbn. by case_decide. }
  split_and!.
  - rewrite <- Hperm, <- Hfloating, <- Hids. apply fmap_Permutation, sort_by_Permutation.
  - intros sid. destruct (Hw sid) as [_ Hws]. eexists. rewrite <- Hws.
    apply fmap_Permutation. change (List.filter (on_planned_slot sid) (sort_by (assignment_leb r) final.2) ≡ₚ
                                    List.filter (on_planned_slot sid) final.2).
    apply filter_Permutation_bool, sort_by_Permutation.
  - exists usable. split; [done|]. by rewrite sort_by_Permutation.
  - apply sort_by_Sorted. intros x y _ _. apply assignment_leb_total.
Qed.

(** ** At a concrete input *)

(** A generator that picks the first element and shuffles nothing. *)
#[export, refine] Instance first_random : PyRandom unit := {|
  random_seed := λ _, tt;
  random_choice := λ _ _, 0%nat;
  random_shuffle := λ A r l, (r, l) |}.
Proof. - intros _ n Hn. exact Hn. - reflexivity. Defined.

Definition sample_slot (id ns phase : string) (index : Z) : SlotRow := {|
  sl_slot_id := id; sl_index := index; sl_namespace := ns;
  sl_controller_url := "http://" +:+ id; sl_phase := phase; sl_detail := VDict [];
  sl_updated_at := "2026-01-01T00:00:00+00:00" |}.

Definition sample_slots : list SlotRow :=
  [sample_slot "s01" "otel-demo-01" "Ready" 1; sample_slot "s02" "otel-demo-02" "Ready" 2;
   sample_slot "s03" "otel-demo-03" "Draining" 3].

Definition sample_round : BatchRequest :=
  sample_batch canonical
    [sample_item "a" "C0" Lx None None; sample_item "b" "D6" Dx None (Some VariantA);
     sample_item "c" "P1" Px None None].

Lemma plan_batch_sound_witness :
  ∃ plan, plan_batch sample_round sample_slots (Some 2) = Ok plan ∧
    map a_item_id plan ≡ₚ ["a"; "b"; "c"] ∧ map a_slot_id plan = ["s01"; "s02"; "s01"] ∧
    map a_wave plan = [0; 0; 1].
Proof.
  set (plan := ok_or [] (plan_batch sample_round sample_slots (Some 2))).
  assert (plan_batch sample_round sample_slots (Some 2) = Ok plan) as Hp by (vm_compute; reflexivity).
  exists plan. split; [exact Hp|]. split; [|split; vm_compute; reflexivity].
  exact (proj1 (plan_batch_sound sample_round sample_slots (Some 2) plan Hp)).
Defined.
