(* ===== verification/FleetProps.v ===== *)
(** * Properties of the Fleet

    The states the Fleet can be in, whatever the Controllers, the clock and the
    provisioner do, and what holds in all of them; who owns a failure; where an item is
    sent; and two places where the code does less than its comments say. *)

From Stdlib Require Import QArith.
From S2P Require Import Prelude Hoare PyFloat PyVal PyTime Progression FleetContracts.
From S2P Require Import FleetStore FleetScheduler FleetDispatch FleetPlan.

#[local] Open Scope Z_scope.

Section reachable.
Context {W R : Type} `{PyRandom R} (env : Environment W) (trial_timeout_seconds : pyfloat).

(** Passes of the dispatcher, batches submitted and stopped, the slot table changed by
    the provisioner, the world moving on, and restarts of the Fleet; a call that raises
    leaves what it had written. *)
Inductive fleet_reachable : Dispatcher W → Prop :=
  | reach_start w : fleet_reachable {| d_store := empty_db; d_stopped := []; d_world := w |}
  | reach_tick s : fleet_reachable s → fleet_reachable (tick env trial_timeout_seconds s).1
  | reach_submit config request s :
      fleet_reachable s → fleet_reachable (submit_batch env config request s).1
  | reach_stop b reason s : fleet_reachable s → fleet_reachable (stop_batch env b reason s).1
  | reach_slots f s :
      fleet_reachable s → fleet_reachable (set_store (with_slots f (d_store s)) s)
  | reach_world w s : fleet_reachable s →
      fleet_reachable {| d_store := d_store s; d_stopped := d_stopped s; d_world := w |}
  | reach_restart w s : fleet_reachable s →
      fleet_reachable {| d_store := d_store s; d_stopped := []; d_world := w |}.

Lemma empty_inv : fleet_inv empty_db.
Proof.
  split.
  - intros k1 k2 r1 r2 s H1. cbn in H1. by rewrite lookup_empty in H1.
  - intros k r H1. cbn in H1. by rewrite lookup_empty in H1.
  - intros k [r H1]. cbn in H1. by rewrite lookup_empty in H1.
Qed.

Lemma triple_state {A} (P : Dispatcher W → Prop) (m : prog (Dispatcher W) A) :
  triple P m (λ _, P) P → ∀ s, P s → P (m s).1.
Proof. intros Hm s Hs. specialize (Hm s Hs). by destruct (m s) as [s' [a|e]]. Qed.

Lemma fleet_reachable_inv s : fleet_reachable s → fleet_inv (d_store s).
Proof.
  induction 1 as [w|s _ IH|config request s _ IH|b reason s _ IH|f s _ IH|w s _ IH|w s _ IH].
  - apply empty_inv.
  - by apply (triple_state (λ s, fleet_inv (d_store s)) _ (tick_inv env trial_timeout_seconds)).
  - by apply (triple_state (λ s, fleet_inv (d_store s)) _ (submit_batch_inv env config request)).
  - by apply (triple_state (λ s, fleet_inv (d_store s)) _ (stop_batch_inv env b reason)).
  - destruct IH as [H1 H2 H3]. by split.
  - done.
  - done.
Qed.

(** In every reachable state an item's platform retries stay within its batch's limit and it was
    accepted by a Controller at most once more than that. *)
Theorem submissions_bounded s b i r l :
  fleet_reachable s → db_items (d_store s) !! (b, i) = Some r → batch_limit (d_store s) b = Ok l →
  0 <= it_platform_retries r <= Z.max 0 l ∧ 0 <= it_attempts r <= Z.max 0 l + 1.
Proof.
  intros Hs Hr Hl. destruct (fi_rows _ (fleet_reachable_inv s Hs) _ _ Hr) as [H1 H2 H3 H4 _].
  specialize (H4 l Hl). destruct (it_state r); lia.
Qed.

(** A dispatch pass changes no item of a batch whose stop was requested. *)
Theorem stopped_batch_frozen s b i :
  fleet_reachable s → b ∈ d_stopped s →
  let s' := (dispatch_queued env s).1 in
  db_items (d_store s') !! (b, i) = db_items (d_store s) !! (b, i) ∧ d_stopped s' = d_stopped s.
Proof.
  intros Hs Hb.
  set (Q := λ (m : gmap (string * string) ItemRow) (st : list string),
    st = d_stopped s ∧ ∀ b i, b ∈ st → m !! (b, i) = db_items (d_store s) !! (b, i)).
  assert (inv_and Q (dispatch_queued env s).1) as [_ [Hst Hq]].
  { apply (triple_state (inv_and Q)).
    - apply dispatch_queued_inv. intros b' m st [-> _] Hb' j m1 m2 st2 [-> Hq] Hm. split; [done|].
      intros b2 i2 Hb2. rewrite Hm; [by apply Hq|]. by intros [= -> ->].
    - split; [by apply fleet_reachable_inv|]. by split. }
  cbn. rewrite Hst. split; [|done]. apply Hq. by rewrite Hst.
Qed.
End reachable.

(** ** Slots are claimed once, and only idle Ready slots are *)

(** A successful claim found the slot idle and the item queued, changes that row alone, and
    excludes every other claim of the slot or the item. *)
Theorem claim_exclusive db b i s ns db1 :
  fleet_inv db → claim_slot_for_item b i s ns db = (db1, true) →
  (∀ k r, db_items db !! k = Some r → active r = true → it_slot_id r ≠ Some s) ∧
  (∃ r, db_items db !! (b, i) = Some r ∧ it_state r = QUEUED ∧
        db_items db1 = <[(b, i) := assign s ns r]> (db_items db)) ∧
  (∀ b2 i2 ns2, claim_slot_for_item b2 i2 s ns2 db1 = (db1, false)) ∧
  (∀ s2 ns2, claim_slot_for_item b i s2 ns2 db1 = (db1, false)).
Proof.
  intros Hinv Hc. destruct (claim_spec _ _ _ _ _ _ _ Hinv Hc) as (Hinv1 & [Hf _] & Hidle & r & Hr & Hq & Hr1).
  split_and!.
  - intros k r0 Hk Ha Hs. specialize (Hidle k r0 Hk). apply not_true_iff_false in Hidle.
    apply Hidle. by apply on_slot_iff.
  - exists r. split_and!; [done..|]. apply map_eq. intros k. rewrite lookup_insert.
    case_decide; subst; [done|by apply Hf].
  - intros b2 i2 ns2. unfold claim_slot_for_item. destruct (_ <? _)%nat eqn:E; [done|].
    apply Nat.ltb_ge in E. pose proof (count_rows_0 (on_slot s) db1 ltac:(lia) _ _ Hr1) as Ho.
    exfalso. apply not_true_iff_false in Ho. apply Ho. by apply on_slot_iff.
  - intros s2 ns2. unfold claim_slot_for_item. rewrite Hr1. by destruct (_ <? _)%nat.
Qed.

(** The slot picked for an item is Ready, idle and in the item's namespace. *)
Theorem pick_slot_sound {W R} `{PyRandom R} b i item sls (s s' : Dispatcher W) sl :
  _pick_slot b i item sls s = (s', Ok (Some sl)) →
  sl ∈ sls ∧ sl_phase sl = "Ready" ∧
  (∀ k r, db_items (d_store s) !! k = Some r → active r = true → it_slot_id r ≠ Some (sl_slot_id sl)) ∧
  (∀ d ns, it_resolved item = VDict d → vget d "namespace" = VStr ns → ns ≠ "" → sl_namespace sl = ns).
Proof.
  unfold _pick_slot. rewrite prog_bind_eq. cbn [store_read gets mret prog_ret].
  intros [= <- Hin]. apply list_elem_of_lookup_2 in Hin. rewrite elem_of_sort_by in Hin.
  unfold candidates in Hin. apply list_elem_of_In, List.filter_In in Hin as [Hin Hp].
  rewrite !andb_true_iff, bool_decide_eq_true, negb_true_iff, bool_decide_eq_false in Hp.
  destruct Hp as [[Hph Hbusy] Hpin]. split_and!; [by apply list_elem_of_In|done| |].
  - intros k r Hk Ha Hs. apply Hbusy. unfold busy_slot_ids. rewrite elem_of_dedup, list_elem_of_omap.
    exists (k, r). split; [by apply elem_of_map_to_list|]. cbn. by rewrite Ha.
  - intros d ns Hd Hns Hne. rewrite Hd, Hns in Hpin. cbn in Hpin.
    apply orb_true_iff in Hpin as [Hpin|Hpin].
    + apply negb_true_iff, not_true_iff_false in Hpin. by rewrite nonempty_true in Hpin.
    + by apply bool_decide_eq_true in Hpin.
Qed.

(** ** Who owns a failure *)

(** When a failure is the platform's rather than the agent's. *)
Theorem classify_failure_exact failure http reason_codes platform_status :
  classify_failure failure http reason_codes platform_status = platform ↔
  platform_status ∈ NEVER_RAN_PLATFORM_STATUSES ∨
  (∀ code, code ∈ reason_codes → py_str code ∉ AGENT_REASON_CODES) ∧
  (http ∈ [408; 425; 429; 500; 502; 503; 504] ∨ (http = 0 ∧ failure = None) ∨
   ∃ f, failure = Some f ∧ f ≠ [] ∧ str_or_empty (vget f "code") ∉ AGENT_REASON_CODES ∧
        (str_or_empty (vget f "code") ∈ PLATFORM_REASON_CODES ∨
         ∃ fragment, fragment ∈ PLATFORM_REASON_FRAGMENTS ∧
                     str_contains fragment (failure_text f) = true)).
Proof.
  unfold classify_failure.
  destruct (str_in platform_status _) eqn:E1.
  { apply str_in_iff in E1. split; [by left|done]. }
  assert (platform_status ∉ NEVER_RAN_PLATFORM_STATUSES) as Hn.
  { intros Hin. apply str_in_iff in Hin. congruence. }
  destruct (existsb (λ code, _) reason_codes) eqn:E2.
  { apply existsb_True in E2 as (code & Hc & Ha%str_in_iff). split; [done|].
    intros [?|[Hall _]]; [done|]. by destruct (Hall code Hc). }
  assert (∀ code, code ∈ reason_codes → py_str code ∉ AGENT_REASON_CODES) as Hcodes.
  { intros code Hc Ha. apply not_true_iff_false in E2. apply E2, existsb_True.
    exists code. split; [done|]. by apply str_in_iff. }
  assert (existsb (Z.eqb http) [408; 425; 429; 500; 502; 503; 504] = true ↔
          http ∈ [408; 425; 429; 500; 502; 503; 504]) as Hhttp.
  { rewrite existsb_True. setoid_rewrite Z.eqb_eq. split; [by intros (x & Hx & <-)|]. intros Hx. by exists http. }
  destruct (_ || _) eqn:E3.
  { apply orb_true_iff in E3. rewrite Hhttp, andb_true_iff, Z.eqb_eq, bool_decide_eq_true in E3. naive_solver. }
  apply orb_false_iff in E3 as [E3 E4].
  assert (http ∉ [408; 425; 429; 500; 502; 503; 504]) as Hh by (intros ?%Hhttp; congruence).
  assert (¬ (http = 0 ∧ failure = None)) as H0.
  { intros [-> ->]. discriminate E4. }
  clear E1 E2 E3 E4 Hhttp.
  destruct failure as [[|kv f]|]; [naive_solver..| |naive_solver].
  set (f' := kv :: f) in *. set (code := str_or_empty (vget f' "code")).
  assert (Some f' = Some f' ∧ f' ≠ []) as [_ Hne] by done.
  destruct (str_in code AGENT_REASON_CODES) eqn:Ea.
  { apply str_in_iff in Ea. naive_solver. }
  assert (code ∉ AGENT_REASON_CODES) as Hag by (intros ?%str_in_iff; congruence).
  destruct (str_in code PLATFORM_REASON_CODES) eqn:Ep.
  { apply str_in_iff in Ep. naive_solver. }
  assert (code ∉ PLATFORM_REASON_CODES) as Hpl by (intros ?%str_in_iff; congruence).
  unfold any_fragment. destruct (existsb _ PLATFORM_REASON_FRAGMENTS) eqn:Ef.
  - apply existsb_True in Ef. naive_solver.
  - split; [done|]. intros [?|[_ [?|[?|(g & [= <-] & _ & _ & [?|Hfr])]]]]; try done; try tauto.
    exfalso. apply not_true_iff_false in Ef. apply Ef. by apply existsb_True.
Qed.

(** ** The limit of a batch is not read

    [batches()] does not select the request, so the limit [dispatch_queued] reads from
    its rows is always 0, which switches the test off. *)

(** The concurrency a dispatch pass reads from a listed batch is always 0: the listing has no
    request column. *)
Theorem concurrency_limit_never_read b : batch_concurrency b = Ok 0.
Proof. reflexivity. Qed.

(** ** The theorems at concrete inputs *)

Definition sample_client : ControllerClient unit := {|
  client_run := λ _ w, (w, Answer (VDict [("status", VStr "RUNNING"); ("terminal", VBool false)]));
  client_score := λ _ w, (w, Answer VNone);
  client_stop_run := λ _ w, (w, Answer (VDict []));
  client_prompt_variants := λ _ _ w,
    (w, Answer (VDict [("variants", VList [VDict [("level", VStr "L0"); ("prompt", VStr "p")]]);
                       ("variant_set_id", VStr "v1")]));
  client_create_run := λ _ key w,
    (w, Answer (VDict [("run_id", VStr ("run-" +:+ key)); ("task_id", VStr "task")])) |}.

Definition sample_env : Environment unit := {|
  env_now := λ w, (w, 1789000000000000); env_local_offset := 0; env_fromisoformat := λ _, None;
  env_client := λ _, sample_client |}.

Definition sample_config : FleetConfig := {|
  replicas := 3; namespace_prefix := "otel-demo"; account_rpm := None; account_tpm := None;
  max_concurrency := 3 |}.

Definition with_sample_slots : Dispatcher unit :=
  set_store (with_slots (λ _, list_to_map (map (λ s, (sl_slot_id s, s)) sample_slots)) empty_db)
    {| d_store := empty_db; d_stopped := []; d_world := tt |}.

(** A round of three items on two Ready slots: two are submitted. *)
Definition after_submit : Dispatcher unit :=
  (submit_batch sample_env sample_config sample_round with_sample_slots).1.

Lemma after_submit_reachable : fleet_reachable sample_env (flit 2700) after_submit.
Proof. apply reach_submit, (reach_slots sample_env (flit 2700) _ _ (reach_start _ _ tt)). Qed.

Definition state_of (s : Dispatcher unit) (i : string) : option (ItemState * option string * Z) :=
  (λ r, (it_state r, it_slot_id r, it_attempts r)) <$> db_items (d_store s) !! ("round-1", i).

Example after_submit_states :
  state_of after_submit "a" = Some (RUNNING, Some "s01", 1) ∧
  state_of after_submit "b" = Some (QUEUED, None, 0).
Proof. vm_compute. done. Qed.

Lemma state_of_Some s i st sl n : state_of s i = Some (st, sl, n) →
  ∃ r, db_items (d_store s) !! ("round-1", i) = Some r ∧ it_state r = st ∧ it_slot_id r = sl ∧ it_attempts r = n.
Proof.
  unfold state_of. destruct (db_items (d_store s) !! ("round-1", i)) as [r|]; [|done].
  intros [= <- <- <-]. by exists r.
Qed.

Lemma submissions_bounded_witness :
  ∃ r, db_items (d_store after_submit) !! ("round-1", "a") = Some r ∧ it_attempts r = 1 ∧
       it_attempts r <= 3.
Proof.
  destruct (state_of_Some _ _ _ _ _ (proj1 after_submit_states)) as (r & Hr & _ & _ & Hn).
  exists r. split; [exact Hr|]. split; [exact Hn|].
  refine (proj2 (proj2 (submissions_bounded sample_env (flit 2700) after_submit "round-1" "a" r 2
    after_submit_reachable Hr _))).
  vm_compute. reflexivity.
Defined.

Definition after_stop : Dispatcher unit := (stop_batch sample_env "round-1" None after_submit).1.

Lemma stopped_batch_frozen_witness :
  db_items (d_store (dispatch_queued sample_env after_stop).1) !! ("round-1", "b") =
  db_items (d_store after_stop) !! ("round-1", "b").
Proof.
  refine (proj1 (stopped_batch_frozen sample_env (flit 2700) after_stop "round-1" "b" _ _)).
  - apply reach_stop, after_submit_reachable.
  - assert (d_stopped after_stop = ["round-1"]) as -> by (vm_compute; reflexivity).
    apply list_elem_of_here.
Defined.

Lemma pair_snd {A B} (p : A * B) b : p.2 = b → p = (p.1, b).
Proof. by destruct p as [x y]; intros <-. Qed.

Lemma claim_exclusive_witness :
  ∃ db1, claim_slot_for_item "round-1" "b" "s02" "otel-demo-02" (d_store after_submit) = (db1, true) ∧
    claim_slot_for_item "round-1" "c" "s02" "otel-demo-02" db1 = (db1, false).
Proof.
  assert ((claim_slot_for_item "round-1" "b" "s02" "otel-demo-02" (d_store after_submit)).2 = true) as H2
    by (vm_compute; reflexivity).
  apply pair_snd in H2. eexists. split; [exact H2|].
  exact (proj1 (proj2 (proj2 (claim_exclusive _ _ _ _ _ _
    (fleet_reachable_inv sample_env (flit 2700) _ after_submit_reachable) H2))) "round-1" "c" "otel-demo-02").
Defined.

Lemma pick_slot_sound_witness :
  ∃ sl, snd (_pick_slot "round-1" "b" (new_item [] None) sample_slots after_submit) = Ok (Some sl) ∧
        sl_phase sl = "Ready".
Proof.
  assert ((_pick_slot "round-1" "b" (new_item [] None) sample_slots after_submit).2 =
          Ok (Some (sample_slot "s02" "otel-demo-02" "Ready" 2))) as Hp by (vm_compute; reflexivity).
  eexists. split; [exact Hp|]. apply pair_snd in Hp.
  exact (proj1 (proj2 (pick_slot_sound _ _ _ _ _ _ _ Hp))).
Defined.

(** A batch that asks for one trial at a time, its items pinned to two slots, has two
    in flight. *)
Definition pinned_item (id ns : string) (repetition : Z) : BatchItem := {|
  item_id := id; namespace := Some ns; test_kind := Lx; autonomy_level := L0; case := "C0";
  tool_substitution_variant := None; d6_variant := None; harness := codex; model := None;
  llm_tag := None; duration_seconds := None; prompt := None; prompt_source := None;
  repetition := repetition; note := None |}.

Definition pinned_round : BatchRequest :=
  sample_batch canonical [pinned_item "a" "otel-demo-01" 1; pinned_item "b" "otel-demo-02" 2].

Example limit_of_one_exceeded :
  br_max_concurrency pinned_round = Some 1 ∧ is_ok (validate_items pinned_round) = true ∧
  running_count (d_store (submit_batch sample_env sample_config pinned_round with_sample_slots).1) = 2.
Proof. vm_compute. done. Qed.

(** An answer without a mapping raises between the claim and the update: the item stays
    [Assigned] without a run, no later pass polls it, and its slot stays busy. *)
Definition odd_env : Environment unit := {|
  env_now := env_now sample_env; env_local_offset := 0; env_fromisoformat := λ _, None;
  env_client := λ _, {|
    client_run := client_run sample_client; client_score := client_score sample_client;
    client_stop_run := client_stop_run sample_client;
    client_prompt_variants := client_prompt_variants sample_client;
    client_create_run := λ _ _ w, (w, Answer (VList [])) |} |}.

Definition stuck : Dispatcher unit :=
  (submit_batch odd_env sample_config sample_round with_sample_slots).1.

Example assigned_item_stuck :
  state_of stuck "a" = Some (ASSIGNED, Some "s01", 0) ∧
  state_of (tick odd_env (flit 2700) (tick odd_env (flit 2700) stuck).1).1 "a" =
    Some (ASSIGNED, Some "s01", 0) ∧
  busy_slot_ids (d_store (tick sample_env (flit 2700) stuck).1) = ["s01"].
Proof. vm_compute. done. Qed.
