(* ===== verification/FleetOverlap.v ===== *)
(** * The Fleet's threads at once

    The dispatcher's thread, and the handlers that submit and stop batches, hold no lock between
    two calls of the store ([FleetStore] serialises each call). A submission under way is an
    item that was claimed and not yet written again; a poll under way is the list of rows it
    has read. Any of them may be overtaken by any other at each call of the store. *)

From Stdlib Require Import QArith.
From S2P Require Import Prelude Hoare PyFloat PyVal PyTime Progression FleetContracts.
From S2P Require Import FleetStore FleetScheduler FleetDispatch FleetPlan FleetProps.

#[local] Open Scope Z_scope.

Section overlap.
Context {W R : Type} `{PyRandom R} (env : Environment W) (trial_timeout_seconds : pyfloat).

Abbreviation key := (string * string)%type.
Abbreviation fleet := (prog (Dispatcher W)).
Abbreviation rows_of s := (db_items (d_store s)).

(** The store, the items whose submission is under way in some thread, and the rows the
    dispatcher's thread has still to poll. Between its claim and its one write a submission
    only asks the Controller and reads the request of its batch, which never changes; what it
    knows of its item and its slot was read at any time before ([item], [sl] are arbitrary),
    and so is what a poll and a stop know. The loops choose what to claim from what they
    read, at any time. *)
Inductive overlapping : Dispatcher W → gset key → list (key * ItemRow) → Prop :=
  | ov_start w : overlapping {| d_store := empty_db; d_stopped := []; d_world := w |} ∅ []
  (** slots, states of batches, audit, configuration, the flags of stopped batches, the world *)
  | ov_beside s s' submitting polled : overlapping s submitting polled → rows_of s' = rows_of s → overlapping s' submitting polled
  | ov_create now b request items db s submitting polled : overlapping s submitting polled →
      create_batch now b request items (d_store s) = Ok db → overlapping (set_store db s) submitting polled
  | ov_claim b i slot ns s s' submitting polled : overlapping s submitting polled →
      claim b i slot ns s = (s', Ok true) → overlapping s' ({[(b, i)]} ∪ submitting) polled
  | ov_submit b i item sl s submitting polled : overlapping s submitting polled → (b, i) ∈ submitting →
      overlapping (_submit env b i item sl s).1 (submitting ∖ {[(b, i)]}) polled
  | ov_poll b s submitting : overlapping s submitting [] →
      overlapping s submitting (map (λ row, ((b, row.1), row.2)) (FleetStore.items b (d_store s)))
  | ov_poll_row b i item n rest s submitting : overlapping s submitting (((b, i), item) :: rest) →
      overlapping (poll_row env trial_timeout_seconds b n (i, item) s).1 submitting rest
  | ov_poll_end s submitting polled : overlapping s submitting polled → overlapping s submitting []
  (** A stop dequeues no item whose submission is under way. *)
  | ov_stop_item b i item reason acc s submitting polled : overlapping s submitting polled →
      (it_state item = QUEUED → (b, i) ∉ submitting) →
      overlapping (stop_item env b reason acc (i, item) s).1 submitting polled
  | ov_restart w s submitting polled : overlapping s submitting polled →
      overlapping {| d_store := d_store s; d_stopped := []; d_world := w |} ∅ [].

(** ** What every interleaving keeps *)

Definition waiting (r : ItemRow) : Prop := it_state r = QUEUED ∨ it_state r = ASSIGNED.

Record overlap_inv (s : Dispatcher W) (submitting : gset key) (polled : list (key * ItemRow)) : Prop := {
  oi_one : one_active (d_store s);
  oi_fresh : ∀ k r, rows_of s !! k = Some r → waiting r → it_run_id r = None;
  oi_submitting : ∀ k, k ∈ submitting → ∃ r, rows_of s !! k = Some r ∧ it_state r = ASSIGNED;
  oi_nodup : NoDup polled.*1;
  oi_polled : ∀ k row, (k, row) ∈ polled → active row = true → is_Some (it_run_id row) →
    it_state row = RUNNING ∧ ∃ r, rows_of s !! k = Some r ∧ ¬ waiting r }.

Lemma beside_inv s s' submitting polled : overlap_inv s submitting polled → rows_of s' = rows_of s → overlap_inv s' submitting polled.
Proof.
  intros [H1 H2 H3 H4 H5] E. split; [by intros ? ? ? ? ?; rewrite E; apply H1|by rewrite E|by setoid_rewrite E|done|by setoid_rewrite E].
Qed.

Lemma active_waiting r : active r = true ↔ it_state r = ASSIGNED ∨ it_state r = RUNNING.
Proof. unfold active. destruct (it_state r); cbn; naive_solver. Qed.

(** One row is changed, and no slot is taken by it. *)
Lemma change_inv s s' submitting submitting' polled polled' k r r' : overlap_inv s submitting polled →
  rows_of s !! k = Some r → rows_of s' = <[k := r']> (rows_of s) →
  (active r' = true → active r = true ∧ it_slot_id r' = it_slot_id r) → (waiting r' → it_run_id r' = None) →
  submitting' ⊆ submitting → (k ∈ submitting' → it_state r' = ASSIGNED) →
  NoDup polled'.*1 → (∀ x, x ∈ polled' → x ∈ polled) →
  (∀ row, (k, row) ∈ polled' → active row = true → is_Some (it_run_id row) → ¬ waiting r') →
  overlap_inv s' submitting' polled'.
Proof.
  intros [H1 H2 H3 H4 H5] Hr E Hact Hrun Hsub Hk Hnd Hin Hpoll. cbv beta in E. split; [| | |done|]; unfold one_active; rewrite E.
  - intros k1 k2 r1 r2 sl. rewrite !lookup_insert.
    assert (on_slot sl r' = true → on_slot sl r = true) as Hback.
    { rewrite !on_slot_iff. intros [Ha Hs]. destruct (Hact Ha) as [Ha' <-]. done. }
    repeat case_decide; subst; intros Hk1 Hk2 Hs1 Hs2; simplify_eq; [done|..]; by eapply H1; eauto.
  - intros k1 r1. rewrite lookup_insert. case_decide; [by intros [= <-]|apply H2].
  - intros k1 Hk1. rewrite lookup_insert. case_decide; subst; [eauto|apply H3; set_solver].
  - intros k1 row Hrow Ha Hs. destruct (H5 _ _ (Hin _ Hrow) Ha Hs) as [? (r1 & Hr1 & ?)]. split; [done|].
    rewrite lookup_insert. case_decide; subst; eauto.
Qed.

(** *** One program, at most one row *)

Definition changes {A} (k : key) (G : ItemRow → ItemRow → Prop) (m : fleet A) : Prop := ∀ s,
  rows_of (m s).1 = rows_of s ∨ ∃ r r', rows_of s !! k = Some r ∧ rows_of (m s).1 = <[k := r']> (rows_of s) ∧ G r r'.
Definition beside {A} (m : fleet A) : Prop := ∀ s, rows_of (m s).1 = rows_of s.

Lemma quiet_beside {A} (m : fleet A) : quiet m → beside m.
Proof. intros Hm s. destruct (Hm s) as [E _]. cbv beta. by rewrite E. Qed.
Lemma changes_beside {A} k G (m : fleet A) : beside m → changes k G m.
Proof. intros Hm s. left. apply Hm. Qed.
Lemma changes_bind {A B} k G (m : fleet A) (f : A → fleet B) : quiet m → (∀ a, changes k G (f a)) → changes k G (m ≫= f).
Proof.
  intros Hm%quiet_beside Hf s. rewrite prog_bind_eq. specialize (Hm s). destruct (m s) as [s' [a|e]]; cbn in Hm.
  - specialize (Hf a s'). cbv beta in Hf. rewrite Hm in Hf. exact Hf.
  - by left.
Qed.
Lemma changes_then {A B} k G (m : fleet A) (f : A → fleet B) : changes k G m → (∀ a, quiet (f a)) → changes k G (m ≫= f).
Proof.
  intros Hm Hf s. rewrite prog_bind_eq. specialize (Hm s). destruct (m s) as [s' [a|e]]; [|exact Hm].
  pose proof (quiet_beside _ (Hf a) s') as E. cbv beta in *. cbn [fst] in *. by rewrite E.
Qed.
Lemma changes_write b i ups G : (∀ r, G r (foldl set_column r ups)) → changes (b, i) G (store_write (update_item b i ups)).
Proof.
  intros HG s. cbn [store_write modify fst set_store d_store]. unfold update_item. destruct (empty ups); [by left|]. cbn [with_items db_items].
  destruct (rows_of s !! (b, i)) as [r|] eqn:Hr; cbv beta in Hr.
  - right. exists r, (foldl set_column r ups). split; [done|]. split; [|apply HG]. apply map_eq. intros k.
    rewrite lookup_alter, lookup_insert. case_decide; subst; [by rewrite Hr|done].
  - left. apply map_eq. intros k. rewrite lookup_alter. case_decide; subst; [by rewrite Hr|done].
Qed.

Definition closed (r : ItemRow) : Prop := it_state r = INVALID ∨ it_state r = FAILED ∨ it_state r = DONE.
(** A submission ends: it runs where it was assigned, waits again or is closed. *)
Definition submitted (r r' : ItemRow) : Prop :=
  it_state r' = RUNNING ∧ it_slot_id r' = it_slot_id r ∨ closed r' ∨
  it_state r' = QUEUED ∧ (it_run_id r' = it_run_id r ∨ it_run_id r' = None).
(** A poll ends a run. *)
Definition ended (r r' : ItemRow) : Prop := closed r' ∨ it_state r' = QUEUED ∧ it_run_id r' = None.

Lemma ended_submitted r r' : ended r r' → submitted r r'.
Proof. intros [|[]]; [by right; left|by right; right; auto]. Qed.
Lemma changes_weaken {A} k (G G' : ItemRow → ItemRow → Prop) (m : fleet A) : (∀ r r', G r r' → G' r r') → changes k G m → changes k G' m.
Proof. intros HG Hm s. destruct (Hm s) as [|(r & r' & ? & ? & ?)]; [by left|]. right. eauto 6. Qed.

#[local] Hint Resolve quiet_ret quiet_lift quiet_read quiet_outside quiet_utc_now quiet_elapsed : quiet.

Lemma finish_failed_changes b i item f o sc : changes (b, i) ended (_finish_failed env b i item f o sc).
Proof.
  unfold _finish_failed. apply changes_bind; [unfold batch_request; apply quiet_bind; auto with quiet|]. intros request.
  do 2 (apply changes_bind; [auto with quiet|]; intros ?). cbv zeta. destruct (_ && _).
  - apply changes_write. intros r. by right.
  - apply changes_bind; [auto with quiet|]. intros now. apply changes_write. intros r. left. right. by left.
Qed.

Lemma submit_refused_changes b i item exc : changes (b, i) submitted (submit_refused env b i item exc).
Proof.
  assert (Hfail : ∀ f o, changes (b, i) submitted (_finish_failed env b i item f o VNone)).
  { intros f o. eapply changes_weaken; [apply ended_submitted|apply finish_failed_changes]. }
  unfold submit_refused. cbv zeta. destruct (_slot_not_ready_yet exc); [|destruct (_upstream_transient exc); [|destruct (retryable exc)]].
  - apply changes_then; [|auto with quiet]. apply changes_write. intros r. right. right. split; [done|by left].
  - do 2 (apply changes_bind; [auto with quiet|]; intros ?). destruct (_ <? _); (apply changes_then; [|auto with quiet]); [|apply Hfail].
    apply changes_write. intros r. right. right. split; [done|by left].
  - apply changes_then; [apply Hfail|auto with quiet].
  - apply changes_bind; [auto with quiet|]. intros now. apply changes_then; [|auto with quiet]. apply changes_write.
    intros r. right. left. by left.
Qed.

Lemma submit_changes b i item sl : changes (b, i) submitted (_submit env b i item sl).
Proof.
  unfold _submit. apply changes_bind; [auto with quiet|]. intros res. cbv zeta. apply changes_bind; [apply quiet_build|].
  intros [body|exc]; [|apply submit_refused_changes]. apply changes_bind; [auto with quiet|].
  intros [created|exc]; [|apply submit_refused_changes]. unfold submit_accepted.
  do 5 (apply changes_bind; [auto with quiet|]; intros ?). apply changes_then; [|auto with quiet]. apply changes_write.
  intros r. by left.
Qed.

(** A poll of a row that it read as running; of another row it does nothing. *)
Lemma poll_row_changes b i item n : (active item = true → is_Some (it_run_id item) → it_state item = RUNNING) →
  changes (b, i) ended (poll_row env trial_timeout_seconds b n (i, item)).
Proof.
  intros Hrun. unfold poll_row. cbn [fst snd]. destruct (active item) eqn:Ha; [|by apply changes_beside].
  apply changes_then; [|auto with quiet]. unfold _poll_item.
  destruct (it_run_id item) as [run_id|] eqn:Er; [|by apply changes_beside]. destruct (it_slot_id item) as [slot_id|]; [|by apply changes_beside].
  destruct (_ && _); [|by apply changes_beside]. apply changes_bind; [auto with quiet|]. intros [sl|]; [|by apply changes_beside].
  cbv zeta. apply changes_bind; [auto with quiet|]. intros [summary|exc].
  2: { destruct (retryable exc); [by apply changes_beside|apply finish_failed_changes]. }
  do 2 (apply changes_bind; [auto with quiet|]; intros ?). destruct (_ && _); [|destruct (negb _)].
  - apply changes_bind; [auto with quiet|]. intros now. apply changes_write. intros r. left. by left.
  - apply changes_beside, quiet_beside. unfold poll_unfinished. rewrite (Hrun eq_refl (ex_intro _ _ eq_refl)), bool_decide_true by done. cbn [when negb].
    apply quiet_bind; [auto with quiet|]. intros _. destruct (it_started_at item); [|auto with quiet]. destruct (nonempty _); [|auto with quiet].
    apply quiet_bind; [auto with quiet|]. intros e. destruct (flt _ _); [|auto with quiet]. apply quiet_bind; auto with quiet.
  - unfold poll_finished. cbv zeta. do 2 (apply changes_bind; [auto with quiet|]; intros ?).
    destruct (negb _); [apply finish_failed_changes|]. destruct (str_in _ _); [apply finish_failed_changes|].
    apply changes_bind; [auto with quiet|]. intros now. apply changes_write. intros r. left. right. by right.
Qed.

(** A stop closes a row it read as waiting, and only marks the others. *)
Lemma stop_item_changes b i item reason acc : changes (b, i)
  (λ r r', it_state item = QUEUED ∧ it_state r' = INVALID ∨
           it_state r' = it_state r ∧ it_slot_id r' = it_slot_id r ∧ it_run_id r' = it_run_id r)
  (stop_item env b reason acc (i, item)).
Proof.
  unfold stop_item. case_bool_decide as Hq.
  - apply changes_then; [|auto with quiet]. apply changes_write. intros r. by left.
  - destruct (_ && _); [|by apply changes_beside]. apply changes_bind; [auto with quiet|]. intros [sl|]; [|by apply changes_beside].
    apply changes_bind; [auto with quiet|]. intros [v|exc]; [|by apply changes_beside].
    apply changes_then; [|auto with quiet]. apply changes_write. intros r. by right.
Qed.

(** *** The steps *)

Lemma submit_inv b i item sl s submitting polled : overlap_inv s submitting polled → (b, i) ∈ submitting →
  overlap_inv (_submit env b i item sl s).1 (submitting ∖ {[(b, i)]}) polled.
Proof.
  intros Hi Hk. destruct (oi_submitting _ _ _ Hi _ Hk) as (r & Hr & Hst).
  destruct (submit_changes b i item sl s) as [E|(r0 & r' & Hr0 & E & Hs)].
  - eapply beside_inv; [|exact E]. destruct Hi as [H1 H2 H3 H4 H5]. split; [done|done| |done|done]. intros k ?. apply H3. set_solver.
  - cbv beta in Hr, Hr0. rewrite Hr in Hr0. injection Hr0 as <-. eapply change_inv; [exact Hi|exact Hr|exact E|..].
    + intros Ha%active_waiting. destruct Hs as [[_ ?]|[Hc|[? _]]]; [split; [by apply active_waiting; left|done]|..];
        unfold closed in *; exfalso; intuition congruence.
    + intros Hw. destruct Hs as [[? _]|[Hc|[_ [->|?]]]]; [..|done].
      1-2: unfold waiting, closed in *; exfalso; intuition congruence. apply (oi_fresh _ _ _ Hi _ _ Hr). by right.
    + set_solver.
    + set_solver.
    + apply Hi.
    + done.
    + intros row Hrow Ha Hrun. destruct (oi_polled _ _ _ Hi _ _ Hrow Ha Hrun) as [_ (r1 & Hr1 & Hn)]. cbv beta in Hr1.
      rewrite Hr in Hr1. injection Hr1 as <-. destruct Hn. by right.
Qed.

Lemma poll_inv b i item n rest s submitting : overlap_inv s submitting (((b, i), item) :: rest) →
  overlap_inv (poll_row env trial_timeout_seconds b n (i, item) s).1 submitting rest.
Proof.
  intros Hi. pose proof (oi_nodup _ _ _ Hi) as Hnd. cbn in Hnd. apply NoDup_cons in Hnd as [Hk Hnd].
  assert (Hrest : ∀ s', rows_of s' = rows_of s → overlap_inv s' submitting rest).
  { intros s' E. eapply beside_inv; [|exact E]. destruct Hi as [H1 H2 H3 _ H5]. split; [done..|]. intros k row Hin. apply H5. by right. }
  pose proof (oi_polled _ _ _ Hi (b, i) item ltac:(by left)) as Hp.
  destruct (active item && bool_decide (is_Some (it_run_id item))) eqn:Ea.
  2: { apply Hrest. unfold poll_row. cbn [fst snd]. destruct (active item); [|done]. cbn in Ea. apply bool_decide_eq_false in Ea.
       rewrite <- eq_None_not_Some in Ea. unfold _poll_item. by rewrite Ea. }
  apply andb_true_iff in Ea as [Ha Hrun%bool_decide_eq_true]. destruct (Hp Ha Hrun) as [Hst (r & Hr & Hw)]. cbv beta in Hr.
  destruct (poll_row_changes b i item n (λ _ _, Hst) s) as [E|(r0 & r' & Hr0 & E & Hs)]; [by apply Hrest|].
  cbv beta in Hr0. rewrite Hr in Hr0. injection Hr0 as <-.
  eapply change_inv; [exact Hi|exact Hr|exact E|..].
  - intros Ha'%active_waiting. unfold ended, closed in *. exfalso. intuition congruence.
  - unfold ended, closed, waiting in *. intuition congruence.
  - done.
  - intros Hsub. destruct (oi_submitting _ _ _ Hi _ Hsub) as (r1 & Hr1 & ?). cbv beta in Hr1. rewrite Hr in Hr1. injection Hr1 as <-.
    destruct Hw. by right.
  - done.
  - intros x Hx. by right.
  - intros row Hrow. destruct Hk. apply list_elem_of_fmap. by exists ((b, i), row).
Qed.

Lemma stop_inv b i item reason acc s submitting polled : overlap_inv s submitting polled → (it_state item = QUEUED → (b, i) ∉ submitting) →
  overlap_inv (stop_item env b reason acc (i, item) s).1 submitting polled.
Proof.
  intros Hi Hno. destruct (stop_item_changes b i item reason acc s) as [E|(r & r' & Hr & E & Hs)]; [by eapply beside_inv|].
  eapply change_inv; [exact Hi|exact Hr|exact E|..].
  - intros Ha%active_waiting. destruct Hs as [[_ Hs]|(Hst & ? & _)]; [exfalso; intuition congruence|].
    split; [|done]. apply active_waiting. by rewrite <- Hst.
  - intros Hw. destruct Hs as [[_ Hs]|(Hst & _ & ->)]; [unfold waiting in Hw; exfalso; intuition congruence|].
    apply (oi_fresh _ _ _ Hi _ _ Hr). unfold waiting in *. by rewrite <- Hst.
  - done.
  - intros Hk. destruct Hs as [[Hq _]|(-> & _ & _)]; [by destruct (Hno Hq)|].
    destruct (oi_submitting _ _ _ Hi _ Hk) as (r1 & Hr1 & ?). cbv beta in *. by simplify_eq.
  - apply Hi.
  - done.
  - intros row Hrow Ha Hrun. destruct (oi_polled _ _ _ Hi _ _ Hrow Ha Hrun) as [_ (r1 & Hr1 & Hn)]. cbv beta in *. simplify_eq.
    unfold waiting in *. destruct Hs as [[_ Hs]|(Hst & _ & _)]; [intuition congruence|by rewrite Hst].
Qed.

Lemma slot_claim_inv b i slot ns s s' submitting polled : overlap_inv s submitting polled →
  claim b i slot ns s = (s', Ok true) → overlap_inv s' ({[(b, i)]} ∪ submitting) polled.
Proof.
  intros [H1 H2 H3 H4 H5]. unfold claim, claim_slot_for_item. destruct (_ <? _)%nat eqn:Ec; [done|].
  destruct (db_items (d_store s) !! (b, i)) as [r|] eqn:Hr; [|done]. destruct (decide _) as [Hq|]; [|done]. intros [= <-].
  apply Nat.ltb_ge in Ec. pose proof (count_rows_0 (on_slot slot) (d_store s) ltac:(lia)) as Hidle.
  assert (Hs : ∀ x, on_slot x (assign slot ns r) = true → x = slot) by (intros x [_ [= ->]]%on_slot_iff; done).
  split; cbn [set_store d_store with_items db_items].
  - intros k1 k2 r1 r2 x. cbn [with_items db_items]. rewrite !lookup_insert. repeat case_decide; subst; intros Hk1 Hk2 Hs1 Hs2; simplify_eq; [done|..].
    + rewrite (Hs _ Hs1) in Hs2. by rewrite (Hidle _ _ Hk2) in Hs2.
    + rewrite (Hs _ Hs2) in Hs1. by rewrite (Hidle _ _ Hk1) in Hs1.
    + by eapply H1.
  - intros k r1. rewrite lookup_insert. case_decide; [|apply H2]. intros [= <-] _. cbn. apply (H2 _ _ Hr). by left.
  - intros k Hk. rewrite lookup_insert. case_decide; [by eexists|]. apply H3. set_solver.
  - done.
  - intros k row Hrow Ha Hrun. destruct (H5 _ _ Hrow Ha Hrun) as [? (r1 & Hr1 & Hw)]. split; [done|]. cbv beta in Hr1.
    rewrite lookup_insert. case_decide; subst; [|eauto]. simplify_eq. destruct Hw. by left.
Qed.

Lemma insert_item_kept b db item db' : insert_item b db item = Ok db' →
  ∃ k row ns, db_items db !! k = None ∧ db_items db' = <[k := new_item row ns]> (db_items db).
Proof.
  unfold insert_item. intros (id & _ & Hx)%bind_Ok_inv. apply bind_Ok_inv in Hx as (ns & _ & Hy).
  apply bind_Ok_inv in Hy as (u & Hn%require_Ok%bool_decide_eq_true & [= <-]). eauto.
Qed.
Lemma create_inv now b request items db s submitting polled : overlap_inv s submitting polled →
  create_batch now b request items (d_store s) = Ok db → overlap_inv (set_store db s) submitting polled.
Proof.
  intros Hi. unfold create_batch. intros (u & _ & Hc)%bind_Ok_inv.
  eapply (foldM_inv (λ d, overlap_inv (set_store d s) submitting polled) (insert_item b)) in Hc; [exact Hc| |].
  - intros d x d' _ [H1 H2 H3 H4 H5] (k & row & ns & Hn & E)%insert_item_kept. cbn [set_store d_store] in *.
    assert (Hne : ∀ k1 r1, db_items d !! k1 = Some r1 → k1 ≠ k) by (by intros k1 r1 Hk1 ->; simplify_eq).
    split; cbn [set_store d_store]; [| | |done|]; unfold one_active; rewrite E.
    + intros k1 k2 r1 r2 sl. rewrite !lookup_insert. repeat case_decide; subst; intros ? ? ? ?; simplify_eq; try done. by eapply H1.
    + intros k1 r1. rewrite lookup_insert. case_decide; [|apply H2]. by intros [= <-].
    + intros k1 Hk1. destruct (H3 _ Hk1) as (r1 & Hr1 & ?). rewrite lookup_insert_ne by (apply not_eq_sym; eauto). eauto.
    + intros k1 r0 Hr0 Ha Hrun. destruct (H5 _ _ Hr0 Ha Hrun) as [? (r1 & Hr1 & ?)]. split; [done|].
      rewrite lookup_insert_ne by (apply not_eq_sym; eauto). eauto.
  - by eapply beside_inv.
Qed.

Lemma overlapping_inv s submitting polled : overlapping s submitting polled → overlap_inv s submitting polled.
Proof.
  induction 1 as [w| | | | |b s submitting _ IH| |s submitting polled _ IH| |w s submitting polled _ IH].
  - split; cbn; [by intros k1 k2 r1 r2 sl; cbn; rewrite lookup_empty|by intros k r; rewrite lookup_empty|set_solver|constructor|].
    intros k row Hin. by apply not_elem_of_nil in Hin.
  - by eapply beside_inv.
  - by eapply create_inv.
  - by eapply slot_claim_inv.
  - by apply submit_inv.
  - destruct IH as [H1 H2 H3 H4 H5]. split; [done|done|done| |].
    + rewrite <- list_fmap_compose. pose proof (items_NoDup b (d_store s)) as Hnd.
      apply (NoDup_fmap_2 (pair b)) in Hnd. by rewrite <- list_fmap_compose in Hnd.
    + intros k row ([i r] & [= -> ->] & Hin%items_lookup)%list_elem_of_fmap Ha Hrun. cbn [fst snd].
      assert (¬ waiting r) as Hw by (intros Hw; rewrite (H2 _ _ Hin Hw) in Hrun; by destruct Hrun).
      split; [|by eauto]. apply active_waiting in Ha as [?|?]; [|done]. destruct Hw. by right.
  - by apply poll_inv.
  - destruct IH as [H1 H2 H3 H4 H5]. split; [done|done|done|constructor|]. intros k row Hin. by apply not_elem_of_nil in Hin.
  - by apply stop_inv.
  - destruct IH as [H1 H2 H3 H4 H5]. split; [done|done|set_solver|constructor|]. intros k row Hin. by apply not_elem_of_nil in Hin.
Qed.

(** ** The passes and the handlers, one at a time, are among the interleavings *)

Definition along (s s' : Dispatcher W) : Prop := overlapping s ∅ [] → overlapping s' ∅ [].
#[export] Instance along_preorder : PreOrder along.
Proof. split; [by intros s Hs|]. intros s1 s2 s3 H1 H2 Hs. by apply H2, H1. Qed.

Lemma along_beside {A} (m : fleet A) : beside m → moves along m.
Proof. intros Hm s Hs. eapply ov_beside; [exact Hs|apply Hm]. Qed.
Lemma along_quiet {A} (m : fleet A) : quiet m → moves along m.
Proof. intros Hm. by apply along_beside, quiet_beside. Qed.
Lemma along_for_each {A B} (f : B → A → fleet B) l : (∀ b x, moves along (f b x)) → ∀ b, moves along (for_each f b l).
Proof.
  intros Hf. induction l as [|x l IH]; intros b; cbn [for_each]; [by apply along_quiet|].
  apply (moves_bind along); [apply Hf|exact IH].
Qed.
Lemma along_write f : (∀ db, db_items (f db) = db_items db) → moves along (store_write f).
Proof. intros Hf. apply along_beside. intros s. apply Hf. Qed.
Lemma quiet_was_stopped b : quiet (was_stopped b : fleet bool).
Proof. done. Qed.
#[local] Hint Resolve quiet_was_stopped : quiet.
#[local] Hint Resolve along_quiet along_write : along.
Ltac along_tac := repeat (apply (moves_bind along); [by eauto with along quiet|intros ?]).

Lemma refresh_along b : moves along (_refresh_batch_state env b).
Proof.
  unfold _refresh_batch_state. along_tac. destruct (empty _); [by eauto with along quiet|]. along_tac. cbv zeta. along_tac.
  match goal with |- moves _ (if ?c then _ else _) => destruct c end; [by eauto with along quiet|]. along_tac. by apply along_write.
Qed.

Lemma poll_rows_along b l : ∀ n s,
  overlapping s ∅ (map (λ row, ((b, row.1), row.2)) l) → overlapping (for_each (poll_row env trial_timeout_seconds b) n l s).1 ∅ [].
Proof.
  induction l as [|[i item] l IH]; intros n s Hs; [done|]. cbn [for_each]. rewrite prog_bind_eq.
  pose proof (ov_poll_row b i item n _ s ∅ Hs) as Hp. destruct (poll_row _ _ _ _ _ s) as [s' [m|e]]; [by apply IH|].
  by eapply ov_poll_end.
Qed.

Lemma poll_running_along : moves along (poll_running env trial_timeout_seconds).
Proof.
  unfold poll_running. along_tac. apply along_for_each. intros n x. unfold poll_batch.
  intros s Hs. rewrite prog_bind_eq. cbn [store_read gets]. rewrite prog_bind_eq.
  pose proof (poll_rows_along (bs_batch_id x) _ n s (ov_poll (bs_batch_id x) s ∅ Hs)) as Hp.
  destruct (for_each _ n _ s) as [s' [m|e]]; [|exact Hp]. revert Hp. cbn [fst]. intros Hp.
  refine (_ Hp). apply (moves_bind along); [apply refresh_along|]. intros u. by apply along_quiet.
Qed.

Lemma dispatch_items_along b n sls rows : ∀ acc, moves along (dispatch_items env b n sls acc rows).
Proof.
  induction rows as [|[i item] rows IH]; intros acc; cbn [dispatch_items]; [by apply along_quiet|].
  destruct (negb _); [apply IH|]. along_tac. destruct (_ && _); [by apply along_quiet|].
  apply (moves_bind along); [by apply along_quiet, quiet_pick|]. intros [sl|]; [|apply IH].
  intros s Hs. rewrite prog_bind_eq. destruct (claim b i (sl_slot_id sl) (sl_namespace sl) s) as [s1 r] eqn:Ec.
  assert (∃ ok, r = Ok ok) as [ok ->] by (unfold claim in Ec; destruct (claim_slot_for_item _ _ _ _ _); injection Ec as _ <-; eauto).
  destruct ok; cbn [negb].
  - pose proof (ov_claim _ _ _ _ _ _ _ _ Hs Ec) as H1. rewrite (right_id_L ∅ (∪)) in H1.
    pose proof (ov_submit b i item sl s1 _ _ H1 ltac:(set_solver)) as H2. rewrite difference_diag_L in H2.
    rewrite prog_bind_eq. destruct (_submit env b i item sl s1) as [s2 [sent|e]]; [|exact H2]. by apply (IH _ s2).
  - apply (IH _ s1). unfold claim, claim_slot_for_item in Ec. eapply ov_beside; [exact Hs|].
    destruct (_ <? _)%nat; [by injection Ec as <-|]. destruct (_ !! _) as [row|]; [|by injection Ec as <-].
    destruct (decide _); [done|by injection Ec as <-].
Qed.

Lemma dispatch_queued_along : moves along (dispatch_queued env).
Proof.
  unfold dispatch_queued. along_tac. apply along_for_each. intros n x. unfold dispatch_batch. along_tac.
  destruct (_ || _); [by apply along_quiet|]. along_tac. apply (moves_bind along); [apply dispatch_items_along|]. intros m.
  apply (moves_bind along); [apply refresh_along|]. intros u. by apply along_quiet.
Qed.

Lemma submit_batch_along config request : moves along (submit_batch env config request).
Proof.
  unfold submit_batch. along_tac. destruct a; [by apply along_quiet|]. cbv zeta. along_tac.
  apply (moves_bind along).
  { intros s Hs. destruct (create_batch _ _ _ _ _) as [db|e] eqn:E; [|done]. by eapply ov_create. }
  intros u. along_tac. apply (moves_bind along); [apply dispatch_queued_along|]. intros m. by apply along_quiet.
Qed.

Lemma stop_batch_along b reason : moves along (stop_batch env b reason).
Proof.
  unfold stop_batch. along_tac. destruct a; [|by apply along_quiet]. apply (moves_bind along); [by apply along_beside|]. intros u.
  along_tac. apply (moves_bind along).
  { apply along_for_each. intros acc [i item] s Hs. apply ov_stop_item; [exact Hs|set_solver]. }
  intros stopped. along_tac. by apply along_quiet.
Qed.

Lemma reachable_overlapping s : fleet_reachable env trial_timeout_seconds s → overlapping s ∅ [].
Proof.
  induction 1 as [w|s _ IH|config request s _ IH|b reason s _ IH|f s _ IH|w s _ IH|w s _ IH].
  - apply ov_start.
  - refine (_ IH). unfold tick. apply (moves_bind along); [apply poll_running_along|]. intros polled.
    apply (moves_bind along); [apply dispatch_queued_along|]. intros n. by apply along_quiet.
  - exact (submit_batch_along config request s IH).
  - exact (stop_batch_along b reason s IH).
  - by eapply ov_beside.
  - by eapply ov_beside.
  - by eapply ov_restart.
Qed.

(** C1: In whatever order the store calls of the dispatcher's thread and of the handlers that
    submit and stop batches interleave, whatever was read when, whatever the Controllers
    answer and across restarts, two items that are Assigned or Running never share a slot,
    as long as no stop dequeues an item while its submission is under way
    (stop_overtakes_submission shows one that does). *)
Theorem one_trial_per_slot s submitting polled slot_id k1 k2 r1 r2 :
  overlapping s submitting polled →
  db_items (d_store s) !! k1 = Some r1 → active r1 = true → it_slot_id r1 = Some slot_id →
  db_items (d_store s) !! k2 = Some r2 → active r2 = true → it_slot_id r2 = Some slot_id →
  k1 = k2.
Proof.
  intros Hs H1 Ha1 Hs1 H2 Ha2 Hs2. eapply (oi_one _ _ _ (overlapping_inv _ _ _ Hs)); try done; by apply on_slot_iff.
Qed.
End overlap.

(** ** Two threads *)

(** The dispatcher's thread and the handler of a new batch have each claimed an item, on a slot of
    their own; the second is answered first. *)
Definition claimed (i slot ns : string) (s : Dispatcher unit) : Dispatcher unit := (claim "round-1" i slot ns s).1.
Definition answered (i slot ns : string) (s : Dispatcher unit) : Dispatcher unit :=
  (_submit sample_env "round-1" i (default (new_item [] None) (item "round-1" i (d_store after_submit))) (sample_slot slot ns "Ready" 2) s).1.
Definition two_threads : Dispatcher unit := claimed "c" "s03" "otel-demo-03" (claimed "b" "s02" "otel-demo-02" after_submit).

Lemma claimed_Ok i slot ns s : (claim "round-1" i slot ns s).2 = Ok true → claim "round-1" i slot ns s = (claimed i slot ns s, Ok true).
Proof. apply pair_snd. Qed.
Lemma first_claimed : (claim "round-1" "b" "s02" "otel-demo-02" after_submit).2 = Ok true.
Proof. vm_compute. reflexivity. Qed.
Lemma second_claimed : (claim "round-1" "c" "s03" "otel-demo-03" (claimed "b" "s02" "otel-demo-02" after_submit)).2 = Ok true.
Proof. vm_compute. reflexivity. Qed.
Lemma two_threads_overlap : overlapping sample_env (flit 2700) two_threads ({[("round-1", "c")]} ∪ ({[("round-1", "b")]} ∪ ∅)) [].
Proof.
  eapply ov_claim; [|apply claimed_Ok, second_claimed]. eapply ov_claim; [|apply claimed_Ok, first_claimed].
  exact (reachable_overlapping _ _ _ after_submit_reachable).
Qed.

Definition second_answered : Dispatcher unit := answered "c" "s03" "otel-demo-03" two_threads.
Lemma second_answered_overlap :
  overlapping sample_env (flit 2700) second_answered (({[("round-1", "c")]} ∪ ({[("round-1", "b")]} ∪ ∅)) ∖ {[("round-1", "c")]}) [].
Proof. apply ov_submit; [exact two_threads_overlap|set_solver]. Qed.
Example second_answered_states :
  state_of second_answered "b" = Some (ASSIGNED, Some "s02", 0) ∧ state_of second_answered "c" = Some (RUNNING, Some "s03", 1).
Proof. vm_compute. done. Qed.

Lemma one_trial_per_slot_witness :
  ¬ ∃ k r, k ≠ ("round-1", "c") ∧ db_items (d_store second_answered) !! k = Some r ∧ active r = true ∧ it_slot_id r = Some "s03".
Proof.
  intros (k & r & Hne & Hr & Ha & Hs). apply Hne.
  destruct (state_of_Some _ _ _ _ _ (proj2 second_answered_states)) as (r1 & H1 & Hst & Hs1 & _).
  apply (one_trial_per_slot sample_env (flit 2700) second_answered _ _ "s03" k ("round-1", "c") r r1
           second_answered_overlap Hr Ha Hs H1); [unfold active; rewrite Hst; reflexivity|exact Hs1].
Defined.

(** The stop that [ov_stop_item] leaves out: it read [b] as queued before the claim, dequeues it
    while its submission is under way, and another pass takes the slot. *)
Definition stop_overtakes : Dispatcher unit :=
  let s := claimed "b" "s02" "otel-demo-02" after_submit in
  let s := (stop_item sample_env "round-1" None [] ("b", new_item [] None) s).1 in
  answered "b" "s02" "otel-demo-02" (claimed "c" "s02" "otel-demo-02" s).
Example stop_overtakes_submission : count_rows (on_slot "s02") (d_store stop_overtakes) = 2%nat.
Proof. vm_compute. reflexivity. Qed.
